(* ===== verification/_CoqProject ===== *)
-Q . S2P
Prelude.v
GoTime.v
GoText.v
GoDigits.v
Encoding.v
GoUrl.v
GoNetip.v
Hash.v
Errors.v
GoDuration.v
Domain.v
Database.v
Lockout.v
PendingLogins.v
World.v
Run.v
Metrics.v
Store.v
Sqlite.v
Exec.v
StoreFacts.v
FileStore.v
FileLaws.v
Revocations.v
Keys.v
Password.v
Jwt.v
Totp.v
Csrf.v
Session.v
AuthService.v
Passkeys.v
Account.v
Authorize.v
Redirects.v
TokenService.v
Interleaving.v
Http.v
Middleware.v
OidcHandlers.v
LoginHandlers.v
ClientForm.v
Config.v
AccountHandlers.v
AdminHandlers.v
AdminClients.v
PlaygroundHandler.v
Server.v
Sample.v
TokenFacts.v
AuthFacts.v
SignIn.v
ConsentFacts.v
OidcFacts.v
SecondFactor.v
PasskeyFacts.v
LoginFacts.v
Scope.v
AccountScope.v
KeyRotation.v
CutOff.v
AccountFacts.v
Maintenance.v
AdminFacts.v
Bootstrap.v
Mail.v
Opening.v
Main.v
TokenProperties.v
Availability.v
ServerFacts.v
Completion.v
SqliteFacts.v
SingleUse.v
Ctl.v
Scenarios.v
AccessScenarios.v
LoginScenarios.v
ServerScenarios.v
SqliteScenarios.v
