(* ===== verification/Prelude.v ===== *)
(** * idpico: a verification development of the identity provider

    idpico is an OpenID Connect provider in Go: a browser signs in with a
    password and a second factor, an authorization endpoint issues codes to
    registered clients, a token endpoint exchanges codes and refresh tokens
    for signed tokens, and account and administration pages manage what is
    stored.  This library models its services and handlers as functions of
    the source's names, and proves what makes them correct.

    ** How programs are modelled

    A Go function that reads or writes files, memory shared between requests,
    the clock, random numbers, mail or the response is a program: a tree of
    events, [World.Prog].  [Run.run] executes a program alone; [Run.pool_step]
    lets several take turns, one event at a time, with mutexes respected: a
    lock waits while it is held, but the readers of an RWMutex share it
    ([World.conflicts]); Go's preference for a waiting writer is one of the
    orders.  A [World] is the data directory (one typed value per JSON file, or the mark
    that the file no longer parses; signing_keys.json, which two repositories
    write in two layouts, is one value with two views), the SQLite database, the memory, the
    mutexes held, the outputs, and the number of events so far.  What the outside decides is the class [Run.Env]: the clock, identifiers, random
    bytes, and whether an access to a file succeeds, fails, or breaks off
    after the file was truncated.
    Errors are values of the sum [Errors.res]; instants and durations are
    64-bit integers with Go's wrap-around and saturation (GoTime).

    Parameters stand for code that is not in the repository: Argon2id
    ([Password.Argon2]), keys and PEM ([Keys.KeyLib]), golang-jwt
    ([Jwt.JwtLib]), go-webauthn ([Passkeys.WebAuthn]), chi and httprate
    ([Server.Chi]), cleanenv (an argument of [Config.Load]), what the
    playground does with JSON ([PlaygroundHandler.PlaygroundLib]) and Unicode
    beyond ASCII ([GoText.UnicodeTables]).  Their laws ([EnvLaws], [Argon2Laws],
    [WebAuthnLaws], [ChiLaws]) say what their documentation says; Sample and
    the Scenarios files instantiate all of them, and the services run there.

    ** The parts

    - The language: GoTime, GoText, GoDigits, Encoding, GoUrl, GoDuration, GoNetip, Hash are what the source uses of Go's
      standard library, with the round trips the services rely on.
    - src/internal/errors, domain: Errors, Domain.
    - src/internal/store: Store is the interface, a class with a field per
      repository operation, and its contract, [StoreLaws]: each operation is a
      query or an update of one table, or fails as a storage does.  The key
      repository of the key service is part of it.  Services are verified
      against the contract (Exec and StoreFacts: weakest preconditions,
      footprints, symbolic execution; Scope: invariants of programs).
      FileStore models src/internal/store/file, and FileLaws proves that it
      keeps the contract.  Revocations refines its revocation table to a map.
      Database has the tables of src/internal/store/migrations with their
      constraints, and the statements run on them; Sqlite is
      src/internal/store/sqlite, the other store ([Sqlite.SQLiteStore]).
      Opening has what happens before there is a store, and beside it: opening,
      migrations, backups.  Its programs ([Opening.Sys]) run on a host, file by
      file, any call of which may fail or be the last one.
    - src/internal/crypto: Keys (key service and cache), Jwt (claims, signing,
      verification), KeyRotation.
    - src/internal/auth: Password, Totp, Csrf, Session, Lockout,
      PendingLogins, AuthService (login and second factor), Passkeys, Account
      (links by mail); their facts are AuthFacts, SignIn, SecondFactor,
      PasskeyFacts and AccountFacts.
    - src/internal/oidc: Authorize (requests, codes, consent), TokenService
      (grants, revocation, introspection, userinfo, logout); facts in
      TokenFacts, CutOff, TokenProperties, Availability, ConsentFacts,
      Redirects.
    - src/internal/http: Http (requests, responses, pages as their data),
      OidcHandlers, LoginHandlers, AccountHandlers, AdminHandlers and
      AdminClients, ClientForm, Middleware, PlaygroundHandler (the built-in
      client, which asks the server in process), Server (options, routes and
      mounted routers, limits, discovery, key set, health); facts in OidcFacts, LoginFacts,
      AccountScope, AdminFacts, ServerFacts.
    - src/internal/config, mail, metrics, maintenance: Config, Mail, Metrics,
      Maintenance.
    - src/cmd: Bootstrap and Main (cmd/idpico), Ctl (cmd/idpicoctl and
      cmd/seed).
    - Concurrency: Interleaving and SingleUse (requests at the token endpoint,
      over the file store and over SQLite), Completion (the whole server).

    Handlers call services, services call repositories and each other by the
    calls of the source; a handler's definition is the whole handler.  Sources
    are named at the head of each file, and a definition has the name of the
    Go function, prefixed or suffixed where Rocq needs distinct names.

    ** What is shown

    - Tokens (TokenProperties, Interleaving): a code or refresh token
      is accepted only under every condition of the protocol, once, also when
      requests interleave; reuse cuts off the grant; userinfo and
      introspection accept only live tokens of active users; a rightful
      exchange succeeds when the storage works (Availability).
    - The server as a whole (Completion): every request is answered, without
      a deadlock, however requests interleave with each other and with the
      maintenance.  Each program takes its mutexes in the order of [rank] and
      gives them back on every path, read locks included; the playground asks
      the server while it holds its own.
    - The stores (SqliteFacts): on the operations of sessions, codes, refresh
      tokens, revocations and links both compute the same functions of rows
      ([stores_agree] lists them and says what is left out); over SQLite the
      operations of the key service never run into the index that allows one
      active key ([active_key_kept]).
    - Crashes (Opening): a backup is whole or absent, and a database of an
      earlier release is migrated only once a copy of it is in place.
    - Authorization (OidcFacts, ConsentFacts, Redirects): codes are issued
      only for valid requests of signed-in, consenting users, and the client
      reads back what was sent.
    - Signing in (SignIn, SecondFactor, PasskeyFacts, Totp, Lockout,
      PendingLogins): what a successful login implies, and how many guesses
      concurrent logins get before the lockout refuses them.
    - Pages (LoginFacts, AccountScope, AdminFacts, ServerFacts, Csrf): where
      browsers are sent, whose rows a request can touch, who administers, and
      that nothing changes without the CSRF token.  The playground
      (PlaygroundHandler) waits for what it asked for, once.
    - Keys (KeyRotation, ServerFacts): rotation keeps keys, and what is
      accepted verifies with a published key.
    - Operation (Config, Bootstrap, Middleware, Maintenance, Revocations,
      ClientForm, Mail, Ctl): configurations that load are sound, a start only
      adds, client addresses cannot be forged, purging revives nothing,
      registered clients and mails are well formed, the command line ends.

    Hypotheses are decidable facts of the inputs or of the world before, and
    where a property has some, a scenario evaluates it on a concrete input.

    ** Bounds and fuel

    Loops over lists are structural.  Where Go's loop is not, the fuel is the
    length of what is consumed: [GoDuration.components] and
    [GoNetip.ipv6_groups] (the text, the eight groups), [Hash.chunks] (the
    padded message), [GoText.fold_reaches] (the longest orbit of Unicode
    folding), [AccountHandlers.groups_from] (the secret), and
    [Ctl.positional_from] (the arguments; [Ctl.parseOne_terminates]).

    ** Not modelled

    SQLite itself: a statement has the meaning SQL gives it, and a statement
    or a transaction happens at one instant, as the pool has one connection.
    The services are verified against [StoreLaws], which SQLite keeps only in
    part ([stores_agree]): it refuses rows without their user or client, and
    deletes along references.  What a migration does to the rows of an older
    schema is left open.  Also left out are html/template rendering (a page is
    its data), logging, the request log and timing metrics, the HTTP listener
    and signals, the LogMailer, the example client, and test code.  The
    theorems of ServerFacts hold whatever handler the playground is; Completion
    takes the one of PlaygroundHandler.  Between two events of a program the
    model allows others to run; a handler's use of one mutex-protected map is
    one event. *)
From Stdlib Require Export ZArith Lia.
From stdpp Require Export prelude strings gmap list option.

(** ** Prelude: scope and notations *)

Declare Scope go_scope.
Delimit Scope go_scope with go.

(** Go's [==] on comparable values, as a computable test. *)
Notation "x ==? y" := (bool_decide (x = y))
  (at level 70, no associativity) : go_scope.
Notation "x !=? y" := (negb (bool_decide (x = y)))
  (at level 70, no associativity) : go_scope.

(** ** Hint databases *)

(** [table]: facts about the list tables repositories keep;
    [touch]: footprints of effectful programs;
    [keep]: invariants preserved by effectful programs. *)
Create HintDb table.
Create HintDb touch.
Create HintDb keep.

(** ** Tactics shared by the development *)

(** Turn boolean tests in the context into propositions. *)
Ltac bool_to_prop :=
  repeat match goal with
  | H : andb _ _ = true |- _ => apply andb_true_iff in H; destruct H
  | H : andb _ _ = false |- _ => apply andb_false_iff in H
  | H : orb _ _ = false |- _ => apply orb_false_iff in H; destruct H
  | H : orb _ _ = true |- _ => apply orb_true_iff in H
  | H : negb _ = true |- _ => apply negb_true_iff in H
  | H : negb _ = false |- _ => apply negb_false_iff in H
  | H : bool_decide _ = true |- _ => apply bool_decide_eq_true in H
  | H : bool_decide _ = false |- _ => apply bool_decide_eq_false in H
  | H : (_ <? _)%Z = true |- _ => apply Z.ltb_lt in H
  | H : (_ <? _)%Z = false |- _ => apply Z.ltb_ge in H
  | H : (_ <=? _)%Z = true |- _ => apply Z.leb_le in H
  | H : (_ <=? _)%Z = false |- _ => apply Z.leb_gt in H
  end.

(** Split the innermost [match] scrutinee of a hypothesis, keeping the equation. *)
Ltac split_match_in H :=
  match type of H with
  | context [match ?x with _ => _ end] =>
      lazymatch x with
      | context [match _ with _ => _ end] => fail
      | _ => let E := fresh "E" in destruct x eqn:E
      end
  end.

(** Same for the goal. *)
Ltac split_match :=
  match goal with
  | |- context [match ?x with _ => _ end] =>
      lazymatch x with
      | context [match _ with _ => _ end] => fail
      | _ => let E := fresh "E" in destruct x eqn:E
      end
  end.

(** ** First-match list operations

    The loops [for i, x := range xs { if p(x) { ...; return } }] of the
    stores: return, replace or remove the first element that satisfies [p]. *)

Section first_match.
Context {A : Type} (p : A → bool).

Fixpoint find_first (l : list A) : option A :=
  match l with
  | [] => None
  | x :: l => if p x then Some x else find_first l
  end.

Fixpoint replace_first (f : A → A) (l : list A) : option (list A) :=
  match l with
  | [] => None
  | x :: l => if p x then Some (f x :: l) else cons x <$> replace_first f l
  end.

Fixpoint remove_first (l : list A) : option (list A) :=
  match l with
  | [] => None
  | x :: l => if p x then Some l else cons x <$> remove_first l
  end.

Lemma find_first_Some l x :
  find_first l = Some x → x ∈ l ∧ p x = true.
Proof.
  induction l as [|y l IH]; simpl; [done|].
  destruct (p y) eqn:E; intros; simplify_eq; [|naive_solver set_solver].
  split; [left|done].
Qed.

Lemma find_first_None l :
  find_first l = None ↔ ∀ x, x ∈ l → p x = false.
Proof.
  induction l as [|y l IH]; simpl; [set_solver|].
  destruct (p y) eqn:E; split; [done| | |].
  - intros H. specialize (H y). rewrite H in E by left. done.
  - intros H x [->|Hx]%elem_of_cons; [done|]. by apply IH.
  - intros H. apply IH. intros x Hx. apply H. by right.
Qed.

Lemma find_first_is_Some l x :
  x ∈ l → p x = true → is_Some (find_first l).
Proof.
  intros Hx Hp. destruct (find_first l) eqn:E; [done|].
  rewrite find_first_None in E. rewrite E in Hp; done.
Qed.

Lemma find_first_app l1 l2 :
  find_first (l1 ++ l2) =
  match find_first l1 with Some x => Some x | None => find_first l2 end.
Proof. induction l1 as [|x l1 IH]; simpl; [done|]. by destruct (p x). Qed.

Lemma replace_first_Some f l l' :
  replace_first f l = Some l' ↔
  ∃ l1 x l2, l = l1 ++ x :: l2 ∧ l' = l1 ++ f x :: l2 ∧ p x = true ∧
             ∀ y, y ∈ l1 → p y = false.
Proof.
  revert l'. induction l as [|y l IH]; intros l'; simpl.
  { split; [done|]. intros (l1 & x & l2 & H & _). by destruct l1. }
  destruct (p y) eqn:E.
  - split.
    + intros [= <-]. exists [], y, l. set_solver.
    + intros ([|z l1] & x & l2 & H1 & H2 & H3 & H4); simplify_eq/=; [done|].
      specialize (H4 z). rewrite H4 in E by left. done.
  - rewrite fmap_Some. setoid_rewrite IH. split.
    + intros (l'' & (l1 & x & l2 & -> & -> & Hx & Hl) & ->).
      exists (y :: l1), x, l2. set_solver.
    + intros ([|z l1] & x & l2 & H1 & H2 & H3 & H4); simplify_eq/=; [congruence|].
      exists (l1 ++ f x :: l2). split; [|done].
      exists l1, x, l2. set_solver.
Qed.

Lemma replace_first_None f l :
  replace_first f l = None ↔ find_first l = None.
Proof.
  induction l as [|x l IH]; simpl; [done|].
  destruct (p x); [done|]. rewrite fmap_None. done.
Qed.

Lemma replace_first_find f l x :
  find_first l = Some x → is_Some (replace_first f l).
Proof.
  intros H. destruct (replace_first f l) eqn:E; [done|].
  apply replace_first_None in E. congruence.
Qed.

Lemma remove_first_Some l l' :
  remove_first l = Some l' ↔
  ∃ l1 x l2, l = l1 ++ x :: l2 ∧ l' = l1 ++ l2 ∧ p x = true ∧
             ∀ y, y ∈ l1 → p y = false.
Proof.
  revert l'. induction l as [|y l IH]; intros l'; simpl.
  { split; [done|]. intros (l1 & x & l2 & H & _). by destruct l1. }
  destruct (p y) eqn:E.
  - split.
    + intros [= <-]. exists [], y, l. set_solver.
    + intros ([|z l1] & x & l2 & H1 & H2 & H3 & H4); simplify_eq/=; [done|].
      specialize (H4 z). rewrite H4 in E by left. done.
  - rewrite fmap_Some. setoid_rewrite IH. split.
    + intros (l'' & (l1 & x & l2 & -> & -> & Hx & Hl) & ->).
      exists (y :: l1), x, l2. set_solver.
    + intros ([|z l1] & x & l2 & H1 & H2 & H3 & H4); simplify_eq/=; [congruence|].
      exists (l1 ++ l2). split; [|done].
      exists l1, x, l2. set_solver.
Qed.

Lemma remove_first_None l :
  remove_first l = None ↔ find_first l = None.
Proof.
  induction l as [|x l IH]; simpl; [done|].
  destruct (p x); [done|]. rewrite fmap_None. done.
Qed.

Lemma remove_first_elem l l' x :
  remove_first l = Some l' → x ∈ l' → x ∈ l.
Proof.
  intros (l1 & y & l2 & -> & -> & _)%remove_first_Some. set_solver.
Qed.

(** An element of the replaced list is an old one or the new image of one. *)
Lemma replace_first_elem f l l' x :
  replace_first f l = Some l' → x ∈ l' →
  x ∈ l ∨ ∃ y, y ∈ l ∧ p y = true ∧ x = f y.
Proof.
  intros (l1 & y & l2 & -> & -> & Hp & _)%replace_first_Some. set_solver.
Qed.

(** The replaced element is found in its place. *)
Lemma find_first_replace f l l' x :
  replace_first f l = Some l' → find_first l = Some x → p (f x) = true → find_first l' = Some (f x).
Proof.
  intros (l1 & y & l2 & -> & -> & Hy & Hl1)%replace_first_Some Hf Hp.
  assert (find_first l1 = None) as Hn by (by apply find_first_None).
  rewrite find_first_app, Hn in *. simpl in *. rewrite Hy in Hf. injection Hf as ->. by rewrite Hp.
Qed.
End first_match.

(** Another search does not see the replacement. *)
Lemma find_first_replace_other {A} (p q : A → bool) f l l' :
  replace_first p f l = Some l' → (∀ x, p x = true → q x = false ∧ q (f x) = false) →
  find_first q l' = find_first q l.
Proof.
  intros (l1 & y & l2 & -> & -> & Hy & _)%replace_first_Some Hq.
  rewrite !find_first_app. destruct (find_first q l1); [done|]. simpl.
  destruct (Hq y Hy) as [-> ->]. done.
Qed.

Lemma sublist_filter_list {A} (p : A → bool) l : List.filter p l `sublist_of` l.
Proof.
  induction l as [|x l IH]; [done|]. cbn.
  destruct (p x); [by apply sublist_skip|by apply sublist_cons].
Qed.

(** ** Tables: lists of rows with a key *)

Section keyed.
Context {A K : Type} `{EqDecision K} (key : A → K).

(** No two rows share a key. *)
Definition unique_by (l : list A) : Prop := NoDup (key <$> l).

Lemma unique_by_elem l x y :
  unique_by l → x ∈ l → y ∈ l → key x = key y → x = y.
Proof.
  unfold unique_by. intros H Hx Hy E.
  apply list_elem_of_lookup in Hx as [i Hi], Hy as [j Hj].
  assert (i = j) as ->; [|congruence].
  eapply NoDup_lookup; [exact H| |]; rewrite list_lookup_fmap.
  - by rewrite Hi.
  - rewrite Hj. simpl. by rewrite E.
Qed.

Lemma find_first_unique l x :
  unique_by l → x ∈ l →
  find_first (λ y, bool_decide (key y = key x)) l = Some x.
Proof.
  intros Hu Hx.
  destruct (find_first_is_Some (λ y, bool_decide (key y = key x)) l x)
    as [y Hy]; [done|by rewrite bool_decide_eq_true|].
  rewrite Hy. apply find_first_Some in Hy as [Hy1 Hy2].
  apply bool_decide_eq_true in Hy2. f_equal. eauto using unique_by_elem.
Qed.

Lemma unique_by_app_fresh l x :
  unique_by l → (∀ y, y ∈ l → key y ≠ key x) → unique_by (l ++ [x]).
Proof.
  unfold unique_by. intros Hu Hf. rewrite fmap_app. apply list.NoDup_app.
  split_and!; [done| |apply NoDup_singleton].
  intros k Hk. apply list_elem_of_fmap in Hk as (y & -> & Hy).
  simpl. rewrite list_elem_of_singleton. by apply Hf.
Qed.

Lemma unique_by_replace p f l l' :
  (∀ x, p x = true → key (f x) = key x) →
  replace_first p f l = Some l' → unique_by l → unique_by l'.
Proof.
  intros Hk (l1 & y & l2 & -> & -> & Hp & _)%replace_first_Some.
  unfold unique_by. rewrite !fmap_app, !fmap_cons. by rewrite Hk.
Qed.

Lemma unique_by_remove p l l' :
  remove_first p l = Some l' → unique_by l → unique_by l'.
Proof.
  intros (l1 & y & l2 & -> & -> & Hp & _)%remove_first_Some.
  unfold unique_by. rewrite !fmap_app, !fmap_cons. intros H.
  apply (sublist_NoDup _ _ H).
  apply sublist_app; [done|by apply sublist_cons].
Qed.

(** Removing the row with a key leaves the rows with other keys. *)
Lemma remove_first_others `{!EqDecision K} (k : K) l :
  unique_by l →
  default l (remove_first (λ x, bool_decide (key x = k)) l)
    = List.filter (λ x, negb (bool_decide (key x = k))) l.
Proof.
  unfold unique_by. induction l as [|x l IH]; [done|]. rewrite fmap_cons. intros [Hx Hl]%list.NoDup_cons.
  cbn [remove_first List.filter]. case_bool_decide as Hk; cbn [negb].
  - subst k. cbn [default from_option id]. clear IH Hl.
    induction l as [|y l IH]; [done|]. rewrite fmap_cons, not_elem_of_cons in Hx. destruct Hx as [Hne Hx].
    cbn [List.filter]. rewrite bool_decide_eq_false_2 by congruence. cbn [negb]. f_equal. by apply IH.
  - rewrite <-IH by done. by destruct (remove_first _ l).
Qed.

Lemma unique_by_filter (P : A → Prop) `{!∀ x, Decision (P x)} l :
  unique_by l → unique_by (filter P l).
Proof.
  unfold unique_by. intros Hu. apply (sublist_NoDup _ _ Hu). clear Hu.
  induction l as [|x l IH]; [done|]. rewrite filter_cons.
  case_decide; simpl; [apply sublist_skip|apply sublist_cons]; auto.
Qed.

Lemma unique_by_sublist l l' : l' `sublist_of` l → unique_by l → unique_by l'.
Proof. unfold unique_by. intros Hs Hu. eapply sublist_NoDup; [exact Hu|by apply fmap_sublist]. Qed.

Lemma unique_by_map (f : A → A) l :
  (∀ x, key (f x) = key x) → unique_by l → unique_by (f <$> l).
Proof.
  unfold unique_by. intros Hf.
  rewrite <-list_fmap_compose.
  rewrite (list_fmap_ext (key ∘ f) key l); [done|].
  intros; simpl; apply Hf.
Qed.
End keyed.

Lemma omap_nil_None {A B} (f : A → option B) l x : omap f l = [] → x ∈ l → f x = None.
Proof.
  intros Hn Hx. destruct (f x) as [y|] eqn:E; [|done].
  assert (y ∈ omap f l) as Hy by (apply list_elem_of_omap; eauto).
  rewrite Hn in Hy. by apply not_elem_of_nil in Hy.
Qed.

#[export] Hint Resolve unique_by_filter unique_by_remove : table.

(** ** Sorting

    [sort.Slice] and [sort.SliceStable] with a less function: a stable
    insertion sort (the order [sort.Slice] leaves equal elements in is
    unspecified; no theorem depends on it). *)

Section sort_by.
Context {A : Type} (less : A → A → bool).

Fixpoint insert_by (x : A) (l : list A) : list A :=
  match l with
  | [] => [x]
  | y :: l' => if less y x then y :: insert_by x l' else x :: l
  end.

Definition sort_by (l : list A) : list A := foldr insert_by [] l.

Lemma insert_by_Permutation x l : insert_by x l ≡ₚ x :: l.
Proof.
  induction l as [|y l IH]; simpl; [done|].
  destruct (less y x); [|done]. rewrite IH. apply Permutation_swap.
Qed.

Lemma sort_by_Permutation l : sort_by l ≡ₚ l.
Proof.
  induction l as [|x l IH]; simpl; [done|]. by rewrite insert_by_Permutation, IH.
Qed.

Lemma sort_by_elem l x : x ∈ sort_by l ↔ x ∈ l.
Proof. by rewrite sort_by_Permutation. Qed.
End sort_by.

(** The function an application applies. *)
Ltac head_of t := lazymatch t with ?f _ => head_of f | _ => t end.
