(* ===== verification/GoTime.v ===== *)
(** * Go integers, instants and durations

    [int], [int64] and [time.Duration] are 64-bit; they are integers here,
    with [wrap64] where an operation of the source can leave the range.  A
    [time.Time] is its instant in nanoseconds since the Unix epoch: the
    monotonic reading and the location of a Go value are not kept by the JSON
    files and no comparison of the source depends on them.  [zero_time] is
    the zero value (1 January of year 1 UTC), which the source tests with
    [IsZero]. *)
From S2P Require Import Prelude.
#[local] Open Scope Z_scope.

Definition max_int64 : Z := 2 ^ 63 - 1.
Definition min_int64 : Z := - 2 ^ 63.

(** Two's complement wrap-around of a 64-bit operation. *)
Definition wrap64 (z : Z) : Z := (z + 2 ^ 63) mod 2 ^ 64 - 2 ^ 63.

(** [Time.Sub] saturates instead of wrapping. *)
Definition sat64 (z : Z) : Z := Z.max min_int64 (Z.min max_int64 z).

Lemma wrap64_id z : min_int64 <= z <= max_int64 -> wrap64 z = z.
Proof.
  unfold wrap64, min_int64, max_int64. intros H.
  rewrite Z.mod_small by lia. lia.
Qed.

Lemma wrap64_range z : min_int64 <= wrap64 z <= max_int64.
Proof.
  unfold wrap64, min_int64, max_int64.
  pose proof (Z.mod_pos_bound (z + 2 ^ 63) (2 ^ 64)). lia.
Qed.

Lemma sat64_mono a b : a <= b -> sat64 a <= sat64 b.
Proof. unfold sat64. lia. Qed.

(** ** Durations, in nanoseconds *)

Definition Millisecond : Z := 1000000.
Definition Second : Z := 1000000000.
Definition Minute : Z := 60 * Second.
Definition Hour : Z := 60 * Minute.

(** ** Instants *)

Definition zero_time : Z := - 62135596800 * Second.
Definition IsZero (t : Z) : bool := t =? zero_time.
Definition After (t u : Z) : bool := u <? t.
Definition Before (t u : Z) : bool := t <? u.
Definition Add (t d : Z) : Z := t + d.
Definition Sub (t u : Z) : Z := sat64 (t - u).

(** [Time.Unix]: whole seconds, rounded down; [time.Unix(sec, nsec)]. *)
Definition Unix (t : Z) : Z := t / Second.
Definition FromUnix (sec nsec : Z) : Z := sec * Second + nsec.

Lemma After_spec t u : After t u = true <-> u < t.
Proof. unfold After. apply Z.ltb_lt. Qed.

Lemma After_false t u : After t u = false <-> t <= u.
Proof. unfold After. apply Z.ltb_ge. Qed.

Lemma Unix_mono t u : t <= u -> Unix t <= Unix u.
Proof. unfold Unix, Second. apply Z.div_le_mono. lia. Qed.

Lemma Unix_le t : Unix t * Second <= t.
Proof. unfold Unix, Second. pose proof (Z.mul_div_le t 1000000000). lia. Qed.

Lemma Unix_FromUnix sec nsec :
  0 <= nsec < Second -> Unix (FromUnix sec nsec) = sec.
Proof.
  unfold Unix, FromUnix, Second. intros H.
  rewrite Z.add_comm, Z.div_add by lia. rewrite Z.div_small; lia.
Qed.
