(* ===== verification/GoText.v ===== *)
(** * Go strings

    A Go string is a sequence of bytes, and so is a Rocq [string]: [bytes]
    lists them as integers.  This file models what the source uses of the
    packages [strings], [unicode/utf8], [unicode] and [strconv].  White space
    is Unicode white space, recognised in its UTF-8 encodings.  The case
    tables of package [unicode] beyond ASCII are the class [UnicodeTables];
    everything else is defined. *)
From S2P Require Import Prelude GoTime.
From Stdlib Require Import Ascii.
From stdpp Require Import pretty.
#[local] Open Scope Z_scope.

(** ** Bytes *)

Fixpoint bytes (s : string) : list Z :=
  match s with
  | EmptyString => []
  | String c s => Z.of_N (N_of_ascii c) :: bytes s
  end.

Fixpoint of_bytes (l : list Z) : string :=
  match l with
  | [] => EmptyString
  | b :: l => String (ascii_of_N (Z.to_N b)) (of_bytes l)
  end.

Definition is_byte (b : Z) : Prop := 0 <= b < 256.

Lemma bytes_range s : Forall is_byte (bytes s).
Proof.
  induction s as [|c s IH]; simpl; constructor; [|done].
  unfold is_byte. pose proof (N_ascii_bounded c). lia.
Qed.

Lemma of_bytes_bytes s : of_bytes (bytes s) = s.
Proof.
  induction s as [|c s IH]; simpl; [done|].
  by rewrite N2Z.id, ascii_N_embedding, IH.
Qed.

Lemma bytes_of_bytes l : Forall is_byte l -> bytes (of_bytes l) = l.
Proof.
  unfold is_byte. induction 1 as [|b l Hb Hl IH]; simpl; [done|].
  rewrite N_ascii_embedding by lia. rewrite IH, Z2N.id by lia. done.
Qed.

Lemma bytes_inj s t : bytes s = bytes t -> s = t.
Proof. intros H. by rewrite <-(of_bytes_bytes s), H, of_bytes_bytes. Qed.

Lemma bytes_app s t : bytes (s +:+ t) = bytes s ++ bytes t.
Proof. induction s as [|c s IH]; simpl; [done|]. by rewrite IH. Qed.

Lemma of_bytes_app l k : of_bytes (l ++ k) = of_bytes l +:+ of_bytes k.
Proof. induction l as [|b l IH]; simpl; [done|]. by rewrite IH. Qed.

(** [len(s)]. *)
Definition len (s : string) : Z := Z.of_nat (String.length s).

(** Slicing [s[n:]] and [s[:n]], for [n] in range. *)
Fixpoint str_drop (n : nat) (s : string) : string :=
  match n, s with
  | S n, String _ s => str_drop n s
  | _, _ => s
  end.

Fixpoint str_take (n : nat) (s : string) : string :=
  match n, s with
  | S n, String c s => String c (str_take n s)
  | _, _ => EmptyString
  end.

Definition HasPrefix (s prefix : string) : bool := String.prefix prefix s.

(** [strings.TrimSuffix] where [strings.HasSuffix] holds. *)
Definition CutSuffix (s suffix : string) : option string :=
  let n := (String.length s - String.length suffix)%nat in
  if bool_decide (drop n (bytes s) = bytes suffix) then Some (of_bytes (take n (bytes s))) else None.
Definition TrimSuffix (s suffix : string) : string := default s (CutSuffix s suffix).
Definition TrimPrefix (s prefix : string) : string :=
  if HasPrefix s prefix then str_drop (String.length prefix) s else s.

(** [strings.TrimRight] with one ASCII character. *)
Fixpoint TrimRight (c : ascii) (s : string) : string :=
  match s with
  | EmptyString => EmptyString
  | String d s =>
      match TrimRight c s with
      | EmptyString => if Ascii.eqb d c then EmptyString else String d EmptyString
      | s => String d s
      end
  end.

(** ** UTF-8 (package unicode/utf8) *)

Definition RuneError : Z := 0xFFFD.
Definition RuneSelf : Z := 0x80.

Definition in_range (lo hi b : Z) : bool := (lo <=? b) && (b <=? hi).
Definition cont (b : Z) : bool := in_range 0x80 0xBF b.

(** The second byte a leading byte admits (no overlong form, no surrogate,
    nothing above U+10FFFF). *)
Definition second2 (b0 b1 : Z) : bool := in_range 0xC2 0xDF b0 && cont b1.
Definition second3 (b0 b1 : Z) : bool :=
  ((b0 =? 0xE0) && in_range 0xA0 0xBF b1) ||
  ((b0 =? 0xED) && in_range 0x80 0x9F b1) ||
  ((in_range 0xE1 0xEC b0 || in_range 0xEE 0xEF b0) && cont b1).
Definition second4 (b0 b1 : Z) : bool :=
  ((b0 =? 0xF0) && in_range 0x90 0xBF b1) ||
  ((b0 =? 0xF4) && in_range 0x80 0x8F b1) ||
  (in_range 0xF1 0xF3 b0 && cont b1).

(** The runes a [range] loop visits; an invalid byte counts as one
    [RuneError]. *)
Fixpoint runes (l : list Z) : list Z :=
  match l with
  | [] => []
  | b0 :: l1 =>
      if b0 <? RuneSelf then b0 :: runes l1
      else match l1 with
      | [] => [RuneError]
      | b1 :: l2 =>
          if second2 b0 b1 then (b0 - 0xC0) * 64 + (b1 - 0x80) :: runes l2
          else match l2 with
          | [] => RuneError :: runes l1
          | b2 :: l3 =>
              if second3 b0 b1 && cont b2 then
                (b0 - 0xE0) * 4096 + (b1 - 0x80) * 64 + (b2 - 0x80) :: runes l3
              else match l3 with
              | [] => RuneError :: runes l1
              | b3 :: l4 =>
                  if second4 b0 b1 && cont b2 && cont b3 then
                    (b0 - 0xF0) * 262144 + (b1 - 0x80) * 4096
                    + (b2 - 0x80) * 64 + (b3 - 0x80) :: runes l4
                  else RuneError :: runes l1
              end
          end
      end
  end.

Definition RuneCountInString (s : string) : Z :=
  Z.of_nat (length (runes (bytes s))).

Definition encode_rune (r : Z) : list Z :=
  if in_range 0 0x7F r then [r]
  else if in_range 0x80 0x7FF r then [0xC0 + r / 64; 0x80 + r mod 64]
  else if in_range 0x800 0xD7FF r || in_range 0xE000 0xFFFF r then
    [0xE0 + r / 4096; 0x80 + r / 64 mod 64; 0x80 + r mod 64]
  else if in_range 0x10000 0x10FFFF r then
    [0xF0 + r / 262144; 0x80 + r / 4096 mod 64; 0x80 + r / 64 mod 64; 0x80 + r mod 64]
  else [0xEF; 0xBF; 0xBD].

(** ** Letter case (packages unicode and strings) *)

(** The tables of package [unicode] for runes outside ASCII:
    [unicode.ToLower], [unicode.ToUpper] and [unicode.SimpleFold] (the next rune, in increasing
    order and wrapping around, of the set of runes equal under simple case
    folding), and [strconv.IsPrint]. *)
Class UnicodeTables := {
  to_lower : Z -> Z;
  to_upper : Z -> Z;
  simple_fold : Z -> Z;
  is_print : Z -> bool;
}.

Definition is_upper (r : Z) : bool := in_range 65 90 r.
Definition is_lower (r : Z) : bool := in_range 97 122 r.

Section case.
Context `{UnicodeTables}.

(** [unicode.ToLower], whose ASCII part is in the code. *)
Definition rune_lower (r : Z) : Z :=
  if r <? RuneSelf then (if is_upper r then r + 32 else r) else to_lower r.

(** [strings.ToLower]: [Map] over the runes; an invalid byte becomes the
    encoding of [RuneError]. *)
Definition ToLower (s : string) : string :=
  of_bytes (concat (map (fun r => encode_rune (rune_lower r)) (runes (bytes s)))).

(** [strings.ToUpper]. *)
Definition rune_upper (r : Z) : Z :=
  if r <? RuneSelf then (if is_lower r then r - 32 else r) else to_upper r.

Definition ToUpper (s : string) : string :=
  of_bytes (concat (map (fun r => encode_rune (rune_upper r)) (runes (bytes s)))).

(** The loop of [strings.EqualFold] over a folding orbit.  The orbits of
    Unicode have at most four runes; eight steps leave room. *)
Fixpoint fold_reaches (fuel : nat) (r start target : Z) : bool :=
  match fuel with
  | O => r =? target
  | S n =>
      if negb (r =? start) && (r <? target)
      then fold_reaches n (simple_fold r) start target
      else r =? target
  end.

Definition rune_fold_eq (a b : Z) : bool :=
  if a =? b then true
  else
    let sr := Z.min a b in
    let tr := Z.max a b in
    if tr <? RuneSelf then is_upper sr && (tr =? sr + 32)
    else fold_reaches 8 (simple_fold sr) sr tr.

Fixpoint runes_fold_eq (l k : list Z) : bool :=
  match l, k with
  | [], [] => true
  | a :: l, b :: k => rune_fold_eq a b && runes_fold_eq l k
  | _, _ => false
  end.

(** [strings.EqualFold]. *)
Definition EqualFold (s t : string) : bool :=
  runes_fold_eq (runes (bytes s)) (runes (bytes t)).

Lemma rune_fold_eq_refl a : rune_fold_eq a a = true.
Proof. unfold rune_fold_eq. by rewrite Z.eqb_refl. Qed.

Lemma rune_fold_eq_sym a b : rune_fold_eq a b = rune_fold_eq b a.
Proof.
  unfold rune_fold_eq. rewrite Z.eqb_sym, Z.min_comm, Z.max_comm. done.
Qed.

Lemma EqualFold_refl s : EqualFold s s = true.
Proof.
  unfold EqualFold. induction (runes (bytes s)) as [|a l IH]; simpl; [done|].
  by rewrite rune_fold_eq_refl.
Qed.

Lemma EqualFold_sym s t : EqualFold s t = EqualFold t s.
Proof.
  unfold EqualFold. generalize (runes (bytes s)) (runes (bytes t)).
  induction l as [|a l IH]; intros [|b k]; simpl; try done.
  by rewrite rune_fold_eq_sym, IH.
Qed.
End case.

(** The tables restricted to the runes whose case is an ASCII letter: U+017F
    (long s) folds with s and S, U+212A (Kelvin) with k and K, and U+0131
    (dotless i) has the upper case I.  Witnesses run with this instance; no
    other rune of theirs is outside ASCII. *)
#[export, refine] Instance ascii_fold_tables : UnicodeTables := {
  to_lower r := if r =? 0x212A then 107 else r;
  to_upper r := if r =? 0x17F then 83 else if r =? 0x131 then 73 else r;
  simple_fold r :=
    if r =? 75 then 107 else if r =? 107 then 0x212A else if r =? 0x212A then 75
    else if r =? 83 then 115 else if r =? 115 then 0x17F else if r =? 0x17F then 83
    else if is_upper r then r + 32
    else if in_range 97 122 r then r - 32 else r;
  is_print _ := false
}.
Defined.

(** ** White space (strings.TrimSpace, strings.Fields) *)

(** The UTF-8 encodings of the runes with the White_Space property. *)
Definition sp1 (b0 : Z) : bool := in_range 9 13 b0 || (b0 =? 32).
Definition sp2 (b0 b1 : Z) : bool := (b0 =? 0xC2) && ((b1 =? 0x85) || (b1 =? 0xA0)).
Definition sp3 (b0 b1 b2 : Z) : bool :=
  ((b0 =? 0xE1) && (b1 =? 0x9A) && (b2 =? 0x80)) ||
  ((b0 =? 0xE2) && (b1 =? 0x80) &&
     (in_range 0x80 0x8A b2 || in_range 0xA8 0xA9 b2 || (b2 =? 0xAF))) ||
  ((b0 =? 0xE2) && (b1 =? 0x81) && (b2 =? 0x9F)) ||
  ((b0 =? 0xE3) && (b1 =? 0x80) && (b2 =? 0x80)).

Section trim.
Variables (t1 : Z -> bool) (t2 : Z -> Z -> bool) (t3 : Z -> Z -> Z -> bool).

(** Drop the leading encodings the tests accept. *)
Fixpoint trim_by (l : list Z) : list Z :=
  match l with
  | [] => []
  | b0 :: l1 =>
      if t1 b0 then trim_by l1
      else match l1 with
      | [] => l
      | b1 :: l2 =>
          if t2 b0 b1 then trim_by l2
          else match l2 with
          | [] => l
          | b2 :: l3 => if t3 b0 b1 b2 then trim_by l3 else l
          end
      end
  end.
End trim.

Definition trim_left (l : list Z) : list Z := trim_by sp1 sp2 sp3 l.

(** The same at the end: the encodings are read backwards. *)
Definition trim_right (l : list Z) : list Z :=
  rev (trim_by sp1 (fun b1 b0 => sp2 b0 b1) (fun b2 b1 b0 => sp3 b0 b1 b2) (rev l)).

Definition TrimSpace (s : string) : string := of_bytes (trim_right (trim_left (bytes s))).

(** [cur] holds the bytes of the current field, last first. *)
Definition close_field (cur : list Z) (rest : list string) : list string :=
  match cur with [] => rest | _ => of_bytes (rev cur) :: rest end.

Fixpoint fields_from (cur l : list Z) : list string :=
  match l with
  | [] => close_field cur []
  | b0 :: l1 =>
      if sp1 b0 then close_field cur (fields_from [] l1)
      else match l1 with
      | [] => fields_from (b0 :: cur) l1
      | b1 :: l2 =>
          if sp2 b0 b1 then close_field cur (fields_from [] l2)
          else match l2 with
          | [] => fields_from (b0 :: cur) l1
          | b2 :: l3 =>
              if sp3 b0 b1 b2 then close_field cur (fields_from [] l3)
              else fields_from (b0 :: cur) l1
          end
      end
  end.

Definition Fields (s : string) : list string := fields_from [] (bytes s).

(** ** Splitting *)

(** [strings.Split] at a one-byte separator. *)
Fixpoint split_from (sep : ascii) (cur : string) (s : string) : list string :=
  match s with
  | EmptyString => [cur]
  | String c s =>
      if Ascii.eqb c sep then cur :: split_from sep EmptyString s
      else split_from sep (cur +:+ String c EmptyString) s
  end.

Definition Split (s : string) (sep : ascii) : list string := split_from sep EmptyString s.

(** [strings.SplitN(s, sep, n)] for [n > 0]: at most [n] parts, the last one
    unsplit. *)
Fixpoint splitn_from (n : nat) (sep : ascii) (cur : string) (s : string) : list string :=
  match s with
  | EmptyString => [cur]
  | String c s' =>
      if Ascii.eqb c sep then
        match n with
        | S (S n) => cur :: splitn_from (S n) sep EmptyString s'
        | _ => [cur +:+ s]
        end
      else splitn_from n sep (cur +:+ String c EmptyString) s'
  end.

Definition SplitN (s : string) (sep : ascii) (n : nat) : list string :=
  match n with
  | 1%nat => [s]
  | _ => splitn_from n sep EmptyString s
  end.

(** [strings.ReplaceAll(s, c, "")] for a one-byte [c]. *)
Fixpoint remove_char (c : ascii) (s : string) : string :=
  match s with
  | EmptyString => EmptyString
  | String d s => if Ascii.eqb c d then remove_char c s else String d (remove_char c s)
  end.

(** [strings.Join]. *)
Fixpoint Join (l : list string) (sep : string) : string :=
  match l with
  | [] => ""
  | [s] => s
  | s :: l => s +:+ sep +:+ Join l sep
  end.

(** ** Numbers (package strconv, and [%d]) *)

Definition digit_value (b : Z) : option Z :=
  if in_range 48 57 b then Some (b - 48) else None.

Fixpoint digits_value (acc : Z) (l : list Z) : option Z :=
  match l with
  | [] => Some acc
  | b :: l => match digit_value b with
              | Some d => digits_value (acc * 10 + d) l
              | None => None
              end
  end.

(** [strconv.Atoi]: an optional sign and decimal digits, in the range of
    [int]. *)
Definition Atoi (s : string) : option Z :=
  let parse l := match l with [] => None | _ => digits_value 0 l end in
  let r := match bytes s with
           | 43 :: l => parse l
           | 45 :: l => Z.opp <$> parse l
           | l => parse l
           end in
  match r with
  | Some z => if in_range min_int64 max_int64 z then Some z else None
  | None => None
  end.

(** Decimal digits of a natural number, and [%0*d]. *)
Definition dec (z : Z) : string := pretty z.

Definition pad_zeros (width : nat) (s : string) : string :=
  of_bytes (repeat 48 (width - String.length s)) +:+ s.

(** ** Scanning (fmt.Sscanf)

    Formats made of literal ASCII bytes and [%d] verbs into integers.  A verb
    skips spaces but not a line break, takes the longest run of digits
    (signed ones an optional sign first) and checks the width of the
    operand; input left over at the end is ignored. *)
Inductive scan_item :=
| Lit (b : Z)
| IntVerb
| UintVerb (bits : Z).

Definition skip_space (l : list Z) : option (list Z) :=
  match trim_by (fun b => sp1 b && negb (b =? 10)) sp2 sp3 l with
  | 10 :: _ => None
  | l => Some l
  end.

Fixpoint take_digits (l : list Z) : list Z * list Z :=
  match l with
  | b :: l' => if in_range 48 57 b
               then let '(ds, r) := take_digits l' in (b :: ds, r) else ([], l)
  | [] => ([], [])
  end.

Definition scan_nat (l : list Z) : option (Z * list Z) :=
  match take_digits l with
  | ([], _) => None
  | (ds, r) => z ← digits_value 0 ds; Some (z, r)
  end.

Definition scan_int (l : list Z) : option (Z * list Z) :=
  '(z, r) ← match l with
            | 43 :: l => scan_nat l
            | 45 :: l => '(z, r) ← scan_nat l; Some (- z, r)
            | _ => scan_nat l
            end;
  if in_range min_int64 max_int64 z then Some (z, r) else None.

Fixpoint sscanf (fmt : list scan_item) (l : list Z) : option (list Z) :=
  match fmt with
  | [] => Some []
  | Lit b :: fmt =>
      match l with
      | c :: l => if c =? b then sscanf fmt l else None
      | [] => None
      end
  | IntVerb :: fmt =>
      l ← skip_space l; '(z, r) ← scan_int l; zs ← sscanf fmt r; Some (z :: zs)
  | UintVerb bits :: fmt =>
      l ← skip_space l; '(z, r) ← scan_nat l;
      if z <? 2 ^ bits then zs ← sscanf fmt r; Some (z :: zs) else None
  end.

(** ** Strings without a separator *)

Section split.
Context (sep : Ascii.ascii).

Definition has_no (s : string) : Prop := Z.of_N (Ascii.N_of_ascii sep) ∉ bytes s.

Lemma has_no_cons c s : has_no (String c s) -> Ascii.eqb c sep = false /\ has_no s.
Proof.
  unfold has_no. simpl. intros H. split.
  - apply Ascii.eqb_neq. intros ->. apply H. left.
  - intros Hin. apply H. by right.
Qed.

Lemma string_app_nil s : s +:+ EmptyString = s.
Proof. induction s as [|c s IH]; [done|]. exact (f_equal (String c) IH). Qed.

Lemma string_app_cons s c t : (s +:+ String c EmptyString) +:+ t = s +:+ String c t.
Proof. induction s as [|d s IH]; [done|]. exact (f_equal (String d) IH). Qed.

Lemma split_from_no cur s : has_no s -> split_from sep cur s = [cur +:+ s].
Proof.
  revert cur. induction s as [|c s IH]; intros cur Hs; simpl; [by rewrite string_app_nil|].
  apply has_no_cons in Hs as [-> Hs]. by rewrite IH, string_app_cons.
Qed.

Lemma split_from_sep cur s rest :
  has_no s ->
  split_from sep cur (s +:+ String sep rest) = (cur +:+ s) :: split_from sep EmptyString rest.
Proof.
  revert cur. induction s as [|c s IH]; intros cur Hs; simpl.
  - by rewrite Ascii.eqb_refl, string_app_nil.
  - apply has_no_cons in Hs as [-> Hs]. by rewrite IH, string_app_cons.
Qed.
End split.

Lemma Split_Join sep l :
  l <> [] -> Forall (has_no sep) l -> Split (Join l (String sep "")) sep = l.
Proof.
  intros Hne. unfold Split. induction l as [|s l IH]; [done|]. intros Hall.
  inversion_clear Hall as [|? ? Hs Hl]. destruct l as [|s' l].
  - simpl. by rewrite split_from_no.
  - change (Join (s :: s' :: l) (String sep "")) with
      (s +:+ String sep (Join (s' :: l) (String sep ""))).
    rewrite split_from_sep by done. simpl String.app. by rewrite IH.
Qed.
