(* ===== verification/GoDigits.v ===== *)
(** * Decimal text

    [dec] prints a natural number as digits that [%d] and [Atoi] read back. *)
From stdpp Require Import pretty.
From S2P Require Import Prelude GoTime GoText.
From Stdlib Require Import Ascii.
#[local] Open Scope Z_scope.
#[local] Open Scope go_scope.

Definition is_digit (b : Z) : Prop := 48 <= b <= 57.

(** Digits denote a number, most significant first. *)
Definition denotes (ds : list Z) (z : Z) : Prop :=
  Forall is_digit ds /\
  forall acc l, digits_value acc (ds ++ l) = digits_value (acc * 10 ^ Z.of_nat (length ds) + z) l.

Lemma digit_value_digit d : 0 <= d < 10 -> digit_value (48 + d) = Some d.
Proof.
  intros Hd. unfold digit_value, in_range.
  replace ((48 <=? 48 + d) && (48 + d <=? 57)) with true by lia. f_equal. lia.
Qed.

Lemma denotes_nil : denotes [] 0.
Proof. split; [constructor|]. intros acc l. simpl. f_equal. lia. Qed.

(** One more digit at the end. *)
Lemma denotes_snoc ds z d :
  denotes ds z -> 0 <= d < 10 -> denotes (ds ++ [48 + d]) (10 * z + d).
Proof.
  intros [Hf Hv] Hd. split.
  - apply Forall_app. split; [done|]. constructor; [unfold is_digit; lia|constructor].
  - intros acc l. rewrite <-app_assoc, Hv. cbn [app digits_value].
    rewrite digit_value_digit, length_app by done. f_equal. cbn [length].
    replace (Z.of_nat (length ds + 1)) with (Z.of_nat (length ds) + 1) by lia.
    rewrite Z.pow_add_r by lia. lia.
Qed.

Lemma pretty_char_byte n :
  (n < 10)%N -> Z.of_N (N_of_ascii (pretty_N_char n)) = 48 + Z.of_N n.
Proof.
  intros Hn. destruct n as [|p]; [done|].
  do 4 (destruct p as [p|p|]; try done; try lia).
Qed.

Lemma pretty_go_digits n s :
  exists ds, bytes (pretty_N_go n s) = ds ++ bytes s /\ denotes ds (Z.of_N n) /\
    (forall k : nat, Z.of_N n < 10 ^ Z.of_nat k -> (length ds <= k)%nat) /\ ((0 < n)%N -> ds <> []).
Proof.
  revert s. induction (N.lt_wf_0 n) as [n _ IH]. intros s.
  destruct (decide (n = 0%N)) as [->|Hn].
  { exists []. rewrite pretty_N_go_0. split; [done|]. split; [apply denotes_nil|]. split; [simpl; lia|lia]. }
  rewrite pretty_N_go_step by lia.
  destruct (IH (n / 10)%N ltac:(apply N.div_lt; lia) (String (pretty_N_char (n mod 10)) s))
    as (ds & Hb & Hd & Hl & _).
  pose proof (N.mod_lt n 10 ltac:(lia)) as Hm. pose proof (N.div_mod n 10 ltac:(lia)) as Hdm.
  exists (ds ++ [48 + Z.of_N (n mod 10)%N]). split; [|split; [|split]].
  - rewrite Hb. cbn [bytes]. rewrite pretty_char_byte by done. by rewrite <-app_assoc.
  - replace (Z.of_N n) with (10 * Z.of_N (n / 10) + Z.of_N (n mod 10)) by lia.
    apply denotes_snoc; [done|]. split; [apply N2Z.is_nonneg|by apply (N2Z.inj_lt _ 10)].
  - intros [|k] Hk; [change (10 ^ Z.of_nat 0) with 1 in Hk; lia|]. rewrite length_app. cbn [length].
    rewrite Nat2Z.inj_succ, Z.pow_succ_r in Hk by lia.
    assert (Z.of_N (n / 10) < 10 ^ Z.of_nat k) as Hq.
    { clear -Hk Hdm. revert Hk Hdm. generalize (n / 10)%N (n mod 10)%N (10 ^ Z.of_nat k). lia. }
    specialize (Hl k Hq). lia.
  - intros _. destruct ds; done.
Qed.

Lemma dec_digits z :
  0 <= z -> exists ds, bytes (dec z) = ds /\ denotes ds z /\ ds <> [] /\
    forall k : nat, (0 < k)%nat -> z < 10 ^ Z.of_nat k -> (length ds <= k)%nat.
Proof.
  intros Hz. exists (bytes (dec z)). split; [done|]. unfold dec, pretty, pretty_Z.
  destruct z as [|p|p]; [| |lia].
  { split; [apply (denotes_snoc [] 0 0); [apply denotes_nil|lia]|]. split; [done|].
    intros k Hk _. simpl. lia. }
  unfold pretty, pretty_positive, pretty, pretty_N. simpl.
  destruct (pretty_go_digits (Npos p) "") as (ds & Hb & Hd & Hl & Hne).
  rewrite Hb. simpl. rewrite app_nil_r. split; [exact Hd|]. split; [apply Hne; lia|].
  intros k _ Hk. by apply Hl.
Qed.

(** ** Reading it back *)

Lemma take_digits_app ds l :
  Forall is_digit ds -> (forall b l', l = b :: l' -> ~ is_digit b) ->
  take_digits (ds ++ l) = (ds, l).
Proof.
  intros Hd Hl. induction Hd as [|b ds Hb _ IH]; cbn [app take_digits].
  - destruct l as [|b l']; [done|]. cbn [take_digits]. specialize (Hl b l' eq_refl).
    unfold in_range, is_digit in *. by replace ((48 <=? b) && (b <=? 57)) with false by lia.
  - unfold in_range, is_digit in *. replace ((48 <=? b) && (b <=? 57)) with true by lia. by rewrite IH.
Qed.

Lemma trim_by_id s1 s2 s3 b l :
  s1 b = false -> (forall c, s2 b c = false) -> (forall c d, s3 b c d = false) ->
  trim_by s1 s2 s3 (b :: l) = b :: l.
Proof.
  intros H1 H2 H3. destruct l as [|c [|d l]]; simpl; rewrite H1, ?H2, ?H3; done.
Qed.

Lemma skip_space_digit b l : is_digit b -> skip_space (b :: l) = Some (b :: l).
Proof.
  unfold is_digit. intros Hb. unfold skip_space. rewrite trim_by_id.
  - destruct b as [|p|p]; try done. repeat (destruct p as [p|p|]; try done; try lia).
  - unfold sp1, in_range. lia.
  - intros c. unfold sp2. lia.
  - intros c d. unfold sp3, in_range. lia.
Qed.

Lemma scan_nat_denotes ds z l :
  denotes ds z -> ds <> [] -> (forall b l', l = b :: l' -> ~ is_digit b) ->
  scan_nat (ds ++ l) = Some (z, l).
Proof.
  intros [Hf Hv] Hne Hl. unfold scan_nat. rewrite take_digits_app by done.
  destruct ds as [|b ds]; [done|]. specialize (Hv 0 []). rewrite app_nil_r in Hv. rewrite Hv. done.
Qed.

(** [%d] followed by a literal reads a printed number. *)
Lemma sscanf_dec z c l :
  0 <= z <= max_int64 -> ~ is_digit c ->
  sscanf [IntVerb; Lit c] (bytes (dec z) ++ c :: l) = Some [z].
Proof.
  intros Hz Hc. destruct (dec_digits z ltac:(lia)) as (ds & -> & Hd & Hne & _).
  assert (exists b ds', ds = b :: ds' /\ is_digit b) as (b & ds' & -> & Hb).
  { destruct ds as [|b ds']; [done|]. destruct Hd as [Hf _]. inversion Hf as [|? ? Hb]; subst.
    by exists b, ds'. }
  cbn [sscanf app]. rewrite skip_space_digit by done. cbn [mbind option_bind].
  assert (scan_int (b :: ds' ++ c :: l) = Some (z, c :: l)) as ->.
  { unfold scan_int.
    assert (scan_nat (b :: ds' ++ c :: l) = Some (z, c :: l)) as Hs.
    { apply (scan_nat_denotes (b :: ds') z (c :: l) Hd Hne). by intros ?? [= -> ->]. }
    unfold is_digit in Hb.
    assert (b <> 43 /\ b <> 45) as [H43 H45] by lia.
    destruct b as [|p|p]; [lia| |lia].
    do 6 (destruct p as [p|p|]; try lia; try (rewrite Hs; cbn;
      by replace (in_range min_int64 max_int64 z) with true by (unfold in_range, min_int64, max_int64 in *; lia))). }
  cbn. by rewrite Z.eqb_refl.
Qed.

(** ** Digits survive trimming *)

Lemma bytes_length s : length (bytes s) = String.length s.
Proof. induction s as [|c s IH]; simpl; [done|]. by rewrite IH. Qed.

Lemma trim_left_digits l : Forall is_digit l -> trim_left l = l.
Proof.
  intros Hl. destruct Hl as [|b l Hb _]; [done|]. unfold is_digit in Hb. apply trim_by_id.
  - unfold sp1, in_range. lia.
  - intros c. unfold sp2. lia.
  - intros c d. unfold sp3, in_range. lia.
Qed.

Lemma trim_right_digits l : Forall is_digit l -> trim_right l = l.
Proof.
  intros Hl. unfold trim_right. rewrite <-(rev_involutive l) at 2. f_equal.
  assert (Forall is_digit (rev l)) as Hr by by apply Forall_rev.
  destruct Hr as [|b r Hb _]; [done|]. unfold is_digit in Hb. apply trim_by_id.
  - unfold sp1, in_range. lia.
  - intros c. unfold sp2. lia.
  - intros c d. unfold sp3, in_range. lia.
Qed.

Lemma TrimSpace_digits s : Forall is_digit (bytes s) -> TrimSpace s = s.
Proof.
  intros Hs. unfold TrimSpace. by rewrite trim_left_digits, trim_right_digits, of_bytes_bytes.
Qed.

Lemma remove_space_digits s : Forall is_digit (bytes s) -> remove_char " "%char s = s.
Proof.
  induction s as [|c s IH]; [done|]. cbn [bytes remove_char]. intros Hs.
  inversion Hs as [|? ? Hc Hs']; subst. rewrite IH by done.
  destruct (Ascii.eqb " "%char c) eqn:E; [|done]. apply Ascii.eqb_eq in E. subst c.
  unfold is_digit in Hc. cbn in Hc. lia.
Qed.

(** ** ASCII text under Go's string functions

    On text of ASCII bytes the functions of [strings] act byte by byte. *)

Definition ascii_byte (b : Z) : Prop := 0 <= b < 128.

(** Printable and not a space. *)
Definition graphic (b : Z) : Prop := 32 < b < 127.

Lemma graphic_ascii l : Forall graphic l -> Forall ascii_byte l.
Proof. apply Forall_impl. unfold graphic, ascii_byte. lia. Qed.

Lemma ascii_is_byte l : Forall ascii_byte l -> Forall is_byte l.
Proof. apply Forall_impl. unfold ascii_byte, is_byte. lia. Qed.

Lemma runes_ascii l : Forall ascii_byte l -> runes l = l.
Proof.
  induction 1 as [|b l Hb Hl IH]; [done|]. cbn [runes]. unfold ascii_byte in Hb.
  replace (b <? RuneSelf) with true by (unfold RuneSelf; lia). by rewrite IH.
Qed.

Lemma encode_ascii l : Forall ascii_byte l -> concat (map encode_rune l) = l.
Proof.
  induction 1 as [|b l Hb Hl IH]; [done|]. cbn [map concat]. rewrite IH. unfold ascii_byte in Hb.
  unfold encode_rune. by replace (in_range 0 0x7F b) with true by (unfold in_range; lia).
Qed.

Definition lower_byte (b : Z) : Z := if is_upper b then b + 32 else b.
Definition upper_byte (b : Z) : Z := if is_lower b then b - 32 else b.

Lemma lower_byte_ascii b : ascii_byte b -> ascii_byte (lower_byte b).
Proof. unfold ascii_byte, lower_byte, is_upper, in_range. case_match; lia. Qed.
Lemma upper_byte_ascii b : ascii_byte b -> ascii_byte (upper_byte b).
Proof. unfold ascii_byte, upper_byte, is_lower, in_range. case_match; lia. Qed.

Section case.
Context `{UnicodeTables}.

Lemma ToLower_ascii s :
  Forall ascii_byte (bytes s) -> bytes (ToLower s) = map lower_byte (bytes s).
Proof.
  intros Hs. unfold ToLower. rewrite runes_ascii by done.
  assert (map (fun r => encode_rune (rune_lower r)) (bytes s)
          = map encode_rune (map lower_byte (bytes s))) as ->.
  { rewrite map_map. apply map_ext_in. intros b Hb. rewrite List.Forall_forall in Hs.
    specialize (Hs b Hb). unfold ascii_byte in Hs. unfold rune_lower.
    by replace (b <? RuneSelf) with true by (unfold RuneSelf; lia). }
  assert (Forall ascii_byte (map lower_byte (bytes s))) as Hl.
  { apply Forall_map. eapply Forall_impl; [apply lower_byte_ascii|exact Hs]. }
  rewrite encode_ascii by done. by apply bytes_of_bytes, ascii_is_byte.
Qed.

Lemma ToUpper_ascii s :
  Forall ascii_byte (bytes s) -> bytes (ToUpper s) = map upper_byte (bytes s).
Proof.
  intros Hs. unfold ToUpper. rewrite runes_ascii by done.
  assert (map (fun r => encode_rune (rune_upper r)) (bytes s)
          = map encode_rune (map upper_byte (bytes s))) as ->.
  { rewrite map_map. apply map_ext_in. intros b Hb. rewrite List.Forall_forall in Hs.
    specialize (Hs b Hb). unfold ascii_byte in Hs. unfold rune_upper.
    by replace (b <? RuneSelf) with true by (unfold RuneSelf; lia). }
  assert (Forall ascii_byte (map upper_byte (bytes s))) as Hl.
  { apply Forall_map. eapply Forall_impl; [apply upper_byte_ascii|exact Hs]. }
  rewrite encode_ascii by done. by apply bytes_of_bytes, ascii_is_byte.
Qed.
End case.

(** ** Spaces *)

Lemma trim_graphic t1 t2 t3 l :
  (forall b, graphic b -> t1 b = false) -> (forall b c, graphic b -> t2 b c = false) ->
  (forall b c d, graphic b -> t3 b c d = false) -> Forall graphic l -> trim_by t1 t2 t3 l = l.
Proof.
  intros T1 T2 T3 Hl. destruct Hl as [|b l Hb _]; [done|].
  apply trim_by_id; [by apply T1|intros; by apply T2|intros; by apply T3].
Qed.

Lemma TrimSpace_graphic s : Forall graphic (bytes s) -> TrimSpace s = s.
Proof.
  intros Hs. unfold TrimSpace, trim_left, trim_right.
  rewrite (trim_graphic sp1 sp2 sp3 (bytes s)); [|unfold graphic..|done].
  - rewrite trim_graphic; [|unfold graphic..|by apply Forall_rev].
    + by rewrite rev_involutive, of_bytes_bytes.
    + intros b. unfold sp1, in_range. lia.
    + intros b c. unfold sp2. lia.
    + intros b c d. unfold sp3, in_range. lia.
  - intros b. unfold sp1, in_range. lia.
  - intros b c. unfold sp2. lia.
  - intros b c d. unfold sp3, in_range. lia.
Qed.

Lemma bytes_remove_char c s :
  bytes (remove_char c s) = List.filter (fun b => negb (b =? Z.of_N (N_of_ascii c))) (bytes s).
Proof.
  induction s as [|d s IH]; [done|]. cbn [remove_char bytes List.filter].
  destruct (Ascii.eqb c d) eqn:E.
  - apply Ascii.eqb_eq in E as ->. by rewrite Z.eqb_refl.
  - assert ((Z.of_N (N_of_ascii d) =? Z.of_N (N_of_ascii c)) = false) as ->.
    { apply Z.eqb_neq. intros Heq. apply N2Z.inj, (f_equal ascii_of_N) in Heq.
      rewrite !ascii_N_embedding in Heq. subst d. by rewrite Ascii.eqb_refl in E. }
    cbn [negb bytes]. by rewrite IH.
Qed.

Lemma filter_all {A} (p : A -> bool) l : Forall (fun x => p x = true) l -> List.filter p l = l.
Proof. induction 1 as [|x l Hx _ IH]; [done|]. cbn. by rewrite Hx, IH. Qed.

(** ** Prefixes *)

Lemma bytes_str_take n s : bytes (str_take n s) = take n (bytes s).
Proof.
  revert s. induction n as [|n IH]; intros s; [by destruct s|].
  destruct s as [|c s]; [done|]. cbn. by rewrite IH.
Qed.

Lemma bytes_str_drop n s : bytes (str_drop n s) = drop n (bytes s).
Proof.
  revert s. induction n as [|n IH]; intros s; [by destruct s|].
  destruct s as [|c s]; [done|]. cbn. by rewrite IH.
Qed.
