(* ===== verification/Encoding.v ===== *)
(** * Encodings of the standard library

    [encoding/hex] and the three [encoding/base64] codecs and the unpadded
    [encoding/base32] codec the source uses, on byte lists, with the round
    trips that make tokens, secrets and password hashes readable again.  As
    in Go, the base64 decoders skip line breaks anywhere and ignore the
    unused bits of the last character, and the base32 decoder silently drops
    a last group of 1, 3 or 6 characters. *)
From S2P Require Import Prelude GoTime GoText.
#[local] Open Scope Z_scope.
#[local] Open Scope go_scope.

(** Linear arithmetic with division and remainder. *)
Ltac div_lia := Z.to_euclidean_division_equations; lia.

Definition not_newline (c : Z) : bool := negb ((c =? 10) || (c =? 13)).

(** ** Base64 *)

(** The characters for 62 and 63: ["+/"] or ["-_"]. *)
Record alphabet64 := { c62 : Z; c63 : Z }.
Definition std64 : alphabet64 := {| c62 := 43; c63 := 47 |}.
Definition url64 : alphabet64 := {| c62 := 45; c63 := 95 |}.

Definition char64 (a : alphabet64) (v : Z) : Z :=
  if v <? 26 then 65 + v else if v <? 52 then 71 + v else if v <? 62 then v - 4
  else if v =? 62 then c62 a else c63 a.

Definition value64 (a : alphabet64) (c : Z) : option Z :=
  if in_range 65 90 c then Some (c - 65)
  else if in_range 97 122 c then Some (c - 71)
  else if in_range 48 57 c then Some (c + 4)
  else if c =? c62 a then Some 62 else if c =? c63 a then Some 63 else None.

(** The characters of a partial or full group of three bytes. *)
Fixpoint enc64 (a : alphabet64) (pad : list Z) (l : list Z) : list Z :=
  match l with
  | [] => []
  | [x] => [char64 a (x / 4); char64 a (x mod 4 * 16)] ++ pad ++ pad
  | [x; y] => [char64 a (x / 4); char64 a (x mod 4 * 16 + y / 16);
               char64 a (y mod 16 * 4)] ++ pad
  | x :: y :: z :: l =>
      char64 a (x / 4) :: char64 a (x mod 4 * 16 + y / 16)
      :: char64 a (y mod 16 * 4 + z / 64) :: char64 a (z mod 64) :: enc64 a pad l
  end.

Definition byte1 (p q : Z) : Z := p * 4 + q / 16.
Definition byte2 (q r : Z) : Z := q mod 16 * 16 + r / 4.
Definition byte3 (r s : Z) : Z := r mod 4 * 64 + s.

(** Unpadded decoding of the characters that are left after line breaks are
    removed. *)
Fixpoint dec64_raw (a : alphabet64) (l : list Z) : option (list Z) :=
  match l with
  | [] => Some []
  | [_] => None
  | [p; q] =>
      p ← value64 a p; q ← value64 a q; Some [byte1 p q]
  | [p; q; r] =>
      p ← value64 a p; q ← value64 a q; r ← value64 a r; Some [byte1 p q; byte2 q r]
  | p :: q :: r :: s :: l =>
      p ← value64 a p; q ← value64 a q; r ← value64 a r; s ← value64 a s;
      l ← dec64_raw a l; Some (byte1 p q :: byte2 q r :: byte3 r s :: l)
  end.

(** Padded decoding: groups of four, ["="] only at the very end. *)
Fixpoint dec64_pad (a : alphabet64) (l : list Z) : option (list Z) :=
  match l with
  | [] => Some []
  | p :: q :: r :: s :: l =>
      match l with
      | [] =>
          if s =? 61 then
            if r =? 61 then p ← value64 a p; q ← value64 a q; Some [byte1 p q]
            else p ← value64 a p; q ← value64 a q; r ← value64 a r;
                 Some [byte1 p q; byte2 q r]
          else p ← value64 a p; q ← value64 a q; r ← value64 a r; s ← value64 a s;
               Some [byte1 p q; byte2 q r; byte3 r s]
      | _ =>
          p ← value64 a p; q ← value64 a q; r ← value64 a r; s ← value64 a s;
          l ← dec64_pad a l; Some (byte1 p q :: byte2 q r :: byte3 r s :: l)
      end
  | _ => None
  end.

(** [base64.RawURLEncoding], [base64.RawStdEncoding], [base64.StdEncoding]. *)
Definition RawURLEncodeToString (l : list Z) : string := of_bytes (enc64 url64 [] l).
Definition RawStdEncodeToString (l : list Z) : string := of_bytes (enc64 std64 [] l).
Definition StdEncodeToString (l : list Z) : string := of_bytes (enc64 std64 [61] l).
Definition RawURLDecodeString (s : string) : option (list Z) :=
  dec64_raw url64 (List.filter not_newline (bytes s)).
Definition RawStdDecodeString (s : string) : option (list Z) :=
  dec64_raw std64 (List.filter not_newline (bytes s)).
Definition StdDecodeString (s : string) : option (list Z) :=
  dec64_pad std64 (List.filter not_newline (bytes s)).

(** What the proofs need of an alphabet: it has 64 printable characters, none
    of them ["="]. *)
Definition good_alphabet (a : alphabet64) : Prop :=
  forall v, 0 <= v < 64 ->
    value64 a (char64 a v) = Some v /\ 32 < char64 a v < 127 /\ char64 a v <> 61.

(** A property of the first [n] naturals, checked by computation. *)
Lemma forall_below (n : nat) (P : Z -> bool) :
  forallb P (map Z.of_nat (seq 0 n)) = true ->
  forall v, 0 <= v < Z.of_nat n -> P v = true.
Proof.
  intros H v Hv. rewrite forallb_forall in H. apply H.
  apply in_map_iff. exists (Z.to_nat v). split; [lia|]. apply in_seq. lia.
Qed.

Definition good_at (a : alphabet64) (v : Z) : bool :=
  match value64 a (char64 a v) with
  | Some w => (w =? v) && (32 <? char64 a v) && (char64 a v <? 127) && negb (char64 a v =? 61)
  | None => false
  end.

Lemma good_at_alphabet a :
  forallb (good_at a) (map Z.of_nat (seq 0 64)) = true -> good_alphabet a.
Proof.
  intros H v Hv. pose proof (forall_below 64 _ H v Hv) as Hg. unfold good_at in Hg.
  destruct (value64 a (char64 a v)) as [w|]; [|done].
  bool_to_prop. rewrite Z.eqb_eq in *. rewrite Z.eqb_neq in *. by subst.
Qed.

Lemma std64_good : good_alphabet std64.
Proof. apply good_at_alphabet. vm_compute. done. Qed.

Lemma url64_good : good_alphabet url64.
Proof. apply good_at_alphabet. vm_compute. done. Qed.

Section base64_roundtrip.
Context (a : alphabet64) (Ha : good_alphabet a).

Lemma value_char v : 0 <= v < 64 -> value64 a (char64 a v) = Some v.
Proof. intros H. apply (Ha v H). Qed.

Lemma char_printable v : 0 <= v < 64 -> 32 < char64 a v < 127.
Proof. intros H. apply (Ha v H). Qed.

(** Three-at-a-time induction over byte lists. *)
Lemma triples_ind (P : list Z -> Prop) :
  P [] -> (forall x, is_byte x -> P [x]) ->
  (forall x y, is_byte x -> is_byte y -> P [x; y]) ->
  (forall x y z l, is_byte x -> is_byte y -> is_byte z -> Forall is_byte l ->
     P l -> P (x :: y :: z :: l)) ->
  forall l, Forall is_byte l -> P l.
Proof.
  intros H0 H1 H2 H3 l.
  induction l as [l IH] using (well_founded_induction (Wf_nat.well_founded_ltof _ (@length Z))).
  unfold Wf_nat.ltof in IH.
  destruct l as [|x [|y [|z l]]]; intros Hl; auto;
    repeat match goal with H : Forall _ (_ :: _) |- _ => inversion_clear H end; auto.
  apply H3; auto. apply IH; [simpl; lia|done].
Qed.

Lemma enc64_printable pad l :
  Forall is_byte l -> Forall (fun c => 32 < c < 127) pad ->
  Forall (fun c => 32 < c < 127) (enc64 a pad l).
Proof.
  intros Hl Hp. revert l Hl. unfold is_byte.
  apply triples_ind; unfold is_byte; simpl; intros;
    repeat first [ apply Forall_nil_2 | apply Forall_cons_2 | apply Forall_app_2 ]; auto;
    try (apply char_printable; div_lia).
Qed.

(** A character outside the alphabet does not occur in an encoding. *)
Lemma char64_avoids c :
  forallb (fun v => negb (char64 a v =? c)) (map Z.of_nat (seq 0 64)) = true ->
  forall v, 0 <= v < 64 -> char64 a v <> c.
Proof.
  intros H v Hv. pose proof (forall_below 64 (fun v => negb (char64 a v =? c)) H v Hv). cbn beta in *. lia.
Qed.

Lemma enc64_avoids c l :
  (forall v, 0 <= v < 64 -> char64 a v <> c) -> Forall is_byte l -> c ∉ enc64 a [] l.
Proof.
  intros Hc Hl Hin. assert (Forall (fun d => d <> c) (enc64 a [] l)) as Hf.
  2:{ rewrite List.Forall_forall in Hf. apply list_elem_of_In in Hin. by apply (Hf c). }
  clear Hin. revert l Hl. apply triples_ind; unfold is_byte; simpl; intros;
    repeat first [ apply Forall_nil_2 | apply Forall_cons_2 ]; auto; apply Hc; div_lia.
Qed.

Lemma dec_enc_raw l : Forall is_byte l -> dec64_raw a (enc64 a [] l) = Some l.
Proof.
  revert l. apply triples_ind; unfold is_byte; simpl; intros; try done;
    rewrite !value_char by div_lia; simpl.
  - do 2 f_equal. unfold byte1. div_lia.
  - unfold byte1, byte2. do 2 f_equal; [div_lia|]. f_equal. div_lia.
  - rewrite H3. simpl. unfold byte1, byte2, byte3.
    do 2 f_equal; [div_lia|]. f_equal; [div_lia|]. f_equal. div_lia.
Qed.

Lemma enc64_nil pad l : enc64 a pad l = [] -> l = [].
Proof. by destruct l as [|x [|y [|z l]]]. Qed.

Lemma char_not_pad v : 0 <= v < 64 -> (char64 a v =? 61) = false.
Proof. intros H. apply Z.eqb_neq, (Ha v H). Qed.

Lemma dec_enc_pad l : Forall is_byte l -> dec64_pad a (enc64 a [61] l) = Some l.
Proof.
  revert l. apply triples_ind; unfold is_byte; intros; try done.
  - simpl. rewrite !value_char by div_lia. simpl. do 2 f_equal. unfold byte1. div_lia.
  - simpl. rewrite char_not_pad by div_lia. rewrite !value_char by div_lia. simpl.
    unfold byte1, byte2. do 2 f_equal; [div_lia|]. f_equal. div_lia.
  - cbn [enc64 dec64_pad].
    destruct (enc64 a [61] l) as [|c k] eqn:E.
    + apply enc64_nil in E. subst l.
      rewrite char_not_pad by div_lia. rewrite !value_char by div_lia. simpl.
      unfold byte1, byte2, byte3.
      do 2 f_equal; [div_lia|]. f_equal; [div_lia|]. f_equal. div_lia.
    + rewrite !value_char by div_lia. rewrite H3. simpl. unfold byte1, byte2, byte3.
      do 2 f_equal; [div_lia|]. f_equal; [div_lia|]. f_equal. div_lia.
Qed.
End base64_roundtrip.

Lemma filter_printable l :
  Forall (fun c => 32 < c < 127) l -> List.filter not_newline l = l.
Proof.
  induction 1 as [|c l Hc Hl IH]; simpl; [done|].
  assert (not_newline c = true) as -> by (unfold not_newline; lia). by rewrite IH.
Qed.

Lemma printable_is_byte l :
  Forall (fun c => 32 < c < 127) l -> Forall is_byte l.
Proof. apply Forall_impl. unfold is_byte. lia. Qed.

(** Reading back what a raw codec wrote. *)
Lemma RawURL_roundtrip l :
  Forall is_byte l -> RawURLDecodeString (RawURLEncodeToString l) = Some l.
Proof.
  intros H. pose proof (enc64_printable _ url64_good [] l H (Forall_nil_2 _)) as Hp.
  unfold RawURLDecodeString, RawURLEncodeToString.
  rewrite bytes_of_bytes by by apply printable_is_byte.
  rewrite filter_printable by done. by apply dec_enc_raw, H; apply url64_good.
Qed.

Lemma RawStd_roundtrip l :
  Forall is_byte l -> RawStdDecodeString (RawStdEncodeToString l) = Some l.
Proof.
  intros H. pose proof (enc64_printable _ std64_good [] l H (Forall_nil_2 _)) as Hp.
  unfold RawStdDecodeString, RawStdEncodeToString.
  rewrite bytes_of_bytes by by apply printable_is_byte.
  rewrite filter_printable by done. by apply dec_enc_raw, H; apply std64_good.
Qed.

Lemma Std_roundtrip l :
  Forall is_byte l -> StdDecodeString (StdEncodeToString l) = Some l.
Proof.
  intros H.
  assert (Forall (fun c => 32 < c < 127) [61]) as H61 by (repeat constructor; lia).
  pose proof (enc64_printable _ std64_good [61] l H H61) as Hp.
  unfold StdDecodeString, StdEncodeToString.
  rewrite bytes_of_bytes by by apply printable_is_byte.
  rewrite filter_printable by done. by apply dec_enc_pad, H; apply std64_good.
Qed.

(** Distinct byte strings have distinct encodings. *)
Lemma RawURLEncodeToString_inj l k :
  Forall is_byte l -> Forall is_byte k ->
  RawURLEncodeToString l = RawURLEncodeToString k -> l = k.
Proof.
  intros Hl Hk H. apply RawURL_roundtrip in Hl, Hk. rewrite H in Hl. congruence.
Qed.

(** ** Hexadecimal *)

Definition hex_digit (v : Z) : Z := if v <? 10 then 48 + v else 87 + v.

Definition hex_EncodeToString (l : list Z) : string :=
  of_bytes (concat (map (fun b => [hex_digit (b / 16); hex_digit (b mod 16)]) l)).

Lemma hex_digit_inj v w :
  0 <= v < 16 -> 0 <= w < 16 -> hex_digit v = hex_digit w -> v = w.
Proof. unfold hex_digit. do 2 case Z.ltb_spec; lia. Qed.

Lemma hex_digit_byte v : 0 <= v < 16 -> is_byte (hex_digit v).
Proof. unfold hex_digit, is_byte. case Z.ltb_spec; lia. Qed.

Lemma hex_bytes l :
  Forall is_byte l ->
  bytes (hex_EncodeToString l) = concat (map (fun b => [hex_digit (b / 16); hex_digit (b mod 16)]) l).
Proof.
  intros Hl. unfold hex_EncodeToString. apply bytes_of_bytes.
  induction Hl as [|b l Hb Hl IH]; simpl; [constructor|].
  unfold is_byte in Hb. repeat constructor; try done; apply hex_digit_byte; div_lia.
Qed.

Lemma hex_EncodeToString_inj l k :
  Forall is_byte l -> Forall is_byte k ->
  hex_EncodeToString l = hex_EncodeToString k -> l = k.
Proof.
  intros Hl Hk H. apply (f_equal bytes) in H. rewrite !hex_bytes in H by done.
  revert k Hk H. induction Hl as [|b l Hb Hl IH]; intros [|c k] Hk H; simplify_eq/=; try done.
  inversion_clear Hk as [|? ? Hc Hk']. unfold is_byte in *.
  apply hex_digit_inj in H; [|div_lia..]. apply hex_digit_inj in H0; [|div_lia..].
  f_equal; [div_lia|]. by apply IH.
Qed.

(** ** Base32 without padding *)

Definition char32 (v : Z) : Z := if v <? 26 then 65 + v else 24 + v.
Definition value32 (c : Z) : option Z :=
  if in_range 65 90 c then Some (c - 65)
  else if in_range 50 55 c then Some (c - 24) else None.

(** A group of up to five bytes as 5-bit values. *)
Definition quintets (l : list Z) : list Z :=
  let b i := nth i l 0 in
  take (Z.to_nat ((8 * Z.of_nat (length l) + 4) / 5))
    [b 0%nat / 8; b 0%nat mod 8 * 4 + b 1%nat / 64; b 1%nat / 2 mod 32;
     b 1%nat mod 2 * 16 + b 2%nat / 16; b 2%nat mod 16 * 2 + b 3%nat / 128;
     b 3%nat / 4 mod 32; b 3%nat mod 4 * 8 + b 4%nat / 32; b 4%nat mod 32].

Fixpoint enc32 (l : list Z) : list Z :=
  match l with
  | a :: b :: c :: d :: e :: l => map char32 (quintets [a; b; c; d; e]) ++ enc32 l
  | _ => map char32 (quintets l)
  end.

(** The bytes a group of values gives: none for 1, 3 or 6 values. *)
Definition group32 (v : list Z) : list Z :=
  let g i := nth i v 0 in
  let all := [g 0%nat * 8 + g 1%nat / 4;
              g 1%nat mod 4 * 64 + g 2%nat * 2 + g 3%nat / 16;
              g 3%nat mod 16 * 16 + g 4%nat / 2;
              g 4%nat mod 2 * 128 + g 5%nat * 4 + g 6%nat / 8;
              g 6%nat mod 8 * 32 + g 7%nat] in
  match length v with
  | 8%nat => all
  | 7%nat => take 4 all
  | 5%nat => take 3 all
  | 4%nat => take 2 all
  | 2%nat => take 1 all
  | _ => []
  end.

Fixpoint dec32_groups (l : list Z) : list Z :=
  match l with
  | a :: b :: c :: d :: e :: f :: g :: h :: l =>
      group32 [a; b; c; d; e; f; g; h] ++ dec32_groups l
  | _ => group32 l
  end.

(** [base32.StdEncoding.WithPadding(base32.NoPadding)].  The library takes
    the byte 255 for padding in some positions; its callers here pass UTF-8
    text, in which that byte does not occur. *)
Definition Base32EncodeToString (l : list Z) : string := of_bytes (enc32 l).
Definition Base32DecodeString (s : string) : option (list Z) :=
  dec32_groups <$> mapM value32 (List.filter not_newline (bytes s)).

(** ** [strconv.Quote], as [%q] writes a string *)

Definition hex2 (b : Z) : list Z := bytes (hex_EncodeToString [b]).

Section quote.
Context `{UnicodeTables}.

Definition IsPrint (r : Z) : bool := if r <? RuneSelf then in_range 0x20 0x7E r else is_print r.

Definition escaped_rune (r : Z) : list Z :=
  if (r =? 34) || (r =? 92) then [92; r]
  else if IsPrint r then encode_rune r
  else if r =? 7 then bytes "\a" else if r =? 8 then bytes "\b" else if r =? 12 then bytes "\f"
  else if r =? 10 then bytes "\n" else if r =? 13 then bytes "\r" else if r =? 9 then bytes "\t"
  else if r =? 11 then bytes "\v"
  else if (r <? 32) || (r =? 0x7F) then bytes "\x" ++ hex2 r
  else if r <? 0x10000 then bytes "\u" ++ hex2 (r / 256) ++ hex2 (r mod 256)
  else bytes "\U00" ++ hex2 (r / 65536) ++ hex2 (r / 256 mod 256) ++ hex2 (r mod 256).

(** The runes, and the bytes that belong to none. *)
Fixpoint rune_pieces (l : list Z) : list (Z + Z) :=
  match l with
  | [] => []
  | b0 :: l1 =>
      if b0 <? RuneSelf then inl b0 :: rune_pieces l1
      else match l1 with
      | [] => [inr b0]
      | b1 :: l2 =>
          if second2 b0 b1 then inl ((b0 - 0xC0) * 64 + (b1 - 0x80)) :: rune_pieces l2
          else match l2 with
          | [] => inr b0 :: rune_pieces l1
          | b2 :: l3 =>
              if second3 b0 b1 && cont b2 then
                inl ((b0 - 0xE0) * 4096 + (b1 - 0x80) * 64 + (b2 - 0x80)) :: rune_pieces l3
              else match l3 with
              | [] => inr b0 :: rune_pieces l1
              | b3 :: l4 =>
                  if second4 b0 b1 && cont b2 && cont b3 then
                    inl ((b0 - 0xF0) * 262144 + (b1 - 0x80) * 4096
                         + (b2 - 0x80) * 64 + (b3 - 0x80)) :: rune_pieces l4
                  else inr b0 :: rune_pieces l1
              end
          end
      end
  end.

Definition Quote (s : string) : string :=
  of_bytes ([34] ++ concat (map (fun p => match p with
                                          | inl r => escaped_rune r
                                          | inr b => bytes "\x" ++ hex2 b
                                          end) (rune_pieces (bytes s))) ++ [34]).
End quote.
