(* ===== verification/GoUrl.v ===== *)
(** * Package net/url

    Percent-encoding, query strings and URLs, as far as the source uses them:
    [url.QueryEscape], [url.ParseQuery], [url.Values], [url.Parse],
    [URL.Query], [URL.String] and [URL.RequestURI].  A failure is [None]; no
    caller looks at the error.  Hosts in brackets are not checked to be IPv6
    literals (package net/url of Go 1.24.0 does not). *)
From S2P Require Import Prelude GoTime GoText Encoding.
From Stdlib Require Import Ascii.
#[local] Open Scope Z_scope.
#[local] Open Scope go_scope.

(** ** Percent-encoding *)

Inductive encoding :=
| encodePath
| encodePathSegment
| encodeHost
| encodeZone
| encodeUserPassword
| encodeQueryComponent
| encodeFragment.

Definition alphanumeric (c : Z) : bool := in_range 48 57 c || in_range 65 90 c || in_range 97 122 c.
Definition one_of (chars : string) (c : Z) : bool := existsb (Z.eqb c) (bytes chars).

Definition of_host (m : encoding) : bool :=
  match m with encodeHost | encodeZone => true | _ => false end.

Definition shouldEscape (c : Z) (m : encoding) : bool :=
  if alphanumeric c then false
  else if of_host m && (one_of "!$&'()*+,;=:[]<>" c || (c =? 34)) then false
  else if one_of "-_.~" c then false
  else if one_of "$&+,/:;=?@" c then
    match m with
    | encodePath => c =? 63
    | encodePathSegment => one_of "/;,?" c
    | encodeUserPassword => one_of "@/?:" c
    | encodeQueryComponent => true
    | encodeFragment => false
    | encodeHost | encodeZone => true
    end
  else match m with
  | encodeFragment => negb (one_of "!()*" c)
  | _ => true
  end.

Definition upper_hex (v : Z) : Z := if v <? 10 then 48 + v else 55 + v.
Definition ishex (c : Z) : bool := in_range 48 57 c || in_range 97 102 c || in_range 65 70 c.
Definition unhex (c : Z) : Z :=
  if in_range 48 57 c then c - 48 else if in_range 97 102 c then c - 87 else c - 55.

Definition is_query (m : encoding) : bool :=
  match m with encodeQueryComponent => true | _ => false end.

Definition escape_byte (m : encoding) (c : Z) : list Z :=
  if shouldEscape c m then
    if (c =? 32) && is_query m then [43] else [37; upper_hex (c / 16); upper_hex (c mod 16)]
  else [c].

Definition escape (m : encoding) (l : list Z) : list Z := concat (map (escape_byte m) l).

(** Which escapes a host or zone may hold. *)
Definition escape_allowed (m : encoding) (a b : Z) : bool :=
  let percent25 := (a =? 50) && (b =? 53) in
  match m with
  | encodeHost => percent25 || negb (unhex a <? 8)
  | encodeZone =>
      let v := unhex a * 16 + unhex b in
      percent25 || (v =? 32) || negb (shouldEscape v encodeHost)
  | _ => true
  end.

Fixpoint unescape (m : encoding) (l : list Z) : option (list Z) :=
  match l with
  | [] => Some []
  | c :: l1 =>
      if c =? 37 then
        match l1 with
        | a :: b :: l3 =>
            if ishex a && ishex b && escape_allowed m a b
            then cons (unhex a * 16 + unhex b) <$> unescape m l3 else None
        | _ => None
        end
      else if c =? 43 then cons (if is_query m then 32 else 43) <$> unescape m l1
      else if of_host m && (c <? 0x80) && shouldEscape c m then None
      else cons c <$> unescape m l1
  end.

Definition QueryEscape (s : string) : string := of_bytes (escape encodeQueryComponent (bytes s)).
Definition PathEscape (s : string) : string := of_bytes (escape encodePathSegment (bytes s)).
Definition QueryUnescape (s : string) : option string :=
  of_bytes <$> unescape encodeQueryComponent (bytes s).

(** ** Cutting *)

(** [strings.Cut] at a one-byte separator. *)
Fixpoint Cut (sep : ascii) (s : string) : string * string * bool :=
  match s with
  | EmptyString => (EmptyString, EmptyString, false)
  | String c s' =>
      if Ascii.eqb c sep then (EmptyString, s', true)
      else let '(before, after_, found) := Cut sep s' in (String c before, after_, found)
  end.

(** The same at the last one ([strings.LastIndex]). *)
Fixpoint cut_last (sep : ascii) (s : string) : option (string * string) :=
  match s with
  | EmptyString => None
  | String c s' =>
      match cut_last sep s' with
      | Some (a, b) => Some (String c a, b)
      | None => if Ascii.eqb c sep then Some (EmptyString, s') else None
      end
  end.

Fixpoint has_char (c : ascii) (s : string) : bool :=
  match s with
  | EmptyString => false
  | String d s => Ascii.eqb d c || has_char c s
  end.

(** ** Query strings

    [url.Values] is a map from keys to lists of values: the pairs in order,
    of which only the order of the values of one key matters. *)
Definition Values := list (string * string).

Definition first_of (k : string) (q : Values) : option string :=
  snd <$> find_first (fun kv => kv.1 ==? k) q.

Definition Values_Get (q : Values) (k : string) : string := default "" (first_of k q).
Definition Values_Has (q : Values) (k : string) : bool := existsb (fun kv => kv.1 ==? k) q.
Definition Values_Del (k : string) (q : Values) : Values := List.filter (fun kv => kv.1 !=? k) q.
Definition Values_Set (k v : string) (q : Values) : Values := Values_Del k q ++ [(k, v)].

(** Go compares strings byte by byte. *)
Fixpoint bytes_less (l k : list Z) : bool :=
  match l, k with
  | [], [] => false
  | [], _ :: _ => true
  | _ :: _, [] => false
  | a :: l, b :: k => if a =? b then bytes_less l k else a <? b
  end.
Definition key_less (a b : string * string) : bool := bytes_less (bytes a.1) (bytes b.1).

Definition encode_pair (kv : string * string) : string :=
  QueryEscape kv.1 +:+ "=" +:+ QueryEscape kv.2.

Definition Values_Encode (q : Values) : string := Join (map encode_pair (sort_by key_less q)) "&".

(** One piece of a query: nothing, a malformed one, or a pair. *)
Definition parse_piece (piece : string) : option (option (string * string)) :=
  if has_char ";"%char piece then None
  else if piece ==? "" then Some None
  else
    let '(k, v, _) := Cut "="%char piece in
    match QueryUnescape k, QueryUnescape v with
    | Some k, Some v => Some (Some (k, v))
    | _, _ => None
    end.

(** [url.ParseQuery]: the well-formed pairs, and whether all were. *)
Fixpoint parse_pieces (pieces : list string) : Values * bool :=
  match pieces with
  | [] => ([], true)
  | piece :: pieces =>
      let '(q, ok) := parse_pieces pieces in
      match parse_piece piece with
      | None => (q, false)
      | Some None => (q, ok)
      | Some (Some kv) => (kv :: q, ok)
      end
  end.

Definition ParseQuery (query : string) : Values * bool := parse_pieces (Split query "&"%char).

(** ** URLs *)

Record Userinfo := { ui_username : string; ui_password : option string }.

Record URL := {
  u_Scheme : string;
  u_Opaque : string;
  u_User : option Userinfo;
  u_Host : string;
  u_Path : string;
  u_RawPath : string;
  u_OmitHost : bool;
  u_ForceQuery : bool;
  u_RawQuery : string;
  u_Fragment : string;
  u_RawFragment : string;
}.

Definition set_RawQuery (q : string) (u : URL) : URL :=
  let '(Build_URL s o ui h p rp oh fq _ f rf) := u in Build_URL s o ui h p rp oh fq q f rf.
Definition set_Fragment (f rf : string) (u : URL) : URL :=
  let '(Build_URL s o ui h p rp oh fq q _ _) := u in Build_URL s o ui h p rp oh fq q f rf.

Definition Query (u : URL) : Values := (ParseQuery (u_RawQuery u)).1.

Definition unescaped (m : encoding) (s : string) : option string := of_bytes <$> unescape m (bytes s).
Definition escaped (m : encoding) (s : string) : string := of_bytes (escape m (bytes s)).

(** [getScheme]: the scheme and the rest; [None] is the error. *)
Fixpoint scheme_from (first : bool) (cur rest : string) : option (string * string) :=
  match rest with
  | EmptyString => Some (EmptyString, cur)
  | String c rest' =>
      let b := Z.of_N (N_of_ascii c) in
      if in_range 65 90 b || in_range 97 122 b then
        scheme_from false (cur +:+ String c EmptyString) rest'
      else if in_range 48 57 b || one_of "+-." b then
        if first then Some (EmptyString, cur +:+ rest)
        else scheme_from false (cur +:+ String c EmptyString) rest'
      else if b =? 58 then (if first then None else Some (cur, rest'))
      else Some (EmptyString, cur +:+ rest)
  end.
Definition getScheme (rawURL : string) : option (string * string) := scheme_from true "" rawURL.

(** [validOptionalPort]. *)
Definition validOptionalPort (port : string) : bool :=
  match bytes port with
  | [] => true
  | c :: l => (c =? 58) && forallb (in_range 48 57) l
  end.

Definition validUserinfo (s : string) : bool :=
  forallb (fun c => alphanumeric c || one_of "-._:~!$&'()*+,;=%@" c) (bytes s).

(** [splitHostPort] of package url, and [URL.Hostname]. *)
Definition url_splitHostPort (hostPort : string) : string * string :=
  let '(host, port) := match cut_last ":"%char hostPort with
                       | Some (h, p) => if validOptionalPort (":" +:+ p) then (h, p) else (hostPort, "")
                       | None => (hostPort, "")
                       end in
  (match CutSuffix host "]" with
   | Some inner => if HasPrefix host "[" then str_drop 1 inner else host
   | None => host
   end, port).

Definition Hostname (u : URL) : string := (url_splitHostPort (u_Host u)).1.

(** [strings.Index(s, "%25")]: the text before it, and from it on. *)
Fixpoint split_zone (s : string) : option (string * string) :=
  match s with
  | EmptyString => None
  | String c s' =>
      if HasPrefix s "%25" then Some (EmptyString, s)
      else (fun p => (String c p.1, p.2)) <$> split_zone s'
  end.

Definition parseHost (host : string) : option string :=
  if HasPrefix host "[" then
    match cut_last "]"%char host with
    | None => None
    | Some (before, colonPort) =>
        if negb (validOptionalPort colonPort) then None
        else match split_zone before with
        | Some (h1, h2) =>
            a ← unescaped encodeHost h1;
            b ← unescaped encodeZone h2;
            c ← unescaped encodeHost ("]" +:+ colonPort);
            Some (a +:+ b +:+ c)
        | None => unescaped encodeHost host
        end
    end
  else
    match cut_last ":"%char host with
    | Some (_, port) =>
        if validOptionalPort (":" +:+ port) then unescaped encodeHost host else None
    | None => unescaped encodeHost host
    end.

Definition parseUserinfo (userinfo : string) : option Userinfo :=
  if negb (validUserinfo userinfo) then None
  else if negb (has_char ":"%char userinfo) then
    (fun n => {| ui_username := n; ui_password := None |}) <$> unescaped encodeUserPassword userinfo
  else
    let '(n, p, _) := Cut ":"%char userinfo in
    n ← unescaped encodeUserPassword n;
    p ← unescaped encodeUserPassword p;
    Some {| ui_username := n; ui_password := Some p |}.

Definition parseAuthority (authority : string) : option (option Userinfo * string) :=
  match cut_last "@"%char authority with
  | None => (fun h => (None, h)) <$> parseHost authority
  | Some (userinfo, host) =>
      h ← parseHost host;
      ui ← parseUserinfo userinfo;
      Some (Some ui, h)
  end.

(** [setPath] and [setFragment]: the decoded form, and the raw one when it is
    not the default encoding. *)
Definition decoded (m : encoding) (p : string) : option (string * string) :=
  d ← unescaped m p;
  Some (d, if p ==? escaped m d then "" else p).

Definition control_byte (c : Z) : bool := (c <? 32) || (c =? 127).

Definition lower_ascii (s : string) : string :=
  of_bytes (map (fun c => if is_upper c then c + 32 else c) (bytes s)).

(** A lone question mark at the end only sets [ForceQuery]. *)
Definition split_query (rest : string) : string * string * bool :=
  let '(before, query, found) := Cut "?"%char rest in
  (before, query, found && (query ==? "")).

(** [parse(rawURL, false)]: schemes are ASCII, so [strings.ToLower] is the
    ASCII one. *)
Definition parse_url (rawURL : string) : option URL :=
  if existsb control_byte (bytes rawURL) then None
  else if rawURL ==? "*" then Some (Build_URL "" "" None "" "*" "" false false "" "" "")
  else
    '(scheme, rest) ← getScheme rawURL;
    let scheme := lower_ascii scheme in
    let '(rest, query, force) := split_query rest in
    if negb (HasPrefix rest "/") && (scheme !=? "") then
      Some (Build_URL scheme rest None "" "" "" false force query "" "")
    else if negb (HasPrefix rest "/") && has_char ":"%char (Cut "/"%char rest).1.1 then None
    else if ((scheme !=? "") || negb (HasPrefix rest "///")) && HasPrefix rest "//" then
      let '(authority, path, found) := Cut "/"%char (str_drop 2 rest) in
      '(user, host) ← parseAuthority authority;
      '(p, rp) ← decoded encodePath (if found : bool then "/" +:+ path else "");
      Some (Build_URL scheme "" user host p rp false force query "" "")
    else
      '(p, rp) ← decoded encodePath rest;
      Some (Build_URL scheme "" None "" p rp ((scheme !=? "") && HasPrefix rest "/") force query "" "").

(** [url.Parse]. *)
Definition Parse (rawURL : string) : option URL :=
  let '(before, frag, _) := Cut "#"%char rawURL in
  u ← parse_url before;
  if frag ==? "" then Some u
  else
    '(f, rf) ← decoded encodeFragment frag;
    Some (set_Fragment f rf u).

(** [validEncoded]. *)
Definition validEncoded (m : encoding) (s : string) : bool :=
  forallb (fun c => one_of "!$&'()*+,;=:@[]%" c || negb (shouldEscape c m)) (bytes s).

(** The raw form if it is a valid encoding of the decoded one. *)
Definition encoded (m : encoding) (d raw : string) : string :=
  if (raw !=? "") && validEncoded m raw && bool_decide (unescaped m raw = Some d) then raw
  else escaped m d.

Definition EscapedPath (u : URL) : string :=
  if (u_RawPath u !=? "") && validEncoded encodePath (u_RawPath u)
     && bool_decide (unescaped encodePath (u_RawPath u) = Some (u_Path u)) then u_RawPath u
  else if u_Path u ==? "*" then "*" else escaped encodePath (u_Path u).

Definition Userinfo_String (ui : Userinfo) : string :=
  match ui_password ui with
  | Some p => escaped encodeUserPassword (ui_username ui) +:+ ":" +:+ escaped encodeUserPassword p
  | None => if ui_username ui !=? "" then escaped encodeUserPassword (ui_username ui) else ""
  end.

(** What [URL.String] writes before the path: scheme and authority. *)
Definition origin_part (u : URL) : string :=
  (if u_Scheme u !=? "" then u_Scheme u +:+ ":" else "") +:+
  (if ((u_Scheme u !=? "") || (u_Host u !=? "") || bool_decide (is_Some (u_User u)))
      && negb (u_OmitHost u && (u_Host u ==? "") && negb (bool_decide (is_Some (u_User u))))
   then
     (if (u_Host u !=? "") || (u_Path u !=? "") || bool_decide (is_Some (u_User u)) then "//" else "")
     +:+ match u_User u with Some ui => Userinfo_String ui +:+ "@" | None => "" end
     +:+ (if u_Host u !=? "" then escaped encodeHost (u_Host u) else "")
   else "").

Definition hier_part (u : URL) : string :=
  let path := EscapedPath u in
  let start := origin_part u +:+
    (if (path !=? "") && negb (HasPrefix path "/") && (u_Host u !=? "") then "/" else "") in
  start +:+
  (if (start ==? "") && has_char ":"%char (Cut "/"%char path).1.1 then "./" else "") +:+ path.

Definition before_query (u : URL) : string :=
  if u_Opaque u !=? "" then (if u_Scheme u !=? "" then u_Scheme u +:+ ":" else "") +:+ u_Opaque u
  else hier_part u.

Definition query_part (u : URL) : string :=
  if u_ForceQuery u || (u_RawQuery u !=? "") then "?" +:+ u_RawQuery u else "".

Definition fragment_part (u : URL) : string :=
  if u_Fragment u !=? "" then "#" +:+ encoded encodeFragment (u_Fragment u) (u_RawFragment u) else "".

(** [URL.String]. *)
Definition URL_String (u : URL) : string := before_query u +:+ query_part u +:+ fragment_part u.

(** [URL.RequestURI]. *)
Definition RequestURI (u : URL) : string :=
  (if u_Opaque u ==? "" then (if EscapedPath u ==? "" then "/" else EscapedPath u)
   else if HasPrefix (u_Opaque u) "//" then u_Scheme u +:+ ":" +:+ u_Opaque u else u_Opaque u)
  +:+ query_part u.

(** ** Encoding and decoding *)

Lemma has_char_no c s : has_char c s = false <-> has_no c s.
Proof.
  unfold has_no. induction s as [|d s IH]; simpl; [set_solver|].
  rewrite orb_false_iff, IH, not_elem_of_cons, Ascii.eqb_neq. split; intros [Hd Hs]; split; try done.
  - intros Heq. apply Hd. apply N2Z.inj, (f_equal ascii_of_N) in Heq.
    by rewrite !ascii_N_embedding in Heq.
  - by intros ->.
Qed.

Lemma Cut_app sep a b : has_no sep a -> Cut sep (a +:+ String sep b) = (a, b, true).
Proof.
  induction a as [|c a IH]; intros Ha; simpl; [by rewrite Ascii.eqb_refl|].
  apply has_no_cons in Ha as [-> Ha]. by rewrite IH.
Qed.

(** Encoding that can be undone, byte by byte. *)
Definition undone (m : encoding) (c : Z) : bool :=
  if shouldEscape c m then
    if (c =? 32) && is_query m then true
    else
      let a := upper_hex (c / 16) in
      let b := upper_hex (c mod 16) in
      ishex a && ishex b && escape_allowed m a b && (unhex a * 16 + unhex b =? c)
  else negb (c =? 37) && negb ((c =? 43) && is_query m).

Lemma undone_byte m c : of_host m = false -> is_byte c -> undone m c = true.
Proof.
  intros Hm Hc. revert c Hc. apply (forall_below 256 (undone m)). by destruct m; vm_compute.
Qed.

Lemma unescape_byte m c l :
  of_host m = false -> is_byte c -> unescape m (escape_byte m c ++ l) = cons c <$> unescape m l.
Proof.
  intros Hm Hc. pose proof (undone_byte m c Hm Hc) as Hu. unfold undone in Hu. unfold escape_byte.
  destruct (shouldEscape c m) eqn:Hs.
  - destruct ((c =? 32) && is_query m) eqn:Hq.
    + apply andb_true_iff in Hq as [Hq1 Hq2]. simpl. rewrite Hq2.
      apply Z.eqb_eq in Hq1 as ->. done.
    + apply andb_true_iff in Hu as [Hu He]. apply Z.eqb_eq in He.
      cbn [app unescape]. rewrite Z.eqb_refl, Hu. by rewrite He.
  - apply andb_true_iff in Hu as [H37 H43]. cbn [app unescape].
    apply negb_true_iff in H37. rewrite H37, Hm. cbn [andb].
    destruct (c =? 43) eqn:E43; [|done]. simpl in H43. apply negb_true_iff in H43.
    rewrite H43. by apply Z.eqb_eq in E43 as ->.
Qed.

Lemma unescape_escape m l :
  of_host m = false -> Forall is_byte l -> unescape m (escape m l) = Some l.
Proof.
  intros Hm. induction 1 as [|c l Hc _ IH]; [done|]. unfold escape. cbn [map concat].
  rewrite unescape_byte by done. unfold escape in IH. by rewrite IH.
Qed.

Lemma upper_hex_byte v : 0 <= v < 16 -> is_byte (upper_hex v).
Proof. unfold upper_hex, is_byte. split_match; bool_to_prop; lia. Qed.

Lemma escape_is_byte m l : Forall is_byte l -> Forall is_byte (escape m l).
Proof.
  induction 1 as [|c l Hc _ IH]; [constructor|]. unfold escape. cbn [map concat].
  apply Forall_app_2; [|exact IH]. unfold escape_byte. unfold is_byte in Hc.
  assert (0 <= c / 16 < 16 /\ 0 <= c mod 16 < 16) as [? ?].
  { split; [split; [apply Z.div_pos; lia|apply Z.div_lt_upper_bound; lia]|apply Z.mod_pos_bound; lia]. }
  repeat split_match; repeat constructor; try (by apply upper_hex_byte); unfold is_byte; lia.
Qed.

Lemma unescaped_escaped m s : of_host m = false -> unescaped m (escaped m s) = Some s.
Proof.
  intros Hm. unfold unescaped, escaped.
  rewrite bytes_of_bytes by apply escape_is_byte, bytes_range.
  rewrite unescape_escape by (done || apply bytes_range). simpl. by rewrite of_bytes_bytes.
Qed.

Lemma QueryUnescape_Escape s : QueryUnescape (QueryEscape s) = Some s.
Proof. by apply (unescaped_escaped encodeQueryComponent). Qed.

(** The separators of a query never occur in an escaped string. *)
Definition no_separator (c : Z) : bool :=
  forallb (fun b => negb (existsb (Z.eqb b) [38; 59; 61])) (escape_byte encodeQueryComponent c).

Lemma QueryEscape_avoids c s :
  existsb (Z.eqb (Z.of_N (N_of_ascii c))) [38; 59; 61] = true -> has_no c (QueryEscape s).
Proof.
  intros Hc. unfold has_no, QueryEscape.
  rewrite bytes_of_bytes by apply escape_is_byte, bytes_range.
  pose proof (bytes_range s) as Hs. revert Hs. generalize (bytes s). intros l Hl Hin.
  apply list_elem_of_In, in_concat in Hin as (x & Hx & Hin).
  apply in_map_iff in Hx as (b & <- & Hb). rewrite List.Forall_forall in Hl.
  assert (no_separator b = true) as Hn.
  { apply (forall_below 256); [by vm_compute|]. by apply Hl. }
  unfold no_separator in Hn. rewrite forallb_forall in Hn. specialize (Hn _ Hin).
  by rewrite Hc in Hn.
Qed.

Lemma has_no_app c s t : has_no c s -> has_no c t -> has_no c (s +:+ t).
Proof. unfold has_no. rewrite bytes_app. set_solver. Qed.

Lemma encode_pair_no c kv :
  c = "&"%char \/ c = ";"%char -> has_no c (encode_pair kv).
Proof.
  intros Hc. unfold encode_pair.
  assert (existsb (Z.eqb (Z.of_N (N_of_ascii c))) [38; 59; 61] = true) by (by destruct Hc as [->| ->]).
  apply has_no_app; [by apply QueryEscape_avoids|]. apply has_no_app; [|by apply QueryEscape_avoids].
  unfold has_no. destruct Hc as [->| ->]; vm_compute; set_solver.
Qed.

Lemma parse_encode_pair kv : parse_piece (encode_pair kv) = Some (Some kv).
Proof.
  unfold parse_piece. pose proof (encode_pair_no ";"%char kv (or_intror eq_refl)) as Hs.
  apply has_char_no in Hs. rewrite Hs. unfold encode_pair.
  rewrite bool_decide_eq_false_2 by (destruct (QueryEscape kv.1); done).
  change ("=" +:+ QueryEscape kv.2) with (String "="%char (QueryEscape kv.2)).
  rewrite Cut_app by (by apply QueryEscape_avoids).
  rewrite !QueryUnescape_Escape. by destruct kv.
Qed.

Lemma parse_pieces_pairs q : parse_pieces (map encode_pair q) = (q, true).
Proof.
  induction q as [|kv q IH]; [done|]. cbn [map parse_pieces]. by rewrite IH, parse_encode_pair.
Qed.

Lemma ParseQuery_Encode q : ParseQuery (Values_Encode q) = (sort_by key_less q, true).
Proof.
  unfold ParseQuery, Values_Encode. destruct (sort_by key_less q) as [|kv l] eqn:E; [done|].
  rewrite <-E. rewrite (Split_Join "&"%char).
  - apply parse_pieces_pairs.
  - by rewrite E.
  - apply List.Forall_forall. intros x Hx. apply in_map_iff in Hx as (y & <- & _).
    apply encode_pair_no. by left.
Qed.

(** Sorting by key keeps the values of a key in order. *)
Lemma bytes_less_irrefl l : bytes_less l l = false.
Proof. induction l as [|a l IH]; [done|]. simpl. by rewrite Z.eqb_refl. Qed.

Definition of_key (k : string) (q : Values) : Values := List.filter (fun kv => kv.1 ==? k) q.

Lemma of_key_insert k x q : of_key k (insert_by key_less x q) = of_key k (x :: q).
Proof.
  induction q as [|y q IH]; [done|]. simpl insert_by.
  destruct (key_less y x) eqn:Hl; [|done]. unfold of_key in *. cbn [List.filter] in *. rewrite IH.
  destruct (y.1 ==? k) eqn:Hy, (x.1 ==? k) eqn:Hx; try done. bool_to_prop.
  unfold key_less in Hl. by rewrite Hy, Hx, bytes_less_irrefl in Hl.
Qed.

Lemma of_key_sort k q : of_key k (sort_by key_less q) = of_key k q.
Proof.
  induction q as [|x q IH]; [done|].
  change (sort_by key_less (x :: q)) with (insert_by key_less x (sort_by key_less q)).
  rewrite of_key_insert. unfold of_key in *. cbn [List.filter]. by rewrite IH.
Qed.

Lemma first_of_key k q : first_of k q = snd <$> head (of_key k q).
Proof.
  unfold first_of, of_key. induction q as [|x q IH]; [done|]. simpl.
  by destruct (x.1 ==? k).
Qed.

Lemma first_of_sort k q : first_of k (sort_by key_less q) = first_of k q.
Proof. by rewrite !first_of_key, of_key_sort. Qed.

Lemma first_of_Del k k' q : first_of k (Values_Del k' q) = if k ==? k' then None else first_of k q.
Proof.
  unfold first_of, Values_Del. induction q as [|x q IH]; simpl; [by case_match|].
  destruct (x.1 ==? k') eqn:E'; bool_to_prop; simpl; rewrite ?IH.
  - destruct (k ==? k') eqn:E; [done|]. bool_to_prop. subst.
    rewrite bool_decide_eq_false_2 by congruence. done.
  - destruct (x.1 ==? k) eqn:Ex; [|done]. bool_to_prop. subst.
    by rewrite bool_decide_eq_false_2.
Qed.

Lemma first_of_app k q1 q2 :
  first_of k (q1 ++ q2) = match first_of k q1 with Some v => Some v | None => first_of k q2 end.
Proof. unfold first_of. rewrite find_first_app. by destruct (find_first _ q1). Qed.

Lemma first_of_Set k k' v q : first_of k (Values_Set k' v q) = if k ==? k' then Some v else first_of k q.
Proof.
  unfold Values_Set. rewrite first_of_app, first_of_Del. destruct (k ==? k') eqn:E; bool_to_prop.
  - subst. unfold first_of. simpl. by rewrite bool_decide_eq_true_2.
  - destruct (first_of k q); [done|]. unfold first_of. simpl. by rewrite bool_decide_eq_false_2.
Qed.

Lemma Query_set_RawQuery q u : Query (set_RawQuery (Values_Encode q) u) = sort_by key_less q.
Proof. unfold Query. destruct u. simpl. by rewrite ParseQuery_Encode. Qed.

(** ** path.Clean, http.Redirect and what a browser makes of a Location

    [Location] is the header [http.Redirect] sends for a URL: a URL without
    scheme and host has the part before its query cleaned.  [same_origin] is
    how a browser reads it (the URL Standard): tabs and line breaks are
    removed, and a second slash or backslash would start another host. *)

(** ** path.Clean *)

(** One component against the stack of those kept, the last one first. *)
Definition clean_step (rooted : bool) (stack : list string) (c : string) : list string :=
  if (c ==? "") || (c ==? ".") then stack
  else if c ==? ".." then
    match stack with
    | [] => if rooted then [] else [".."]
    | top :: rest => if top ==? ".." then ".." :: stack else rest
    end
  else c :: stack.

Definition Clean (s : string) : string :=
  let rooted := HasPrefix s "/" in
  let kept := Join (rev (fold_left (clean_step rooted) (Split s "/"%char) [])) "/" in
  if rooted then "/" +:+ kept else if kept ==? "" then "." else kept.

(** [path.Split]'s directory: up to and with the last slash. *)
Definition dir_of (s : string) : string :=
  match cut_last "/"%char s with Some (d, _) => d +:+ "/" | None => "" end.

Fixpoint ends_in (c : ascii) (s : string) : bool :=
  match s with
  | EmptyString => false
  | String d EmptyString => Ascii.eqb d c
  | String _ s => ends_in c s
  end.

(** ** http.Redirect *)

Definition Location (oldpath url : string) : string :=
  match Parse url with
  | Some u =>
      if (u_Scheme u ==? "") && (u_Host u ==? "") then
        let oldpath := if oldpath ==? "" then "/" else oldpath in
        let url := if HasPrefix url "/" then url else dir_of oldpath +:+ url in
        let '(before, after_, found) := Cut "?"%char url in
        let cleaned := Clean before in
        (if ends_in "/"%char before && negb (ends_in "/"%char cleaned) then cleaned +:+ "/" else cleaned)
        +:+ (if found : bool then "?" +:+ after_ else "")
      else url
  | None => url
  end.

(** ** The browser *)

Definition tab : ascii := Ascii.ascii_of_nat 9.
Definition dropped (c : ascii) : bool :=
  existsb (Ascii.eqb c) [tab; Ascii.ascii_of_nat 10; Ascii.ascii_of_nat 13].

Fixpoint stripped (s : string) : string :=
  match s with
  | EmptyString => EmptyString
  | String c s => if dropped c then stripped s else String c (stripped s)
  end.

Definition same_origin (location : string) : bool :=
  match stripped location with
  | String c rest =>
      Ascii.eqb c "/"%char &&
      match rest with
      | String d _ => negb (Ascii.eqb d "/"%char) && negb (Ascii.eqb d "\"%char)
      | EmptyString => true
      end
  | EmptyString => false
  end.

(** ** Cleaned paths stay on the origin *)

(** A character after the first slash that keeps the URL on its origin. *)
Definition tame (c : ascii) : bool :=
  negb (Ascii.eqb c "/"%char) && negb (Ascii.eqb c "\"%char) && negb (dropped c).

Definition tame_start (s : string) : Prop :=
  match s with String c _ => tame c = true | EmptyString => True end.

Lemma same_origin_slash s : tame_start s -> same_origin (String "/"%char s) = true.
Proof.
  unfold same_origin. cbn [stripped]. change (dropped "/"%char) with false. cbn match.
  destruct s as [|c s]; [done|]. intros Hc. cbn in Hc. cbn [stripped].
  unfold tame in Hc. apply andb_true_iff in Hc as [Hc Hd]. apply negb_true_iff in Hd. rewrite Hd.
  by rewrite Hc, andb_true_r.
Qed.

(** Every character of a string satisfies [p]. *)
Fixpoint all_chars (p : ascii -> bool) (s : string) : bool :=
  match s with EmptyString => true | String c s => p c && all_chars p s end.

Lemma all_chars_app p s t : all_chars p (s +:+ t) = all_chars p s && all_chars p t.
Proof.
  induction s as [|c s IH]; [done|]. change (String c s +:+ t) with (String c (s +:+ t)).
  cbn [all_chars]. by rewrite IH, andb_assoc.
Qed.

Lemma all_chars_impl (p q : ascii -> bool) s :
  (forall c, p c = true -> q c = true) -> all_chars p s = true -> all_chars q s = true.
Proof.
  intros Hpq. induction s as [|c s IH]; [done|]. cbn [all_chars]. rewrite !andb_true_iff.
  intros [Hc Hs]. auto.
Qed.

Lemma split_from_chars p sep cur s c :
  all_chars p cur = true -> all_chars (fun x => Ascii.eqb x sep || p x) s = true ->
  c ∈ split_from sep cur s -> all_chars p c = true.
Proof.
  revert cur. induction s as [|x s IH]; intros cur Hcur Hs Hin; cbn in Hin, Hs.
  { by apply list_elem_of_singleton in Hin as ->. }
  apply andb_true_iff in Hs as [Hx Hs]. destruct (Ascii.eqb x sep) eqn:E.
  - apply elem_of_cons in Hin as [->|Hin]; [done|]. by apply (IH EmptyString).
  - apply (IH (cur +:+ String x EmptyString)); [|done..]. rewrite all_chars_app, Hcur. cbn.
    cbn in Hx. by rewrite Hx.
Qed.

Lemma clean_step_kept rooted comps stack :
  forall x, x ∈ fold_left (clean_step rooted) comps stack ->
    x ∈ stack \/ x = ".." \/ (x ∈ comps /\ x <> "").
Proof.
  revert stack. induction comps as [|c comps IH]; intros stack x Hx; [by left|]. cbn in Hx.
  destruct (IH _ _ Hx) as [Hin|[?|[Hin Hne]]]; [|by right; left|right; right; split; [by right|done]].
  unfold clean_step in Hin. destruct ((c ==? "") || (c ==? ".")) eqn:E1; [by left|].
  apply orb_false_iff in E1 as [E1 _]. bool_to_prop.
  destruct (c ==? "..") eqn:E2.
  - destruct stack as [|top rest]; [destruct rooted; set_solver|].
    destruct (top ==? ".."); set_solver.
  - apply elem_of_cons in Hin as [->|Hin]; [|by left]. right; right. split; [left|done].
Qed.

Lemma Join_cons_start (x : string) l : exists rest, Join (x :: l) "/" = x +:+ rest.
Proof. destruct l as [|y l]; [exists ""; by rewrite string_app_nil|]. by eexists. Qed.

(** A rooted path without backslashes and dropped characters is cleaned to
    one that starts with a single slash. *)
Lemma Clean_rooted s :
  HasPrefix s "/" = true -> all_chars (fun x => Ascii.eqb x "/"%char || tame x) s = true ->
  exists rest, Clean s = String "/"%char rest /\ tame_start rest.
Proof.
  intros Hr Hs. unfold Clean. rewrite Hr. eexists. split; [reflexivity|].
  set (stack := fold_left _ _ _).
  assert (forall x, x ∈ rev stack -> x <> "" /\ all_chars tame x = true) as Hall.
  { intros x Hx. apply list_elem_of_In, in_rev, list_elem_of_In in Hx.
    destruct (clean_step_kept _ _ _ _ Hx) as [Hx'|[->|[Hx' Hne]]]; [by apply not_elem_of_nil in Hx'|done|].
    split; [done|]. by eapply (split_from_chars _ "/"%char ""). }
  destruct (rev stack) as [|x l]; [done|].
  destruct (Hall x (list_elem_of_here _ _)) as [Hne Hx]. destruct (Join_cons_start x l) as [rest ->].
  destruct x as [|c x]; [done|]. cbn [all_chars] in Hx.
  apply andb_true_iff in Hx as [Hx _]. exact Hx.
Qed.

Lemma Cut_chars p c s : all_chars p s = true -> all_chars p (Cut c s).1.1 = true.
Proof.
  induction s as [|d s IH]; [done|]. cbn [all_chars Cut]. rewrite andb_true_iff. intros [Hd Hs].
  destruct (Ascii.eqb d c); [done|]. destruct (Cut c s) as [[b a] f]. cbn in *. by rewrite Hd, IH.
Qed.

Lemma Cut_rooted s : HasPrefix s "/" = true -> HasPrefix (Cut "?"%char s).1.1 "/" = true.
Proof.
  destruct s as [|c s]; [done|]. unfold HasPrefix. cbn [String.prefix Cut].
  destruct (ascii_dec "/" c) as [<-|]; [|done]. intros _. cbn [Ascii.eqb].
  change (Ascii.eqb "/" "?") with false. cbn match. destruct (Cut "?"%char s) as [[b a] f].
  cbn. by destruct b.
Qed.

(** What [http.Redirect] sends for a path of tame characters and slashes. *)
Lemma Location_same_origin oldpath url u :
  Parse url = Some u -> u_Scheme u = "" -> u_Host u = "" -> HasPrefix url "/" = true ->
  all_chars (fun x => Ascii.eqb x "/"%char || tame x) url = true ->
  same_origin (Location oldpath url) = true.
Proof.
  intros Hp Hs Hh Hr Hall. unfold Location. rewrite Hp, Hs, Hh, Hr, !bool_decide_eq_true_2 by done.
  cbn [andb]. pose proof (Cut_rooted url Hr) as Hr'. pose proof (Cut_chars _ "?"%char url Hall) as Hall'.
  destruct (Cut "?"%char url) as [[before after_] found]. cbn [fst] in Hr', Hall'.
  destruct (Clean_rooted before Hr' Hall') as (rest & -> & Ht).
  set (query := if found then _ else _).
  assert (tame_start query) as Hq by (unfold query; by destruct found).
  assert (forall b : bool, tame_start ((if b then rest +:+ "/" else rest) +:+ query) \/ rest = "") as Hcase.
  { intros b. destruct rest as [|c rest]; [by right|left]. by destruct b. }
  destruct rest as [|c rest].
  - change (ends_in "/" (String "/" "")) with true. rewrite andb_false_r.
    change (String "/" "" +:+ query) with (String "/"%char query). by apply same_origin_slash.
  - set (b := _ && _). destruct (Hcase b) as [Hb|?]; [|done].
    assert ((if b then String "/" (String c rest) +:+ "/" else String "/" (String c rest)) +:+ query
      = String "/"%char ((if b then String c rest +:+ "/" else String c rest) +:+ query)) as -> by by destruct b.
    by apply same_origin_slash.
Qed.
