(* ===== verification/GoNetip.v ===== *)
(** * Package net/netip

    IP addresses and prefixes as the source uses them: [ParseAddr],
    [ParsePrefix], [PrefixFrom], [Addr.Unmap], [Addr.String] and
    [Prefix.Contains].  A failure is [None]; no caller looks at the error. *)
From S2P Require Import Prelude GoTime GoText GoUrl.
From Stdlib Require Import Ascii.
#[local] Open Scope Z_scope.
#[local] Open Scope go_scope.

(** ** Addresses

    32 bits of an IPv4 address, or 128 bits of an IPv6 address and its zone. *)

Inductive Addr :=
| Addr4 (v : Z)
| Addr6 (v : Z) (zone : string).

#[export] Instance Addr_eq_dec : EqDecision Addr.
Proof. solve_decision. Defined.

Definition BitLen (a : Addr) : Z := match a with Addr4 _ => 32 | Addr6 _ _ => 128 end.
Definition addr_value (a : Addr) : Z := match a with Addr4 v | Addr6 v _ => v end.
Definition Zone (a : Addr) : string := match a with Addr4 _ => "" | Addr6 _ z => z end.
Definition withoutZone (a : Addr) : Addr := match a with Addr6 v _ => Addr6 v "" | a => a end.

(** An IPv6 address that stands for an IPv4 one, [::ffff:a.b.c.d]. *)
Definition Is4In6 (v : Z) : bool := v / 2 ^ 32 =? 0xFFFF.
Definition Unmap (a : Addr) : Addr :=
  match a with
  | Addr6 v _ => if Is4In6 v then Addr4 (v mod 2 ^ 32) else a
  | a => a
  end.

(** ** Parsing IPv4

    The four fields; a field has no leading zero and is at most 255.  [field]
    is the field read so far, none before its first digit. *)
Fixpoint ipv4_fields (done : list Z) (field : option Z) (l : list Z) : option (list Z) :=
  match l with
  | [] =>
      match field with
      | Some v => if (length done =? 3)%nat then Some (done ++ [v]) else None
      | None => None
      end
  | c :: l =>
      if in_range 48 57 c then
        match field with
        | None => ipv4_fields done (Some (c - 48)) l
        | Some v =>
            if v =? 0 then None
            else if 255 <? v * 10 + (c - 48) then None
            else ipv4_fields done (Some (v * 10 + (c - 48))) l
        end
      else if c =? 46 then
        match field with
        | Some v => if (length done =? 3)%nat then None else ipv4_fields (done ++ [v]) None l
        | None => None
        end
      else None
  end.

(** Digits of a number in base [b], most significant first. *)
Definition of_digits (b : Z) (l : list Z) : Z := fold_left (fun acc d => acc * b + d) l 0.

Definition parseIPv4 (l : list Z) : option Z := of_digits 256 <$> ipv4_fields [] None l.

(** ** Parsing IPv6 *)

(** The hexadecimal number a group begins with, its digits counted, and the
    rest. *)
Fixpoint hex_group (acc : Z) (digits : nat) (l : list Z) : Z * nat * list Z :=
  match l with
  | c :: l' => if ishex c then hex_group (acc * 16 + unhex c) (S digits) l' else (acc, digits, l)
  | [] => (acc, digits, [])
  end.

(** The 16-bit groups, and the position of the double colon among them.
    [fuel] is the number of groups there is room for. *)
Fixpoint ipv6_groups (fuel : nat) (groups : list Z) (ellipsis : option nat) (l : list Z)
    : option (list Z * option nat) :=
  match fuel with
  | O => match l with [] => Some (groups, ellipsis) | _ => None end
  | S fuel =>
      let '(acc, digits, rest) := hex_group 0 0 l in
      if (4 <? digits)%nat || (digits =? 0)%nat then None
      else match rest with
      | 46 :: _ =>
          (* an IPv4 address in the place of the last two groups *)
          match ellipsis with
          | None => if negb (length groups =? 6)%nat then None
                    else v ← parseIPv4 l; Some (groups ++ [v / 2 ^ 16; v mod 2 ^ 16], ellipsis)
          | Some _ => if (fuel =? 0)%nat then None
                      else v ← parseIPv4 l; Some (groups ++ [v / 2 ^ 16; v mod 2 ^ 16], ellipsis)
          end
      | [] => Some (groups ++ [acc], ellipsis)
      | 58 :: [] => None
      | 58 :: 58 :: rest =>
          match ellipsis with
          | Some _ => None
          | None =>
              let groups := groups ++ [acc] in
              match rest with
              | [] => Some (groups, Some (length groups))
              | _ => ipv6_groups fuel groups (Some (length groups)) rest
              end
          end
      | 58 :: rest => ipv6_groups fuel (groups ++ [acc]) ellipsis rest
      | _ => None
      end
  end.

(** The zeros a double colon stands for: at least one group. *)
Definition expand_ellipsis (groups : list Z) (ellipsis : option nat) : option (list Z) :=
  match ellipsis with
  | None => if (length groups =? 8)%nat then Some groups else None
  | Some e =>
      if (length groups <? 8)%nat then Some (take e groups ++ repeat 0 (8 - length groups) ++ drop e groups)
      else None
  end.

Definition parseIPv6 (s : string) : option Addr :=
  let '(addr, zone, zoned) := Cut "%"%char s in
  if zoned && (zone ==? "") then None
  else match bytes addr with
  | [58; 58] => Some (Addr6 0 zone)
  | 58 :: 58 :: l =>
      '(groups, e) ← ipv6_groups 8 [] (Some 0%nat) l;
      groups ← expand_ellipsis groups e; Some (Addr6 (of_digits 65536 groups) zone)
  | l =>
      '(groups, e) ← ipv6_groups 8 [] None l;
      groups ← expand_ellipsis groups e; Some (Addr6 (of_digits 65536 groups) zone)
  end.

(** The first of [.], [:] and [%] decides. *)
Fixpoint addr_kind (l : list Z) : option Z :=
  match l with
  | [] => None
  | c :: l => if (c =? 46) || (c =? 58) || (c =? 37) then Some c else addr_kind l
  end.

Definition ParseAddr (s : string) : option Addr :=
  match addr_kind (bytes s) with
  | Some 46 => Addr4 <$> parseIPv4 (bytes s)
  | Some 58 => parseIPv6 s
  | _ => None
  end.

(** ** Printing *)

Definition addr_part (base width v : Z) (i : nat) : Z := v / base ^ (width - 1 - Z.of_nat i) mod base.

Definition string4 (v : Z) : string := Join (map (fun i => dec (addr_part 256 4 v i)) (seq 0 4)) ".".

(** Hexadecimal without leading zeros, for 16 bits. *)
Definition appendHex (x : Z) : list Z :=
  let digit v := if v <? 10 then 48 + v else 87 + v in
  (if x <? 0x1000 then [] else [digit (x / 4096)])
  ++ (if x <? 0x100 then [] else [digit (x / 256 mod 16)])
  ++ (if x <? 0x10 then [] else [digit (x / 16 mod 16)])
  ++ [digit (x mod 16)].

(** The zeros a list begins with. *)
Fixpoint leading_zeros (l : list Z) : nat :=
  match l with
  | 0 :: l => S (leading_zeros l)
  | _ => O
  end.

(** The first of the longest runs of at least two zeros: its place and its
    length; [best] is the longest so far. *)
Fixpoint longest_zeros (i : nat) (best : nat * nat) (l : list Z) : nat * nat :=
  match l with
  | [] => best
  | _ :: l' =>
      let n := leading_zeros l in
      longest_zeros (S i) (if (2 <=? n)%nat && (best.2 <? n)%nat then (i, n) else best) l'
  end.

Definition hex_groups (l : list Z) : list Z := bytes (Join (map (fun x => of_bytes (appendHex x)) l) ":").

Definition string6 (v : Z) (zone : string) : string :=
  let groups := map (addr_part 65536 8 v) (seq 0 8) in
  let '(start, n) := longest_zeros 0 (O, O) groups in
  of_bytes (if (n =? 0)%nat then hex_groups groups
            else hex_groups (take start groups) ++ [58; 58] ++ hex_groups (drop (start + n) groups))
  +:+ (if zone ==? "" then "" else "%" +:+ zone).

Definition Addr_String (a : Addr) : string :=
  match a with
  | Addr4 v => string4 v
  | Addr6 v zone =>
      if Is4In6 v then "::ffff:" +:+ string4 (v mod 2 ^ 32) +:+ (if zone ==? "" then "" else "%" +:+ zone)
      else string6 v zone
  end.

(** ** Prefixes

    An address without its zone and the number of its leading bits that
    count; no number when the prefix is not valid. *)
Record Prefix := { pf_addr : Addr; pf_bits : option Z }.

Definition PrefixFrom (a : Addr) (bits : Z) : Prefix :=
  {| pf_addr := withoutZone a; pf_bits := if in_range 0 (BitLen a) bits then Some bits else None |}.

Definition Contains (p : Prefix) (a : Addr) : bool :=
  match pf_bits p with
  | Some bits =>
      (Zone a ==? "") && (BitLen (pf_addr p) =? BitLen a)
      && (Z.shiftr (Z.lxor (addr_value a) (addr_value (pf_addr p))) (BitLen a - bits) =? 0)
  | None => false
  end.

Definition ParsePrefix (s : string) : option Prefix :=
  '(addr, bits) ← cut_last "/"%char s;
  a ← ParseAddr addr;
  if Zone a !=? "" then None
  else match bytes bits with
  | c :: _ :: _ => if negb (in_range 49 57 c) then None
                   else n ← Atoi bits; if in_range 0 (BitLen a) n then Some (PrefixFrom a n) else None
  | _ => n ← Atoi bits; if in_range 0 (BitLen a) n then Some (PrefixFrom a n) else None
  end.

(** ** Tests *)

Example addresses_read :
  map ParseAddr ["192.0.2.1"; "192.0.2.01"; "256.0.0.1"; "1.2.3"; "::1"; "2001:db8::8:800:200c:417a"; "fe80::1%eth0";
                 "::ffff:192.0.2.1"; "1:2:3:4:5:6:7::8"; "::%"; "1::2::3"; "12345::"; "1:2:3:4:5:6:1.2.3.4"] =
  [Some (Addr4 0xC0000201); None; None; None; Some (Addr6 1 "");
   Some (Addr6 0x20010DB80000000000080800200C417A "");
   Some (Addr6 0xFE800000000000000000000000000001 "eth0"); Some (Addr6 0xFFFFC0000201 "");
   None; None; None; None; Some (Addr6 0x00010002000300040005000601020304 "")].
Proof. vm_compute. reflexivity. Qed.

Example addresses_written :
  map (fun s => Addr_String <$> ParseAddr s)
    ["192.0.2.1"; "2001:DB8:0:0:8:800:200C:417A"; "::"; "::1"; "1:0:0:2:0:0:0:3"; "1:0:2:0:3:0:4:0"; "fe80::1%eth0"] =
  [Some "192.0.2.1"; Some "2001:db8::8:800:200c:417a"; Some "::"; Some "::1"; Some "1:0:0:2::3";
   Some "1:0:2:0:3:0:4:0"; Some "fe80::1%eth0"].
Proof. vm_compute. reflexivity. Qed.

Example prefixes_contain :
  map (fun x => (fun p => Contains p x.2) <$> ParsePrefix x.1)
    [("10.0.0.0/8", Addr4 0x0A010203); ("10.0.0.0/8", Addr4 0x0B010203); ("fc00::/7", Addr6 (0xFD * 2 ^ 120) "");
     ("10.0.0.0/08", Addr4 0); ("10.0.0.0/33", Addr4 0); ("::/0", Addr4 1); ("0.0.0.0/0", Addr4 1)] =
  [Some true; Some false; Some true; None; None; Some false; Some true].
Proof. vm_compute. reflexivity. Qed.
