(* ===== verification/Hash.v ===== *)
(** * Hash functions of the standard library

    SHA-1, SHA-256 (FIPS 180-4) and HMAC (RFC 2104), as [crypto/sha1],
    [crypto/sha256] and [crypto/hmac] compute them, on byte lists and 32-bit
    words.  They are executable, so the codes and challenges of the
    development are the real ones: the test vectors at the end of the file
    are evaluated by the kernel. *)
From S2P Require Import Prelude GoTime GoText Encoding.
#[local] Open Scope Z_scope.

(** ** 32-bit words *)

Definition mask32 : Z := 0xFFFFFFFF.
Definition w32 (x : Z) : Z := Z.land x mask32.
Definition add32 (x y : Z) : Z := w32 (x + y).
Definition rotl (n x : Z) : Z := Z.lor (w32 (Z.shiftl x n)) (Z.shiftr x (32 - n)).
Definition rotr (n x : Z) : Z := Z.lor (Z.shiftr x n) (w32 (Z.shiftl x (32 - n))).
Definition not32 (x : Z) : Z := Z.lxor x mask32.

(** The [n] low bytes of [x], most significant first. *)
Fixpoint big_endian (n : nat) (x : Z) : list Z :=
  match n with
  | O => []
  | S n => big_endian n (Z.shiftr x 8) ++ [Z.land x 255]
  end.

Definition from_big_endian (l : list Z) : Z := fold_left (fun acc b => acc * 256 + b) l 0.

Lemma big_endian_length n x : length (big_endian n x) = n.
Proof.
  revert x. induction n as [|n IH]; intros x; simpl; [done|].
  rewrite length_app, IH. simpl. lia.
Qed.

Lemma land255_byte x : is_byte (Z.land x 255).
Proof.
  unfold is_byte. change 255 with (Z.ones 8). rewrite Z.land_ones by lia.
  pose proof (Z.mod_pos_bound x (2 ^ 8)). lia.
Qed.

Lemma big_endian_bytes n x : Forall is_byte (big_endian n x).
Proof.
  revert x. induction n as [|n IH]; intros x; simpl; [constructor|].
  apply Forall_app_2; [done|]. repeat constructor; apply land255_byte.
Qed.

Fixpoint chunks (n : nat) (fuel : nat) (l : list Z) : list (list Z) :=
  match fuel, l with
  | O, _ | _, [] => []
  | S fuel, _ => take n l :: chunks n fuel (drop n l)
  end.

(** Split into groups of [n] elements; the length is fuel enough. *)
Definition groups (n : nat) (l : list Z) : list (list Z) := chunks n (length l) l.

(** The padding both functions share: a 1 bit, zeros, and the length in bits
    as 64 bits. *)
Definition pad_message (l : list Z) : list Z :=
  let n := Z.of_nat (length l) in
  l ++ [128] ++ repeat 0 (Z.to_nat ((55 - n) mod 64)) ++ big_endian 8 (8 * n).

Definition block_words (block : list Z) : list Z := map from_big_endian (groups 4 block).

(** ** SHA-256 *)

Definition sha256_init : list Z :=
  [1779033703; 3144134277; 1013904242; 2773480762;
   0x510e527f; 0x9b05688c; 0x1f83d9ab; 0x5be0cd19].

Definition sha256_k : list Z :=
  [1116352408; 1899447441; 3049323471; 3921009573; 961987163; 1508970993;
   2453635748; 2870763221; 3624381080; 310598401; 607225278; 1426881987;
   1925078388; 2162078206; 2614888103; 3248222580; 3835390401; 4022224774;
   264347078; 604807628; 770255983; 1249150122; 1555081692; 1996064986;
   2554220882; 2821834349; 2952996808; 3210313671; 3336571891; 3584528711;
   113926993; 338241895; 666307205; 773529912; 1294757372; 1396182291;
   1695183700; 1986661051; 2177026350; 2456956037; 2730485921; 2820302411;
   3259730800; 3345764771; 3516065817; 3600352804; 4094571909; 275423344;
   430227734; 506948616; 659060556; 883997877; 958139571; 1322822218;
   1537002063; 1747873779; 1955562222; 2024104815; 2227730452; 2361852424;
   2428436474; 2756734187; 3204031479; 3329325298].

Definition small_sigma0 (x : Z) : Z := Z.lxor (Z.lxor (rotr 7 x) (rotr 18 x)) (Z.shiftr x 3).
Definition small_sigma1 (x : Z) : Z := Z.lxor (Z.lxor (rotr 17 x) (rotr 19 x)) (Z.shiftr x 10).
Definition big_sigma0 (x : Z) : Z := Z.lxor (Z.lxor (rotr 2 x) (rotr 13 x)) (rotr 22 x).
Definition big_sigma1 (x : Z) : Z := Z.lxor (Z.lxor (rotr 6 x) (rotr 11 x)) (rotr 25 x).
Definition choose (x y z : Z) : Z := Z.lxor (Z.land x y) (Z.land (not32 x) z).
Definition majority (x y z : Z) : Z :=
  Z.lxor (Z.lxor (Z.land x y) (Z.land x z)) (Z.land y z).

(** The message schedule: [w] is the window of the last sixteen words, oldest
    first, and each step emits the oldest. *)
Fixpoint schedule256 (n : nat) (w : list Z) : list Z :=
  match n with
  | O => []
  | S n =>
      let g i := nth i w 0 in
      let next := w32 (small_sigma1 (g 14%nat) + g 9%nat + small_sigma0 (g 1%nat) + g 0%nat) in
      g 0%nat :: schedule256 n (tail w ++ [next])
  end.

Definition round256 (s : list Z) (kw : Z * Z) : list Z :=
  match s with
  | [a; b; c; d; e; f; g; h] =>
      let t1 := h + big_sigma1 e + choose e f g + fst kw + snd kw in
      let t2 := big_sigma0 a + majority a b c in
      [w32 (t1 + t2); a; b; c; w32 (d + t1); e; f; g]
  | _ => s
  end.

Definition compress256 (h : list Z) (block : list Z) : list Z :=
  zip_with add32 h
    (fold_left round256 (zip sha256_k (schedule256 64 (block_words block))) h).

(** [sha256.Sum256]. *)
Definition Sum256 (l : list Z) : list Z :=
  concat (map (big_endian 4) (fold_left compress256 (groups 64 (pad_message l)) sha256_init)).

(** ** SHA-1 *)

Definition sha1_init : list Z :=
  [0x67452301; 0xEFCDAB89; 0x98BADCFE; 0x10325476; 0xC3D2E1F0].

Fixpoint schedule1 (n : nat) (w : list Z) : list Z :=
  match n with
  | O => []
  | S n =>
      let g i := nth i w 0 in
      let next := rotl 1 (Z.lxor (Z.lxor (g 13%nat) (g 8%nat)) (Z.lxor (g 2%nat) (g 0%nat))) in
      g 0%nat :: schedule1 n (tail w ++ [next])
  end.

Definition parity (x y z : Z) : Z := Z.lxor (Z.lxor x y) z.

Definition sha1_f (t : nat) : Z -> Z -> Z -> Z :=
  if (t <? 20)%nat then choose else if (t <? 40)%nat then parity
  else if (t <? 60)%nat then majority else parity.

Definition sha1_k (t : nat) : Z :=
  if (t <? 20)%nat then 0x5A827999 else if (t <? 40)%nat then 0x6ED9EBA1
  else if (t <? 60)%nat then 0x8F1BBCDC else 0xCA62C1D6.

Definition round1 (s : list Z) (tw : nat * Z) : list Z :=
  match s with
  | [a; b; c; d; e] =>
      let t := rotl 5 a + sha1_f (fst tw) b c d + e + sha1_k (fst tw) + snd tw in
      [w32 t; a; rotl 30 b; c; d]
  | _ => s
  end.

Definition compress1 (h : list Z) (block : list Z) : list Z :=
  zip_with add32 h
    (fold_left round1 (zip (seq 0 80) (schedule1 80 (block_words block))) h).

(** [sha1.Sum]. *)
Definition Sum1 (l : list Z) : list Z :=
  concat (map (big_endian 4) (fold_left compress1 (groups 64 (pad_message l)) sha1_init)).

(** ** HMAC *)

(** [hmac.New(hash, key)], one [Write] and [Sum(nil)], for a hash with blocks
    of 64 bytes. *)
Definition hmac (hash : list Z -> list Z) (key msg : list Z) : list Z :=
  let key := if (64 <? length key)%nat then hash key else key in
  let key := key ++ repeat 0 (64 - length key) in
  hash (map (Z.lxor 0x5C) key ++ hash (map (Z.lxor 0x36) key ++ msg)).

(** ** Shape of the digests *)

Lemma concat_bytes (l : list Z) : Forall is_byte (concat (map (big_endian 4) l)).
Proof.
  induction l as [|x l IH]; [constructor|]. cbn [map concat].
  by apply Forall_app_2; [apply big_endian_bytes|].
Qed.

Lemma Sum256_bytes l : Forall is_byte (Sum256 l).
Proof. apply concat_bytes. Qed.

Lemma Sum1_bytes l : Forall is_byte (Sum1 l).
Proof. apply concat_bytes. Qed.

Lemma concat_big_endian_length (l : list Z) :
  length (concat (map (big_endian 4) l)) = (4 * length l)%nat.
Proof.
  induction l as [|x l IH]; [done|].
  cbn [map concat]. rewrite length_app, big_endian_length, IH. simpl. lia.
Qed.

(** A round keeps the number of state words. *)
Lemma round1_length s tw : length (round1 s tw) = length s.
Proof. by destruct s as [|? [|? [|? [|? [|? [|? ?]]]]]]. Qed.

Lemma round256_length s kw : length (round256 s kw) = length s.
Proof.
  by destruct s as [|? [|? [|? [|? [|? [|? [|? [|? [|? ?]]]]]]]]].
Qed.

Lemma fold_left_length {A B} (f : list A -> B -> list A) (l : list B) s :
  (forall s x, length (f s x) = length s) -> length (fold_left f l s) = length s.
Proof.
  intros Hf. revert s. induction l as [|x l IH]; intros s; simpl; [done|].
  by rewrite IH, Hf.
Qed.

Lemma compress1_length h b : length (compress1 h b) = length h.
Proof.
  unfold compress1. rewrite length_zip_with, fold_left_length; [lia|].
  apply round1_length.
Qed.

Lemma compress256_length h b : length (compress256 h b) = length h.
Proof.
  unfold compress256. rewrite length_zip_with, fold_left_length; [lia|].
  apply round256_length.
Qed.

Lemma Sum1_length l : length (Sum1 l) = 20%nat.
Proof.
  unfold Sum1. rewrite concat_big_endian_length.
  by rewrite fold_left_length by apply compress1_length.
Qed.

Lemma Sum256_length l : length (Sum256 l) = 32%nat.
Proof.
  unfold Sum256. rewrite concat_big_endian_length.
  by rewrite fold_left_length by apply compress256_length.
Qed.

(** ** Test vectors: FIPS 180-4, RFC 2202 case 2, RFC 4231 case 2 *)

Definition sum_hex (f : list Z -> list Z) (s : string) : string := hex_EncodeToString (f (bytes s)).

Example sha1_abc : sum_hex Sum1 "abc" = "a9993e364706816aba3e25717850c26c9cd0d89d"%string.
Proof. vm_compute. reflexivity. Qed.

Example sha1_two_blocks :
  sum_hex Sum1 "abcdbcdecdefdefgefghfghighijhijkijkljklmklmnlmnomnopnopq"
  = "84983e441c3bd26ebaae4aa1f95129e5e54670f1"%string.
Proof. vm_compute. reflexivity. Qed.

Example sha256_empty :
  sum_hex Sum256 "" = "e3b0c44298fc1c149afbf4c8996fb92427ae41e4649b934ca495991b7852b855"%string.
Proof. vm_compute. reflexivity. Qed.

Example sha256_two_blocks :
  sum_hex Sum256 "abcdbcdecdefdefgefghfghighijhijkijkljklmklmnlmnomnopnopq"
  = "248d6a61d20638b8e5c026930c3e6039a33ce45964ff2167f6ecedd419db06c1"%string.
Proof. vm_compute. reflexivity. Qed.

Example hmac_sha1_jefe :
  sum_hex (hmac Sum1 (bytes "Jefe")) "what do ya want for nothing?"
  = "effcdf6ae5eb2fa2d27416d5f184df9c259a7c79"%string.
Proof. vm_compute. reflexivity. Qed.

Example hmac_sha256_jefe :
  sum_hex (hmac Sum256 (bytes "Jefe")) "what do ya want for nothing?"
  = "5bdcc146bf60754e6a042426089575c75a003f089d2739839dec58b964ec3843"%string.
Proof. vm_compute. reflexivity. Qed.
