(* ===== verification/Errors.v ===== *)
(** * Errors and results

    [internal/errors] and the Go convention of returning a value and an
    error.  An [error] is the chain a Go error wraps; [IsCode] looks, as
    [errors.As] does, for the first structured error of the chain. *)
From S2P Require Import Prelude.

(** ** internal/errors *)

Definition CodeInternal := "internal_error".
Definition CodeNotFound := "not_found".
Definition CodeAlreadyExists := "already_exists".
Definition CodeInvalidInput := "invalid_input".
Definition CodeUnauthorized := "unauthorized".
Definition CodeForbidden := "forbidden".
Definition CodeTokenInvalid := "token_invalid".
Definition CodeSessionExpired := "session_expired".
Definition CodeInvalidGrant := "invalid_grant".
Definition CodeInvalidScope := "invalid_scope".
Definition CodeUnauthorizedClient := "unauthorized_client".
Definition CodeConflict := "conflict".

(** The errors the program makes: [*errors.Error] without and with an inner
    error, [fmt.Errorf("...: %w", err)], the error values of [errors.New] and
    of the libraries, and [*oidc.RedirectError]. *)
Inductive error :=
| IdpError (Code Message : string)
| IdpWrapped (Code Message : string) (Err : error)
| Errorf (Message : string) (Err : error)
| Plain (Message : string)
| RedirectError (Code Description : string).

#[export] Instance error_eq_dec : EqDecision error.
Proof. solve_decision. Defined.

(** [errors.As(err, &e)] for [e : *Error]: the first one of the chain. *)
Fixpoint error_code (e : error) : option string :=
  match e with
  | IdpError c _ | IdpWrapped c _ _ => Some c
  | Errorf _ e => error_code e
  | Plain _ | RedirectError _ _ => None
  end.

Definition IsCode (e : error) (code : string) : bool :=
  match error_code e with
  | Some c => bool_decide (c = code)
  | None => false
  end.

Definition NotFound (resource id : string) : error :=
  IdpError CodeNotFound (resource +:+ " not found: " +:+ id).
Definition AlreadyExists (resource id : string) : error :=
  IdpError CodeAlreadyExists (resource +:+ " already exists: " +:+ id).
Definition InvalidInput (message : string) : error := IdpError CodeInvalidInput message.
Definition InvalidGrant (message : string) : error := IdpError CodeInvalidGrant message.
Definition InvalidScope (message : string) : error := IdpError CodeInvalidScope message.
Definition UnauthorizedClient (message : string) : error :=
  IdpError CodeUnauthorizedClient message.
Definition Conflict (message : string) : error := IdpError CodeConflict message.
Definition Unauthorized (message : string) : error := IdpError CodeUnauthorized message.
Definition Internal (message : string) (err : error) : error :=
  IdpWrapped CodeInternal message err.

(** [err.Error()]. *)
Fixpoint Error_string (e : error) : string :=
  match e with
  | IdpError c m => c +:+ ": " +:+ m
  | IdpWrapped c m e => c +:+ ": " +:+ m +:+ ": " +:+ Error_string e
  | Errorf m e => m +:+ ": " +:+ Error_string e
  | Plain m => m
  | RedirectError c d => c +:+ ": " +:+ d
  end.

(** The type assertion [err.( *Error)] looks at the error itself only. *)
Definition direct_message (e : error) : option string :=
  match e with IdpError _ m | IdpWrapped _ m _ => Some m | _ => None end.

(** [errors.As(err, &re)] for [re : *RedirectError]. *)
Fixpoint as_redirect_error (e : error) : option (string * string) :=
  match e with
  | RedirectError c d => Some (c, d)
  | IdpWrapped _ _ e | Errorf _ e => as_redirect_error e
  | IdpError _ _ | Plain _ => None
  end.

(** [errors.As(err, &e)] for [e : *Error]: the code and the message. *)
Fixpoint as_Error (e : error) : option (string * string) :=
  match e with
  | IdpError c m | IdpWrapped c m _ => Some (c, m)
  | Errorf _ e => as_Error e
  | Plain _ | RedirectError _ _ => None
  end.

(** [errors.Is(err, target)] for one of the package's error values, which are
    told apart by their text. *)
Fixpoint errors_Is (e target : error) : bool :=
  bool_decide (e = target) ||
  match e with
  | IdpWrapped _ _ e | Errorf _ e => errors_Is e target
  | IdpError _ _ | Plain _ | RedirectError _ _ => false
  end.

Lemma IsCode_Errorf m e c : IsCode (Errorf m e) c = IsCode e c.
Proof. done. Qed.

Lemma IsCode_NotFound r i : IsCode (NotFound r i) CodeNotFound = true.
Proof. done. Qed.

(** ** Results *)

Inductive res (A : Type) :=
| Ok (a : A)
| Err (e : error).
Arguments Ok {A} a.
Arguments Err {A} e.

Definition is_ok {A} (r : res A) : bool := match r with Ok _ => true | Err _ => false end.

(** [x, err := m; if err != nil { return err }]. *)
Definition res_bind {A B} (m : res A) (k : A -> res B) : res B :=
  match m with Ok a => k a | Err e => Err e end.

Definition res_map {A B} (f : A -> B) (m : res A) : res B :=
  match m with Ok a => Ok (f a) | Err e => Err e end.

(** [if err != nil { return g(err) }]. *)
Definition map_err {A} (g : error -> error) (m : res A) : res A :=
  match m with Ok a => Ok a | Err e => Err (g e) end.

Lemma map_err_Ok {A} g (m : res A) a : map_err g m = Ok a <-> m = Ok a.
Proof. by destruct m. Qed.
