(* ===== verification/GoDuration.v ===== *)
(** * Durations as text (package time)

    [time.Duration.String] and [time.ParseDuration].  A fraction is read
    through IEEE 754 double arithmetic, as the source of the package does it:
    the operations are those of [SpecFloat], at 53 bits of precision. *)
From S2P Require Import Prelude GoTime GoText GoDigits Encoding Errors.
From Stdlib Require Import Ascii SpecFloat.
From Stdlib Require Import Ascii.
#[local] Open Scope Z_scope.
#[local] Open Scope go_scope.

(** ** Printing *)

(** The fraction [time.Duration.String] prints, without trailing zeros. *)
Fixpoint strip_zeros (l : list Z) : list Z :=
  match l with 48 :: l => strip_zeros l | _ => l end.
Definition fraction (prec : nat) (v : Z) : string :=
  match strip_zeros (rev (bytes (pad_zeros prec (dec v)))) with
  | [] => ""
  | l => of_bytes (46 :: rev l)
  end.
Definition with_fraction (prec : nat) (v : Z) : string :=
  dec (v / 10 ^ Z.of_nat prec) +:+ fraction prec (v mod 10 ^ Z.of_nat prec).

(** [time.Duration.String]. *)
Definition Duration_String (d : Z) : string :=
  let u := Z.abs d in
  let sign := if d <? 0 then "-" else "" in
  if u =? 0 then "0s"
  else if u <? 1000 then sign +:+ dec u +:+ "ns"
  else if u <? Millisecond then sign +:+ with_fraction 3 u +:+ of_bytes [0xC2; 0xB5] +:+ "s"
  else if u <? Second then sign +:+ with_fraction 6 u +:+ "ms"
  else
    let secs := u / Second in
    let s := dec (secs mod 60) +:+ fraction 9 (u mod Second) +:+ "s" in
    let mins := secs / 60 in
    if mins =? 0 then sign +:+ s
    else
      let ms := dec (mins mod 60) +:+ "m" +:+ s in
      let hours := mins / 60 in
      if hours =? 0 then sign +:+ ms else sign +:+ dec hours +:+ "h" +:+ ms.

(** ** Reading *)

(** [float64] of an unsigned integer, and the conversion back, which drops
    the fraction. *)
Definition float64 (z : Z) : spec_float := binary_normalize 53 1024 z 0 false.
Definition float_trunc (x : spec_float) : Z :=
  match x with
  | S754_finite s m e => (if s then Z.opp else id) (Z.shiftl (Zpos m) e)
  | _ => 0
  end.

Definition two63 : Z := 2 ^ 63.

(** [leadingInt]; [None] is its overflow. *)
Fixpoint leadingInt (x : Z) (l : list Z) : option (Z * list Z) :=
  match l with
  | c :: l' =>
      if in_range 48 57 c then
        if two63 / 10 <? x then None
        else
          let x := x * 10 + (c - 48) in
          if two63 <? x then None else leadingInt x l'
      else Some (x, l)
  | [] => Some (x, [])
  end.

(** [leadingFraction]: digits that no longer fit are skipped. *)
Fixpoint leadingFraction (x : Z) (scale : spec_float) (overflow : bool) (l : list Z)
    : Z * spec_float * list Z :=
  match l with
  | c :: l' =>
      if in_range 48 57 c then
        if overflow then leadingFraction x scale true l'
        else if (two63 - 1) / 10 <? x then leadingFraction x scale true l'
        else
          let y := x * 10 + (c - 48) in
          if two63 <? y then leadingFraction x scale true l'
          else leadingFraction y (SFmul 53 1024 scale (float64 10)) false l'
      else (x, scale, l)
  | [] => (x, scale, [])
  end.

(** The unit: everything up to the next digit or point. *)
Fixpoint unit_text (l : list Z) : list Z * list Z :=
  match l with
  | c :: l' => if (c =? 46) || in_range 48 57 c then ([], l)
               else let '(u, r) := unit_text l' in (c :: u, r)
  | [] => ([], [])
  end.

(** [unitMap]; the micro sign is U+00B5 or U+03BC. *)
Definition unitMap (u : list Z) : option Z :=
  if bool_decide (u = bytes "ns") then Some 1
  else if bool_decide (u = bytes "us" \/ u = [0xC2; 0xB5; 115] \/ u = [0xCE; 0xBC; 115]) then Some 1000
  else if bool_decide (u = bytes "ms") then Some Millisecond
  else if bool_decide (u = bytes "s") then Some Second
  else if bool_decide (u = bytes "m") then Some Minute
  else if bool_decide (u = bytes "h") then Some Hour
  else None.

(** What follows a number: the unit, and the value in nanoseconds. *)
Definition scaled (v f : Z) (scale : spec_float) (l : list Z) : option (Z * list Z) :=
  match unit_text l with
  | ([], _) => None
  | (u, rest) =>
      unit ← unitMap u;
      if two63 / unit <? v then None
      else
        let v := v * unit in
        if 0 <? f then
          let v := v + float_trunc (SFmul 53 1024 (float64 f) (SFdiv 53 1024 (float64 unit) scale)) in
          if two63 <? v then None else Some (v, rest)
        else Some (v, rest)
  end.

(** One component, a number and its unit. *)
Definition component (l : list Z) : option (Z * list Z) :=
  match l with
  | [] => None
  | c :: _ =>
      if negb ((c =? 46) || in_range 48 57 c) then None
      else
        '(v, l1) ← leadingInt 0 l;
        let pre := negb (length l =? length l1)%nat in
        match l1 with
        | 46 :: l2 =>
            let '(f, scale, l3) := leadingFraction 0 (float64 1) false l2 in
            let post := negb (length l2 =? length l3)%nat in
            if pre || post then scaled v f scale l3 else None
        | _ => if pre then scaled v 0 (float64 1) l1 else None
        end
  end.

(** The components, each shorter than what was left before it; the sum is an
    unsigned 64-bit integer. *)
Fixpoint components (fuel : nat) (d : Z) (l : list Z) : option Z :=
  match l with
  | [] => Some d
  | _ =>
      match fuel with
      | O => None
      | S fuel =>
          '(v, l) ← component l;
          let d := (d + v) mod 2 ^ 64 in
          if two63 <? d then None else components fuel d l
      end
  end.

(** [time.ParseDuration]; its errors are not told apart. *)
Definition ParseDuration (s : string) : option Z :=
  let parse neg l :=
    match l with
    | [48] => Some 0
    | [] => None
    | _ =>
        d ← components (length l) 0 l;
        if neg : bool then Some (- d) else if two63 - 1 <? d then None else Some d
    end in
  match bytes s with
  | 45 :: l => parse true l
  | 43 :: l => parse false l
  | l => parse false l
  end.

Example durations_read :
  map ParseDuration ["1h30m"; "-1.5h"; "2540400h10m10.000000000s"; ".5s"; "1.0000000000001ns"; "10"; "3d";
                     "2562048h"; "100.00100s"]
  = [Some (90 * Minute); Some (- (90 * Minute)); Some (2540400 * Hour + 610 * Second);
     Some (500 * Millisecond); Some 1; None; None; None; Some (100 * Second + Millisecond)].
Proof. vm_compute. reflexivity. Qed.

(** ** Package flag

    [FlagSet.Parse] on flags of the kinds the source defines: text, truth
    values (which need no argument), durations, and lists that collect every
    occurrence ([flag.Value] of idpicoctl).  A flag set is its flags with
    their current values; an error is the text of it. *)

Inductive flag_value :=
| FString (s : string)
| FBool (b : bool)
| FDuration (d : Z)
| FMulti (l : list string).

#[export] Instance flag_value_eq_dec : EqDecision flag_value.
Proof. solve_decision. Defined.

Definition FlagSet := list (string * flag_value).

Definition flag_lookup (fs : FlagSet) (name : string) : option flag_value :=
  snd <$> find_first (fun kv => kv.1 ==? name) fs.
Definition flag_store (fs : FlagSet) (name : string) (v : flag_value) : FlagSet :=
  map (fun kv => if kv.1 ==? name then (kv.1, v) else kv) fs.

(** [strconv.ParseBool]. *)
Definition ParseBool (s : string) : option bool :=
  if existsb (fun t => t ==? s) ["1"; "t"; "T"; "TRUE"; "true"; "True"] then Some true
  else if existsb (fun t => t ==? s) ["0"; "f"; "F"; "FALSE"; "false"; "False"] then Some false
  else None.

Section flags.
Context `{UnicodeTables}.

(** [Value.Set]. *)
Definition flag_Set (name : string) (v : flag_value) (value : string) : res flag_value :=
  match v with
  | FString _ => Ok (FString value)
  | FMulti l => Ok (FMulti (l ++ [value]))
  | FBool _ =>
      match ParseBool value with
      | Some b => Ok (FBool b)
      | None => Err (Plain ("invalid boolean value " +:+ Quote value +:+ " for -" +:+ name +:+ ": parse error"))
      end
  | FDuration _ =>
      match ParseDuration value with
      | Some d => Ok (FDuration d)
      | None => Err (Plain ("invalid value " +:+ Quote value +:+ " for flag -" +:+ name +:+ ": parse error"))
      end
  end.

(** An argument: not a flag, the end of the flags, bad syntax, or a flag's
    name with the value behind an equals sign. *)
Inductive flag_token :=
| NotFlag
| EndOfFlags
| BadSyntax
| FlagToken (name : string) (value : option string).

(** Split behind the first equals sign that is not in front. *)
Fixpoint split_value (name : string) : string * option string :=
  match name with
  | EmptyString => (EmptyString, None)
  | String c rest =>
      if Ascii.eqb c "="%char then (EmptyString, Some rest)
      else let '(n, v) := split_value rest in (String c n, v)
  end.

Definition flag_name (name : string) : flag_token :=
  match name with
  | EmptyString => BadSyntax
  | String c rest =>
      if Ascii.eqb c "-"%char || Ascii.eqb c "="%char then BadSyntax
      else let '(n, v) := split_value rest in FlagToken (String c n) v
  end.

Definition flag_argument (s : string) : flag_token :=
  match s with
  | String c (String d rest) =>
      if negb (Ascii.eqb c "-"%char) then NotFlag
      else if Ascii.eqb d "-"%char then if rest ==? "" then EndOfFlags else flag_name rest
      else flag_name (String d rest)
  | _ => NotFlag
  end.

Definition ErrHelp : error := Plain "flag: help requested".

Definition set_flag (fs : FlagSet) (name : string) (v : flag_value) (value : string) : res FlagSet :=
  res_map (flag_store fs name) (flag_Set name v value).

(** [FlagSet.Parse]: the set with its values and the arguments that are left. *)
Fixpoint flag_Parse (fs : FlagSet) (args : list string) : res (FlagSet * list string) :=
  match args with
  | [] => Ok (fs, [])
  | s :: args' =>
      match flag_argument s with
      | NotFlag => Ok (fs, args)
      | EndOfFlags => Ok (fs, args')
      | BadSyntax => Err (Plain ("bad flag syntax: " +:+ s))
      | FlagToken name value =>
          match flag_lookup fs name, value with
          | None, _ =>
              if (name ==? "help") || (name ==? "h") then Err ErrHelp
              else Err (Plain ("flag provided but not defined: -" +:+ name))
          | Some (FBool b), _ =>
              res_bind (set_flag fs name (FBool b) (default "true" value)) (fun fs => flag_Parse fs args')
          | Some v, Some value => res_bind (set_flag fs name v value) (fun fs => flag_Parse fs args')
          | Some v, None =>
              match args' with
              | [] => Err (Plain ("flag needs an argument: -" +:+ name))
              | value :: args'' => res_bind (set_flag fs name v value) (fun fs => flag_Parse fs args'')
              end
          end
      end
  end.

(** What is left is shorter unless nothing was a flag. *)
Lemma flag_Parse_left_length n fs args fs' rest :
  (length args <= n)%nat -> flag_Parse fs args = Ok (fs', rest) -> (length rest <= length args)%nat.
Proof.
  revert fs args. induction n as [|n IH]; intros fs args Hn; destruct args as [|s args]; cbn [length] in *;
    try lia; try (intros [= <- <-]; cbn; lia).
  cbn [flag_Parse]. destruct (flag_argument s) as [| | |name value].
  - intros [= <- <-]. done.
  - intros [= <- <-]. lia.
  - done.
  - assert (forall l v x, (length l <= n)%nat -> (length l <= length args)%nat ->
      res_bind (set_flag fs name v x) (fun fs => flag_Parse fs l) = Ok (fs', rest) ->
      (length rest <= S (length args))%nat) as Hset.
    { intros l v x Hl1 Hl2. destruct (set_flag fs name v x); [|done]. cbn [res_bind]. intros Hp.
      apply IH in Hp; lia. }
    destruct (flag_lookup fs name) as [v|]; [|by case_match].
    destruct v; try (apply Hset; lia); (destruct value as [x|]; [apply Hset; lia|]);
      (destruct args as [|x args]; [done|]); cbn [length] in *; apply Hset; lia.
Qed.

Lemma flag_Parse_left fs args fs' rest :
  flag_Parse fs args = Ok (fs', rest) -> (length rest <= length args)%nat.
Proof. by apply (flag_Parse_left_length (length args)). Qed.
End flags.

Example flags_parsed `{UnicodeTables} :
  flag_Parse [("name", FString ""); ("admin", FBool false); ("r", FMulti []); ("ttl", FDuration 0)]
    ["-name"; "Alice"; "--admin"; "-r=a"; "-r"; "b"; "-ttl=5m"; "x"; "-admin=false"]
  = Ok ([("name", FString "Alice"); ("admin", FBool true); ("r", FMulti ["a"; "b"]); ("ttl", FDuration (5 * Minute))],
        ["x"; "-admin=false"]).
Proof. vm_compute. reflexivity. Qed.
