(* ===== verification/Domain.v ===== *)
(** * internal/domain: the entities

    One record per entity, field by field as in [internal/domain/types.go],
    and the methods on them.  Methods that read the clock take the instant as
    an argument.  [PasswordHash], [Secret] and token identifiers are strings;
    a passkey's credential is the byte string the WebAuthn library made. *)
From S2P Require Import Prelude GoTime GoText.
#[local] Open Scope Z_scope.

(** ** Users *)

Record User := {
  user_ID : string;
  user_Email : string;
  user_PasswordHash : string;
  user_DisplayName : string;
  user_GivenName : string;
  user_FamilyName : string;
  user_Active : bool;
  user_EmailVerified : bool;
  user_Admin : bool;
  user_TOTPSecret : string;
  user_TOTPLastStep : Z;
  user_RecoveryCodes : list string;
  user_CreatedAt : Z;
  user_UpdatedAt : Z;
}.

#[export] Instance User_eq_dec : EqDecision User.
Proof. solve_decision. Defined.

Definition TOTPEnabled (u : User) : bool := negb (bool_decide (user_TOTPSecret u = "")).

(** Field assignments [u.F = v] of the source. *)
Definition user_set_times (created updated : Z) (u : User) : User :=
  let '(Build_User i e p d g f a v ad s l r _ _) := u in
  Build_User i e p d g f a v ad s l r created updated.
Definition user_set_updated (updated : Z) (u : User) : User :=
  user_set_times (user_CreatedAt u) updated u.
Definition user_set_password (hash : string) (u : User) : User :=
  let '(Build_User i e _ d g f a v ad s l r c m) := u in
  Build_User i e hash d g f a v ad s l r c m.
Definition user_set_verified (verified : bool) (u : User) : User :=
  let '(Build_User i e p d g f a _ ad s l r c m) := u in
  Build_User i e p d g f a verified ad s l r c m.
Definition user_set_totp (secret : string) (last : Z) (u : User) : User :=
  let '(Build_User i e p d g f a v ad _ _ r c m) := u in
  Build_User i e p d g f a v ad secret last r c m.
Definition user_set_recovery (codes : list string) (u : User) : User :=
  let '(Build_User i e p d g f a v ad s l _ c m) := u in
  Build_User i e p d g f a v ad s l codes c m.

(** None of them changes the identifier. *)
Lemma user_set_updated_ID t u : user_ID (user_set_updated t u) = user_ID u.
Proof. by destruct u. Qed.
Lemma user_set_password_ID h u : user_ID (user_set_password h u) = user_ID u.
Proof. by destruct u. Qed.
Lemma user_set_verified_ID v u : user_ID (user_set_verified v u) = user_ID u.
Proof. by destruct u. Qed.
Lemma user_set_totp_ID secret step u : user_ID (user_set_totp secret step u) = user_ID u.
Proof. by destruct u. Qed.
Lemma user_set_recovery_ID rest u : user_ID (user_set_recovery rest u) = user_ID u.
Proof. by destruct u. Qed.
#[export] Hint Rewrite user_set_updated_ID user_set_password_ID user_set_verified_ID user_set_totp_ID
  user_set_recovery_ID : user_id.

(** ** Clients *)

Record Client := {
  client_ID : string;
  client_Secret : string;
  client_Name : string;
  client_RedirectURIs : list string;
  client_GrantTypes : list string;
  client_Scopes : list string;
  client_Public : bool;
  client_SkipConsent : bool;
  client_MinimalIDToken : bool;
  client_AccessTokenTTL : Z;
  client_RefreshTokenTTL : Z;
  client_CreatedAt : Z;
  client_UpdatedAt : Z;
}.

#[export] Instance Client_eq_dec : EqDecision Client.
Proof. solve_decision. Defined.

Definition client_set_times (created updated : Z) (c : Client) : Client :=
  let '(Build_Client i s n u g sc p sk m a r _ _) := c in
  Build_Client i s n u g sc p sk m a r created updated.
Definition client_set_secret (secret : string) (c : Client) : Client :=
  let '(Build_Client i _ n u g sc p sk m a r cr up) := c in
  Build_Client i secret n u g sc p sk m a r cr up.

Definition AllowsGrant (c : Client) (grantType : string) : bool :=
  match client_GrantTypes c with
  | [] => bool_decide (grantType = "authorization_code")
          || bool_decide (grantType = "refresh_token")
  | l => existsb (String.eqb grantType) l
  end.

Lemma AllowsGrant_listed c g :
  client_GrantTypes c <> [] -> AllowsGrant c g = true <-> g ∈ client_GrantTypes c.
Proof.
  unfold AllowsGrant. intros Hne.
  destruct (client_GrantTypes c) as [|x l] eqn:E; [done|]. rewrite <-E.
  rewrite existsb_exists. setoid_rewrite String.eqb_eq.
  rewrite list_elem_of_In. naive_solver.
Qed.

(** ** Passkeys, groups, consents *)

Record Passkey := {
  passkey_ID : string;
  passkey_UserID : string;
  passkey_Name : string;
  passkey_Credential : string;
  passkey_CreatedAt : Z;
  passkey_LastUsedAt : Z;
}.

Definition passkey_set_created (t : Z) (p : Passkey) : Passkey :=
  let '(Build_Passkey i u n c _ l) := p in Build_Passkey i u n c t l.

Record Group := {
  group_ID : string;
  group_Name : string;
  group_Description : string;
  group_CreatedAt : Z;
  group_UpdatedAt : Z;
}.

Definition group_set_times (created updated : Z) (g : Group) : Group :=
  let '(Build_Group i n d _ _) := g in Build_Group i n d created updated.

Record Consent := {
  consent_ID : string;
  consent_UserID : string;
  consent_ClientID : string;
  consent_Scopes : list string;
  consent_GrantedAt : Z;
}.

(** Both loops of [Covers]: a set of the granted scopes, then a check of
    each requested one. *)
Definition Covers (c : Consent) (scopes : list string) : bool :=
  let granted : gset string := list_to_set (consent_Scopes c) in
  forallb (fun s => bool_decide (s ∈ granted)) scopes.

Lemma Covers_spec c scopes :
  Covers c scopes = true <-> scopes ⊆ consent_Scopes c.
Proof.
  unfold Covers. rewrite forallb_forall. setoid_rewrite bool_decide_eq_true.
  setoid_rewrite elem_of_list_to_set. setoid_rewrite <-list_elem_of_In. done.
Qed.

(** ** Verification tokens *)

Definition PurposePasswordReset := "password_reset".
Definition PurposeEmailVerify := "email_verify".

Record VerificationToken := {
  vt_TokenHash : string;
  vt_UserID : string;
  vt_Purpose : string;
  vt_CreatedAt : Z;
  vt_ExpiresAt : Z;
  vt_Used : bool;
}.

Definition VerificationToken_IsExpired (now : Z) (t : VerificationToken) : bool :=
  After now (vt_ExpiresAt t).
Definition VerificationToken_IsValid (now : Z) (t : VerificationToken) : bool :=
  negb (VerificationToken_IsExpired now t) && negb (vt_Used t).
Definition vt_set_created (t : Z) (v : VerificationToken) : VerificationToken :=
  let '(Build_VerificationToken h u p _ e x) := v in Build_VerificationToken h u p t e x.
Definition vt_set_used (v : VerificationToken) : VerificationToken :=
  let '(Build_VerificationToken h u p c e _) := v in Build_VerificationToken h u p c e true.

(** ** Sessions *)

Record Session := {
  session_ID : string;
  session_UserID : string;
  session_CreatedAt : Z;
  session_ExpiresAt : Z;
  session_UserAgent : string;
  session_IPAddress : string;
  session_AMR : list string;
}.

Definition Session_IsExpired (now : Z) (s : Session) : bool := After now (session_ExpiresAt s).
Definition session_set_created (t : Z) (s : Session) : Session :=
  let '(Build_Session i u _ e a ip m) := s in Build_Session i u t e a ip m.

(** ** Authorization codes *)

Record AuthCode := {
  ac_Code : string;
  ac_ClientID : string;
  ac_UserID : string;
  ac_RedirectURI : string;
  ac_Scope : string;
  ac_CodeChallenge : string;
  ac_CodeChallengeMethod : string;
  ac_Nonce : string;
  ac_AuthTime : Z;
  ac_AMR : list string;
  ac_CreatedAt : Z;
  ac_ExpiresAt : Z;
  ac_Used : bool;
}.

#[export] Instance AuthCode_eq_dec : EqDecision AuthCode.
Proof. solve_decision. Defined.

Definition AuthCode_IsExpired (now : Z) (a : AuthCode) : bool := After now (ac_ExpiresAt a).
Definition ac_set_created (t : Z) (a : AuthCode) : AuthCode :=
  let '(Build_AuthCode c i u r s h m n at_ am _ e x) := a in
  Build_AuthCode c i u r s h m n at_ am t e x.
Definition ac_set_used (a : AuthCode) : AuthCode :=
  let '(Build_AuthCode c i u r s h m n at_ am cr e _) := a in
  Build_AuthCode c i u r s h m n at_ am cr e true.

(** ** Revocations of access tokens *)

Definition RevocationJTI := "jti".
Definition RevocationUser := "user".
Definition RevocationUserClient := "user_client".
Definition RevocationClient := "client".

Definition RevocationRetention : Z := 7 * 24 * Hour.
Definition MaxAccessTokenTTL : Z := 24 * Hour.

(** The separator is the byte 0, which occurs in no identifier. *)
Definition UserClientKey (userID clientID : string) : string :=
  userID +:+ of_bytes [0] +:+ clientID.

Record Revocation := {
  rv_Kind : string;
  rv_Key : string;
  rv_NotBefore : Z;
  rv_ExpiresAt : Z;
}.

#[export] Instance Revocation_eq_dec : EqDecision Revocation.
Proof. solve_decision. Defined.

(** ** Refresh tokens *)

Record Token := {
  token_ID : string;
  token_UserID : string;
  token_ClientID : string;
  token_Scope : string;
  token_CreatedAt : Z;
  token_ExpiresAt : Z;
  token_Revoked : bool;
}.

#[export] Instance Token_eq_dec : EqDecision Token.
Proof. solve_decision. Defined.

Definition Token_IsExpired (now : Z) (t : Token) : bool := After now (token_ExpiresAt t).
Definition Token_IsValid (now : Z) (t : Token) : bool :=
  negb (Token_IsExpired now t) && negb (token_Revoked t).
Definition token_set_created (c : Z) (t : Token) : Token :=
  let '(Build_Token i u cl s _ e r) := t in Build_Token i u cl s c e r.
Definition token_set_revoked (t : Token) : Token :=
  let '(Build_Token i u cl s c e _) := t in Build_Token i u cl s c e true.

(** ** Signing keys as the store keeps them *)

Record SigningKey := {
  sk_ID : string;
  sk_Algorithm : string;
  sk_PrivateKey : string;
  sk_PublicKey : string;
  sk_Active : bool;
  sk_CreatedAt : Z;
  sk_ExpiresAt : Z;
}.

Definition SigningKey_IsExpired (now : Z) (k : SigningKey) : bool := After now (sk_ExpiresAt k).
Definition sk_set_created (t : Z) (k : SigningKey) : SigningKey :=
  let '(Build_SigningKey i a p q x _ e) := k in Build_SigningKey i a p q x t e.
Definition sk_set_active (active : bool) (k : SigningKey) : SigningKey :=
  let '(Build_SigningKey i a p q _ c e) := k in Build_SigningKey i a p q active c e.

(** ** Audit events *)

Record AuditEvent := {
  ev_ID : string;
  ev_At : Z;
  ev_ActorID : string;
  ev_ActorEmail : string;
  ev_Action : string;
  ev_TargetType : string;
  ev_TargetID : string;
  ev_Detail : string;
  ev_IP : string;
}.

Definition ev_set_id (id : string) (e : AuditEvent) : AuditEvent :=
  let '(Build_AuditEvent _ at_ ai ae a ty ti d ip) := e in
  Build_AuditEvent id at_ ai ae a ty ti d ip.
Definition ev_set_at (t : Z) (e : AuditEvent) : AuditEvent :=
  let '(Build_AuditEvent i _ ai ae a ty ti d ip) := e in
  Build_AuditEvent i t ai ae a ty ti d ip.

(** ** Facts *)

Lemma bytes_nonzero_split (u v c d : list Z) :
  0 ∉ u -> 0 ∉ v -> u ++ 0 :: c = v ++ 0 :: d -> u = v /\ c = d.
Proof.
  revert v. induction u as [|x u IH]; intros [|y v] Hu Hv H; simplify_eq/=.
  - done.
  - exfalso. apply Hv. left.
  - exfalso. apply Hu. left.
  - destruct (IH v) as [-> ->]; [..|done]; [| |done]; set_solver.
Qed.

(** The key of a user and client names both, for user identifiers without
    the separator. *)
Lemma UserClientKey_inj u c u' c' :
  0 ∉ bytes u -> 0 ∉ bytes u' ->
  UserClientKey u c = UserClientKey u' c' -> u = u' /\ c = c'.
Proof.
  unfold UserClientKey. intros Hu Hu' H. apply (f_equal bytes) in H.
  rewrite !bytes_app in H. change (bytes (of_bytes [0])) with [0] in H. simpl in H.
  apply bytes_nonzero_split in H as [? ?]; [|done..].
  by split; apply bytes_inj.
Qed.

Lemma retention_outlives_tokens : MaxAccessTokenTTL < RevocationRetention.
Proof. reflexivity. Qed.
