(* ===== verification/Database.v ===== *)
(** * The SQLite database: internal/store/migrations/sqlite and the statements run on it

    The tables as the migrations leave them, with their primary keys, unique
    indexes and foreign keys, and the statements [internal/store/sqlite]
    uses in their standard meaning: a statement, or a transaction of
    several, is a function [Tx] of the database that fails without an effect.
    Timestamps compare as instants; text columns that hold JSON arrays are
    the lists.  What SQLite leaves open, which of several violated
    constraints it names, is the class [Sqlite]. *)
From S2P Require Import Prelude GoTime GoText GoDigits Errors Domain.
#[local] Open Scope Z_scope.
#[local] Open Scope go_scope.

(** ** Tables *)

(** [user_groups] holds pairs of a user and a group. *)
Record Database := {
  db_foreign_keys : bool;
  db_users : list User;
  db_clients : list Client;
  db_sessions : list Session;
  db_auth_codes : list AuthCode;
  db_tokens : list Token;
  db_consents : list Consent;
  db_verification_tokens : list VerificationToken;
  db_groups : list Group;
  db_user_groups : list (string * string);
  db_audit_events : list AuditEvent;
  db_signing_keys : list SigningKey;
  db_token_revocations : list Revocation;
  db_passkeys : list Passkey;
}.

(** The database the migrations make; the flag is the pragma of the
    connection. *)
Definition migrated (foreign_keys : bool) : Database :=
  Build_Database foreign_keys [] [] [] [] [] [] [] [] [] [] [] [] [].

Inductive Table : Type -> Type :=
| TUsers : Table User
| TClients : Table Client
| TSessions : Table Session
| TAuthCodes : Table AuthCode
| TTokens : Table Token
| TConsents : Table Consent
| TVerificationTokens : Table VerificationToken
| TGroups : Table Group
| TUserGroups : Table (string * string)
| TAuditEvents : Table AuditEvent
| TSigningKeys : Table SigningKey
| TTokenRevocations : Table Revocation
| TPasskeys : Table Passkey.

Definition rows {A} (T : Table A) : Database -> list A :=
  match T in Table A return Database -> list A with
  | TUsers => db_users | TClients => db_clients | TSessions => db_sessions
  | TAuthCodes => db_auth_codes | TTokens => db_tokens | TConsents => db_consents
  | TVerificationTokens => db_verification_tokens | TGroups => db_groups
  | TUserGroups => db_user_groups | TAuditEvents => db_audit_events
  | TSigningKeys => db_signing_keys | TTokenRevocations => db_token_revocations
  | TPasskeys => db_passkeys
  end.

Definition set_rows {A} (T : Table A) : list A -> Database -> Database :=
  match T in Table A return list A -> Database -> Database with
  | TUsers => fun x '(Build_Database fk _ b c d e f g h i j k l m) => Build_Database fk x b c d e f g h i j k l m
  | TClients => fun x '(Build_Database fk a _ c d e f g h i j k l m) => Build_Database fk a x c d e f g h i j k l m
  | TSessions => fun x '(Build_Database fk a b _ d e f g h i j k l m) => Build_Database fk a b x d e f g h i j k l m
  | TAuthCodes => fun x '(Build_Database fk a b c _ e f g h i j k l m) => Build_Database fk a b c x e f g h i j k l m
  | TTokens => fun x '(Build_Database fk a b c d _ f g h i j k l m) => Build_Database fk a b c d x f g h i j k l m
  | TConsents => fun x '(Build_Database fk a b c d e _ g h i j k l m) => Build_Database fk a b c d e x g h i j k l m
  | TVerificationTokens => fun x '(Build_Database fk a b c d e f _ h i j k l m) =>
      Build_Database fk a b c d e f x h i j k l m
  | TGroups => fun x '(Build_Database fk a b c d e f g _ i j k l m) => Build_Database fk a b c d e f g x i j k l m
  | TUserGroups => fun x '(Build_Database fk a b c d e f g h _ j k l m) => Build_Database fk a b c d e f g h x j k l m
  | TAuditEvents => fun x '(Build_Database fk a b c d e f g h i _ k l m) => Build_Database fk a b c d e f g h i x k l m
  | TSigningKeys => fun x '(Build_Database fk a b c d e f g h i j _ l m) => Build_Database fk a b c d e f g h i j x l m
  | TTokenRevocations => fun x '(Build_Database fk a b c d e f g h i j k _ m) =>
      Build_Database fk a b c d e f g h i j k x m
  | TPasskeys => fun x '(Build_Database fk a b c d e f g h i j k l _) => Build_Database fk a b c d e f g h i j k l x
  end.

(** ** Constraints *)

(** [LOWER]: ASCII letters only. *)
Definition LOWER (s : string) : string := of_bytes (map lower_byte (bytes s)).

(** A unique constraint: how SQLite names it, and the key of a row, if the
    row is under the constraint. *)
Record constraint (A : Type) := { uq_name : string; uq_key : A -> option (list string) }.
Arguments uq_name {A} c.
Arguments uq_key {A} c x.

Definition on {A} (name : string) (key : A -> list string) : constraint A :=
  {| uq_name := name; uq_key x := Some (key x) |}.

Definition constraints {A} (T : Table A) : list (constraint A) :=
  match T in Table A return list (constraint A) with
  | TUsers => [on "users.id" (fun u => [user_ID u]); on "index 'users_email_idx'" (fun u => [LOWER (user_Email u)])]
  | TClients => [on "clients.id" (fun c => [client_ID c])]
  | TSessions => [on "sessions.id" (fun s => [session_ID s])]
  | TAuthCodes => [on "auth_codes.code" (fun a => [ac_Code a])]
  | TTokens => [on "tokens.id" (fun t => [token_ID t])]
  | TConsents => [on "consents.id" (fun c => [consent_ID c]);
                  on "consents.user_id, consents.client_id" (fun c => [consent_UserID c; consent_ClientID c])]
  | TVerificationTokens => [on "verification_tokens.token_hash" (fun t => [vt_TokenHash t])]
  | TGroups => [on "groups.id" (fun g => [group_ID g]); on "index 'groups_name_idx'" (fun g => [LOWER (group_Name g)])]
  | TUserGroups => [on "user_groups.user_id, user_groups.group_id" (fun m => [m.1; m.2])]
  | TAuditEvents => [on "audit_events.id" (fun e => [ev_ID e])]
  | TSigningKeys => [on "signing_keys.id" (fun k => [sk_ID k]);
                     {| uq_name := "signing_keys.active"; uq_key k := if sk_Active k then Some [] else None |}]
  | TTokenRevocations => [on "token_revocations.kind, token_revocations.key" (fun r => [rv_Kind r; rv_Key r])]
  | TPasskeys => [on "passkeys.id" (fun p => [passkey_ID p])]
  end.

(** Two rows that cannot stand in one table. *)
Definition clash {A} (c : constraint A) (x y : A) : bool :=
  match uq_key c x, uq_key c y with Some k, Some k' => bool_decide (k = k') | _, _ => false end.

(** The constraints of the table that a list of rows violates. *)
Fixpoint violates {A} (c : constraint A) (l : list A) : bool :=
  match l with
  | [] => false
  | x :: l => existsb (clash c x) l || violates c l
  end.
Definition violations {A} (T : Table A) (l : list A) : list string :=
  map uq_name (List.filter (fun c => violates c l) (constraints T)).

(** What a row refers to, with ON DELETE CASCADE. *)
Inductive parent := PUser | PClient | PGroup.
#[export] Instance parent_eq_dec : EqDecision parent.
Proof. solve_decision. Defined.

Definition references {A} (T : Table A) : A -> list (parent * string) :=
  match T in Table A return A -> list (parent * string) with
  | TSessions => fun s => [(PUser, session_UserID s)]
  | TAuthCodes => fun a => [(PClient, ac_ClientID a); (PUser, ac_UserID a)]
  | TTokens => fun t => [(PUser, token_UserID t); (PClient, token_ClientID t)]
  | TConsents => fun c => [(PUser, consent_UserID c); (PClient, consent_ClientID c)]
  | TVerificationTokens => fun t => [(PUser, vt_UserID t)]
  | TUserGroups => fun m => [(PUser, m.1); (PGroup, m.2)]
  | TPasskeys => fun p => [(PUser, passkey_UserID p)]
  | TUsers => fun _ => [] | TClients => fun _ => [] | TGroups => fun _ => []
  | TAuditEvents => fun _ => [] | TSigningKeys => fun _ => [] | TTokenRevocations => fun _ => []
  end.

(** The keys a table is referred to by. *)
Definition parent_key {A} (T : Table A) : A -> option (parent * string) :=
  match T in Table A return A -> option (parent * string) with
  | TUsers => fun u => Some (PUser, user_ID u)
  | TClients => fun c => Some (PClient, client_ID c)
  | TGroups => fun g => Some (PGroup, group_ID g)
  | _ => fun _ => None
  end.

Definition present (db : Database) (r : parent * string) : bool :=
  match r.1 with
  | PUser => existsb (fun u => user_ID u ==? r.2) (db_users db)
  | PClient => existsb (fun c => client_ID c ==? r.2) (db_clients db)
  | PGroup => existsb (fun g => group_ID g ==? r.2) (db_groups db)
  end.
Definition resolved {A} (T : Table A) (db : Database) (x : A) : bool := forallb (present db) (references T x).

(** ** Statements *)

(** What [database/sql] reports: a violated constraint by its name, a broken
    reference, any other failure of the driver, or the error a transaction's
    own code returned. *)
Inductive SqlErr :=
| Unique (name : string)
| ForeignKey
| Failed
| App (e : error).

Definition Tx (A : Type) := Database -> SqlErr + A * Database.

Definition tx_ret {A} (a : A) : Tx A := fun db => inr (a, db).
Definition tx_fail {A} (e : SqlErr) : Tx A := fun _ => inl e.
Definition tx_bind {A B} (m : Tx A) (k : A -> Tx B) : Tx B := fun db =>
  match m db with inr (a, db) => k a db | inl e => inl e end.
Notation "'let*' x := m 'in' k" := (tx_bind m (fun x => k))
  (at level 200, x pattern, m at level 100, k at level 200).

(** The constraint SQLite names of those a statement violates. *)
Class Sqlite := { sqlite_reports : list string -> string }.
Class SqliteLaws `{Sqlite} : Prop := { reports_one : forall l, l <> [] -> sqlite_reports l ∈ l }.

Section statements.
Context `{Sqlite}.

Definition checked {A B} (T : Table A) (l : list A) (b : B) : Tx B := fun db =>
  match violations T l with
  | [] => inr (b, set_rows T l db)
  | v => inl (Unique (sqlite_reports v))
  end.

(** INSERT INTO T VALUES x: the foreign keys are checked at the end. *)
Definition INSERT {A} (T : Table A) (x : A) : Tx unit := fun db =>
  if negb (db_foreign_keys db) || resolved T db x
  then checked T (rows T db ++ [x]) tt db
  else match checked T (rows T db ++ [x]) tt db with inl e => inl e | inr _ => inl ForeignKey end.

(** INSERT ... ON CONFLICT DO NOTHING. *)
Definition INSERT_or_nothing {A} (T : Table A) (x : A) : Tx unit := fun db =>
  match violations T (rows T db ++ [x]) with
  | [] => INSERT T x db
  | _ => inr (tt, db)
  end.

(** INSERT ... ON CONFLICT (target) DO UPDATE: a row that stands in the way
    of the target is changed by [merge] instead. *)
Definition INSERT_or_update {A} (T : Table A) (target : constraint A) (merge : A -> A) (x : A) : Tx unit := fun db =>
  if existsb (fun y => clash target y x) (rows T db)
  then checked T (map (fun y => if clash target y x then merge y else y) (rows T db)) tt db
  else INSERT T x db.

(** UPDATE T SET f WHERE p: how many rows matched.  No statement changes a
    column that refers to a row or is referred to. *)
Definition UPDATE {A} (T : Table A) (p : A -> bool) (f : A -> A) : Tx Z := fun db =>
  checked T (map (fun x => if p x then f x else x) (rows T db)) (Z.of_nat (length (List.filter p (rows T db)))) db.

(** What refers to the keys that are gone goes too. *)
Definition drop_referring {A} (T : Table A) (gone : list (parent * string)) (db : Database) : Database :=
  set_rows T (List.filter (fun x => negb (existsb (fun r => bool_decide (r ∈ gone)) (references T x))) (rows T db)) db.
Definition cascade (gone : list (parent * string)) (db : Database) : Database :=
  drop_referring TPasskeys gone (drop_referring TUserGroups gone (drop_referring TVerificationTokens gone
    (drop_referring TConsents gone (drop_referring TTokens gone (drop_referring TAuthCodes gone
      (drop_referring TSessions gone db)))))).

(** DELETE FROM T WHERE p: how many rows matched. *)
Definition DELETE {A} (T : Table A) (p : A -> bool) : Tx Z := fun db =>
  let gone := omap (parent_key T) (List.filter p (rows T db)) in
  let db' := set_rows T (List.filter (fun x => negb (p x)) (rows T db)) db in
  inr (Z.of_nat (length (List.filter p (rows T db))), if db_foreign_keys db then cascade gone db' else db').

(** SELECT * FROM T WHERE p, and its first row. *)
Definition SELECT {A} (T : Table A) (p : A -> bool) : Tx (list A) := fun db =>
  inr (List.filter p (rows T db), db).
Definition SELECT_row {A} (T : Table A) (p : A -> bool) : Tx (option A) := fun db =>
  inr (find_first p (rows T db), db).
Definition COUNT {A} (T : Table A) (p : A -> bool) : Tx Z := fun db =>
  inr (Z.of_nat (length (List.filter p (rows T db))), db).

(** ** Integrity *)

Lemma elem_filter {A} (p : A -> bool) l x : x ∈ List.filter p l <-> x ∈ l /\ p x = true.
Proof. rewrite !list_elem_of_In. apply List.filter_In. Qed.

(** No row breaks a constraint, and while the pragma is on, every reference
    is met. *)
Definition intact (db : Database) : Prop :=
  (forall A (T : Table A), violations T (rows T db) = []) /\
  (db_foreign_keys db = true -> forall A (T : Table A), Forall (fun x => resolved T db x = true) (rows T db)).

(** A transaction that keeps the database intact, and its pragma. *)
Definition tx_sound {A} (m : Tx A) : Prop := forall db a db',
  intact db -> m db = inr (a, db') -> intact db' /\ db_foreign_keys db' = db_foreign_keys db.

(** A property of each table, when one table is set. *)
Lemma rows_set {A B} (T : Table A) (T' : Table B) l db (P : forall C, Table C -> list C -> Prop) :
  P A T l -> P B T' (rows T' db) -> P B T' (rows T' (set_rows T l db)).
Proof. intros Hl Hr. by destruct T, T', db. Qed.
Lemma rows_set_eq {A} (T : Table A) l db : rows T (set_rows T l db) = l.
Proof. by destruct T, db. Qed.
Lemma set_rows_flag {A} (T : Table A) l db : db_foreign_keys (set_rows T l db) = db_foreign_keys db.
Proof. by destruct T, db. Qed.

Lemma intact_migrated fk : intact (migrated fk).
Proof. split; [intros A T; by destruct T|intros _ A T; destruct T; constructor]. Qed.

Lemma violates_filter {A} (c : constraint A) p l : violates c l = false -> violates c (List.filter p l) = false.
Proof.
  induction l as [|x l IH]; cbn; [done|]. intros [Hx Hl]%orb_false_iff. destruct (p x); cbn; [|by apply IH].
  apply orb_false_iff. split; [|by apply IH]. apply not_true_iff_false. rewrite existsb_exists.
  intros (y & [Hy _]%List.filter_In & Hc). apply not_true_iff_false in Hx. apply Hx, existsb_exists. by exists y.
Qed.

Lemma violations_none {A} (T : Table A) l :
  violations T l = [] <-> forall c, c ∈ constraints T -> violates c l = false.
Proof.
  unfold violations. split.
  - intros Hf%map_eq_nil c Hc. destruct (violates c l) eqn:Hv; [|done]. exfalso.
    assert (In c (List.filter (fun c => violates c l) (constraints T))) as Hin.
    { apply List.filter_In. split; [by apply list_elem_of_In|done]. }
    by rewrite Hf in Hin.
  - intros Hn. induction (constraints T) as [|c cs IH]; cbn; [done|]. rewrite Hn by left.
    apply IH. intros c' Hc'. apply Hn. by right.
Qed.

Lemma violations_filter {A} (T : Table A) p l : violations T l = [] -> violations T (List.filter p l) = [].
Proof. rewrite !violations_none. intros Hl c Hc. by apply violates_filter, Hl. Qed.

(** References that stay met. *)
Definition keeps_parents (db db' : Database) : Prop := forall r, present db r = true -> present db' r = true.
Lemma resolved_keeps {A} (T : Table A) db db' x : keeps_parents db db' -> resolved T db x = true -> resolved T db' x = true.
Proof. intros Hk. unfold resolved. rewrite !forallb_forall. intros Hr r Hin. by apply Hk, Hr. Qed.

(** The rows with the key of a reference. *)
Definition keyed {A} (T : Table A) (r : parent * string) (l : list A) : Prop :=
  exists x, x ∈ l /\ parent_key T x = Some r.

Lemma present_keyed db r : present db r = true <-> exists A (T : Table A), keyed T r (rows T db).
Proof.
  unfold present, keyed. destruct r as [[] id]; cbn; rewrite existsb_exists; split;
    try (intros (A & T & x & Hx & Hk); destruct T; try discriminate; injection Hk as <-;
         exists x; split; [by apply list_elem_of_In|by apply bool_decide_eq_true]).
  - intros (x & Hx & Hk%bool_decide_eq_true). exists _, TUsers, x. split; [by apply list_elem_of_In|cbn; by rewrite Hk].
  - intros (x & Hx & Hk%bool_decide_eq_true). exists _, TClients, x. split; [by apply list_elem_of_In|cbn; by rewrite Hk].
  - intros (x & Hx & Hk%bool_decide_eq_true). exists _, TGroups, x. split; [by apply list_elem_of_In|cbn; by rewrite Hk].
Qed.


Lemma rows_set_rel {A B} (T : Table A) (T' : Table B) l db (R : forall C, Table C -> list C -> list C -> Prop) :
  R A T (rows T db) l -> R B T' (rows T' db) (rows T' db) -> R B T' (rows T' db) (rows T' (set_rows T l db)).
Proof. intros Hl Hr. by destruct T, T', db. Qed.

Lemma keeps_parents_set {A} (T : Table A) l db :
  (forall r, keyed T r (rows T db) -> keyed T r l) -> keeps_parents db (set_rows T l db).
Proof.
  intros Hl r. rewrite !present_keyed. intros (B & T' & Hk). exists B, T'. revert Hk.
  apply (rows_set_rel T T' l db (fun C T l l' => keyed T r l -> keyed T r l')); [apply Hl|done].
Qed.

(** Statements write rows that keep to the constraints, whose keys stay and
    whose references are met. *)
Lemma checked_sound {A B} (T : Table A) l (b : B) db a db' :
  intact db -> (forall r, keyed T r (rows T db) -> keyed T r l) ->
  (db_foreign_keys db = true -> Forall (fun x => resolved T db x = true) l) ->
  checked T l b db = inr (a, db') -> intact db' /\ db_foreign_keys db' = db_foreign_keys db.
Proof.
  intros [Hu Hr] Hk Hl. unfold checked. destruct (violations T l) eqn:Hv; [|done]. intros [= _ <-].
  split; [|apply set_rows_flag]. split.
  - intros C T'. by apply (rows_set T T' l db (fun C T l => violations T l = [])).
  - rewrite set_rows_flag. intros Hfk C T'. apply (List.Forall_impl _ (fun x => resolved_keeps T' _ _ x (keeps_parents_set T l db Hk))).
    apply (rows_set T T' l db (fun C T l => Forall (fun x => resolved T db x = true) l)); [by apply Hl|by apply Hr].
Qed.

Lemma INSERT_sound {A} (T : Table A) x : tx_sound (INSERT T x).
Proof.
  intros db a db' Hi. unfold INSERT.
  destruct (negb (db_foreign_keys db) || resolved T db x) eqn:Hc; [|by destruct (checked _ _ _ _)].
  apply checked_sound; [done| |].
  - intros r (y & Hy & Hr). exists y. split; [|done]. apply elem_of_app. by left.
  - intros Hfk. rewrite Hfk in Hc. apply Forall_app. split; [by apply Hi|by constructor].
Qed.

Lemma INSERT_or_nothing_sound {A} (T : Table A) x : tx_sound (INSERT_or_nothing T x).
Proof.
  intros db a db' Hi. unfold INSERT_or_nothing. destruct (violations _ _); [by apply INSERT_sound|]. by intros [= _ <-].
Qed.

(** A change of rows that leaves alone what refers and what is referred to. *)
Definition keeps_keys {A} (T : Table A) (p : A -> bool) (f : A -> A) : Prop :=
  forall x, p x = true -> references T (f x) = references T x /\ parent_key T (f x) = parent_key T x.

Lemma checked_map_sound {A B} (T : Table A) p f (b : B) db a db' :
  intact db -> keeps_keys T p f ->
  checked T (map (fun x => if p x then f x else x) (rows T db)) b db = inr (a, db') ->
  intact db' /\ db_foreign_keys db' = db_foreign_keys db.
Proof.
  intros Hi Hf. apply checked_sound; [done| |].
  - intros r (y & Hy & Hr). exists (if p y then f y else y). split.
    + apply list_elem_of_fmap. by exists y.
    + destruct (p y) eqn:Hp; [|done]. by rewrite (proj2 (Hf _ Hp)).
  - intros Hfk. apply Forall_map. refine (List.Forall_impl _ _ (proj2 Hi Hfk _ T)). intros x Hx. cbn.
    destruct (p x) eqn:Hp; [|done]. unfold resolved. by rewrite (proj1 (Hf _ Hp)).
Qed.

Lemma UPDATE_sound {A} (T : Table A) p f : keeps_keys T p f -> tx_sound (UPDATE T p f).
Proof. intros Hf db a db' Hi. by apply checked_map_sound. Qed.

Lemma INSERT_or_update_sound {A} (T : Table A) target merge x :
  keeps_keys T (fun y => clash target y x) merge -> tx_sound (INSERT_or_update T target merge x).
Proof.
  intros Hf db a db' Hi. unfold INSERT_or_update. destruct (existsb _ _); [by apply checked_map_sound|by apply INSERT_sound].
Qed.

(** A deletion takes along what refers to the deleted rows. *)
Definition stays {A} (T : Table A) (gone : list (parent * string)) (x : A) : bool :=
  negb (existsb (fun r => bool_decide (r ∈ gone)) (references T x)).

Lemma filter_true {A} (l : list A) : List.filter (fun _ => true) l = l.
Proof. induction l as [|x l IH]; cbn; by rewrite ?IH. Qed.

Lemma rows_cascade {A} (T : Table A) gone db : rows T (cascade gone db) = List.filter (stays T gone) (rows T db).
Proof. unfold stays. destruct T, db; cbn; rewrite ?filter_true; reflexivity. Qed.
Lemma cascade_flag gone db : db_foreign_keys (cascade gone db) = db_foreign_keys db.
Proof. by destruct db. Qed.

Lemma stays_keyed {A} (T : Table A) gone r l : keyed T r l -> keyed T r (List.filter (stays T gone) l).
Proof.
  intros (x & Hx & Hr). exists x. split; [|done]. apply elem_filter. split; [done|]. unfold stays. by destruct T.
Qed.

Lemma DELETE_sound {A} (T : Table A) p : tx_sound (DELETE T p).
Proof.
  intros db a db' [Hu Hr]. unfold DELETE. set (gone := omap (parent_key T) (List.filter p (rows T db))).
  set (db1 := set_rows T (List.filter (fun x => negb (p x)) (rows T db)) db). intros [= _ <-].
  assert (forall C (T' : Table C), violations T' (rows T' db1) = []) as Hu1.
  { intros C T'. apply (rows_set T T' _ db (fun C T l => violations T l = [])); [|done]. by apply violations_filter. }
  assert (db_foreign_keys db1 = db_foreign_keys db) as Hflag by apply set_rows_flag.
  destruct (db_foreign_keys db) eqn:Hfk; [|by repeat split; try done; rewrite Hflag].
  split; [|by rewrite cascade_flag]. split.
  - intros C T'. rewrite rows_cascade. by apply violations_filter.
  - intros _ C T'. rewrite rows_cascade. apply List.Forall_forall. intros x [Hx Hs]%List.filter_In.
    unfold resolved. apply forallb_forall. intros r Hin.
    assert (r ∉ gone) as Hg.
    { intros Hin'. unfold stays in Hs. apply negb_true_iff, not_true_iff_false in Hs. apply Hs, existsb_exists.
      exists r. split; [done|by apply bool_decide_eq_true]. }
    assert (present db r = true) as Hp.
    { assert (Forall (fun x => resolved T' db x = true) (rows T' db1)) as Hall.
      { apply (rows_set T T' _ db (fun C T l => Forall (fun x => resolved T db x = true) l)); [|by apply Hr].
        apply List.Forall_forall. intros y [Hy _]%List.filter_In.
        by apply (proj1 (List.Forall_forall _ _) (Hr eq_refl _ T)). }
      rewrite List.Forall_forall in Hall. apply Hall in Hx. unfold resolved in Hx.
      rewrite forallb_forall in Hx. by apply Hx. }
    apply present_keyed. apply present_keyed in Hp as (D & T'' & Hk). exists D, T''.
    rewrite rows_cascade. apply stays_keyed. revert Hk.
    apply (rows_set_rel T T'' _ db (fun C T l l' => keyed T r l -> keyed T r l')); [|done].
    intros (y & Hy & Hkey). exists y. split; [|done]. apply elem_filter. split; [done|]. destruct (p y) eqn:Hpy; [|done]. exfalso. apply Hg, list_elem_of_omap.
    exists y. split; [|done]. by apply elem_filter.
Qed.

Lemma tx_ret_sound {A} (a : A) : tx_sound (tx_ret a).
Proof. intros db x db' Hi [= _ <-]. done. Qed.
Lemma tx_fail_sound {A} e : tx_sound (@tx_fail A e).
Proof. done. Qed.
Lemma tx_bind_sound {A B} (m : Tx A) (k : A -> Tx B) : tx_sound m -> (forall a, tx_sound (k a)) -> tx_sound (tx_bind m k).
Proof.
  intros Hm Hk db b db' Hi. unfold tx_bind. destruct (m db) as [e|[a db1]] eqn:E; [done|].
  destruct (Hm _ _ _ Hi E) as [Hi1 Hf]. rewrite <-Hf. by apply Hk.
Qed.
Lemma SELECT_sound {A} (T : Table A) p : tx_sound (SELECT T p).
Proof. intros db x db' Hi [= _ <-]. done. Qed.
Lemma SELECT_row_sound {A} (T : Table A) p : tx_sound (SELECT_row T p).
Proof. intros db x db' Hi [= _ <-]. done. Qed.
Lemma COUNT_sound {A} (T : Table A) p : tx_sound (COUNT T p).
Proof. intros db x db' Hi [= _ <-]. done. Qed.
End statements.

Create HintDb sound discriminated.
#[export] Hint Resolve INSERT_sound INSERT_or_nothing_sound DELETE_sound tx_ret_sound tx_fail_sound
  SELECT_sound SELECT_row_sound COUNT_sound : sound.

(** A change of rows by setters that leave the keys alone. *)
Ltac same_keys :=
  intros ? ?; bool_to_prop;
  repeat match goal with
         | x : User |- _ => destruct x | x : Client |- _ => destruct x | x : AuthCode |- _ => destruct x
         | x : Token |- _ => destruct x | x : Consent |- _ => destruct x | x : VerificationToken |- _ => destruct x
         | x : Group |- _ => destruct x | x : Passkey |- _ => destruct x
         end;
  cbn in *; bool_to_prop; split; congruence.

(** Follows a transaction down to its statements. *)
Ltac sound_step :=
  lazymatch goal with
  | |- forall _, _ => intros ?
  | |- tx_sound (tx_bind _ _) => apply tx_bind_sound; [|intros ?]
  | |- tx_sound (UPDATE _ _ _) => first [solve [auto 2 with sound nocore] | apply UPDATE_sound; same_keys]
  | |- tx_sound (INSERT_or_update _ _ _ _) => apply INSERT_or_update_sound; same_keys
  | |- tx_sound (match ?x with _ => _ end) => destruct x
  | |- tx_sound ?p => first [solve [auto 2 with sound nocore] | let h := head_of p in progress unfold h]
  end.
Ltac sound := repeat (cbn beta zeta; sound_step).
