(* ===== verification/Lockout.v ===== *)
(** * internal/auth/lockout.go: failed attempts and account lockout

    [LockoutService] is its two settings; the map of attempts, guarded in Go
    by a mutex, is the state the operations take and return.  Every operation
    is one critical section; [t1] and [t2] are the instants it reads from the
    clock, in order.  A sequence of operations is what concurrent logins make
    of it. *)
From S2P Require Import Prelude GoTime GoText.
#[local] Open Scope Z_scope.

Record lockoutEntry := { le_count : Z; le_lockedAt : Z }.

Notation attempts := (gmap string lockoutEntry).

Record LockoutService := { lo_maxAttempts : Z; lo_duration : Z }.

(** [!entry.lockedAt.IsZero() && time.Since(entry.lockedAt) >= d]. *)
Definition lock_expired (d now : Z) (e : lockoutEntry) : bool :=
  negb (IsZero (le_lockedAt e)) && negb (Sub now (le_lockedAt e) <? d).

Section lockout.
Context `{UnicodeTables} (s : LockoutService).

Definition lockoutKey (email : string) : string := ToLower (TrimSpace email).

Definition Lockout_IsLocked (t1 : Z) (email : string) (m : attempts) : bool :=
  if lo_maxAttempts s <=? 0 then false
  else match m !! lockoutKey email with
  | None => false
  | Some e => negb (IsZero (le_lockedAt e)) && (Sub t1 (le_lockedAt e) <? lo_duration s)
  end.

Definition Lockout_RecordFailure (t1 t2 : Z) (email : string) (m : attempts) : bool * attempts :=
  if lo_maxAttempts s <=? 0 then (false, m)
  else
    let k := lockoutKey email in
    let e := default {| le_count := 0; le_lockedAt := zero_time |} (m !! k) in
    let e := if lock_expired (lo_duration s) t1 e
             then {| le_count := 0; le_lockedAt := zero_time |} else e in
    let n := le_count e + 1 in
    if lo_maxAttempts s <=? n
    then (true, <[k := {| le_count := n; le_lockedAt := t2 |}]> m)
    else (false, <[k := {| le_count := n; le_lockedAt := le_lockedAt e |}]> m).

Definition Lockout_RecordSuccess (email : string) (m : attempts) : attempts :=
  if lo_maxAttempts s <=? 0 then m else delete (lockoutKey email) m.

Definition GetRemainingAttempts (t1 : Z) (email : string) (m : attempts) : Z :=
  if lo_maxAttempts s <=? 0 then -1
  else match m !! lockoutKey email with
  | None => lo_maxAttempts s
  | Some e =>
      if lock_expired (lo_duration s) t1 e then lo_maxAttempts s
      else Z.max 0 (lo_maxAttempts s - le_count e)
  end.

Definition GetLockoutRemaining (t1 : Z) (email : string) (m : attempts) : Z :=
  if lo_maxAttempts s <=? 0 then 0
  else match m !! lockoutKey email with
  | None => 0
  | Some e =>
      if IsZero (le_lockedAt e) then 0
      else Z.max 0 (wrap64 (lo_duration s - Sub t1 (le_lockedAt e)))
  end.

(** ** Sequences of operations

    The calls of [Login] in the order in which the mutex lets them through,
    those of concurrent logins interleaved: [IsLocked] before the password is
    checked, [RecordFailure] when it was wrong, [RecordSuccess] when it was
    right. *)

Inductive lockout_op :=
| OIsLocked (email : string) (t : Z)
| ORecordFailure (email : string) (t1 t2 : Z)
| ORecordSuccess (email : string).

Definition lockout_do (o : lockout_op) (m : attempts) : attempts :=
  match o with
  | OIsLocked _ _ => m
  | ORecordFailure email t1 t2 => (Lockout_RecordFailure t1 t2 email m).2
  | ORecordSuccess email => Lockout_RecordSuccess email m
  end.

Definition lockout_all (ops : list lockout_op) (m : attempts) : attempts :=
  fold_left (fun m o => lockout_do o m) ops m.

(** The calls of [IsLocked] for the account [k] that let the login on, and
    the failures recorded for it. *)
Definition let_on (k : string) (o : lockout_op) (m : attempts) : Z :=
  match o with
  | OIsLocked email t => if (bool_decide (lockoutKey email = k)) && negb (Lockout_IsLocked t email m) then 1 else 0
  | _ => 0
  end.

Definition fails (k : string) (o : lockout_op) : Z :=
  match o with ORecordFailure email _ _ => if bool_decide (lockoutKey email = k) then 1 else 0 | _ => 0 end.

Fixpoint guesses (k : string) (ops : list lockout_op) (m : attempts) : Z :=
  match ops with [] => 0 | o :: ops => let_on k o m + guesses k ops (lockout_do o m) end.

Definition failures (k : string) (ops : list lockout_op) : Z :=
  fold_right (fun o n => fails k o + n) 0 ops.

(** At no time have more than [c] logins of the account been let on without a
    failure recorded since; [n] of them had at the start.  A login whose
    password was right and that waits for its second factor stays among
    them. *)
Fixpoint in_flight (c : Z) (k : string) (ops : list lockout_op) (m : attempts) (n : Z) : Prop :=
  0 <= n <= c /\
  match ops with
  | [] => True
  | o :: ops => in_flight c k ops (lockout_do o m) (n + let_on k o m - fails k o)
  end.

(** The instants the operations read: the clock starts at or after the epoch
    of the model and does not run backwards within a call. *)
Definition op_after (t0 : Z) (o : lockout_op) : Prop :=
  match o with
  | OIsLocked _ t => t0 <= t
  | ORecordFailure _ t1 t2 => t0 <= t1 <= t2
  | ORecordSuccess _ => True
  end.

(** ** The entries of the map *)

(** The count of an unlocked entry is below the limit, that of a locked one
    has reached it. *)
Definition entry_ok (e : lockoutEntry) : Prop :=
  0 <= le_count e /\
  (le_lockedAt e = zero_time /\ le_count e < lo_maxAttempts s \/
   0 <= le_lockedAt e /\ lo_maxAttempts s <= le_count e).

Definition attempts_ok (m : attempts) : Prop := map_Forall (fun _ => entry_ok) m.

Lemma lockout_do_other o k m :
  match o with
  | OIsLocked _ _ => True
  | ORecordFailure email _ _ | ORecordSuccess email => lockoutKey email <> k
  end -> lockout_do o m !! k = m !! k.
Proof.
  destruct o as [email t|email t1 t2|email]; [done|..]; intros Hk; cbn [lockout_do].
  - unfold Lockout_RecordFailure. repeat case_match; simpl; try done; by apply lookup_insert_ne.
  - unfold Lockout_RecordSuccess. case_match; [done|]. by apply lookup_delete_ne.
Qed.

Lemma nonneg_not_zero t : 0 <= t -> IsZero t = false.
Proof. unfold IsZero, zero_time, Second. lia. Qed.

Lemma lockout_do_ok o m : op_after 0 o -> attempts_ok m -> attempts_ok (lockout_do o m).
Proof.
  intros Ht Hm. destruct o as [email t|email t1 t2|email]; cbn [lockout_do op_after] in *; [done|..].
  2:{ unfold Lockout_RecordSuccess. case_match; [done|]. by apply map_Forall_delete. }
  unfold Lockout_RecordFailure. destruct (lo_maxAttempts s <=? 0) eqn:E0; [done|].
  set (e := default _ _). assert (entry_ok e) as He.
  { unfold e. destruct (m !! lockoutKey email) eqn:E; simpl; [by apply (Hm _ _ E)|].
    split; simpl; [lia|]. left. split; [done|lia]. }
  clearbody e. set (e' := if lock_expired _ _ _ then _ else _). assert (entry_ok e') as [Hc Hl].
  { unfold e'. destruct (lock_expired _ _ _); [|done]. split; simpl; [lia|]. left. split; [done|lia]. }
  clearbody e'. destruct (lo_maxAttempts s <=? le_count e' + 1) eqn:E1; simpl;
    (apply map_Forall_insert_2; [|done]); split; simpl; lia.
Qed.

Lemma lockout_all_ok ops m : Forall (op_after 0) ops -> attempts_ok m -> attempts_ok (lockout_all ops m).
Proof. intros Hops. revert m. induction Hops as [|o ops Ho _ IH]; intros m Hm; [done|]. by apply IH, lockout_do_ok. Qed.

Lemma Sub_lt_iff t l d : d <= max_int64 -> (Sub t l <? d) = true <-> min_int64 < d /\ t - l < d.
Proof. unfold Sub, sat64, max_int64, min_int64. lia. Qed.

Section window.
Context (Hmax : 0 < lo_maxAttempts s) (Hdur : 0 < lo_duration s <= max_int64).
Context (t0 : Z) (Ht0 : 0 <= t0) (k : string).

(** A stretch of time no longer than the lock, in which nobody signs in to
    the account with the right password. *)
Definition in_window (o : lockout_op) : Prop :=
  op_after t0 o /\
  match o with
  | OIsLocked _ t => t < t0 + lo_duration s
  | ORecordFailure _ t1 _ => t1 < t0 + lo_duration s
  | ORecordSuccess email => lockoutKey email <> k
  end.

(** The lock was set in the window. *)
Definition locked_here (m : attempts) : Prop :=
  exists e, m !! k = Some e /\ t0 <= le_lockedAt e /\ lo_maxAttempts s <= le_count e.

(** [r] failures were recorded in the window and did not lock. *)
Definition counting (r : Z) (m : attempts) : Prop :=
  0 <= r < lo_maxAttempts s /\
  match m !! k with
  | None => r = 0
  | Some e => le_lockedAt e = zero_time /\ r <= le_count e < lo_maxAttempts s \/
      r = 0 /\ 0 <= le_lockedAt e /\ lo_maxAttempts s <= le_count e
  end.

Lemma attempts_counting m : attempts_ok m -> counting 0 m.
Proof.
  intros Hok. split; [lia|]. destruct (m !! k) as [e|] eqn:Hm; [|done]. destruct (Hok _ _ Hm) as [Hc Hl].
  destruct Hl as [[Hz Hl]|Hl]; [left; by split|by right].
Qed.

Lemma locked_here_locked email t m :
  locked_here m -> lockoutKey email = k -> t < t0 + lo_duration s -> Lockout_IsLocked t email m = true.
Proof.
  intros (e & Hm & Hl & _) Hk Ht. unfold Lockout_IsLocked. rewrite Hk, Hm.
  replace (lo_maxAttempts s <=? 0) with false by lia. rewrite nonneg_not_zero by lia. cbn [negb andb].
  apply Sub_lt_iff; [lia|]. unfold min_int64. lia.
Qed.

Lemma locked_here_kept o m : in_window o -> locked_here m -> locked_here (lockout_do o m).
Proof.
  intros [Ha Hw] Hl. destruct o as [email t|email t1 t2|email]; cbn [op_after] in Ha; [done|..].
  2:{ destruct Hl as (e & Hm & Hl). exists e. by rewrite lockout_do_other. }
  destruct (decide (lockoutKey email = k)) as [Hk|Hk].
  2:{ destruct Hl as (e & Hm & Hl). exists e. by rewrite lockout_do_other. }
  destruct Hl as (e & Hm & Hl & Hc). cbn [lockout_do]. unfold Lockout_RecordFailure. rewrite Hk, Hm. cbn [default from_option id].
  replace (lo_maxAttempts s <=? 0) with false by lia. unfold lock_expired.
  rewrite (proj2 (Sub_lt_iff t1 (le_lockedAt e) (lo_duration s) ltac:(lia))) by (unfold min_int64; lia).
  rewrite andb_false_r. replace (lo_maxAttempts s <=? le_count e + 1) with true by lia. cbn [snd].
  eexists. rewrite lookup_insert_eq. split; [reflexivity|]. cbn. lia.
Qed.

Lemma counting_step r o m :
  in_window o -> counting r m ->
  locked_here (lockout_do o m) \/ counting (r + fails k o) (lockout_do o m).
Proof.
  intros [Ha Hw] Hc. destruct o as [email t|email t1 t2|email]; cbn [op_after fails] in *;
    [right; by rewrite Z.add_0_r|..].
  2:{ right. rewrite Z.add_0_r. unfold counting. by rewrite lockout_do_other. }
  case_bool_decide as Hk.
  2:{ right. rewrite Z.add_0_r. unfold counting. by rewrite lockout_do_other. }
  destruct Hc as [Hr He]. cbn [lockout_do]. unfold Lockout_RecordFailure. rewrite Hk.
  replace (lo_maxAttempts s <=? 0) with false by lia. set (e := default _ _).
  set (e' := if lock_expired _ _ _ then _ else _).
  assert (lo_maxAttempts s <= le_count e' + 1 \/ (le_lockedAt e' = zero_time /\ r <= le_count e')) as He'.
  { unfold e', e. destruct (m !! k) as [e0|]; cbn [default from_option id].
    - destruct He as [[Hz He]|[-> He]].
      + unfold lock_expired. rewrite Hz. change (IsZero zero_time) with true. right. split; [done|cbn; lia].
      + destruct (lock_expired _ _ _); [right; split; done|left; lia].
    - subst r. right. cbn. by split. }
  clearbody e'. clear e He. destruct (lo_maxAttempts s <=? le_count e' + 1) eqn:En; cbn [snd].
  - left. eexists. rewrite lookup_insert_eq. split; [reflexivity|]. cbn. lia.
  - right. destruct He' as [He'|[Hz He']]; [lia|]. split; [lia|]. rewrite lookup_insert_eq. cbn. left.
    split; [done|lia].
Qed.

Lemma guesses_locked ops m : Forall in_window ops -> locked_here m -> guesses k ops m = 0.
Proof.
  intros Hops. revert m. induction Hops as [|o ops Ho _ IH]; intros m Hm; [done|]. cbn [guesses].
  rewrite (IH _ (locked_here_kept _ _ Ho Hm)). destruct o as [email t|email t1 t2|email]; [|done..]. cbn.
  case_bool_decide as Hk; [|done]. by rewrite (locked_here_locked email t m Hm Hk (proj2 Ho)).
Qed.

Lemma guesses_counting c ops m n r :
  Forall in_window ops -> counting r m -> in_flight c k ops m n ->
  guesses k ops m <= lo_maxAttempts s - 1 - r + (c - n).
Proof.
  intros Hops. revert m n r. induction Hops as [|o ops Ho Hops IH]; intros m n r Hc [Hn Hf]; cbn [guesses].
  { destruct Hc as [Hr _]. lia. }
  assert (let_on k o m = 0 \/ fails k o = 0) as Hone by (destruct o; cbn; auto).
  assert (0 <= fails k o <= 1) as Hfails by (destruct o; cbn; repeat case_match; lia).
  destruct (counting_step r o m Ho Hc) as [Hl|Hc'].
  - rewrite (guesses_locked ops _ Hops Hl). destruct Hc as [Hr _]. destruct ops as [|o' ops]; destruct Hf as [Hf _]; lia.
  - specialize (IH _ _ _ Hc' Hf). lia.
Qed.

Lemma lockout_all_locked ops m r :
  Forall in_window ops -> counting r m \/ locked_here m -> lo_maxAttempts s <= r + failures k ops ->
  locked_here (lockout_all ops m).
Proof.
  intros Hops. revert m r. induction Hops as [|o ops Ho Hops IH]; intros m r Hm Hr.
  { cbn in Hr. destruct Hm as [[Hc _]|Hm]; [lia|done]. }
  change (failures k (o :: ops)) with (fails k o + failures k ops) in Hr.
  apply (IH _ (r + fails k o)); [|lia]. destruct Hm as [Hm|Hm]; [|right; by apply locked_here_kept].
  destruct (counting_step r o m Ho Hm); auto.
Qed.

(** Claim C35.  The lockout bounds guessing, by concurrent logins too.  In a
    stretch of time no longer than the lock in which no success is recorded
    for an account, whatever was called before and whatever is called for
    other accounts in between: [IsLocked] lets at most [maxAttempts - 1 + c]
    logins on to the check of the password, where [c] bounds the logins that
    are let on and have no failure recorded yet ([n] of them are left from
    before); and once [maxAttempts] failures are recorded, [IsLocked] refuses
    the account for the rest of the stretch. *)
Theorem guesses_limited before ops c n :
  Forall (op_after 0) before -> Forall in_window ops ->
  let m := lockout_all before ∅ in
  in_flight c k ops m n ->
  guesses k ops m <= lo_maxAttempts s - 1 + (c - n) /\
  (lo_maxAttempts s <= failures k ops -> forall email t, lockoutKey email = k -> t < t0 + lo_duration s ->
     Lockout_IsLocked t email (lockout_all ops m) = true).
Proof.
  intros Hb Hops m Hf. assert (counting 0 m) as Hm by (apply attempts_counting, lockout_all_ok; done). split.
  - pose proof (guesses_counting c ops m n 0 Hops Hm Hf). lia.
  - intros Hr email t. apply locked_here_locked. apply (lockout_all_locked ops m 0); [done|by left|lia].
Qed.
End window.
End lockout.
