(* ===== verification/PendingLogins.v ===== *)
(** * internal/auth/secondfactor.go: half-finished logins

    [pendingLogins] maps the token of a pending-login cookie to the login it
    stands for.  Each operation is one critical section of its mutex; [now] is
    the instant it reads.  A WebAuthn challenge ([*webauthn.SessionData]) is
    kept as the byte string that represents it: nothing here looks inside. *)
From S2P Require Import Prelude GoTime Domain.
#[local] Open Scope Z_scope.

Definition pendingLoginTTL : Z := 5 * Minute.
Definition pendingLoginAttempts : Z := 5.

Record pendingLogin := {
  pl_userID : string;
  pl_email : string;
  pl_expires : Z;
  pl_attempts : Z;
  pl_passkey : option string;
}.

Notation pending_map := (gmap string pendingLogin).

Definition pl_set_passkey (p : option string) (e : pendingLogin) : pendingLogin :=
  let '(Build_pendingLogin u m x a _) := e in Build_pendingLogin u m x a p.
Definition pl_attempt (e : pendingLogin) : pendingLogin :=
  let '(Build_pendingLogin u m x a p) := e in Build_pendingLogin u m x (a + 1) p.

(** [add], after the token has been generated: expired logins are dropped. *)
Definition pendingLogins_add (now : Z) (token : string) (user : User) (m : pending_map) : pending_map :=
  <[token := {| pl_userID := user_ID user; pl_email := user_Email user;
                pl_expires := Add now pendingLoginTTL; pl_attempts := 0; pl_passkey := None |}]>
    (filter (fun ke => After now (pl_expires ke.2) = false) m).

Definition pendingLogins_get (now : Z) (token : string) (m : pending_map)
    : option pendingLogin * pending_map :=
  match m !! token with
  | Some e => if After now (pl_expires e) then (None, delete token m) else (Some e, m)
  | None => (None, delete token m)
  end.

Definition pendingLogins_reserve (now : Z) (token : string) (m : pending_map)
    : option pendingLogin * pending_map :=
  match m !! token with
  | Some e =>
      if After now (pl_expires e) || (pendingLoginAttempts <=? pl_attempts e)
      then (None, delete token m)
      else (Some (pl_attempt e), <[token := pl_attempt e]> m)
  | None => (None, delete token m)
  end.

Definition setPasskeyChallenge (now : Z) (token data : string) (m : pending_map)
    : bool * pending_map :=
  match m !! token with
  | Some e => if After now (pl_expires e) then (false, m)
              else (true, <[token := pl_set_passkey (Some data) e]> m)
  | None => (false, m)
  end.

Definition takePasskeyChallenge (token : string) (m : pending_map)
    : option string * pending_map :=
  match m !! token with
  | Some e => (pl_passkey e, <[token := pl_set_passkey None e]> m)
  | None => (None, m)
  end.

Definition pendingLogins_remove (token : string) (m : pending_map) : pending_map :=
  delete token m.

(** ** Sequences of operations *)

Inductive pending_op :=
| PAdd (token : string) (user : User)
| PGet (token : string)
| PReserve (token : string)
| PSet (token data : string)
| PTake (token : string)
| PRemove (token : string).

Definition pending_step (now : Z) (o : pending_op) (m : pending_map) : pending_map :=
  match o with
  | PAdd k u => pendingLogins_add now k u m
  | PGet k => (pendingLogins_get now k m).2
  | PReserve k => (pendingLogins_reserve now k m).2
  | PSet k d => (setPasskeyChallenge now k d m).2
  | PTake k => (takePasskeyChallenge k m).2
  | PRemove k => pendingLogins_remove k m
  end.

(** The attempts granted for [token], and the challenges handed out for it,
    by a sequence of operations at given instants. *)
Definition granted (token : string) (now : Z) (o : pending_op) (m : pending_map) : Z :=
  match o with
  | PReserve k =>
      if bool_decide (k = token) then
        match (pendingLogins_reserve now k m).1 with Some _ => 1 | None => 0 end
      else 0
  | _ => 0
  end.

Fixpoint attempts_granted (token : string) (ops : list (Z * pending_op)) (m : pending_map) : Z :=
  match ops with
  | [] => 0
  | (now, o) :: ops => granted token now o m + attempts_granted token ops (pending_step now o m)
  end.

(** The token of a live login is not issued again (it is 256 random bits). *)
Definition not_added (token : string) (o : pending_op) : Prop :=
  match o with PAdd k _ => k <> token | _ => True end.

(** What is left to be granted. *)
Definition attempts_left (token : string) (m : pending_map) : Z :=
  match m !! token with
  | Some e => Z.max 0 (pendingLoginAttempts - pl_attempts e)
  | None => 0
  end.

Lemma pl_attempt_attempts e : pl_attempts (pl_attempt e) = pl_attempts e + 1.
Proof. by destruct e. Qed.

Lemma pl_set_passkey_attempts p e : pl_attempts (pl_set_passkey p e) = pl_attempts e.
Proof. by destruct e. Qed.

Lemma attempts_left_nonneg token m : 0 <= attempts_left token m.
Proof. unfold attempts_left. case_match; lia. Qed.

Lemma attempts_left_delete token k m :
  attempts_left token (delete k m) <= attempts_left token m.
Proof.
  unfold attempts_left. destruct (decide (k = token)) as [->|Hne].
  - rewrite lookup_delete_eq. case_match; lia.
  - rewrite lookup_delete_ne by done. lia.
Qed.

Lemma attempts_left_update token k e e' m :
  m !! k = Some e -> pl_attempts e' = pl_attempts e ->
  attempts_left token (<[k := e']> m) = attempts_left token m.
Proof.
  unfold attempts_left. intros Hk He. destruct (decide (k = token)) as [->|Hne].
  - by rewrite lookup_insert_eq, Hk, He.
  - by rewrite lookup_insert_ne by done.
Qed.

Lemma attempts_left_add token now k u m :
  k <> token -> attempts_left token (pendingLogins_add now k u m) <= attempts_left token m.
Proof.
  unfold attempts_left, pendingLogins_add. intros Hne. rewrite lookup_insert_ne by done.
  destruct (filter _ m !! token) as [e|] eqn:E.
  - apply map_lookup_filter_Some in E as [-> _]. lia.
  - case_match; lia.
Qed.

Lemma reserve_left token now k m :
  granted token now (PReserve k) m + attempts_left token (pendingLogins_reserve now k m).2
  <= attempts_left token m.
Proof.
  unfold pendingLogins_reserve, granted, pendingLogins_reserve.
  pose proof (attempts_left_delete token k m) as Hdel.
  destruct (m !! k) as [e|] eqn:Hk.
  2:{ simpl. case_bool_decide; lia. }
  destruct (_ || _) eqn:E; [simpl; case_bool_decide; lia|].
  bool_to_prop. cbn [fst snd]. case_bool_decide as Hkt.
  - subst k. unfold attempts_left. rewrite lookup_insert_eq, Hk, pl_attempt_attempts.
    unfold pendingLoginAttempts in *. lia.
  - unfold attempts_left. rewrite lookup_insert_ne by done. lia.
Qed.

Lemma pending_step_left token now o m :
  not_added token o ->
  granted token now o m + attempts_left token (pending_step now o m) <= attempts_left token m.
Proof.
  destruct o as [k u|k|k|k d|k|k]; simpl not_added; intros Hn;
    [| |apply reserve_left| | |]; simpl granted; rewrite Z.add_0_l; cbn [pending_step].
  - by apply attempts_left_add.
  - unfold pendingLogins_get. repeat case_match; simpl; try apply attempts_left_delete; lia.
  - unfold setPasskeyChallenge. repeat case_match; simpl; try lia.
    erewrite attempts_left_update; [lia|done|apply pl_set_passkey_attempts].
  - unfold takePasskeyChallenge. case_match; simpl; [|lia].
    erewrite attempts_left_update; [lia|done|apply pl_set_passkey_attempts].
  - apply attempts_left_delete.
Qed.

(** Whatever operations follow on the pending logins, no more
    attempts are granted for a token than its login had left: five for a new
    one, and none once it is gone. *)
Theorem attempts_bounded token ops m :
  Forall (fun to => not_added token to.2) ops ->
  attempts_granted token ops m <= attempts_left token m.
Proof.
  intros Hops. revert m. induction Hops as [|[now o] ops Ho Hops IH]; intros m.
  - apply attempts_left_nonneg.
  - simpl in *. pose proof (pending_step_left token now o m Ho) as H1.
    specialize (IH (pending_step now o m)). lia.
Qed.

(** A challenge is handed out once. *)
Lemma take_take token m :
  (takePasskeyChallenge token (takePasskeyChallenge token m).2).1 = None.
Proof.
  unfold takePasskeyChallenge. destruct (m !! token) as [e|] eqn:E; simpl.
  - rewrite lookup_insert_eq. by destruct e.
  - by rewrite E.
Qed.
