(* ===== verification/World.v ===== *)
(** * Programs with effects, and the world they run in

    A Go function that touches files, memory shared between requests, the
    clock, random numbers, the mailer or the response is a program: a tree of
    events ([Ev]).  [run] executes a program alone; [thread_step] executes one
    event of one of several concurrent requests.

    The world is the data directory ([Disk]: one typed value per JSON file, or
    the mark that the file no longer parses) or the SQLite database
    ([Database]), the state kept in memory ([Mem]), the mutexes that are held, the number of events so far, and the
    outputs (cookies, mail, metrics).  What the outside decides — the clock, random
    bytes, identifiers, failures of the disk and of the mailer — is [Env], a
    function of the number of events. *)
From S2P Require Import Prelude GoTime GoText Errors Domain Database Lockout PendingLogins.
#[local] Open Scope Z_scope.

(** ** Signing keys ([crypto.KeyPair])

    Key material is the DER encoding of a key of a known type; [NotSigner]
    stands for a parsed key that is no [crypto.Signer].  The JSON form omits
    the material and keeps the PEM text. *)

Inductive PrivateKey :=
| RSAPrivateKey (der : string)
| Ed25519PrivateKey (der : string)
| OtherSigner (der : string).

Inductive PublicKey :=
| RSAPublicKey (der : string)
| Ed25519PublicKey (der : string)
| OtherPublicKey (der : string).

#[export] Instance PrivateKey_eq_dec : EqDecision PrivateKey.
Proof. solve_decision. Defined.
#[export] Instance PublicKey_eq_dec : EqDecision PublicKey.
Proof. solve_decision. Defined.

Record KeyPair := {
  kp_Kid : string;
  kp_Alg : string;
  kp_PrivateKey : option PrivateKey;
  kp_PublicKey : option PublicKey;
  kp_CreatedAt : Z;
  kp_ExpiresAt : Z;
  kp_Active : bool;
  kp_PrivateKeyPEM : option string;
  kp_PublicKeyPEM : option string;
}.

#[export] Instance KeyPair_eq_dec : EqDecision KeyPair.
Proof. solve_decision. Defined.

Definition kp_set_active (active : bool) (k : KeyPair) : KeyPair :=
  let '(Build_KeyPair i a p q c e _ pp qq) := k in Build_KeyPair i a p q c e active pp qq.
Definition kp_set_expires (t : Z) (k : KeyPair) : KeyPair :=
  let '(Build_KeyPair i a p q c _ x pp qq) := k in Build_KeyPair i a p q c t x pp qq.
Definition kp_set_material (alg : string) (priv : option PrivateKey) (pub : option PublicKey)
    (k : KeyPair) : KeyPair :=
  let '(Build_KeyPair i _ _ _ c e x pp qq) := k in Build_KeyPair i alg priv pub c e x pp qq.
Definition kp_set_pem (priv pub : string) (k : KeyPair) : KeyPair :=
  let '(Build_KeyPair i a p q c e x _ _) := k in Build_KeyPair i a p q c e x (Some priv) (Some pub).

(** What the JSON form of a key keeps. *)
Definition kp_stored (k : KeyPair) : KeyPair := kp_set_material (kp_Alg k) None None k.

(** ** The data directory *)

Record membership := { mb_UserID : string; mb_GroupID : string }.

#[export] Instance membership_eq_dec : EqDecision membership.
Proof. solve_decision. Defined.

(** The files of [internal/store/file]; a file that does not exist reads as
    the empty collection.  Two repositories keep signing keys, under
    different members, in one file, signing_keys.json: [CKeys] and
    [CSigningKeys] are what each of them reads in it. *)
Inductive Coll : Type -> Type :=
| CUsers : Coll (list User)
| CClients : Coll (list Client)
| CSessions : Coll (list Session)
| CAuthCodes : Coll (list AuthCode)
| CTokens : Coll (list Token)
| CRevocations : Coll (list Revocation)
| CConsents : Coll (list Consent)
| CVerification : Coll (list VerificationToken)
| CPasskeys : Coll (list Passkey)
| CGroups : Coll (list Group * list membership)
| CAudit : Coll (list AuditEvent)
| CKeys : Coll (list KeyPair * string)
| CSigningKeys : Coll (list SigningKey).

(** A file holds a value or, after a write that broke off, something that is
    not JSON. *)
Inductive file (A : Type) :=
| FData (a : A)
| FCorrupt.
Arguments FData {A} a.
Arguments FCorrupt {A}.

Record Disk := {
  d_users : file (list User);
  d_clients : file (list Client);
  d_sessions : file (list Session);
  d_codes : file (list AuthCode);
  d_tokens : file (list Token);
  d_revocations : file (list Revocation);
  d_consents : file (list Consent);
  d_verification : file (list VerificationToken);
  d_passkeys : file (list Passkey);
  d_groups : file (list Group * list membership);
  d_audit : file (list AuditEvent);
  d_keys : file ((list KeyPair * string) * list SigningKey);
}.

Definition empty_disk : Disk :=
  Build_Disk (FData []) (FData []) (FData []) (FData []) (FData []) (FData [])
    (FData []) (FData []) (FData []) (FData ([], [])) (FData []) (FData (([], ""), [])).

(** The contents as another view of them. *)
Definition file_map {A B} (f : A -> B) (x : file A) : file B :=
  match x with FData a => FData (f a) | FCorrupt => FCorrupt end.

Definition get {A} (c : Coll A) : Disk -> file A :=
  match c in Coll A return Disk -> file A with
  | CUsers => d_users | CClients => d_clients | CSessions => d_sessions
  | CAuthCodes => d_codes | CTokens => d_tokens | CRevocations => d_revocations
  | CConsents => d_consents | CVerification => d_verification
  | CPasskeys => d_passkeys | CGroups => d_groups | CAudit => d_audit
  | CKeys => fun d => file_map fst (d_keys d)
  | CSigningKeys => fun d => file_map snd (d_keys d)
  end.

(** A write replaces the whole file. *)
Definition set {A} (c : Coll A) : file A -> Disk -> Disk :=
  match c in Coll A return file A -> Disk -> Disk with
  | CUsers => fun x '(Build_Disk _ b c d e f g h i j k l) => Build_Disk x b c d e f g h i j k l
  | CClients => fun x '(Build_Disk a _ c d e f g h i j k l) => Build_Disk a x c d e f g h i j k l
  | CSessions => fun x '(Build_Disk a b _ d e f g h i j k l) => Build_Disk a b x d e f g h i j k l
  | CAuthCodes => fun x '(Build_Disk a b c _ e f g h i j k l) => Build_Disk a b c x e f g h i j k l
  | CTokens => fun x '(Build_Disk a b c d _ f g h i j k l) => Build_Disk a b c d x f g h i j k l
  | CRevocations => fun x '(Build_Disk a b c d e _ g h i j k l) => Build_Disk a b c d e x g h i j k l
  | CConsents => fun x '(Build_Disk a b c d e f _ h i j k l) => Build_Disk a b c d e f x h i j k l
  | CVerification => fun x '(Build_Disk a b c d e f g _ i j k l) => Build_Disk a b c d e f g x i j k l
  | CPasskeys => fun x '(Build_Disk a b c d e f g h _ j k l) => Build_Disk a b c d e f g h x j k l
  | CGroups => fun x '(Build_Disk a b c d e f g h i _ k l) => Build_Disk a b c d e f g h i x k l
  | CAudit => fun x '(Build_Disk a b c d e f g h i j _ l) => Build_Disk a b c d e f g h i j x l
  | CKeys => fun x '(Build_Disk a b c d e f g h i j k _) => Build_Disk a b c d e f g h i j k (file_map (fun keys => (keys, [])) x)
  | CSigningKeys => fun x '(Build_Disk a b c d e f g h i j k _) => Build_Disk a b c d e f g h i j k (file_map (fun keys => (([], ""), keys)) x)
  end.

(** Which file it is, regardless of the type of its contents. *)
Inductive coll_name :=
| NUsers | NClients | NSessions | NAuthCodes | NTokens | NRevocations
| NConsents | NVerification | NPasskeys | NGroups | NAudit | NKeys.

#[export] Instance coll_name_eq_dec : EqDecision coll_name.
Proof. solve_decision. Defined.

Definition name_of {A} (c : Coll A) : coll_name :=
  match c with
  | CUsers => NUsers | CClients => NClients | CSessions => NSessions
  | CAuthCodes => NAuthCodes | CTokens => NTokens | CRevocations => NRevocations
  | CConsents => NConsents | CVerification => NVerification
  | CPasskeys => NPasskeys | CGroups => NGroups | CAudit => NAudit
  | CKeys | CSigningKeys => NKeys
  end.

Lemma get_set_eq {A} (c : Coll A) x d : get c (set c x d) = x.
Proof. destruct c, d; try done; cbn; by destruct x. Qed.

Lemma get_set_ne {A B} (c : Coll A) (c' : Coll B) x d :
  name_of c <> name_of c' -> get c' (set c x d) = get c' d.
Proof. intros H. destruct d; destruct c; destruct c'; try done; by destruct H. Qed.

(** ** The playground's memory: internal/http/playground.go

    The response of the token endpoint (internal/oidc/token.go), which the
    playground keeps; what it waits for, by state; the sessions, which several
    requests may point to, and the ones its cookies name. *)

Record TokenResponse := {
  tk_AccessToken : string;
  tk_TokenType : string;
  tk_ExpiresIn : Z;
  tk_RefreshToken : string;
  tk_IDToken : string;
  tk_Scope : string;
}.

Record playgroundPending := {
  pp_nonce : string;
  pp_verifier : string;
  pp_created : Z;
}.

Record playgroundSession := {
  ps_tokens : TokenResponse;
  ps_nonce : string;
  ps_nonceOK : bool;
  ps_obtained : string;
  ps_at : Z;
  ps_lastCall : string;
  ps_lastError : string;
  ps_touched : Z;
}.

Record Playground := {
  pg_pending : gmap string playgroundPending;
  pg_objects : gmap nat playgroundSession;
  pg_sessions : gmap string nat;
}.

(** ** Memory shared between requests *)

(** The authentication service's lockout map, pending logins and passkey
    registrations, the account service's reset throttle, and the key
    service's cached signing key with the instant it was cached, and what the
    playground keeps. *)
Record Mem := {
  m_lockout : attempts;
  m_pending : pending_map;
  m_registrations : gmap string (string * Z);
  m_lastReset : gmap string Z;
  m_keyCache : option KeyPair * Z;
  m_playground : Playground;
}.

Definition empty_mem : Mem := Build_Mem ∅ ∅ ∅ ∅ (None, zero_time) (Build_Playground ∅ ∅ ∅).

Definition set_lockout (x : attempts) (m : Mem) : Mem :=
  Build_Mem x (m_pending m) (m_registrations m) (m_lastReset m) (m_keyCache m) (m_playground m).
Definition set_pending (x : pending_map) (m : Mem) : Mem :=
  Build_Mem (m_lockout m) x (m_registrations m) (m_lastReset m) (m_keyCache m) (m_playground m).
Definition set_registrations (x : gmap string (string * Z)) (m : Mem) : Mem :=
  Build_Mem (m_lockout m) (m_pending m) x (m_lastReset m) (m_keyCache m) (m_playground m).
Definition set_lastReset (x : gmap string Z) (m : Mem) : Mem :=
  Build_Mem (m_lockout m) (m_pending m) (m_registrations m) x (m_keyCache m) (m_playground m).
Definition set_keyCache (x : option KeyPair * Z) (m : Mem) : Mem :=
  Build_Mem (m_lockout m) (m_pending m) (m_registrations m) (m_lastReset m) x (m_playground m).
Definition set_playground (x : Playground) (m : Mem) : Mem :=
  Build_Mem (m_lockout m) (m_pending m) (m_registrations m) (m_lastReset m) (m_keyCache m) x.

(** Mutexes held across events: the file store's [consume], the
    authentication service's per-user locks, the [mu] of the key service, for
    writing and for reading, and the [mu] of the playground. *)
Inductive mutex :=
| LConsume
| LUser (id : string)
| LKeys
| RKeys
| LPlayground.

#[export] Instance mutex_eq_dec : EqDecision mutex.
Proof. solve_decision. Defined.

(** Readers of a [sync.RWMutex] bar writers, but not each other. *)
Definition conflicts (l held : mutex) : bool :=
  match l, held with
  | RKeys, RKeys => false
  | LKeys, RKeys | RKeys, LKeys => true
  | _, _ => bool_decide (l = held)
  end.

Definition free (l : mutex) (held : list mutex) : bool := negb (existsb (conflicts l) held).

(** ** Requests and outputs *)

(** What the source reads of an [*http.Request]: the parsed form, headers,
    cookies in order, the peer address. *)
Record Request := {
  r_form : list (string * string);
  r_header : list (string * string);
  r_cookies : list (string * string);
  r_RemoteAddr : string;
}.

Definition first_value (name : string) (l : list (string * string)) : option string :=
  snd <$> find_first (fun kv => bool_decide (kv.1 = name)) l.

(** [r.FormValue] and [r.Header.Get]: empty when absent. *)
Definition FormValue (r : Request) (name : string) : string :=
  default "" (first_value name (r_form r)).
Definition Header (r : Request) (name : string) : string :=
  default "" (first_value name (r_header r)).
Definition Cookie (r : Request) (name : string) : option string :=
  first_value name (r_cookies r).

Record cookie := {
  ck_Name : string;
  ck_Value : string;
  ck_Path : string;
  ck_Domain : string;
  ck_MaxAge : Z;
  ck_HttpOnly : bool;
  ck_Secure : bool;
  ck_SameSite : string;
}.

Record Message := { msg_To : string; msg_Subject : string; msg_Body : string }.

Inductive Output :=
| SetCookie (c : cookie)
| SetHeader (name value : string)
| Mailed (m : Message)
| Metric (name : string) (labels : list string).

(** ** Events and programs *)

Inductive Ev : Type -> Type :=
| ERead {A} (c : Coll A) : Ev (res A)
| EWrite {A} (c : Coll A) (a : A) : Ev (res unit)
| ELock (l : mutex) : Ev unit
| EUnlock (l : mutex) : Ev unit
| ENow : Ev Z
| EUuid : Ev string
| EUuid7 : Ev string
| ERand (n : nat) : Ev (res (list Z))
| ECrit {X} (f : Z -> Z -> Mem -> X * Mem) : Ev X
| ESql {X} (f : Z -> Tx X) : Ev (SqlErr + X)
| ESend (m : Message) : Ev (res unit)
| EOut (o : Output) : Ev unit.

Inductive Prog (A : Type) :=
| Ret (a : A)
| Vis {X : Type} (e : Ev X) (k : X -> Prog A).
Arguments Ret {A} a.
Arguments Vis {A X} e k.

Fixpoint bind {A B} (p : Prog A) (f : A -> Prog B) : Prog B :=
  match p with
  | Ret a => f a
  | Vis e k => Vis e (fun x => bind (k x) f)
  end.

Definition trigger {X} (e : Ev X) : Prog X := Vis e Ret.

(** [x := m; k], and [x, err := m; if err != nil { return err }; k]. *)
Notation "'let!' x := m 'in' k" := (bind m (fun x => k))
  (at level 200, x pattern, m at level 100, k at level 200).
Notation "'let?' x := m 'in' k" :=
  (bind m (fun r => match r with Ok x => k | Err e => Ret (Err e) end))
  (at level 200, x pattern, m at level 100, k at level 200).

Definition now : Prog Z := trigger ENow.
Definition newUUID : Prog string := trigger EUuid.
Definition newUUIDv7 : Prog string := trigger EUuid7.
Definition randRead (n : nat) : Prog (res (list Z)) := trigger (ERand n).
Definition crit {X} (f : Z -> Z -> Mem -> X * Mem) : Prog X := trigger (ECrit f).
Definition sql {X} (f : Z -> Tx X) : Prog (SqlErr + X) := trigger (ESql f).
Definition emit (o : Output) : Prog unit := trigger (EOut o).
Definition lock (l : mutex) : Prog unit := trigger (ELock l).
Definition unlock (l : mutex) : Prog unit := trigger (EUnlock l).

(** [return], and ignoring a result ([_ = f()]). *)
Definition ret_err {A} (e : error) : Prog (res A) := Ret (Err e).
Definition ret_ok {A} (a : A) : Prog (res A) := Ret (Ok a).
Definition ignore {A} (p : Prog A) : Prog unit := let! _ := p in Ret tt.

(** [mu.Lock(); defer mu.Unlock()]; [mu.RLock()] and [mu.RUnlock()] for a
    mutex taken to read. *)
Definition locked {A} (l : mutex) (p : Prog A) : Prog A :=
  let! _ := lock l in let! a := p in let! _ := unlock l in Ret a.

(** Functional results of a program whose error is rewritten. *)
Definition mapErr {A} (g : error -> error) (p : Prog (res A)) : Prog (res A) :=
  let! r := p in Ret (map_err g r).
