(* ===== verification/Run.v ===== *)
(** * Running programs

    [run] executes a program alone in a world; [Pool] executes several
    programs, one event at a time and in any order, with mutexes respected.
    [wp] is the weakest precondition of a program run alone: services are
    verified by symbolic execution against it, one repository operation at a
    time. *)
From S2P Require Import Prelude GoTime GoText Errors Domain Database Lockout PendingLogins World.
#[local] Open Scope Z_scope.

(** ** The environment *)

(** How an access to a file ends: it succeeds, fails without an effect, or (a
    write only) breaks off after the file was truncated. *)
Inductive io_outcome := IoOk | IoFail | IoTorn.

(** What the outside does at the [n]th event. *)
Class Env := {
  env_clock : nat -> Z;
  env_uuid : nat -> string;
  env_uuid7 : nat -> string;
  env_rand : nat -> nat -> option (list Z);
  env_io : nat -> io_outcome;
  env_mail : nat -> bool;
}.

(** Documented behaviour some theorems rely on: [time.Now] does not go back
    (Go's instants carry a monotonic reading), identifiers and random strings
    do not repeat, and a random read fills its buffer. *)
Class EnvLaws `{Env} : Prop := {
  clock_mono : forall m n, (m <= n)%nat -> env_clock m <= env_clock n;
  clock_pos : forall n, 0 <= env_clock n;
  uuid_inj : forall m n, env_uuid m = env_uuid n -> m = n;
  uuid_nonempty : forall n, env_uuid n <> "";
  rand_length : forall n k l, env_rand n k = Some l -> length l = k /\ Forall is_byte l;
}.

Record World := {
  w_disk : Disk;
  w_mem : Mem;
  w_held : list mutex;
  w_tick : nat;
  w_out : list Output;
  w_db : Database;
}.

Definition initial_world : World :=
  {| w_disk := empty_disk; w_mem := empty_mem; w_held := []; w_tick := 0; w_out := []; w_db := migrated true |}.

Definition ticked (n : nat) (w : World) : World :=
  Build_World (w_disk w) (w_mem w) (w_held w) (w_tick w + n) (w_out w) (w_db w).
Definition with_disk (d : Disk) (w : World) : World :=
  Build_World d (w_mem w) (w_held w) (w_tick w) (w_out w) (w_db w).
Definition with_mem (m : Mem) (w : World) : World :=
  Build_World (w_disk w) m (w_held w) (w_tick w) (w_out w) (w_db w).
Definition with_held (l : list mutex) (w : World) : World :=
  Build_World (w_disk w) (w_mem w) l (w_tick w) (w_out w) (w_db w).
Definition with_out (o : Output) (w : World) : World :=
  Build_World (w_disk w) (w_mem w) (w_held w) (w_tick w) (w_out w ++ [o]) (w_db w).
Definition with_db (db : Database) (w : World) : World :=
  Build_World (w_disk w) (w_mem w) (w_held w) (w_tick w) (w_out w) db.

Definition release (l : mutex) (held : list mutex) : list mutex :=
  default held (remove_first (fun x => bool_decide (x = l)) held).

Lemma release_head l held : release l (l :: held) = held.
Proof. unfold release. simpl. by rewrite bool_decide_eq_true_2. Qed.

Definition ErrIO : error := Plain "i/o error".
Definition ErrJSON : error := Plain "invalid JSON".

Section run.
Context `{Env}.

(** One event.  A critical section reads the clock twice. *)
Definition perform {X} (e : Ev X) (w : World) : X * World :=
  let t := w_tick w in
  match e in Ev X return X * World with
  | ERead c =>
      (match env_io t with
       | IoOk => match get c (w_disk w) with FData a => Ok a | FCorrupt => Err ErrJSON end
       | _ => Err ErrIO
       end, ticked 1 w)
  | EWrite c a =>
      match env_io t with
      | IoOk => (Ok tt, ticked 1 (with_disk (set c (FData a) (w_disk w)) w))
      | IoFail => (Err ErrIO, ticked 1 w)
      | IoTorn => (Err ErrIO, ticked 1 (with_disk (set c FCorrupt (w_disk w)) w))
      end
  | ELock l => (tt, ticked 1 (with_held (l :: w_held w) w))
  | EUnlock l => (tt, ticked 1 (with_held (release l (w_held w)) w))
  | ENow => (env_clock t, ticked 1 w)
  | EUuid => (env_uuid t, ticked 1 w)
  | EUuid7 => (env_uuid7 t, ticked 1 w)
  | ERand n =>
      (match env_rand t n with Some l => Ok l | None => Err (Plain "rand") end, ticked 1 w)
  | ECrit f =>
      let '(x, m) := f (env_clock t) (env_clock (t + 1)) (w_mem w) in
      (x, ticked 2 (with_mem m w))
  | ESql f =>
      match env_io t with
      | IoOk => match f (env_clock t) (w_db w) with
                | inr (x, db) => (inr x, ticked 1 (with_db db w))
                | inl err => (inl err, ticked 1 w)
                end
      | _ => (inl Failed, ticked 1 w)
      end
  | ESend m =>
      if env_mail t then (Ok tt, ticked 1 (with_out (Mailed m) w))
      else (Err (Plain "mail"), ticked 1 w)
  | EOut o => (tt, ticked 1 (with_out o w))
  end.

Fixpoint run {A} (p : Prog A) (w : World) : A * World :=
  match p with
  | Ret a => (a, w)
  | Vis e k => let '(x, w) := perform e w in run (k x) w
  end.

Lemma run_bind {A B} (p : Prog A) (f : A -> Prog B) w :
  run (bind p f) w = let '(a, w') := run p w in run (f a) w'.
Proof.
  revert w. induction p as [a|X e k IH]; intros w; simpl; [done|].
  destruct (perform e w) as [x w']. apply IH.
Qed.

Lemma run_trigger {X} (e : Ev X) w : run (trigger e) w = perform e w.
Proof. simpl. by destruct (perform e w). Qed.

(** ** Concurrent requests *)

(** A mutex is taken only when nobody holds it, or only readers do and this
    is another reader.  (That Go lets a writer who waits go before new readers
    only orders the turns of the scheduler.) *)
Definition enabled {A} (p : Prog A) (w : World) : Prop :=
  match p with
  | Vis (ELock l) _ => free l (w_held w) = true
  | _ => True
  end.

Lemma free_conflict l l' held : free l held = true -> l' ∈ held -> conflicts l l' = false.
Proof.
  unfold free. intros Hf Hl. apply not_true_iff_false. intros Hc. apply negb_true_iff, not_true_iff_false in Hf.
  apply Hf, existsb_exists. exists l'. by rewrite <-list_elem_of_In.
Qed.

Inductive thread_step {A} : Prog A * World -> Prog A * World -> Prop :=
| thread_event X (e : Ev X) k w x w' :
    enabled (Vis e k) w -> perform e w = (x, w') -> thread_step (Vis e k, w) (k x, w').

(** A pool steps when one of its threads does. *)
Inductive pool_step {A} : list (Prog A) * World -> list (Prog A) * World -> Prop :=
| pool_thread ps p qs w p' w' :
    thread_step (p, w) (p', w') -> pool_step (ps ++ p :: qs, w) (ps ++ p' :: qs, w').

Definition pool_steps {A} := rtc (@pool_step A).

(** ** Weakest preconditions *)

Definition wp {A} (p : Prog A) (w : World) (Q : A -> World -> Prop) : Prop :=
  let '(a, w') := run p w in Q a w'.

Lemma wp_run {A} (p : Prog A) w Q a w' : wp p w Q -> run p w = (a, w') -> Q a w'.
Proof. unfold wp. intros HQ E. by rewrite E in HQ. Qed.

Lemma wp_intro {A} (p : Prog A) w (Q : A -> World -> Prop) :
  (forall a w', run p w = (a, w') -> Q a w') -> wp p w Q.
Proof. unfold wp. destruct (run p w) as [a w']. auto. Qed.

Lemma wp_ret {A} (a : A) w (Q : A -> World -> Prop) : Q a w -> wp (Ret a) w Q.
Proof. done. Qed.

Lemma wp_bind {A B} (p : Prog A) (f : A -> Prog B) w Q :
  wp p w (fun a w' => wp (f a) w' Q) -> wp (bind p f) w Q.
Proof. unfold wp. rewrite run_bind. by destruct (run p w) as [a w']. Qed.

Lemma wp_mono {A} (p : Prog A) w (P Q : A -> World -> Prop) :
  wp p w P -> (forall a w', P a w' -> Q a w') -> wp p w Q.
Proof. unfold wp. destruct (run p w) as [a w']. auto. Qed.

(** Sequence a program whose behaviour [P] is known. *)
Lemma wp_step {A B} (p : Prog A) (f : A -> Prog B) w P Q :
  wp p w P -> (forall a w', P a w' -> wp (f a) w' Q) -> wp (bind p f) w Q.
Proof. intros Hp Hf. apply wp_bind. by apply (wp_mono p w P). Qed.

Lemma wp_and {A} (p : Prog A) w (P Q : A -> World -> Prop) :
  wp p w P -> wp p w Q -> wp p w (fun a w' => P a w' /\ Q a w').
Proof. unfold wp. by destruct (run p w) as [a w']. Qed.

Lemma wp_if {A} (b : bool) (p q : Prog A) w Q :
  (b = true -> wp p w Q) -> (b = false -> wp q w Q) -> wp (if b then p else q) w Q.
Proof. destruct b; auto. Qed.

(** ** Frames *)

(** [w'] comes after [w], and files other than [cs] are as in [w]. *)
Definition frame (cs : list coll_name) (w w' : World) : Prop :=
  (w_tick w <= w_tick w')%nat /\
  forall A (c : Coll A), name_of c ∉ cs -> get c (w_disk w') = get c (w_disk w).

(** No file changed. *)
Definition same_disk (w w' : World) : Prop :=
  (w_tick w <= w_tick w')%nat /\ w_disk w' = w_disk w.

#[global] Instance frame_preorder cs : PreOrder (frame cs).
Proof.
  split; [by intros w; split|]. intros w1 w2 w3 [H1 F1] [H2 F2]. split; [lia|].
  intros A c Hc. by rewrite F2, F1.
Qed.

#[global] Instance same_disk_preorder : PreOrder same_disk.
Proof.
  split; [by intros w; split|]. intros w1 w2 w3 [H1 D1] [H2 D2]. split; [lia|congruence].
Qed.

Lemma same_disk_frame cs w w' : same_disk w w' -> frame cs w w'.
Proof. intros [Ht Hd]. split; [done|]. intros A c _. by rewrite Hd. Qed.

Lemma frame_weaken cs cs' w w' : cs ⊆ cs' -> frame cs w w' -> frame cs' w w'.
Proof. intros Hs [Ht Hf]. split; [done|]. intros A c Hc. apply Hf. set_solver. Qed.

Lemma frame_get {A} cs (c : Coll A) w w' :
  frame cs w w' -> name_of c ∉ cs -> get c (w_disk w') = get c (w_disk w).
Proof. intros [_ F]. apply F. Qed.

Lemma frame_tick cs w w' : frame cs w w' -> (w_tick w <= w_tick w')%nat.
Proof. by intros [? _]. Qed.

Lemma disk_ext d d' : (forall A (c : Coll A), get c d = get c d') -> d = d'.
Proof.
  intros Hg.
  pose proof (Hg _ CUsers). pose proof (Hg _ CClients). pose proof (Hg _ CSessions).
  pose proof (Hg _ CAuthCodes). pose proof (Hg _ CTokens). pose proof (Hg _ CRevocations).
  pose proof (Hg _ CConsents). pose proof (Hg _ CVerification). pose proof (Hg _ CPasskeys).
  pose proof (Hg _ CGroups). pose proof (Hg _ CAudit). pose proof (Hg _ CKeys).
  pose proof (Hg _ CSigningKeys).
  assert (d_keys d = d_keys d') as Hkeys.
  { cbn in *. destruct (d_keys d) as [[]|], (d_keys d') as [[]|]; cbn in *; congruence. }
  destruct d, d'; cbn in *; congruence.
Qed.

Lemma frame_nil w w' : frame [] w w' -> same_disk w w'.
Proof.
  intros [Ht Hf]. split; [done|]. apply disk_ext. intros A c. apply Hf. set_solver.
Qed.

(** A program that writes no file outside [cs], whatever happens. *)
Definition touches {A} (cs : list coll_name) (p : Prog A) : Prop :=
  forall w, wp p w (fun _ w' => frame cs w w').

Lemma touches_run {A} cs (p : Prog A) w a w' :
  touches cs p -> run p w = (a, w') -> frame cs w w'.
Proof. intros Hp Hr. exact (wp_run p w _ a w' (Hp w) Hr). Qed.

Lemma touches_ret {A} cs (a : A) : touches cs (Ret a).
Proof. intros w. apply wp_ret. done. Qed.

Lemma touches_bind {A B} cs (p : Prog A) (f : A -> Prog B) :
  touches cs p -> (forall a, touches cs (f a)) -> touches cs (bind p f).
Proof.
  intros Hp Hf w. eapply wp_step; [apply Hp|]. intros a w1 H1. cbn beta in H1.
  eapply wp_mono; [apply Hf|]. intros b w2 H2. cbn beta in H2. by etransitivity.
Qed.

Lemma touches_weaken {A} cs cs' (p : Prog A) : cs ⊆ cs' -> touches cs p -> touches cs' p.
Proof.
  intros Hs Hp w. eapply wp_mono; [apply Hp|]. intros a w'. cbn beta. by apply frame_weaken.
Qed.

Lemma touches_if {A} cs (b : bool) (p q : Prog A) :
  touches cs p -> touches cs q -> touches cs (if b then p else q).
Proof. by destruct b. Qed.

(** The events that write no file. *)
Lemma touches_event {X} cs (e : Ev X) :
  (forall w, w_disk (perform e w).2 = w_disk w) -> touches cs (trigger e).
Proof.
  intros Hd w. apply wp_intro. intros a w' Hr. rewrite run_trigger in Hr.
  specialize (Hd w). rewrite Hr in Hd. simpl in Hd.
  split; [|intros A c _; by rewrite Hd].
  clear Hd. destruct e; unfold perform in Hr; repeat split_match_in Hr;
    simplify_eq/=; lia.
Qed.

Lemma touches_read {A} cs (c : Coll A) : touches cs (trigger (ERead c)).
Proof. by apply touches_event. Qed.
Lemma touches_lock cs l : touches cs (lock l).
Proof. by apply touches_event. Qed.
Lemma touches_unlock cs l : touches cs (unlock l).
Proof. by apply touches_event. Qed.
Lemma touches_now cs : touches cs now.
Proof. by apply touches_event. Qed.
Lemma touches_uuid cs : touches cs newUUID.
Proof. by apply touches_event. Qed.
Lemma touches_uuid7 cs : touches cs newUUIDv7.
Proof. by apply touches_event. Qed.
Lemma touches_rand cs n : touches cs (randRead n).
Proof. by apply touches_event. Qed.
Lemma touches_emit cs o : touches cs (emit o).
Proof. by apply touches_event. Qed.
Lemma touches_crit {X} cs (f : Z -> Z -> Mem -> X * Mem) : touches cs (crit f).
Proof. apply touches_event. intros w. simpl. by destruct (f _ _ _). Qed.
Lemma touches_send cs m : touches cs (trigger (ESend m)).
Proof. apply touches_event. intros w. simpl. by destruct (env_mail _). Qed.

Lemma touches_write {A} cs (c : Coll A) a :
  name_of c ∈ cs -> touches cs (trigger (EWrite c a)).
Proof.
  intros Hc w. apply wp_intro. intros r w' Hr. rewrite run_trigger in Hr. simpl in Hr.
  split_match_in Hr; simplify_eq/=; (split; [simpl; lia|]); intros B c' Hc'; simpl; try done;
    (rewrite get_set_ne; [done|intros E'; by rewrite E' in Hc]).
Qed.
End run.

Lemma touches_ret_ok `{Env} {A} cs (a : A) : touches cs (ret_ok a).
Proof. apply touches_ret. Qed.
Lemma touches_ret_err `{Env} {A} cs e : touches cs (@ret_err A e).
Proof. apply touches_ret. Qed.

#[export] Hint Resolve touches_ret touches_ret_ok touches_ret_err touches_read touches_lock touches_unlock touches_now
  touches_uuid touches_uuid7 touches_rand touches_emit touches_crit touches_send : touch.

(** Footprints of composed programs: follow the syntax, apply the footprints
    registered in [touch]. *)
Ltac touch_step :=
  match goal with
  | |- touches _ (bind _ _) => apply touches_bind; [|intros ?]
  | |- touches _ (if _ then _ else _) => apply touches_if
  | |- touches _ (match ?x with _ => _ end) => destruct x
  | |- touches _ (let '_ := ?x in _) => destruct x
  | |- touches _ _ => solve [auto with touch]
  | |- touches _ (trigger (EWrite _ _)) => apply touches_write; set_solver
  end.
Ltac touch := repeat touch_step.
