(* ===== verification/Metrics.v ===== *)
(** * internal/metrics/metrics.go: counters

    A counter that is incremented is an output with the counter's name and its
    labels; the values, and the histogram's observations, belong to the
    Prometheus library.  Labels that come from a request are mapped to a fixed
    set before they are used. *)
From S2P Require Import Prelude GoTime GoText Errors Domain Lockout PendingLogins World Run.
#[local] Open Scope Z_scope.
#[local] Open Scope go_scope.

Definition RecordLogin (status : string) : Prog unit := emit (Metric "idpico_login_attempts_total" [status]).
Definition RecordTokenIssued (tokenType grantType : string) : Prog unit :=
  emit (Metric "idpico_tokens_issued_total" [tokenType; grantType]).
Definition RecordTokenIntrospection (active : bool) : Prog unit :=
  emit (Metric "idpico_token_introspections_total" [if active then "true" else "false"]).
Definition RecordTokenRevocation : Prog unit := emit (Metric "idpico_token_revocations_total" []).
Definition RecordAuthCodeIssued : Prog unit := emit (Metric "idpico_auth_codes_issued_total" []).
Definition RecordRateLimitExceeded (endpoint : string) : Prog unit :=
  emit (Metric "idpico_rate_limit_exceeded_total" [endpoint]).
Definition RecordAccountLockout : Prog unit := emit (Metric "idpico_account_lockouts_total" []).
Definition RecordTokenRejected (reason : string) : Prog unit :=
  emit (Metric "idpico_tokens_rejected_total" [reason]).

Definition known_methods : list string := ["GET"; "POST"; "HEAD"; "OPTIONS"; "PUT"; "DELETE"; "PATCH"].
Definition normalizeMethod (m : string) : string :=
  if existsb (fun k => k ==? m) known_methods then m else "OTHER".

Definition knownPaths : list string :=
  ["/healthz"; "/readyz"; "/metrics"; "/login"; "/logout"; "/authorize"; "/token"; "/userinfo"; "/revoke";
   "/introspect"; "/.well-known/openid-configuration"; "/.well-known/jwks.json"; "/jwks"].
Definition normalizePath (path : string) : string :=
  if existsb (fun k => path ==? k) knownPaths then path else "/other".

(** What a request that was answered leaves behind. *)
Definition RecordRequest (method path : string) (status : Z) : Prog unit :=
  let method := normalizeMethod method in
  let path := normalizePath path in
  let! _ := emit (Metric "idpico_http_requests_total" [method; path; dec status]) in
  emit (Metric "idpico_http_request_duration_seconds" [method; path]).

(** Whatever is requested, the labels come from fixed lists. *)
Lemma normalizeMethod_known m : normalizeMethod m ∈ "OTHER" :: known_methods.
Proof.
  unfold normalizeMethod. destruct (existsb _ known_methods) eqn:He; [|left].
  apply existsb_exists in He as (k & Hk & <-%bool_decide_eq_true). right. by apply list_elem_of_In.
Qed.

Lemma normalizePath_known p : normalizePath p ∈ "/other" :: knownPaths.
Proof.
  unfold normalizePath. destruct (existsb _ knownPaths) eqn:He; [|left].
  apply existsb_exists in He as (k & Hk & ->%bool_decide_eq_true). right. by apply list_elem_of_In.
Qed.

Section touches.
Context `{Env} (cs : list coll_name).

Lemma touches_RecordLogin status : touches cs (RecordLogin status).
Proof. apply touches_emit. Qed.
Lemma touches_RecordTokenIssued t g : touches cs (RecordTokenIssued t g).
Proof. apply touches_emit. Qed.
Lemma touches_RecordTokenIntrospection b : touches cs (RecordTokenIntrospection b).
Proof. apply touches_emit. Qed.
Lemma touches_RecordTokenRevocation : touches cs RecordTokenRevocation.
Proof. apply touches_emit. Qed.
Lemma touches_RecordAuthCodeIssued : touches cs RecordAuthCodeIssued.
Proof. apply touches_emit. Qed.
Lemma touches_RecordRateLimitExceeded e : touches cs (RecordRateLimitExceeded e).
Proof. apply touches_emit. Qed.
Lemma touches_RecordAccountLockout : touches cs RecordAccountLockout.
Proof. apply touches_emit. Qed.
Lemma touches_RecordTokenRejected r : touches cs (RecordTokenRejected r).
Proof. apply touches_emit. Qed.
Lemma touches_RecordRequest m p s : touches cs (RecordRequest m p s).
Proof. apply touches_bind; [|intros _]; apply touches_emit. Qed.
End touches.

#[export] Hint Resolve touches_RecordLogin touches_RecordTokenIssued touches_RecordTokenIntrospection
  touches_RecordTokenRevocation touches_RecordAuthCodeIssued touches_RecordRateLimitExceeded
  touches_RecordAccountLockout touches_RecordTokenRejected touches_RecordRequest : touch.
