(* ===== verification/Store.v ===== *)
(** * internal/store: the repository interfaces and what they promise

    [Store] collects the operations of [internal/store/interfaces.go] (an
    operation that fills in fields of its argument returns the object it
    stored).  [StoreLaws] is the contract the services rely on: an operation
    that reads ([qry]) or writes ([upd]) one collection behaves as a pure
    function of its rows and of the instant, or fails because the storage
    did, in which case the file is as before or unreadable.  [FileStore]
    implements both. *)
From S2P Require Import Prelude GoTime GoText Errors Domain Lockout PendingLogins World Run.
#[local] Open Scope Z_scope.
#[local] Open Scope go_scope.

Class Store := {
  (* UserRepository *)
  Users_Create : User -> Prog (res User);
  Users_GetByID : string -> Prog (res User);
  Users_GetByEmail : string -> Prog (res User);
  Users_Update : User -> Prog (res User);
  Users_Delete : string -> Prog (res unit);
  Users_List : Prog (res (list User));
  (* ClientRepository *)
  Clients_Create : Client -> Prog (res Client);
  Clients_GetByID : string -> Prog (res Client);
  Clients_Update : Client -> Prog (res Client);
  Clients_Delete : string -> Prog (res unit);
  Clients_List : Prog (res (list Client));
  (* SessionRepository *)
  Sessions_Create : Session -> Prog (res Session);
  Sessions_GetByID : string -> Prog (res Session);
  Sessions_Delete : string -> Prog (res unit);
  Sessions_DeleteByUserID : string -> Prog (res unit);
  Sessions_DeleteExpired : Prog (res unit);
  Sessions_ListByUserID : string -> Prog (res (list Session));
  (* AuthCodeRepository *)
  AuthCodes_Create : AuthCode -> Prog (res AuthCode);
  AuthCodes_GetByCode : string -> Prog (res AuthCode);
  AuthCodes_MarkUsed : string -> Prog (res unit);
  AuthCodes_Delete : string -> Prog (res unit);
  AuthCodes_DeleteExpired : Prog (res unit);
  (* TokenRepository *)
  Tokens_Create : Token -> Prog (res Token);
  Tokens_GetByID : string -> Prog (res Token);
  Tokens_Revoke : string -> Prog (res unit);
  Tokens_RevokeByUserID : string -> Prog (res unit);
  Tokens_RevokeByClientID : string -> Prog (res unit);
  Tokens_Rotate : string -> Prog (res unit);
  Tokens_DeleteExpired : Prog (res unit);
  Tokens_ListByUserID : string -> Prog (res (list Token));
  (* RevocationRepository *)
  Revocations_RevokeAccessToken : string -> Z -> Prog (res unit);
  Revocations_RevokeBefore : string -> string -> Z -> Prog (res unit);
  Revocations_IsRevoked : string -> string -> string -> Z -> Prog (res bool);
  Revocations_DeleteExpired : Prog (res unit);
  (* ConsentRepository *)
  Consents_Upsert : Consent -> Prog (res Consent);
  Consents_Get : string -> string -> Prog (res Consent);
  Consents_ListByUserID : string -> Prog (res (list Consent));
  Consents_Delete : string -> string -> Prog (res unit);
  Consents_DeleteByUserID : string -> Prog (res unit);
  (* PasskeyRepository *)
  Passkeys_Create : Passkey -> Prog (res Passkey);
  Passkeys_ListByUserID : string -> Prog (res (list Passkey));
  Passkeys_Update : Passkey -> Prog (res unit);
  Passkeys_Delete : string -> string -> Prog (res unit);
  Passkeys_DeleteByUserID : string -> Prog (res unit);
  (* VerificationTokenRepository *)
  Verification_Create : VerificationToken -> Prog (res VerificationToken);
  Verification_GetByHash : string -> Prog (res VerificationToken);
  Verification_MarkUsed : string -> Prog (res unit);
  Verification_DeleteByUserID : string -> string -> Prog (res unit);
  Verification_DeleteExpired : Prog (res unit);
  (* GroupRepository *)
  Groups_Create : Group -> Prog (res Group);
  Groups_GetByID : string -> Prog (res Group);
  Groups_GetByName : string -> Prog (res Group);
  Groups_Update : Group -> Prog (res Group);
  Groups_Delete : string -> Prog (res unit);
  Groups_List : Prog (res (list Group));
  Groups_AddMember : string -> string -> Prog (res unit);
  Groups_RemoveMember : string -> string -> Prog (res unit);
  Groups_MemberIDs : string -> Prog (res (list string));
  Groups_GroupsForUser : string -> Prog (res (list Group));
  Groups_RemoveUser : string -> Prog (res unit);
  (* AuditRepository *)
  Audit_Append : AuditEvent -> Prog (res AuditEvent);
  Audit_List : Z -> Prog (res (list AuditEvent));
  Audit_DeleteBefore : Z -> Prog (res unit);
  (* SigningKeyRepository *)
  SigningKeys_Create : SigningKey -> Prog (res SigningKey);
  SigningKeys_GetByID : string -> Prog (res SigningKey);
  SigningKeys_GetActive : Prog (res SigningKey);
  SigningKeys_GetAll : Prog (res (list SigningKey));
  SigningKeys_SetActive : string -> Prog (res unit);
  SigningKeys_Delete : string -> Prog (res unit);
  (* crypto.KeyRepository, which comes with the store *)
  Keys_GetByID : string -> Prog (res KeyPair);
  Keys_GetActive : Prog (res KeyPair);
  Keys_GetAll : Prog (res (list KeyPair));
  Keys_Save : KeyPair -> Prog (res unit);
  Keys_SetActive : string -> Prog (res unit);
  Keys_Delete : string -> Prog (res unit);
}.

(** ** Shapes of behaviour *)

Section shapes.
Context `{Env}.

(** Memory, mutexes and outputs are as before. *)
Definition calm (w w' : World) : Prop :=
  (w_tick w <= w_tick w')%nat /\
  w_mem w' = w_mem w /\ w_held w' = w_held w /\ w_out w' = w_out w.

(** [t] is an instant the clock showed between [w] and [w']; [u] an
    identifier made then. *)
Definition instant (w w' : World) (t : Z) : Prop :=
  exists n, (w_tick w <= n <= w_tick w')%nat /\ t = env_clock n.
Definition fresh_id (w w' : World) (u : string) : Prop :=
  exists n, (w_tick w <= n < w_tick w')%nat /\ u = env_uuid n.

(** The storage failed: a file that does not parse, or an access that did
    not go through. *)
Definition fault {A} (c : Coll A) (w w' : World) : Prop :=
  get c (w_disk w) = FCorrupt \/
  exists n, (w_tick w <= n < w_tick w')%nat /\ env_io n <> IoOk.

(** The errors of a failed storage: none of the codes the services act on. *)
Definition storage_error (e : error) : Prop :=
  error_code e = None \/ error_code e = Some CodeInternal.

(** A query of [c] that returns [f] of the instant and the contents. *)
Definition qry {A B} (c : Coll A) (f : Z -> A -> res B) (w : World) (r : res B) (w' : World) : Prop :=
  same_disk w w' /\ calm w w' /\
  ((exists a t, get c (w_disk w) = FData a /\ instant w w' t /\ r = f t a) \/
   (exists e, r = Err e /\ storage_error e /\ fault c w w')).

(** A write of [c]: [f] of the instant, a new identifier and the contents
    refuses, or gives the new contents and the result. *)
Definition upd {A B} (c : Coll A) (f : Z -> string -> A -> res (A * B))
    (w : World) (r : res B) (w' : World) : Prop :=
  frame [name_of c] w w' /\ calm w w' /\
  ((exists a t u, get c (w_disk w) = FData a /\ instant w w' t /\ fresh_id w w' u /\
      match f t u a with
      | Ok (a', b) => r = Ok b /\ get c (w_disk w') = FData a'
      | Err e => r = Err e /\ w_disk w' = w_disk w
      end) \/
   (exists e, r = Err e /\ storage_error e /\ fault c w w' /\
      (w_disk w' = w_disk w \/ get c (w_disk w') = FCorrupt))).

(** One write, then another that uses its result. *)
Definition upd_then {A A' B B'} (c : Coll A) (f : Z -> string -> A -> res (A * B))
    (c' : Coll A') (g : B -> Z -> string -> A' -> res (A' * B'))
    (w : World) (r : res B') (w' : World) : Prop :=
  exists r1 w1, upd c f w r1 w1 /\
    match r1 with
    | Ok b => upd c' (g b) w1 r w'
    | Err e => r = Err e /\ w' = w1
    end.

Lemma calm_refl w : calm w w.
Proof. by repeat split. Qed.

Lemma calm_trans w1 w2 w3 : calm w1 w2 -> calm w2 w3 -> calm w1 w3.
Proof.
  intros (T1 & M1 & H1 & O1) (T2 & M2 & H2 & O2).
  split; [lia|]. repeat split; congruence.
Qed.

#[global] Instance calm_preorder : PreOrder calm.
Proof. split; [intros w; apply calm_refl|intros ???; apply calm_trans]. Qed.

Lemma storage_error_IsCode e c :
  storage_error e -> c <> CodeInternal -> IsCode e c = false.
Proof.
  unfold storage_error, IsCode. intros [->| ->] Hc; [done|]. by case_bool_decide.
Qed.

Lemma storage_error_wrap m e : storage_error e -> storage_error (Errorf m e).
Proof. done. Qed.

(** What a query's answer says. *)
Lemma qry_Ok {A B} (c : Coll A) (f : Z -> A -> res B) w b w' :
  qry c f w (Ok b) w' ->
  exists a t, get c (w_disk w) = FData a /\ instant w w' t /\ f t a = Ok b.
Proof. intros (_ & _ & [(a & t & Ha & Ht & Hr)|(e & ? & _)]); naive_solver. Qed.

Lemma qry_Err {A B} (c : Coll A) (f : Z -> A -> res B) w e w' code :
  code <> CodeInternal ->
  qry c f w (Err e) w' -> IsCode e code = true ->
  exists a t, get c (w_disk w) = FData a /\ instant w w' t /\ f t a = Err e.
Proof.
  intros Hc (_ & _ & [(a & t & Ha & Ht & Hr)|(e' & ? & He & _)]) Hcode; [naive_solver|].
  simplify_eq. by rewrite (storage_error_IsCode _ code) in Hcode.
Qed.

Lemma upd_Ok {A B} (c : Coll A) (f : Z -> string -> A -> res (A * B)) w b w' :
  upd c f w (Ok b) w' ->
  exists a t u a', get c (w_disk w) = FData a /\ instant w w' t /\ fresh_id w w' u /\
    f t u a = Ok (a', b) /\ get c (w_disk w') = FData a'.
Proof.
  intros (_ & _ & [(a & t & u & Ha & Ht & Hu & Hr)|(e & ? & _)]); [|done].
  destruct (f t u a) as [[a' b']|e] eqn:E; destruct Hr; simplify_eq. naive_solver.
Qed.

Lemma upd_Err {A B} (c : Coll A) (f : Z -> string -> A -> res (A * B)) w e w' code :
  code <> CodeInternal ->
  upd c f w (Err e) w' -> IsCode e code = true ->
  exists a t u, get c (w_disk w) = FData a /\ f t u a = Err e /\ w_disk w' = w_disk w.
Proof.
  intros Hc (_ & _ & [(a & t & u & Ha & _ & _ & Hr)|(e' & ? & He & _)]) Hcode.
  - destruct (f t u a) as [[a' b']|e'] eqn:E; destruct Hr; simplify_eq. naive_solver.
  - simplify_eq. by rewrite (storage_error_IsCode _ code) in Hcode.
Qed.

(** Without a success, the contents are as before, or lost. *)
Lemma upd_Err_contents {A B} (c : Coll A) (f : Z -> string -> A -> res (A * B)) w e w' :
  upd c f w (Err e) w' ->
  w_disk w' = w_disk w \/ get c (w_disk w') = FCorrupt.
Proof.
  intros (_ & _ & [(a & t & u & Ha & _ & _ & Hr)|(e' & ? & He & _ & Hd)]); [|done].
  destruct (f t u a) as [[a' b']|e'] eqn:E; destruct Hr; simplify_eq. by left.
Qed.

Lemma instant_le `{!EnvLaws} w w' t :
  instant w w' t -> env_clock (w_tick w) <= t <= env_clock (w_tick w').
Proof. intros (n & Hn & ->). split; apply clock_mono; lia. Qed.

Lemma instant_nonneg `{!EnvLaws} w w' t : instant w w' t -> 0 <= t.
Proof. intros (n & Hn & ->). apply clock_pos. Qed.
End shapes.

(** ** The contract

    The operations on rows that the interface promises.  Rows keep the order
    in which they were added. *)

(** The three ways the operations address a row: find the first match, or
    overwrite or delete it. *)
Definition find_or {A} (p : A -> bool) (missing : error) (l : list A) : res A :=
  match find_first p l with Some x => Ok x | None => Err missing end.

Definition rows_find {A} (p : A -> bool) (missing : error) (_ : Z) (l : list A) : res A :=
  find_or p missing l.

Definition rows_select {A} (p : Z -> A -> bool) (less : A -> A -> bool) (t : Z) (l : list A)
    : res (list A) :=
  Ok (sort_by less (List.filter (p t) l)).

Definition rows_add {A} (taken : A -> option error) (x : Z -> A) (t : Z) (_ : string) (l : list A)
    : res (list A * A) :=
  match omap taken l with
  | e :: _ => Err e
  | [] => Ok (l ++ [x t], x t)
  end.

Definition rows_replace {A B} (p : A -> bool) (f : Z -> A -> A) (b : Z -> B) (missing : error)
    (t : Z) (_ : string) (l : list A) : res (list A * B) :=
  match replace_first p (f t) l with
  | Some l' => Ok (l', b t)
  | None => Err missing
  end.

Definition rows_remove {A} (p : A -> bool) (missing : error) (_ : Z) (_ : string) (l : list A)
    : res (list A * unit) :=
  match remove_first p l with
  | Some l' => Ok (l', tt)
  | None => Err missing
  end.

Definition rows_keep {A} (p : Z -> A -> bool) (t : Z) (_ : string) (l : list A)
    : res (list A * unit) :=
  Ok (List.filter (p t) l, tt).

(** Consume once: [MarkUsed] and [Rotate]. *)
Definition rows_consume {A} (p spent : A -> bool) (spend : A -> A) (conflict missing : error)
    (_ : Z) (_ : string) (l : list A) : res (list A * unit) :=
  match find_first p l with
  | Some x =>
      if spent x then Err conflict
      else Ok (default l (replace_first p spend l), tt)
  | None => Err missing
  end.

(** Revocations of access tokens. *)
Definition same_row (kind key : string) (rv : Revocation) : bool :=
  (rv_Kind rv ==? kind) && (rv_Key rv ==? key).

Definition raise_revocation (notBefore expiresAt : Z) (rv : Revocation) : Revocation :=
  {| rv_Kind := rv_Kind rv; rv_Key := rv_Key rv;
     rv_NotBefore := if After notBefore (rv_NotBefore rv) then notBefore else rv_NotBefore rv;
     rv_ExpiresAt := if After expiresAt (rv_ExpiresAt rv) then expiresAt else rv_ExpiresAt rv |}.

Definition upsert_revocation (kind key : string) (notBefore expiresAt : Z) (l : list Revocation)
    : list Revocation :=
  match replace_first (same_row kind key) (raise_revocation notBefore expiresAt) l with
  | Some l' => l'
  | None => l ++ [{| rv_Kind := kind; rv_Key := key;
                     rv_NotBefore := notBefore; rv_ExpiresAt := expiresAt |}]
  end.

Definition revokes (jti userID clientID : string) (issuedAt : Z) (rv : Revocation) : bool :=
  if rv_Kind rv ==? RevocationJTI then rv_Key rv ==? jti
  else if rv_Kind rv ==? RevocationUser then
    (rv_Key rv ==? userID) && negb (After issuedAt (rv_NotBefore rv))
  else if rv_Kind rv ==? RevocationUserClient then
    (rv_Key rv ==? UserClientKey userID clientID) && negb (After issuedAt (rv_NotBefore rv))
  else if rv_Kind rv ==? RevocationClient then
    (rv_Key rv ==? clientID) && negb (After issuedAt (rv_NotBefore rv))
  else false.

Definition rows_revoke_before (kind key : string) (notBefore : Z)
    (_ : Z) (_ : string) (l : list Revocation) : res (list Revocation * unit) :=
  Ok (upsert_revocation kind key notBefore (Add notBefore RevocationRetention) l, tt).

(** The watermark a refresh token's revocation leaves, at the instant of the
    write. *)
Definition rows_revoke_now (kind key : string) (t : Z) (_ : string) (l : list Revocation)
    : res (list Revocation * unit) :=
  Ok (upsert_revocation kind key t (Add t RevocationRetention) l, tt).

Definition revoke_where (p : Token -> bool) (tokens : list Token) : list Token :=
  map (fun t => if p t then token_set_revoked t else t) tokens.

(** Revoking a refresh token returns the row, whose user and client name the
    watermark. *)
Definition rows_revoke_token (id : string) (_ : Z) (_ : string) (l : list Token)
    : res (list Token * Token) :=
  match find_first (fun t => token_ID t ==? id) l with
  | Some t => Ok (default l (replace_first (fun t => token_ID t ==? id) token_set_revoked l), t)
  | None => Err (NotFound "token" id)
  end.

(** Consents are replaced in place, keeping their ID. *)
Definition consent_of (userID clientID : string) (c : Consent) : bool :=
  (consent_UserID c ==? userID) && (consent_ClientID c ==? clientID).

Definition consent_set (id : string) (at_ : Z) (c : Consent) : Consent :=
  {| consent_ID := id; consent_UserID := consent_UserID c; consent_ClientID := consent_ClientID c;
     consent_Scopes := consent_Scopes c; consent_GrantedAt := at_ |}.

Definition rows_upsert_consent (c : Consent) (t : Z) (u : string) (l : list Consent)
    : res (list Consent * Consent) :=
  let p := consent_of (consent_UserID c) (consent_ClientID c) in
  match find_first p l with
  | Some old =>
      let c := consent_set (consent_ID old) t c in
      Ok (default l (replace_first p (fun _ => c) l), c)
  | None =>
      let c := consent_set (if consent_ID c ==? "" then u else consent_ID c) t c in
      Ok (l ++ [c], c)
  end.

(** A row is added unless one it collides with is there. *)
Definition rows_add_unless {A} (p : A -> bool) (taken : error) : (Z -> A) -> Z -> string -> list A ->
    res (list A * A) :=
  rows_add (fun x => if p x then Some taken else None).

Definition passkey_of (userID id : string) (p : Passkey) : bool :=
  (passkey_ID p ==? id) && (passkey_UserID p ==? userID).

(** Groups and memberships share a file. *)
Definition member_of (groupID userID : string) (m : membership) : bool :=
  (mb_GroupID m ==? groupID) && (mb_UserID m ==? userID).

Definition groups_add_member (groupID userID : string) (_ : Z) (_ : string)
    (gm : list Group * list membership) : res (list Group * list membership * unit) :=
  match find_first (fun g => group_ID g ==? groupID) gm.1 with
  | None => Err (NotFound "group" groupID)
  | Some _ =>
      Ok (gm.1, if existsb (member_of groupID userID) gm.2 then gm.2
                else gm.2 ++ [{| mb_UserID := userID; mb_GroupID := groupID |}], tt)
  end.

Definition groups_remove_member (groupID userID : string) (_ : Z) (_ : string)
    (gm : list Group * list membership) : res (list Group * list membership * unit) :=
  match remove_first (member_of groupID userID) gm.2 with
  | Some memberships => Ok (gm.1, memberships, tt)
  | None => Err (NotFound "group membership" (userID +:+ "/" +:+ groupID))
  end.

Definition groups_delete (id : string) (_ : Z) (_ : string) (gm : list Group * list membership)
    : res (list Group * list membership * unit) :=
  match remove_first (fun g => group_ID g ==? id) gm.1 with
  | Some groups => Ok (groups, List.filter (fun m => mb_GroupID m !=? id) gm.2, tt)
  | None => Err (NotFound "group" id)
  end.

Definition groups_remove_user (userID : string) (_ : Z) (_ : string)
    (gm : list Group * list membership) : res (list Group * list membership * unit) :=
  Ok (gm.1, List.filter (fun m => mb_UserID m !=? userID) gm.2, tt).

(** The key file: the keys, and the ID of the active one. *)
Definition mark_active (kid : string) (keys : list KeyPair) : list KeyPair :=
  map (fun k => kp_set_active (kp_Kid k ==? kid) k) keys.

Definition keys_put (k : KeyPair) (rows : list KeyPair) : list KeyPair :=
  default (rows ++ [k]) (replace_first (fun r => kp_Kid r ==? kp_Kid k) (fun _ => k) rows).

Definition rows_put_key (k : KeyPair) (_ : Z) (_ : string) (f : list KeyPair * string)
    : res ((list KeyPair * string) * unit) :=
  Ok ((map kp_stored (keys_put k f.1), f.2), tt).

Definition rows_activate_key (kid : string) (_ : Z) (_ : string) (f : list KeyPair * string)
    : res ((list KeyPair * string) * unit) :=
  if existsb (fun k => kp_Kid k ==? kid) f.1
  then Ok ((map kp_stored (mark_active kid f.1), kid), tt)
  else Err (NotFound "signing key" kid).

Definition rows_delete_key (kid : string) (_ : Z) (_ : string) (f : list KeyPair * string)
    : res ((list KeyPair * string) * unit) :=
  match remove_first (fun k => kp_Kid k ==? kid) f.1 with
  | Some rows => Ok ((map kp_stored rows, if f.2 ==? kid then "" else f.2), tt)
  | None => Err (NotFound "signing key" kid)
  end.

Definition rows_active_key (_ : Z) (f : list KeyPair * string) : res KeyPair :=
  if f.2 ==? "" then Err (NotFound "active signing key" "")
  else find_or (fun k => kp_Kid k ==? f.2) (NotFound "active signing key" f.2) f.1.

(** Activating a signing key of the store's own repository retires the others. *)
Definition rows_activate_signing (id : string) (_ : Z) (_ : string) (l : list SigningKey)
    : res (list SigningKey * unit) :=
  if existsb (fun k => sk_ID k ==? id) l
  then Ok (map (fun k => sk_set_active (sk_ID k ==? id) k) l, tt)
  else Err (NotFound "signing key" id).

(** [same_email] is the store's comparison of addresses and of group names. *)
Class StoreLaws `{Store} `{Env} (same_email : string -> string -> bool) : Prop := {
  law_Users_GetByID id w : wp (Users_GetByID id) w
    (qry CUsers (rows_find (fun u => user_ID u ==? id) (NotFound "user" id)) w);
  law_Users_GetByEmail email w : wp (Users_GetByEmail email) w
    (qry CUsers (rows_find (fun u => same_email (user_Email u) email)
       (NotFound "user with email" email)) w);
  law_Users_Create user w : wp (Users_Create user) w
    (upd CUsers (rows_add (fun u =>
         if user_ID u ==? user_ID user then Some (AlreadyExists "user" (user_ID user))
         else if same_email (user_Email u) (user_Email user)
              then Some (AlreadyExists "user with email" (user_Email user)) else None)
       (fun t => user_set_times t t user)) w);
  law_Users_Update user w : wp (Users_Update user) w
    (upd CUsers (rows_replace (fun u => user_ID u ==? user_ID user)
       (fun t _ => user_set_updated t user) (fun t => user_set_updated t user)
       (NotFound "user" (user_ID user))) w);
  law_Clients_GetByID id w : wp (Clients_GetByID id) w
    (qry CClients (rows_find (fun c => client_ID c ==? id) (NotFound "client" id)) w);
  law_Clients_Update client w : wp (Clients_Update client) w
    (upd CClients (rows_replace (fun c => client_ID c ==? client_ID client)
       (fun t _ => client_set_times (client_CreatedAt client) t client)
       (fun t => client_set_times (client_CreatedAt client) t client)
       (NotFound "client" (client_ID client))) w);
  law_Users_Delete id w : wp (Users_Delete id) w
    (upd CUsers (rows_remove (fun u => user_ID u ==? id) (NotFound "user" id)) w);
  law_Users_List w : wp Users_List w (qry CUsers (fun _ l => Ok l) w);
  law_Clients_Create client w : wp (Clients_Create client) w
    (upd CClients (rows_add_unless (fun c => client_ID c ==? client_ID client)
       (AlreadyExists "client" (client_ID client)) (fun t => client_set_times t t client)) w);
  law_Clients_Delete id w : wp (Clients_Delete id) w
    (upd CClients (rows_remove (fun c => client_ID c ==? id) (NotFound "client" id)) w);
  law_Clients_List w : wp Clients_List w (qry CClients (fun _ l => Ok l) w);
  law_Sessions_ListByUserID userID w : wp (Sessions_ListByUserID userID) w
    (qry CSessions (rows_select
       (fun t s => (session_UserID s ==? userID) && After (session_ExpiresAt s) t)
       (fun a b => After (session_CreatedAt a) (session_CreatedAt b))) w);
  law_Sessions_Create session w : wp (Sessions_Create session) w
    (upd CSessions (rows_add (fun _ => None) (fun t => session_set_created t session)) w);
  law_Sessions_GetByID id w : wp (Sessions_GetByID id) w
    (qry CSessions (rows_find (fun s => session_ID s ==? id) (NotFound "session" id)) w);
  law_Sessions_Delete id w : wp (Sessions_Delete id) w
    (upd CSessions (rows_remove (fun s => session_ID s ==? id) (NotFound "session" id)) w);
  law_Sessions_DeleteByUserID userID w : wp (Sessions_DeleteByUserID userID) w
    (upd CSessions (rows_keep (fun _ s => session_UserID s !=? userID)) w);
  law_Sessions_DeleteExpired w : wp Sessions_DeleteExpired w
    (upd CSessions (rows_keep (fun t s => After (session_ExpiresAt s) t)) w);
  law_AuthCodes_Create code w : wp (AuthCodes_Create code) w
    (upd CAuthCodes (rows_add (fun _ => None) (fun t => ac_set_created t code)) w);
  law_AuthCodes_GetByCode code w : wp (AuthCodes_GetByCode code) w
    (qry CAuthCodes (rows_find (fun a => ac_Code a ==? code) (NotFound "auth code" code)) w);
  law_AuthCodes_MarkUsed code w : wp (AuthCodes_MarkUsed code) w
    (upd CAuthCodes (rows_consume (fun a => ac_Code a ==? code) ac_Used ac_set_used
       (Conflict "auth code already used") (NotFound "auth code" code)) w);
  law_AuthCodes_DeleteExpired w : wp AuthCodes_DeleteExpired w
    (upd CAuthCodes (rows_keep (fun t a => After (ac_ExpiresAt a) t)) w);
  law_Tokens_Create token w : wp (Tokens_Create token) w
    (upd CTokens (rows_add (fun _ => None) (fun t => token_set_created t token)) w);
  law_Tokens_GetByID id w : wp (Tokens_GetByID id) w
    (qry CTokens (rows_find (fun t => token_ID t ==? id) (NotFound "token" id)) w);
  law_Tokens_Revoke id w : wp (Tokens_Revoke id) w
    (upd_then CTokens (rows_revoke_token id) CRevocations
       (fun t => rows_revoke_now RevocationUserClient
                   (UserClientKey (token_UserID t) (token_ClientID t))) w);
  law_Tokens_RevokeByUserID userID w : wp (Tokens_RevokeByUserID userID) w
    (upd_then CTokens (fun _ _ l => Ok (revoke_where (fun t => token_UserID t ==? userID) l, tt))
       CRevocations (fun _ => rows_revoke_now RevocationUser userID) w);
  law_Tokens_RevokeByClientID clientID w : wp (Tokens_RevokeByClientID clientID) w
    (upd_then CTokens (fun _ _ l => Ok (revoke_where (fun t => token_ClientID t ==? clientID) l, tt))
       CRevocations (fun _ => rows_revoke_now RevocationClient clientID) w);
  law_Tokens_Rotate id w : wp (Tokens_Rotate id) w
    (upd CTokens (rows_consume (fun t => token_ID t ==? id) token_Revoked token_set_revoked
       (Conflict "refresh token already used") (NotFound "token" id)) w);
  law_Tokens_DeleteExpired w : wp Tokens_DeleteExpired w
    (upd CTokens (rows_keep (fun n t => After (token_ExpiresAt t) n)) w);
  law_Tokens_ListByUserID userID w : wp (Tokens_ListByUserID userID) w
    (qry CTokens (rows_select (fun n t => (token_UserID t ==? userID) && After (token_ExpiresAt t) n)
       (fun a b => After (token_CreatedAt a) (token_CreatedAt b))) w);
  law_Revocations_RevokeAccessToken jti expiresAt w :
    wp (Revocations_RevokeAccessToken jti expiresAt) w
      (upd CRevocations (fun t _ l => Ok (upsert_revocation RevocationJTI jti t expiresAt l, tt)) w);
  law_Revocations_RevokeBefore kind key notBefore w :
    wp (Revocations_RevokeBefore kind key notBefore) w
      (upd CRevocations (rows_revoke_before kind key notBefore) w);
  law_Revocations_IsRevoked jti userID clientID issuedAt w :
    wp (Revocations_IsRevoked jti userID clientID issuedAt) w
      (qry CRevocations (fun _ l => Ok (existsb (revokes jti userID clientID issuedAt) l)) w);
  law_Revocations_DeleteExpired w : wp Revocations_DeleteExpired w
    (upd CRevocations (rows_keep (fun t rv => After (rv_ExpiresAt rv) t)) w);
  law_Consents_Get userID clientID w : wp (Consents_Get userID clientID) w
    (qry CConsents (rows_find (consent_of userID clientID)
       (NotFound "consent" (userID +:+ "/" +:+ clientID))) w);
  law_Consents_Upsert consent w : wp (Consents_Upsert consent) w
    (upd CConsents (rows_upsert_consent consent) w);
  law_Consents_ListByUserID userID w : wp (Consents_ListByUserID userID) w
    (qry CConsents (fun _ l => Ok (List.filter (fun c => consent_UserID c ==? userID) l)) w);
  law_Consents_Delete userID clientID w : wp (Consents_Delete userID clientID) w
    (upd CConsents (rows_remove (consent_of userID clientID)
       (NotFound "consent" (userID +:+ "/" +:+ clientID))) w);
  law_Consents_DeleteByUserID userID w : wp (Consents_DeleteByUserID userID) w
    (upd CConsents (rows_keep (fun _ c => consent_UserID c !=? userID)) w);
  law_Passkeys_Create p w : wp (Passkeys_Create p) w
    (upd CPasskeys (rows_add_unless (fun x => passkey_ID x ==? passkey_ID p)
       (AlreadyExists "passkey" (passkey_ID p)) (fun t => passkey_set_created t p)) w);
  law_Passkeys_Update p w : wp (Passkeys_Update p) w
    (upd CPasskeys (rows_replace (passkey_of (passkey_UserID p) (passkey_ID p)) (fun _ _ => p)
       (fun _ => tt) (NotFound "passkey" (passkey_ID p))) w);
  law_Passkeys_Delete userID id w : wp (Passkeys_Delete userID id) w
    (upd CPasskeys (rows_remove (passkey_of userID id) (NotFound "passkey" id)) w);
  law_Passkeys_ListByUserID userID w : wp (Passkeys_ListByUserID userID) w
    (qry CPasskeys (fun _ l => Ok (List.filter (fun p => passkey_UserID p ==? userID) l)) w);
  law_Passkeys_DeleteByUserID userID w : wp (Passkeys_DeleteByUserID userID) w
    (upd CPasskeys (rows_keep (fun _ p => passkey_UserID p !=? userID)) w);
  law_Verification_Create token w : wp (Verification_Create token) w
    (upd CVerification (rows_add_unless (fun t => vt_TokenHash t ==? vt_TokenHash token)
       (AlreadyExists "verification token" (vt_TokenHash token)) (fun t => vt_set_created t token)) w);
  law_Verification_GetByHash hash w : wp (Verification_GetByHash hash) w
    (qry CVerification (rows_find (fun t => vt_TokenHash t ==? hash)
       (NotFound "verification token" "")) w);
  law_Verification_MarkUsed hash w : wp (Verification_MarkUsed hash) w
    (upd CVerification (rows_replace (fun t => vt_TokenHash t ==? hash) (fun _ => vt_set_used)
       (fun _ => tt) (NotFound "verification token" "")) w);
  law_Verification_DeleteByUserID userID purpose w :
    wp (Verification_DeleteByUserID userID purpose) w
      (upd CVerification (rows_keep (fun _ t =>
         negb ((vt_UserID t ==? userID) && ((purpose ==? "") || (vt_Purpose t ==? purpose))))) w);
  law_Verification_DeleteExpired w : wp Verification_DeleteExpired w
    (upd CVerification (rows_keep (fun n t => After (vt_ExpiresAt t) n)) w);
  law_Groups_GroupsForUser userID : exists groups, forall w, wp (Groups_GroupsForUser userID) w
    (qry CGroups (fun _ gm => Ok (groups gm)) w);
  law_Groups_Create group w : wp (Groups_Create group) w
    (fun r w' => frame [NGroups] w w' /\ calm w w');
  law_Groups_GetByID id w : wp (Groups_GetByID id) w
    (qry CGroups (fun t gm => rows_find (fun g => group_ID g ==? id) (NotFound "group" id) t gm.1) w);
  law_Groups_GetByName name w : wp (Groups_GetByName name) w
    (qry CGroups (fun t gm => rows_find (fun g => same_email (group_Name g) name)
       (NotFound "group with name" name) t gm.1) w);
  law_Groups_Update group w : wp (Groups_Update group) w
    (fun r w' => frame [NGroups] w w' /\ calm w w');
  law_Groups_Delete id w : wp (Groups_Delete id) w (upd CGroups (groups_delete id) w);
  law_Groups_List w : wp Groups_List w (fun r w' => same_disk w w' /\ calm w w');
  law_Groups_AddMember groupID userID w : wp (Groups_AddMember groupID userID) w
    (upd CGroups (groups_add_member groupID userID) w);
  law_Groups_RemoveMember groupID userID w : wp (Groups_RemoveMember groupID userID) w
    (upd CGroups (groups_remove_member groupID userID) w);
  law_Groups_MemberIDs groupID w : wp (Groups_MemberIDs groupID) w
    (qry CGroups (fun _ gm =>
       Ok (map mb_UserID (List.filter (fun m => mb_GroupID m ==? groupID) gm.2))) w);
  law_Groups_RemoveUser userID w : wp (Groups_RemoveUser userID) w
    (upd CGroups (groups_remove_user userID) w);
  law_Audit_List limit w : wp (Audit_List limit) w
    (qry CAudit (fun _ l => Ok (take (Z.to_nat (if limit <=? 0 then 100 else limit))
       (sort_by (fun a b => After (ev_At a) (ev_At b)) l))) w);
  law_Audit_Append ev w : wp (Audit_Append ev) w (fun r w' => frame [NAudit] w w' /\ calm w w');
  law_Audit_DeleteBefore cutoff w : wp (Audit_DeleteBefore cutoff) w
    (upd CAudit (rows_keep (fun _ e => negb (Before (ev_At e) cutoff))) w);
  law_SigningKeys_Create k w : wp (SigningKeys_Create k) w
    (upd CSigningKeys (rows_add_unless (fun x => sk_ID x ==? sk_ID k)
       (AlreadyExists "signing key" (sk_ID k)) (fun t => sk_set_created t k)) w);
  law_SigningKeys_GetByID id w : wp (SigningKeys_GetByID id) w
    (qry CSigningKeys (rows_find (fun k => sk_ID k ==? id) (NotFound "signing key" id)) w);
  law_SigningKeys_GetActive w : wp SigningKeys_GetActive w
    (qry CSigningKeys (rows_find sk_Active (NotFound "active signing key" "")) w);
  law_SigningKeys_GetAll w : wp SigningKeys_GetAll w (qry CSigningKeys (fun _ l => Ok l) w);
  law_SigningKeys_SetActive id w : wp (SigningKeys_SetActive id) w (upd CSigningKeys (rows_activate_signing id) w);
  law_SigningKeys_Delete id w : wp (SigningKeys_Delete id) w
    (upd CSigningKeys (rows_remove (fun k => sk_ID k ==? id) (NotFound "signing key" id)) w);
  law_Keys_GetByID kid w : wp (Keys_GetByID kid) w
    (qry CKeys (fun t f => rows_find (fun k => kp_Kid k ==? kid) (NotFound "signing key" kid) t f.1) w);
  law_Keys_GetActive w : wp Keys_GetActive w (qry CKeys rows_active_key w);
  law_Keys_GetAll w : wp Keys_GetAll w (qry CKeys (fun _ f => Ok f.1) w);
  law_Keys_Save k w : wp (Keys_Save k) w (upd CKeys (rows_put_key k) w);
  law_Keys_SetActive kid w : wp (Keys_SetActive kid) w (upd CKeys (rows_activate_key kid) w);
  law_Keys_Delete kid w : wp (Keys_Delete kid) w (upd CKeys (rows_delete_key kid) w);
}.
