(* ===== verification/Sqlite.v ===== *)
(** * internal/store/sqlite: the store over a SQLite database

    Each method runs one statement, a statement and a look at why it matched
    nothing, or a transaction; a statement or a transaction is one event, as
    the pool of connections has one.  Method by method in the order of the
    package's files, under the names of [FileStore]; [SQLiteStore] is the
    store the methods make. *)
From S2P Require Import Prelude GoTime GoText Errors Domain Database Lockout PendingLogins World Run Store.
#[local] Open Scope Z_scope.
#[local] Open Scope go_scope.

(** ** store.go *)

Definition strings_Contains (s sub : string) : bool :=
  match String.index 0 sub s with Some _ => true | None => false end.

Definition isMemory (path : string) : bool :=
  (path ==? ":memory:") || strings_Contains path "mode=memory".

Definition dsn (path : string) : string :=
  if HasPrefix path "file:" then path
  else
    let pragmas := ["busy_timeout(5000)"; "foreign_keys(ON)"]
      ++ (if negb (isMemory path) then ["journal_mode(WAL)"; "synchronous(NORMAL)"] else []) in
    "file:" +:+ path +:+ "?_pragma=" +:+ Join pragmas "&_pragma=".

(** The error value of a failed statement. *)
Definition sql_error (e : SqlErr) : error :=
  match e with
  | Unique name => Plain ("constraint failed: UNIQUE constraint failed: " +:+ name)
  | ForeignKey => Plain "constraint failed: FOREIGN KEY constraint failed"
  | Failed => Plain "sqlite"
  | App e => e
  end.

Definition isUniqueViolation (e : SqlErr) : bool := match e with Unique _ => true | _ => false end.
Definition isForeignKeyViolation (e : SqlErr) : bool := match e with ForeignKey => true | _ => false end.
Definition violatesUserEmail (e : SqlErr) : bool :=
  isUniqueViolation e && strings_Contains (Error_string (sql_error e)) "users_email_idx".
Definition referenceError (what : string) : error :=
  InvalidInput ("referenced " +:+ what +:+ " does not exist").

Definition rowsAffected (n : Z) : bool := 0 <? n.

(** What the methods make of a result: of a statement without one, of one
    that must have matched a row, of a row that must be there, of rows. *)
Definition done_or {X A} (a : A) (wrap : SqlErr -> error) (r : SqlErr + X) : res A :=
  match r with inr _ => Ok a | inl e => Err (wrap e) end.
Definition affected {A} (a : A) (missing : error) (wrap : SqlErr -> error) (r : SqlErr + Z) : res A :=
  match r with
  | inr n => if rowsAffected n then Ok a else Err missing
  | inl e => Err (wrap e)
  end.
Definition scanned {A} (missing : error) (message : string) (r : SqlErr + option A) : res A :=
  match r with
  | inr (Some a) => Ok a
  | inr None => Err missing
  | inl e => Err (Internal message (sql_error e))
  end.
Definition internal (message : string) (e : SqlErr) : error := Internal message (sql_error e).
Definition listed {A B} (f : list A -> list B) (message : string) (r : SqlErr + list A) : res (list B) :=
  match r with inr l => Ok (f l) | inl e => Err (internal message e) end.

(** ORDER BY one column, and a second where the first is equal. *)
Definition by_time {A} (at_ : A -> Z) (id : A -> string) (a b : A) : bool :=
  Before (at_ a) (at_ b) || ((at_ a =? at_ b) && String.ltb (id a) (id b)).

Section sqlite.
Context `{Sqlite}.

(** ** users.go *)

Definition userRepository_Create (user : User) : Prog (res User) :=
  let! t := now in
  let user := user_set_times t t user in
  let! r := sql (fun _ => INSERT TUsers user) in
  Ret (done_or user (fun e =>
    if violatesUserEmail e then AlreadyExists "user with email" (user_Email user)
    else if isUniqueViolation e then AlreadyExists "user" (user_ID user)
    else internal "failed to create user" e) r).

Definition userRepository_GetByID (id : string) : Prog (res User) :=
  let! r := sql (fun _ => SELECT_row TUsers (fun u => user_ID u ==? id)) in
  Ret (scanned (NotFound "user" id) "failed to load user" r).

Definition userRepository_GetByEmail (email : string) : Prog (res User) :=
  let! r := sql (fun _ => SELECT_row TUsers (fun u => LOWER (user_Email u) ==? LOWER email)) in
  Ret (scanned (NotFound "user with email" email) "failed to load user" r).

(** Every column but the key and [created_at]. *)
Definition userRepository_Update (user : User) : Prog (res User) :=
  let! t := now in
  let user := user_set_updated t user in
  let! r := sql (fun _ => UPDATE TUsers (fun u => user_ID u ==? user_ID user)
                            (fun u => user_set_times (user_CreatedAt u) (user_UpdatedAt user) user)) in
  Ret (affected user (NotFound "user" (user_ID user)) (fun e =>
    if violatesUserEmail e then AlreadyExists "user with email" (user_Email user)
    else internal "failed to update user" e) r).

Definition userRepository_Delete (id : string) : Prog (res unit) :=
  let! r := sql (fun _ => DELETE TUsers (fun u => user_ID u ==? id)) in
  Ret (affected tt (NotFound "user" id) (internal "failed to delete user") r).

Definition userRepository_List : Prog (res (list User)) :=
  let! r := sql (fun _ => SELECT TUsers (fun _ => true)) in
  Ret (listed (sort_by (by_time user_CreatedAt user_ID)) "failed to list users" r).

(** ** clients.go *)

(** The columns of the lifetimes hold seconds. *)
Definition stored_client (c : Client) : Client :=
  let seconds d := Z.quot d Second * Second in
  let '(Build_Client i s n u g sc p sk m a r cr up) := c in
  Build_Client i s n u g sc p sk m (seconds a) (seconds r) cr up.

Definition clientRepository_Create (client : Client) : Prog (res Client) :=
  let! t := now in
  let client := client_set_times t t client in
  let! r := sql (fun _ => INSERT TClients (stored_client client)) in
  Ret (done_or client (fun e =>
    if isUniqueViolation e then AlreadyExists "client" (client_ID client)
    else internal "failed to create client" e) r).

Definition clientRepository_GetByID (id : string) : Prog (res Client) :=
  let! r := sql (fun _ => SELECT_row TClients (fun c => client_ID c ==? id)) in
  Ret (scanned (NotFound "client" id) "failed to load client" r).

Definition clientRepository_Update (client : Client) : Prog (res Client) :=
  let! t := now in
  let client := client_set_times (client_CreatedAt client) t client in
  let! r := sql (fun _ => UPDATE TClients (fun c => client_ID c ==? client_ID client)
    (fun c => client_set_times (client_CreatedAt c) (client_UpdatedAt client) (stored_client client))) in
  Ret (affected client (NotFound "client" (client_ID client)) (internal "failed to update client") r).

Definition clientRepository_Delete (id : string) : Prog (res unit) :=
  let! r := sql (fun _ => DELETE TClients (fun c => client_ID c ==? id)) in
  Ret (affected tt (NotFound "client" id) (internal "failed to delete client") r).

Definition clientRepository_List : Prog (res (list Client)) :=
  let! r := sql (fun _ => SELECT TClients (fun _ => true)) in
  Ret (listed (sort_by (by_time client_CreatedAt client_ID)) "failed to list clients" r).

(** ** sessions.go *)

Definition sessionRepository_Create (session : Session) : Prog (res Session) :=
  let! t := now in
  let session := session_set_created t session in
  let! r := sql (fun _ => INSERT TSessions session) in
  Ret (done_or session (fun e =>
    if isForeignKeyViolation e then referenceError "user"
    else if isUniqueViolation e then AlreadyExists "session" (session_ID session)
    else internal "failed to create session" e) r).

Definition sessionRepository_GetByID (id : string) : Prog (res Session) :=
  let! r := sql (fun _ => SELECT_row TSessions (fun s => session_ID s ==? id)) in
  Ret (scanned (NotFound "session" id) "failed to load session" r).

Definition sessionRepository_Delete (id : string) : Prog (res unit) :=
  let! r := sql (fun _ => DELETE TSessions (fun s => session_ID s ==? id)) in
  Ret (affected tt (NotFound "session" id) (internal "failed to delete session") r).

Definition sessionRepository_DeleteByUserID (userID : string) : Prog (res unit) :=
  let! r := sql (fun _ => DELETE TSessions (fun s => session_UserID s ==? userID)) in
  Ret (done_or tt (internal "failed to delete sessions") r).

Definition sessionRepository_DeleteExpired : Prog (res unit) :=
  let! t := now in
  let! r := sql (fun _ => DELETE TSessions (fun s => session_ExpiresAt s <=? t)) in
  Ret (done_or tt (internal "failed to delete expired sessions") r).

Definition sessionRepository_ListByUserID (userID : string) : Prog (res (list Session)) :=
  let! t := now in
  let! r := sql (fun _ => SELECT TSessions (fun s => (session_UserID s ==? userID) && (t <? session_ExpiresAt s))) in
  Ret (listed (sort_by (fun a b => After (session_CreatedAt a) (session_CreatedAt b))) "failed to list sessions" r).

(** ** authcodes.go *)

Definition authCodeRepository_Create (code : AuthCode) : Prog (res AuthCode) :=
  let! t := now in
  let code := ac_set_created t code in
  let! r := sql (fun _ => INSERT TAuthCodes code) in
  Ret (done_or code (fun e =>
    if isForeignKeyViolation e then referenceError "user or client"
    else if isUniqueViolation e then AlreadyExists "auth code" (ac_Code code)
    else internal "failed to create auth code" e) r).

Definition authCodeRepository_GetByCode (code : string) : Prog (res AuthCode) :=
  let! r := sql (fun _ => SELECT_row TAuthCodes (fun a => ac_Code a ==? code)) in
  Ret (scanned (NotFound "auth code" code) "failed to load auth code" r).

(** The look at what the update missed is a second statement. *)
Definition authCodeRepository_MarkUsed (code : string) : Prog (res unit) :=
  let! r := sql (fun _ => UPDATE TAuthCodes (fun a => (ac_Code a ==? code) && negb (ac_Used a)) ac_set_used) in
  match r with
  | inl e => ret_err (internal "failed to mark auth code used" e)
  | inr n =>
      if rowsAffected n then ret_ok tt
      else
        let! exists_ := sql (fun _ => COUNT TAuthCodes (fun a => ac_Code a ==? code)) in
        ret_err (match exists_ with
                 | inr n => if 0 <? n then Conflict "auth code already used" else NotFound "auth code" code
                 | inl _ => NotFound "auth code" code
                 end)
  end.

Definition authCodeRepository_Delete (code : string) : Prog (res unit) :=
  let! r := sql (fun _ => DELETE TAuthCodes (fun a => ac_Code a ==? code)) in
  Ret (affected tt (NotFound "auth code" code) (internal "failed to delete auth code") r).

Definition authCodeRepository_DeleteExpired : Prog (res unit) :=
  let! t := now in
  let! r := sql (fun _ => DELETE TAuthCodes (fun a => ac_ExpiresAt a <=? t)) in
  Ret (done_or tt (internal "failed to delete expired auth codes") r).

(** ** revocations.go *)

Definition kind_key : constraint Revocation :=
  on "token_revocations.kind, token_revocations.key" (fun r => [rv_Kind r; rv_Key r]).

Definition upsertRevocation (kind key : string) (notBefore expiresAt : Z) : Tx unit :=
  INSERT_or_update TTokenRevocations kind_key
    (fun old => {| rv_Kind := rv_Kind old; rv_Key := rv_Key old; rv_NotBefore := Z.max (rv_NotBefore old) notBefore;
                   rv_ExpiresAt := Z.max (rv_ExpiresAt old) expiresAt |})
    {| rv_Kind := kind; rv_Key := key; rv_NotBefore := notBefore; rv_ExpiresAt := expiresAt |}.

Definition record_revocation (kind key : string) (notBefore expiresAt : Z) : Prog (res unit) :=
  let! r := sql (fun _ => upsertRevocation kind key notBefore expiresAt) in
  Ret (done_or tt (internal "failed to record revocation") r).

Definition revocationRepository_RevokeAccessToken (jti : string) (expiresAt : Z) : Prog (res unit) :=
  let! t := now in
  record_revocation RevocationJTI jti t expiresAt.

Definition revocationRepository_RevokeBefore (kind key : string) (notBefore : Z) : Prog (res unit) :=
  record_revocation kind key notBefore (Add notBefore RevocationRetention).

Definition revoked_by (jti userID clientID : string) (iat : Z) (r : Revocation) : bool :=
  let mark kind key := (rv_Kind r ==? kind) && (rv_Key r ==? key) in
  mark RevocationJTI jti
  || mark RevocationUser userID && (iat <=? rv_NotBefore r)
  || mark RevocationUserClient (UserClientKey userID clientID) && (iat <=? rv_NotBefore r)
  || mark RevocationClient clientID && (iat <=? rv_NotBefore r).

Definition revocationRepository_IsRevoked (jti userID clientID : string) (issuedAt : Z) : Prog (res bool) :=
  let! r := sql (fun _ => SELECT_row TTokenRevocations (revoked_by jti userID clientID issuedAt)) in
  Ret (match r with
       | inr row => Ok (bool_decide (is_Some row))
       | inl e => Err (internal "failed to check revocation" e)
       end).

Definition revocationRepository_DeleteExpired : Prog (res unit) :=
  let! t := now in
  let! r := sql (fun _ => DELETE TTokenRevocations (fun rv => rv_ExpiresAt rv <=? t)) in
  Ret (done_or tt (internal "failed to delete expired revocations") r).

(** ** tokens.go *)

Definition tokenRepository_Create (token : Token) : Prog (res Token) :=
  let! t := now in
  let token := token_set_created t token in
  let! r := sql (fun _ => INSERT TTokens token) in
  Ret (done_or token (fun e =>
    if isForeignKeyViolation e then referenceError "user or client"
    else if isUniqueViolation e then AlreadyExists "token" (token_ID token)
    else internal "failed to create token" e) r).

Definition tokenRepository_GetByID (id : string) : Prog (res Token) :=
  let! r := sql (fun _ => SELECT_row TTokens (fun t => token_ID t ==? id)) in
  Ret (scanned (NotFound "token" id) "failed to load token" r).

(** The error of a step inside a transaction. *)
Definition tx_wrap {A} (g : SqlErr -> error) (m : Tx A) : Tx A := fun db =>
  match m db with inl e => inl (App (g e)) | r => r end.

(** What a method with a transaction returns: the transaction's own error,
    or the wrapped one of the driver. *)
Definition committed {A} (message : string) (r : SqlErr + A) : res unit :=
  match r with
  | inr _ => Ok tt
  | inl (App e) => Err e
  | inl e => Err (internal message e)
  end.

(** [revokeGrantAccessTokens], at the instant of the transaction. *)
Definition revokeGrantAccessTokens (kind key : string) (t : Z) : Tx unit :=
  tx_wrap (internal "failed to record revocation") (upsertRevocation kind key t (Add t RevocationRetention)).

Definition tokenRepository_Revoke (id : string) : Prog (res unit) :=
  let! r := sql (fun t =>
    let* row := SELECT_row TTokens (fun x => token_ID x ==? id) in
    match row with
    | None => tx_fail (App (NotFound "token" id))
    | Some token =>
        let* _ := UPDATE TTokens (fun x => token_ID x ==? id) token_set_revoked in
        revokeGrantAccessTokens RevocationUserClient (UserClientKey (token_UserID token) (token_ClientID token)) t
    end) in
  Ret (committed "failed to revoke token" r).

Definition tokenRepository_Rotate (id : string) : Prog (res unit) :=
  let! r := sql (fun _ => UPDATE TTokens (fun t => (token_ID t ==? id) && negb (token_Revoked t)) token_set_revoked) in
  match r with
  | inl e => ret_err (internal "failed to rotate token" e)
  | inr n =>
      if rowsAffected n then ret_ok tt
      else
        let! exists_ := sql (fun _ => COUNT TTokens (fun t => token_ID t ==? id)) in
        ret_err (match exists_ with
                 | inr n => if 0 <? n then Conflict "refresh token already used" else NotFound "token" id
                 | inl _ => NotFound "token" id
                 end)
  end.

Definition revokeWhere (where_ : Token -> bool) (kind key : string) : Prog (res unit) :=
  let! r := sql (fun t =>
    let* _ := UPDATE TTokens where_ token_set_revoked in
    revokeGrantAccessTokens kind key t) in
  Ret (committed "failed to revoke tokens" r).

Definition tokenRepository_RevokeByUserID (userID : string) : Prog (res unit) :=
  revokeWhere (fun t => token_UserID t ==? userID) RevocationUser userID.
Definition tokenRepository_RevokeByClientID (clientID : string) : Prog (res unit) :=
  revokeWhere (fun t => token_ClientID t ==? clientID) RevocationClient clientID.

Definition tokenRepository_DeleteExpired : Prog (res unit) :=
  let! t := now in
  let! r := sql (fun _ => DELETE TTokens (fun x => token_ExpiresAt x <=? t)) in
  Ret (done_or tt (internal "failed to delete expired tokens") r).

Definition tokenRepository_ListByUserID (userID : string) : Prog (res (list Token)) :=
  let! t := now in
  let! r := sql (fun _ => SELECT TTokens (fun x => (token_UserID x ==? userID) && (t <? token_ExpiresAt x))) in
  Ret (listed (sort_by (fun a b => After (token_CreatedAt a) (token_CreatedAt b))) "failed to list tokens" r).

(** ** consents.go *)

Definition user_client : constraint Consent :=
  on "consents.user_id, consents.client_id" (fun c => [consent_UserID c; consent_ClientID c]).

(** The row keeps its ID; the caller's object has its own. *)
Definition consentRepository_Upsert (c : Consent) : Prog (res Consent) :=
  let! id := (if consent_ID c ==? "" then newUUID else Ret (consent_ID c)) in
  let! t := now in
  let c := consent_set id t c in
  let! r := sql (fun _ => INSERT_or_update TConsents user_client
    (fun old => {| consent_ID := consent_ID old; consent_UserID := consent_UserID old;
                   consent_ClientID := consent_ClientID old; consent_Scopes := consent_Scopes c;
                   consent_GrantedAt := consent_GrantedAt c |}) c) in
  Ret (done_or c (fun e =>
    if isForeignKeyViolation e then referenceError "user or client" else internal "failed to save consent" e) r).

Definition consent_is (userID clientID : string) (c : Consent) : bool :=
  (consent_UserID c ==? userID) && (consent_ClientID c ==? clientID).

Definition consentRepository_Get (userID clientID : string) : Prog (res Consent) :=
  let! r := sql (fun _ => SELECT_row TConsents (consent_is userID clientID)) in
  Ret (scanned (NotFound "consent" (userID +:+ "/" +:+ clientID)) "failed to load consent" r).

Definition consentRepository_ListByUserID (userID : string) : Prog (res (list Consent)) :=
  let! r := sql (fun _ => SELECT TConsents (fun c => consent_UserID c ==? userID)) in
  Ret (listed (sort_by (by_time consent_GrantedAt consent_ClientID)) "failed to list consents" r).

Definition consentRepository_Delete (userID clientID : string) : Prog (res unit) :=
  let! r := sql (fun _ => DELETE TConsents (consent_is userID clientID)) in
  Ret (affected tt (NotFound "consent" (userID +:+ "/" +:+ clientID)) (internal "failed to delete consent") r).

Definition consentRepository_DeleteByUserID (userID : string) : Prog (res unit) :=
  let! r := sql (fun _ => DELETE TConsents (fun c => consent_UserID c ==? userID)) in
  Ret (done_or tt (internal "failed to delete consents") r).

(** ** verificationtokens.go *)

Definition verificationTokenRepository_Create (token : VerificationToken) : Prog (res VerificationToken) :=
  let! t := now in
  let token := vt_set_created t token in
  let! r := sql (fun _ => INSERT TVerificationTokens token) in
  Ret (done_or token (fun e =>
    if isForeignKeyViolation e then referenceError "user"
    else if isUniqueViolation e then AlreadyExists "verification token" (vt_TokenHash token)
    else internal "failed to create verification token" e) r).

Definition verificationTokenRepository_GetByHash (hash : string) : Prog (res VerificationToken) :=
  let! r := sql (fun _ => SELECT_row TVerificationTokens (fun t => vt_TokenHash t ==? hash)) in
  Ret (scanned (NotFound "verification token" "") "failed to load verification token" r).

Definition verificationTokenRepository_MarkUsed (hash : string) : Prog (res unit) :=
  let! r := sql (fun _ => UPDATE TVerificationTokens (fun t => vt_TokenHash t ==? hash) vt_set_used) in
  Ret (affected tt (NotFound "verification token" "") (internal "failed to mark verification token used") r).

Definition verificationTokenRepository_DeleteByUserID (userID purpose : string) : Prog (res unit) :=
  let! r := (if purpose ==? "" then sql (fun _ => DELETE TVerificationTokens (fun t => vt_UserID t ==? userID))
             else sql (fun _ => DELETE TVerificationTokens (fun t =>
               (vt_UserID t ==? userID) && (vt_Purpose t ==? purpose)))) in
  Ret (done_or tt (internal "failed to delete verification tokens") r).

Definition verificationTokenRepository_DeleteExpired : Prog (res unit) :=
  let! t := now in
  let! r := sql (fun _ => DELETE TVerificationTokens (fun x => vt_ExpiresAt x <=? t)) in
  Ret (done_or tt (internal "failed to delete expired verification tokens") r).

(** ** groups.go *)

Definition groupRepository_Create (group : Group) : Prog (res Group) :=
  let! t := now in
  let group := group_set_times t t group in
  let! r := sql (fun _ => INSERT TGroups group) in
  Ret (done_or group (fun e =>
    if isUniqueViolation e && strings_Contains (Error_string (sql_error e)) "groups_name_idx"
    then AlreadyExists "group with name" (group_Name group)
    else if isUniqueViolation e then AlreadyExists "group" (group_ID group)
    else internal "failed to create group" e) r).

Definition groupRepository_GetByID (id : string) : Prog (res Group) :=
  let! r := sql (fun _ => SELECT_row TGroups (fun g => group_ID g ==? id)) in
  Ret (scanned (NotFound "group" id) "failed to load group" r).

Definition groupRepository_GetByName (name : string) : Prog (res Group) :=
  let! r := sql (fun _ => SELECT_row TGroups (fun g => LOWER (group_Name g) ==? LOWER name)) in
  Ret (scanned (NotFound "group with name" name) "failed to load group" r).

Definition groupRepository_Update (group : Group) : Prog (res Group) :=
  let! t := now in
  let group := group_set_times (group_CreatedAt group) t group in
  let! r := sql (fun _ => UPDATE TGroups (fun g => group_ID g ==? group_ID group)
                            (fun g => group_set_times (group_CreatedAt g) t group)) in
  Ret (affected group (NotFound "group" (group_ID group)) (fun e =>
    if isUniqueViolation e then AlreadyExists "group with name" (group_Name group)
    else internal "failed to update group" e) r).

Definition groupRepository_Delete (id : string) : Prog (res unit) :=
  let! r := sql (fun _ => DELETE TGroups (fun g => group_ID g ==? id)) in
  Ret (affected tt (NotFound "group" id) (internal "failed to delete group") r).

Definition by_lower {A} (text : A -> string) (a b : A) : bool := String.ltb (LOWER (text a)) (LOWER (text b)).

Definition groupRepository_List : Prog (res (list Group)) :=
  let! r := sql (fun _ => SELECT TGroups (fun _ => true)) in
  Ret (listed (sort_by (by_lower group_Name)) "failed to list groups" r).

Definition groupRepository_AddMember (groupID userID : string) : Prog (res unit) :=
  let! r := sql (fun _ => INSERT_or_nothing TUserGroups (userID, groupID)) in
  Ret (done_or tt (fun e =>
    if isForeignKeyViolation e then referenceError "user or group" else internal "failed to add group member" e) r).

Definition is_member (userID groupID : string) (m : string * string) : bool :=
  (m.1 ==? userID) && (m.2 ==? groupID).

Definition groupRepository_RemoveMember (groupID userID : string) : Prog (res unit) :=
  let! r := sql (fun _ => DELETE TUserGroups (is_member userID groupID)) in
  Ret (affected tt (NotFound "group membership" (userID +:+ "/" +:+ groupID)) (internal "failed to remove group member") r).

(** The two joins: of memberships with users, and of groups with
    memberships. *)
Definition members_of (groupID : string) : Tx (list User) :=
  let* ms := SELECT TUserGroups (fun m => m.2 ==? groupID) in
  let* users := SELECT TUsers (fun _ => true) in
  tx_ret (concat (map (fun m => List.filter (fun u => user_ID u ==? m.1) users) ms)).

Definition groups_of (userID : string) : Tx (list Group) :=
  let* groups := SELECT TGroups (fun _ => true) in
  let* ms := SELECT TUserGroups (fun m => m.1 ==? userID) in
  tx_ret (concat (map (fun g => map (fun _ => g) (List.filter (fun m => m.2 ==? group_ID g) ms)) groups)).

Definition groupRepository_MemberIDs (groupID : string) : Prog (res (list string)) :=
  let! r := sql (fun _ => members_of groupID) in
  Ret (listed (fun l => map user_ID (sort_by (by_lower user_Email) l)) "failed to list group members" r).

Definition groupRepository_GroupsForUser (userID : string) : Prog (res (list Group)) :=
  let! r := sql (fun _ => groups_of userID) in
  Ret (listed (sort_by (by_lower group_Name)) "failed to list groups" r).

Definition groupRepository_RemoveUser (userID : string) : Prog (res unit) :=
  let! r := sql (fun _ => DELETE TUserGroups (fun m => m.1 ==? userID)) in
  Ret (done_or tt (internal "failed to remove user from groups") r).

(** ** audit.go *)

Definition auditRepository_Append (e : AuditEvent) : Prog (res AuditEvent) :=
  let! id := (if ev_ID e ==? "" then newUUID else Ret (ev_ID e)) in
  let! at_ := (if IsZero (ev_At e) then now else Ret (ev_At e)) in
  let e := ev_set_at at_ (ev_set_id id e) in
  let! r := sql (fun _ => INSERT TAuditEvents e) in
  Ret (done_or e (internal "failed to append audit event") r).

Definition auditRepository_List (limit : Z) : Prog (res (list AuditEvent)) :=
  let limit := if limit <=? 0 then 100 else limit in
  let! r := sql (fun _ => SELECT TAuditEvents (fun _ => true)) in
  Ret (listed (fun l => take (Z.to_nat limit) (sort_by (fun a b => by_time ev_At ev_ID b a) l))
         "failed to list audit events" r).

Definition auditRepository_DeleteBefore (cutoff : Z) : Prog (res unit) :=
  let! r := sql (fun _ => DELETE TAuditEvents (fun e => ev_At e <? cutoff)) in
  Ret (done_or tt (internal "failed to prune audit events") r).

(** ** passkeys.go: a passkey that was never used has no time of use *)

Definition passkeyRepository_Create (p : Passkey) : Prog (res Passkey) :=
  let! t := now in
  let p := passkey_set_created t p in
  let! r := sql (fun _ => INSERT TPasskeys p) in
  Ret (done_or p (fun e =>
    if isForeignKeyViolation e then referenceError "user"
    else if isUniqueViolation e then AlreadyExists "passkey" (passkey_ID p)
    else internal "failed to create passkey" e) r).

Definition passkeyRepository_ListByUserID (userID : string) : Prog (res (list Passkey)) :=
  let! r := sql (fun _ => SELECT TPasskeys (fun p => passkey_UserID p ==? userID)) in
  Ret (listed (sort_by (fun a b => Before (passkey_CreatedAt a) (passkey_CreatedAt b))) "failed to list passkeys" r).

Definition passkey_is (userID id : string) (p : Passkey) : bool := (passkey_ID p ==? id) && (passkey_UserID p ==? userID).

(** Every column but the keys and [created_at]. *)
Definition passkeyRepository_Update (p : Passkey) : Prog (res unit) :=
  let! r := sql (fun _ => UPDATE TPasskeys (passkey_is (passkey_UserID p) (passkey_ID p))
                            (fun old => passkey_set_created (passkey_CreatedAt old) p)) in
  Ret (affected tt (NotFound "passkey" (passkey_ID p)) (internal "failed to update passkey") r).

Definition passkeyRepository_Delete (userID id : string) : Prog (res unit) :=
  let! r := sql (fun _ => DELETE TPasskeys (passkey_is userID id)) in
  Ret (affected tt (NotFound "passkey" id) (internal "failed to delete passkey") r).

Definition passkeyRepository_DeleteByUserID (userID : string) : Prog (res unit) :=
  let! r := sql (fun _ => DELETE TPasskeys (fun p => passkey_UserID p ==? userID)) in
  Ret (done_or tt (internal "failed to delete passkeys") r).

(** ** signingkeys.go *)

Definition signingKeyRepository_Create (key : SigningKey) : Prog (res SigningKey) :=
  let! t := now in
  let key := sk_set_created t key in
  let! r := sql (fun _ =>
    let* _ := (if sk_Active key then UPDATE TSigningKeys sk_Active (sk_set_active false) else tx_ret 0) in
    INSERT TSigningKeys key) in
  Ret (done_or key (fun e =>
    if isUniqueViolation e then AlreadyExists "signing key" (sk_ID key)
    else internal "failed to create signing key" e) r).

Definition signingKeyRepository_GetByID (id : string) : Prog (res SigningKey) :=
  let! r := sql (fun _ => SELECT_row TSigningKeys (fun k => sk_ID k ==? id)) in
  Ret (scanned (NotFound "signing key" id) "failed to load signing key" r).

Definition signingKeyRepository_GetActive : Prog (res SigningKey) :=
  let! r := sql (fun _ => SELECT_row TSigningKeys sk_Active) in
  Ret (scanned (NotFound "active signing key" "") "failed to load active signing key" r).

Definition signingKeyRepository_GetAll : Prog (res (list SigningKey)) :=
  let! r := sql (fun _ => SELECT TSigningKeys (fun _ => true)) in
  Ret (listed (sort_by (by_time sk_CreatedAt sk_ID)) "failed to list signing keys" r).

Definition setActiveKey (id : string) : Tx unit :=
  let* exists_ := COUNT TSigningKeys (fun k => sk_ID k ==? id) in
  if exists_ =? 0 then tx_fail (App (NotFound "signing key" id))
  else
    let* _ := UPDATE TSigningKeys (fun k => sk_Active k && (sk_ID k !=? id)) (sk_set_active false) in
    let* _ := UPDATE TSigningKeys (fun k => sk_ID k ==? id) (sk_set_active true) in
    tx_ret tt.

(** An error of the transaction that says NotFound is returned as it is. *)
Definition activated (message : string) (r : SqlErr + unit) : res unit :=
  match r with
  | inr _ => Ok tt
  | inl e => if IsCode (sql_error e) CodeNotFound then Err (sql_error e) else Err (internal message e)
  end.

Definition signingKeyRepository_SetActive (id : string) : Prog (res unit) :=
  let! r := sql (fun _ => setActiveKey id) in
  Ret (activated "failed to activate signing key" r).

Definition signingKeyRepository_Delete (id : string) : Prog (res unit) :=
  let! r := sql (fun _ => DELETE TSigningKeys (fun k => sk_ID k ==? id)) in
  Ret (affected tt (NotFound "signing key" id) (internal "failed to delete signing key") r).

(** ** keys.go: the same table as the key service sees it *)

Definition scanKeyPair (k : SigningKey) : KeyPair := {|
  kp_Kid := sk_ID k; kp_Alg := sk_Algorithm k; kp_PrivateKey := None; kp_PublicKey := None;
  kp_CreatedAt := sk_CreatedAt k; kp_ExpiresAt := sk_ExpiresAt k; kp_Active := sk_Active k;
  kp_PrivateKeyPEM := Some (sk_PrivateKey k); kp_PublicKeyPEM := Some (sk_PublicKey k) |}.

Definition nonNilBytes (b : option string) : string := default "" b.

Definition key_row (k : KeyPair) : SigningKey := {|
  sk_ID := kp_Kid k; sk_Algorithm := kp_Alg k; sk_PrivateKey := nonNilBytes (kp_PrivateKeyPEM k);
  sk_PublicKey := nonNilBytes (kp_PublicKeyPEM k); sk_Active := kp_Active k;
  sk_CreatedAt := kp_CreatedAt k; sk_ExpiresAt := kp_ExpiresAt k |}.

Definition map_row {A B} (f : A -> B) (r : SqlErr + option A) : SqlErr + option B :=
  match r with inr o => inr (f <$> o) | inl e => inl e end.

Definition KeyRepository_GetByID (kid : string) : Prog (res KeyPair) :=
  let! r := sql (fun _ => SELECT_row TSigningKeys (fun k => sk_ID k ==? kid)) in
  Ret (scanned (NotFound "signing key" kid) "failed to load key" (map_row scanKeyPair r)).

Definition KeyRepository_GetActive : Prog (res KeyPair) :=
  let! r := sql (fun _ => SELECT_row TSigningKeys sk_Active) in
  Ret (scanned (NotFound "active signing key" "") "failed to load active key" (map_row scanKeyPair r)).

Definition KeyRepository_GetAll : Prog (res (list KeyPair)) :=
  let! r := sql (fun _ => SELECT TSigningKeys (fun _ => true)) in
  Ret (listed (fun l => map scanKeyPair (sort_by (by_time sk_CreatedAt sk_ID) l)) "failed to load keys" r).

Definition save_key (k : SigningKey) : Tx unit :=
  let* _ := (if sk_Active k
             then UPDATE TSigningKeys (fun x => sk_Active x && (sk_ID x !=? sk_ID k)) (sk_set_active false)
             else tx_ret 0) in
  INSERT_or_update TSigningKeys (on "signing_keys.id" (fun k => [sk_ID k])) (fun _ => k) k.

Definition KeyRepository_Save (keyPair : KeyPair) : Prog (res unit) :=
  let! r := sql (fun _ => save_key (key_row keyPair)) in
  Ret (done_or tt (internal "failed to save key") r).

Definition KeyRepository_SetActive (kid : string) : Prog (res unit) :=
  let! r := sql (fun _ => setActiveKey kid) in
  Ret (activated "failed to activate key" r).

Definition KeyRepository_Delete (kid : string) : Prog (res unit) :=
  let! r := sql (fun _ => DELETE TSigningKeys (fun k => sk_ID k ==? kid)) in
  Ret (affected tt (NotFound "signing key" kid) (internal "failed to delete key") r).

(** ** The store *)

(** [Store.Checkpoint]: how the database is stored, not what is in it. *)
Definition Checkpoint : Prog (res unit) :=
  let! r := sql (fun _ => tx_ret tt) in
  Ret (done_or tt (fun e => Errorf "sqlite checkpoint" (sql_error e)) r).

Definition SQLiteStore : Store := {|
  Users_Create := userRepository_Create;
  Users_GetByID := userRepository_GetByID;
  Users_GetByEmail := userRepository_GetByEmail;
  Users_Update := userRepository_Update;
  Users_Delete := userRepository_Delete;
  Users_List := userRepository_List;
  Clients_Create := clientRepository_Create;
  Clients_GetByID := clientRepository_GetByID;
  Clients_Update := clientRepository_Update;
  Clients_Delete := clientRepository_Delete;
  Clients_List := clientRepository_List;
  Sessions_Create := sessionRepository_Create;
  Sessions_GetByID := sessionRepository_GetByID;
  Sessions_Delete := sessionRepository_Delete;
  Sessions_DeleteByUserID := sessionRepository_DeleteByUserID;
  Sessions_DeleteExpired := sessionRepository_DeleteExpired;
  Sessions_ListByUserID := sessionRepository_ListByUserID;
  AuthCodes_Create := authCodeRepository_Create;
  AuthCodes_GetByCode := authCodeRepository_GetByCode;
  AuthCodes_MarkUsed := authCodeRepository_MarkUsed;
  AuthCodes_Delete := authCodeRepository_Delete;
  AuthCodes_DeleteExpired := authCodeRepository_DeleteExpired;
  Tokens_Create := tokenRepository_Create;
  Tokens_GetByID := tokenRepository_GetByID;
  Tokens_Revoke := tokenRepository_Revoke;
  Tokens_RevokeByUserID := tokenRepository_RevokeByUserID;
  Tokens_RevokeByClientID := tokenRepository_RevokeByClientID;
  Tokens_Rotate := tokenRepository_Rotate;
  Tokens_DeleteExpired := tokenRepository_DeleteExpired;
  Tokens_ListByUserID := tokenRepository_ListByUserID;
  Revocations_RevokeAccessToken := revocationRepository_RevokeAccessToken;
  Revocations_RevokeBefore := revocationRepository_RevokeBefore;
  Revocations_IsRevoked := revocationRepository_IsRevoked;
  Revocations_DeleteExpired := revocationRepository_DeleteExpired;
  Consents_Upsert := consentRepository_Upsert;
  Consents_Get := consentRepository_Get;
  Consents_ListByUserID := consentRepository_ListByUserID;
  Consents_Delete := consentRepository_Delete;
  Consents_DeleteByUserID := consentRepository_DeleteByUserID;
  Passkeys_Create := passkeyRepository_Create;
  Passkeys_ListByUserID := passkeyRepository_ListByUserID;
  Passkeys_Update := passkeyRepository_Update;
  Passkeys_Delete := passkeyRepository_Delete;
  Passkeys_DeleteByUserID := passkeyRepository_DeleteByUserID;
  Verification_Create := verificationTokenRepository_Create;
  Verification_GetByHash := verificationTokenRepository_GetByHash;
  Verification_MarkUsed := verificationTokenRepository_MarkUsed;
  Verification_DeleteByUserID := verificationTokenRepository_DeleteByUserID;
  Verification_DeleteExpired := verificationTokenRepository_DeleteExpired;
  Groups_Create := groupRepository_Create;
  Groups_GetByID := groupRepository_GetByID;
  Groups_GetByName := groupRepository_GetByName;
  Groups_Update := groupRepository_Update;
  Groups_Delete := groupRepository_Delete;
  Groups_List := groupRepository_List;
  Groups_AddMember := groupRepository_AddMember;
  Groups_RemoveMember := groupRepository_RemoveMember;
  Groups_MemberIDs := groupRepository_MemberIDs;
  Groups_GroupsForUser := groupRepository_GroupsForUser;
  Groups_RemoveUser := groupRepository_RemoveUser;
  Audit_Append := auditRepository_Append;
  Audit_List := auditRepository_List;
  Audit_DeleteBefore := auditRepository_DeleteBefore;
  SigningKeys_Create := signingKeyRepository_Create;
  SigningKeys_GetByID := signingKeyRepository_GetByID;
  SigningKeys_GetActive := signingKeyRepository_GetActive;
  SigningKeys_GetAll := signingKeyRepository_GetAll;
  SigningKeys_SetActive := signingKeyRepository_SetActive;
  SigningKeys_Delete := signingKeyRepository_Delete;
  Keys_GetByID := KeyRepository_GetByID;
  Keys_GetActive := KeyRepository_GetActive;
  Keys_GetAll := KeyRepository_GetAll;
  Keys_Save := KeyRepository_Save;
  Keys_SetActive := KeyRepository_SetActive;
  Keys_Delete := KeyRepository_Delete
|}.
End sqlite.
