(* ===== verification/Exec.v ===== *)
(** * Symbolic execution

    Rules that run a program against the behaviours of its parts: the
    binds of [World], the clock, identifiers, critical sections, and the
    queries and updates of [Store]. *)
From S2P Require Import Prelude GoTime GoText Errors Domain Lockout PendingLogins World Run Store.
#[local] Open Scope Z_scope.
#[local] Open Scope go_scope.

Section wp.
Context `{Env}.

Lemma wp_mapErr {A} g (p : Prog (res A)) w Q :
  wp p w (fun r w' => Q (map_err g r) w') -> wp (mapErr g p) w Q.
Proof. intros Hp. unfold mapErr. apply wp_bind. eapply wp_mono; [exact Hp|done]. Qed.

(** [let?] with a known behaviour of the first program. *)
Lemma wp_try {A B} (p : Prog (res A)) (k : A -> Prog (res B)) w P Q :
  wp p w P ->
  (forall a w', P (Ok a) w' -> wp (k a) w' Q) ->
  (forall e w', P (Err e) w' -> Q (Err e) w') ->
  wp (let? a := p in k a) w Q.
Proof.
  intros Hp Hk He. eapply wp_step; [exact Hp|]. intros [a|e] w' HP; [by apply Hk|by apply He].
Qed.

(** What holds of every success. *)
Lemma run_Ok {A} (p : Prog (res A)) w a w' (Q : A -> World -> Prop) :
  run p w = (Ok a, w') ->
  wp p w (fun r w' => match r with Ok a => Q a w' | Err _ => True end) -> Q a w'.
Proof. intros Hr Hp. exact (wp_run _ _ _ _ _ Hp Hr). Qed.

Lemma wp_now w (Q : Z -> World -> Prop) :
  Q (env_clock (w_tick w)) (ticked 1 w) -> wp now w Q.
Proof. intros HQ. apply wp_intro. intros t w' Hr. cbv in Hr. by simplify_eq. Qed.

Lemma wp_uuid w (Q : string -> World -> Prop) :
  Q (env_uuid (w_tick w)) (ticked 1 w) -> wp newUUID w Q.
Proof. intros HQ. apply wp_intro. intros t w' Hr. cbv in Hr. by simplify_eq. Qed.

Lemma wp_emit o w (Q : unit -> World -> Prop) :
  Q tt (ticked 1 (with_out o w)) -> wp (emit o) w Q.
Proof. intros HQ. apply wp_intro. intros t w' Hr. cbv in Hr. by simplify_eq. Qed.

Lemma wp_ignore {A} (p : Prog A) w (Q : World -> Prop) :
  wp p w (fun _ => Q) -> wp (ignore p) w (fun _ => Q).
Proof. intros Hp. unfold ignore. apply wp_bind. eapply wp_mono; [exact Hp|]. intros a w' HQ. by apply wp_ret. Qed.

Lemma wp_touches {A} cs (p : Prog A) w : touches cs p -> wp p w (fun _ w' => frame cs w w').
Proof. intros Hp. apply Hp. Qed.

(** An instant of a part of a run is one of the run. *)
Lemma instant_in w1 w2 w w' t :
  (w_tick w <= w_tick w1)%nat -> (w_tick w2 <= w_tick w')%nat -> instant w1 w2 t -> instant w w' t.
Proof. intros Hw Hw' (n & Hn & ->). exists n. split; [lia|done]. Qed.

Lemma frame_ticked cs w n : frame cs w (ticked n w).
Proof. split; [simpl; lia|done]. Qed.

Lemma same_disk_ticked w n : same_disk w (ticked n w).
Proof. split; [simpl; lia|done]. Qed.

Lemma qry_same {A B} (c : Coll A) (f : Z -> A -> res B) w r w' :
  qry c f w r w' -> same_disk w w'.
Proof. by intros [? _]. Qed.

Lemma upd_frame {A B} (c : Coll A) (f : Z -> string -> A -> res (A * B)) w r w' :
  upd c f w r w' -> frame [name_of c] w w'.
Proof. by intros [? _]. Qed.
Lemma rows_find_Ok {A} (p : A -> bool) m t l x :
  rows_find p m t l = Ok x -> find_first p l = Some x.
Proof. unfold rows_find, find_or. by case_match; intros; simplify_eq. Qed.

Lemma rows_find_Err {A} (p : A -> bool) m t l e :
  rows_find p m t l = Err e -> find_first p l = None.
Proof. unfold rows_find, find_or. by case_match; intros; simplify_eq. Qed.

(** What the value of a file satisfies before and after an update. *)
Lemma upd_contents {A B} (c : Coll A) (f : Z -> string -> A -> res (A * B)) (P Q : A -> Prop) w r w' :
  (forall a, get c (w_disk w) = FData a -> P a) -> upd c f w r w' -> (forall a, P a -> Q a) ->
  (forall t id a a' b, P a -> f t id a = Ok (a', b) -> Q a') ->
  forall a, get c (w_disk w') = FData a -> Q a.
Proof.
  intros Hw Hu HPQ Hf a Ha. destruct r as [b|e].
  - apply upd_Ok in Hu as (a0 & t & id & a' & Hg & _ & _ & Hr & Hg'). rewrite Hg' in Ha.
    injection Ha as <-. by eapply Hf; [apply Hw|].
  - destruct (upd_Err_contents _ _ _ _ _ Hu) as [Hd|Hd]; [apply HPQ, Hw; congruence|congruence].
Qed.

(** [let?] on a program whose error is rewritten. *)
Lemma wp_try_map {A B} g (p : Prog (res A)) (k : A -> Prog (res B)) w P Q :
  wp p w P ->
  (forall a w', P (Ok a) w' -> wp (k a) w' Q) ->
  (forall e w', P (Err e) w' -> Q (Err (g e)) w') ->
  wp (let? a := mapErr g p in k a) w Q.
Proof.
  intros Hp Hk He. apply wp_bind, wp_mapErr. eapply wp_mono; [exact Hp|].
  intros [a|e] w' HP; simpl; [by apply Hk|]. apply wp_ret. by apply He.
Qed.

(** A row found by a query, in the world before it. *)
Lemma qry_find {A} (c : Coll (list A)) p m w x w' :
  qry c (rows_find p m) w (Ok x) w' ->
  exists rows, get c (w_disk w) = FData rows /\ find_first p rows = Some x.
Proof.
  intros Hq. apply qry_Ok in Hq as (rows & t & Hr & _ & Hf).
  exists rows. split; [done|]. by eapply rows_find_Ok.
Qed.

(** A critical section, with whatever happens to the lock left open. *)
Lemma wp_locked {A} l (p : Prog A) w (Q : A -> World -> Prop) :
  wp p (ticked 1 (with_held (l :: w_held w) w)) (fun a w1 =>
    Q a (ticked 1 (with_held (release l (w_held w1)) w1))) ->
  wp (locked l p) w Q.
Proof.
  intros Hp. unfold locked. apply wp_bind, wp_intro. intros [] w1 Hr1.
  unfold lock in Hr1. rewrite run_trigger in Hr1. simpl in Hr1. injection Hr1 as <-.
  apply wp_bind. eapply wp_mono; [exact Hp|]. intros a w2 HQ. apply wp_bind, wp_intro.
  intros [] w3 Hr3. unfold unlock in Hr3. rewrite run_trigger in Hr3. simpl in Hr3.
  injection Hr3 as <-. by apply wp_ret.
Qed.


(** The same when the part whose behaviour is known spans two binds. *)
Lemma wp_try_assoc {A B C} (p : Prog A) (q : A -> Prog (res B)) (k : B -> Prog (res C)) w P Q :
  wp (let! a := p in q a) w P ->
  (forall b w', P (Ok b) w' -> wp (k b) w' Q) ->
  (forall e w', P (Err e) w' -> Q (Err e) w') ->
  wp (let! a := p in let? b := q a in k b) w Q.
Proof.
  intros Hp Hk He. unfold wp in Hp. rewrite run_bind in Hp.
  apply wp_bind, wp_intro. intros a w1 Hr. rewrite Hr in Hp.
  eapply wp_try; [exact Hp|exact Hk|exact He].
Qed.
End wp.

(** ** What every program, or every event, preserves *)

Section keeps.
Context `{Env}.

(** [R] relates the world before a program to the world after it. *)
Definition keeps (R : relation World) {A} (p : Prog A) : Prop :=
  forall w, wp p w (fun _ w' => R w w').

Context (R : relation World) `{!PreOrder R}.

Lemma keeps_ret {A} (a : A) : keeps R (Ret a).
Proof. intros w. by apply wp_ret. Qed.

Lemma keeps_bind {A B} (p : Prog A) (f : A -> Prog B) :
  keeps R p -> (forall a, keeps R (f a)) -> keeps R (bind p f).
Proof.
  intros Hp Hf w. eapply wp_step; [apply Hp|]. intros a w1 Hw1. cbn beta in Hw1.
  eapply wp_mono; [apply Hf|]. intros b w2 Hw2. cbn beta in Hw2. by etransitivity.
Qed.

Lemma keeps_if {A} (b : bool) (p q : Prog A) : keeps R p -> keeps R q -> keeps R (if b then p else q).
Proof. by destruct b. Qed.

Lemma keeps_event {X} (e : Ev X) : (forall w, R w (perform e w).2) -> keeps R (trigger e).
Proof.
  intros He w. apply wp_intro. intros x w' Hr. rewrite run_trigger in Hr.
  specialize (He w). by rewrite Hr in He.
Qed.

(** A relation every event respects is respected by every program. *)
Lemma keeps_all {A} (p : Prog A) :
  (forall X (e : Ev X) w, R w (perform e w).2) -> keeps R p.
Proof.
  intros He. induction p as [a|X e k IH]; [apply keeps_ret|].
  intros w. unfold wp. cbn [run]. specialize (He X e w).
  destruct (perform e w) as [x w1]. cbn [snd] in He.
  specialize (IH x w1). unfold wp in IH. destruct (run (k x) w1) as [a w2].
  by etransitivity.
Qed.

Lemma wp_and_keeps {A} (p : Prog A) w (Q : A -> World -> Prop) :
  keeps R p -> wp p w Q -> wp p w (fun a w' => R w w' /\ Q a w').
Proof. intros Hp HQ. apply wp_and; [apply Hp|done]. Qed.

Lemma keeps_run {A} (p : Prog A) w a w' : keeps R p -> run p w = (a, w') -> R w w'.
Proof. intros Hp Hr. exact (wp_run p w _ a w' (Hp w) Hr). Qed.
End keeps.

(** Outputs are only added, and the count of events only grows. *)
Definition outputs_grow (w w' : World) : Prop :=
  w_out w `prefix_of` w_out w' /\ (w_tick w <= w_tick w')%nat.

#[global] Instance outputs_grow_preorder : PreOrder outputs_grow.
Proof.
  split; [by intros w|]. intros w1 w2 w3 [P1 T1] [P2 T2].
  split; [by etransitivity|lia].
Qed.

Lemma outputs_only_grow `{Env} {A} (p : Prog A) : keeps outputs_grow p.
Proof.
  apply (keeps_all outputs_grow). intros X e w. unfold outputs_grow.
  destruct e; cbn; try (split; [done|lia]).
  - destruct (env_io _); cbn; (split; [done|lia]).
  - destruct (f _ _ _); cbn; (split; [done|lia]).
  - repeat case_match; cbn; (split; [done|lia]).
  - destruct (env_mail _); cbn; (split; [|lia]); [by apply prefix_app_r|done].
  - split; [by apply prefix_app_r|lia].
Qed.

Lemma out_kept `{Env} {A} (p : Prog A) w a w' o :
  run p w = (a, w') -> o ∈ w_out w -> o ∈ w_out w'.
Proof.
  intros Hr Ho. destruct (keeps_run _ _ _ _ _ (outputs_only_grow p) Hr) as [[l ->] _].
  set_solver.
Qed.

(** The memory shared by requests is as before. *)
Definition same_mem (w w' : World) : Prop := w_mem w' = w_mem w.

#[global] Instance same_mem_preorder : PreOrder same_mem.
Proof. split; [done|]. intros w1 w2 w3 H1 H2. unfold same_mem in *. congruence. Qed.

Lemma same_mem_calm w w' : calm w w' -> same_mem w w'.
Proof. by intros (_ & ? & _). Qed.

Lemma same_mem_ret `{Env} {A} (a : A) : keeps same_mem (Ret a).
Proof. apply (keeps_ret same_mem). Qed.
Lemma same_mem_ret_ok `{Env} {A} (a : A) : keeps same_mem (ret_ok a).
Proof. apply (keeps_ret same_mem). Qed.
Lemma same_mem_ret_err `{Env} {A} e : keeps same_mem (@ret_err A e).
Proof. apply (keeps_ret same_mem). Qed.
Lemma same_mem_now `{Env} : keeps same_mem now.
Proof. apply (keeps_event same_mem). done. Qed.
Lemma same_mem_uuid `{Env} : keeps same_mem newUUID.
Proof. apply (keeps_event same_mem). done. Qed.
Lemma same_mem_rand `{Env} n : keeps same_mem (randRead n).
Proof. apply (keeps_event same_mem). done. Qed.
Lemma same_mem_emit `{Env} o : keeps same_mem (emit o).
Proof. apply (keeps_event same_mem). done. Qed.
Lemma same_mem_send `{Env} m : keeps same_mem (trigger (ESend m)).
Proof. apply (keeps_event same_mem). intros w. unfold same_mem. cbn. by destruct (env_mail _). Qed.
Lemma same_mem_qry `{Env} {A B} (c : Coll A) (f : Z -> A -> res B) p :
  (forall w, wp p w (qry c f w)) -> keeps same_mem p.
Proof. intros Hp w. eapply wp_mono; [apply Hp|]. intros r w' (_ & Hc & _). by apply same_mem_calm. Qed.
Lemma same_mem_upd `{Env} {A B} (c : Coll A) (f : Z -> string -> A -> res (A * B)) p :
  (forall w, wp p w (upd c f w)) -> keeps same_mem p.
Proof. intros Hp w. eapply wp_mono; [apply Hp|]. intros r w' (_ & Hc & _). by apply same_mem_calm. Qed.

#[export] Hint Resolve same_mem_ret same_mem_ret_ok same_mem_ret_err same_mem_now same_mem_uuid
  same_mem_rand same_mem_emit same_mem_send : keep.

Ltac keep_step :=
  match goal with
  | |- keeps _ (bind _ _) => apply keeps_bind; [typeclasses eauto| |intros ?]
  | |- keeps _ (if _ then _ else _) => apply keeps_if
  | |- keeps _ (match ?x with _ => _ end) => destruct x
  | |- keeps _ (let '_ := ?x in _) => destruct x
  | |- keeps _ _ => solve [auto with keep]
  end.
Ltac keep := repeat keep_step.
