(* ===== verification/StoreFacts.v ===== *)
(** * What the contract says of every operation of the store

    The law of an operation is found by [store_law]; from it follow the files
    the operation touches and that it leaves the memory of requests alone.
    Both are registered with the tactics [touch] and [keep]. *)
From S2P Require Import Prelude GoTime GoText Errors Domain Lockout PendingLogins World Run Store Exec.
#[local] Open Scope Z_scope.
#[local] Open Scope go_scope.

(** ** Footprints from the contract *)

Section footprints.
Context `{Env}.

Lemma touches_qry {A B} (c : Coll A) (f : Z -> A -> res B) p :
  (forall w, wp p w (qry c f w)) -> touches [] p.
Proof.
  intros Hp w. eapply wp_mono; [apply Hp|]. intros r w' Hq. cbn beta.
  by apply same_disk_frame, (qry_same _ _ _ _ _ Hq).
Qed.

Lemma touches_upd {A B} (c : Coll A) (f : Z -> string -> A -> res (A * B)) p :
  (forall w, wp p w (upd c f w)) -> touches [name_of c] p.
Proof.
  intros Hp w. eapply wp_mono; [apply Hp|]. intros r w' Hu. cbn beta.
  by apply (upd_frame _ _ _ _ _ Hu).
Qed.

Lemma upd_then_frame {A A' B B'} (c : Coll A) f (c' : Coll A') (g : B -> Z -> string -> A' -> res (A' * B'))
    w r w' :
  upd_then c f c' g w r w' -> frame [name_of c; name_of c'] w w'.
Proof.
  intros (r1 & w1 & Hu & Hr). apply upd_frame in Hu.
  apply (frame_weaken _ [name_of c; name_of c']) in Hu; [|set_solver].
  destruct r1 as [b|e]; [|by destruct Hr as [_ ->]].
  apply upd_frame in Hr. apply (frame_weaken _ [name_of c; name_of c']) in Hr; [|set_solver].
  by etransitivity.
Qed.

Lemma touches_upd_then {A A' B B'} (c : Coll A) f (c' : Coll A')
    (g : B -> Z -> string -> A' -> res (A' * B')) p :
  (forall w, wp p w (upd_then c f c' g w)) -> touches [name_of c; name_of c'] p.
Proof.
  intros Hp w. eapply wp_mono; [apply Hp|]. intros r w' Hu. cbn beta.
  by apply (upd_then_frame _ _ _ _ _ _ _ Hu).
Qed.

(** A footprint holds with any larger set of files. *)
Lemma touches_sub {A} cs cs' (p : Prog A) :
  touches cs p -> bool_decide (cs ⊆ cs') = true -> touches cs' p.
Proof. intros Hp Hs. apply bool_decide_eq_true in Hs. by eapply touches_weaken. Qed.

(** Operations of which only the frame is promised. *)
Lemma touches_framed {A} cs (p : Prog A) :
  (forall w, wp p w (fun _ w' => frame cs w w' /\ calm w w')) -> touches cs p.
Proof. intros Hp w. eapply wp_mono; [apply Hp|]. by intros r w' [? _]. Qed.

Lemma touches_calm {A} (p : Prog A) :
  (forall w, wp p w (fun _ w' => same_disk w w' /\ calm w w')) -> touches [] p.
Proof. intros Hp w. eapply wp_mono; [apply Hp|]. intros r w' [? _]. by apply same_disk_frame. Qed.

Lemma same_mem_framed {A} P (p : Prog A) :
  (forall w, wp p w (fun _ w' => P w w' /\ calm w w')) -> keeps same_mem p.
Proof. intros Hp w. eapply wp_mono; [apply Hp|]. intros r w' [_ Hc]. by apply same_mem_calm. Qed.

Lemma same_mem_upd_then {A A' B B'} (c : Coll A) f (c' : Coll A')
    (g : B -> Z -> string -> A' -> res (A' * B')) p :
  (forall w, wp p w (upd_then c f c' g w)) -> keeps same_mem p.
Proof.
  intros Hp w. eapply wp_mono; [apply Hp|]. intros r w' (r1 & w1 & (_ & Hc & _) & Hr). unfold same_mem.
  destruct r1 as [b|e]; [|destruct Hr as [_ ->]; by apply same_mem_calm].
  destruct Hr as (_ & Hc' & _). etransitivity; [apply (same_mem_calm _ _ Hc')|apply (same_mem_calm _ _ Hc)].
Qed.

(** A postcondition together with the footprint of a program that writes no
    file. *)
Lemma wp_and_disk {A} (p : Prog A) w (Q : A -> World -> Prop) :
  touches [] p -> wp p w Q -> wp p w (fun a w' => same_disk w w' /\ Q a w').
Proof.
  intros Hp HQ. apply wp_and; [|done]. eapply wp_mono; [apply Hp|].
  intros a w'. cbn beta. apply frame_nil.
Qed.
End footprints.

(** ** Storage that works *)

Section works.
Context `{Env}.

(** Every access to a file between two worlds goes through. *)
Definition io_works (w w' : World) : Prop :=
  forall n, (w_tick w <= n < w_tick w')%nat -> env_io n = IoOk.

Lemma io_works_part w w1 w2 w' :
  (w_tick w <= w_tick w1)%nat -> (w_tick w2 <= w_tick w')%nat -> io_works w w' -> io_works w1 w2.
Proof. intros Hw Hw' Hio n Hn. apply Hio. lia. Qed.

(** A query of a file that parses is answered. *)
Lemma qry_works {A B} (c : Coll A) (f : Z -> A -> res B) w r w' a :
  qry c f w r w' -> io_works w w' -> get c (w_disk w) = FData a ->
  exists t, instant w w' t /\ r = f t a.
Proof.
  intros (_ & _ & [(a0 & t & Ha & Ht & ->)|(e & _ & _ & [Hc|(n & Hn & Hbad)])]) Hio Hg.
  - rewrite Ha in Hg. injection Hg as ->. by exists t.
  - congruence.
  - by rewrite Hio in Hbad by lia.
Qed.

(** An update of a file that parses takes effect. *)
Lemma upd_works {A B} (c : Coll A) (f : Z -> string -> A -> res (A * B)) w r w' a :
  upd c f w r w' -> io_works w w' -> get c (w_disk w) = FData a ->
  exists t u, instant w w' t /\
    match f t u a with
    | Ok (a', b) => r = Ok b /\ get c (w_disk w') = FData a'
    | Err e => r = Err e /\ w_disk w' = w_disk w
    end.
Proof.
  intros (_ & _ & [(a0 & t & u & Ha & Ht & _ & Hr)|(e & _ & _ & [Hc|(n & Hn & Hbad)] & _)]) Hio Hg.
  - rewrite Ha in Hg. injection Hg as ->. by exists t, u.
  - congruence.
  - by rewrite Hio in Hbad by lia.
Qed.
End works.

(** Storage works between two worlds inside the run. *)
Ltac io_part :=
  match goal with
  | Hio : io_works ?a ?b |- io_works ?c ?d => apply (io_works_part a c d b); [lia|lia|exact Hio]
  end.

(** The groups of a user are some function of the file of groups. *)
Lemma GroupsForUser_calm `{StoreLaws} userID w :
  wp (Groups_GroupsForUser userID) w (fun r w' => same_disk w w' /\ calm w w').
Proof.
  destruct (law_Groups_GroupsForUser userID) as [groups Hg].
  eapply wp_mono; [apply Hg|]. by intros r w' (? & ? & _).
Qed.

(** ** The law of each operation *)

Ltac store_law :=
  lazymatch goal with
  | |- wp (@Users_GetByID _ _) _ _ => eapply law_Users_GetByID
  | |- wp (@Users_GetByEmail _ _) _ _ => eapply law_Users_GetByEmail
  | |- wp (@Users_Create _ _) _ _ => eapply law_Users_Create
  | |- wp (@Users_Update _ _) _ _ => eapply law_Users_Update
  | |- wp (@Clients_GetByID _ _) _ _ => eapply law_Clients_GetByID
  | |- wp (@Clients_Update _ _) _ _ => eapply law_Clients_Update
  | |- wp (@Users_Delete _ _) _ _ => eapply law_Users_Delete
  | |- wp (@Users_List _) _ _ => eapply law_Users_List
  | |- wp (@Clients_Create _ _) _ _ => eapply law_Clients_Create
  | |- wp (@Clients_Delete _ _) _ _ => eapply law_Clients_Delete
  | |- wp (@Clients_List _) _ _ => eapply law_Clients_List
  | |- wp (@Sessions_ListByUserID _ _) _ _ => eapply law_Sessions_ListByUserID
  | |- wp (@Sessions_Create _ _) _ _ => eapply law_Sessions_Create
  | |- wp (@Sessions_GetByID _ _) _ _ => eapply law_Sessions_GetByID
  | |- wp (@Sessions_Delete _ _) _ _ => eapply law_Sessions_Delete
  | |- wp (@Sessions_DeleteByUserID _ _) _ _ => eapply law_Sessions_DeleteByUserID
  | |- wp (@Sessions_DeleteExpired _) _ _ => eapply law_Sessions_DeleteExpired
  | |- wp (@AuthCodes_Create _ _) _ _ => eapply law_AuthCodes_Create
  | |- wp (@AuthCodes_GetByCode _ _) _ _ => eapply law_AuthCodes_GetByCode
  | |- wp (@AuthCodes_MarkUsed _ _) _ _ => eapply law_AuthCodes_MarkUsed
  | |- wp (@AuthCodes_DeleteExpired _) _ _ => eapply law_AuthCodes_DeleteExpired
  | |- wp (@Tokens_Create _ _) _ _ => eapply law_Tokens_Create
  | |- wp (@Tokens_GetByID _ _) _ _ => eapply law_Tokens_GetByID
  | |- wp (@Tokens_Revoke _ _) _ _ => eapply law_Tokens_Revoke
  | |- wp (@Tokens_RevokeByUserID _ _) _ _ => eapply law_Tokens_RevokeByUserID
  | |- wp (@Tokens_RevokeByClientID _ _) _ _ => eapply law_Tokens_RevokeByClientID
  | |- wp (@Tokens_Rotate _ _) _ _ => eapply law_Tokens_Rotate
  | |- wp (@Tokens_DeleteExpired _) _ _ => eapply law_Tokens_DeleteExpired
  | |- wp (@Tokens_ListByUserID _ _) _ _ => eapply law_Tokens_ListByUserID
  | |- wp (@Revocations_RevokeAccessToken _ _ _) _ _ => eapply law_Revocations_RevokeAccessToken
  | |- wp (@Revocations_RevokeBefore _ _ _ _) _ _ => eapply law_Revocations_RevokeBefore
  | |- wp (@Revocations_IsRevoked _ _ _ _ _) _ _ => eapply law_Revocations_IsRevoked
  | |- wp (@Revocations_DeleteExpired _) _ _ => eapply law_Revocations_DeleteExpired
  | |- wp (@Consents_Get _ _ _) _ _ => eapply law_Consents_Get
  | |- wp (@Consents_Upsert _ _) _ _ => eapply law_Consents_Upsert
  | |- wp (@Consents_ListByUserID _ _) _ _ => eapply law_Consents_ListByUserID
  | |- wp (@Consents_Delete _ _ _) _ _ => eapply law_Consents_Delete
  | |- wp (@Consents_DeleteByUserID _ _) _ _ => eapply law_Consents_DeleteByUserID
  | |- wp (@Passkeys_Create _ _) _ _ => eapply law_Passkeys_Create
  | |- wp (@Passkeys_Update _ _) _ _ => eapply law_Passkeys_Update
  | |- wp (@Passkeys_Delete _ _ _) _ _ => eapply law_Passkeys_Delete
  | |- wp (@Passkeys_ListByUserID _ _) _ _ => eapply law_Passkeys_ListByUserID
  | |- wp (@Passkeys_DeleteByUserID _ _) _ _ => eapply law_Passkeys_DeleteByUserID
  | |- wp (@Verification_Create _ _) _ _ => eapply law_Verification_Create
  | |- wp (@Verification_GetByHash _ _) _ _ => eapply law_Verification_GetByHash
  | |- wp (@Verification_MarkUsed _ _) _ _ => eapply law_Verification_MarkUsed
  | |- wp (@Verification_DeleteByUserID _ _ _) _ _ => eapply law_Verification_DeleteByUserID
  | |- wp (@Verification_DeleteExpired _) _ _ => eapply law_Verification_DeleteExpired
  | |- wp (@Groups_GetByID _ _) _ _ => eapply law_Groups_GetByID
  | |- wp (@Groups_GetByName _ _) _ _ => eapply law_Groups_GetByName
  | |- wp (@Groups_Delete _ _) _ _ => eapply law_Groups_Delete
  | |- wp (@Groups_AddMember _ _ _) _ _ => eapply law_Groups_AddMember
  | |- wp (@Groups_RemoveMember _ _ _) _ _ => eapply law_Groups_RemoveMember
  | |- wp (@Groups_MemberIDs _ _) _ _ => eapply law_Groups_MemberIDs
  | |- wp (@Groups_RemoveUser _ _) _ _ => eapply law_Groups_RemoveUser
  | |- wp (@Audit_List _ _) _ _ => eapply law_Audit_List
  | |- wp (@Audit_DeleteBefore _ _) _ _ => eapply law_Audit_DeleteBefore
  | |- wp (@SigningKeys_Create _ _) _ _ => eapply law_SigningKeys_Create
  | |- wp (@SigningKeys_GetByID _ _) _ _ => eapply law_SigningKeys_GetByID
  | |- wp (@SigningKeys_GetActive _) _ _ => eapply law_SigningKeys_GetActive
  | |- wp (@SigningKeys_GetAll _) _ _ => eapply law_SigningKeys_GetAll
  | |- wp (@SigningKeys_SetActive _ _) _ _ => eapply law_SigningKeys_SetActive
  | |- wp (@SigningKeys_Delete _ _) _ _ => eapply law_SigningKeys_Delete
  | |- wp (@Keys_GetByID _ _) _ _ => eapply law_Keys_GetByID
  | |- wp (@Keys_GetActive _) _ _ => eapply law_Keys_GetActive
  | |- wp (@Keys_GetAll _) _ _ => eapply law_Keys_GetAll
  | |- wp (@Keys_Save _ _) _ _ => eapply law_Keys_Save
  | |- wp (@Keys_SetActive _ _) _ _ => eapply law_Keys_SetActive
  | |- wp (@Keys_Delete _ _) _ _ => eapply law_Keys_Delete
  end.

Ltac store_frame_law :=
  lazymatch goal with
  | |- wp (@Groups_GroupsForUser _ _) _ _ => eapply GroupsForUser_calm
  | |- wp (@Groups_Create _ _) _ _ => eapply law_Groups_Create
  | |- wp (@Groups_Update _ _) _ _ => eapply law_Groups_Update
  | |- wp (@Groups_List _) _ _ => eapply law_Groups_List
  | |- wp (@Audit_Append _ _) _ _ => eapply law_Audit_Append
  end.

(** Footprints are registered with the inclusion that weakens them. *)
Ltac sub_files := first [reflexivity | apply bool_decide_eq_true_2; set_solver].

Ltac store_touches :=
  eapply touches_sub;
  [ first [ eapply touches_qry; intros ?; store_law
          | eapply touches_upd; intros ?; store_law
          | eapply touches_upd_then; intros ?; store_law
          | eapply touches_calm; intros ?; store_frame_law
          | eapply touches_framed; intros ?; store_frame_law ]
  | sub_files ].

Ltac store_same_mem :=
  first [ eapply same_mem_qry; intros ?; store_law
        | eapply same_mem_upd; intros ?; store_law
        | eapply same_mem_upd_then; intros ?; store_law
        | eapply same_mem_framed; intros ?; store_frame_law ].

#[export] Hint Extern 5 (touches _ _) => store_touches : touch.
#[export] Hint Extern 2 (keeps same_mem _) => store_same_mem : keep.
