(* ===== verification/FileStore.v ===== *)
(** * internal/store/file: the JSON file store

    Every operation reads its whole file, computes, and writes the whole file
    back ([load], [save]); only the consume-once operations hold the
    [consume] mutex in between.  The repositories are in the order of the
    Go package; [FileStoreLaws] shows that each operation keeps the contract
    of [Store]. *)
From S2P Require Import Prelude GoTime GoText Errors Domain Lockout PendingLogins World Run Store.
#[local] Open Scope Z_scope.
#[local] Open Scope go_scope.

(** [r.load()] with the error every operation wraps it in, and [r.save]. *)
Definition load {A} (c : Coll A) (message : string) : Prog (res A) :=
  mapErr (Internal message) (trigger (ERead c)).
Definition save {A} (c : Coll A) (data : A) : Prog (res unit) := trigger (EWrite c data).

(** The loops that overwrite or delete the first match and save, or report
    that there is none ([find_or] is the loop that only finds). *)
Definition replace_or {A} (c : Coll (list A)) (p : A -> bool) (f : A -> A) (missing : error)
    (l : list A) : Prog (res unit) :=
  match replace_first p f l with
  | Some l' => save c l'
  | None => ret_err missing
  end.

Definition remove_or {A} (c : Coll (list A)) (p : A -> bool) (missing : error) (l : list A)
    : Prog (res unit) :=
  match remove_first p l with
  | Some l' => save c l'
  | None => ret_err missing
  end.

Section file_store.
Context `{UnicodeTables}.

(** ** userRepository *)

Definition user_taken (user : User) (u : User) : bool :=
  (user_ID u ==? user_ID user) || EqualFold (user_Email u) (user_Email user).

Definition userRepository_Create (user : User) : Prog (res User) :=
  let? users := load CUsers "failed to load users" in
  match find_first (user_taken user) users with
  | Some u =>
      if user_ID u ==? user_ID user
      then ret_err (AlreadyExists "user" (user_ID user))
      else ret_err (AlreadyExists "user with email" (user_Email user))
  | None =>
      let! t := now in
      let user := user_set_times t t user in
      let? _ := save CUsers (users ++ [user]) in
      ret_ok user
  end.

Definition userRepository_GetByID (id : string) : Prog (res User) :=
  let? users := load CUsers "failed to load users" in
  Ret (find_or (fun u => user_ID u ==? id) (NotFound "user" id) users).

Definition userRepository_GetByEmail (email : string) : Prog (res User) :=
  let? users := load CUsers "failed to load users" in
  Ret (find_or (fun u => EqualFold (user_Email u) email) (NotFound "user with email" email) users).

Definition userRepository_Update (user : User) : Prog (res User) :=
  let? users := load CUsers "failed to load users" in
  match find_first (fun u => user_ID u ==? user_ID user) users with
  | Some _ =>
      let! t := now in
      let user := user_set_updated t user in
      let? _ := replace_or CUsers (fun u => user_ID u ==? user_ID user) (fun _ => user)
                  (NotFound "user" (user_ID user)) users in
      ret_ok user
  | None => ret_err (NotFound "user" (user_ID user))
  end.

Definition userRepository_Delete (id : string) : Prog (res unit) :=
  let? users := load CUsers "failed to load users" in
  remove_or CUsers (fun u => user_ID u ==? id) (NotFound "user" id) users.

Definition userRepository_List : Prog (res (list User)) :=
  load CUsers "failed to load users".

(** ** clientRepository *)

Definition clientRepository_Create (client : Client) : Prog (res Client) :=
  let? clients := load CClients "failed to load clients" in
  match find_first (fun c => client_ID c ==? client_ID client) clients with
  | Some _ => ret_err (AlreadyExists "client" (client_ID client))
  | None =>
      let! t := now in
      let client := client_set_times t t client in
      let? _ := save CClients (clients ++ [client]) in
      ret_ok client
  end.

Definition clientRepository_GetByID (id : string) : Prog (res Client) :=
  let? clients := load CClients "failed to load clients" in
  Ret (find_or (fun c => client_ID c ==? id) (NotFound "client" id) clients).

Definition clientRepository_Update (client : Client) : Prog (res Client) :=
  let? clients := load CClients "failed to load clients" in
  match find_first (fun c => client_ID c ==? client_ID client) clients with
  | Some _ =>
      let! t := now in
      let client := client_set_times (client_CreatedAt client) t client in
      let? _ := replace_or CClients (fun c => client_ID c ==? client_ID client) (fun _ => client)
                  (NotFound "client" (client_ID client)) clients in
      ret_ok client
  | None => ret_err (NotFound "client" (client_ID client))
  end.

Definition clientRepository_Delete (id : string) : Prog (res unit) :=
  let? clients := load CClients "failed to load clients" in
  remove_or CClients (fun c => client_ID c ==? id) (NotFound "client" id) clients.

Definition clientRepository_List : Prog (res (list Client)) :=
  load CClients "failed to load clients".

(** ** sessionRepository *)

Definition sessionRepository_Create (session : Session) : Prog (res Session) :=
  let? sessions := load CSessions "failed to load sessions" in
  let! t := now in
  let session := session_set_created t session in
  let? _ := save CSessions (sessions ++ [session]) in
  ret_ok session.

Definition sessionRepository_GetByID (id : string) : Prog (res Session) :=
  let? sessions := load CSessions "failed to load sessions" in
  Ret (find_or (fun s => session_ID s ==? id) (NotFound "session" id) sessions).

Definition sessionRepository_Delete (id : string) : Prog (res unit) :=
  let? sessions := load CSessions "failed to load sessions" in
  remove_or CSessions (fun s => session_ID s ==? id) (NotFound "session" id) sessions.

Definition sessionRepository_DeleteByUserID (userID : string) : Prog (res unit) :=
  let? sessions := load CSessions "failed to load sessions" in
  save CSessions (List.filter (fun s => session_UserID s !=? userID) sessions).

Definition sessionRepository_DeleteExpired : Prog (res unit) :=
  let? sessions := load CSessions "failed to load sessions" in
  let! t := now in
  save CSessions (List.filter (fun s => After (session_ExpiresAt s) t) sessions).

Definition sessionRepository_ListByUserID (userID : string) : Prog (res (list Session)) :=
  let? sessions := load CSessions "failed to load sessions" in
  let! t := now in
  ret_ok (sort_by (fun a b => After (session_CreatedAt a) (session_CreatedAt b))
    (List.filter (fun s => (session_UserID s ==? userID) && After (session_ExpiresAt s) t) sessions)).

(** ** authCodeRepository *)

Definition authCodeRepository_Create (code : AuthCode) : Prog (res AuthCode) :=
  let? codes := load CAuthCodes "failed to load auth codes" in
  let! t := now in
  let code := ac_set_created t code in
  let? _ := save CAuthCodes (codes ++ [code]) in
  ret_ok code.

Definition authCodeRepository_GetByCode (code : string) : Prog (res AuthCode) :=
  let? codes := load CAuthCodes "failed to load auth codes" in
  Ret (find_or (fun a => ac_Code a ==? code) (NotFound "auth code" code) codes).

Definition authCodeRepository_MarkUsed (code : string) : Prog (res unit) :=
  locked LConsume (
    let? codes := load CAuthCodes "failed to load auth codes" in
    match find_first (fun a => ac_Code a ==? code) codes with
    | Some a =>
        if ac_Used a then ret_err (Conflict "auth code already used")
        else replace_or CAuthCodes (fun a => ac_Code a ==? code) ac_set_used
               (NotFound "auth code" code) codes
    | None => ret_err (NotFound "auth code" code)
    end).

Definition authCodeRepository_Delete (code : string) : Prog (res unit) :=
  let? codes := load CAuthCodes "failed to load auth codes" in
  remove_or CAuthCodes (fun a => ac_Code a ==? code) (NotFound "auth code" code) codes.

Definition authCodeRepository_DeleteExpired : Prog (res unit) :=
  let? codes := load CAuthCodes "failed to load auth codes" in
  let! t := now in
  save CAuthCodes (List.filter (fun a => After (ac_ExpiresAt a) t) codes).

(** ** revocationRepository *)

Definition revocationRepository_upsert (kind key : string) (notBefore expiresAt : Z)
    : Prog (res unit) :=
  let? revocations := load CRevocations "failed to load revocations" in
  match replace_first (same_row kind key) (raise_revocation notBefore expiresAt) revocations with
  | Some revocations => save CRevocations revocations
  | None => save CRevocations (revocations ++
      [{| rv_Kind := kind; rv_Key := key; rv_NotBefore := notBefore; rv_ExpiresAt := expiresAt |}])
  end.

Definition revocationRepository_RevokeAccessToken (jti : string) (expiresAt : Z)
    : Prog (res unit) :=
  let! t := now in
  revocationRepository_upsert RevocationJTI jti t expiresAt.

Definition revocationRepository_RevokeBefore (kind key : string) (notBefore : Z)
    : Prog (res unit) :=
  revocationRepository_upsert kind key notBefore (Add notBefore RevocationRetention).

Definition revocationRepository_IsRevoked (jti userID clientID : string) (issuedAt : Z)
    : Prog (res bool) :=
  let? revocations := load CRevocations "failed to load revocations" in
  ret_ok (existsb (revokes jti userID clientID issuedAt) revocations).

Definition revocationRepository_DeleteExpired : Prog (res unit) :=
  let? revocations := load CRevocations "failed to load revocations" in
  let! t := now in
  save CRevocations (List.filter (fun rv => After (rv_ExpiresAt rv) t) revocations).

(** ** tokenRepository *)

Definition tokenRepository_Create (token : Token) : Prog (res Token) :=
  let? tokens := load CTokens "failed to load tokens" in
  let! t := now in
  let token := token_set_created t token in
  let? _ := save CTokens (tokens ++ [token]) in
  ret_ok token.

Definition tokenRepository_GetByID (id : string) : Prog (res Token) :=
  let? tokens := load CTokens "failed to load tokens" in
  Ret (find_or (fun t => token_ID t ==? id) (NotFound "token" id) tokens).

Definition tokenRepository_Revoke (id : string) : Prog (res unit) :=
  let? tokens := load CTokens "failed to load tokens" in
  match find_first (fun t => token_ID t ==? id) tokens with
  | Some t =>
      let? _ := replace_or CTokens (fun t => token_ID t ==? id) token_set_revoked
                  (NotFound "token" id) tokens in
      let! n := now in
      revocationRepository_RevokeBefore RevocationUserClient
        (UserClientKey (token_UserID t) (token_ClientID t)) n
  | None => ret_err (NotFound "token" id)
  end.

Definition tokenRepository_Rotate (id : string) : Prog (res unit) :=
  locked LConsume (
    let? tokens := load CTokens "failed to load tokens" in
    match find_first (fun t => token_ID t ==? id) tokens with
    | Some t =>
        if token_Revoked t then ret_err (Conflict "refresh token already used")
        else replace_or CTokens (fun t => token_ID t ==? id) token_set_revoked
               (NotFound "token" id) tokens
    | None => ret_err (NotFound "token" id)
    end).

Definition tokenRepository_RevokeByUserID (userID : string) : Prog (res unit) :=
  let? tokens := load CTokens "failed to load tokens" in
  let? _ := save CTokens (revoke_where (fun t => token_UserID t ==? userID) tokens) in
  let! n := now in
  revocationRepository_RevokeBefore RevocationUser userID n.

Definition tokenRepository_RevokeByClientID (clientID : string) : Prog (res unit) :=
  let? tokens := load CTokens "failed to load tokens" in
  let? _ := save CTokens (revoke_where (fun t => token_ClientID t ==? clientID) tokens) in
  let! n := now in
  revocationRepository_RevokeBefore RevocationClient clientID n.

Definition tokenRepository_DeleteExpired : Prog (res unit) :=
  let? tokens := load CTokens "failed to load tokens" in
  let! n := now in
  save CTokens (List.filter (fun t => After (token_ExpiresAt t) n) tokens).

Definition tokenRepository_ListByUserID (userID : string) : Prog (res (list Token)) :=
  let? tokens := load CTokens "failed to load tokens" in
  let! n := now in
  ret_ok (sort_by (fun a b => After (token_CreatedAt a) (token_CreatedAt b))
    (List.filter (fun t => (token_UserID t ==? userID) && After (token_ExpiresAt t) n) tokens)).

(** ** consentRepository *)

Definition consentRepository_Upsert (consent : Consent) : Prog (res Consent) :=
  let? consents := load CConsents "failed to load consents" in
  let! id := (if consent_ID consent ==? "" then newUUID else Ret (consent_ID consent)) in
  let! t := now in
  let consent := consent_set id t consent in
  let p := consent_of (consent_UserID consent) (consent_ClientID consent) in
  match find_first p consents with
  | Some c =>
      let consent := consent_set (consent_ID c) t consent in
      let? _ := replace_or CConsents p (fun _ => consent) (NotFound "consent" "") consents in
      ret_ok consent
  | None =>
      let? _ := save CConsents (consents ++ [consent]) in
      ret_ok consent
  end.

Definition consentRepository_Get (userID clientID : string) : Prog (res Consent) :=
  let? consents := load CConsents "failed to load consents" in
  Ret (find_or (consent_of userID clientID)
         (NotFound "consent" (userID +:+ "/" +:+ clientID)) consents).

Definition consentRepository_ListByUserID (userID : string) : Prog (res (list Consent)) :=
  let? consents := load CConsents "failed to load consents" in
  ret_ok (List.filter (fun c => consent_UserID c ==? userID) consents).

Definition consentRepository_Delete (userID clientID : string) : Prog (res unit) :=
  let? consents := load CConsents "failed to load consents" in
  remove_or CConsents (consent_of userID clientID)
    (NotFound "consent" (userID +:+ "/" +:+ clientID)) consents.

Definition consentRepository_DeleteByUserID (userID : string) : Prog (res unit) :=
  let? consents := load CConsents "failed to load consents" in
  save CConsents (List.filter (fun c => consent_UserID c !=? userID) consents).

(** ** verificationTokenRepository *)

Definition verificationTokenRepository_Create (token : VerificationToken)
    : Prog (res VerificationToken) :=
  let? tokens := load CVerification "failed to load verification tokens" in
  match find_first (fun t => vt_TokenHash t ==? vt_TokenHash token) tokens with
  | Some _ => ret_err (AlreadyExists "verification token" (vt_TokenHash token))
  | None =>
      let! t := now in
      let token := vt_set_created t token in
      let? _ := save CVerification (tokens ++ [token]) in
      ret_ok token
  end.

Definition verificationTokenRepository_GetByHash (hash : string) : Prog (res VerificationToken) :=
  let? tokens := load CVerification "failed to load verification tokens" in
  Ret (find_or (fun t => vt_TokenHash t ==? hash) (NotFound "verification token" "") tokens).

Definition verificationTokenRepository_MarkUsed (hash : string) : Prog (res unit) :=
  let? tokens := load CVerification "failed to load verification tokens" in
  replace_or CVerification (fun t => vt_TokenHash t ==? hash) vt_set_used
    (NotFound "verification token" "") tokens.

Definition verificationTokenRepository_DeleteByUserID (userID purpose : string)
    : Prog (res unit) :=
  let? tokens := load CVerification "failed to load verification tokens" in
  save CVerification (List.filter (fun t =>
    negb ((vt_UserID t ==? userID) && ((purpose ==? "") || (vt_Purpose t ==? purpose)))) tokens).

Definition verificationTokenRepository_DeleteExpired : Prog (res unit) :=
  let? tokens := load CVerification "failed to load verification tokens" in
  let! n := now in
  save CVerification (List.filter (fun t => After (vt_ExpiresAt t) n) tokens).

(** ** passkeyRepository *)

Definition passkeyRepository_Create (p : Passkey) : Prog (res Passkey) :=
  let? passkeys := load CPasskeys "failed to load passkeys" in
  match find_first (fun x => passkey_ID x ==? passkey_ID p) passkeys with
  | Some _ => ret_err (AlreadyExists "passkey" (passkey_ID p))
  | None =>
      let! t := now in
      let p := passkey_set_created t p in
      let? _ := save CPasskeys (passkeys ++ [p]) in
      ret_ok p
  end.

Definition passkeyRepository_ListByUserID (userID : string) : Prog (res (list Passkey)) :=
  let? passkeys := load CPasskeys "failed to load passkeys" in
  ret_ok (List.filter (fun p => passkey_UserID p ==? userID) passkeys).

Definition passkeyRepository_Update (p : Passkey) : Prog (res unit) :=
  let? passkeys := load CPasskeys "failed to load passkeys" in
  replace_or CPasskeys (passkey_of (passkey_UserID p) (passkey_ID p)) (fun _ => p)
    (NotFound "passkey" (passkey_ID p)) passkeys.

Definition passkeyRepository_Delete (userID id : string) : Prog (res unit) :=
  let? passkeys := load CPasskeys "failed to load passkeys" in
  remove_or CPasskeys (passkey_of userID id) (NotFound "passkey" id) passkeys.

Definition passkeyRepository_DeleteByUserID (userID : string) : Prog (res unit) :=
  let? passkeys := load CPasskeys "failed to load passkeys" in
  save CPasskeys (List.filter (fun p => passkey_UserID p !=? userID) passkeys).

(** ** groupRepository *)

Definition group_taken (group : Group) (g : Group) : bool :=
  (group_ID g ==? group_ID group) || EqualFold (group_Name g) (group_Name group).

Definition sortGroups (groups : list Group) : list Group :=
  sort_by (fun a b => String.ltb (ToLower (group_Name a)) (ToLower (group_Name b))) groups.

Definition groupRepository_Create (group : Group) : Prog (res Group) :=
  let? (groups, memberships) := load CGroups "failed to load groups" in
  match find_first (group_taken group) groups with
  | Some g =>
      if group_ID g ==? group_ID group
      then ret_err (AlreadyExists "group" (group_ID group))
      else ret_err (AlreadyExists "group with name" (group_Name group))
  | None =>
      let! t := now in
      let group := group_set_times t t group in
      let? _ := save CGroups (groups ++ [group], memberships) in
      ret_ok group
  end.

Definition groupRepository_GetByID (id : string) : Prog (res Group) :=
  let? (groups, _) := load CGroups "failed to load groups" in
  Ret (find_or (fun g => group_ID g ==? id) (NotFound "group" id) groups).

Definition groupRepository_GetByName (name : string) : Prog (res Group) :=
  let? (groups, _) := load CGroups "failed to load groups" in
  Ret (find_or (fun g => EqualFold (group_Name g) name) (NotFound "group with name" name) groups).

Definition groupRepository_Update (group : Group) : Prog (res Group) :=
  let? (groups, memberships) := load CGroups "failed to load groups" in
  match find_first (fun g => (group_ID g !=? group_ID group)
                             && EqualFold (group_Name g) (group_Name group)) groups with
  | Some _ => ret_err (AlreadyExists "group with name" (group_Name group))
  | None =>
      match find_first (fun g => group_ID g ==? group_ID group) groups with
      | Some _ =>
          let! t := now in
          let group := group_set_times (group_CreatedAt group) t group in
          let groups := default groups
            (replace_first (fun g => group_ID g ==? group_ID group) (fun _ => group) groups) in
          let? _ := save CGroups (groups, memberships) in
          ret_ok group
      | None => ret_err (NotFound "group" (group_ID group))
      end
  end.

Definition groupRepository_Delete (id : string) : Prog (res unit) :=
  let? (groups, memberships) := load CGroups "failed to load groups" in
  match remove_first (fun g => group_ID g ==? id) groups with
  | Some groups =>
      save CGroups (groups, List.filter (fun m => mb_GroupID m !=? id) memberships)
  | None => ret_err (NotFound "group" id)
  end.

Definition groupRepository_List : Prog (res (list Group)) :=
  let? (groups, _) := load CGroups "failed to load groups" in
  ret_ok (sortGroups groups).

Definition groupRepository_AddMember (groupID userID : string) : Prog (res unit) :=
  let? (groups, memberships) := load CGroups "failed to load groups" in
  let? _ := Ret (find_or (fun g => group_ID g ==? groupID) (NotFound "group" groupID) groups) in
  if existsb (member_of groupID userID) memberships then ret_ok tt
  else save CGroups (groups, memberships ++ [{| mb_UserID := userID; mb_GroupID := groupID |}]).

Definition groupRepository_RemoveMember (groupID userID : string) : Prog (res unit) :=
  let? (groups, memberships) := load CGroups "failed to load groups" in
  match remove_first (member_of groupID userID) memberships with
  | Some memberships => save CGroups (groups, memberships)
  | None => ret_err (NotFound "group membership" (userID +:+ "/" +:+ groupID))
  end.

Definition groupRepository_MemberIDs (groupID : string) : Prog (res (list string)) :=
  let? (_, memberships) := load CGroups "failed to load groups" in
  ret_ok (map mb_UserID (List.filter (fun m => mb_GroupID m ==? groupID) memberships)).

(** [byID] is a Go map: of groups with one ID the last is kept. *)
Definition groups_by_id (groups : list Group) : gmap string Group :=
  fold_left (fun m g => <[group_ID g := g]> m) groups ∅.

Definition groups_for_user (userID : string) (groups : list Group) (memberships : list membership)
    : list Group :=
  sortGroups (omap (fun m => if mb_UserID m ==? userID
                             then groups_by_id groups !! mb_GroupID m else None) memberships).

Definition groupRepository_GroupsForUser (userID : string) : Prog (res (list Group)) :=
  let? (groups, memberships) := load CGroups "failed to load groups" in
  ret_ok (groups_for_user userID groups memberships).

Definition groupRepository_RemoveUser (userID : string) : Prog (res unit) :=
  let? (groups, memberships) := load CGroups "failed to load groups" in
  save CGroups (groups, List.filter (fun m => mb_UserID m !=? userID) memberships).

(** ** auditRepository *)

Definition auditRepository_Append (e : AuditEvent) : Prog (res AuditEvent) :=
  let? events := load CAudit "failed to load audit events" in
  let! id := (if ev_ID e ==? "" then newUUID else Ret (ev_ID e)) in
  let! at_ := (if IsZero (ev_At e) then now else Ret (ev_At e)) in
  let e := ev_set_at at_ (ev_set_id id e) in
  let? _ := save CAudit (events ++ [e]) in
  ret_ok e.

Definition auditRepository_List (limit : Z) : Prog (res (list AuditEvent)) :=
  let? events := load CAudit "failed to load audit events" in
  let limit := if limit <=? 0 then 100 else limit in
  ret_ok (take (Z.to_nat limit) (sort_by (fun a b => After (ev_At a) (ev_At b)) events)).

Definition auditRepository_DeleteBefore (cutoff : Z) : Prog (res unit) :=
  let? events := load CAudit "failed to load audit events" in
  save CAudit (List.filter (fun e => negb (Before (ev_At e) cutoff)) events).

(** ** signingKeyRepository, the store's own, beside the one of the key service

    Both read and write signing_keys.json, each in its own layout: the
    members of the other's are absent to it and lost when it writes. *)

Definition signingKeyRepository_Create (key : SigningKey) : Prog (res SigningKey) :=
  let? keys := load CSigningKeys "failed to load signing keys" in
  match find_first (fun k => sk_ID k ==? sk_ID key) keys with
  | Some _ => ret_err (AlreadyExists "signing key" (sk_ID key))
  | None =>
      let! t := now in
      let key := sk_set_created t key in
      let? _ := save CSigningKeys (keys ++ [key]) in
      ret_ok key
  end.

Definition signingKeyRepository_GetByID (id : string) : Prog (res SigningKey) :=
  let? keys := load CSigningKeys "failed to load signing keys" in
  Ret (find_or (fun k => sk_ID k ==? id) (NotFound "signing key" id) keys).

Definition signingKeyRepository_GetActive : Prog (res SigningKey) :=
  let? keys := load CSigningKeys "failed to load signing keys" in
  Ret (find_or sk_Active (NotFound "active signing key" "") keys).

Definition signingKeyRepository_GetAll : Prog (res (list SigningKey)) :=
  load CSigningKeys "failed to load signing keys".

Definition signingKeyRepository_SetActive (id : string) : Prog (res unit) :=
  let? keys := load CSigningKeys "failed to load signing keys" in
  if existsb (fun k => sk_ID k ==? id) keys
  then save CSigningKeys (map (fun k => sk_set_active (sk_ID k ==? id) k) keys)
  else ret_err (NotFound "signing key" id).

Definition signingKeyRepository_Delete (id : string) : Prog (res unit) :=
  let? keys := load CSigningKeys "failed to load signing keys" in
  remove_or CSigningKeys (fun k => sk_ID k ==? id) (NotFound "signing key" id) keys.

(** ** internal/store/file/keys.go: the repository of the key service *)

Definition keys_save (keys : list KeyPair) (activeKid : string) : Prog (res unit) :=
  save CKeys (map kp_stored keys, activeKid).

Definition KeyRepository_GetByID (kid : string) : Prog (res KeyPair) :=
  let? (keys, _) := load CKeys "failed to load keys" in
  Ret (find_or (fun k => kp_Kid k ==? kid) (NotFound "signing key" kid) keys).

Definition KeyRepository_GetActive : Prog (res KeyPair) :=
  let? (keys, activeKid) := load CKeys "failed to load keys" in
  if activeKid ==? "" then ret_err (NotFound "active signing key" "")
  else Ret (find_or (fun k => kp_Kid k ==? activeKid)
              (NotFound "active signing key" activeKid) keys).

Definition KeyRepository_GetAll : Prog (res (list KeyPair)) :=
  let? (keys, _) := load CKeys "failed to load keys" in
  ret_ok keys.

Definition KeyRepository_Save (keyPair : KeyPair) : Prog (res unit) :=
  let? (keys, activeKid) := load CKeys "failed to load keys" in
  match replace_first (fun k => kp_Kid k ==? kp_Kid keyPair) (fun _ => keyPair) keys with
  | Some keys => keys_save keys activeKid
  | None => keys_save (keys ++ [keyPair]) activeKid
  end.

Definition KeyRepository_SetActive (kid : string) : Prog (res unit) :=
  let? (keys, _) := load CKeys "failed to load keys" in
  if existsb (fun k => kp_Kid k ==? kid) keys
  then keys_save (mark_active kid keys) kid
  else ret_err (NotFound "signing key" kid).

Definition KeyRepository_Delete (kid : string) : Prog (res unit) :=
  let? (keys, activeKid) := load CKeys "failed to load keys" in
  match remove_first (fun k => kp_Kid k ==? kid) keys with
  | Some keys => keys_save keys (if activeKid ==? kid then "" else activeKid)
  | None => ret_err (NotFound "signing key" kid)
  end.

(** ** The store *)

#[export, refine] Instance FileStore : Store := {
  Users_Create := userRepository_Create;
  Users_GetByID := userRepository_GetByID;
  Users_GetByEmail := userRepository_GetByEmail;
  Users_Update := userRepository_Update;
  Users_Delete := userRepository_Delete;
  Users_List := userRepository_List;
  Clients_Create := clientRepository_Create;
  Clients_GetByID := clientRepository_GetByID;
  Clients_Update := clientRepository_Update;
  Clients_Delete := clientRepository_Delete;
  Clients_List := clientRepository_List;
  Sessions_Create := sessionRepository_Create;
  Sessions_GetByID := sessionRepository_GetByID;
  Sessions_Delete := sessionRepository_Delete;
  Sessions_DeleteByUserID := sessionRepository_DeleteByUserID;
  Sessions_DeleteExpired := sessionRepository_DeleteExpired;
  Sessions_ListByUserID := sessionRepository_ListByUserID;
  AuthCodes_Create := authCodeRepository_Create;
  AuthCodes_GetByCode := authCodeRepository_GetByCode;
  AuthCodes_MarkUsed := authCodeRepository_MarkUsed;
  AuthCodes_Delete := authCodeRepository_Delete;
  AuthCodes_DeleteExpired := authCodeRepository_DeleteExpired;
  Tokens_Create := tokenRepository_Create;
  Tokens_GetByID := tokenRepository_GetByID;
  Tokens_Revoke := tokenRepository_Revoke;
  Tokens_RevokeByUserID := tokenRepository_RevokeByUserID;
  Tokens_RevokeByClientID := tokenRepository_RevokeByClientID;
  Tokens_Rotate := tokenRepository_Rotate;
  Tokens_DeleteExpired := tokenRepository_DeleteExpired;
  Tokens_ListByUserID := tokenRepository_ListByUserID;
  Revocations_RevokeAccessToken := revocationRepository_RevokeAccessToken;
  Revocations_RevokeBefore := revocationRepository_RevokeBefore;
  Revocations_IsRevoked := revocationRepository_IsRevoked;
  Revocations_DeleteExpired := revocationRepository_DeleteExpired;
  Consents_Upsert := consentRepository_Upsert;
  Consents_Get := consentRepository_Get;
  Consents_ListByUserID := consentRepository_ListByUserID;
  Consents_Delete := consentRepository_Delete;
  Consents_DeleteByUserID := consentRepository_DeleteByUserID;
  Passkeys_Create := passkeyRepository_Create;
  Passkeys_ListByUserID := passkeyRepository_ListByUserID;
  Passkeys_Update := passkeyRepository_Update;
  Passkeys_Delete := passkeyRepository_Delete;
  Passkeys_DeleteByUserID := passkeyRepository_DeleteByUserID;
  Verification_Create := verificationTokenRepository_Create;
  Verification_GetByHash := verificationTokenRepository_GetByHash;
  Verification_MarkUsed := verificationTokenRepository_MarkUsed;
  Verification_DeleteByUserID := verificationTokenRepository_DeleteByUserID;
  Verification_DeleteExpired := verificationTokenRepository_DeleteExpired;
  Groups_Create := groupRepository_Create;
  Groups_GetByID := groupRepository_GetByID;
  Groups_GetByName := groupRepository_GetByName;
  Groups_Update := groupRepository_Update;
  Groups_Delete := groupRepository_Delete;
  Groups_List := groupRepository_List;
  Groups_AddMember := groupRepository_AddMember;
  Groups_RemoveMember := groupRepository_RemoveMember;
  Groups_MemberIDs := groupRepository_MemberIDs;
  Groups_GroupsForUser := groupRepository_GroupsForUser;
  Groups_RemoveUser := groupRepository_RemoveUser;
  Audit_Append := auditRepository_Append;
  Audit_List := auditRepository_List;
  Audit_DeleteBefore := auditRepository_DeleteBefore;
  SigningKeys_Create := signingKeyRepository_Create;
  SigningKeys_GetByID := signingKeyRepository_GetByID;
  SigningKeys_GetActive := signingKeyRepository_GetActive;
  SigningKeys_GetAll := signingKeyRepository_GetAll;
  SigningKeys_SetActive := signingKeyRepository_SetActive;
  SigningKeys_Delete := signingKeyRepository_Delete;
  Keys_GetByID := KeyRepository_GetByID;
  Keys_GetActive := KeyRepository_GetActive;
  Keys_GetAll := KeyRepository_GetAll;
  Keys_Save := KeyRepository_Save;
  Keys_SetActive := KeyRepository_SetActive;
  Keys_Delete := KeyRepository_Delete;
}.
Defined.
End file_store.
