(* ===== verification/FileLaws.v ===== *)
(** * The file store keeps the contract

    Each operation of [FileStore] is run symbolically: after [load] the rows
    are known, and the operation either refuses, or saves what the contract's
    row function gives.  [FileStoreLaws] collects the results; addresses are
    compared with [EqualFold]. *)
From S2P Require Import Prelude GoTime GoText Errors Domain Lockout PendingLogins World Run Store.
From S2P Require Import Exec FileStore.
#[local] Open Scope Z_scope.
#[local] Open Scope go_scope.

Section file_laws.
Context `{Env}.

(** Since [w], only reads, clock and identifiers. *)
Definition since (w w0 : World) : Prop :=
  w_disk w0 = w_disk w /\ calm w w0 /\ (w_tick w < w_tick w0)%nat.

Lemma since_ticked w w0 n : since w w0 -> since w (ticked n w0).
Proof.
  intros (Hd & (Ht & Hm & Hh & Ho) & Hlt). split; [done|]. split; [|simpl; lia].
  repeat split; simpl; try done; lia.
Qed.

Lemma since_first w : since w (ticked 1 w).
Proof. split; [done|]. split; [|simpl; lia]. repeat split; simpl; lia. Qed.

Lemma wp_load {A} (c : Coll A) m w (Q : res A -> World -> Prop) :
  (forall a, get c (w_disk w) = FData a -> Q (Ok a) (ticked 1 w)) ->
  (forall e, storage_error e -> fault c w (ticked 1 w) -> Q (Err e) (ticked 1 w)) ->
  wp (load c m) w Q.
Proof.
  intros Ha He. unfold load, mapErr. apply wp_bind. apply wp_intro. intros r w1 Hr.
  rewrite run_trigger in Hr. simpl in Hr. apply wp_ret.
  assert (env_io (w_tick w) <> IoOk -> fault c w (ticked 1 w)) as Hf.
  { intros Hne. right. exists (w_tick w). split; [simpl; lia|done]. }
  destruct (env_io (w_tick w)) eqn:E; [destruct (get c (w_disk w)) eqn:Eg| |];
    simplify_eq/=; auto; apply He; try (by right); auto. by left.
Qed.

Lemma instant_now w w0 : since w w0 -> instant w (ticked 1 w0) (env_clock (w_tick w0)).
Proof. intros (_ & _ & Hlt). exists (w_tick w0). simpl. split; [lia|done]. Qed.

Lemma fresh_now w w0 : since w w0 -> fresh_id w (ticked 1 w0) (env_uuid (w_tick w0)).
Proof. intros (_ & _ & Hlt). exists (w_tick w0). simpl. split; [lia|done]. Qed.

Lemma instant_any w w0 : since w w0 -> exists t, instant w w0 t.
Proof.
  intros (_ & _ & Hlt). exists (env_clock (w_tick w)), (w_tick w). split; [lia|done].
Qed.

Lemma fresh_any w w0 : since w w0 -> exists u, fresh_id w w0 u.
Proof.
  intros (_ & _ & Hlt). exists (env_uuid (w_tick w)), (w_tick w). split; [lia|done].
Qed.

Lemma instant_later w w0 w1 t :
  (w_tick w0 <= w_tick w1)%nat -> instant w w0 t -> instant w w1 t.
Proof. intros Hle (n & Hn & ->). exists n. split; [lia|done]. Qed.

Lemma fresh_later w w0 w1 u :
  (w_tick w0 <= w_tick w1)%nat -> fresh_id w w0 u -> fresh_id w w1 u.
Proof. intros Hle (n & Hn & ->). exists n. split; [lia|done]. Qed.

Section operation.
Context {A B : Type} (c : Coll A).

(** *** Queries *)

Lemma qry_load m (f : Z -> A -> res B) (k : A -> Prog (res B)) w :
  (forall a, get c (w_disk w) = FData a -> wp (k a) (ticked 1 w) (qry c f w)) ->
  wp (let? a := load c m in k a) w (qry c f w).
Proof.
  intros Hk. apply wp_bind. apply wp_load; [apply Hk|].
  intros e He Hf. apply wp_ret. destruct (since_first w) as (Hd & Hc & Hlt).
  split; [split; [simpl; lia|done]|]. split; [done|]. right. by exists e.
Qed.

Lemma qry_ret (f : Z -> A -> res B) w w0 a t r :
  since w w0 -> get c (w_disk w) = FData a -> instant w w0 t -> r = f t a ->
  wp (Ret r) w0 (qry c f w).
Proof.
  intros (Hd & Hc & Hlt) Ha Ht ->. apply wp_ret.
  split; [split; [lia|done]|]. split; [done|]. left. by exists a, t.
Qed.

(** *** Updates *)

Context (f : Z -> string -> A -> res (A * B)).

Lemma upd_load_at m (k : A -> Prog (res B)) w w0 :
  w_disk w0 = w_disk w -> calm w w0 ->
  (forall a, get c (w_disk w) = FData a -> wp (k a) (ticked 1 w0) (upd c f w)) ->
  wp (let? a := load c m in k a) w0 (upd c f w).
Proof.
  intros Hd (Ht & Hm & Hh & Ho) Hk. apply wp_bind. apply wp_load; [by rewrite Hd|].
  intros e He Hf. apply wp_ret.
  split; [by apply same_disk_frame; split; [simpl; lia|]|].
  split; [repeat split; simpl; try done; lia|].
  right. exists e. split; [done|]. split; [done|]. split; [|by left].
  destruct Hf as [Hf|(n & Hn & Hne)]; [left; by rewrite <-Hd|].
  right. exists n. simpl in *. split; [lia|done].
Qed.

Lemma upd_load m (k : A -> Prog (res B)) w :
  (forall a, get c (w_disk w) = FData a -> wp (k a) (ticked 1 w) (upd c f w)) ->
  wp (let? a := load c m in k a) w (upd c f w).
Proof. apply upd_load_at; [done|apply calm_refl]. Qed.

Lemma upd_refuse w w0 a t u e :
  since w w0 -> get c (w_disk w) = FData a -> instant w w0 t -> fresh_id w w0 u ->
  f t u a = Err e -> wp (ret_err e) w0 (upd c f w).
Proof.
  intros (Hd & Hc & Hlt) Ha Ht Hu Hf. apply wp_ret.
  split; [by apply same_disk_frame; split; [lia|]|]. split; [done|].
  left. exists a, t, u. by rewrite Hf.
Qed.

(** A success that has nothing to write. *)
Lemma upd_unchanged w w0 a t u b :
  since w w0 -> get c (w_disk w) = FData a -> instant w w0 t -> fresh_id w w0 u ->
  f t u a = Ok (a, b) -> wp (ret_ok b) w0 (upd c f w).
Proof.
  intros (Hd & Hc & Hlt) Ha Ht Hu Hf. apply wp_ret.
  split; [by apply same_disk_frame; split; [lia|]|]. split; [done|].
  left. exists a, t, u. rewrite Hf, Hd. by split_and!.
Qed.

Lemma upd_save w w0 a t u a' b :
  since w w0 -> get c (w_disk w) = FData a -> instant w w0 t -> fresh_id w w0 u ->
  f t u a = Ok (a', b) ->
  wp (let? _ := save c a' in ret_ok b) w0 (upd c f w).
Proof.
  intros (Hd & (Ht & Hm & Hh & Ho) & Hlt) Ha Hi Hu Hf.
  apply wp_bind, wp_intro. intros r w1 Hr. unfold save in Hr. rewrite run_trigger in Hr.
  simpl in Hr.
  assert (forall x, frame [name_of c] w (ticked 1 (with_disk (set c x (w_disk w0)) w0))) as Hframe.
  { intros x. split; [simpl; lia|]. intros A' c' Hc'. simpl. rewrite get_set_ne, Hd; [done|].
    intros E. rewrite E in Hc'. set_solver. }
  assert (forall x, calm w (ticked 1 (with_disk x w0))) as Hcalm.
  { intros x. repeat split; simpl; try done. lia. }
  assert (env_io (w_tick w0) <> IoOk -> forall x, fault c w (ticked 1 (with_disk x w0))) as Hft.
  { intros Hne x. right. exists (w_tick w0). split; [simpl; lia|done]. }
  destruct (env_io (w_tick w0)) eqn:E; simplify_eq; apply wp_ret.
  - split; [apply Hframe|]. split; [apply Hcalm|]. left. exists a, t, u.
    split; [done|]. split; [eapply instant_later; [|done]; simpl; lia|].
    split; [eapply fresh_later; [|done]; simpl; lia|].
    rewrite Hf. simpl. by rewrite get_set_eq.
  - split; [apply same_disk_frame; split; [simpl; lia|done]|].
    split; [repeat split; simpl; try done; lia|].
    right. exists ErrIO. repeat split; try (by left). right.
    exists (w_tick w0). split; [simpl; lia|congruence].
  - split; [apply Hframe|]. split; [apply Hcalm|]. right. exists ErrIO.
    split; [done|]. split; [by left|]. split; [by apply Hft|].
    right. simpl. by rewrite get_set_eq.
Qed.
End operation.

(** A save at the very end, without a result. *)
Lemma upd_save_last {A} (c : Coll A) f w w0 a t u a' :
  since w w0 -> get c (w_disk w) = FData a -> instant w w0 t -> fresh_id w w0 u ->
  f t u a = Ok (a', tt) -> wp (save c a') w0 (upd c f w).
Proof.
  intros Hs Ha Ht Hu Hf. pose proof (upd_save c f w w0 a t u a' tt Hs Ha Ht Hu Hf) as Hw.
  unfold save, ret_ok, wp in *. rewrite run_bind in Hw. destruct (run _ w0) as [[[]|e] w1]; done.
Qed.

(** An operation in a critical section behaves as without. *)
Lemma upd_locked {A B} (c : Coll A) (f : Z -> string -> A -> res (A * B)) l p w :
  (forall w, wp p w (upd c f w)) -> wp (locked l p) w (upd c f w).
Proof.
  intros Hp. unfold locked. apply wp_bind, wp_intro. intros [] w1 H1.
  unfold lock in H1. rewrite run_trigger in H1. simpl in H1. injection H1 as <-. apply wp_bind. eapply wp_mono; [apply Hp|].
  intros r w2 (Hfr & (Ht & Hm & Hh & Ho) & Hcase). apply wp_bind, wp_intro.
  intros [] w3 H3. unfold unlock in H3. rewrite run_trigger in H3. simpl in H3. injection H3 as H3.
  apply wp_ret. simpl in *. rewrite Hh, release_head in H3. subst w3. simpl in *.
  split; [|split].
  - destruct Hfr as [_ Hg]. split; [simpl in *; lia|]. intros A' c' Hc'. by apply Hg.
  - repeat split; simpl in *; try done. lia.
  - destruct Hcase as [(a & t & u & Ha & (n & Hn & ->) & (k & Hk & ->) & Hr)|(e & -> & He & Hf & Hd)].
    + left. exists a, (env_clock n), (env_uuid k). simpl in *. split; [done|].
      split; [exists n; simpl; split; [lia|done]|]. split; [exists k; simpl; split; [lia|done]|].
      done.
    + right. exists e. split; [done|]. split; [done|]. split; [|done].
      destruct Hf as [Hf|(n & Hn & Hne)]; [by left|]. right. exists n. simpl in *. split; [lia|done].
Qed.

(** A save whose caller goes on with something else. *)
Lemma save_then {A B C} (c : Coll A) a' (b : B) (k : Prog (res C)) w0 P Q :
  wp (let? _ := save c a' in ret_ok b) w0 P ->
  (forall w1, P (Ok b) w1 -> wp k w1 Q) -> (forall e w1, P (Err e) w1 -> Q (Err e) w1) ->
  wp (let? _ := save c a' in k) w0 Q.
Proof.
  intros Hw Hk He. apply wp_bind, wp_intro. intros r w1 Hr.
  unfold wp in Hw. rewrite run_bind, Hr in Hw. destruct r as [[]|e]; [by apply Hk|by apply He].
Qed.
End file_laws.

(** ** The tactics that run an operation *)

Ltac since_tac := first [ apply since_first | apply since_ticked; since_tac ].
Ltac instant_tac :=
  first [ eassumption | apply instant_now; since_tac
        | eapply instant_later; [|instant_tac]; simpl; lia ].

(** Some instant and some identifier of the run so far. *)
Ltac any_instant t Ht :=
  match goal with
  | |- wp _ ?w0 (upd _ _ ?w) =>
      destruct (instant_any w w0) as [t Ht]; [since_tac|]
  | |- wp _ ?w0 (qry _ _ ?w) =>
      destruct (instant_any w w0) as [t Ht]; [since_tac|]
  end.
Ltac any_id u Hu :=
  match goal with
  | |- wp _ ?w0 (upd _ _ ?w) => destruct (fresh_any w w0) as [u Hu]; [since_tac|]
  end.

(** A program may be followed by the return of its result. *)
Lemma wp_res_id `{Env} {A} (p : Prog (res A)) w Q : wp (let? x := p in ret_ok x) w Q -> wp p w Q.
Proof. unfold wp. rewrite run_bind. by destruct (run p w) as [[?|?] ?]. Qed.

(** A query without the clock. *)
Ltac file_qry :=
  apply qry_load; intros l Hl;
  let t := fresh "t" in let Ht := fresh "Ht" in
  any_instant t Ht; eapply qry_ret; [since_tac|exact Hl|exact Ht|reflexivity].

(** A query that returns the rows as they are. *)
Ltac file_qry_whole :=
  lazymatch goal with |- wp _ ?w (qry ?c ?f ?w) =>
    apply wp_res_id; apply (qry_load c _ f); intros l Hl;
    let t := fresh "t" in let Ht := fresh "Ht" in
    any_instant t Ht; eapply qry_ret; [since_tac|exact Hl|exact Ht|reflexivity]
  end.

(** A query that reads the clock after loading. *)
Ltac file_qry_now :=
  apply qry_load; intros l Hl; apply wp_bind, wp_now;
  eapply qry_ret; [since_tac|exact Hl|apply instant_now; since_tac|reflexivity].

(** Finish a branch of an update; [solve_f] shows what the row function gives. *)
Ltac refuse Hl solve_f :=
  let t := fresh "t" in let Ht := fresh "Ht" in let u := fresh "u" in let Hu := fresh "Hu" in
  any_instant t Ht; any_id u Hu;
  eapply upd_refuse; [since_tac|exact Hl|exact Ht|exact Hu|solve_f].
Ltac store_now Hl solve_f :=
  let u := fresh "u" in let Hu := fresh "Hu" in
  apply wp_bind, wp_now; any_id u Hu;
  first [ eapply upd_save_last; [since_tac|exact Hl|apply instant_now; since_tac|exact Hu|solve_f]
        | eapply upd_save; [since_tac|exact Hl|apply instant_now; since_tac|exact Hu|solve_f] ].
Ltac store_last Hl solve_f :=
  let t := fresh "t" in let Ht := fresh "Ht" in let u := fresh "u" in let Hu := fresh "Hu" in
  any_instant t Ht; any_id u Hu;
  eapply upd_save_last; [since_tac|exact Hl|exact Ht|exact Hu|solve_f].

Section instance.
Context `{UnicodeTables} `{Env}.

Lemma replace_first_default {A} (p : A -> bool) f l x :
  find_first p l = Some x -> replace_first p f l = Some (default l (replace_first p f l)).
Proof. intros Hx. by destruct (replace_first_find p f l x Hx) as [l' ->]. Qed.

Lemma omap_None_find {A B} (g : A -> option B) (p : A -> bool) l :
  (forall x, g x = None <-> p x = false) -> find_first p l = None -> omap g l = [].
Proof.
  intros Hg. induction l as [|x l IH]; simpl; [done|].
  destruct (p x) eqn:E; [done|]. rewrite (proj2 (Hg x)) by done. apply IH.
Qed.

Lemma omap_Some_find {A B} (g : A -> option B) (p : A -> bool) l x b :
  (forall x, g x = None <-> p x = false) -> find_first p l = Some x -> g x = Some b ->
  exists r, omap g l = b :: r.
Proof.
  intros Hg Hx Hb. induction l as [|y l IH]; simpl in *; [done|].
  destruct (p y) eqn:E; simplify_eq.
  - rewrite Hb. by eexists.
  - rewrite (proj2 (Hg y)) by done. by apply IH.
Qed.

Lemma consume_run {A} (c : Coll (list A)) msg (p spent : A -> bool) spend conflict missing w :
  wp (let? l := load c msg in
      match find_first p l with
      | Some a => if spent a then ret_err conflict else replace_or c p spend missing l
      | None => ret_err missing
      end) w (upd c (rows_consume p spent spend conflict missing) w).
Proof.
  apply upd_load. intros l Hl. destruct (find_first p l) as [x|] eqn:Hx.
  - destruct (spent x) eqn:Es.
    + refuse Hl ltac:(unfold rows_consume; by rewrite Hx, Es).
    + unfold replace_or. rewrite (replace_first_default p spend l x Hx).
      store_last Hl ltac:(unfold rows_consume; by rewrite Hx, Es).
  - refuse Hl ltac:(unfold rows_consume; by rewrite Hx).
Qed.

Lemma remove_run {A} (c : Coll (list A)) msg p missing w :
  wp (let? l := load c msg in remove_or c p missing l) w (upd c (rows_remove p missing) w).
Proof.
  apply upd_load. intros l Hl. unfold remove_or. destruct (remove_first p l) eqn:E.
  - store_last Hl ltac:(unfold rows_remove; by rewrite E).
  - refuse Hl ltac:(unfold rows_remove; by rewrite E).
Qed.

Lemma keep_run {A} (c : Coll (list A)) msg (p : A -> bool) w :
  wp (let? l := load c msg in save c (List.filter p l)) w (upd c (rows_keep (fun _ => p)) w).
Proof. apply upd_load. intros l Hl. store_last Hl ltac:(done). Qed.

Lemma keep_now_run {A} (c : Coll (list A)) msg (p : Z -> A -> bool) w :
  wp (let? l := load c msg in let! t := now in save c (List.filter (p t) l)) w
    (upd c (rows_keep p) w).
Proof. apply upd_load. intros l Hl. store_now Hl ltac:(done). Qed.

(** Append a row stamped with the instant. *)
Lemma add_run {A} (c : Coll (list A)) msg (x : Z -> A) w :
  wp (let? l := load c msg in let! t := now in
      let? _ := save c (l ++ [x t]) in ret_ok (x t)) w
    (upd c (rows_add (fun _ => None) x) w).
Proof.
  apply upd_load. intros l Hl. store_now Hl ltac:(unfold rows_add).
  assert (omap (fun _ : A => @None error) l = []) as ->; [|done].
  clear Hl. induction l as [|y l IH]; [done|exact IH].
Qed.

Lemma Users_Create_run user w :
  wp (userRepository_Create user) w
    (upd CUsers (rows_add (fun u =>
       if user_ID u ==? user_ID user then Some (AlreadyExists "user" (user_ID user))
       else if EqualFold (user_Email u) (user_Email user)
            then Some (AlreadyExists "user with email" (user_Email user)) else None)
     (fun t => user_set_times t t user)) w).
Proof.
  apply upd_load. intros l Hl.
  match goal with |- context [rows_add ?taken _] => set (g := taken) end.
  assert (forall u, g u = None <-> user_taken user u = false) as Hg.
  { intros u. unfold g, user_taken.
    destruct (user_ID u ==? user_ID user), (EqualFold _ _); naive_solver. }
  destruct (find_first (user_taken user) l) as [u|] eqn:Hu.
  - destruct (user_ID u ==? user_ID user) eqn:E.
    + destruct (omap_Some_find g _ l u (AlreadyExists "user" (user_ID user)) Hg Hu) as [r Hr];
        [unfold g; by rewrite E|].
      refuse Hl ltac:(unfold rows_add; by rewrite Hr).
    + destruct (omap_Some_find g _ l u (AlreadyExists "user with email" (user_Email user)) Hg Hu)
        as [r Hr].
      { apply find_first_Some in Hu as [_ Hu]. unfold user_taken in Hu. rewrite E in Hu.
        simpl in Hu. unfold g. by rewrite E, Hu. }
      refuse Hl ltac:(unfold rows_add; by rewrite Hr).
  - pose proof (omap_None_find g _ l Hg Hu) as Hn.
    store_now Hl ltac:(unfold rows_add; by rewrite Hn).
Qed.

Lemma Users_Update_run user w :
  wp (userRepository_Update user) w
    (upd CUsers (rows_replace (fun u => user_ID u ==? user_ID user)
     (fun t _ => user_set_updated t user) (fun t => user_set_updated t user)
     (NotFound "user" (user_ID user))) w).
Proof.
  apply upd_load. intros l Hl. set (p := fun u => user_ID u ==? user_ID user).
  destruct (find_first p l) as [u|] eqn:Hu.
  - apply wp_bind, wp_now. any_id u' Hu'. unfold replace_or.
    assert (forall t, user_ID (user_set_updated t user) = user_ID user) as Hid by by destruct user.
    rewrite Hid. rewrite (replace_first_default p _ l u Hu).
    eapply upd_save; [since_tac|exact Hl|apply instant_now; since_tac|exact Hu'|].
    unfold rows_replace. by rewrite (replace_first_default p _ l u Hu).
  - refuse Hl ltac:(unfold rows_replace). by rewrite (proj2 (replace_first_None p _ l) Hu).
Qed.

Lemma Clients_Update_run client w :
  wp (clientRepository_Update client) w
    (upd CClients (rows_replace (fun c => client_ID c ==? client_ID client)
     (fun t _ => client_set_times (client_CreatedAt client) t client)
     (fun t => client_set_times (client_CreatedAt client) t client)
     (NotFound "client" (client_ID client))) w).
Proof.
  apply upd_load. intros l Hl. set (p := fun c => client_ID c ==? client_ID client).
  destruct (find_first p l) as [c|] eqn:Hc.
  - apply wp_bind, wp_now. any_id u' Hu'. unfold replace_or.
    assert (forall t, client_ID (client_set_times (client_CreatedAt client) t client)
                      = client_ID client) as Hid by by destruct client.
    rewrite Hid. rewrite (replace_first_default p _ l c Hc).
    eapply upd_save; [since_tac|exact Hl|apply instant_now; since_tac|exact Hu'|].
    unfold rows_replace. by rewrite (replace_first_default p _ l c Hc).
  - refuse Hl ltac:(unfold rows_replace). by rewrite (proj2 (replace_first_None p _ l) Hc).
Qed.

(** The upsert of a revocation, in any state reached by reading. *)
Lemma upsert_run kind key nb ex (f : Z -> string -> list Revocation -> res (list Revocation * unit)) w w0 t :
  w_disk w0 = w_disk w -> calm w w0 -> instant w w0 t ->
  (forall u l, f t u l = Ok (upsert_revocation kind key nb ex l, tt)) ->
  wp (revocationRepository_upsert kind key nb ex) w0 (upd CRevocations f w).
Proof.
  intros Hd Hc Ht Hf. apply upd_load_at; [done|done|]. intros l Hl.
  assert (since w (ticked 1 w0)) as Hs.
  { destruct Hc as (Htk & Hm & Hh & Ho). split; [done|]. split; [|simpl; lia].
    repeat split; simpl; try done; lia. }
  destruct (fresh_any w (ticked 1 w0) Hs) as [u Hu].
  destruct (replace_first _ _ l) as [l'|] eqn:E;
    (eapply upd_save_last; [exact Hs|exact Hl|eapply instant_later; [|exact Ht]; simpl; lia|exact Hu|]);
    rewrite Hf; unfold upsert_revocation; by rewrite E.
Qed.

Lemma RevokeBefore_now_run kind key w :
  wp (let! n := now in revocationRepository_RevokeBefore kind key n) w
    (upd CRevocations (rows_revoke_now kind key) w).
Proof.
  apply wp_bind, wp_now. eapply upsert_run; [done| |exists (w_tick w)|done].
  - repeat split; simpl; lia.
  - simpl. split; [lia|done].
Qed.

Lemma Tokens_Revoke_run id w :
  wp (tokenRepository_Revoke id) w
  (upd_then CTokens (rows_revoke_token id) CRevocations
     (fun t => rows_revoke_now RevocationUserClient
                 (UserClientKey (token_UserID t) (token_ClientID t))) w).
Proof.
  apply wp_bind, wp_load.
  2:{ intros e He Hf. apply wp_ret. exists (Err e), (ticked 1 w). split; [|done].
      destruct (since_first w) as (Hd & Hc & Hlt).
      split; [by apply same_disk_frame; split; [simpl; lia|]|]. split; [done|].
      right. exists e. auto. }
  intros l Hl. set (p := fun t => token_ID t ==? id).
  destruct (find_first p l) as [t|] eqn:E.
  - unfold replace_or. rewrite (replace_first_default p _ l t E).
    destruct (instant_any w (ticked 1 w)) as [i Hi]; [since_tac|].
    destruct (fresh_any w (ticked 1 w)) as [u Hu]; [since_tac|].
    eapply save_then.
    + eapply (upd_save CTokens (rows_revoke_token id)); [since_tac|exact Hl|exact Hi|exact Hu|].
      unfold rows_revoke_token. fold p. by rewrite E.
    + intros w1 H1. eapply wp_mono; [apply RevokeBefore_now_run|].
      intros r w2 H2. exists (Ok t), w1. by split.
    + intros e w1 H1. exists (Err e), w1. by split.
  - apply wp_ret. exists (Err (NotFound "token" id)), (ticked 1 w). split; [|done].
    apply (wp_run (ret_err (NotFound "token" id)) (ticked 1 w)
             (upd CTokens (rows_revoke_token id) w)); [|done].
    refuse Hl ltac:(unfold rows_revoke_token; fold p; by rewrite E).
Qed.

Lemma revoke_all_run msg kind key p w :
  wp (let? tokens := load CTokens msg in
      let? _ := save CTokens (revoke_where p tokens) in
      let! n := now in revocationRepository_RevokeBefore kind key n) w
  (upd_then CTokens (fun _ _ l => Ok (revoke_where p l, tt))
     CRevocations (fun _ => rows_revoke_now kind key) w).
Proof.
  apply wp_bind, wp_load.
  2:{ intros e He Hf. apply wp_ret. exists (Err e), (ticked 1 w). split; [|done].
      destruct (since_first w) as (Hd & Hc & Hlt).
      split; [by apply same_disk_frame; split; [simpl; lia|]|]. split; [done|].
      right. exists e. auto. }
  intros l Hl.
  destruct (instant_any w (ticked 1 w)) as [i Hi]; [since_tac|].
  destruct (fresh_any w (ticked 1 w)) as [u Hu]; [since_tac|].
  eapply save_then.
  - eapply (upd_save CTokens (fun _ _ l => Ok (revoke_where p l, tt)));
      [since_tac|exact Hl|exact Hi|exact Hu|reflexivity].
  - intros w1 H1. eapply wp_mono; [apply RevokeBefore_now_run|].
    intros r w2 H2. exists (Ok tt), w1. by split.
  - intros e w1 H1. exists (Err e), w1. by split.
Qed.

Lemma replace_run {A} (c : Coll (list A)) msg p (f : A -> A) missing w :
  wp (let? l := load c msg in replace_or c p f missing l) w
    (upd c (rows_replace p (fun _ => f) (fun _ => tt) missing) w).
Proof.
  apply upd_load. intros l Hl. unfold replace_or. destruct (replace_first p f l) eqn:E.
  - store_last Hl ltac:(unfold rows_replace; by rewrite E).
  - refuse Hl ltac:(unfold rows_replace; by rewrite E).
Qed.

(** Append a row stamped with the instant, unless it collides. *)
Lemma add_unless_run {A} (c : Coll (list A)) msg (p : A -> bool) taken (x : Z -> A) w :
  wp (let? l := load c msg in
      match find_first p l with
      | Some _ => ret_err taken
      | None => let! t := now in let? _ := save c (l ++ [x t]) in ret_ok (x t)
      end) w (upd c (rows_add_unless p taken x) w).
Proof.
  apply upd_load. intros l Hl. unfold rows_add_unless.
  match goal with |- context [rows_add ?g _] => set (g' := g) end.
  assert (forall t, g' t = None <-> p t = false) as Hg by (intros t; unfold g'; destruct (p t); naive_solver).
  destruct (find_first p l) as [t|] eqn:Ht.
  - destruct (omap_Some_find g' p l t taken Hg Ht) as [r Hr].
    { apply find_first_Some in Ht as [_ Ht]. unfold g'. by rewrite Ht. }
    refuse Hl ltac:(unfold rows_add; by rewrite Hr).
  - pose proof (omap_None_find g' p l Hg Ht) as Hn.
    store_now Hl ltac:(unfold rows_add; by rewrite Hn).
Qed.

(** *** Groups *)

Lemma Groups_Delete_run id w : wp (groupRepository_Delete id) w (upd CGroups (groups_delete id) w).
Proof.
  apply upd_load. intros [gs ms] Hl. destruct (remove_first _ gs) eqn:E.
  - store_last Hl ltac:(unfold groups_delete; cbn [fst snd]; by rewrite E).
  - refuse Hl ltac:(unfold groups_delete; cbn [fst snd]; by rewrite E).
Qed.

Lemma Groups_RemoveMember_run groupID userID w :
  wp (groupRepository_RemoveMember groupID userID) w (upd CGroups (groups_remove_member groupID userID) w).
Proof.
  apply upd_load. intros [gs ms] Hl. destruct (remove_first _ ms) eqn:E.
  - store_last Hl ltac:(unfold groups_remove_member; cbn [fst snd]; by rewrite E).
  - refuse Hl ltac:(unfold groups_remove_member; cbn [fst snd]; by rewrite E).
Qed.

Lemma Groups_AddMember_run groupID userID w :
  wp (groupRepository_AddMember groupID userID) w (upd CGroups (groups_add_member groupID userID) w).
Proof.
  apply upd_load. intros [gs ms] Hl. unfold find_or.
  destruct (find_first _ gs) eqn:E; cbn [bind].
  - destruct (existsb (member_of groupID userID) ms) eqn:Em.
    + any_instant t Ht. any_id u Hu.
      eapply upd_unchanged; [since_tac|exact Hl|exact Ht|exact Hu|].
      unfold groups_add_member. cbn [fst snd]. by rewrite E, Em.
    + store_last Hl ltac:(unfold groups_add_member; cbn [fst snd]; by rewrite E, Em).
  - refuse Hl ltac:(unfold groups_add_member; cbn [fst snd]; by rewrite E).
Qed.

Lemma Groups_RemoveUser_run userID w :
  wp (groupRepository_RemoveUser userID) w (upd CGroups (groups_remove_user userID) w).
Proof. apply upd_load. intros [gs ms] Hl. store_last Hl ltac:(done). Qed.

Ltac group_qry := apply qry_load; intros [gs ms] Hl;
  let t := fresh "t" in let Ht := fresh "Ht" in
  any_instant t Ht; eapply qry_ret; [since_tac|exact Hl|exact Ht|reflexivity].

(** The tail of [Upsert], once the ID is chosen. *)
Lemma upsert_consent_tail consent id w w0 u l :
  since w w0 -> get CConsents (w_disk w) = FData l -> fresh_id w w0 u ->
  id = (if consent_ID consent ==? "" then u else consent_ID consent) ->
  wp (let! t := now in
      let consent := consent_set id t consent in
      let p := consent_of (consent_UserID consent) (consent_ClientID consent) in
      match find_first p l with
      | Some c =>
          let consent := consent_set (consent_ID c) t consent in
          let? _ := replace_or CConsents p (fun _ => consent) (NotFound "consent" "") l in
          ret_ok consent
      | None =>
          let? _ := save CConsents (l ++ [consent]) in
          ret_ok consent
      end) w0 (upd CConsents (rows_upsert_consent consent) w).
Proof.
  intros Hs Hl Hu ->. apply wp_bind, wp_now. cbn [consent_UserID consent_ClientID consent_set].
  set (p := consent_of (consent_UserID consent) (consent_ClientID consent)).
  assert (fresh_id w (ticked 1 w0) u) as Hu' by (eapply fresh_later; [|exact Hu]; simpl; lia).
  destruct (find_first p l) as [c|] eqn:E; unfold replace_or;
    [rewrite (replace_first_default p _ l c E)|];
    (eapply upd_save; [by apply since_ticked|exact Hl|by apply instant_now|exact Hu'|]);
    unfold rows_upsert_consent; fold p; by rewrite E.
Qed.

Lemma Consents_Upsert_run consent w :
  wp (consentRepository_Upsert consent) w (upd CConsents (rows_upsert_consent consent) w).
Proof.
  apply upd_load. intros l Hl. destruct (consent_ID consent ==? "") eqn:E.
  - apply wp_bind, wp_uuid. eapply upsert_consent_tail; [since_tac|exact Hl| |by rewrite E].
    apply fresh_now. since_tac.
  - apply wp_bind, wp_ret. destruct (fresh_any w (ticked 1 w)) as [u Hu]; [since_tac|].
    eapply upsert_consent_tail; [since_tac|exact Hl|exact Hu|by rewrite E].
Qed.

(** Runs an operation event by event, when only its frame is promised. *)
Ltac run_events :=
  repeat match goal with
  | |- wp (bind _ _) _ _ => apply wp_bind
  | |- wp (if ?b then _ else _) _ _ => destruct b
  | |- wp (match ?r with Ok _ => _ | Err _ => _ end) _ _ => destruct r
  | |- wp (match ?r with Some _ => _ | None => _ end) _ _ => destruct r
  | |- wp (let '(_, _) := ?r in _) _ _ => destruct r
  | |- wp (Ret _) _ _ => apply wp_ret
  | |- wp (ret_ok _) _ _ => apply wp_ret
  | |- wp (ret_err _) _ _ => apply wp_ret
  | |- wp newUUID _ _ => apply wp_uuid
  | |- wp now _ _ => apply wp_now
  | |- wp (trigger _) _ _ => apply wp_intro; intros ? ? Hr; rewrite run_trigger in Hr; simpl in Hr;
      repeat split_match_in Hr; injection Hr as <- <-
  end; repeat split; simpl; lia.

Lemma Audit_Append_run ev w :
  wp (auditRepository_Append ev) w (fun r w' => frame [NAudit] w w' /\ calm w w').
Proof.
  assert (touches [NAudit] (auditRepository_Append ev)) as Ht.
  { unfold auditRepository_Append, load, mapErr, save. touch. }
  apply wp_and; [apply Ht|]. clear Ht. unfold auditRepository_Append, load, mapErr, save. run_events.
Qed.

Lemma Groups_Create_run group w :
  wp (groupRepository_Create group) w (fun r w' => frame [NGroups] w w' /\ calm w w').
Proof.
  assert (touches [NGroups] (groupRepository_Create group)) as Ht.
  { unfold groupRepository_Create, load, mapErr, save. touch. }
  apply wp_and; [apply Ht|]. clear Ht. unfold groupRepository_Create, load, mapErr, save. run_events.
Qed.

Lemma Groups_Update_run group w :
  wp (groupRepository_Update group) w (fun r w' => frame [NGroups] w w' /\ calm w w').
Proof.
  assert (touches [NGroups] (groupRepository_Update group)) as Ht.
  { unfold groupRepository_Update, load, mapErr, save. touch. }
  apply wp_and; [apply Ht|]. clear Ht. unfold groupRepository_Update, load, mapErr, save. run_events.
Qed.

Lemma Groups_List_run w : wp groupRepository_List w (fun r w' => same_disk w w' /\ calm w w').
Proof.
  apply wp_bind, wp_load; [intros [gs ms] _|intros e _ _];
    (apply wp_ret; split; [split; [simpl; lia|done]|repeat split; simpl; lia]).
Qed.

Lemma Groups_GroupsForUser_run userID : exists groups, forall w,
  wp (groupRepository_GroupsForUser userID) w (qry CGroups (fun _ gm => Ok (groups gm)) w).
Proof. exists (fun gm => groups_for_user userID gm.1 gm.2). intros w. group_qry. Qed.

Lemma Keys_GetByID_run kid w : wp (KeyRepository_GetByID kid) w
  (qry CKeys (fun t f => rows_find (fun k => kp_Kid k ==? kid) (NotFound "signing key" kid) t f.1) w).
Proof.
  apply qry_load. intros [rows active] Hl. any_instant t Ht.
  eapply qry_ret; [apply since_first|exact Hl|exact Ht|done].
Qed.

Lemma Keys_Save_run k w : wp (KeyRepository_Save k) w (upd CKeys (rows_put_key k) w).
Proof.
  apply upd_load. intros [rows active] Hl. unfold keys_save.
  destruct (replace_first _ _ rows) eqn:E;
    store_last Hl ltac:(unfold rows_put_key, keys_put; simpl; by rewrite E).
Qed.

Lemma Keys_SetActive_run kid w : wp (KeyRepository_SetActive kid) w (upd CKeys (rows_activate_key kid) w).
Proof.
  apply upd_load. intros [rows active] Hl. unfold keys_save.
  destruct (existsb _ rows) eqn:E.
  - store_last Hl ltac:(unfold rows_activate_key; simpl; by rewrite E).
  - refuse Hl ltac:(unfold rows_activate_key; simpl; by rewrite E).
Qed.

Lemma Keys_Delete_run kid w : wp (KeyRepository_Delete kid) w (upd CKeys (rows_delete_key kid) w).
Proof.
  apply upd_load. intros [rows active] Hl. unfold keys_save.
  destruct (remove_first _ rows) eqn:E.
  - store_last Hl ltac:(unfold rows_delete_key; simpl; by rewrite E).
  - refuse Hl ltac:(unfold rows_delete_key; simpl; by rewrite E).
Qed.

Lemma Keys_GetActive_run w : wp KeyRepository_GetActive w (qry CKeys rows_active_key w).
Proof.
  apply qry_load. intros [rows active] Hl. any_instant t Ht.
  destruct (active ==? "") eqn:E;
    (eapply qry_ret; [apply since_first|exact Hl|exact Ht|]; unfold rows_active_key; simpl; by rewrite E).
Qed.

Lemma Keys_GetAll_run w : wp KeyRepository_GetAll w (qry CKeys (fun _ f => Ok f.1) w).
Proof.
  apply qry_load. intros [rows active] Hl.
  any_instant t Ht.
  eapply qry_ret; [apply since_first|exact Hl|exact Ht|done].
Qed.

Lemma SigningKeys_SetActive_run id w :
  wp (signingKeyRepository_SetActive id) w (upd CSigningKeys (rows_activate_signing id) w).
Proof.
  apply upd_load. intros rows Hl. destruct (existsb _ rows) eqn:E.
  - store_last Hl ltac:(unfold rows_activate_signing; by rewrite E).
  - refuse Hl ltac:(unfold rows_activate_signing; by rewrite E).
Qed.

(** The file store is a [Store] as the services expect it. *)
#[export] Instance FileStoreLaws : StoreLaws EqualFold.
Proof.
  constructor; intros.
  - file_qry.
  - file_qry.
  - apply Users_Create_run.
  - apply Users_Update_run.
  - file_qry.
  - apply Clients_Update_run.
  - apply remove_run.
  - file_qry_whole.
  - apply add_unless_run.
  - apply remove_run.
  - file_qry_whole.
  - file_qry_now.
  - apply add_run.
  - file_qry.
  - apply remove_run.
  - apply keep_run.
  - apply (keep_now_run CSessions _ (fun t s => After (session_ExpiresAt s) t)).
  - apply add_run.
  - file_qry.
  - apply upd_locked. intros ?. apply consume_run.
  - apply (keep_now_run CAuthCodes _ (fun t a => After (ac_ExpiresAt a) t)).
  - apply add_run.
  - file_qry.
  - apply Tokens_Revoke_run.
  - apply revoke_all_run.
  - apply revoke_all_run.
  - apply upd_locked. intros ?. apply consume_run.
  - apply (keep_now_run CTokens _ (fun n t => After (token_ExpiresAt t) n)).
  - file_qry_now.
  - apply wp_bind, wp_now. eapply upsert_run; [done| |exists (w_tick w)|done].
    + repeat split; simpl; lia.
    + simpl. split; [lia|done].
  - eapply (upsert_run _ _ _ _ _ w w (env_clock (w_tick w))); [done|apply calm_refl| |done].
    exists (w_tick w). split; [lia|done].
  - file_qry.
  - apply (keep_now_run CRevocations _ (fun t rv => After (rv_ExpiresAt rv) t)).
  - file_qry.
  - apply Consents_Upsert_run.
  - file_qry.
  - apply remove_run.
  - apply keep_run.
  - apply add_unless_run.
  - apply replace_run.
  - apply remove_run.
  - file_qry.
  - apply keep_run.
  - apply add_unless_run.
  - file_qry.
  - apply replace_run.
  - apply keep_run.
  - apply (keep_now_run CVerification _ (fun n t => After (vt_ExpiresAt t) n)).
  - apply Groups_GroupsForUser_run.
  - apply Groups_Create_run.
  - group_qry.
  - group_qry.
  - apply Groups_Update_run.
  - apply Groups_Delete_run.
  - apply Groups_List_run.
  - apply Groups_AddMember_run.
  - apply Groups_RemoveMember_run.
  - group_qry.
  - apply Groups_RemoveUser_run.
  - file_qry.
  - apply Audit_Append_run.
  - apply keep_run.
  - apply add_unless_run.
  - file_qry.
  - file_qry.
  - file_qry_whole.
  - apply SigningKeys_SetActive_run.
  - apply remove_run.
  - apply Keys_GetByID_run.
  - apply Keys_GetActive_run.
  - apply Keys_GetAll_run.
  - apply Keys_Save_run.
  - apply Keys_SetActive_run.
  - apply Keys_Delete_run.
Qed.
End instance.

(** signing_keys.json in the two layouts: a write through one repository
    leaves nothing of what the other had there. *)
Lemma key_file_shared d :
  (forall keys, get CKeys (set CSigningKeys (FData keys) d) = FData ([], "")) /\
  (forall data, get CSigningKeys (set CKeys (FData data) d) = FData []).
Proof. by destruct d. Qed.
