(* ===== verification/Revocations.v ===== *)
(** * Revocations of access tokens: the table refines a map

    The rows of [revocations.json] are at most one per kind and key.  The
    abstract table is a finite map from kind and key to the watermark
    ([not_before], [expires_at]); the row operations of the contract are
    refined by insertion with maximum, lookup and filtering. *)
From S2P Require Import Prelude GoTime GoText Errors Domain Lockout PendingLogins World Run Store Exec FileStore.
From S2P Require Import FileLaws.
#[local] Open Scope Z_scope.
#[local] Open Scope go_scope.

Definition rv_id (rv : Revocation) : string * string := (rv_Kind rv, rv_Key rv).
Definition rv_mark (rv : Revocation) : Z * Z := (rv_NotBefore rv, rv_ExpiresAt rv).

(** ** The abstract table *)

Definition table (rows : list Revocation) : gmap (string * string) (Z * Z) :=
  list_to_map (map (fun rv => (rv_id rv, rv_mark rv)) rows).

(** Record a mark, keeping the later of both instants. *)
Definition record_mark (id : string * string) (nb ex : Z) (m : gmap (string * string) (Z * Z))
    : gmap (string * string) (Z * Z) :=
  <[id := match m !! id with
          | Some (n, e) => (Z.max n nb, Z.max e ex)
          | None => (nb, ex)
          end]> m.

(** The tokens a mark of an id revokes. *)
Definition marked (m : gmap (string * string) (Z * Z)) (id : string * string) (issuedAt : Z) : bool :=
  match m !! id with Some (n, _) => negb (After issuedAt n) | None => false end.

Definition table_revokes (m : gmap (string * string) (Z * Z)) (jti userID clientID : string)
    (issuedAt : Z) : bool :=
  bool_decide (is_Some (m !! (RevocationJTI, jti)))
  || marked m (RevocationUser, userID) issuedAt
  || marked m (RevocationUserClient, UserClientKey userID clientID) issuedAt
  || marked m (RevocationClient, clientID) issuedAt.

(** ** Rows *)

Lemma same_row_true k y rv : same_row k y rv = true <-> rv_id rv = (k, y).
Proof.
  unfold same_row, rv_id. rewrite andb_true_iff, !bool_decide_eq_true. naive_solver.
Qed.

Lemma lookup_table rows id :
  table rows !! id = rv_mark <$> find_first (same_row id.1 id.2) rows.
Proof.
  unfold table. induction rows as [|rv rows IH]; simpl; [apply lookup_empty|].
  destruct (same_row id.1 id.2 rv) eqn:E.
  - apply same_row_true in E. destruct id as [k y]. simpl in E. rewrite E. by rewrite lookup_insert_eq.
  - rewrite lookup_insert_ne; [done|]. intros Heq. destruct id as [k y].
    apply not_true_iff_false in E. apply E. by apply same_row_true.
Qed.

Lemma raise_id nb ex rv : rv_id (raise_revocation nb ex rv) = rv_id rv.
Proof. done. Qed.

Lemma raise_mark nb ex rv :
  rv_mark (raise_revocation nb ex rv) = (Z.max (rv_NotBefore rv) nb, Z.max (rv_ExpiresAt rv) ex).
Proof.
  unfold rv_mark, raise_revocation, After. simpl.
  f_equal; case_match eqn:E; bool_to_prop; lia.
Qed.

Lemma find_upsert k y nb ex rows id :
  find_first (same_row id.1 id.2) (upsert_revocation k y nb ex rows) =
  if decide (id = (k, y)) then
    Some (match find_first (same_row k y) rows with
          | Some rv => raise_revocation nb ex rv
          | None => {| rv_Kind := k; rv_Key := y; rv_NotBefore := nb; rv_ExpiresAt := ex |}
          end)
  else find_first (same_row id.1 id.2) rows.
Proof.
  destruct id as [k' y']. cbn [fst snd]. unfold upsert_revocation.
  induction rows as [|rv rows IH]; cbn [replace_first find_first].
  - simpl. destruct (same_row k' y' _) eqn:E; case_decide as Hd; try done.
    + apply same_row_true in E. simplify_eq.
    + apply not_true_iff_false in E. exfalso. apply E, same_row_true. unfold rv_id. simpl. congruence.
  - destruct (same_row k y rv) eqn:E.
    + apply same_row_true in E. cbn [find_first].
      destruct (same_row k' y' (raise_revocation nb ex rv)) eqn:E'.
      * apply same_row_true in E'. rewrite raise_id, E in E'. simplify_eq. by rewrite decide_True.
      * rewrite decide_False.
        -- destruct (same_row k' y' rv) eqn:E2; [|done]. apply same_row_true in E2.
           apply not_true_iff_false in E'. exfalso. apply E', same_row_true. by rewrite raise_id.
        -- intros Heq. apply not_true_iff_false in E'. apply E', same_row_true. rewrite raise_id. congruence.
    + revert IH. destruct (replace_first _ _ rows) as [rows'|] eqn:Er; simpl; intros IH.
      * destruct (same_row k' y' rv) eqn:E2; [|done].
        case_decide as Hd; [|done]. exfalso. apply same_row_true in E2.
        apply not_true_iff_false in E. apply E, same_row_true. congruence.
      * destruct (same_row k' y' rv) eqn:E2; [|done].
        case_decide as Hd; [|done]. exfalso. apply same_row_true in E2.
        apply not_true_iff_false in E. apply E, same_row_true. congruence.
Qed.

Lemma table_upsert k y nb ex rows :
  table (upsert_revocation k y nb ex rows) = record_mark (k, y) nb ex (table rows).
Proof.
  apply map_eq. intros id. rewrite lookup_table, find_upsert. unfold record_mark.
  destruct (decide (id = (k, y))) as [->|Hne].
  - rewrite lookup_insert_eq, lookup_table. cbn [fst snd].
    destruct (find_first (same_row k y) rows) as [rv|] eqn:E; simpl.
    + by rewrite <-raise_mark.
    + done.
  - by rewrite lookup_insert_ne, lookup_table by done.
Qed.

Lemma upsert_unique k y nb ex rows :
  unique_by rv_id rows -> unique_by rv_id (upsert_revocation k y nb ex rows).
Proof.
  intros Hu. unfold upsert_revocation. destruct (replace_first _ _ rows) eqn:E.
  - by apply (unique_by_replace rv_id _ _ _ _ (fun x _ => raise_id nb ex x) E).
  - apply unique_by_app_fresh; [done|]. intros rv Hrv Heq.
    apply replace_first_None in E. apply find_first_None with (x := rv) in E; [|done].
    apply not_true_iff_false in E. by apply E, same_row_true.
Qed.

(** Purging keeps the rows whose mark has not expired. *)
Lemma table_purge t rows :
  unique_by rv_id rows ->
  table (List.filter (fun rv => After (rv_ExpiresAt rv) t) rows)
  = filter (fun km : (string * string) * (Z * Z) => t < km.2.2) (table rows).
Proof.
  induction rows as [|rv rows IH]; intros Hu; simpl.
  - symmetry. apply map_filter_empty.
  - unfold unique_by in Hu. rewrite fmap_cons in Hu. apply list.NoDup_cons in Hu as [Hfresh Hu].
    specialize (IH Hu). unfold table at 2. simpl.
    fold (table rows).
    destruct (After (rv_ExpiresAt rv) t) eqn:E.
    + rewrite map_filter_insert_True by (apply After_spec, E). unfold table at 1. simpl. by f_equal.
    + rewrite map_filter_insert_False by (simpl; apply After_false in E; lia). rewrite IH. symmetry.
      rewrite delete_id; [done|]. rewrite lookup_table.
      destruct (find_first _ rows) eqn:Ef; [|done]. exfalso.
      apply find_first_Some in Ef as [Hin Hid]. apply same_row_true in Hid.
      apply Hfresh, list_elem_of_fmap. exists r. by destruct (rv_id rv).
Qed.

(** Looking rows up by scanning is looking the map up. *)
Lemma existsb_orb {A} (f g : A -> bool) l :
  existsb (fun x => f x || g x) l = existsb f l || existsb g l.
Proof.
  induction l as [|x l IH]; [done|]. simpl. rewrite IH.
  by destruct (f x), (g x), (existsb f l), (existsb g l).
Qed.

Lemma existsb_row k y f rows :
  unique_by rv_id rows ->
  existsb (fun rv => same_row k y rv && f rv) rows =
  match find_first (same_row k y) rows with Some rv => f rv | None => false end.
Proof.
  induction rows as [|rv rows IH]; intros Hu; [done|]. simpl.
  unfold unique_by in Hu. rewrite fmap_cons in Hu. apply list.NoDup_cons in Hu as [Hfresh Hu].
  specialize (IH Hu). destruct (same_row k y rv) eqn:E; simpl; [|done].
  rewrite IH. destruct (find_first _ rows) as [r|] eqn:Ef; [|apply orb_false_r]. exfalso.
  apply find_first_Some in Ef as [Hin Hid]. apply same_row_true in Hid, E.
  apply Hfresh, list_elem_of_fmap. exists r. by rewrite E, Hid.
Qed.

Lemma revokes_split jti userID clientID issuedAt rv :
  revokes jti userID clientID issuedAt rv =
  (same_row RevocationJTI jti rv && true)
  || (same_row RevocationUser userID rv && negb (After issuedAt (rv_NotBefore rv)))
  || (same_row RevocationUserClient (UserClientKey userID clientID) rv
      && negb (After issuedAt (rv_NotBefore rv)))
  || (same_row RevocationClient clientID rv && negb (After issuedAt (rv_NotBefore rv))).
Proof.
  unfold revokes, same_row.
  destruct (rv_Kind rv ==? RevocationJTI) eqn:E1;
    [apply bool_decide_eq_true in E1; rewrite E1; simpl; by rewrite !andb_true_r, !orb_false_r|].
  destruct (rv_Kind rv ==? RevocationUser) eqn:E2;
    [apply bool_decide_eq_true in E2; rewrite E2; simpl; by rewrite !orb_false_r|].
  destruct (rv_Kind rv ==? RevocationUserClient) eqn:E3;
    [apply bool_decide_eq_true in E3; rewrite E3; simpl; by rewrite !orb_false_r|].
  simpl. by destruct (rv_Kind rv ==? RevocationClient).
Qed.

Lemma revokes_table jti userID clientID issuedAt rows :
  unique_by rv_id rows ->
  existsb (revokes jti userID clientID issuedAt) rows =
  table_revokes (table rows) jti userID clientID issuedAt.
Proof.
  intros Hu.
  assert (forall f g : Revocation -> bool, (forall x, f x = g x) ->
          existsb f rows = existsb g rows) as Hext.
  { intros f g Hfg. clear Hu. induction rows as [|x l IH]; [done|]. simpl. by rewrite Hfg, IH. }
  rewrite (Hext _ _ (revokes_split jti userID clientID issuedAt)), !existsb_orb.
  rewrite !existsb_row by done. unfold table_revokes, marked. rewrite !lookup_table. cbn [fst snd].
  repeat f_equal; destruct (find_first _ rows); simpl; done.
Qed.

(** ** The revocation repository refines a map, and purging is safe

    Every operation of the repository of the file store is the map operation
    of [Revocations]; a purge never makes a token acceptable again that could
    still be presented. *)

Section repository.
Context `{UnicodeTables} `{Env}.

(** The file holds rows that stand for the map [m]. *)
Definition stands_for (w : World) (m : gmap (string * string) (Z * Z)) : Prop :=
  exists rows, get CRevocations (w_disk w) = FData rows /\ unique_by rv_id rows /\ table rows = m.

Lemma upsert_stands_for rows kind key nb ex w' :
  unique_by rv_id rows -> get CRevocations (w_disk w') = FData (upsert_revocation kind key nb ex rows) ->
  stands_for w' (record_mark (kind, key) nb ex (table rows)).
Proof. intros Hu Hg. eexists. split; [exact Hg|]. split; [by apply upsert_unique|apply table_upsert]. Qed.

(** While the file stands for a map from kinds and keys to marks,
    each operation that succeeds is an operation on the map: revoking a token
    or a whole kind raises one mark, purging drops the marks that have
    expired, and a query answers what the map says. *)
Theorem revocation_refinement w m w' :
  stands_for w m ->
  (forall jti ex, run (revocationRepository_RevokeAccessToken jti ex) w = (Ok tt, w') ->
     exists t, instant w w' t /\ stands_for w' (record_mark (RevocationJTI, jti) t ex m)) /\
  (forall kind key nb, run (revocationRepository_RevokeBefore kind key nb) w = (Ok tt, w') ->
     stands_for w' (record_mark (kind, key) nb (Add nb RevocationRetention) m)) /\
  (run revocationRepository_DeleteExpired w = (Ok tt, w') ->
     exists t, instant w w' t /\
       stands_for w' (filter (fun km : (string * string) * (Z * Z) => t < km.2.2) m)) /\
  (forall jti userID clientID issuedAt b,
     run (revocationRepository_IsRevoked jti userID clientID issuedAt) w = (Ok b, w') ->
     b = table_revokes m jti userID clientID issuedAt /\ w_disk w' = w_disk w).
Proof.
  intros (rows & Hg & Hu & <-). split_and!.
  - intros jti ex Hr.
    pose proof (wp_run _ _ _ _ _ (law_Revocations_RevokeAccessToken jti ex w) Hr) as Hq.
    apply upd_Ok in Hq as (a & t & u & a' & Ha & Hi & _ & Hf & Hg'). rewrite Hg in Ha.
    injection Ha as <-. injection Hf as <-. exists t. split; [done|by apply (upsert_stands_for rows)].
  - intros kind key nb Hr.
    pose proof (wp_run _ _ _ _ _ (law_Revocations_RevokeBefore kind key nb w) Hr) as Hq.
    apply upd_Ok in Hq as (a & t & u & a' & Ha & Hi & _ & Hf & Hg'). rewrite Hg in Ha.
    injection Ha as <-. injection Hf as <-. by apply (upsert_stands_for rows).
  - intros Hr. pose proof (wp_run _ _ _ _ _ (law_Revocations_DeleteExpired w) Hr) as Hq.
    apply upd_Ok in Hq as (a & t & u & a' & Ha & Hi & _ & Hf & Hg'). rewrite Hg in Ha.
    injection Ha as <-. injection Hf as <-. exists t. split; [done|].
    eexists. split; [exact Hg'|]. split; [|by apply table_purge].
    eapply unique_by_sublist; [apply sublist_filter_list|exact Hu].
  - intros jti userID clientID issuedAt b Hr.
    pose proof (wp_run _ _ _ _ _ (law_Revocations_IsRevoked jti userID clientID issuedAt w) Hr) as Hq.
    split; [|apply (qry_same _ _ _ _ _ Hq)].
    apply qry_Ok in Hq as (a & t & Ha & _ & Hf). rewrite Hg in Ha. injection Ha as <-.
    injection Hf as <-. by apply revokes_table.
Qed.
End repository.

(** ** Purging *)

(** A mark on more than one token outlives every token it covers. *)
Definition outlasts (rows : list Revocation) : Prop :=
  forall rv, rv ∈ rows -> rv_Kind rv <> RevocationJTI ->
    rv_NotBefore rv + MaxAccessTokenTTL <= rv_ExpiresAt rv.

Lemma outlasts_upsert kind key nb ex rows :
  outlasts rows -> (kind <> RevocationJTI -> nb + MaxAccessTokenTTL <= ex) ->
  outlasts (upsert_revocation kind key nb ex rows).
Proof.
  intros Ho Hex rv Hin. unfold upsert_revocation in Hin.
  destruct (replace_first _ _ rows) as [rows'|] eqn:E.
  - destruct (replace_first_elem _ _ _ _ _ E Hin) as [Hold|(y & Hy & Hrow & ->)]; [by apply Ho|].
    intros Hk. cbn in Hk. specialize (Ho y Hy Hk). apply same_row_true in Hrow.
    unfold rv_id in Hrow. simplify_eq. specialize (Hex Hk). cbn. unfold After.
    repeat case_match; bool_to_prop; lia.
  - apply elem_of_app in Hin as [Hin|Hin]; [by apply Ho|].
    apply list_elem_of_singleton in Hin as ->. cbn. done.
Qed.

(** What the operations write keeps every mark long enough. *)
Lemma outlasts_before kind key nb rows :
  outlasts rows -> outlasts (upsert_revocation kind key nb (Add nb RevocationRetention) rows).
Proof.
  intros Ho. apply outlasts_upsert; [done|]. intros _. unfold Add.
  pose proof retention_outlives_tokens. lia.
Qed.

(** A purge at instant [t] makes a revoked access token pass again
    only when nothing can come of it: the token was issued more than the
    longest lifetime ago, or it was revoked by its own identifier until [t] or
    earlier (the expiry of that token).  Every row the repository writes for
    more than one token lasts that long ([outlasts_before]). *)
Theorem purge_keeps_live rows t jti userID clientID issuedAt :
  outlasts rows ->
  existsb (revokes jti userID clientID issuedAt) rows = true ->
  existsb (revokes jti userID clientID issuedAt)
    (List.filter (fun rv => After (rv_ExpiresAt rv) t) rows) = false ->
  issuedAt + MaxAccessTokenTTL <= t \/
  exists rv, rv ∈ rows /\ rv_id rv = (RevocationJTI, jti) /\ rv_ExpiresAt rv <= t.
Proof.
  intros Ho Hbefore Hafter. apply existsb_exists in Hbefore as (rv & Hin & Hrev).
  assert (After (rv_ExpiresAt rv) t = false) as Hexp.
  { apply not_true_iff_false. intros Hlive. apply not_true_iff_false in Hafter. apply Hafter.
    apply existsb_exists. exists rv. split; [|done]. apply filter_In. by split. }
  apply After_false in Hexp. apply list_elem_of_In in Hin. rewrite revokes_split in Hrev.
  destruct (decide (rv_Kind rv = RevocationJTI)) as [Hk|Hk].
  - right. exists rv. split_and!; try done.
    rewrite !orb_true_iff, !andb_true_iff, !same_row_true in Hrev. unfold rv_id in *. rewrite Hk in Hrev.
    rewrite Hk. destruct Hrev as [[[[Heq _]|[Heq _]]|[Heq _]]|[Heq _]]; by simplify_eq.
  - left. specialize (Ho rv Hin Hk).
    rewrite !orb_true_iff, !andb_true_iff, !same_row_true, !negb_true_iff, !After_false in Hrev.
    unfold rv_id in Hrev. destruct Hrev as [[[[Heq _]|[_ Hle]]|[_ Hle]]|[_ Hle]]; [by simplify_eq|lia..].
Qed.
