(* ===== verification/Keys.v ===== *)
(** * Signing keys: internal/crypto/keys.go, jwks.go and service.go

    The key pairs and [KeyService], with its cache of the active key in
    memory.  Key generation and the PEM, PKCS and PKIX encodings of keys
    belong to the cryptographic libraries: they are the class [KeyLib]. *)
From S2P Require Import Prelude GoTime GoText Encoding Errors Domain Lockout PendingLogins World Run Store.
From S2P Require Import FileStore.
#[local] Open Scope Z_scope.
#[local] Open Scope go_scope.

Definition AlgRS256 := "RS256".
Definition AlgEdDSA := "EdDSA".
Definition DefaultKeySize : Z := 2048.
Definition DefaultActiveKeyCacheTTL : Z := Minute.
Definition SupportedAlgorithms : list string := [AlgRS256; AlgEdDSA].

Definition ValidAlgorithm (alg : string) : bool := existsb (fun a => a ==? alg) SupportedAlgorithms.

(** internal/crypto/jwks.go *)
Definition KeyUse := "sig".

Record JWK := {
  jwk_Kty : string;
  jwk_Use : string;
  jwk_Kid : string;
  jwk_Alg : string;
  jwk_N : string;
  jwk_E : string;
  jwk_Crv : string;
  jwk_X : string;
}.

(** What a parsed PKCS#8 block holds. *)
Inductive pkcs8_key :=
| Signer (k : PrivateKey)
| NotSigner.

(** [rsa.GenerateKey] and [ed25519.GenerateKey] on a random seed, [pem] and
    [x509], and the parts of a public key: modulus and exponent as big-endian
    bytes, the 32 bytes of an Ed25519 key. *)
Class KeyLib := {
  rsa_GenerateKey : Z -> list Z -> res (string * string);
  ed25519_GenerateKey : list Z -> res (string * string);
  pem_Encode : string -> string -> string;
  pem_Decode : string -> option (string * string);
  ParsePKCS1PrivateKey : string -> res PrivateKey;
  MarshalPKCS1PrivateKey : PrivateKey -> string;
  ParsePKCS8PrivateKey : string -> res pkcs8_key;
  MarshalPKCS8PrivateKey : PrivateKey -> res string;
  ParsePKIXPublicKey : string -> res PublicKey;
  MarshalPKIXPublicKey : PublicKey -> res string;
  rsa_N : string -> list Z;
  rsa_E : string -> list Z;
  ed25519_bytes : string -> list Z;
}.

(** ** Key pairs *)

Definition KeyPair_IsExpired (t : Z) (k : KeyPair) : bool :=
  if IsZero (kp_ExpiresAt k) then false else After t (kp_ExpiresAt k).

Section key_pairs.
Context `{Store} `{KeyLib}.

(** [KeyPair.ToJWK]. *)
Definition ToJWK (kp : KeyPair) : JWK :=
  match kp_PublicKey kp with
  | Some (RSAPublicKey der) => {|
      jwk_Kty := "RSA"; jwk_Use := KeyUse; jwk_Kid := kp_Kid kp; jwk_Alg := kp_Alg kp;
      jwk_N := RawURLEncodeToString (rsa_N der); jwk_E := RawURLEncodeToString (rsa_E der);
      jwk_Crv := ""; jwk_X := "" |}
  | Some (Ed25519PublicKey der) => {|
      jwk_Kty := "OKP"; jwk_Use := KeyUse; jwk_Kid := kp_Kid kp; jwk_Alg := kp_Alg kp;
      jwk_N := ""; jwk_E := ""; jwk_Crv := "Ed25519"; jwk_X := RawURLEncodeToString (ed25519_bytes der) |}
  | _ => {|
      jwk_Kty := ""; jwk_Use := KeyUse; jwk_Kid := kp_Kid kp; jwk_Alg := kp_Alg kp;
      jwk_N := ""; jwk_E := ""; jwk_Crv := ""; jwk_X := "" |}
  end.

Definition serializeToPEM (kp : KeyPair) (priv : PrivateKey) (pub : PublicKey) : res KeyPair :=
  res_bind
    (match priv with
     | RSAPrivateKey _ => Ok (pem_Encode "RSA PRIVATE KEY" (MarshalPKCS1PrivateKey priv))
     | _ => res_map (pem_Encode "PRIVATE KEY")
              (map_err (Errorf "failed to marshal private key") (MarshalPKCS8PrivateKey priv))
     end) (fun privPEM =>
  res_bind (map_err (Errorf "failed to marshal public key") (MarshalPKIXPublicKey pub)) (fun der =>
  Ok (kp_set_pem privPEM (pem_Encode "PUBLIC KEY" der) kp))).

Definition newKeyPair (alg : string) (priv : PrivateKey) (pub : PublicKey) : Prog (res KeyPair) :=
  let! kid := newUUID in
  let! t := now in
  Ret (serializeToPEM
    {| kp_Kid := kid; kp_Alg := alg; kp_PrivateKey := Some priv; kp_PublicKey := Some pub;
       kp_CreatedAt := t; kp_ExpiresAt := zero_time; kp_Active := true;
       kp_PrivateKeyPEM := None; kp_PublicKeyPEM := None |} priv pub).

Definition GenerateKeyPair (keySize : Z) : Prog (res KeyPair) :=
  let keySize := if keySize =? 0 then DefaultKeySize else keySize in
  let! seed := randRead 32 in
  match map_err (Errorf "failed to generate RSA key") (res_bind seed (rsa_GenerateKey keySize)) with
  | Ok (priv, pub) => newKeyPair AlgRS256 (RSAPrivateKey priv) (RSAPublicKey pub)
  | Err e => ret_err e
  end.

Definition GenerateKeyPairForAlg (alg : string) : Prog (res KeyPair) :=
  if alg ==? AlgRS256 then GenerateKeyPair DefaultKeySize
  else if alg ==? AlgEdDSA then
    let! seed := randRead 32 in
    match map_err (Errorf "failed to generate Ed25519 key") (res_bind seed ed25519_GenerateKey) with
    | Ok (priv, pub) => newKeyPair AlgEdDSA (Ed25519PrivateKey priv) (Ed25519PublicKey pub)
    | Err e => ret_err e
    end
  else ret_err (Plain ("unsupported signing algorithm " +:+ alg)).

(** The material agrees with the algorithm. *)
Definition check_alg (kid alg : string) (priv : PrivateKey) (pub : PublicKey) : res unit :=
  if alg ==? AlgRS256 then
    match priv, pub with
    | RSAPrivateKey _, RSAPublicKey _ => Ok tt
    | RSAPrivateKey _, _ => Err (Plain ("key " +:+ kid +:+ ": wrong public key type"))
    | _, _ => Err (Plain ("key " +:+ kid +:+ ": wrong private key type"))
    end
  else if alg ==? AlgEdDSA then
    match priv, pub with
    | Ed25519PrivateKey _, Ed25519PublicKey _ => Ok tt
    | Ed25519PrivateKey _, _ => Err (Plain ("key " +:+ kid +:+ ": wrong public key type"))
    | _, _ => Err (Plain ("key " +:+ kid +:+ ": wrong private key type"))
    end
  else Err (Plain ("key " +:+ kid +:+ " has unsupported algorithm " +:+ alg)).

Definition parse_private (block : string * string) : res PrivateKey :=
  if block.1 ==? "RSA PRIVATE KEY" then
    map_err (Errorf "failed to parse private key") (ParsePKCS1PrivateKey block.2)
  else
    res_bind (map_err (Errorf "failed to parse private key") (ParsePKCS8PrivateKey block.2))
      (fun k => match k with
       | Signer k => Ok k
       | NotSigner => Err (Plain "private key type cannot sign")
       end).

Definition LoadFromPEM (kp : KeyPair) : res KeyPair :=
  match kp_PrivateKeyPEM kp, kp_PublicKeyPEM kp with
  | Some privPEM, Some pubPEM =>
      match pem_Decode privPEM with
      | None => Err (Plain "failed to decode private key PEM")
      | Some block =>
          res_bind (parse_private block) (fun priv =>
          match pem_Decode pubPEM with
          | None => Err (Plain "failed to decode public key PEM")
          | Some block =>
              res_bind (map_err (Errorf "failed to parse public key") (ParsePKIXPublicKey block.2))
                (fun pub =>
              let alg := if kp_Alg kp ==? "" then AlgRS256 else kp_Alg kp in
              res_bind (check_alg (kp_Kid kp) alg priv pub) (fun _ =>
              Ok (kp_set_material alg (Some priv) (Some pub) kp)))
          end)
      end
  | _, _ => Err (Plain "PEM data is missing")
  end.

(** [if key.PrivateKey == nil { key.LoadFromPEM() }]. *)
Definition ensure_private (k : KeyPair) : res KeyPair :=
  match kp_PrivateKey k with
  | Some _ => Ok k
  | None => map_err (Errorf "failed to load key from PEM") (LoadFromPEM k)
  end.

Definition ensure_both (k : KeyPair) : res KeyPair :=
  match kp_PrivateKey k, kp_PublicKey k with
  | Some _, Some _ => Ok k
  | _, _ => map_err (Errorf "failed to load key from PEM") (LoadFromPEM k)
  end.

(** ** KeyService *)

Record KeyService := { ks_cacheTTL : Z; ks_algorithm : string }.

Context (s : KeyService).

(** [cachedActive], reading the clock once. *)
Definition cachedActive (t : Z) (c : option KeyPair * Z) : option KeyPair :=
  match c.1 with
  | None => None
  | Some k =>
      if (ks_cacheTTL s <=? 0) || negb (Sub t c.2 <? ks_cacheTTL s) then None else Some k
  end.

Definition setActive (k : KeyPair) : Prog unit :=
  crit (fun t _ m => (tt, set_keyCache (Some k, t) m)).

Definition read_cache : Prog (option KeyPair) :=
  crit (fun t _ m => (cachedActive t (m_keyCache m), m)).

Definition generate_and_activate (k : KeyPair) : Prog (res KeyPair) :=
  let? _ := mapErr (Errorf "failed to save key") (Keys_Save k) in
  let? _ := mapErr (Errorf "failed to activate key") (Keys_SetActive (kp_Kid k)) in
  let! _ := setActive k in
  ret_ok k.

Definition EnsureActiveKey : Prog (res KeyPair) :=
  locked LKeys (
    let! r := Keys_GetActive in
    match r with
    | Ok key =>
        let? key := Ret (ensure_private key) in
        let! _ := setActive key in
        ret_ok key
    | Err _ =>
        let? key := mapErr (Errorf "failed to generate key") (GenerateKeyPairForAlg (ks_algorithm s)) in
        generate_and_activate key
    end).

Definition GetActiveKey : Prog (res KeyPair) :=
  let! c := locked RKeys read_cache in
  match c with
  | Some key => ret_ok key
  | None =>
      locked LKeys (
        let! c := read_cache in
        match c with
        | Some key => ret_ok key
        | None =>
            let? key := Keys_GetActive in
            let? key := Ret (ensure_private key) in
            let! _ := setActive key in
            ret_ok key
        end)
  end.

(** The keys that are published, each read at its own instant. *)
Fixpoint publish (keys : list KeyPair) : Prog (list KeyPair) :=
  match keys with
  | [] => Ret []
  | k :: keys =>
      let! t := now in
      let! rest := publish keys in
      Ret (if KeyPair_IsExpired t k then rest
           else match kp_PublicKey k with
           | Some _ => k :: rest
           | None => match LoadFromPEM k with Ok k => k :: rest | Err _ => rest end
           end)
  end.

Definition GetJWKS : Prog (res (list JWK)) :=
  locked RKeys (
    let? keys := Keys_GetAll in
    let! keys := publish keys in
    ret_ok (map ToJWK keys)).

Definition ListKeys : Prog (res (list KeyPair)) :=
  locked RKeys (
    let? keys := Keys_GetAll in
    ret_ok (sort_by (fun a b => After (kp_CreatedAt a) (kp_CreatedAt b)) keys)).

Definition RotateKey (expiresIn : Z) : Prog (res KeyPair) :=
  locked LKeys (
    let! old := Keys_GetActive in
    let? _ := (match old with
               | Ok oldKey =>
                   let! t := now in
                   mapErr (Errorf "failed to update old key")
                     (Keys_Save (kp_set_expires (Add t expiresIn) (kp_set_active false oldKey)))
               | Err _ => ret_ok tt
               end) in
    let? newKey := mapErr (Errorf "failed to generate key") (GenerateKeyPairForAlg (ks_algorithm s)) in
    generate_and_activate newKey).

Definition ShouldRotate (maxAge : Z) : Prog (res bool) :=
  if maxAge <=? 0 then ret_ok false
  else
    let? key := GetActiveKey in
    let! t := now in
    ret_ok (negb (Sub t (kp_CreatedAt key) <? maxAge)).

Definition GetKeyByID (kid : string) : Prog (res KeyPair) :=
  locked RKeys (
    let? key := Keys_GetByID kid in
    Ret (ensure_both key)).

Fixpoint delete_expired (keys : list KeyPair) : Prog (res unit) :=
  match keys with
  | [] => ret_ok tt
  | k :: keys =>
      let! t := now in
      if KeyPair_IsExpired t k && negb (kp_Active k) then
        let? _ := mapErr (Errorf ("failed to delete expired key " +:+ kp_Kid k))
                    (Keys_Delete (kp_Kid k)) in
        delete_expired keys
      else delete_expired keys
  end.

Definition CleanupExpiredKeys : Prog (res unit) :=
  locked LKeys (
    let? keys := Keys_GetAll in
    delete_expired keys).
End key_pairs.
