(* ===== verification/Password.v ===== *)
(** * internal/auth/password.go and internal/oidc/clientsecret.go

    Argon2id hashes of passwords and client secrets in their stored form.
    The hash function itself is golang.org/x/crypto's: the class [Argon2]. *)
From S2P Require Import Prelude GoTime GoText Encoding Errors Domain Lockout PendingLogins World.
From S2P Require Import Run Store.
From Stdlib Require Import Ascii.
#[local] Open Scope Z_scope.
#[local] Open Scope go_scope.

(** [argon2.IDKey(password, salt, time, memory, threads, keyLen)] and
    [argon2.Version]. *)
Class Argon2 := {
  IDKey : list Z -> list Z -> Z -> Z -> Z -> Z -> list Z;
}.
Definition argon2_Version : Z := 0x13.

(** The documented result: [keyLen] bytes. *)
Class Argon2Laws `{Argon2} : Prop := {
  IDKey_length p s t m k n : length (IDKey p s t m k n) = Z.to_nat n;
  IDKey_bytes p s t m k n : Forall is_byte (IDKey p s t m k n);
}.

Definition argonTime : Z := 1.
Definition argonMemory : Z := 64 * 1024.
Definition argonThreads : Z := 4.
Definition argonKeyLen : Z := 32.
Definition argonSaltLen : nat := 16.

Definition clientSecretHashPrefix := "$argon2id$".

Section password.
Context `{Argon2}.

(** The last line of [HashPassword]. *)
Definition format_hash (salt hash : list Z) : string :=
  Join [""; "argon2id"; "v=" +:+ dec argon2_Version;
        "m=" +:+ dec argonMemory +:+ ",t=" +:+ dec argonTime +:+ ",p=" +:+ dec argonThreads;
        RawStdEncodeToString salt; RawStdEncodeToString hash] "$".

Definition HashPassword (password : string) : Prog (res string) :=
  let? salt := mapErr (Errorf "failed to generate salt") (randRead argonSaltLen) in
  ret_ok (format_hash salt
    (IDKey (bytes password) salt argonTime argonMemory argonThreads argonKeyLen)).

Definition version_format : list scan_item := [Lit 118; Lit 61; IntVerb].
Definition parameter_format : list scan_item :=
  [Lit 109; Lit 61; UintVerb 32; Lit 44; Lit 116; Lit 61; UintVerb 32;
   Lit 44; Lit 112; Lit 61; UintVerb 8].

Definition VerifyPassword (password encodedHash : string) : res bool :=
  match Split encodedHash "$"%char with
  | [_; alg; version; params; salt64; hash64] =>
      if alg !=? "argon2id" then Err (Plain ("unsupported algorithm: " +:+ alg))
      else match sscanf version_format (bytes version) with
      | None => Err (Plain "invalid version")
      | Some _ =>
          match sscanf parameter_format (bytes params) with
          | Some [memory; time; threads] =>
              match RawStdDecodeString salt64 with
              | None => Err (Plain "invalid salt")
              | Some salt =>
                  match RawStdDecodeString hash64 with
                  | None => Err (Plain "invalid hash")
                  | Some expected =>
                      Ok (IDKey (bytes password) salt time memory threads
                            (Z.of_nat (length expected)) ==? expected)
                  end
              end
          | _ => Err (Plain "invalid parameters")
          end
      end
  | _ => Err (Plain "invalid hash format")
  end.

(** ** Client secrets *)

Definition HashClientSecret (secret : string) : Prog (res string) := HashPassword secret.

Definition IsHashedClientSecret (stored : string) : bool :=
  HasPrefix stored clientSecretHashPrefix.

(** Whether it matched, and whether the stored value is legacy plaintext. *)
Definition VerifyClientSecret (stored presented : string) : bool * bool :=
  if (stored ==? "") || (presented ==? "") then (false, false)
  else if IsHashedClientSecret stored then
    (match VerifyPassword presented stored with Ok m => m | Err _ => false end, false)
  else (stored ==? presented, true).

(** Whether the client is authenticated; the client with its secret
    upgraded goes back to the store. *)
Definition authenticateClient `{Store} (client : Client) (presented : string) : Prog (bool * Client) :=
  if client_Public client then Ret (true, client)
  else
    let '(ok, legacy) := VerifyClientSecret (client_Secret client) presented in
    if negb ok then Ret (false, client)
    else if legacy then
      let! h := HashClientSecret presented in
      match h with
      | Ok hash =>
          let client := client_set_secret hash client in
          let! r := Clients_Update client in
          Ret (true, match r with Ok c => c | Err _ => client end)
      | Err _ => Ret (true, client)
      end
    else Ret (true, client).
End password.

(** ** Round trip *)

Section roundtrip.
Context `{Argon2Laws}.

Lemma RawStd_no_dollar l : Forall is_byte l -> has_no "$"%char (RawStdEncodeToString l).
Proof.
  intros Hl. unfold has_no, RawStdEncodeToString. rewrite bytes_of_bytes.
  - apply enc64_avoids; [|done]. by apply char64_avoids.
  - apply printable_is_byte, enc64_printable; [apply std64_good|done|constructor].
Qed.

(** Verifying against a hash in the stored form compares derived keys. *)
Lemma VerifyPassword_format q salt hash :
  Forall is_byte salt -> Forall is_byte hash ->
  VerifyPassword q (format_hash salt hash) =
  Ok (IDKey (bytes q) salt argonTime argonMemory argonThreads (Z.of_nat (length hash)) ==? hash).
Proof.
  intros Hsalt Hhash. unfold VerifyPassword, format_hash.
  rewrite Split_Join; [|done|].
  2:{ repeat apply Forall_cons_2; try (by apply RawStd_no_dollar); try constructor;
        apply (bool_decide_eq_true_1 _); vm_compute; reflexivity. }
  rewrite RawStd_roundtrip by done. rewrite RawStd_roundtrip by done.
  reflexivity.
Qed.
End roundtrip.
