(* ===== verification/Jwt.v ===== *)
(** * internal/crypto/jwt.go: claims and the token generator

    [Claims] and their JSON form, and [TokenGenerator].  Signing, header
    decoding and the checks of [jwt.ParseWithClaims] (signature, [exp],
    [nbf]) belong to golang-jwt: they are the class [JwtLib], with the
    documented behaviour the theorems rely on in [JwtLaws]. *)
From S2P Require Import Prelude GoTime GoText Errors Domain Lockout PendingLogins World Run Store.
From S2P Require Import FileStore Keys.
#[local] Open Scope Z_scope.
#[local] Open Scope go_scope.

(** ** Claims *)

(** The values [SetExtra] is called with, and what [UnmarshalJSON] may find
    for a name it does not know. *)
Inductive claim_value :=
| VString (s : string)
| VInt (z : Z)
| VBool (b : bool)
| VStrings (l : list string)
| VNull
| VOther (json : string).

#[export] Instance claim_value_eq_dec : EqDecision claim_value.
Proof. solve_decision. Defined.

(** [Groups] distinguishes nil ([None]) from an empty list; the registered
    times are pointers. *)
Record Claims := {
  cl_Email : string;
  cl_EmailVerified : bool;
  cl_Name : string;
  cl_Groups : option (list string);
  cl_Scope : string;
  cl_ClientID : string;
  cl_Extra : gmap string claim_value;
  cl_Issuer : string;
  cl_Subject : string;
  cl_Audience : list string;
  cl_ExpiresAt : option Z;
  cl_NotBefore : option Z;
  cl_IssuedAt : option Z;
  cl_ID : string;
}.

Definition empty_claims : Claims :=
  Build_Claims "" false "" None "" "" ∅ "" "" [] None None None "".

(** The assignments of the source. *)
Definition claims_set_email (email : string) (verified : bool) (c : Claims) : Claims :=
  let '(Build_Claims _ _ n g s i x iss sub au ex nb ia id) := c in
  Build_Claims email verified n g s i x iss sub au ex nb ia id.
Definition claims_set_name (name : string) (c : Claims) : Claims :=
  let '(Build_Claims e v _ g s i x iss sub au ex nb ia id) := c in
  Build_Claims e v name g s i x iss sub au ex nb ia id.
Definition claims_set_groups (groups : list string) (c : Claims) : Claims :=
  let '(Build_Claims e v n _ s i x iss sub au ex nb ia id) := c in
  Build_Claims e v n (Some groups) s i x iss sub au ex nb ia id.
Definition claims_set_client (scope clientID : string) (c : Claims) : Claims :=
  let '(Build_Claims e v n g _ _ x iss sub au ex nb ia id) := c in
  Build_Claims e v n g scope clientID x iss sub au ex nb ia id.
Definition claims_set_registered (issuer subject : string) (audience : list string)
    (expiresAt notBefore issuedAt : Z) (id : string) (c : Claims) : Claims :=
  let '(Build_Claims e v n g s i x _ _ _ _ _ _ _) := c in
  Build_Claims e v n g s i x issuer subject audience
    (Some expiresAt) (Some notBefore) (Some issuedAt) id.
Definition SetExtra (name : string) (value : claim_value) (c : Claims) : Claims :=
  let '(Build_Claims e v n g s i x iss sub au ex nb ia id) := c in
  Build_Claims e v n g s i (<[name := value]> x) iss sub au ex nb ia id.

(** ** The JSON object

    A JSON object is the map of its members.  [omitempty] leaves a member out
    when it is the zero value; [jwt.RegisteredClaims] has it on every field.
    Times are JSON numbers of whole seconds and an audience is a list. *)

Definition knownClaims : list string :=
  ["email"; "email_verified"; "name"; "groups"; "scope"; "client_id";
   "iss"; "sub"; "aud"; "exp"; "nbf"; "iat"; "jti"].

Definition put_string (k v : string) (m : gmap string claim_value) : gmap string claim_value :=
  if v ==? "" then m else <[k := VString v]> m.
Definition put_bool (k : string) (v : bool) (m : gmap string claim_value) : gmap string claim_value :=
  if v then <[k := VBool true]> m else m.
Definition put_strings (k : string) (v : list string) (m : gmap string claim_value)
    : gmap string claim_value :=
  match v with [] => m | _ => <[k := VStrings v]> m end.
Definition put_time (k : string) (v : option Z) (m : gmap string claim_value)
    : gmap string claim_value :=
  match v with Some t => <[k := VInt (Unix t)]> m | None => m end.

(** [json.Marshal(claimsJSON(c))]. *)
Definition base_json (c : Claims) : gmap string claim_value :=
  put_string "email" (cl_Email c) $ put_bool "email_verified" (cl_EmailVerified c) $
  put_string "name" (cl_Name c) $ put_strings "groups" (default [] (cl_Groups c)) $
  put_string "scope" (cl_Scope c) $ put_string "client_id" (cl_ClientID c) $
  put_string "iss" (cl_Issuer c) $ put_string "sub" (cl_Subject c) $
  put_strings "aud" (cl_Audience c) $ put_time "exp" (cl_ExpiresAt c) $
  put_time "nbf" (cl_NotBefore c) $ put_time "iat" (cl_IssuedAt c) $
  put_string "jti" (cl_ID c) ∅.

(** [merged[k] = v] unless the typed fields have taken [k]: a union in which
    the left map wins. *)
Definition MarshalJSON (c : Claims) : gmap string claim_value :=
  let base := base_json c in
  let emptyGroups := match cl_Groups c with Some [] => true | _ => false end in
  if bool_decide (cl_Extra c = ∅) && negb emptyGroups then base
  else
    let merged := if emptyGroups then <["groups" := VStrings []]> base else base in
    merged ∪ cl_Extra c.

(** A null member leaves a typed field as it is. *)
Definition get_string (k : string) (m : gmap string claim_value) : option string :=
  match m !! k with
  | None | Some VNull => Some ""
  | Some (VString s) => Some s
  | Some _ => None
  end.
Definition get_bool (k : string) (m : gmap string claim_value) : option bool :=
  match m !! k with
  | None | Some VNull => Some false
  | Some (VBool b) => Some b
  | Some _ => None
  end.
Definition get_strings (k : string) (m : gmap string claim_value) : option (option (list string)) :=
  match m !! k with
  | None | Some VNull => Some None
  | Some (VStrings l) => Some (Some l)
  | Some _ => None
  end.
(** An audience may also be a single string ([jwt.ClaimStrings]). *)
Definition get_audience (m : gmap string claim_value) : option (list string) :=
  match m !! "aud" with
  | None | Some VNull => Some []
  | Some (VStrings l) => Some l
  | Some (VString s) => Some [s]
  | Some _ => None
  end.
Definition get_time (k : string) (m : gmap string claim_value) : option (option Z) :=
  match m !! k with
  | None | Some VNull => Some None
  | Some (VInt z) => Some (Some (FromUnix z 0))
  | Some _ => None
  end.

(** The members that are not typed fields. *)
Definition unknown_claims (m : gmap string claim_value) : gmap string claim_value :=
  filter (fun kv => kv.1 ∉ knownClaims) m.

(** [UnmarshalJSON] into fresh claims; a typed member of another JSON type
    is an error. *)
Definition UnmarshalJSON (m : gmap string claim_value) : option Claims :=
  email ← get_string "email" m; verified ← get_bool "email_verified" m;
  name ← get_string "name" m; groups ← get_strings "groups" m;
  scope ← get_string "scope" m; client ← get_string "client_id" m;
  iss ← get_string "iss" m; sub ← get_string "sub" m; aud ← get_audience m;
  exp ← get_time "exp" m; nbf ← get_time "nbf" m; iat ← get_time "iat" m;
  jti ← get_string "jti" m;
  Some (Build_Claims email verified name groups scope client (unknown_claims m)
          iss sub aud exp nbf iat jti).

(** ** The JWT library *)

Record JwtHeader := { jh_alg : string; jh_kid : option string }.

Class JwtLib := {
  (** [token.SignedString] of claims under a header [alg], [kid]. *)
  jwt_SignedString : string -> string -> option PrivateKey -> gmap string claim_value -> res string;
  (** The header [ParseWithClaims] hands to the key function. *)
  jwt_header : string -> res JwtHeader;
  (** The rest of [ParseWithClaims], once the key function has given the key:
      signature, claims, and unless they are not to be validated, [exp] and
      [nbf] at the instant. *)
  jwt_check : string -> option PublicKey -> bool -> Z -> res (gmap string claim_value);
  (** [jwt.NewNumericDate]. *)
  jwt_NewNumericDate : Z -> Z;
  (** [uuid.Parse] of a version 7 UUID, and its [Time]. *)
  uuid7_time : string -> option Z;
}.

(** A signing method by its [alg]: the two families the source accepts. *)
Definition accepted_method (alg : string) : bool :=
  existsb (fun a => a ==? alg) ["RS256"; "RS384"; "RS512"; "EdDSA"].

Record TokenGenerator := {
  tg_keyPair : KeyPair;
  tg_keyService : option KeyService;
  tg_issuer : string;
  tg_audience : string;
}.

Section generator.
Context `{Store} `{KeyLib} `{JwtLib} (g : TokenGenerator).

Definition signingMethodFor (alg : string) : string :=
  if alg ==? AlgEdDSA then "EdDSA" else "RS256".

Definition signingKey : Prog (res KeyPair) :=
  match tg_keyService g with
  | None => ret_ok (tg_keyPair g)
  | Some ks => mapErr (Errorf "failed to get active signing key") (GetActiveKey ks)
  end.

(** The token string and its expiry. *)
Definition GenerateIDTokenFor (subject audience : string) (expiry : Z) (claims : Claims)
    : Prog (res (string * Z)) :=
  let! t := now in
  let expiresAt := Add t expiry in
  let! id := newUUIDv7 in
  let claims := claims_set_registered (tg_issuer g) subject [audience]
    (jwt_NewNumericDate expiresAt) (jwt_NewNumericDate (Add t (- (5 * Minute))))
    (jwt_NewNumericDate t) id claims in
  let? key := signingKey in
  let? token := Ret (map_err (Errorf "failed to sign token")
    (jwt_SignedString (signingMethodFor (kp_Alg key)) (kp_Kid key) (kp_PrivateKey key)
       (MarshalJSON claims))) in
  ret_ok (token, expiresAt).

Definition GenerateIDToken (subject : string) (expiry : Z) (claims : Claims)
    : Prog (res (string * Z)) :=
  let audience := if cl_ClientID claims ==? "" then tg_audience g else cl_ClientID claims in
  GenerateIDTokenFor subject audience expiry claims.

Definition GenerateAccessTokenWithClaims (subject : string) (expiry : Z) (claims : Claims)
    : Prog (res (string * Z)) :=
  GenerateIDToken subject expiry claims.

Definition GenerateAccessToken (subject : string) (expiry : Z) (scope clientID : string)
    : Prog (res (string * Z)) :=
  GenerateAccessTokenWithClaims subject expiry (claims_set_client scope clientID empty_claims).

Definition IssuedAtOf (claims : Claims) : Z :=
  match uuid7_time (cl_ID claims) with
  | Some t => t
  | None => default zero_time (cl_IssuedAt claims)
  end.

(** The key function of [parse]. *)
Definition verification_key (h : JwtHeader) : Prog (res (option PublicKey)) :=
  if negb (accepted_method (jh_alg h)) then
    ret_err (Plain ("unexpected signing method: " +:+ jh_alg h))
  else match jh_kid h with
  | None => ret_err (Plain "missing key ID in token header")
  | Some kid =>
      let? keyPair := (match tg_keyService g with
        | Some _ =>
            let! r := GetKeyByID kid in
            match r with
            | Err _ => ret_err (Plain ("unknown key ID: " +:+ kid))
            | Ok kp =>
                let! t := now in
                if KeyPair_IsExpired t kp then ret_err (Plain ("key has expired: " +:+ kid))
                else ret_ok kp
            end
        | None =>
            if kid !=? kp_Kid (tg_keyPair g) then ret_err (Plain ("unknown key ID: " +:+ kid))
            else ret_ok (tg_keyPair g)
        end) in
      if jh_alg h !=? kp_Alg keyPair then
        ret_err (Plain ("token alg " +:+ jh_alg h +:+ " does not match key " +:+ kid))
      else ret_ok (kp_PublicKey keyPair)
  end.

Definition parse (tokenString : string) (validate : bool) : Prog (res Claims) :=
  mapErr (Errorf "failed to parse token") (
    let? h := Ret (jwt_header tokenString) in
    let? key := verification_key h in
    let! t := now in
    let? json := Ret (jwt_check tokenString key validate t) in
    match UnmarshalJSON json with
    | Some claims => ret_ok claims
    | None => ret_err (Plain "could not JSON decode claim")
    end).

Definition ParseIDTokenHint (tokenString : string) : Prog (res Claims) :=
  let? claims := parse tokenString false in
  if cl_Issuer claims !=? tg_issuer g then ret_err (Plain "invalid issuer")
  else ret_ok claims.

Definition ValidateAccessToken (tokenString : string) : Prog (res Claims) :=
  let? claims := parse tokenString true in
  if cl_Issuer claims !=? tg_issuer g then ret_err (Plain "invalid issuer")
  else if cl_ClientID claims ==? "" then ret_err (Plain "not an access token")
  else ret_ok claims.
End generator.
