(* ===== verification/Totp.v ===== *)
(** * internal/auth/totp.go: authenticator and recovery codes

    RFC 6238 codes with HMAC-SHA1, and one-time recovery codes.  Both are
    computed in the development: the vectors of the RFC are evaluated. *)
From S2P Require Import Prelude GoTime GoText GoDigits Encoding GoUrl Hash Errors Domain Lockout PendingLogins.
From S2P Require Import World Run Exec.
From Stdlib Require Import Ascii.
#[local] Open Scope Z_scope.
#[local] Open Scope go_scope.

Definition totpDigits : nat := 6.
Definition totpPeriod : Z := 30 * Second.
Definition totpSkew : Z := 1.
Definition RecoveryCodeCount : nat := 10.

Section totp.
Context `{UnicodeTables}.

Definition NewTOTPSecret : Prog (res string) :=
  let? b := randRead 20 in
  ret_ok (Base32EncodeToString b).

(** [binary.BigEndian.PutUint64(msg, uint64(step))] and the truncation of
    RFC 4226 §5.3. *)
Definition truncate (sum : list Z) : Z :=
  let off := Z.land (List.last sum 0) 0x0f in
  Z.land (from_big_endian (take 4 (drop (Z.to_nat off) sum))) 0x7fffffff.

Definition totpCode (key : list Z) (step : Z) : string :=
  let sum := hmac Sum1 key (big_endian 8 (step mod 2 ^ 64)) in
  pad_zeros totpDigits (dec (truncate sum mod 1000000)).

Definition totpStep (t : Z) : Z := Z.quot (Unix t) (Z.quot totpPeriod Second).

(** The otpauth URI an authenticator app scans. *)
Definition TOTPURI (issuer account secret : string) : string :=
  "otpauth://totp/" +:+ PathEscape issuer +:+ ":" +:+ PathEscape account +:+ "?" +:+
  Values_Encode [("secret", secret); ("issuer", issuer); ("algorithm", "SHA1"); ("digits", "6");
                 ("period", "30")].

Definition GenerateTOTP (secret : string) (t : Z) : option string :=
  (fun key => totpCode key (totpStep t)) <$> Base32DecodeString (ToUpper secret).

(** The loop over the steps from [step] on, [n] of them. *)
Fixpoint matching_step (key : list Z) (code : string) (lastStep : Z) (n : nat) (step : Z) : option Z :=
  match n with
  | O => None
  | S n =>
      if step <=? lastStep then matching_step key code lastStep n (step + 1)
      else if totpCode key step ==? code then Some step
      else matching_step key code lastStep n (step + 1)
  end.

Definition typed_code (code : string) : string := remove_char " "%char (TrimSpace code).

Definition VerifyTOTP (secret code : string) (t : Z) (lastStep : Z) : option Z :=
  let code := typed_code code in
  if negb (len code =? Z.of_nat totpDigits) then None
  else match Base32DecodeString (ToUpper secret) with
  | None => None
  | Some key =>
      let current := totpStep t in
      matching_step key code lastStep (Z.to_nat (2 * totpSkew + 1)) (current - totpSkew)
  end.

(** ** Recovery codes *)

Definition hashRecoveryCode (normalized : string) : string :=
  hex_EncodeToString (Sum256 (bytes ("idpico-recovery:" +:+ normalized))).

Definition normalizeRecoveryCode (code : string) : string :=
  ToLower (remove_char " "%char (remove_char "-"%char (TrimSpace code))).

Fixpoint recovery_codes (n : nat) : Prog (res (list string * list string)) :=
  match n with
  | O => ret_ok ([], [])
  | S n =>
      let? b := randRead 7 in
      let raw := str_take 10 (ToLower (Base32EncodeToString b)) in
      let? (codes, hashes) := recovery_codes n in
      ret_ok ((str_take 5 raw +:+ "-" +:+ str_drop 5 raw) :: codes, hashRecoveryCode raw :: hashes)
  end.

Definition NewRecoveryCodes : Prog (res (list string * list string)) :=
  recovery_codes RecoveryCodeCount.

(** The remaining hashes when a code matches one. *)
Definition UseRecoveryCode (hashes : list string) (code : string) : option (list string) :=
  let n := normalizeRecoveryCode code in
  if negb (len n =? 10) then None
  else remove_first (fun stored => stored ==? hashRecoveryCode n) hashes.

(** ** What a match says *)

Lemma matching_step_sound key code lastStep n step s :
  matching_step key code lastStep n step = Some s ->
  lastStep < s /\ step <= s < step + Z.of_nat n /\ totpCode key s = code.
Proof.
  revert step. induction n as [|n IH]; intros step; cbn [matching_step]; [done|].
  destruct (step <=? lastStep) eqn:El.
  - intros (? & ? & ?)%IH. split_and!; try done; lia.
  - destruct (totpCode key step ==? code) eqn:Ec.
    + intros [= <-]. bool_to_prop. split_and!; try done; lia.
    + intros (? & ? & ?)%IH. split_and!; try done; lia.
Qed.

Lemma matching_step_complete key code lastStep n step s :
  lastStep < s -> step <= s < step + Z.of_nat n -> totpCode key s = code ->
  is_Some (matching_step key code lastStep n step).
Proof.
  revert step. induction n as [|n IH]; intros step Hl Hs Hc; cbn [matching_step]; [lia|].
  destruct (step <=? lastStep) eqn:El; [apply IH; [done| |done]; bool_to_prop; lia|].
  destruct (totpCode key step ==? code) eqn:Ec; [by eexists|].
  bool_to_prop. apply IH; [done| |done].
  destruct (decide (s = step)) as [->|]; [congruence|lia].
Qed.
End totp.

(** A code is six digits, so typing it in any spacing gives it back. *)
Lemma pad_digits width n :
  0 <= n < 10 ^ Z.of_nat width -> (0 < width)%nat ->
  Forall is_digit (bytes (pad_zeros width (dec n))) /\
  String.length (pad_zeros width (dec n)) = width.
Proof.
  intros Hn Hw. destruct (dec_digits n ltac:(lia)) as (ds & Hb & [Hd _] & _ & Hl).
  specialize (Hl width Hw ltac:(lia)). rewrite <-bytes_length, <-Hb in *.
  unfold pad_zeros. rewrite bytes_app, bytes_of_bytes.
  2:{ apply Forall_forall. intros x Hx. apply repeat_spec in Hx as ->. unfold is_byte. lia. }
  split.
  - apply Forall_app. split; [|done]. apply Forall_forall. intros x Hx.
    apply repeat_spec in Hx as ->. unfold is_digit. lia.
  - rewrite length_app, repeat_length, <-bytes_length. lia.
Qed.

Lemma totpCode_digits key step :
  Forall is_digit (bytes (totpCode key step)) /\ String.length (totpCode key step) = totpDigits.
Proof.
  apply pad_digits; [|unfold totpDigits; lia].
  pose proof (Z.mod_pos_bound (truncate (hmac Sum1 key (big_endian 8 (step mod 2 ^ 64)))) 1000000).
  unfold totpDigits. change (10 ^ Z.of_nat 6) with 1000000. lia.
Qed.

Lemma typed_totpCode key step : typed_code (totpCode key step) = totpCode key step.
Proof.
  destruct (totpCode_digits key step) as [Hd _]. unfold typed_code.
  by rewrite TrimSpace_digits, remove_space_digits.
Qed.

(** Claim C40.  [VerifyTOTP] accepts a code exactly when it is, up to
    spacing, the code of a step after the last one used and at most one step
    from the current one; the step it returns is such a step, so a code whose
    step has been recorded is refused. *)
Theorem totp_verification `{UnicodeTables} secret code t lastStep :
  (forall s, VerifyTOTP secret code t lastStep = Some s ->
     lastStep < s /\ totpStep t - 1 <= s <= totpStep t + 1 /\
     exists key, Base32DecodeString (ToUpper secret) = Some key /\ typed_code code = totpCode key s) /\
  (forall key s, Base32DecodeString (ToUpper secret) = Some key -> lastStep < s ->
     totpStep t - 1 <= s <= totpStep t + 1 -> typed_code code = totpCode key s ->
     is_Some (VerifyTOTP secret code t lastStep)).
Proof.
  unfold VerifyTOTP, totpSkew. split.
  - intros s. destruct (negb _); [done|]. destruct (Base32DecodeString _) as [key|]; [|done].
    intros (Hl & Hs & Hc)%matching_step_sound. split; [done|]. split; [lia|]. by exists key.
  - intros key s -> Hl Hs Hc. rewrite Hc. unfold len.
    rewrite (proj2 (totpCode_digits key s)), Z.eqb_refl. cbn [negb].
    apply (matching_step_complete _ _ _ _ _ s); [done|lia|done].
Qed.

(** RFC 6238, appendix B (SHA-1), the last six digits. *)
Example totp_vectors :
  map (fun t => totpCode (bytes "12345678901234567890") (totpStep (t * Second)))
    [59; 1111111109; 1111111111; 1234567890; 2000000000; 20000000000]
  = ["287082"; "081804"; "050471"; "005924"; "279037"; "353130"].
Proof. vm_compute. reflexivity. Qed.

(** ** Codes handed out are codes accepted

    Base32 text survives its round trip in any case, so an authenticator set
    up with a generated secret shows codes the service accepts; and every
    recovery code handed out works, once. *)

(** ** Base32 *)

Lemma fives_ind (P : list Z -> Prop) :
  P [] -> (forall a, P [a]) -> (forall a b, P [a; b]) -> (forall a b c, P [a; b; c]) ->
  (forall a b c d, P [a; b; c; d]) ->
  (forall a b c d e l, P l -> P (a :: b :: c :: d :: e :: l)) -> forall l, P l.
Proof.
  intros H0 H1 H2 H3 H4 H5 l. remember (length l) as n eqn:Hn. revert l Hn.
  induction n as [n IH] using (well_founded_induction lt_wf). intros l ->.
  destruct l as [|a [|b [|c [|d [|e l]]]]]; auto.
  apply H5, (IH (length l)); [simpl; lia|done].
Qed.

Definition quintet (v : Z) : Prop := 0 <= v < 32.

Lemma value32_char32 v : quintet v -> value32 (char32 v) = Some v.
Proof.
  unfold quintet, char32, value32, in_range. intros Hv. destruct (v <? 26) eqn:E.
  - replace ((65 <=? 65 + v) && (65 + v <=? 90)) with true by lia. f_equal. lia.
  - replace ((65 <=? 24 + v) && (24 + v <=? 90)) with false by lia.
    replace ((50 <=? 24 + v) && (24 + v <=? 55)) with true by lia. f_equal. lia.
Qed.

(** The values behind an encoding. *)
Fixpoint values32 (l : list Z) : list Z :=
  match l with
  | a :: b :: c :: d :: e :: l => quintets [a; b; c; d; e] ++ values32 l
  | _ => quintets l
  end.

Lemma enc32_values l : enc32 l = map char32 (values32 l).
Proof.
  induction l using fives_ind; try done.
  cbn [enc32 values32]. by rewrite IHl, map_app.
Qed.

Lemma quintets_1 a : quintets [a] = [a / 8; a mod 8 * 4 + 0 / 64].
Proof. done. Qed.
Lemma quintets_2 a b :
  quintets [a; b] = [a / 8; a mod 8 * 4 + b / 64; b / 2 mod 32; b mod 2 * 16 + 0 / 16].
Proof. done. Qed.
Lemma quintets_3 a b c :
  quintets [a; b; c] = [a / 8; a mod 8 * 4 + b / 64; b / 2 mod 32; b mod 2 * 16 + c / 16;
                        c mod 16 * 2 + 0 / 128].
Proof. done. Qed.
Lemma quintets_4 a b c d :
  quintets [a; b; c; d] = [a / 8; a mod 8 * 4 + b / 64; b / 2 mod 32; b mod 2 * 16 + c / 16;
                           c mod 16 * 2 + d / 128; d / 4 mod 32; d mod 4 * 8 + 0 / 32].
Proof. done. Qed.
Lemma quintets_5 a b c d e :
  quintets [a; b; c; d; e] =
    [a / 8; a mod 8 * 4 + b / 64; b / 2 mod 32; b mod 2 * 16 + c / 16; c mod 16 * 2 + d / 128;
     d / 4 mod 32; d mod 4 * 8 + e / 32; e mod 32].
Proof. done. Qed.

Ltac bytes_of_list :=
  repeat match goal with
  | Hl : Forall is_byte (_ :: _) |- _ => apply Forall_cons_1 in Hl as [? Hl]
  end; unfold is_byte in *.

Lemma values32_range l : Forall is_byte l -> Forall quintet (values32 l).
Proof.
  induction l using fives_ind; intros Hl; bytes_of_list; cbn [values32];
    rewrite ?quintets_1, ?quintets_2, ?quintets_3, ?quintets_4, ?quintets_5.
  - constructor.
  - repeat constructor; unfold quintet; div_lia.
  - repeat constructor; unfold quintet; div_lia.
  - repeat constructor; unfold quintet; div_lia.
  - repeat constructor; unfold quintet; div_lia.
  - apply Forall_app. split; [|by apply IHl]. repeat constructor; unfold quintet; div_lia.
Qed.

Lemma mapM_value32 vs : Forall quintet vs -> mapM value32 (map char32 vs) = Some vs.
Proof.
  induction 1 as [|v vs Hv _ IH]; [done|]. cbn. rewrite value32_char32 by done. cbn.
  change (mapM value32 (map char32 vs)) with (mapM value32 (map char32 vs)) in IH.
  by rewrite IH.
Qed.

Lemma dec32_values l : Forall is_byte l -> dec32_groups (values32 l) = l.
Proof.
  induction l using fives_ind; intros Hl; bytes_of_list; cbn [values32];
    rewrite ?quintets_1, ?quintets_2, ?quintets_3, ?quintets_4, ?quintets_5; [done|..|].
  - cbn. f_equal. div_lia.
  - cbn. f_equal; [div_lia|]. f_equal. div_lia.
  - cbn. f_equal; [div_lia|]. f_equal; [div_lia|]. f_equal. div_lia.
  - cbn. f_equal; [div_lia|]. f_equal; [div_lia|]. f_equal; [div_lia|]. f_equal. div_lia.
  - cbn [app dec32_groups]. rewrite IHl by done. cbn.
    f_equal; [div_lia|]. f_equal; [div_lia|]. f_equal; [div_lia|]. f_equal; [div_lia|].
    f_equal. div_lia.
Qed.

(** ** Secrets *)

Lemma char32_graphic v : quintet v -> graphic (char32 v).
Proof. unfold quintet, graphic, char32. case_match; lia. Qed.

Lemma upper_char32 v : quintet v -> upper_byte (char32 v) = char32 v.
Proof.
  unfold quintet, upper_byte, is_lower, in_range, char32. intros Hv.
  repeat case_match; bool_to_prop; lia.
Qed.

Lemma enc32_graphic l : Forall is_byte l -> Forall graphic (enc32 l).
Proof.
  intros Hl. rewrite enc32_values. apply Forall_map.
  eapply Forall_impl; [apply char32_graphic|by apply values32_range].
Qed.

Lemma bytes_Base32 l : Forall is_byte l -> bytes (Base32EncodeToString l) = enc32 l.
Proof.
  intros Hl. apply bytes_of_bytes, ascii_is_byte, graphic_ascii. by apply enc32_graphic.
Qed.

Lemma map_id_on {A} (f : A -> A) (P : A -> Prop) l :
  (forall x, P x -> f x = x) -> Forall P l -> map f l = l.
Proof. intros Hf. induction 1 as [|x l Hx _ IH]; [done|]. cbn. by rewrite Hf, IH. Qed.

Section secrets.
Context `{EnvLaws} `{UnicodeTables}.

Lemma ToUpper_Base32 l : Forall is_byte l -> ToUpper (Base32EncodeToString l) = Base32EncodeToString l.
Proof.
  intros Hl. apply bytes_inj. rewrite ToUpper_ascii; rewrite bytes_Base32 by done.
  - rewrite enc32_values, map_map. apply map_ext_in. intros v Hv.
    apply values32_range in Hl. rewrite List.Forall_forall in Hl. by apply upper_char32, Hl.
  - by apply graphic_ascii, enc32_graphic.
Qed.

Lemma Base32_roundtrip l : Forall is_byte l -> Base32DecodeString (Base32EncodeToString l) = Some l.
Proof.
  intros Hl. unfold Base32DecodeString. rewrite bytes_Base32 by done.
  rewrite filter_all.
  2:{ eapply Forall_impl; [|by apply enc32_graphic]. unfold graphic, not_newline. lia. }
  rewrite enc32_values, mapM_value32 by (by apply values32_range). cbn.
  by rewrite dec32_values.
Qed.

(** An authenticator set up with a secret the service generated
    shows, at any instant, a code that the service accepts within one step of
    that instant unless a code of that step or a later one was used before. *)
Theorem totp_enrolment w secret w' :
  run NewTOTPSecret w = (Ok secret, w') ->
  forall t, exists code, GenerateTOTP secret t = Some code /\
    forall t' lastStep, lastStep < totpStep t ->
      totpStep t' - 1 <= totpStep t <= totpStep t' + 1 ->
      is_Some (VerifyTOTP (ToUpper secret) code t' lastStep).
Proof.
  intros Hrun t. cbn in Hrun. destruct (env_rand (w_tick w) 20) as [key|] eqn:Hr; [|done].
  cbn in Hrun. injection Hrun as <- _. apply rand_length in Hr as [_ Hb].
  unfold GenerateTOTP, VerifyTOTP. rewrite !ToUpper_Base32, Base32_roundtrip by done.
  eexists. split; [done|]. intros t' lastStep Hlast Hnear.
  rewrite typed_totpCode. unfold len. rewrite (proj2 (totpCode_digits key (totpStep t))), Z.eqb_refl.
  cbn [negb]. unfold totpSkew. by apply (matching_step_complete _ _ _ _ _ (totpStep t)); [done|lia|].
Qed.

(** ** Recovery codes *)

Definition code_char (c : Z) : Prop := 97 <= c <= 122 \/ 50 <= c <= 55.

Lemma lower_char32 v : quintet v -> code_char (lower_byte (char32 v)).
Proof.
  unfold quintet, code_char, lower_byte, is_upper, in_range, char32. intros Hv.
  repeat case_match; bool_to_prop; lia.
Qed.

Lemma lower_code_char c : code_char c -> lower_byte c = c.
Proof. unfold code_char, lower_byte, is_upper, in_range. case_match; bool_to_prop; lia. Qed.

Lemma code_char_graphic l : Forall code_char l -> Forall graphic l.
Proof. apply Forall_impl. unfold code_char, graphic. lia. Qed.

(** The text of a code: ten characters with a dash in the middle. *)
Definition dashed (raw : string) : string := str_take 5 raw +:+ "-" +:+ str_drop 5 raw.

Lemma bytes_dashed raw : bytes (dashed raw) = take 5 (bytes raw) ++ 45 :: drop 5 (bytes raw).
Proof. unfold dashed. by rewrite !bytes_app, bytes_str_take, bytes_str_drop. Qed.

Lemma normalize_dashed raw :
  Forall code_char (bytes raw) -> normalizeRecoveryCode (dashed raw) = raw.
Proof.
  intros Hraw. unfold normalizeRecoveryCode.
  assert (Forall code_char (take 5 (bytes raw))) as Ht by by apply Forall_take.
  assert (Forall code_char (drop 5 (bytes raw))) as Hd by by apply Forall_drop.
  rewrite TrimSpace_graphic.
  2:{ rewrite bytes_dashed. apply Forall_app. split; [by apply code_char_graphic|].
      constructor; [unfold graphic; lia|by apply code_char_graphic]. }
  assert (bytes (remove_char " "%char (remove_char "-"%char (dashed raw))) = bytes raw) as Hb.
  { rewrite !bytes_remove_char, bytes_dashed, List.filter_app. cbn [List.filter].
    assert (forall c l, c = 45 \/ c = 32 -> Forall code_char l ->
      List.filter (fun b => negb (b =? c)) l = l) as Hkeep.
    { intros c l Hc Hl. apply filter_all. eapply Forall_impl; [|exact Hl].
      unfold code_char. intros b Hb. bool_to_prop. lia. }
    change (Z.of_N (N_of_ascii "-"%char)) with 45. change (Z.of_N (N_of_ascii " "%char)) with 32.
    rewrite !(Hkeep 45) by (by auto). cbn [Z.eqb Pos.eqb negb].
    rewrite take_drop. by apply Hkeep; [right|]. }
  apply bytes_inj. rewrite ToLower_ascii; rewrite Hb.
  - by apply (map_id_on _ code_char); [apply lower_code_char|].
  - by apply graphic_ascii, code_char_graphic.
Qed.
(** A code and the hash stored for it. *)
Definition code_of_hash (code h : string) : Prop :=
  exists raw, code = dashed raw /\ Forall code_char (bytes raw) /\ len raw = 10 /\
    h = hashRecoveryCode raw.

Lemma values32_length_7 a b c d e f g : length (values32 [a; b; c; d; e; f; g]) = 12%nat.
Proof. done. Qed.

Lemma code_text b :
  length b = 7%nat -> Forall is_byte b ->
  Forall code_char (bytes (str_take 10 (ToLower (Base32EncodeToString b)))) /\
  len (str_take 10 (ToLower (Base32EncodeToString b))) = 10.
Proof.
  intros Hlen Hb. unfold len. rewrite <-bytes_length, bytes_str_take, ToLower_ascii;
    rewrite bytes_Base32 by done; [|by apply graphic_ascii, enc32_graphic].
  rewrite enc32_values, map_map. split.
  - apply Forall_take, Forall_map. eapply Forall_impl; [apply lower_char32|by apply values32_range].
  - rewrite length_take, length_map.
    destruct b as [|? [|? [|? [|? [|? [|? [|? [|]]]]]]]]; try discriminate Hlen.
    by rewrite values32_length_7.
Qed.

Lemma recovery_codes_spec n w :
  wp (recovery_codes n) w (fun r _ => forall codes hashes, r = Ok (codes, hashes) ->
    length codes = n /\ Forall2 code_of_hash codes hashes).
Proof.
  revert w. induction n as [|n IH]; intros w; cbn [recovery_codes].
  { apply wp_ret. intros codes hashes [= <- <-]. split; [done|constructor]. }
  eapply (wp_try _ _ _ (fun r _ => forall b, r = Ok b -> length b = 7%nat /\ Forall is_byte b)); [| |done].
  { apply wp_intro. intros r w' Hr b ->. cbn in Hr.
    destruct (env_rand (w_tick w) 7) eqn:Hrand; [|done]. injection Hr as -> _.
    by apply rand_length in Hrand. }
  intros b w1 Hb. destruct (Hb b eq_refl) as [Hlen Hbyte].
  eapply wp_try; [apply IH| |done]. intros [codes hashes] w2 Hspec.
  destruct (Hspec codes hashes eq_refl) as [Hl Hall]. apply wp_ret.
  intros codes' hashes' [= <- <-]. destruct (code_text b Hlen Hbyte) as [Hchars Hten].
  split; [by cbn; rewrite Hl|]. constructor; [|done]. eexists. by split_and!.
Qed.

Lemma use_code code h hashes :
  code_of_hash code h -> h ∈ hashes ->
  exists rest, UseRecoveryCode hashes code = Some rest /\ hashes ≡ₚ h :: rest.
Proof.
  intros (raw & -> & Hchars & Hten & ->) Hin. unfold UseRecoveryCode.
  rewrite normalize_dashed, Hten by done. cbn [Z.eqb Pos.eqb negb].
  destruct (remove_first _ hashes) as [rest|] eqn:Hrem.
  - exists rest. split; [done|]. apply remove_first_Some in Hrem as (l1 & x & l2 & -> & -> & Hx & _).
    bool_to_prop. subst x. by rewrite Permutation_middle.
  - apply remove_first_None in Hrem. rewrite find_first_None in Hrem.
    specialize (Hrem _ Hin). cbn beta in Hrem. by bool_to_prop.
Qed.

(** A used code matches nothing that is left. *)
Lemma use_code_again hashes code rest :
  NoDup hashes -> UseRecoveryCode hashes code = Some rest -> UseRecoveryCode rest code = None.
Proof.
  unfold UseRecoveryCode. destruct (negb _); [done|]. intros Hnd Hrem.
  apply remove_first_Some in Hrem as (l1 & x & l2 & -> & -> & Hx & _).
  rewrite <-Permutation_middle in Hnd. apply list.NoDup_cons in Hnd as [Hn _].
  apply remove_first_None, find_first_None. intros y Hy. apply bool_decide_eq_false. intros ->.
  bool_to_prop. by subst x.
Qed.

(** The service hands out ten recovery codes; each is accepted
    against the stored hashes, its use removes exactly its own hash, and it is
    not accepted a second time (as long as the hashes differ). *)
Theorem recovery_codes_single_use w codes hashes w' :
  run NewRecoveryCodes w = (Ok (codes, hashes), w') ->
  length codes = RecoveryCodeCount /\
  forall i code, codes !! i = Some code ->
    exists h rest, hashes !! i = Some h /\ UseRecoveryCode hashes code = Some rest /\
      hashes ≡ₚ h :: rest /\ (NoDup hashes -> UseRecoveryCode rest code = None).
Proof.
  intros Hrun. destruct (wp_run _ _ _ _ _ (recovery_codes_spec RecoveryCodeCount w) Hrun codes hashes
    eq_refl) as [Hlen Hall]. split; [done|]. intros i code Hi.
  destruct (Forall2_lookup_l _ _ _ _ _ Hall Hi) as (h & Hh & Hcode).
  destruct (use_code code h hashes Hcode (list_elem_of_lookup_2 _ _ _ Hh)) as (rest & Huse & Hperm).
  exists h, rest. split_and!; try done. intros Hnd. by apply (use_code_again hashes).
Qed.
End secrets.
