(* ===== verification/Csrf.v ===== *)
(** * internal/auth/csrf.go: the double-submit CSRF token

    A token is an instant and 32 random bytes, signed with HMAC-SHA256; a
    request carries it in a form field or header and in a cookie. *)
From S2P Require Import Prelude GoTime GoText Encoding Hash Errors Domain Lockout PendingLogins.
From S2P Require Import World Run GoDigits.
From Stdlib Require Import Ascii.
#[local] Open Scope Z_scope.
#[local] Open Scope go_scope.

Definition CSRFCookieName := "idpico_csrf".
Definition csrfHostCookieName := "__Host-idpico_csrf".
Definition CSRFTokenLength : nat := 32.
Definition CSRFFormField := "csrf_token".
Definition CSRFTTL : Z := 1 * Hour.

Record CSRFService := {
  cs_secret : string;
  cs_cookieSecure : bool;
  cs_cookieDomain : string;
}.

Section csrf.
Context (s : CSRFService).

Definition csrf_cookieName : string :=
  if cs_cookieSecure s && (cs_cookieDomain s ==? "") then csrfHostCookieName else CSRFCookieName.

Definition csrf_cookie (value : string) (maxAge : Z) : cookie := {|
  ck_Name := csrf_cookieName; ck_Value := value; ck_Path := "/"; ck_Domain := cs_cookieDomain s;
  ck_MaxAge := maxAge; ck_HttpOnly := false; ck_Secure := cs_cookieSecure s;
  ck_SameSite := "Strict" |}.

Definition csrf_signature (data : string) : string :=
  RawURLEncodeToString (hmac Sum256 (bytes (cs_secret s)) (bytes data)).

Definition csrf_data (timestamp : Z) (random : list Z) : string :=
  dec timestamp +:+ ":" +:+ RawURLEncodeToString random.

Definition GenerateToken : Prog (res string) :=
  let? random := mapErr (Errorf "failed to generate CSRF token") (randRead CSRFTokenLength) in
  let! t := now in
  let data := csrf_data (Unix t) random in
  let token := data +:+ "." +:+ csrf_signature data in
  let! _ := emit (SetCookie (csrf_cookie token (Z.quot CSRFTTL Second))) in
  ret_ok token.

(** Split at the last dot: [None] when there is none. *)
Fixpoint split_last_dot (s : string) : option (string * string) :=
  match s with
  | EmptyString => None
  | String c s =>
      match split_last_dot s with
      | Some (a, b) => Some (String c a, b)
      | None => if Ascii.eqb c "."%char then Some (EmptyString, s) else None
      end
  end.

Definition timestamp_format : list scan_item := [IntVerb; Lit 58].

Definition validateTokenFormat (t : Z) (token : string) : res unit :=
  match split_last_dot token with
  | None => Err (Plain "invalid CSRF token format")
  | Some (data, signature) =>
      if (data ==? "") || (signature ==? "") then Err (Plain "invalid CSRF token format")
      else if signature !=? csrf_signature data then Err (Plain "invalid CSRF token signature")
      else match sscanf timestamp_format (bytes data) with
      | Some [timestamp] =>
          if CSRFTTL <? Sub t (FromUnix timestamp 0) then Err (Plain "CSRF token expired")
          else Ok tt
      | _ => Err (Plain "invalid CSRF token timestamp")
      end
  end.

Definition ValidateToken (r : Request) : Prog (res unit) :=
  let formToken := FormValue r CSRFFormField in
  let formToken := if formToken ==? "" then Header r "X-CSRF-Token" else formToken in
  if formToken ==? "" then ret_err (Plain "missing CSRF token")
  else match Cookie r csrf_cookieName with
  | None => ret_err (Plain "missing CSRF cookie")
  | Some value =>
      if formToken !=? value then ret_err (Plain "CSRF token mismatch")
      else
        let! t := now in
        Ret (validateTokenFormat t formToken)
  end.

Definition ClearToken : Prog unit := emit (SetCookie (csrf_cookie "" (-1))).
End csrf.

(** ** Round trip *)

Lemma split_last_dot_app a b :
  has_no "."%char b -> split_last_dot (a +:+ "." +:+ b) = Some (a, b).
Proof.
  intros Hb. assert (split_last_dot b = None) as Hn.
  { clear a. induction b as [|c b IH]; [done|]. apply has_no_cons in Hb as [Hc Hb].
    cbn [split_last_dot]. by rewrite IH, Hc. }
  induction a as [|c a IH].
  - change (("" +:+ "." +:+ b)) with (String "."%char b). cbn [split_last_dot]. by rewrite Hn.
  - change ((String c a +:+ "." +:+ b)) with (String c (a +:+ "." +:+ b)).
    cbn [split_last_dot]. by rewrite IH.
Qed.

Lemma hmac_bytes key msg : Forall is_byte (hmac Sum256 key msg).
Proof. apply Sum256_bytes. Qed.

Lemma signature_no_dot s data : has_no "."%char (csrf_signature s data).
Proof.
  unfold has_no, csrf_signature, RawURLEncodeToString. rewrite bytes_of_bytes.
  - apply enc64_avoids; [|apply hmac_bytes]. by apply char64_avoids.
  - apply printable_is_byte, enc64_printable; [apply url64_good|apply hmac_bytes|constructor].
Qed.

Lemma hmac_length key msg : length (hmac Sum256 key msg) = 32%nat.
Proof. apply Sum256_length. Qed.

Lemma signature_nonempty s data : csrf_signature s data <> "".
Proof.
  unfold csrf_signature, RawURLEncodeToString. intros Heq.
  assert (enc64 url64 [] (hmac Sum256 (bytes (cs_secret s)) (bytes data)) = []) as Hn.
  { rewrite <-(bytes_of_bytes (enc64 _ _ _)).
    - by rewrite Heq.
    - apply printable_is_byte, enc64_printable; [apply url64_good|apply hmac_bytes|constructor]. }
  apply enc64_nil in Hn. pose proof (hmac_length (bytes (cs_secret s)) (bytes data)) as Hl.
  by rewrite Hn in Hl.
Qed.

Lemma data_nonempty t random : csrf_data t random <> "".
Proof.
  unfold csrf_data. intros Heq. apply (f_equal String.length) in Heq.
  destruct (dec t); done.
Qed.

Lemma data_timestamp t random :
  0 <= t <= max_int64 -> sscanf timestamp_format (bytes (csrf_data t random)) = Some [t].
Proof.
  intros Ht. unfold csrf_data. rewrite !bytes_app. cbn [bytes].
  change ([58] ++ bytes (RawURLEncodeToString random)) with (58 :: bytes (RawURLEncodeToString random)).
  apply sscanf_dec; [done|]. unfold is_digit. cbn. lia.
Qed.

Lemma FromUnix_Unix_bounds t : t - Second < FromUnix (Unix t) 0 <= t.
Proof. unfold FromUnix, Unix, Second. div_lia. Qed.

Lemma sat64_le x b : 0 <= b <= max_int64 -> x <= b -> sat64 x <= b.
Proof. unfold sat64, max_int64, min_int64. lia. Qed.

Section properties.
Context `{EnvLaws} (s : CSRFService).

(** A token is accepted until one second less than an hour after it was
    made (its timestamp is in whole seconds), whatever the random bytes. *)
Lemma validate_generated t t' random :
  0 <= t -> Unix t <= max_int64 -> t' - t <= CSRFTTL - Second ->
  validateTokenFormat s t' (csrf_data (Unix t) random +:+ "." +:+ csrf_signature s (csrf_data (Unix t) random))
  = Ok tt.
Proof.
  intros Ht Hm Ht'. unfold validateTokenFormat. rewrite split_last_dot_app by apply signature_no_dot.
  rewrite (bool_decide_eq_false_2 _ (data_nonempty _ _)).
  rewrite (bool_decide_eq_false_2 _ (signature_nonempty _ _)). cbn [orb].
  rewrite bool_decide_eq_true_2 by done. cbn [negb]. rewrite data_timestamp.
  2:{ split; [unfold Unix, Second; div_lia|done]. }
  assert ((CSRFTTL <? Sub t' (FromUnix (Unix t) 0)) = false) as ->; [|done].
  apply Z.ltb_ge. apply sat64_le; [unfold CSRFTTL, Hour, Minute, Second, max_int64; lia|].
  pose proof (FromUnix_Unix_bounds t). lia.
Qed.

Lemma GenerateToken_spec w :
  wp (GenerateToken s) w (fun r _ => forall token, r = Ok token -> exists random,
    let data := csrf_data (Unix (env_clock (w_tick w + 1))) random in
    token = data +:+ "." +:+ csrf_signature s data).
Proof.
  unfold GenerateToken, mapErr, randRead, now, emit.
  apply wp_bind, wp_bind, wp_intro. intros r w1 Hr. rewrite run_trigger in Hr.
  cbn [perform] in Hr. injection Hr as <- <-. apply wp_ret.
  destruct (env_rand (w_tick w) CSRFTokenLength) as [random|]; [|by apply wp_ret].
  cbn [map_err]. do 2 (apply wp_bind, wp_intro; intros ? ? Hr; rewrite run_trigger in Hr;
    cbn [perform ticked w_tick] in Hr; injection Hr as <- <-).
  apply wp_ret. intros token [= <-]. by exists random.
Qed.

(** A CSRF token made by the service is accepted when it comes
    back in the form and the cookie within the hour. *)
Theorem csrf_roundtrip w token w' r w2 :
  run (GenerateToken s) w = (Ok token, w') ->
  FormValue r CSRFFormField = token -> Cookie r (csrf_cookieName s) = Some token ->
  Unix (env_clock (w_tick w + 1)) <= max_int64 ->
  env_clock (w_tick w2) - env_clock (w_tick w + 1) <= CSRFTTL - Second ->
  (run (ValidateToken s r) w2).1 = Ok tt.
Proof.
  intros Hrun Hform Hcookie Hmax Httl.
  destruct (wp_run _ _ _ _ _ (GenerateToken_spec w) Hrun token eq_refl) as (random & Htok).
  unfold ValidateToken. rewrite Hform, Hcookie.
  assert (token <> "") as Hne.
  { rewrite Htok. intros Heq. apply (f_equal String.length) in Heq. by destruct (csrf_data _ _). }
  rewrite !(bool_decide_eq_false_2 _ Hne). rewrite bool_decide_eq_true_2 by done. cbn [negb].
  unfold now. rewrite run_bind, run_trigger. cbn [perform run fst]. rewrite Htok.
  apply validate_generated; [apply clock_pos|done|lia].
Qed.
End properties.
