(* ===== verification/Session.v ===== *)
(** * internal/audit and internal/auth/session.go: the audit log and sessions

    Actions are recorded through [Recorder.Record], which never fails the
    action it describes; sessions are rows named by 32 random bytes, which
    the browser keeps in a cookie. *)
From S2P Require Import Prelude GoTime GoText Encoding Errors Domain Lockout PendingLogins.
From S2P Require Import World Run Store.
From Stdlib Require Import Ascii.
#[local] Open Scope Z_scope.
#[local] Open Scope go_scope.

(** ** Peer addresses *)

(** The text before and after the last colon. *)
Fixpoint split_last_colon (s : string) : option (string * string) :=
  match s with
  | EmptyString => None
  | String c s =>
      match split_last_colon s with
      | Some (a, b) => Some (String c a, b)
      | None => if Ascii.eqb c ":"%char then Some (EmptyString, s) else None
      end
  end.

(** [audit.ClientIP] of a request. *)
Definition ClientIP (r : Request) : string :=
  match split_last_colon (r_RemoteAddr r) with
  | Some (host, _) => host
  | None => r_RemoteAddr r
  end.

Fixpoint contains_char (c : ascii) (s : string) : bool :=
  match s with
  | EmptyString => false
  | String d s => Ascii.eqb d c || contains_char c s
  end.

(** The text before and after the first closing bracket. *)
Fixpoint split_bracket (s : string) : option (string * string) :=
  match s with
  | EmptyString => None
  | String c s =>
      if Ascii.eqb c "]"%char then Some (EmptyString, s)
      else (fun p => (String c p.1, p.2)) <$> split_bracket s
  end.

(** The host of [net.SplitHostPort]; [None] is its error. *)
Definition SplitHostPort (hostport : string) : option string :=
  match split_last_colon hostport with
  | None => None
  | Some (before, port) =>
      match hostport with
      | String "["%char rest =>
          match split_bracket rest with
          | None => None
          | Some (host, after_) =>
              (* the bracket must close right before the last colon *)
              if after_ ==? ":" +:+ port then
                if contains_char "["%char rest || contains_char "]"%char after_ then None
                else Some host
              else None
          end
      | _ =>
          if contains_char ":"%char before then None
          else if contains_char "["%char hostport || contains_char "]"%char hostport then None
          else Some before
      end
  end.

Definition getClientIP (r : Request) : string :=
  match SplitHostPort (r_RemoteAddr r) with
  | Some host => host
  | None => r_RemoteAddr r
  end.

Section services.
Context `{Store}.

(** ** Audit *)

(** [Event] of [internal/audit]; the actor is a user, or an address alone. *)
Record Event := {
  e_Actor : option User;
  e_ActorEmail : string;
  e_Action : string;
  e_TargetType : string;
  e_TargetID : string;
  e_Detail : string;
  e_IP : string;
}.

(** A nil recorder records nothing. *)
Definition RecordEvent (recorder : bool) (e : Event) : Prog unit :=
  if recorder then
    ignore (Audit_Append {|
      ev_ID := ""; ev_At := zero_time;
      ev_ActorID := match e_Actor e with Some u => user_ID u | None => "" end;
      ev_ActorEmail := match e_Actor e with Some u => user_Email u | None => e_ActorEmail e end;
      ev_Action := e_Action e; ev_TargetType := e_TargetType e; ev_TargetID := e_TargetID e;
      ev_Detail := e_Detail e; ev_IP := e_IP e |})
  else Ret tt.

Definition user_event (user : User) (action detail ip : string) : Event := {|
  e_Actor := Some user; e_ActorEmail := ""; e_Action := action; e_TargetType := "user";
  e_TargetID := user_ID user; e_Detail := detail; e_IP := ip |}.

(** An event of somebody who is not signed in. *)
Definition email_event (email action target detail ip : string) : Event := {|
  e_Actor := None; e_ActorEmail := email; e_Action := action; e_TargetType := "user";
  e_TargetID := target; e_Detail := detail; e_IP := ip |}.

(** ** Sessions *)

Definition SessionCookieName := "idpico_session".
Definition SessionTokenLength : nat := 32.

Record SessionService := {
  ss_cookieSecure : bool;
  ss_cookieDomain : string;
  ss_sessionTTL : Z;
}.

Context (s : SessionService).

Definition CreateSession (userID userAgent ipAddress : string) (amr : list string)
    : Prog (res (Session * string)) :=
  let? random := mapErr (Errorf "failed to generate session token") (randRead SessionTokenLength) in
  let token := RawURLEncodeToString random in
  let! created := now in
  let! t := now in
  let? session := mapErr (Errorf "failed to create session") (Sessions_Create {|
    session_ID := token; session_UserID := userID; session_CreatedAt := created;
    session_ExpiresAt := Add t (ss_sessionTTL s); session_UserAgent := userAgent;
    session_IPAddress := ipAddress; session_AMR := amr |}) in
  ret_ok (session, token).

Definition GetSession (token : string) : Prog (res Session) :=
  let? session := Sessions_GetByID token in
  let! t := now in
  if Session_IsExpired t session then
    let! _ := ignore (Sessions_Delete token) in
    ret_err (IdpError CodeSessionExpired "session expired")
  else ret_ok session.

Definition DeleteSession (token : string) : Prog (res unit) := Sessions_Delete token.

Definition DeleteUserSessions (userID : string) : Prog (res unit) := Sessions_DeleteByUserID userID.

Definition session_cookie (value : string) (maxAge : Z) : cookie := {|
  ck_Name := SessionCookieName; ck_Value := value; ck_Path := "/"; ck_Domain := ss_cookieDomain s;
  ck_MaxAge := maxAge; ck_HttpOnly := true; ck_Secure := ss_cookieSecure s; ck_SameSite := "Lax" |}.

Definition SetSessionCookie (token : string) : Prog unit :=
  emit (SetCookie (session_cookie token (Z.quot (ss_sessionTTL s) Second))).
Definition ClearSessionCookie : Prog unit := emit (SetCookie (session_cookie "" (-1))).

Definition GetSessionFromRequest (r : Request) : Prog (res Session) :=
  match Cookie r SessionCookieName with
  | None => ret_err (IdpError CodeUnauthorized "no session cookie")
  | Some value => GetSession value
  end.

Definition RotateSession (oldToken userID userAgent ipAddress : string) (amr : list string)
    : Prog (res (Session * string)) :=
  let! _ := (if oldToken !=? "" then ignore (Sessions_Delete oldToken) else Ret tt) in
  CreateSession userID userAgent ipAddress amr.
End services.
