(* ===== verification/AuthService.v ===== *)
(** * internal/auth/service.go and secondfactor.go: signing in

    [Service]: password login with lockout, the second factor of a pending
    login, sessions, and the changes to second factors a signed-in user makes.
    The lockout map and the pending logins are in memory shared by requests;
    each of their operations is one critical section.  The check against a
    dummy hash for unknown users ([burnPasswordCheck]) has no effect but the
    time it takes. *)
From S2P Require Import Prelude GoTime GoText Encoding Hash Errors Domain Lockout PendingLogins.
From S2P Require Import World Run Metrics Store Password Totp Csrf Session.
#[local] Open Scope Z_scope.
#[local] Open Scope go_scope.

Definition PendingLoginCookieName := "idpico_pending_login".
Definition AMRPassword := "pwd".
Definition AMROneTimePassword := "otp".
Definition AMRMultiFactor := "mfa".

Definition ErrSecondFactorRequired : error := Plain "second factor required".
Definition ErrPendingLoginExpired : error := Plain "sign-in expired; enter your password again".
Definition ErrInvalidCode : error := Plain "invalid code".
Definition ErrInvalidPassword : error := Plain "current password is incorrect".
Definition ErrAccountLocked : error := Plain "account is temporarily locked".

(** [as_passkeys] tells whether a passkey store is configured, [as_audit] and
    [as_lockout] whether the recorder and the lockout service are. *)
Record Service := {
  as_sessions : SessionService;
  as_csrf : CSRFService;
  as_lockout : option LockoutService;
  as_audit : bool;
  as_passkeys : bool;
}.

Section service.
Context `{Store} `{UnicodeTables} `{Argon2} (s : Service).

(** ** Lockout and pending logins as critical sections *)

Definition is_locked (email : string) : Prog bool :=
  match as_lockout s with
  | None => Ret false
  | Some l => crit (fun t _ m => (Lockout_IsLocked l t email (m_lockout m), m))
  end.

Definition record_failure (email : string) : Prog unit :=
  match as_lockout s with
  | None => Ret tt
  | Some l =>
      let! locked := crit (fun t1 t2 m =>
        let '(b, x) := Lockout_RecordFailure l t1 t2 email (m_lockout m) in (b, set_lockout x m)) in
      if locked then RecordAccountLockout else Ret tt
  end.

Definition record_success (email : string) : Prog unit :=
  match as_lockout s with
  | None => Ret tt
  | Some l => crit (fun _ _ m => (tt, set_lockout (Lockout_RecordSuccess l email (m_lockout m)) m))
  end.

Definition pending_add (user : User) : Prog (res string) :=
  let? random := randRead 32 in
  let token := RawURLEncodeToString random in
  let! t := now in
  let! _ := crit (fun _ _ m => (tt, set_pending (pendingLogins_add t token user (m_pending m)) m)) in
  ret_ok token.

Definition pending_crit {A} (f : Z -> pending_map -> A * pending_map) : Prog A :=
  crit (fun t _ m => let '(a, p) := f t (m_pending m) in (a, set_pending p m)).

Definition pending_get (token : string) : Prog (option pendingLogin) :=
  pending_crit (fun t => pendingLogins_get t token).
Definition pending_reserve (token : string) : Prog (option pendingLogin) :=
  pending_crit (fun t => pendingLogins_reserve t token).
Definition pending_remove (token : string) : Prog unit :=
  pending_crit (fun _ p => (tt, pendingLogins_remove token p)).

Definition pending_cookie (value : string) (maxAge : Z) : cookie := {|
  ck_Name := PendingLoginCookieName; ck_Value := value; ck_Path := "/login";
  ck_Domain := ss_cookieDomain (as_sessions s); ck_MaxAge := maxAge; ck_HttpOnly := true;
  ck_Secure := ss_cookieSecure (as_sessions s); ck_SameSite := "Lax" |}.

Definition setPendingCookie (token : string) : Prog unit :=
  emit (SetCookie (pending_cookie token (Z.quot pendingLoginTTL Second))).
Definition clearPendingCookie : Prog unit := emit (SetCookie (pending_cookie "" (-1))).

(** ** Password login *)

Definition Authenticate (email password : string) : Prog (res User) :=
  let! r := Users_GetByEmail email in
  match r with
  | Err e =>
      if IsCode e CodeNotFound then ret_err (IdpError CodeUnauthorized "invalid credentials")
      else ret_err (Errorf "failed to get user" e)
  | Ok user =>
      if negb (user_Active user) then ret_err (IdpError CodeUnauthorized "account is disabled")
      else match VerifyPassword password (user_PasswordHash user) with
      | Ok true => ret_ok user
      | _ => ret_err (IdpError CodeUnauthorized "invalid credentials")
      end
  end.

Definition hasSecondFactor (user : User) : Prog bool :=
  if TOTPEnabled user then Ret true
  else if negb (as_passkeys s) then Ret false
  else
    let! r := Passkeys_ListByUserID (user_ID user) in
    Ret (match r with Err _ => true | Ok l => negb (match l with [] => true | _ => false end) end).

Definition startSession (r : Request) (user : User) (amr : list string) : Prog (res unit) :=
  let! _ := record_success (user_Email user) in
  let oldToken := default "" (Cookie r SessionCookieName) in
  let? (_, token) := mapErr (Errorf "failed to create session")
    (RotateSession (as_sessions s) oldToken (user_ID user) (Header r "User-Agent") (getClientIP r) amr) in
  let! _ := SetSessionCookie (as_sessions s) token in
  let! _ := ClearToken (as_csrf s) in
  let! _ := RecordEvent (as_audit s) (user_event user "login.success" "" (ClientIP r)) in
  let! _ := RecordLogin "success" in
  ret_ok tt.

(** The user is returned with [ErrSecondFactorRequired] too; callers read it
    only on success. *)
Definition Login (r : Request) (email password : string) : Prog (res User) :=
  let! v := ValidateToken (as_csrf s) r in
  match v with
  | Err _ => ret_err (IdpError CodeForbidden "invalid CSRF token")
  | Ok _ =>
      let! locked := is_locked email in
      if locked then
        let! _ := RecordEvent (as_audit s) (email_event email "login.locked" "" "" (ClientIP r)) in
        let! _ := RecordLogin "locked" in
        ret_err (IdpError CodeForbidden "account is temporarily locked")
      else
        let! a := Authenticate email password in
        match a with
        | Err e =>
            let! _ := record_failure email in
            let! _ := RecordEvent (as_audit s) (email_event email "login.failure" "" "" (ClientIP r)) in
            let! _ := RecordLogin "failure" in
            ret_err e
        | Ok user =>
            let! second := hasSecondFactor user in
            if second then
              let? token := pending_add user in
              let! _ := setPendingCookie token in
              let! _ := ClearToken (as_csrf s) in
              let! _ := RecordLogin "second_factor_required" in
              ret_err ErrSecondFactorRequired
            else
              let? _ := startSession r user [AMRPassword] in
              ret_ok user
        end
  end.

(** ** The user behind a request *)

Definition CurrentSession (r : Request) : Prog (res (Session * User)) :=
  let? session := GetSessionFromRequest r in
  let? user := Users_GetByID (session_UserID session) in
  if negb (user_Active user) then ret_err (IdpError CodeUnauthorized "account is disabled")
  else ret_ok (session, user).

Definition GetCurrentUser (r : Request) : Prog (res User) :=
  let? (_, user) := CurrentSession r in ret_ok user.

Definition IsAuthenticated (r : Request) : Prog bool :=
  let! x := GetSessionFromRequest r in
  Ret (match x with Ok _ => true | Err _ => false end).

Definition Logout (r : Request) : Prog (res unit) :=
  let! _ := (match Cookie r SessionCookieName with
    | None => Ret tt
    | Some value =>
        if value ==? "" then Ret tt
        else
          let! _ := (if as_audit s then
            let! u := GetCurrentUser r in
            match u with
            | Ok user => RecordEvent (as_audit s) (user_event user "logout" "" (ClientIP r))
            | Err _ => Ret tt
            end
          else Ret tt) in
          ignore (DeleteSession value)
    end) in
  let! _ := ClearSessionCookie (as_sessions s) in
  let! _ := ClearToken (as_csrf s) in
  ret_ok tt.

Definition CreateUser (email password displayName : string) : Prog (res User) :=
  let? hash := mapErr (Errorf "failed to hash password") (HashPassword password) in
  let! id := newUUID in
  Users_Create {|
    user_ID := id; user_Email := email; user_PasswordHash := hash; user_DisplayName := displayName;
    user_GivenName := ""; user_FamilyName := ""; user_Active := true; user_EmailVerified := false;
    user_Admin := false; user_TOTPSecret := ""; user_TOTPLastStep := 0; user_RecoveryCodes := [];
    user_CreatedAt := zero_time; user_UpdatedAt := zero_time |}.

(** ** The second factor *)

Definition HasPendingLogin (r : Request) : Prog bool :=
  match Cookie r PendingLoginCookieName with
  | None => Ret false
  | Some value => let! p := pending_get value in Ret (bool_decide (is_Some p))
  end.

(** A pending login that cannot go on: it is forgotten. *)
Definition drop_pending {A} (token : string) (e : error) : Prog (res A) :=
  let! _ := pending_remove token in
  let! _ := clearPendingCookie in
  ret_err e.

(** The token, the user, the attempts counted so far. *)
Definition reservePendingAttempt (r : Request) : Prog (res (string * User * Z)) :=
  let! v := ValidateToken (as_csrf s) r in
  match v with
  | Err _ => ret_err (IdpError CodeForbidden "invalid CSRF token")
  | Ok _ =>
      match Cookie r PendingLoginCookieName with
      | None => ret_err ErrPendingLoginExpired
      | Some token =>
          let! p := pending_reserve token in
          match p with
          | None => let! _ := clearPendingCookie in ret_err ErrPendingLoginExpired
          | Some p =>
              let! locked := is_locked (pl_email p) in
              if locked then
                let! _ := pending_remove token in
                let! _ := clearPendingCookie in
                let! _ := RecordLogin "locked" in
                ret_err (IdpError CodeForbidden "account is temporarily locked")
              else
                let! u := Users_GetByID (pl_userID p) in
                match u with
                | Err _ => drop_pending token ErrPendingLoginExpired
                | Ok user =>
                    if negb (user_Active user) then drop_pending token ErrPendingLoginExpired
                    else
                      let! second := hasSecondFactor user in
                      if negb second then drop_pending token ErrPendingLoginExpired
                      else ret_ok (token, user, pl_attempts p)
                end
          end
      end
  end.

(** Always an error: whether the pending login may try again. *)
Definition secondFactorFailed (r : Request) (user : User) (token : string) (attempts : Z)
    (detail : string) : Prog error :=
  let! _ := record_failure (user_Email user) in
  let! _ := RecordEvent (as_audit s)
    (email_event (user_Email user) "login.failure" (user_ID user) detail (ClientIP r)) in
  let! _ := RecordLogin "failure" in
  if pendingLoginAttempts <=? attempts then
    let! _ := pending_remove token in
    let! _ := clearPendingCookie in
    Ret ErrPendingLoginExpired
  else Ret ErrInvalidCode.

Definition finishPendingLogin (r : Request) (token : string) (user : User) (amr : list string)
    : Prog (res unit) :=
  let! _ := pending_remove token in
  let! _ := clearPendingCookie in
  startSession r user amr.

Definition user_set_step (step : Z) (u : User) : User :=
  user_set_totp (user_TOTPSecret u) step u.

(** The check under the user's lock: the caller's copy of the user becomes
    the stored one. *)
Definition check_and_record (r : Request) (userID code : string) : Prog (res (bool * User)) :=
  let? user := Users_GetByID userID in
  let! t := now in
  match (if TOTPEnabled user
         then VerifyTOTP (user_TOTPSecret user) code t (user_TOTPLastStep user) else None) with
  | Some step =>
      let? user := mapErr (Errorf "failed to record code use") (Users_Update (user_set_step step user)) in
      ret_ok (true, user)
  | None =>
      match UseRecoveryCode (user_RecoveryCodes user) code with
      | Some rest =>
          let? user := mapErr (Errorf "failed to record recovery code use")
            (Users_Update (user_set_recovery rest user)) in
          let! _ := RecordEvent (as_audit s) (user_event user "totp.recovery_code_used"
            (dec (Z.of_nat (length rest)) +:+ " left") (ClientIP r)) in
          ret_ok (true, user)
      | None => ret_ok (false, user)
      end
  end.

Definition consumeSecondFactor (r : Request) (user : User) (code : string) : Prog (res (bool * User)) :=
  let code := TrimSpace code in
  if code ==? "" then ret_ok (false, user)
  else locked (LUser (user_ID user)) (check_and_record r (user_ID user) code).

Definition CompleteSecondFactor (r : Request) (code : string) : Prog (res User) :=
  let? (token, user, attempts) := reservePendingAttempt r in
  let? (ok, user) := consumeSecondFactor r user code in
  if negb ok then
    let! e := secondFactorFailed r user token attempts "wrong authenticator or recovery code" in
    ret_err e
  else
    let? _ := finishPendingLogin r token user [AMRPassword; AMROneTimePassword; AMRMultiFactor] in
    ret_ok user.

(** ** Changes made from a session *)

(** [check] also returns the user, which it may have read again. *)
Definition guarded (user : User) (check : Prog (res (bool * User))) (wrong : error)
    : Prog (res User) :=
  let! locked := is_locked (user_Email user) in
  if locked then ret_err ErrAccountLocked
  else
    let? (ok, user) := check in
    if negb ok then
      let! _ := record_failure (user_Email user) in
      ret_err wrong
    else ret_ok user.

Definition VerifyCurrentPassword (user : User) (password : string) : Prog (res User) :=
  guarded user
    (ret_ok (match VerifyPassword password (user_PasswordHash user) with Ok b => b | Err _ => false end, user))
    ErrInvalidPassword.

Definition EnableTOTP (r : Request) (user : User) (password secret code : string)
    : Prog (res (list string)) :=
  if TOTPEnabled user then
    ret_err (InvalidInput "an authenticator is already set up; turn it off first")
  else
    let? _ := VerifyCurrentPassword user password in
    let! t := now in
    match VerifyTOTP secret code t 0 with
    | None => ret_err ErrInvalidCode
    | Some step =>
        let? (codes, hashes) := NewRecoveryCodes in
        let? user := Users_Update (user_set_recovery hashes (user_set_totp (ToUpper secret) step user)) in
        let! _ := RecordEvent (as_audit s) (user_event user "totp.enabled" "" (ClientIP r)) in
        ret_ok codes
    end.

Definition ClearTOTP (user : User) : User := user_set_totp "" 0 user.

Definition DisableTOTP (r : Request) (user : User) (code : string) : Prog (res unit) :=
  let? user := guarded user (consumeSecondFactor r user code) ErrInvalidCode in
  let user := ClearTOTP user in
  let! second := hasSecondFactor user in
  let user := if second then user else user_set_recovery [] user in
  let? user := Users_Update user in
  let! _ := RecordEvent (as_audit s) (user_event user "totp.disabled" "" (ClientIP r)) in
  ret_ok tt.

Definition RenewRecoveryCodes (r : Request) (user : User) (code password : string)
    : Prog (res (list string)) :=
  let! second := hasSecondFactor user in
  if negb second then ret_err (InvalidInput "set up an authenticator app or a passkey first")
  else
    let? user := (if TOTPEnabled user then guarded user (consumeSecondFactor r user code) ErrInvalidCode
                  else VerifyCurrentPassword user password) in
    let? (codes, hashes) := NewRecoveryCodes in
    let? user := Users_Update (user_set_recovery hashes user) in
    let! _ := RecordEvent (as_audit s) (user_event user "totp.recovery_codes_renewed" "" (ClientIP r)) in
    ret_ok codes.

Definition ResetSecondFactors (user : User) : Prog (res unit) :=
  let? user := Users_Update (user_set_recovery [] (ClearTOTP user)) in
  Passkeys_DeleteByUserID (user_ID user).
End service.
