(* ===== verification/Passkeys.v ===== *)
(** * internal/auth/passkeys.go: passkeys as a second factor

    Registration and login ceremonies.  The WebAuthn library is the class
    [WebAuthn]: it makes challenges out of random bytes, reads the browser's
    responses and checks them against a challenge and the user's credentials.
    [pk_wa] of [PasskeySupport] tells whether the issuer allows WebAuthn at
    all. *)
From S2P Require Import Prelude GoTime GoText GoUrl GoNetip Encoding Hash Errors Domain Lockout PendingLogins.
From S2P Require Import World Run Store Password Totp Csrf Session AuthService Metrics.
#[local] Open Scope Z_scope.
#[local] Open Scope go_scope.

Definition AMRSoftwareKey := "swk".
Definition AMRUserVerification := "user".
Definition passkeyCeremonyTTL : Z := 5 * Minute.

Definition ErrPasskeysUnavailable : error := Plain "passkeys are not available on this server".
Definition ErrPasskeyCeremony : error := Plain "passkey request expired; please try again".

(** The user as the library sees it: handle, name, display name. *)
Record webauthnUser := {
  wu_ID : list Z;
  wu_Name : string;
  wu_DisplayName : string;
}.

(** go-webauthn, and the JSON form of its credentials.  Session data and
    options are the library's own JSON; a challenge is drawn from the random
    bytes given to the function. *)
Class WebAuthn := {
  Credential : Type;
  CreationResponse : Type;
  AssertionResponse : Type;
  UnmarshalCredential : string -> option Credential;
  MarshalCredential : Credential -> res string;
  credential_ID : Credential -> list Z;
  CloneWarning : Credential -> bool;
  BeginRegistration : webauthnUser -> list Credential -> list Z -> res (string * string);
  ParseCredentialCreationResponseBytes : string -> option CreationResponse;
  CreateCredential : webauthnUser -> string -> CreationResponse -> res Credential;
  BeginLogin : webauthnUser -> list Credential -> list Z -> res (string * string);
  ParseCredentialRequestResponseBytes : string -> option AssertionResponse;
  ValidateLogin : webauthnUser -> list Credential -> string -> AssertionResponse -> res Credential;
  HasUserVerified : AssertionResponse -> bool;
}.

(** What the library documents of a valid assertion: it was made by one of
    the user's credentials, which it returns with its counter updated. *)
Class WebAuthnLaws `{WebAuthn} : Prop := {
  validated_credential : forall u creds challenge a c,
    ValidateLogin u creds challenge a = Ok c ->
    exists c', c' ∈ creds /\ credential_ID c' = credential_ID c;
}.

(** [net.ParseIP(s) != nil]. *)
Definition is_IP (s : string) : bool :=
  match ParseAddr s with Some a => Zone a ==? "" | None => false end.

Section config.
Context `{UnicodeTables}.

(** [newWebAuthn], whether it succeeds: [webauthn_New] takes the relying
    party's identifier, its display name and its origins. *)
Definition newWebAuthn (webauthn_New : string -> string -> list string -> option error) (issuerURL : string)
    : res unit :=
  match Parse issuerURL with
  | None => Err (Plain ("issuer URL " +:+ Quote issuerURL +:+ " has no host"))
  | Some u =>
      if u_Host u ==? "" then Err (Plain ("issuer URL " +:+ Quote issuerURL +:+ " has no host"))
      else
        let host := Hostname u in
        if (u_Scheme u !=? "https") && (host !=? "localhost") then
          Err (Plain ("WebAuthn needs an https issuer (or http://localhost), not " +:+ issuerURL))
        else if is_IP host then
          Err (Plain ("WebAuthn needs a host name, not an IP address (" +:+ host +:+ ")"))
        else match webauthn_New host "IDPico" [u_Scheme u +:+ "://" +:+ u_Host u] with
        | Some e => Err e
        | None => Ok tt
        end
  end.
End config.

Example issuers_and_passkeys `{UnicodeTables} :
  map (newWebAuthn (fun _ _ _ => None))
    ["https://id.example.com"; "http://localhost:8080"; "http://id.example.com"; "https://10.0.0.1:8443";
     "https://[::1]"; "id.example.com"]
  = [Ok tt; Ok tt;
     Err (Plain "WebAuthn needs an https issuer (or http://localhost), not http://id.example.com");
     Err (Plain "WebAuthn needs a host name, not an IP address (10.0.0.1)");
     Err (Plain "WebAuthn needs a host name, not an IP address (::1)");
     Err (Plain ("issuer URL " +:+ Quote "id.example.com" +:+ " has no host"))].
Proof. reflexivity. Qed.

Definition as_webauthn_user (u : User) : webauthnUser := {|
  wu_ID := bytes (user_ID u); wu_Name := user_Email u;
  wu_DisplayName := if user_DisplayName u !=? "" then user_DisplayName u else user_Email u |}.

(** Random bytes of a challenge. *)
Definition challengeLength : nat := 32.

Section passkeys.
Context `{Store} `{UnicodeTables} `{Argon2} `{WebAuthn} (s : Service) (wa : bool).

Definition PasskeysAvailable : bool := as_passkeys s && wa.

Definition user_passkeys (userID : string) : Prog (res (list Passkey)) :=
  if as_passkeys s then Passkeys_ListByUserID userID else ret_ok [].

(** Every stored credential must be readable. *)
Fixpoint credentials_of (l : list Passkey) : res (list Credential) :=
  match l with
  | [] => Ok []
  | p :: l =>
      match UnmarshalCredential (passkey_Credential p) with
      | None => Err (Errorf ("passkey " +:+ passkey_ID p) (Plain "invalid JSON"))
      | Some c => res_map (cons c) (credentials_of l)
      end
  end.

(** The user's credentials and passkeys. *)
Definition load_webauthnUser (user : User) : Prog (res (list Credential * list Passkey)) :=
  let? list := Passkeys_ListByUserID (user_ID user) in
  Ret (res_map (fun creds => (creds, list)) (credentials_of list)).

(** ** Registration *)

Definition BeginPasskeyRegistration (user : User) (password : string) : Prog (res string) :=
  if negb PasskeysAvailable then ret_err ErrPasskeysUnavailable
  else
    let? _ := VerifyCurrentPassword s user password in
    let? (creds, _) := load_webauthnUser user in
    let? random := randRead challengeLength in
    match BeginRegistration (as_webauthn_user user) creds random with
    | Err e => ret_err e
    | Ok (creation, data) =>
        let! _ := crit (fun t _ m =>
          (tt, set_registrations (<[user_ID user := (data, Add t passkeyCeremonyTTL)]> (m_registrations m)) m)) in
        ret_ok creation
    end.

(** The pending ceremony of a user, which is forgotten. *)
Definition take_registration (userID : string) : Prog (option (string * Z)) :=
  crit (fun _ _ m => (m_registrations m !! userID,
                      set_registrations (delete userID (m_registrations m)) m)).

Definition passkey_name (name : string) : string :=
  let name := TrimSpace name in
  let name := if name ==? "" then "Passkey" else name in
  if 64 <? len name then str_take 64 name else name.

(** A second step needs recovery codes; new ones are returned. *)
Definition ensure_recovery_codes (user : User) : Prog (res (list string)) :=
  match user_RecoveryCodes user with
  | [] =>
      let? (codes, hashes) := NewRecoveryCodes in
      let? _ := Users_Update (user_set_recovery hashes user) in
      ret_ok codes
  | _ => ret_ok []
  end.

(** What follows a verified registration. *)
Definition store_passkey (r : Request) (user : User) (name : string) (cred : Credential)
    : Prog (res (list string)) :=
  match MarshalCredential cred with
  | Err e => ret_err e
  | Ok raw =>
      let? _ := Passkeys_Create {|
        passkey_ID := RawURLEncodeToString (credential_ID cred); passkey_UserID := user_ID user;
        passkey_Name := passkey_name name; passkey_Credential := raw;
        passkey_CreatedAt := zero_time; passkey_LastUsedAt := zero_time |} in
      let! _ := RecordEvent (as_audit s) (user_event user "passkey.added" (passkey_name name) (ClientIP r)) in
      ensure_recovery_codes user
  end.

Definition FinishPasskeyRegistration (r : Request) (user : User) (name response : string)
    : Prog (res (list string)) :=
  if negb PasskeysAvailable then ret_err ErrPasskeysUnavailable
  else
    let! ceremony := take_registration (user_ID user) in
    let! t := now in
    match ceremony with
    | None => ret_err ErrPasskeyCeremony
    | Some (data, expires) =>
        if After t expires then ret_err ErrPasskeyCeremony
        else match ParseCredentialCreationResponseBytes response with
        | None => ret_err (InvalidInput "the passkey response could not be read")
        | Some parsed =>
            let? _ := load_webauthnUser user in
            match CreateCredential (as_webauthn_user user) data parsed with
            | Err _ => ret_err (InvalidInput "the passkey could not be verified")
            | Ok cred => store_passkey r user name cred
            end
        end
    end.

Definition RemovePasskey (r : Request) (user : User) (id password : string) : Prog (res unit) :=
  if negb (as_passkeys s) then ret_err ErrPasskeysUnavailable
  else
    let? _ := VerifyCurrentPassword s user password in
    let? _ := Passkeys_Delete (user_ID user) id in
    let! _ := RecordEvent (as_audit s) (user_event user "passkey.removed" id (ClientIP r)) in
    let! second := hasSecondFactor s user in
    if negb second && (0 <? Z.of_nat (length (user_RecoveryCodes user))) then
      let? _ := Users_Update (user_set_recovery [] user) in ret_ok tt
    else ret_ok tt.

(** ** The second step of a login *)

Definition PendingLoginHasPasskeys (r : Request) : Prog bool :=
  if negb PasskeysAvailable then Ret false
  else match Cookie r PendingLoginCookieName with
  | None => Ret false
  | Some value =>
      let! p := pending_get value in
      match p with
      | None => Ret false
      | Some p =>
          let! l := Passkeys_ListByUserID (pl_userID p) in
          Ret (match l with Ok l => 0 <? Z.of_nat (length l) | Err _ => false end)
      end
  end.

Definition PendingLoginHasTOTP (r : Request) : Prog bool :=
  match Cookie r PendingLoginCookieName with
  | None => Ret false
  | Some value =>
      let! p := pending_get value in
      match p with
      | None => Ret false
      | Some p =>
          let! u := Users_GetByID (pl_userID p) in
          Ret (match u with Ok user => TOTPEnabled user | Err _ => false end)
      end
  end.

Definition pending_set_challenge (token data : string) : Prog bool :=
  pending_crit (fun t => setPasskeyChallenge t token data).
Definition pending_take_challenge (token : string) : Prog (option string) :=
  pending_crit (fun _ => takePasskeyChallenge token).

(** The options for a user with credentials; the challenge is kept with the
    pending login. *)
Definition issue_challenge (token : string) (user : User) (creds : list Credential) : Prog (res string) :=
  let? random := randRead challengeLength in
  match BeginLogin (as_webauthn_user user) creds random with
  | Err e => ret_err e
  | Ok (assertion, data) =>
      let! ok := pending_set_challenge token data in
      if negb ok then ret_err ErrPendingLoginExpired else ret_ok assertion
  end.

Definition BeginPasskeyLogin (r : Request) : Prog (res string) :=
  if negb PasskeysAvailable then ret_err ErrPasskeysUnavailable
  else
    let! v := ValidateToken (as_csrf s) r in
    match v with
    | Err _ => ret_err (IdpError CodeForbidden "invalid CSRF token")
    | Ok _ =>
        match Cookie r PendingLoginCookieName with
        | None => ret_err ErrPendingLoginExpired
        | Some token =>
            let! p := pending_get token in
            match p with
            | None => ret_err ErrPendingLoginExpired
            | Some p =>
                let! u := Users_GetByID (pl_userID p) in
                match u with
                | Err _ => ret_err ErrPendingLoginExpired
                | Ok user =>
                    let? (creds, _) := load_webauthnUser user in
                    match creds with
                    | [] => ret_err ErrPasskeysUnavailable
                    | _ => issue_challenge token user creds
                    end
                end
            end
        end
    end.

(** The passkey that was used keeps its new counter and the instant. *)
Fixpoint record_use (id : string) (raw : res string) (l : list Passkey) : Prog (res unit) :=
  match l with
  | [] => ret_ok tt
  | p :: l =>
      if passkey_ID p !=? id then record_use id raw l
      else match raw with
      | Err e => ret_err e
      | Ok raw =>
          let! t := now in
          let? _ := mapErr (Errorf "failed to record passkey use") (Passkeys_Update {|
            passkey_ID := passkey_ID p; passkey_UserID := passkey_UserID p; passkey_Name := passkey_Name p;
            passkey_Credential := raw; passkey_CreatedAt := passkey_CreatedAt p;
            passkey_LastUsedAt := t |}) in
          record_use id (Ok raw) l
      end
  end.

(** The credential an acceptable response proves, and whether the user was
    verified. *)
Definition check_assertion (user : User) (creds : list Credential) (challenge response : string)
    : option (Credential * bool) :=
  parsed ← ParseCredentialRequestResponseBytes response;
  match ValidateLogin (as_webauthn_user user) creds challenge parsed with
  | Ok cred => if CloneWarning cred then None else Some (cred, HasUserVerified parsed)
  | Err _ => None
  end.

Definition passkey_amr (verified : bool) : list string :=
  [AMRPassword; AMRSoftwareKey; AMRMultiFactor] ++ (if verified then [AMRUserVerification] else []).

(** The part under the user's lock. *)
Definition finish_passkey_login (r : Request) (token : string) (user : User) (attempts : Z)
    (challenge response : string) : Prog (res User) :=
  let? (creds, list) := load_webauthnUser user in
  match check_assertion user creds challenge response with
  | None =>
      let! e := secondFactorFailed s r user token attempts "passkey not accepted" in
      ret_err e
  | Some (cred, verified) =>
      let? _ := record_use (RawURLEncodeToString (credential_ID cred)) (MarshalCredential cred) list in
      let? _ := finishPendingLogin s r token user (passkey_amr verified) in
      ret_ok user
  end.

Definition CompletePasskeyLogin (r : Request) (response : string) : Prog (res User) :=
  if negb PasskeysAvailable then ret_err ErrPasskeysUnavailable
  else
    let? (token, user, attempts) := reservePendingAttempt s r in
    let! challenge := pending_take_challenge token in
    match challenge with
    | None => ret_err ErrPasskeyCeremony
    | Some challenge =>
        locked (LUser (user_ID user)) (finish_passkey_login r token user attempts challenge response)
    end.
End passkeys.
