(* ===== verification/Account.v ===== *)
(** * internal/auth/account.go: flows that go through email

    Password reset and address verification: random single-use tokens whose
    SHA-256 hash is stored, a throttle per address, and the password change
    that ends every session and refresh token of the user. *)
From S2P Require Import Prelude GoTime GoText Encoding Hash Errors Domain Lockout PendingLogins.
From S2P Require Import GoUrl GoDuration World Run Store Password Session.
From Stdlib Require Import Ascii.
#[local] Open Scope Z_scope.
#[local] Open Scope go_scope.

(** ** Text of the messages *)

Definition newline : string := of_bytes [10].

Definition humanDuration (d : Z) : string :=
  let day := 24 * Hour in
  if (day <=? d) && (Z.rem d day =? 0) then
    if Z.quot d day =? 1 then "1 day" else dec (Z.quot d day) +:+ " days"
  else if (Hour <=? d) && (Z.rem d Hour =? 0) then
    if Z.quot d Hour =? 1 then "1 hour" else dec (Z.quot d Hour) +:+ " hours"
  else Duration_String d.

Example durations :
  map humanDuration [24 * Hour; 72 * Hour; Hour; 90 * Minute; 30 * Minute; 1500 * Millisecond]
  = ["1 day"; "3 days"; "1 hour"; "1h30m0s"; "30m0s"; "1.5s"].
Proof. vm_compute. reflexivity. Qed.

(** ** The service *)

Definition MinPasswordLength : Z := 8.

(** [ac_baseURL] has no trailing slash (the constructor trims it). *)
Record AccountService := {
  acc_baseURL : string;
  acc_resetTTL : Z;
  acc_verifyTTL : Z;
  acc_audit : bool;
  acc_resetInterval : Z;
}.

Definition hashToken (token : string) : string := hex_EncodeToString (Sum256 (bytes token)).

Definition displayName (u : User) : string :=
  if user_DisplayName u !=? "" then user_DisplayName u else user_Email u.

Definition ValidatePassword (password : string) : res unit :=
  if RuneCountInString password <? MinPasswordLength then
    Err (InvalidInput ("password must be at least " +:+ dec MinPasswordLength +:+ " characters"))
  else Ok tt.

Section service.
Context `{Store} `{UnicodeTables} `{Argon2} (s : AccountService).

Definition throttle_key (email : string) : string := ToLower (TrimSpace email).

(** The critical section of [throttled], at the instant read before it. *)
Definition throttle_step (t : Z) (email : string) (m : gmap string Z) : bool * gmap string Z :=
  let m := if (1000 <? Z.of_nat (size m))
           then filter (fun ka : string * Z => Sub t ka.2 < acc_resetInterval s) m else m in
  match m !! throttle_key email with
  | Some at_ => if Sub t at_ <? acc_resetInterval s then (true, m)
                else (false, <[throttle_key email := t]> m)
  | None => (false, <[throttle_key email := t]> m)
  end.

Definition throttled (email : string) : Prog bool :=
  if acc_resetInterval s <=? 0 then Ret false
  else
    let! t := now in
    crit (fun _ _ m => let '(b, x) := throttle_step t email (m_lastReset m) in (b, set_lastReset x m)).

Definition account_link (path token : string) : string :=
  acc_baseURL s +:+ path +:+ "?token=" +:+ QueryEscape token.

Definition issueToken (userID purpose : string) (ttl : Z) : Prog (res string) :=
  let? raw := mapErr (Errorf "failed to generate token") (randRead 32) in
  let token := RawURLEncodeToString raw in
  let? _ := mapErr (Errorf "failed to clear old tokens") (Verification_DeleteByUserID userID purpose) in
  let! t := now in
  let? _ := mapErr (Errorf "failed to store token") (Verification_Create {|
    vt_TokenHash := hashToken token; vt_UserID := userID; vt_Purpose := purpose;
    vt_CreatedAt := zero_time; vt_ExpiresAt := Add t ttl; vt_Used := false |}) in
  ret_ok token.

Definition invalid_link : error := IdpError CodeTokenInvalid "this link is invalid or has expired".

Definition consumeToken (token purpose : string) : Prog (res VerificationToken) :=
  if token ==? "" then ret_err invalid_link
  else
    let? vt := mapErr (fun e => if IsCode e CodeNotFound then invalid_link
                                else Errorf "failed to load token" e)
                 (Verification_GetByHash (hashToken token)) in
    let! t := now in
    if (vt_Purpose vt !=? purpose) || negb (VerificationToken_IsValid t vt) then ret_err invalid_link
    else
      let? _ := mapErr (Errorf "failed to mark token used") (Verification_MarkUsed (vt_TokenHash vt)) in
      ret_ok vt.

Definition mail_event (user : User) : Event := {|
  e_Actor := None; e_ActorEmail := user_Email user; e_Action := "password.reset_requested";
  e_TargetType := "user"; e_TargetID := user_ID user; e_Detail := ""; e_IP := "" |}.

Definition SendPasswordReset (user : User) : Prog (res unit) :=
  let? token := issueToken (user_ID user) PurposePasswordReset (acc_resetTTL s) in
  let? _ := mapErr (Errorf "failed to send password reset email") (trigger (ESend {|
    msg_To := user_Email user; msg_Subject := "Reset your password";
    msg_Body := "Hello " +:+ displayName user +:+ "," +:+ newline +:+ newline
      +:+ "A password reset was requested for your account. Open the link below to choose a new password. It expires in "
      +:+ humanDuration (acc_resetTTL s) +:+ "." +:+ newline +:+ newline
      +:+ account_link "/reset-password" token +:+ newline +:+ newline
      +:+ "If you did not request this, you can ignore this email." +:+ newline |})) in
  let! _ := RecordEvent (acc_audit s) (mail_event user) in
  ret_ok tt.

Definition RequestPasswordReset (email : string) : Prog (res unit) :=
  let! r := Users_GetByEmail email in
  match r with
  | Err e => if IsCode e CodeNotFound then ret_ok tt else ret_err (Errorf "failed to look up user" e)
  | Ok user =>
      if negb (user_Active user) then ret_ok tt
      else
        let! b := throttled (user_Email user) in
        if b then ret_ok tt else SendPasswordReset user
  end.

Definition SetPassword (user : User) (password : string) : Prog (res User) :=
  match ValidatePassword password with
  | Err e => ret_err e
  | Ok _ =>
      let? hash := mapErr (Errorf "failed to hash password") (HashPassword password) in
      let? user := mapErr (Errorf "failed to update user") (Users_Update (user_set_password hash user)) in
      let! _ := ignore (Sessions_DeleteByUserID (user_ID user)) in
      let! _ := ignore (Tokens_RevokeByUserID (user_ID user)) in
      let! _ := ignore (Verification_DeleteByUserID (user_ID user) PurposePasswordReset) in
      ret_ok user
  end.

Definition ResetPassword (token newPassword : string) : Prog (res User) :=
  match ValidatePassword newPassword with
  | Err e => ret_err e
  | Ok _ =>
      let? vt := consumeToken token PurposePasswordReset in
      let? user := mapErr (Errorf "failed to load user") (Users_GetByID (vt_UserID vt)) in
      let? user := SetPassword user newPassword in
      let! _ := RecordEvent (acc_audit s) (user_event user "password.reset" "" "") in
      ret_ok user
  end.

Definition SendEmailVerification (user : User) : Prog (res unit) :=
  let? token := issueToken (user_ID user) PurposeEmailVerify (acc_verifyTTL s) in
  let? _ := mapErr (Errorf "failed to send verification email") (trigger (ESend {|
    msg_To := user_Email user; msg_Subject := "Verify your email address";
    msg_Body := "Hello " +:+ displayName user +:+ "," +:+ newline +:+ newline
      +:+ "Please confirm that " +:+ user_Email user
      +:+ " is your email address by opening the link below. It expires in "
      +:+ humanDuration (acc_verifyTTL s) +:+ "." +:+ newline +:+ newline
      +:+ account_link "/verify-email" token +:+ newline |})) in
  ret_ok tt.

Definition VerifyEmail (token : string) : Prog (res User) :=
  let? vt := consumeToken token PurposeEmailVerify in
  let? user := mapErr (Errorf "failed to load user") (Users_GetByID (vt_UserID vt)) in
  let? user := (if user_EmailVerified user then ret_ok user
                else mapErr (Errorf "failed to update user") (Users_Update (user_set_verified true user))) in
  let! _ := ignore (Verification_DeleteByUserID (user_ID user) PurposeEmailVerify) in
  let! _ := RecordEvent (acc_audit s) (user_event user "email.verified" "" "") in
  ret_ok user.
End service.
