(* ===== verification/Authorize.v ===== *)
(** * internal/oidc/authorize.go and consent.go: authorization requests

    Parsing and validation of the request, PKCE, the issue of a code, and the
    consent a user gives.  [ValidateClient] sets [MaxAge] of the request it is
    given: the request it leaves is part of its result. *)
From S2P Require Import Prelude GoTime GoText Encoding Hash Errors Domain Lockout PendingLogins.
From S2P Require Import GoUrl World Run Metrics Store.
#[local] Open Scope Z_scope.
#[local] Open Scope go_scope.

Record AuthorizeRequest := {
  ar_ClientID : string;
  ar_RedirectURI : string;
  ar_ResponseType : string;
  ar_Scope : string;
  ar_State : string;
  ar_Nonce : string;
  ar_CodeChallenge : string;
  ar_CodeChallengeMethod : string;
  ar_Prompt : list string;
  ar_MaxAge : Z;
  ar_maxAge : string;
  ar_hasRequest : bool;
  ar_hasRequestURI : bool;
  ar_hasRegistration : bool;
}.

Definition ar_set_MaxAge (n : Z) (r : AuthorizeRequest) : AuthorizeRequest :=
  let '(Build_AuthorizeRequest c u t s st no ch m p _ ma a b d) := r in
  Build_AuthorizeRequest c u t s st no ch m p n ma a b d.

Definition HasPrompt (r : AuthorizeRequest) (value : string) : bool :=
  existsb (fun p => p ==? value) (ar_Prompt r).

Definition Scopes (r : AuthorizeRequest) : list string := Fields (ar_Scope r).

(** [t] is the instant [time.Since] reads; the product of [MaxAge] seconds is
    a 64-bit one. *)
Definition RequiresFreshLogin (t : Z) (r : AuthorizeRequest) (authTime : Z) : bool :=
  if HasPrompt r "login" || HasPrompt r "select_account" then true
  else (0 <=? ar_MaxAge r) &&
       (IsZero authTime || (wrap64 (ar_MaxAge r * Second) <? Sub t authTime)).

Definition redirectErr (code description : string) : error := RedirectError code description.

(** ** Parsing *)

Definition ParseAuthorizeQuery (q : Values) : res AuthorizeRequest :=
  let Get := Values_Get q in
  let Has := Values_Has q in
  let req := {|
    ar_ClientID := Get "client_id"; ar_RedirectURI := Get "redirect_uri";
    ar_ResponseType := Get "response_type"; ar_Scope := Get "scope";
    ar_State := Get "state"; ar_Nonce := Get "nonce";
    ar_CodeChallenge := Get "code_challenge";
    ar_CodeChallengeMethod := Get "code_challenge_method";
    ar_Prompt := Fields (Get "prompt"); ar_MaxAge := -1; ar_maxAge := Get "max_age";
    ar_hasRequest := Has "request"; ar_hasRequestURI := Has "request_uri";
    ar_hasRegistration := Has "registration" |} in
  if ar_ClientID req ==? "" then Err (InvalidInput "client_id is required")
  else if ar_RedirectURI req ==? "" then Err (InvalidInput "redirect_uri is required")
  else Ok req.

(** ** Validation *)

(** Everything after the redirect URI: the request it leaves, or the error
    for the client. *)
Definition validate_rest (client : Client) (req : AuthorizeRequest) : res AuthorizeRequest :=
  if ar_hasRequest req then Err (redirectErr "request_not_supported" "request objects are not supported")
  else if ar_hasRequestURI req then
    Err (redirectErr "request_uri_not_supported" "request_uri is not supported")
  else if ar_hasRegistration req then
    Err (redirectErr "registration_not_supported" "the registration parameter is not supported")
  else
    res_bind
      (if ar_maxAge req ==? "" then Ok req
       else match Atoi (ar_maxAge req) with
       | Some n => if n <? 0 then Err (redirectErr "invalid_request" "max_age must be a non-negative integer")
                   else Ok (ar_set_MaxAge n req)
       | None => Err (redirectErr "invalid_request" "max_age must be a non-negative integer")
       end) (fun req =>
    if HasPrompt req "none" && (1 <? Z.of_nat (length (ar_Prompt req))) then
      Err (redirectErr "invalid_request" "prompt=none cannot be combined with other prompt values")
    else if ar_ResponseType req !=? "code" then
      Err (redirectErr "unsupported_response_type" "response_type must be 'code'")
    else if negb (AllowsGrant client "authorization_code") then
      Err (redirectErr "unauthorized_client" "client is not allowed the authorization_code grant")
    else if negb (existsb (fun s => s ==? "openid") (Scopes req)) then
      Err (redirectErr "invalid_scope" "scope must contain 'openid'")
    else if client_Public client && (ar_CodeChallenge req ==? "") then
      Err (redirectErr "invalid_request" "code_challenge is required for public clients")
    else if (ar_CodeChallenge req !=? "") && (ar_CodeChallengeMethod req !=? "S256") then
      Err (redirectErr "invalid_request" "code_challenge_method must be S256")
    else match find_first (fun s => negb (existsb (fun c => c ==? s) (client_Scopes client)))
                 (Scopes req) with
    | Some scope =>
        Err (redirectErr "invalid_scope" ("scope '" +:+ scope +:+ "' not allowed for this client"))
    | None => Ok req
    end).

Section service.
Context `{Store}.

Definition ValidateClient (req : AuthorizeRequest) : Prog (res (Client * AuthorizeRequest)) :=
  let! r := Clients_GetByID (ar_ClientID req) in
  match r with
  | Err e => if IsCode e CodeNotFound then ret_err (InvalidInput "unknown client_id") else ret_err e
  | Ok client =>
      if negb (existsb (fun uri => uri ==? ar_RedirectURI req) (client_RedirectURIs client))
      then ret_err (InvalidInput "invalid redirect_uri")
      else Ret (res_map (pair client) (validate_rest client req))
  end.

(** [codeTTL] is the service's setting. *)
Definition CreateAuthCode (codeTTL : Z) (req : AuthorizeRequest) (userID : string)
    (authTime : Z) (amr : list string) : Prog (res AuthCode) :=
  let! code := newUUID in
  let! t := now in
  let code := {|
    ac_Code := code; ac_ClientID := ar_ClientID req; ac_UserID := userID;
    ac_RedirectURI := ar_RedirectURI req; ac_Scope := ar_Scope req;
    ac_CodeChallenge := ar_CodeChallenge req;
    ac_CodeChallengeMethod := ar_CodeChallengeMethod req;
    ac_Nonce := ar_Nonce req; ac_AuthTime := authTime; ac_AMR := amr;
    ac_CreatedAt := zero_time; ac_ExpiresAt := Add t codeTTL; ac_Used := false |} in
  let? code := mapErr (Errorf "failed to create auth code") (AuthCodes_Create code) in
  let! _ := RecordAuthCodeIssued in
  ret_ok code.
End service.

(** ** Redirect URLs

    [u, _ := url.Parse(redirectURI)] ignores the error, and a nil [u] is
    dereferenced: [None] is that panic. *)

Definition BuildAuthorizationResponse (redirectURI code state : string) : option string :=
  u ← Parse redirectURI;
  let q := Values_Set "code" code (Query u) in
  let q := if state !=? "" then Values_Set "state" state q else q in
  Some (URL_String (set_RawQuery (Values_Encode q) u)).

Definition BuildErrorResponse (redirectURI errorCode errorDescription state : string)
    : option string :=
  u ← Parse redirectURI;
  let q := Values_Set "error" errorCode (Query u) in
  let q := if errorDescription !=? "" then Values_Set "error_description" errorDescription q else q in
  let q := if state !=? "" then Values_Set "state" state q else q in
  Some (URL_String (set_RawQuery (Values_Encode q) u)).

(** ** PKCE (RFC 7636) *)

Definition S256 (codeVerifier : string) : string := RawURLEncodeToString (Sum256 (bytes codeVerifier)).

Definition ValidateCodeVerifier (codeVerifier codeChallenge codeChallengeMethod : string) : bool :=
  if codeChallenge ==? "" then codeVerifier ==? ""
  else if codeVerifier ==? "" then false
  else if codeChallengeMethod ==? "plain" then codeVerifier ==? codeChallenge
  else if codeChallengeMethod ==? "S256" then S256 codeVerifier ==? codeChallenge
  else false.

(** ** Consent *)

(** [unionScopes] keeps the first occurrence of each scope, in order. *)
Fixpoint union_from (seen : gset string) (l : list string) : list string :=
  match l with
  | [] => []
  | s :: l => if bool_decide (s ∈ seen) then union_from seen l
              else s :: union_from ({[s]} ∪ seen) l
  end.

Definition unionScopes (a b : list string) : list string := union_from ∅ (a ++ b).

Definition ScopeDescription (scope : string) : string :=
  if scope ==? "openid" then "Verify your identity"
  else if scope ==? "profile" then "View your name and profile details"
  else if scope ==? "email" then "View your email address"
  else if scope ==? "offline_access" then "Stay signed in (issue refresh tokens)"
  else if scope ==? "groups" then "See which groups you belong to"
  else "Access: " +:+ scope.

Section consent.
Context `{Store}.

Definition IsGranted (userID : string) (client : Client) (scopes : list string) : Prog (res bool) :=
  if client_SkipConsent client then ret_ok true
  else
    let! r := Consents_Get userID (client_ID client) in
    match r with
    | Ok consent => ret_ok (Covers consent scopes)
    | Err e => if IsCode e CodeNotFound then ret_ok false
               else ret_err (Errorf "failed to load consent" e)
    end.

Definition Grant (userID clientID : string) (scopes : list string) : Prog (res unit) :=
  let! r := Consents_Get userID clientID in
  let upsert merged :=
    let? _ := Consents_Upsert {| consent_ID := ""; consent_UserID := userID;
                                 consent_ClientID := clientID; consent_Scopes := merged;
                                 consent_GrantedAt := zero_time |} in
    ret_ok tt in
  match r with
  | Ok existing => upsert (unionScopes (consent_Scopes existing) scopes)
  | Err e => if IsCode e CodeNotFound then upsert scopes
             else ret_err (Errorf "failed to load consent" e)
  end.

Definition Consent_Revoke (userID clientID : string) : Prog (res unit) :=
  Consents_Delete userID clientID.

Definition ListForUser (userID : string) : Prog (res (list Consent)) :=
  Consents_ListByUserID userID.
End consent.

Lemma union_from_elem seen l s : s ∈ union_from seen l <-> s ∈ l /\ s ∉ seen.
Proof.
  revert seen. induction l as [|x l IH]; intros seen; simpl; [set_solver|].
  case_bool_decide as Hx; [|rewrite elem_of_cons]; rewrite IH; [set_solver|].
  destruct (decide (s = x)) as [->|Hne]; set_solver.
Qed.

Lemma union_from_NoDup seen l : NoDup (union_from seen l).
Proof.
  revert seen. induction l as [|x l IH]; intros seen; simpl; [constructor|].
  case_bool_decide as Hx; [done|]. constructor; [|done].
  rewrite union_from_elem. set_solver.
Qed.

Lemma unionScopes_elem a b s : s ∈ unionScopes a b <-> s ∈ a \/ s ∈ b.
Proof. unfold unionScopes. rewrite union_from_elem. set_solver. Qed.

Lemma existsb_eqb_elem (x : string) l : existsb (fun y => y ==? x) l = true <-> x ∈ l.
Proof.
  rewrite existsb_exists. setoid_rewrite bool_decide_eq_true.
  setoid_rewrite <-list_elem_of_In. naive_solver.
Qed.
