(* ===== verification/Redirects.v ===== *)
(** * Redirect URLs: what the client reads back

    The URLs that carry codes and errors to a client
    ([BuildAuthorizationResponse], [BuildErrorResponse]) differ from the
    registered redirect URI in the query only, and their query is read back
    as it was meant.  A path of this server whose query is replaced stays on
    the origin when [http.Redirect] sends it, unless an escaped slash follows
    its first one. *)
From S2P Require Import Prelude GoTime GoText Encoding GoUrl Errors Domain Lockout PendingLogins.
From S2P Require Import World Run Store Authorize.
From Stdlib Require Import Ascii.
#[local] Open Scope Z_scope.
#[local] Open Scope go_scope.

(** ** Strings without the delimiters *)

(** Neither the start of a query nor that of a fragment. *)
Definition plain (s : string) : Prop := has_no "?"%char s /\ has_no "#"%char s.

Definition plain_byte (b : Z) : bool := negb (b =? 63) && negb (b =? 35).

Lemma plain_bytes s : plain s <-> forallb plain_byte (bytes s) = true.
Proof.
  unfold plain, has_no. change (Z.of_N (N_of_ascii "?"%char)) with 63.
  change (Z.of_N (N_of_ascii "#"%char)) with 35. rewrite forallb_forall.
  unfold plain_byte. split.
  - intros [H1 H2] x Hx. apply list_elem_of_In in Hx.
    apply andb_true_iff. rewrite !negb_true_iff, !Z.eqb_neq. split; intros ->; done.
  - intros Hall. split; intros Hin; apply list_elem_of_In, Hall in Hin; done.
Qed.

Lemma plain_app s t : plain s -> plain t -> plain (s +:+ t).
Proof. intros [? ?] [? ?]. split; by apply has_no_app. Qed.

Lemma plain_if (b : bool) s t : plain s -> plain t -> plain (if b then s else t).
Proof. by destruct b. Qed.

Ltac plain_literal := (apply plain_bytes; reflexivity).

(** The modes whose encoding escapes both delimiters. *)
Definition hides (m : encoding) : bool := shouldEscape 63 m && shouldEscape 35 m.

(** A property of bytes that the encoding establishes, checked on every byte. *)
Lemma escaped_bytes p m s :
  forallb (fun c => forallb p (escape_byte m c)) (map Z.of_nat (seq 0 256)) = true ->
  forallb p (bytes (escaped m s)) = true.
Proof.
  intros Hp. unfold escaped. rewrite bytes_of_bytes by apply escape_is_byte, bytes_range. unfold escape.
  apply forallb_forall. intros x Hx. apply in_concat in Hx as (l & Hl & Hx).
  apply in_map_iff in Hl as (c & <- & Hc).
  pose proof (bytes_range s) as Hr. rewrite List.Forall_forall in Hr.
  pose proof (forall_below 256 _ Hp c (Hr _ Hc)) as He. cbn beta in He. rewrite forallb_forall in He. by apply He.
Qed.

Lemma escaped_plain m s : hides m = true -> plain (escaped m s).
Proof.
  intros Hm. apply plain_bytes, escaped_bytes. by destruct m; try discriminate Hm; vm_compute.
Qed.

Lemma validEncoded_plain m s : hides m = true -> validEncoded m s = true -> plain s.
Proof.
  intros Hm Hv. apply plain_bytes, forallb_forall. intros x Hx. unfold validEncoded in Hv.
  rewrite forallb_forall in Hv. specialize (Hv x Hx). unfold hides in Hm. bool_to_prop.
  unfold plain_byte. rewrite andb_true_iff, !negb_true_iff, !Z.eqb_neq.
  split; intros ->; [rewrite H in Hv|rewrite H0 in Hv]; by destruct Hv.
Qed.

Lemma Cut_parts c s : (Cut c s).2 = true -> s = (Cut c s).1.1 +:+ String c (Cut c s).1.2.
Proof.
  induction s as [|d s IH]; [done|]. cbn [Cut]. destruct (Ascii.eqb d c) eqn:E.
  - intros _. apply Ascii.eqb_eq in E. by subst.
  - destruct (Cut c s) as [[a b] f]. cbn in *. intros Hf. by rewrite (IH Hf) at 1.
Qed.

Lemma Cut_before c s : has_no c (Cut c s).1.1.
Proof.
  unfold has_no. induction s as [|d s IH]; simpl; [set_solver|].
  destruct (Ascii.eqb d c) eqn:E; simpl; [set_solver|].
  destruct (Cut c s) as [[a b] f]; simpl in *. rewrite not_elem_of_cons. split; [|done].
  apply Ascii.eqb_neq in E. intros Heq. apply E. apply N2Z.inj, (f_equal ascii_of_N) in Heq.
  by rewrite !ascii_N_embedding in Heq.
Qed.

(** A piece of a string lacks what the string lacks. *)
Lemma Cut_before_no c d s : has_no d s -> has_no d (Cut c s).1.1.
Proof.
  unfold has_no. induction s as [|e s IH]; simpl; [done|]. intros Hd.
  destruct (Ascii.eqb e c); simpl; [set_solver|].
  destruct (Cut c s) as [[a b] f]; simpl in *. rewrite not_elem_of_cons in *. naive_solver.
Qed.

(** ** Parsed URLs *)

Lemma plain_snoc s c : plain s -> plain_byte (Z.of_N (N_of_ascii c)) = true -> plain (s +:+ String c "").
Proof. intros Hs Hc. apply plain_app; [done|]. apply plain_bytes. cbn. by rewrite Hc. Qed.

(** A byte some test admits but no delimiter passes. *)
Lemma plain_byte_of (test : Z -> bool) b :
  test 63 = false -> test 35 = false -> test b = true -> plain_byte b = true.
Proof.
  intros H1 H2 Hb. destruct (plain_byte b) eqn:E; [done|]. unfold plain_byte in E.
  assert (b = 63 \/ b = 35) as [-> | ->] by lia; congruence.
Qed.

Lemma scheme_plain first cur rest scheme r :
  scheme_from first cur rest = Some (scheme, r) -> plain cur -> plain scheme.
Proof.
  revert first cur. induction rest as [|c rest IH]; intros first cur; cbn [scheme_from].
  { intros [= <- <-] _. plain_literal. }
  intros Hs Hcur.
  destruct (_ || _) eqn:E1 in Hs.
  { apply (IH _ _ Hs), plain_snoc; [done|].
    by apply (plain_byte_of (fun b => in_range 65 90 b || in_range 97 122 b)). }
  destruct (_ || _) eqn:E2 in Hs.
  { destruct first; [injection Hs as <- <-; plain_literal|].
    apply (IH _ _ Hs), plain_snoc; [done|].
    by apply (plain_byte_of (fun b => in_range 48 57 b || one_of "+-." b)). }
  destruct (_ =? 58) in Hs; [destruct first; [done|]|]; injection Hs as <- <-; [done|plain_literal].
Qed.

Lemma scheme_no d first cur rest scheme r :
  scheme_from first cur rest = Some (scheme, r) -> has_no d cur -> has_no d rest -> has_no d r.
Proof.
  revert first cur. induction rest as [|c rest IH]; intros first cur; cbn [scheme_from].
  { by intros [= <- <-]. }
  intros Hs Hcur Hrest. pose proof (has_no_cons _ _ _ Hrest) as [Hc Hr].
  assert (has_no d (cur +:+ String c "")) as Hcur'.
  { apply has_no_app; [done|]. unfold has_no in *. cbn [bytes] in *.
    rewrite not_elem_of_cons in *. split; [tauto|apply not_elem_of_nil]. }
  destruct (_ || _) in Hs; [by eapply IH|].
  destruct (_ || _) in Hs.
  { destruct first; [injection Hs as <- <-; by apply has_no_app|by eapply IH]. }
  destruct (_ =? 58) in Hs; [destruct first; [done|]|]; injection Hs as <- <-; [done|by apply has_no_app].
Qed.

Lemma lower_ascii_plain s : plain s -> plain (lower_ascii s).
Proof.
  rewrite !plain_bytes. intros Hs. unfold lower_ascii.
  rewrite bytes_of_bytes.
  - rewrite forallb_forall in *. intros x Hx. apply in_map_iff in Hx as (c & <- & Hc).
    specialize (Hs _ Hc). unfold plain_byte, is_upper, in_range in *. split_match; lia.
  - apply List.Forall_forall. intros x Hx. apply in_map_iff in Hx as (c & <- & Hc).
    pose proof (bytes_range s) as Hr. rewrite List.Forall_forall in Hr. specialize (Hr _ Hc).
    unfold is_byte, is_upper, in_range in *. split_match; lia.
Qed.

(** Scheme and opaque part of a parsed URL hold no delimiter. *)
Definition plain_url (u : URL) : Prop := plain (u_Scheme u) /\ plain (u_Opaque u).

Lemma plain_empty : plain "".
Proof. plain_literal. Qed.

Lemma parse_url_plain s u : has_no "#"%char s -> parse_url s = Some u -> plain_url u.
Proof.
  intros Hs. unfold parse_url. case_match; [done|]. case_match.
  { intros [= <-]. split; apply plain_empty. }
  destruct (getScheme s) as [[scheme rest]|] eqn:Hg; [|done]. cbn [mbind option_bind].
  pose proof (scheme_plain _ _ _ _ _ Hg plain_empty) as Hscheme%lower_ascii_plain.
  pose proof (scheme_no _ _ _ _ _ _ Hg (proj2 plain_empty) Hs) as Hrest.
  assert (plain (split_query rest).1.1) as Hbefore.
  { unfold split_query. pose proof (Cut_before "?"%char rest). pose proof (Cut_before_no "?"%char _ _ Hrest).
    by destruct (Cut "?"%char rest) as [[a b] f]. }
  destruct (split_query rest) as [[before query] force]. cbn in Hbefore.
  assert (forall p rp host ui oh fq q f rf,
    plain_url (Build_URL (lower_ascii scheme) "" ui host p rp oh fq q f rf)) as Hempty.
  { intros. split; [done|apply plain_empty]. }
  case_match; [by intros [= <-]|]. case_match; [done|]. case_match.
  - destruct (Cut "/"%char (str_drop 2 before)) as [[authority path] found].
    destruct (parseAuthority authority) as [[ui host]|]; [|done]. cbn [mbind option_bind].
    destruct (decoded _ _) as [[p rp]|]; [|done]. cbn [mbind option_bind]. by intros [= <-].
  - destruct (decoded _ _) as [[p rp]|]; [|done]. cbn [mbind option_bind]. by intros [= <-].
Qed.

Lemma Parse_plain s u : Parse s = Some u -> plain_url u.
Proof.
  unfold Parse. pose proof (Cut_before "#"%char s) as Hb.
  destruct (Cut "#"%char s) as [[before frag] found]. cbn in Hb.
  destruct (parse_url before) as [v|] eqn:Hp; [|done]. cbn [mbind option_bind].
  apply parse_url_plain in Hp as [H1 H2]; [|done].
  case_match; [by intros [= <-]|]. destruct (decoded _ _) as [[f rf]|]; [|done]. cbn [mbind option_bind].
  intros [= <-]. by destruct v.
Qed.

Lemma EscapedPath_plain u : plain (EscapedPath u).
Proof.
  unfold EscapedPath. destruct (_ && _) eqn:E.
  - bool_to_prop. by apply (validEncoded_plain encodePath).
  - apply plain_if; [plain_literal|by apply escaped_plain].
Qed.

Lemma Userinfo_plain ui : plain (Userinfo_String ui).
Proof.
  unfold Userinfo_String. destruct (ui_password ui); [|apply plain_if; [|apply plain_empty]];
    repeat apply plain_app; try (by apply escaped_plain); plain_literal.
Qed.

Lemma before_query_plain u : plain_url u -> plain (before_query u).
Proof.
  intros [Hs Ho]. unfold before_query, hier_part, origin_part.
  assert (plain (if u_Scheme u !=? "" then u_Scheme u +:+ ":" else "")) as Hscheme.
  { apply plain_if; [apply plain_app; [done|plain_literal]|apply plain_empty]. }
  apply plain_if; [by apply plain_app|].
  repeat first [exact Hscheme | exact (EscapedPath_plain u) | apply plain_app | apply plain_if
               | by apply escaped_plain | plain_literal ].
  destruct (u_User u); [apply plain_app; [apply Userinfo_plain|plain_literal]|apply plain_empty].
Qed.

(** ** What a client reads *)

(** An encoded query is made of escaped strings and its separators. *)
Lemma Values_Encode_ind (P : string -> Prop) q :
  P "" -> P "&" -> P "=" -> (forall s t, P s -> P t -> P (s +:+ t)) -> (forall s, P (QueryEscape s)) ->
  P (Values_Encode q).
Proof.
  intros Hnil Hamp Heq Happ Hesc. unfold Values_Encode. generalize (sort_by key_less q). intros l.
  assert (forall kv, P (encode_pair kv)) as Hpair by (intros kv; unfold encode_pair; auto).
  induction l as [|kv l IH]; [done|]. destruct l as [|kv' l]; [apply Hpair|].
  change (Join (map encode_pair (kv :: kv' :: l)) "&") with
    (encode_pair kv +:+ "&" +:+ Join (map encode_pair (kv' :: l)) "&"). auto.
Qed.

Lemma Values_Encode_no_hash q : has_no "#"%char (Values_Encode q).
Proof.
  apply Values_Encode_ind; [apply plain_empty|apply plain_bytes; reflexivity..|apply has_no_app|].
  intros s. by apply (escaped_plain encodeQueryComponent).
Qed.

Lemma string_app_assoc s t r : (s +:+ t) +:+ r = s +:+ t +:+ r.
Proof. induction s as [|c s IH]; [done|]. exact (f_equal (String c) IH). Qed.

Lemma Cut_none c s : has_no c s -> Cut c s = (s, "", false).
Proof.
  induction s as [|d s IH]; intros Hs; [done|]. apply has_no_cons in Hs as [Hd Hs].
  cbn [Cut]. by rewrite Hd, (IH Hs).
Qed.

(** [reads target q url]: up to the fragment, [url] is [target] with the
    query [q] of well-formed pairs, sorted by key. *)
Definition reads (target : string) (q : Values) (url : string) : Prop :=
  exists query, Cut "?"%char (Cut "#"%char url).1.1 = (target, query, true) /\
    ParseQuery query = (sort_by key_less q, true).

Lemma set_query_reads u q :
  plain_url u -> q <> [] ->
  reads (before_query u) q (URL_String (set_RawQuery (Values_Encode q) u)).
Proof.
  intros Hu Hq. pose proof (before_query_plain u Hu) as [Hb1 Hb2].
  pose proof (Values_Encode_no_hash q) as Hh. exists (Values_Encode q).
  split; [|apply ParseQuery_Encode].
  assert (Values_Encode q <> "") as Hne.
  { intros E. pose proof (ParseQuery_Encode q) as Hp. rewrite E in Hp. injection Hp as Hp.
    symmetry in Hp. apply (f_equal length) in Hp.
    rewrite (Permutation_length (sort_by_Permutation key_less q)) in Hp. by destruct q. }
  assert (URL_String (set_RawQuery (Values_Encode q) u) =
    (before_query u +:+ "?" +:+ Values_Encode q) +:+ fragment_part u) as ->.
  { rewrite string_app_assoc. unfold URL_String, query_part.
    destruct u as [s o ui h p rp oh fq rq f rf]; cbn [set_RawQuery u_RawQuery u_ForceQuery].
    rewrite (bool_decide_eq_false_2 (Values_Encode q = "") Hne). by rewrite orb_true_r. }
  assert (has_no "#"%char (before_query u +:+ "?" +:+ Values_Encode q)) as Hno.
  { apply has_no_app; [done|]. apply has_no_app; [by apply has_char_no|done]. }
  assert ((Cut "#"%char ((before_query u +:+ "?" +:+ Values_Encode q) +:+ fragment_part u)).1.1
    = before_query u +:+ "?" +:+ Values_Encode q) as ->.
  { unfold fragment_part. destruct (u_Fragment u !=? "").
    - change ("#" +:+ encoded encodeFragment (u_Fragment u) (u_RawFragment u)) with
        (String "#"%char (encoded encodeFragment (u_Fragment u) (u_RawFragment u))).
      by rewrite Cut_app.
    - by rewrite string_app_nil, Cut_none. }
  change ("?" +:+ Values_Encode q) with (String "?"%char (Values_Encode q)). by rewrite Cut_app.
Qed.

Lemma reads_first target q url :
  reads target q url -> exists query, Cut "?"%char (Cut "#"%char url).1.1 = (target, query, true) /\
    (ParseQuery query).2 = true /\ forall k, first_of k (ParseQuery query).1 = first_of k q.
Proof.
  intros (query & Hc & Hp). exists query. rewrite Hp. split_and!; try done.
  intros k. cbn. apply first_of_sort.
Qed.

Lemma Values_Set_nonempty k v q : Values_Set k v q <> [].
Proof. unfold Values_Set. by destruct (Values_Del k q). Qed.

(** What a client that reads the query of [url] finds under [k]. *)
Definition answered (ru url : string) (answer : string -> option (option string)) : Prop :=
  exists u query, Parse ru = Some u /\
    Cut "?"%char (Cut "#"%char url).1.1 = (before_query u, query, true) /\
    (ParseQuery query).2 = true /\
    forall k, first_of k (ParseQuery query).1 = default (first_of k (Query u)) (answer k).

Definition code_answer (code state k : string) : option (option string) :=
  if (state !=? "") && (k ==? "state") then Some (Some state)
  else if k ==? "code" then Some (Some code) else None.

Definition error_answer (code desc state k : string) : option (option string) :=
  if (state !=? "") && (k ==? "state") then Some (Some state)
  else if (desc !=? "") && (k ==? "error_description") then Some (Some desc)
  else if k ==? "error" then Some (Some code) else None.

(** Claim C39.  A code and an error reach the client intact: the redirect URL
    is the registered redirect URI with another query (scheme, authority and
    path as parsed), and a client that splits it at the first "?" and parses
    the query finds the code (or the error and its description), the state it
    sent, and for every other parameter what its own redirect URI held. *)
Theorem redirect_readback ru code desc state url :
  (BuildAuthorizationResponse ru code state = Some url -> answered ru url (code_answer code state)) /\
  (BuildErrorResponse ru code desc state = Some url -> answered ru url (error_answer code desc state)).
Proof.
  unfold BuildAuthorizationResponse, BuildErrorResponse, answered.
  destruct (Parse ru) as [u|] eqn:Hp; [|done]. cbn [mbind option_bind]. apply Parse_plain in Hp.
  split; intros [= <-];
    match goal with |- context [set_RawQuery (Values_Encode ?q) u] =>
      assert (q <> []) as Hq by (repeat case_match; apply Values_Set_nonempty);
      destruct (reads_first _ _ _ (set_query_reads u q Hp Hq)) as (query & Hc & Hok & Hall)
    end; exists u, query; split_and!; try done; intros k; rewrite Hall;
    unfold code_answer, error_answer.
  - destruct (state !=? "") eqn:Hs; cbn [andb]; rewrite ?first_of_Set;
      [destruct (k ==? "state"); [done|]|]; by destruct (k ==? "code").
  - destruct (state !=? ""), (desc !=? ""); cbn [andb]; rewrite ?first_of_Set;
      repeat (destruct (k ==? _); [done|]); done.
Qed.

(** ** Local paths that [URL.String] writes back

    [URL.String] writes no byte that a browser drops or takes for a slash.
    What could still leave the origin is a second slash at the start of the
    path, where [url.Parse] has read it from an escaped one. *)

Definition clean_byte (c : Z) : bool := negb (existsb (Z.eqb c) [92; 9; 10; 13]).
Definition clean (s : string) : Prop := forallb clean_byte (bytes s) = true.

Lemma clean_app s t : clean s -> clean t -> clean (s +:+ t).
Proof. unfold clean. rewrite bytes_app, forallb_app. by intros -> ->. Qed.

Lemma clean_chars s : clean s -> all_chars (fun x => Ascii.eqb x "/"%char || tame x) s = true.
Proof.
  unfold clean. induction s as [|c s IH]; [done|]. cbn [bytes forallb all_chars]. intros [Hc Hs]%andb_true_iff.
  rewrite IH by done. rewrite andb_true_r. revert Hc. by destruct c as [[] [] [] [] [] [] [] []].
Qed.

Lemma escaped_clean m s : m ∈ [encodePath; encodeFragment; encodeQueryComponent] -> clean (escaped m s).
Proof.
  intros Hm. apply escaped_bytes. rewrite !elem_of_cons in Hm.
  destruct Hm as [-> |[-> |[-> |Hm]]]; [vm_compute; reflexivity..|by apply not_elem_of_nil in Hm].
Qed.

Lemma validEncoded_clean m s :
  m ∈ [encodePath; encodeFragment] -> validEncoded m s = true -> clean s.
Proof.
  intros Hm. unfold clean, validEncoded. rewrite !forallb_forall. intros Hv x Hx. specialize (Hv x Hx).
  unfold clean_byte. apply negb_true_iff, not_true_iff_false. intros Hin. apply existsb_exists in Hin as (y & Hy & Hxy).
  apply Z.eqb_eq in Hxy as <-. rewrite !elem_of_cons in Hm.
  cbn [In] in Hy. destruct Hm as [-> |[-> |Hm]]; [..|by apply not_elem_of_nil in Hm];
    destruct Hy as [<- |[<- |[<- |[<- |[]]]]]; discriminate Hv.
Qed.

Lemma Values_Encode_clean q : clean (Values_Encode q).
Proof.
  apply Values_Encode_ind; [done..|apply clean_app|].
  intros s. apply (escaped_clean encodeQueryComponent). rewrite !elem_of_cons; auto.
Qed.

(** What [url.Parse] makes of a path of this server. *)
Definition rooted_url (path : string) (u : URL) : Prop :=
  u_Scheme u = "" /\ u_Opaque u = "" /\ u_User u = None /\ u_Host u = "" /\
  decoded encodePath path = Some (u_Path u, u_RawPath u).

Lemma HasPrefix_cons c s d p : HasPrefix (String c s) (String d p) = Ascii.eqb c d && HasPrefix s p.
Proof.
  unfold HasPrefix. cbn [String.prefix]. destruct (ascii_dec d c) as [->|Hne]; [by rewrite Ascii.eqb_refl|].
  by rewrite (proj2 (Ascii.eqb_neq c d) (not_eq_sym Hne)).
Qed.

Lemma HasPrefix_nil s : HasPrefix s "" = true.
Proof. by destruct s. Qed.

Lemma slash_start s : HasPrefix s "/" = true -> exists rest, s = String "/"%char rest.
Proof.
  destruct s as [|c s]; [done|]. rewrite HasPrefix_cons. intros [Hc _]%andb_true_iff.
  apply Ascii.eqb_eq in Hc as ->. by exists s.
Qed.

Lemma two_slashes s : HasPrefix (String "/" s) "//" = HasPrefix s "/".
Proof. by rewrite HasPrefix_cons. Qed.

Lemma Cut_slash c s : Ascii.eqb "/"%char c = false -> HasPrefix s "/" = false -> HasPrefix (Cut c s).1.1 "/" = false.
Proof.
  intros Hc. destruct s as [|d s]; [done|]. cbn [Cut]. destruct (Ascii.eqb d c); [done|].
  destruct (Cut c s) as [[b a] f]. cbn [fst].
  by rewrite !HasPrefix_cons, !HasPrefix_nil.
Qed.

Lemma rooted_rest rest u :
  HasPrefix rest "/" = true -> HasPrefix rest "//" = false -> parse_url rest = Some u ->
  rooted_url (Cut "?"%char rest).1.1 u.
Proof.
  intros Hr Hr2. unfold parse_url. destruct (existsb _ _); [done|].
  destruct (slash_start _ Hr) as [s ->]. rewrite two_slashes in Hr2.
  rewrite bool_decide_eq_false_2 by done. change (getScheme (String "/" s)) with (Some ("", String "/" s)).
  cbn [mbind option_bind]. unfold split_query. change (lower_ascii "") with "".
  cbn [Cut]. change (Ascii.eqb "/" "?") with false. cbn match.
  pose proof (Cut_slash "?" s eq_refl Hr2) as Hno. destruct (Cut "?" s) as [[before query] found].
  cbn [fst] in Hno |- *. rewrite two_slashes, Hno, HasPrefix_cons, HasPrefix_nil.
  rewrite (bool_decide_eq_true_2 ("" = "")), andb_false_r by done.
  change (negb (Ascii.eqb "/" "/" && true)) with false. cbn [andb orb negb].
  rewrite andb_false_r. destruct (decoded encodePath _) as [[p rp]|] eqn:Hd; [|done].
  cbn [mbind option_bind]. intros [= <-]. unfold rooted_url. by rewrite Hd.
Qed.

Lemma rooted_Parse uri u :
  HasPrefix uri "/" = true -> HasPrefix uri "//" = false -> Parse uri = Some u ->
  rooted_url (Cut "?"%char (Cut "#"%char uri).1.1).1.1 u.
Proof.
  intros Hr Hr2. destruct (slash_start _ Hr) as [s ->]. rewrite two_slashes in Hr2. unfold Parse.
  pose proof (Cut_slash "#" s eq_refl Hr2) as Hno.
  cbn [Cut]. change (Ascii.eqb "/" "#") with false. cbn match.
  destruct (Cut "#" s) as [[before frag] found]. cbn [fst] in Hno |- *.
  destruct (parse_url (String "/" before)) as [v|] eqn:Hp; [|done]. cbn [mbind option_bind].
  assert (rooted_url (Cut "?" (String "/" before)).1.1 v) as Hv.
  { apply rooted_rest; [|by rewrite two_slashes|done]. by rewrite HasPrefix_cons, HasPrefix_nil. }
  destruct (frag ==? ""); [by intros [= <-]|]. destruct (decoded encodeFragment frag) as [[f rf]|]; [|done].
  cbn [mbind option_bind]. intros [= <-]. by destruct v.
Qed.

(** The start of an escaped path. *)
Definition hidden_slash (path : string) : bool := HasPrefix path "/%2F" || HasPrefix path "/%2f".

Lemma byte_of_eq c d : Z.of_N (N_of_ascii c) = Z.of_N (N_of_ascii d) -> c = d.
Proof. intros Heq. apply N2Z.inj, (f_equal ascii_of_N) in Heq. by rewrite !ascii_N_embedding in Heq. Qed.

Lemma hex_value a b : ishex a && ishex b = true -> is_byte (unhex a * 16 + unhex b).
Proof. unfold unhex, ishex, in_range, is_byte. repeat case_match; lia. Qed.

Lemma unescape_byte_head s c l : unescape encodePath (bytes s) = Some (c :: l) -> is_byte c.
Proof.
  destruct s as [|d s]; [done|]. pose proof (bytes_range (String d s)) as Hb. cbn [bytes] in *.
  apply Forall_cons_1 in Hb as [Hd _]. cbn [unescape]. destruct (_ =? 37).
  - destruct (bytes s) as [|a [|b r]]; [done..|]. destruct (ishex a && ishex b && _) eqn:Hx; [|done].
    destruct (unescape _ r); [|done]. cbn [fmap option_fmap option_map]. intros [= <- _].
    apply andb_true_iff in Hx as [Hx _]. by apply hex_value.
  - destruct (_ =? 43) eqn:E2; [|cbn [of_host andb]]; destruct (unescape _ _) as [l'|]; try done;
      cbn [fmap option_fmap option_map]; by intros [= <- _].
Qed.

Lemma unescape_slash s l :
  unescape encodePath (bytes s) = Some (47 :: l) ->
  HasPrefix s "/" = true \/ HasPrefix s "%2F" = true \/ HasPrefix s "%2f" = true.
Proof.
  destruct s as [|c s]; [done|]. cbn [bytes unescape]. destruct (_ =? 37) eqn:E1.
  - destruct s as [|a [|b s]]; [done..|]. cbn [bytes]. destruct (ishex _ && _ && _) eqn:Hx; [|done].
    destruct (unescape _ (bytes s)) as [l'|]; [|done]. cbn [fmap option_fmap option_map]. intros [= Hv _].
    right. apply Z.eqb_eq, (byte_of_eq c "%") in E1 as ->.
    assert (a = "2"%char /\ (b = "F"%char \/ b = "f"%char)) as [-> Hb];
      [|rewrite !HasPrefix_cons, !HasPrefix_nil; destruct Hb as [-> | ->]; auto].
    assert (Z.of_N (N_of_ascii a) = 50 /\ (Z.of_N (N_of_ascii b) = 70 \/ Z.of_N (N_of_ascii b) = 102)) as [Ha Hb].
    { revert Hv Hx. unfold unhex, ishex, in_range. repeat case_match; lia. }
    split; [by apply byte_of_eq|]. destruct Hb; [left|right]; by apply byte_of_eq.
  - destruct (_ =? 43) eqn:E2; [|cbn [of_host andb]]; destruct (unescape _ _) as [l'|]; try done;
      cbn [fmap option_fmap option_map]; intros [= Hv _].
    left. apply (byte_of_eq c "/") in Hv as ->. by rewrite HasPrefix_cons, HasPrefix_nil.
Qed.

Lemma decoded_start path p rp :
  HasPrefix path "/" = true -> HasPrefix path "//" = false -> hidden_slash path = false ->
  decoded encodePath path = Some (p, rp) ->
  exists rest, p = String "/"%char rest /\ HasPrefix rest "/" = false /\ (rp = "" \/ rp = path).
Proof.
  intros Hr Hr2. destruct (slash_start _ Hr) as [s ->]. rewrite two_slashes in Hr2. unfold hidden_slash.
  rewrite !HasPrefix_cons. cbn [Ascii.eqb Bool.eqb andb]. intros [HF Hf]%orb_false_iff.
  unfold decoded, unescaped. cbn [bytes]. change (Z.of_N (N_of_ascii "/")) with 47. cbn [unescape].
  cbn [Z.eqb Pos.eqb of_host andb]. destruct (unescape encodePath (bytes s)) as [l|] eqn:Hu; [|done].
  cbn [fmap option_fmap option_map mbind option_bind of_bytes]. change (ascii_of_N (Z.to_N 47)) with "/"%char.
  intros [= <- <-]. eexists. split; [reflexivity|]. split; [|destruct (bool_decide _); auto].
  destruct l as [|c l]; [done|]. cbn [of_bytes]. rewrite HasPrefix_cons, HasPrefix_nil, andb_true_r.
  apply Ascii.eqb_neq. intros Hc. pose proof (unescape_byte_head _ _ _ Hu) as Hb. unfold is_byte in Hb.
  apply (f_equal N_of_ascii) in Hc. rewrite N_ascii_embedding in Hc by lia.
  change (N_of_ascii "/") with 47%N in Hc. assert (c = 47) as -> by lia.
  destruct (unescape_slash _ _ Hu) as [?|[?|?]]; congruence.
Qed.

(** An encoded path starts as the path does. *)
Lemma escaped_start rest :
  HasPrefix rest "/" = false ->
  exists rest', escaped encodePath (String "/"%char rest) = String "/"%char rest' /\ HasPrefix rest' "/" = false.
Proof.
  intros Hr. exists (escaped encodePath rest). split; [reflexivity|]. destruct rest as [|c rest]; [done|].
  assert (HasPrefix (of_bytes (escape_byte encodePath (Z.of_N (N_of_ascii c)))) "/" = false
          /\ of_bytes (escape_byte encodePath (Z.of_N (N_of_ascii c))) <> "") as [Hc Hne].
  { revert Hr. rewrite HasPrefix_cons, HasPrefix_nil, andb_true_r.
    destruct c as [[] [] [] [] [] [] [] []]; (done || (intros _; split; vm_compute; done)). }
  unfold escaped, escape. cbn [bytes map concat]. rewrite of_bytes_app.
  destruct (of_bytes (escape_byte _ _)) as [|d r]; [done|]. change (String d r +:+ ?x) with (String d (r +:+ x)).
  by rewrite HasPrefix_cons, HasPrefix_nil in *.
Qed.

Definition one_slash (s : string) : Prop :=
  clean s /\ exists rest, s = String "/"%char rest /\ HasPrefix rest "/" = false.

Lemma one_slash_app s t : one_slash s -> clean t -> HasPrefix t "/" = false -> one_slash (s +:+ t).
Proof.
  intros [Hs (rest & -> & Hr)] Ht Htr. split; [by apply clean_app|]. exists (rest +:+ t). split; [done|].
  destruct rest as [|c rest]; [done|]. change (String c rest +:+ t) with (String c (rest +:+ t)).
  by rewrite HasPrefix_cons, HasPrefix_nil in *.
Qed.

Lemma one_slash_stays oldpath url : one_slash url -> same_origin (Location oldpath url) = true.
Proof.
  intros [Hc (rest & -> & Hr)]. pose proof (clean_chars _ Hc) as Hall.
  assert (same_origin (String "/" rest) = true) as Hraw.
  { apply same_origin_slash. destruct rest as [|d rest]; [done|]. cbn [all_chars] in Hall.
    rewrite HasPrefix_cons, HasPrefix_nil, andb_true_r in Hr. rewrite Hr in Hall.
    apply andb_true_iff in Hall as [_ Hall]. by apply andb_true_iff in Hall as [? _]. }
  destruct (Parse (String "/" rest)) as [u|] eqn:Hp; [|unfold Location; by rewrite Hp].
  destruct ((u_Scheme u ==? "") && (u_Host u ==? "")) eqn:Hloc; [|unfold Location; by rewrite Hp, Hloc].
  apply andb_true_iff in Hloc as [Hsch Hhost]. bool_to_prop. eapply Location_same_origin; [exact Hp|done..| |done].
  by rewrite HasPrefix_cons, HasPrefix_nil.
Qed.

Lemma EscapedPath_one_slash path u :
  rooted_url path u -> HasPrefix path "/" = true -> HasPrefix path "//" = false -> hidden_slash path = false ->
  one_slash (EscapedPath u).
Proof.
  intros (_ & _ & _ & _ & Hd) Hr Hr2 Hh.
  destruct (decoded_start _ _ _ Hr Hr2 Hh Hd) as (rest & Hp & Hrest & Hraw). unfold EscapedPath.
  destruct (_ && _ && _) eqn:E.
  - apply andb_true_iff in E as [E _]. apply andb_true_iff in E as [Hne Hv]. bool_to_prop.
    destruct Hraw as [?|Heq]; [done|]. rewrite Heq in Hv |- *. split; [by apply (validEncoded_clean encodePath); [rewrite !elem_of_cons; auto|]|].
    destruct (slash_start _ Hr) as [s ->]. exists s. by rewrite two_slashes in Hr2.
  - rewrite Hp. change (String "/" rest ==? "*") with (bool_decide (String "/" rest = "*")).
    rewrite bool_decide_eq_false_2 by done. split; [apply escaped_clean; rewrite !elem_of_cons; auto|]. by apply escaped_start.
Qed.

Lemma URL_String_one_slash path u q :
  rooted_url path u -> HasPrefix path "/" = true -> HasPrefix path "//" = false -> hidden_slash path = false ->
  clean q -> one_slash (URL_String (set_RawQuery q u)).
Proof.
  intros Hu Hr Hr2 Hh Hq. pose proof (EscapedPath_one_slash _ _ Hu Hr Hr2 Hh) as Hp.
  destruct Hu as (Hs & Ho & Hn & Hhost & _).
  assert (before_query (set_RawQuery q u) = EscapedPath u) as Hb.
  { set (p0 := EscapedPath u) in *. destruct u. cbn in Hs, Ho, Hn, Hhost. subst. unfold before_query, hier_part, origin_part. cbn -[EscapedPath].
    match goal with |- context[EscapedPath ?v] => change (EscapedPath v) with p0 end.
    change ("" !=? "") with false. cbn [andb orb]. rewrite andb_false_r. destruct Hp as [_ (rest & Hrest & _)].
    change (p0 = String "/" rest) in Hrest. by rewrite Hrest. }
  unfold URL_String. rewrite Hb. apply one_slash_app; [done|..].
  - apply clean_app.
    + unfold query_part. destruct (_ || _); [|done]. apply (clean_app "?"); [done|by destruct u].
    + unfold fragment_part, encoded. destruct (_ !=? _); [|done]. apply (clean_app "#"); [done|].
      destruct (_ && _ && _) eqn:E; [|apply escaped_clean; rewrite !elem_of_cons; auto].
      apply andb_true_iff in E as [E _]. apply andb_true_iff in E as [_ Hv].
      apply (validEncoded_clean encodeFragment); [rewrite !elem_of_cons; auto|done].
  - unfold query_part, fragment_part. by destruct (_ || _), (_ !=? _).
Qed.

Lemma Cut_prefix c s p : HasPrefix (Cut c s).1.1 p = true -> HasPrefix s p = true.
Proof.
  revert p. induction s as [|d s IH]; intros p; [done|]. cbn [Cut]. destruct p as [|e p]; [by rewrite HasPrefix_nil|].
  destruct (Ascii.eqb d c); [done|]. destruct (Cut c s) as [[b a] f]. cbn [fst] in *. rewrite !HasPrefix_cons.
  rewrite !andb_true_iff. intros [? ?]. auto.
Qed.

Lemma Cut_hidden c s : hidden_slash s = false -> hidden_slash (Cut c s).1.1 = false.
Proof.
  unfold hidden_slash. rewrite !orb_false_iff, <-!not_true_iff_false. intros [H1 H2].
  split; intros Hc; [apply H1|apply H2]; by eapply Cut_prefix.
Qed.
