(* ===== verification/TokenService.v ===== *)
(** * internal/oidc/token.go, groups.go and userinfo.go

    The token endpoint's grants, revocation, introspection and userinfo.
    [TokenService] is the service's settings: [ts_groupClaims] is the claim
    name of the group claims when they are emitted, [ts_revocations] whether
    a revocation repository is configured. *)
From S2P Require Import Prelude GoTime GoText Encoding GoUrl Hash Errors Domain Lockout PendingLogins World Run.
From S2P Require Import Metrics Store FileStore Keys Password Jwt Authorize.
From Stdlib Require Import Ascii.
#[local] Open Scope Z_scope.
#[local] Open Scope go_scope.

Record TokenRequest := {
  tr_GrantType : string;
  tr_Code : string;
  tr_RedirectURI : string;
  tr_ClientID : string;
  tr_ClientSecret : string;
  tr_CodeVerifier : string;
  tr_RefreshToken : string;
  tr_Scope : string;
}.

(** [RevocationRequest] and [IntrospectionRequest] have the same fields. *)
Record ClientTokenRequest := {
  ct_Token : string;
  ct_TokenTypeHint : string;
  ct_ClientID : string;
  ct_ClientSecret : string;
}.

Record IntrospectionResponse := {
  ir_Active : bool;
  ir_Scope : string;
  ir_ClientID : string;
  ir_Username : string;
  ir_TokenType : string;
  ir_Exp : Z;
  ir_Iat : Z;
  ir_Sub : string;
  ir_Aud : string;
  ir_Iss : string;
}.

Definition inactive : IntrospectionResponse :=
  Build_IntrospectionResponse false "" "" "" "" 0 0 "" "" "".

Record UserInfoResponse := {
  ui_Sub : string;
  ui_Email : string;
  ui_EmailVerified : bool;
  ui_Name : string;
  ui_GivenName : string;
  ui_FamilyName : string;
  ui_Groups : option (list string);
  ui_Extra : gmap string claim_value;
}.

Record TokenService := {
  ts_accessTTL : Z;
  ts_refreshTTL : Z;
  ts_issuer : string;
  ts_groupClaims : option string;
  ts_revocations : bool;
  ts_generator : TokenGenerator;
}.

(** ** Scopes *)

Definition hasScope (scope want : string) : bool := existsb (fun s => s ==? want) (Fields scope).

Definition scopeSubset (requested granted : string) : bool :=
  let have : gset string := list_to_set (Fields granted) in
  forallb (fun sc => bool_decide (sc ∈ have)) (Fields requested).

Definition ScopeGroups := "groups".
Definition DefaultGroupsClaim := "groups".

Definition applyScopeClaims (user : User) (scope : string) (claims : Claims) : Claims :=
  let claims := if hasScope scope "email"
                then claims_set_email (user_Email user) (user_EmailVerified user) claims else claims in
  if hasScope scope "profile" then
    let claims := claims_set_name (user_DisplayName user) claims in
    let claims := if user_GivenName user ==? "" then claims
                  else SetExtra "given_name" (VString (user_GivenName user)) claims in
    if user_FamilyName user ==? "" then claims
    else SetExtra "family_name" (VString (user_FamilyName user)) claims
  else claims.

(** [r.Header.Get("Authorization")] with Basic credentials overrides those of
    the form; anything malformed is ignored. *)
Definition basic_credentials (r : Request) (form : string * string) : string * string :=
  let auth := Header r "Authorization" in
  if HasPrefix auth "Basic " then
    match StdDecodeString (str_drop 6 auth) with
    | Some decoded =>
        match SplitN (of_bytes decoded) ":"%char 2 with
        | [id; secret] => (id, secret)
        | _ => form
        end
    | None => form
    end
  else form.

(** The form has been parsed ([r.ParseForm] succeeded). *)
Definition ParseTokenRequest (r : Request) : res TokenRequest :=
  let '(id, secret) :=
    basic_credentials r (FormValue r "client_id", FormValue r "client_secret") in
  let req := {|
    tr_GrantType := FormValue r "grant_type"; tr_Code := FormValue r "code";
    tr_RedirectURI := FormValue r "redirect_uri"; tr_ClientID := id; tr_ClientSecret := secret;
    tr_CodeVerifier := FormValue r "code_verifier"; tr_RefreshToken := FormValue r "refresh_token";
    tr_Scope := FormValue r "scope" |} in
  if tr_GrantType req ==? "" then Err (InvalidInput "grant_type is required") else Ok req.

Definition parse_client_token_request (r : Request) : res ClientTokenRequest :=
  let '(id, secret) :=
    basic_credentials r (FormValue r "client_id", FormValue r "client_secret") in
  let req := {| ct_Token := FormValue r "token"; ct_TokenTypeHint := FormValue r "token_type_hint";
                ct_ClientID := id; ct_ClientSecret := secret |} in
  if ct_Token req ==? "" then Err (InvalidInput "token is required") else Ok req.

Definition ParseRevocationRequest (r : Request) : res ClientTokenRequest :=
  parse_client_token_request r.
Definition ParseIntrospectionRequest (r : Request) : res ClientTokenRequest :=
  parse_client_token_request r.

Section service.
Context `{Store} `{KeyLib} `{JwtLib} `{Argon2} (s : TokenService).

Definition accessTokenRevoked (claims : Claims) : Prog (res bool) :=
  if negb (ts_revocations s) then ret_ok false
  else
    let issued := IssuedAtOf claims in
    if IsZero issued then ret_ok false
    else Revocations_IsRevoked (cl_ID claims) (cl_Subject claims) (cl_ClientID claims) issued.

(** ** Group claims *)

Definition Names (userID : string) : Prog (res (list string)) :=
  let? groups := mapErr (Errorf "failed to load groups") (Groups_GroupsForUser userID) in
  ret_ok (map group_Name groups).

Definition GroupClaims_Apply (user : User) (scope : string) (claims : Claims) : Prog (res Claims) :=
  match ts_groupClaims s with
  | None => ret_ok claims
  | Some claimName =>
      if negb (hasScope scope ScopeGroups) then ret_ok claims
      else
        let? names := Names (user_ID user) in
        if claimName ==? DefaultGroupsClaim then ret_ok (claims_set_groups names claims)
        else ret_ok (SetExtra claimName (VStrings names) claims)
  end.

(** ** Issuing tokens *)

Definition ttlsFor (client : Client) : Z * Z :=
  (if 0 <? client_AccessTokenTTL client then client_AccessTokenTTL client else ts_accessTTL s,
   if 0 <? client_RefreshTokenTTL client then client_RefreshTokenTTL client else ts_refreshTTL s).

Definition id_token_claims (user : User) (client : Client) (scope nonce : string) (authTime : Z)
    (amr : list string) : Claims :=
  let c := if client_MinimalIDToken client then empty_claims
           else applyScopeClaims user scope empty_claims in
  let c := if nonce ==? "" then c else SetExtra "nonce" (VString nonce) c in
  let c := if IsZero authTime then c else SetExtra "auth_time" (VInt (Unix authTime)) c in
  match amr with [] => c | _ => SetExtra "amr" (VStrings amr) c end.

(** The refresh token [generateTokens] stores, when it stores one. *)
Definition issue_refresh (user : User) (client : Client) (scope : string) (refreshTTL : Z)
    (grantType : string) (response : TokenResponse) : Prog (res TokenResponse) :=
  if hasScope scope "offline_access" && AllowsGrant client "refresh_token" then
    let! id := newUUID in
    let! t := now in
    let? token := mapErr (Errorf "failed to create refresh token") (Tokens_Create
      {| token_ID := id; token_UserID := user_ID user; token_ClientID := client_ID client;
         token_Scope := scope; token_CreatedAt := zero_time;
         token_ExpiresAt := Add t refreshTTL; token_Revoked := false |}) in
    let! _ := RecordTokenIssued "refresh" grantType in
    ret_ok (Build_TokenResponse (tk_AccessToken response) (tk_TokenType response)
              (tk_ExpiresIn response) (token_ID token) (tk_IDToken response) (tk_Scope response))
  else ret_ok response.

Definition generateTokens (user : User) (client : Client) (scope nonce : string) (authTime : Z)
    (amr : list string) (grantType : string) : Prog (res TokenResponse) :=
  let idTokenClaims := id_token_claims user client scope nonce authTime amr in
  let accessTokenClaims := claims_set_client scope (client_ID client) empty_claims in
  let? idTokenClaims :=
    (if client_MinimalIDToken client then ret_ok idTokenClaims
     else GroupClaims_Apply user scope idTokenClaims) in
  let? accessTokenClaims := GroupClaims_Apply user scope accessTokenClaims in
  let '(accessTTL, refreshTTL) := ttlsFor client in
  let? (idToken, _) := mapErr (Errorf "failed to generate ID token")
    (GenerateIDTokenFor (ts_generator s) (user_ID user) (client_ID client) accessTTL idTokenClaims) in
  let? (accessToken, _) := mapErr (Errorf "failed to generate access token")
    (GenerateAccessTokenWithClaims (ts_generator s) (user_ID user) accessTTL accessTokenClaims) in
  let! _ := RecordTokenIssued "access" grantType in
  let! _ := RecordTokenIssued "id" grantType in
  issue_refresh user client scope refreshTTL grantType
    {| tk_AccessToken := accessToken; tk_TokenType := "Bearer";
       tk_ExpiresIn := Z.quot accessTTL Second; tk_RefreshToken := "";
       tk_IDToken := idToken; tk_Scope := scope |}.

(** ** Cutting off a grant *)

Fixpoint revoke_each (clientID : string) (tokens : list Token) : Prog (res unit) :=
  match tokens with
  | [] => ret_ok tt
  | t :: tokens =>
      if (token_ClientID t !=? clientID) || token_Revoked t then revoke_each clientID tokens
      else
        let? _ := Tokens_Revoke (token_ID t) in
        revoke_each clientID tokens
  end.

Definition revokeGrant (userID clientID : string) : Prog (res unit) :=
  let? tokens := Tokens_ListByUserID userID in
  let? _ := revoke_each clientID tokens in
  if ts_revocations s then
    let! t := now in
    Revocations_RevokeBefore RevocationUserClient (UserClientKey userID clientID) t
  else ret_ok tt.

Definition reuse_code : error :=
  InvalidGrant "code already used; all tokens for this client were revoked".
Definition reuse_refresh : error :=
  InvalidGrant "refresh_token has already been used; all tokens for this client were revoked".

(** [if err := s.revokeGrant(...); err != nil { wrap }; return reuse]. *)
Definition cut_off (message userID clientID : string) (reuse : error) : Prog (res TokenResponse) :=
  let? _ := mapErr (Errorf message) (revokeGrant userID clientID) in
  ret_err reuse.

(** The client authentication both grants begin with. *)
Definition authenticate_for (grantType : string) (req : TokenRequest) : Prog (res Client) :=
  let! r := Clients_GetByID (tr_ClientID req) in
  match r with
  | Err _ => ret_err (Unauthorized "invalid client")
  | Ok client =>
      let! (ok, client) := authenticateClient client (tr_ClientSecret req) in
      if negb ok then ret_err (Unauthorized "invalid client credentials")
      else if negb (AllowsGrant client grantType) then
        ret_err (UnauthorizedClient ("client is not allowed the " +:+ grantType +:+ " grant"))
      else ret_ok client
  end.

(** The user behind a grant, who must still be active. *)
Definition active_user (userID : string) : Prog (res User) :=
  let? user := mapErr (Errorf "failed to get user") (Users_GetByID userID) in
  if negb (user_Active user) then ret_err (InvalidGrant "user account is disabled")
  else ret_ok user.

(** [store.GetX] whose NotFound becomes a bad grant. *)
Definition or_invalid_grant {A} (message : string) (p : Prog (res A)) : Prog (res A) :=
  mapErr (fun e => if IsCode e CodeNotFound then InvalidGrant message else e) p.

(** ** The authorization code grant *)

Definition HandleAuthorizationCode (req : TokenRequest) : Prog (res TokenResponse) :=
  if tr_Code req ==? "" then ret_err (InvalidInput "code is required")
  else if tr_RedirectURI req ==? "" then ret_err (InvalidInput "redirect_uri is required")
  else
    let? client := authenticate_for "authorization_code" req in
    let? authCode := or_invalid_grant "invalid code" (AuthCodes_GetByCode (tr_Code req)) in
    if ac_ClientID authCode !=? tr_ClientID req then ret_err (InvalidGrant "client_id mismatch")
    else if ac_Used authCode then
      cut_off "failed to revoke tokens after code reuse"
        (ac_UserID authCode) (ac_ClientID authCode) reuse_code
    else
      let! t := now in
      if AuthCode_IsExpired t authCode then ret_err (InvalidGrant "code expired")
      else if ac_RedirectURI authCode !=? tr_RedirectURI req then
        ret_err (InvalidGrant "redirect_uri mismatch")
      else if negb (ValidateCodeVerifier (tr_CodeVerifier req) (ac_CodeChallenge authCode)
                      (ac_CodeChallengeMethod authCode)) then
        ret_err (InvalidGrant "invalid code_verifier")
      else
        let! marked := AuthCodes_MarkUsed (tr_Code req) in
        match marked with
        | Err e =>
            if IsCode e CodeConflict then
              cut_off "failed to revoke tokens after code reuse"
                (ac_UserID authCode) (ac_ClientID authCode) reuse_code
            else ret_err (Errorf "failed to mark code as used" e)
        | Ok _ =>
            let? user := active_user (ac_UserID authCode) in
            generateTokens user client (ac_Scope authCode) (ac_Nonce authCode)
              (ac_AuthTime authCode) (ac_AMR authCode) "authorization_code"
        end.

(** ** The refresh token grant *)

(** The scope of the new tokens: the requested one when it narrows. *)
Definition refreshed_scope (requested granted : string) : res string :=
  if requested ==? "" then Ok granted
  else if scopeSubset requested granted then Ok requested
  else Err (InvalidScope "requested scope exceeds the scope of the refresh token").

Definition HandleRefreshToken (req : TokenRequest) : Prog (res TokenResponse) :=
  if tr_RefreshToken req ==? "" then ret_err (InvalidInput "refresh_token is required")
  else
    let? client := authenticate_for "refresh_token" req in
    let? token := or_invalid_grant "invalid refresh_token" (Tokens_GetByID (tr_RefreshToken req)) in
    if token_ClientID token !=? tr_ClientID req then ret_err (InvalidGrant "client_id mismatch")
    else
      let! t := now in
      if token_Revoked token && negb (Token_IsExpired t token) then
        cut_off "failed to revoke tokens after refresh token reuse"
          (token_UserID token) (token_ClientID token) reuse_refresh
      else
        let! t := now in
        if negb (Token_IsValid t token) then
          ret_err (InvalidGrant "refresh_token is invalid or expired")
        else
          let? user := active_user (token_UserID token) in
          let? scope := Ret (refreshed_scope (tr_Scope req) (token_Scope token)) in
          let! rotated := Tokens_Rotate (tr_RefreshToken req) in
          match rotated with
          | Err e =>
              if IsCode e CodeConflict then
                cut_off "failed to revoke tokens after refresh token reuse"
                  (token_UserID token) (token_ClientID token) reuse_refresh
              else ret_err (Errorf "failed to rotate old token" e)
          | Ok _ =>
              generateTokens user client scope "" zero_time [] "refresh_token"
          end.

(** ** Revocation (RFC 7009) *)

Definition HandleRevocation (req : ClientTokenRequest) : Prog (res unit) :=
  if ct_ClientID req ==? "" then ret_err (Unauthorized "client authentication required")
  else
    let! r := Clients_GetByID (ct_ClientID req) in
    match r with
    | Err _ => ret_err (Unauthorized "invalid client credentials")
    | Ok client =>
        let! (ok, _) := authenticateClient client (ct_ClientSecret req) in
        if negb ok then ret_err (Unauthorized "invalid client credentials")
        else
          let! t := Tokens_GetByID (ct_Token req) in
          match t with
          | Ok token =>
              if (ct_ClientID req !=? "") && (token_ClientID token !=? ct_ClientID req)
              then ret_ok tt
              else
                let? _ := Tokens_Revoke (ct_Token req) in
                let! _ := RecordTokenRevocation in
                ret_ok tt
          | Err _ =>
              if ts_revocations s then
                let! c := ValidateAccessToken (ts_generator s) (ct_Token req) in
                match c with
                | Err _ => ret_ok tt
                | Ok claims =>
                    match cl_ExpiresAt claims with
                    | None => ret_ok tt
                    | Some expiresAt =>
                        if (ct_ClientID req !=? "") && (cl_ClientID claims !=? ct_ClientID req)
                        then ret_ok tt
                        else
                          let? _ := Revocations_RevokeAccessToken (cl_ID claims) expiresAt in
                          let! _ := RecordTokenRevocation in
                          ret_ok tt
                    end
                end
              else ret_ok tt
          end
    end.

(** ** Introspection (RFC 7662) *)

Definition userActive (userID : string) : Prog bool :=
  let! r := Users_GetByID userID in
  Ret (match r with Ok user => user_Active user | Err _ => false end).

(** The answer for a valid access token; the library's parsed tokens carry
    both times, which the source dereferences. *)
Definition access_token_response (claims : Claims) : IntrospectionResponse :=
  {| ir_Active := true; ir_Scope := cl_Scope claims; ir_ClientID := cl_ClientID claims;
     ir_Username := ""; ir_TokenType := "Bearer";
     ir_Exp := Unix (default 0 (cl_ExpiresAt claims)); ir_Iat := Unix (default 0 (cl_IssuedAt claims));
     ir_Sub := cl_Subject claims; ir_Aud := cl_ClientID claims; ir_Iss := cl_Issuer claims |}.

Definition introspect_refresh (tokenString : string) : Prog (res IntrospectionResponse) :=
  let! r := Tokens_GetByID tokenString in
  match r with
  | Err _ => ret_ok inactive
  | Ok token =>
      let! t := now in
      if negb (Token_IsValid t token) then ret_ok inactive
      else
        let! active := userActive (token_UserID token) in
        if negb active then ret_ok inactive
        else
          let! u := Users_GetByID (token_UserID token) in
          ret_ok {| ir_Active := true; ir_Scope := token_Scope token;
                    ir_ClientID := token_ClientID token;
                    ir_Username := match u with Ok user => user_Email user | Err _ => "" end;
                    ir_TokenType := "refresh_token"; ir_Exp := Unix (token_ExpiresAt token);
                    ir_Iat := 0; ir_Sub := token_UserID token; ir_Aud := ""; ir_Iss := "" |}
  end.

Definition introspect (req : ClientTokenRequest) : Prog (res IntrospectionResponse) :=
  if ct_ClientID req ==? "" then ret_err (Unauthorized "client authentication required")
  else
    let! r := Clients_GetByID (ct_ClientID req) in
    match r with
    | Err _ => ret_err (Unauthorized "invalid client credentials")
    | Ok client =>
        if client_Public client then
          ret_err (Unauthorized "introspection requires a confidential client")
        else
          let! (ok, _) := authenticateClient client (ct_ClientSecret req) in
          if negb ok then ret_err (Unauthorized "invalid client credentials")
          else
            let! c := ValidateAccessToken (ts_generator s) (ct_Token req) in
            match c with
            | Ok claims =>
                let? revoked := accessTokenRevoked claims in
                if revoked then ret_ok inactive
                else
                  let! active := userActive (cl_Subject claims) in
                  if negb active then ret_ok inactive
                  else ret_ok (access_token_response claims)
            | Err _ => introspect_refresh (ct_Token req)
            end
    end.

Definition HandleIntrospection (req : ClientTokenRequest) : Prog (res IntrospectionResponse) :=
  let! r := introspect req in
  let! _ := (match r with
             | Ok resp => RecordTokenIntrospection (ir_Active resp)
             | Err _ => Ret tt
             end) in
  Ret r.

(** ** Userinfo *)

Definition user_info (user : User) (scope : string) : UserInfoResponse :=
  let email := hasScope scope "email" in
  let profile := hasScope scope "profile" in
  {| ui_Sub := user_ID user;
     ui_Email := if email then user_Email user else "";
     ui_EmailVerified := email && user_EmailVerified user;
     ui_Name := if profile then user_DisplayName user else "";
     ui_GivenName := if profile then user_GivenName user else "";
     ui_FamilyName := if profile then user_FamilyName user else "";
     ui_Groups := None; ui_Extra := ∅ |}.

Definition ui_set_groups (groups : option (list string)) (extra : gmap string claim_value)
    (r : UserInfoResponse) : UserInfoResponse :=
  Build_UserInfoResponse (ui_Sub r) (ui_Email r) (ui_EmailVerified r) (ui_Name r)
    (ui_GivenName r) (ui_FamilyName r) groups extra.

Definition GetUserInfo (accessToken : string) : Prog (res UserInfoResponse) :=
  let! c := ValidateAccessToken (ts_generator s) accessToken in
  match c with
  | Err _ =>
      let! _ := RecordTokenRejected "invalid" in
      ret_err (IdpError CodeTokenInvalid "invalid access token")
  | Ok claims =>
      let? revoked := accessTokenRevoked claims in
      if revoked then
        let! _ := RecordTokenRejected "revoked" in
        ret_err (IdpError CodeTokenInvalid "access token has been revoked")
      else
        let? user := mapErr (fun e => if IsCode e CodeNotFound
                                      then IdpError CodeNotFound "user not found" else e)
                       (Users_GetByID (cl_Subject claims)) in
        if negb (user_Active user) then
          let! _ := RecordTokenRejected "revoked" in
          ret_err (IdpError CodeTokenInvalid "user account is disabled")
        else
          let scope := if cl_Scope claims ==? "" then "openid profile email" else cl_Scope claims in
          let response := user_info user scope in
          match ts_groupClaims s with
          | Some claimName =>
              if hasScope scope ScopeGroups then
                let? names := Names (user_ID user) in
                if claimName ==? DefaultGroupsClaim
                then ret_ok (ui_set_groups (Some names) ∅ response)
                else ret_ok (ui_set_groups None {[ claimName := VStrings names ]} response)
              else ret_ok response
          | None => ret_ok response
          end
  end.

Definition ExtractBearerToken (authHeader : string) : res string :=
  if authHeader ==? "" then Err (Unauthorized "missing authorization header")
  else if negb (HasPrefix authHeader "Bearer ") then Err (Unauthorized "invalid authorization header")
  else Ok (str_drop 7 authHeader).
End service.

(** ** The token endpoint (internal/http/oidc.go)

    [Token] dispatches on the grant type and maps errors to the codes and
    statuses of RFC 6749 §5.2. *)
Definition token_error (e : error) : string * Z :=
  if IsCode e CodeUnauthorized then ("invalid_client", 401)
  else if IsCode e CodeInvalidGrant then ("invalid_grant", 400)
  else if IsCode e CodeInvalidScope then ("invalid_scope", 400)
  else if IsCode e CodeUnauthorizedClient then ("unauthorized_client", 400)
  else ("invalid_request", 400).

(** ** internal/oidc/logout.go: where a logout returns to

    [PostLogoutRedirect] resolves an RP-initiated logout to a redirect URI of
    the client that the request names. *)

Section logout.
Context `{Store} `{KeyLib} `{JwtLib} (s : TokenService).

Definition registeredRedirect (client : Client) (uri : string) : bool :=
  existsb (fun r => r ==? uri) (client_RedirectURIs client).

(** The client an ID token hint names: its only audience. *)
Definition client_of_hint (idTokenHint clientID : string) : Prog (res string) :=
  let! c := ParseIDTokenHint (ts_generator s) idTokenHint in
  match c with
  | Err _ => ret_err (InvalidInput "invalid id_token_hint")
  | Ok claims =>
      match cl_Audience claims with
      | [aud] =>
          if (clientID !=? "") && (clientID !=? aud)
          then ret_err (InvalidInput "client_id does not match id_token_hint")
          else ret_ok aud
      | _ => ret_err (InvalidInput "id_token_hint must have a single audience")
      end
  end.

(** The URI with the state, as [URL.String] writes it. *)
Definition with_state (redirectURI state : string) : option string :=
  u ← Parse redirectURI;
  Some (URL_String (if state !=? "" then set_RawQuery (Values_Encode (Values_Set "state" state (Query u))) u
                    else u)).

Definition PostLogoutRedirect (idTokenHint clientID redirectURI state : string) : Prog (res string) :=
  let? clientID := (if idTokenHint !=? "" then client_of_hint idTokenHint clientID
                    else ret_ok clientID) in
  if clientID ==? "" then
    ret_err (InvalidInput "post_logout_redirect_uri requires id_token_hint or client_id")
  else
    let! c := Clients_GetByID clientID in
    match c with
    | Err _ => ret_err (InvalidInput "unknown client")
    | Ok client =>
        if negb (registeredRedirect client redirectURI) then
          ret_err (InvalidInput "post_logout_redirect_uri is not registered for the client")
        else match with_state redirectURI state with
        | None => ret_err (InvalidInput "invalid post_logout_redirect_uri")
        | Some url => ret_ok url
        end
    end.
End logout.
