(* ===== verification/Interleaving.v ===== *)
(** * Concurrent requests at the token endpoint

    A code is exchanged once however the requests interleave: the exchanges
    are threads of a pool over the file store, stepping one event at a time,
    beside threads that write no code.  What the lock protects is followed
    through the stages of [MarkUsed]. *)
From S2P Require Import Prelude GoTime GoText Encoding Hash Errors Domain Lockout PendingLogins.
From S2P Require Import World Run Store FileStore Keys Password Jwt Session AuthService Authorize TokenService Metrics.
#[local] Open Scope Z_scope.
#[local] Open Scope go_scope.

(** ** Threads that write no code *)

(** What an event does to the code file and the lock that protects it. *)
Inductive effect := Nothing | Takes | Gives | Writes.

Definition effect_of {X} (e : Ev X) : effect :=
  match e with
  | EWrite c _ => if bool_decide (name_of c = NAuthCodes) then Writes else Nothing
  | ELock l => if bool_decide (l = LConsume) then Takes else Nothing
  | EUnlock l => if bool_decide (l = LConsume) then Gives else Nothing
  | _ => Nothing
  end.

(** The program writes no code and uses the lock in brackets; it holds the
    lock at its start, and at its end, as told. *)
Fixpoint quiet {A} (h h' : bool) (p : Prog A) : Prop :=
  match p with
  | Ret _ => h = h'
  | Vis e k =>
      match effect_of e with
      | Nothing => forall x, quiet h h' (k x)
      | Takes => h = false /\ forall x, quiet true h' (k x)
      | Gives => h = true /\ forall x, quiet false h' (k x)
      | Writes => False
      end
  end.

(** The program cannot succeed. *)
Fixpoint fails {A} (p : Prog (res A)) : Prop :=
  match p with
  | Ret (Ok _) => False
  | Ret (Err _) => True
  | Vis _ k => forall x, fails (k x)
  end.

Lemma quiet_bind {A B} h h1 h2 (p : Prog A) (f : A -> Prog B) :
  quiet h h1 p -> (forall a, quiet h1 h2 (f a)) -> quiet h h2 (bind p f).
Proof.
  intros Hp Hf. revert h Hp. induction p as [a|X e k IH]; intros h Hp; cbn [bind quiet] in *; [subst; apply Hf|].
  destruct (effect_of e); try done; [|destruct Hp as [-> Hp]..]; (split; [done|]) || idtac; intros x; by apply IH.
Qed.

Lemma fails_bind {A B} (p : Prog A) (f : A -> Prog (res B)) : (forall a, fails (f a)) -> fails (bind p f).
Proof. intros Hf. induction p as [a|X e k IH]; cbn [bind fails]; [apply Hf|]. intros x. apply IH. Qed.

(** The program neither writes codes nor uses the lock. *)
Fixpoint plain {A} (p : Prog A) : Prop :=
  match p with
  | Ret _ => True
  | Vis e k => effect_of e = Nothing /\ forall x, plain (k x)
  end.

Lemma plain_bind {A B} (p : Prog A) (f : A -> Prog B) : plain p -> (forall a, plain (f a)) -> plain (bind p f).
Proof.
  intros Hp Hf. induction p as [a|X e k IH]; cbn [bind plain] in *; [apply Hf|]. destruct Hp as [He Hk].
  split; [done|]. intros x. by apply IH.
Qed.

Lemma plain_quiet {A} h (p : Prog A) : plain p -> quiet h h p.
Proof.
  induction p as [a|X e k IH]; cbn [quiet plain]; [done|]. intros [-> Hk] x. by apply IH.
Qed.

Lemma quiet_ret {A} h (a : A) : quiet h h (Ret a).
Proof. done. Qed.

(** ** An exchange: before, in and after its critical section *)

Section exchange.
Context `{Env} `{UnicodeTables}.

Definition code_is (c : string) (a : AuthCode) : bool := ac_Code a ==? c.

(** The code was taken; a file that no longer parses gives no code. *)
Definition taken (c : string) (w : World) : Prop :=
  match get CAuthCodes (w_disk w) with
  | FData l => exists a, find_first (code_is c) l = Some a /\ ac_Used a = true
  | FCorrupt => True
  end.

(** What follows [MarkUsed]: it is quiet, and fails if that failed. *)
Definition goes_on {A} (K : res unit -> Prog (res A)) : Prop :=
  (forall x, quiet false false (K x)) /\ forall e, fails (K (Err e)).

Inductive before {A} (c : string) : Prog (res A) -> Prop :=
| before_event X (e : Ev X) k : effect_of e = Nothing -> (forall x, before c (k x)) -> before c (Vis e k)
| before_fail p : quiet false false p -> fails p -> before c p
| before_mark K : goes_on K -> before c (bind (authCodeRepository_MarkUsed c) K).

Lemma before_bind {A B} c (p : Prog A) (f : A -> Prog (res B)) :
  plain p -> (forall a, before c (f a)) -> before c (bind p f).
Proof.
  intros Hp Hf. induction p as [a|X e k IH]; cbn [bind plain] in *; [apply Hf|]. destruct Hp as [He Hk].
  apply before_event; [done|]. intros x. by apply IH.
Qed.

(** The critical section of [MarkUsed], and what follows it. *)
Definition section (c : string) : Prog (res unit) :=
  let? codes := load CAuthCodes "failed to load auth codes" in
  match find_first (code_is c) codes with
  | Some a =>
      if ac_Used a then ret_err (Conflict "auth code already used")
      else replace_or CAuthCodes (code_is c) ac_set_used (NotFound "auth code" c) codes
  | None => ret_err (NotFound "auth code" c)
  end.
Definition give_back {A} (K : res unit -> Prog (res A)) (x : res unit) : Prog (res A) :=
  bind (unlock LConsume) (fun _ => K x).
Definition in_section {A} (c : string) (K : res unit -> Prog (res A)) : Prog (res A) :=
  bind (bind (section c) (fun a => bind (unlock LConsume) (fun _ => Ret a))) K.

Lemma MarkUsed_section {A} c (K : res unit -> Prog (res A)) :
  bind (authCodeRepository_MarkUsed c) K = Vis (ELock LConsume) (fun _ => in_section c K).
Proof. reflexivity. Qed.

(** ** Stages *)

(** What is known of a thread: it exchanges [c] and has come so far, or it is
    another one.  [held]: whether it holds the lock. *)
Inductive stage :=
| Waiting
| Entered
| Deciding (codes : list AuthCode)
| Leaving (won : bool)
| Finished (won held : bool).
Inductive role := Exchanging (c : string) (st : stage) | Other (held : bool).

Definition at_stage {A} (w : World) (c : string) (st : stage) (p : Prog (res A)) : Prop :=
  match st with
  | Waiting => before c p
  | Entered => exists K, goes_on K /\ p = in_section c K
  | Deciding l => exists K a l', goes_on K /\
      p = Vis (EWrite CAuthCodes l') (give_back K) /\ get CAuthCodes (w_disk w) = FData l /\
      find_first (code_is c) l = Some a /\ ac_Used a = false /\ replace_first (code_is c) ac_set_used l = Some l'
  | Leaving won => exists q, p = bind (unlock LConsume) (fun _ => q) /\ quiet false false q /\
      if won then taken c w else fails q
  | Finished won h => quiet h false p /\ if won then taken c w else fails p
  end.
Definition plays {A} (w : World) (ro : role) (p : Prog (res A)) : Prop :=
  match ro with Exchanging c st => at_stage w c st p | Other h => quiet h false p end.

Definition inside (ro : role) : bool :=
  match ro with
  | Exchanging _ (Entered | Deciding _ | Leaving _ | Finished _ true) | Other true => true
  | _ => false
  end.
Definition won (c : string) (ro : role) : bool :=
  match ro with
  | Exchanging c' (Leaving true | Finished true _) => c' ==? c
  | _ => false
  end.
Definition code_of (ro : role) : option string :=
  match ro with Exchanging c _ => Some c | Other _ => None end.

(** ** A step of a thread *)

Lemma thread_step_inv {A} (s s' : Prog A * World) :
  thread_step s s' ->
  match s.1 with
  | Ret _ => False
  | Vis e k => enabled s.1 s.2 /\ s' = (k (perform e s.2).1, (perform e s.2).2)
  end.
Proof. intros [X e k w x w' He Hp]. cbn [fst snd]. split; [done|]. by rewrite Hp. Qed.

Definition same_codes (w w' : World) : Prop := get CAuthCodes (w_disk w') = get CAuthCodes (w_disk w).

Lemma perform_codes {X} (e : Ev X) w : effect_of e <> Writes -> same_codes w (perform e w).2.
Proof.
  unfold same_codes. destruct e; cbn [effect_of perform]; try done.
  - intros Hn. case_bool_decide as Hc; [done|].
    destruct (env_io (w_tick w)); cbn [snd w_disk ticked with_disk]; try done; by rewrite get_set_ne.
  - destruct (f _ _ _). done.
  - repeat case_match; done.
  - destruct (env_mail _); done.
Qed.

(** What a step may do to the lock and the codes, by who is inside before
    and after. *)
Definition holds (w : World) : Prop := LConsume ∈ w_held w.

Lemma consume_free w : free LConsume (w_held w) = true -> ~ holds w.
Proof. intros Hf Hl. by pose proof (free_conflict _ _ _ Hf Hl). Qed.

Lemma perform_lock {X} (e : Ev X) w :
  match effect_of e with
  | Nothing | Writes => holds w -> holds (perform e w).2
  | Takes => holds (perform e w).2
  | Gives => True
  end.
Proof.
  unfold holds. destruct e; cbn [effect_of perform]; try done.
  - case_bool_decide; destruct (env_io _); done.
  - case_bool_decide as Hl; [subst; by left|]. intros Hw. by right.
  - case_bool_decide as Hl; [done|]. intros Hw. cbn [snd w_held ticked with_held]. unfold release.
    destruct (remove_first _ (w_held w)) as [l'|] eqn:E; cbn [default]; [|done].
    apply remove_first_Some in E as (l1 & y & l2 & Heq & -> & Hy & _). rewrite Heq in Hw.
    apply bool_decide_eq_true in Hy as ->. set_solver.
  - destruct (f _ _ _). done.
  - repeat case_match; done.
  - destruct (env_mail _); done.
Qed.

(** How a step of one thread changes what the others rely on. *)
Inductive moves (w w' : World) (ro ro' : role) : Prop :=
| moves_on : same_codes w w' -> inside ro' = inside ro -> (holds w -> holds w') -> moves w w' ro ro'
| moves_in : same_codes w w' -> ~ holds w -> holds w' -> inside ro = false -> moves w w' ro ro'
| moves_out : same_codes w w' -> inside ro = true -> inside ro' = false -> moves w w' ro ro'
| moves_writes c : code_of ro = Some c -> inside ro = true -> inside ro' = true -> (holds w -> holds w') ->
    ~ taken c w -> (forall c', taken c' w -> taken c' w') -> moves w w' ro ro'.

Record stepped {A} (w w' : World) (ro ro' : role) (p' : Prog (res A)) : Prop := {
  st_plays : plays w' ro' p';
  st_code : code_of ro' = code_of ro;
  st_moves : moves w w' ro ro';
  st_won : forall c, won c ro' = true -> won c ro = true \/ ~ taken c w;
}.

Lemma taken_same c w w' : same_codes w w' -> taken c w -> taken c w'.
Proof. unfold taken. by intros ->. Qed.

Lemma replaced_taken c c' l l' :
  replace_first (code_is c) ac_set_used l = Some l' ->
  (exists a, find_first (code_is c') l = Some a /\ ac_Used a = true) ->
  exists a, find_first (code_is c') l' = Some a /\ ac_Used a = true.
Proof.
  revert l'. induction l as [|x l IH]; intros l'; cbn [replace_first]; [done|].
  destruct (code_is c x) eqn:Ex.
  - intros [= <-] (a & Hf & Hu). cbn [find_first] in *.
    assert (code_is c' (ac_set_used x) = code_is c' x) as -> by (by destruct x).
    destruct (code_is c' x); [|by exists a]. exists (ac_set_used x). split; [done|]. by destruct x.
  - destruct (replace_first _ _ l) as [k|]; [|done]. intros [= <-] (a & Hf & Hu). cbn [find_first] in *.
    destruct (code_is c' x); [by exists a|]. apply IH; [done|]. by exists a.
Qed.

Lemma find_replaced c l l' a :
  find_first (code_is c) l = Some a -> replace_first (code_is c) ac_set_used l = Some l' ->
  find_first (code_is c) l' = Some (ac_set_used a).
Proof.
  revert l'. induction l as [|x l IH]; intros l'; cbn [find_first replace_first]; [done|].
  destruct (code_is c x) eqn:Ex.
  - intros [= ->] [= <-]. cbn [find_first]. assert (code_is c (ac_set_used a) = code_is c a) as -> by (by destruct a).
    by rewrite Ex.
  - intros Hf. destruct (replace_first _ _ l) as [k|]; [|done]. intros [= <-]. cbn [find_first]. rewrite Ex. by apply IH.
Qed.

(** A quiet program steps quietly. *)
Lemma quiet_step {A} h (p p' : Prog A) w w' :
  quiet h false p -> thread_step (p, w) (p', w') ->
  exists h', quiet h' false p' /\ same_codes w w' /\
    ((h' = h /\ (holds w -> holds w')) \/ (h = false /\ h' = true /\ ~ holds w /\ holds w') \/ (h = true /\ h' = false)).
Proof.
  intros Hq Hs%thread_step_inv. cbn [fst snd] in Hs. destruct p as [a|X e k]; [done|].
  destruct Hs as [Hen [= -> ->]]. cbn [quiet] in Hq. pose proof (perform_lock e w) as Hl.
  assert (effect_of e <> Writes -> same_codes w (perform e w).2) as Hc by apply perform_codes.
  destruct (effect_of e) eqn:He.
  - exists h. split; [apply Hq|]. split; [by apply Hc|]. by left.
  - destruct Hq as [-> Hq]. exists true. split; [apply Hq|]. split; [by apply Hc|]. right. left. split_and!; try done.
    destruct e; try done; cbn [effect_of] in He; repeat case_bool_decide; try done. subst. by apply consume_free.
  - destruct Hq as [-> Hq]. exists false. split; [apply Hq|]. split; [by apply Hc|]. by right; right.
  - done.
Qed.

Lemma fails_step {A} (p p' : Prog (res A)) w w' : fails p -> thread_step (p, w) (p', w') -> fails p'.
Proof.
  intros Hf Hs%thread_step_inv. cbn [fst snd] in Hs. destruct p as [a|X e k]; [done|].
  destruct Hs as [_ [= -> _]]. apply Hf.
Qed.

Lemma finished_step {A} c b h (p p' : Prog (res A)) w w' :
  at_stage w c (Finished b h) p -> thread_step (p, w) (p', w') ->
  exists h', stepped w w' (Exchanging c (Finished b h)) (Exchanging c (Finished b h')) p'.
Proof.
  intros [Hq Hb] Hs. destruct (quiet_step _ _ _ _ _ Hq Hs) as (h' & Hq' & Hc & Hcase). exists h'. split; [|done| |].
  - split; [done|]. destruct b; [by eapply taken_same|by eapply fails_step].
  - destruct Hcase as [[-> Hl]|[(-> & -> & Hn & Hl)|[-> ->]]];
      [by apply moves_on|by apply moves_in|by apply moves_out].
  - intros c'. destruct b; [by left|done].
Qed.
Lemma step_event {A X} (e : Ev X) (k : X -> Prog A) w p' w' :
  thread_step (Vis e k, w) (p', w') -> enabled (Vis e k) w /\ p' = k (perform e w).1 /\ w' = (perform e w).2.
Proof. intros [Hen [= -> ->]]%thread_step_inv. done. Qed.

(** The section after its read. *)
Definition section_after {A} (c : string) (K : res unit -> Prog (res A)) (r : res (list AuthCode)) : Prog (res A) :=
  bind (bind (match map_err (Internal "failed to load auth codes") r with
              | Ok codes =>
                  match find_first (code_is c) codes with
                  | Some a =>
                      if ac_Used a then ret_err (Conflict "auth code already used")
                      else replace_or CAuthCodes (code_is c) ac_set_used (NotFound "auth code" c) codes
                  | None => ret_err (NotFound "auth code" c)
                  end
              | Err e => ret_err e
              end) (fun a => bind (unlock LConsume) (fun _ => Ret a))) K.

Lemma other_step {A} h (p p' : Prog (res A)) w w' :
  quiet h false p -> thread_step (p, w) (p', w') -> exists h', stepped w w' (Other h) (Other h') p'.
Proof.
  intros Hq Hs. destruct (quiet_step _ _ _ _ _ Hq Hs) as (h' & Hq' & Hc & Hcase). exists h'. split; try done.
  destruct Hcase as [[-> Hl]|[(-> & -> & Hn & Hl)|[-> ->]]]; [by apply moves_on|by apply moves_in|by apply moves_out].
Qed.

Lemma perform_nothing {X} (e : Ev X) w :
  effect_of e = Nothing -> same_codes w (perform e w).2 /\ (holds w -> holds (perform e w).2).
Proof.
  intros He. split; [apply perform_codes; by rewrite He|]. pose proof (perform_lock e w) as Hl. by rewrite He in Hl.
Qed.

Lemma waiting_step {A} c (p p' : Prog (res A)) w w' :
  before c p -> thread_step (p, w) (p', w') ->
  exists st, stepped w w' (Exchanging c Waiting) (Exchanging c st) p'.
Proof.
  intros [X e k He Hk|q Hq Hf|K HK] Hs.
  - apply thread_step_inv in Hs as [_ [= -> ->]]. destruct (perform_nothing e w He) as [Hc Hl]. exists Waiting.
    split; [apply Hk|done|by apply moves_on|by left].
  - destruct (finished_step c false false q p' w w' (conj Hq Hf) Hs) as (h' & [Hp Hcode Hm Hw]).
    exists (Finished false h'). split; try done.
    destruct Hm as [? ? ?|? ? ? ?|? ? ?|? ? Hin]; [by apply moves_on|by apply moves_in|done|done].
  - rewrite MarkUsed_section in Hs. apply thread_step_inv in Hs as [Hen [= -> ->]]. cbn [snd enabled] in Hen.
    exists Entered. split; [by exists K|done| |by left].
    apply moves_in; [done|by apply consume_free| |done]. unfold holds. cbn. by left.
Qed.

(** In the section: to give the lock back without the code. *)
Lemma gives_up {A} c (K : res unit -> Prog (res A)) e w w' ro :
  goes_on K -> same_codes w w' -> (holds w -> holds w') -> inside ro = true -> code_of ro = Some c ->
  stepped w w' ro (Exchanging c (Leaving false)) (bind (unlock LConsume) (fun _ => K (Err e))).
Proof.
  intros [HK HF] Hc Hl Hin Hco. split; [|done|by apply moves_on|done].
  exists (K (Err e)). split; [done|]. split; [apply HK|apply HF].
Qed.

Lemma section_read {A} c (K : res unit -> Prog (res A)) :
  in_section c K = Vis (ERead CAuthCodes) (section_after c K).
Proof. reflexivity. Qed.

Lemma entered_step {A} c (K : res unit -> Prog (res A)) p' w w' :
  goes_on K -> thread_step (in_section c K, w) (p', w') ->
  exists st, stepped w w' (Exchanging c Entered) (Exchanging c st) p'.
Proof.
  intros HK Hs. rewrite section_read in Hs. apply step_event in Hs as (_ & -> & ->).
  assert (same_codes w (perform (ERead CAuthCodes) w).2 /\ (holds w -> holds (perform (ERead CAuthCodes) w).2))
    as [Hc Hl] by by apply perform_nothing.
  destruct (perform (ERead CAuthCodes) w) as [r w1] eqn:Hr. cbn [fst snd] in *.
  unfold section_after. destruct r as [l|e]; cbn [map_err bind]; [|exists (Leaving false); by apply gives_up].
  destruct (find_first (code_is c) l) as [a|] eqn:Hf; [|exists (Leaving false); by apply gives_up].
  destruct (ac_Used a) eqn:Hu; [exists (Leaving false); by apply gives_up|].
  unfold replace_or. destruct (replace_first (code_is c) ac_set_used l) as [l'|] eqn:Hrep;
    [|exists (Leaving false); by apply gives_up].
  exists (Deciding l). split; [|done|by apply moves_on|done]. exists K, a, l'. split_and!; try done.
  cbn [perform] in Hr. destruct (env_io (w_tick w)); try done.
  destruct (get CAuthCodes (w_disk w)) as [l0|] eqn:Hg; [|done]. injection Hr as <- <-. exact Hg.
Qed.

Lemma deciding_step {A} c (K : res unit -> Prog (res A)) a l l' p' w w' :
  goes_on K -> get CAuthCodes (w_disk w) = FData l -> find_first (code_is c) l = Some a -> ac_Used a = false ->
  replace_first (code_is c) ac_set_used l = Some l' ->
  thread_step (Vis (EWrite CAuthCodes l') (give_back K), w) (p', w') ->
  exists st, stepped w w' (Exchanging c (Deciding l)) (Exchanging c st) p'.
Proof.
  intros [HK HF] Hg Hf Hu Hr Hs. apply step_event in Hs as (_ & -> & ->).
  assert (~ taken c w) as Hfree.
  { unfold taken. rewrite Hg. intros (a' & Ha' & Hu'). congruence. }
  cbn [perform]. destruct (env_io (w_tick w)) eqn:Hio; cbn [fst snd].
  - exists (Leaving true). assert (get CAuthCodes (w_disk (ticked 1 (with_disk (set CAuthCodes (FData l') (w_disk w)) w)))
      = FData l') as Hg' by (cbn [w_disk ticked with_disk]; apply get_set_eq).
    split; [|done| |].
    + exists (K (Ok tt)). split; [done|]. split; [apply HK|]. unfold taken. rewrite Hg'.
      exists (ac_set_used a). split; [by apply (find_replaced c l)|by destruct a].
    + apply (moves_writes _ _ _ _ c); try done. intros c'. unfold taken. rewrite Hg, Hg'. by apply (replaced_taken c).
    + intros c' Hc'. right. apply bool_decide_eq_true in Hc' as ->. done.
  - exists (Leaving false). by apply gives_up.
  - exists (Leaving false). split; [|done| |done].
    + exists (K (Err ErrIO)). split; [done|]. split; [apply HK|apply HF].
    + apply (moves_writes _ _ _ _ c); try done. intros c' _. unfold taken. cbn [w_disk ticked with_disk].
      by rewrite get_set_eq.
Qed.

Lemma leaving_step {A} c (b : bool) (q : Prog (res A)) p' w w' :
  quiet false false q -> (if b then taken c w else fails q) ->
  thread_step (bind (unlock LConsume) (fun _ => q), w) (p', w') ->
  stepped w w' (Exchanging c (Leaving b)) (Exchanging c (Finished b false)) p'.
Proof.
  intros Hq Hb Hs. apply thread_step_inv in Hs as [_ [= -> ->]].
  assert (same_codes w (perform (EUnlock LConsume) w).2) as Hc by by apply perform_codes.
  split; [|done|by apply moves_out|].
  - split; [done|]. destruct b; [by eapply taken_same|done].
  - intros c'. destruct b; [by left|done].
Qed.

Lemma role_step {A} ro (p p' : Prog (res A)) w w' :
  plays w ro p -> thread_step (p, w) (p', w') -> exists ro', stepped w w' ro ro' p'.
Proof.
  destruct ro as [c st|h]; [|intros Hq Hs; destruct (other_step h p p' w w' Hq Hs) as [h' Hst]; by exists (Other h')].
  intros Hp Hs. cut (exists st', stepped w w' (Exchanging c st) (Exchanging c st') p'); [intros [st' Hst]; by exists (Exchanging c st')|].
  destruct st as [| |l|b|b h]; cbn [plays at_stage] in Hp.
  - by eapply waiting_step.
  - destruct Hp as (K & HK & ->). by eapply entered_step.
  - destruct Hp as (K & a & l' & HK & -> & Hg & Hf & Hu & Hr). by eapply deciding_step.
  - destruct Hp as (q & -> & Hq & Hb). exists (Finished b false). by apply (leaving_step c b q).
  - destruct (finished_step c b h p p' w w' Hp Hs) as [h' Hst]. by exists (Finished b h').
Qed.

(** ** The pool *)

Definition count (f : role -> bool) (ros : list role) : nat := length (List.filter f ros).

Record pool_inv {A} (codes : list (option string)) (w : World) (ps : list (Prog (res A))) (ros : list role) : Prop := {
  pi_plays : Forall2 (plays w) ros ps;
  pi_codes : map code_of ros = codes;
  pi_inside : (count inside ros <= 1)%nat;
  pi_lock : (0 < count inside ros)%nat -> holds w;
  pi_won : forall c, (count (won c) ros <= 1)%nat;
}.

Lemma count_app f l1 l2 : count f (l1 ++ l2) = (count f l1 + count f l2)%nat.
Proof. unfold count. by rewrite List.filter_app, length_app. Qed.
Lemma count_cons f x l : count f (x :: l) = ((if f x then 1 else 0) + count f l)%nat.
Proof. unfold count. cbn [List.filter]. by destruct (f x). Qed.

Lemma count_elem f l x : x ∈ l -> f x = true -> (0 < count f l)%nat.
Proof.
  intros (l1 & l2 & ->)%list_elem_of_split Hf. rewrite count_app, count_cons, Hf. lia.
Qed.

(** The others rely on nothing the step changes. *)
Lemma plays_moved {A} w w' ro1 ro1' ro (p : Prog (res A)) :
  moves w w' ro1 ro1' -> (inside ro1 = true -> inside ro = false) -> plays w ro p -> plays w' ro p.
Proof.
  intros Hm Hex Hp. destruct ro as [c st|h]; [|done].
  assert ((same_codes w w' -> at_stage w' c st p) /\
    (inside (Exchanging c st) = false -> (forall c', taken c' w -> taken c' w') -> at_stage w' c st p)) as [Hs Ho].
  { cbn [plays at_stage] in Hp. split; [intros Hc|intros Hi Ht]; destruct st as [| |l|b|b h]; cbn [at_stage] in *; try done.
    - destruct Hp as (K & a & l' & HK & -> & Hg & Hr). exists K, a, l'. by rewrite Hc.
    - destruct Hp as (q & -> & Hq & Hb). exists q. split_and!; try done. destruct b; [by eapply taken_same|done].
    - destruct Hp as [Hq Hb]. split; [done|]. destruct b; [by eapply taken_same|done].
    - destruct Hp as [Hq Hb]. split; [done|]. destruct b; [by apply Ht|done]. }
  destruct Hm as [Hc ? ?|Hc ? ? ?|Hc ? ?|c' ? Hin ? ? ? Ht]; try by apply Hs.
  apply Ho; [|done]. by apply Hex.
Qed.

Lemma plays_all {A} w w' ros (ps : list (Prog (res A))) :
  (forall r (q : Prog (res A)), r ∈ ros -> plays w r q -> plays w' r q) -> Forall2 (plays w) ros ps -> Forall2 (plays w') ros ps.
Proof.
  intros Hr Hp. induction Hp as [|r q ros ps Hq Hp IH]; constructor; [apply Hr; [left|done]|].
  apply IH. intros r' q' Hr'. apply Hr. by right.
Qed.

Lemma won_taken {A} r (q : Prog (res A)) c w : plays w r q -> won c r = true -> taken c w.
Proof.
  destruct r as [c' st|h]; [|done]. destruct st as [| |l|[]|[] h]; cbn [won plays at_stage]; try done.
  - intros (x & _ & _ & Ht) Hc. by apply bool_decide_eq_true in Hc as ->.
  - intros [_ Ht] Hc. by apply bool_decide_eq_true in Hc as ->.
Qed.

Lemma pool_inv_step {A} codes w w' (ps ps' : list (Prog (res A))) ros :
  pool_inv codes w ps ros -> pool_step (ps, w) (ps', w') -> exists ros', pool_inv codes w' ps' ros'.
Proof.
  intros [Hp Hcodes Hin Hlock Hwon] Hs. inversion Hs as [ps1 p qs w0 p' w1 Ht]; subst.
  pose proof Hp as Hall. apply Forall2_app_inv_r in Hp as (ros1 & ros2 & Hp1 & Hp2 & ->).
  apply Forall2_cons_inv_r in Hp2 as (ro & ros3 & Hro & Hp3 & ->).
  destruct (role_step ro p p' w w' Hro Ht) as (ro' & [Hplays Hcode Hmoves Hw]).
  rewrite count_app, count_cons in Hin, Hlock. setoid_rewrite count_app in Hwon. setoid_rewrite count_cons in Hwon.
  assert (forall r (q : Prog (res A)), r ∈ ros1 ++ ros3 -> plays w r q -> plays w' r q) as Hothers.
  { intros r q Hr. eapply plays_moved; [exact Hmoves|]. intros Hi. destruct (inside r) eqn:Er; [|done].
    pose proof (count_elem inside _ r Hr Er) as Hc. rewrite count_app in Hc. rewrite Hi in Hin. lia. }
  exists (ros1 ++ ro' :: ros3). split.
  - apply Forall2_app; [|constructor; [done|]].
    + apply (plays_all w w'); [|done]. intros r q Hr. apply Hothers. set_solver.
    + apply (plays_all w w'); [|done]. intros r q Hr. apply Hothers. set_solver.
  - rewrite !map_app. cbn [map]. by rewrite Hcode.
  - rewrite count_app, count_cons. destruct Hmoves as [_ Heq _|_ Hn _ Hi|_ _ Ho|c _ Hi Hi' _ _ _].
    + by rewrite Heq.
    + rewrite Hi in *. destruct (decide (0 < count inside ros1 + (0 + count inside ros3))%nat) as [Hpos|Hz]; [by destruct Hn; apply Hlock|].
      destruct (inside ro'); lia.
    + rewrite Ho. lia.
    + by rewrite Hi, Hi' in *.
  - rewrite count_app, count_cons. destruct Hmoves as [_ Heq Hl|_ _ Hl _|_ Hi Ho|c _ Hi Hi' Hl _ _].
    + rewrite Heq. auto.
    + done.
    + rewrite Ho. rewrite Hi in Hin. lia.
    + rewrite Hi, Hi' in *. auto.
  - intros c. rewrite count_app, count_cons. specialize (Hwon c). destruct (won c ro') eqn:Ew; [|destruct (won c ro); lia].
    destruct (Hw c Ew) as [Hold|Hfree]; [by rewrite Hold in Hwon|].
    assert (forall l, (forall r, r ∈ l -> r ∈ ros1 ++ ro :: ros3) -> count (won c) l = 0%nat) as Hnone.
    { intros l Hl. destruct (count (won c) l) eqn:E; [done|]. exfalso. unfold count in E.
      destruct (List.filter (won c) l) as [|r k] eqn:El; [done|].
      assert (r ∈ List.filter (won c) l) as Hr by (rewrite El; left).
      apply list_elem_of_In, List.filter_In in Hr as [Hr Hwr]. apply list_elem_of_In, Hl in Hr.
      apply list_elem_of_lookup_1 in Hr as [at_ Hr].
      destruct (Forall2_lookup_l _ _ _ _ _ Hall Hr) as (q & _ & Hq). apply Hfree. by apply (won_taken r q). }
    rewrite (Hnone ros1), (Hnone ros3) by (intros; set_solver). done.
Qed.

Lemma pool_inv_steps {A} codes w w' (ps ps' : list (Prog (res A))) ros :
  pool_inv codes w ps ros -> pool_steps (ps, w) (ps', w') -> exists ros', pool_inv codes w' ps' ros'.
Proof.
  intros Hi Hs. remember (ps, w) as s eqn:E. remember (ps', w') as s' eqn:E'.
  revert ps w ros E E' Hi. induction Hs as [s|s [ps1 w1] s' Hs _ IH]; intros ps w ros -> E' Hi.
  - injection E' as -> ->. by exists ros.
  - destruct (pool_inv_step _ _ _ _ _ _ Hi Hs) as [ros1 Hi1]. by apply (IH ps1 w1 ros1).
Qed.

(** A thread that has succeeded has won its code. *)
Lemma success_won {A} w c st (a : A) : at_stage w c st (Ret (Ok a)) -> exists h, st = Finished true h.
Proof.
  destruct st as [| |l|b|[] h]; cbn [at_stage].
  - intros Hb. exfalso. remember (Ret (Ok a)) as p eqn:Ep. destruct Hb as [X e k ? ?|q _ Hf|K ?]; subst; done.
  - by intros (K & _ & Hp).
  - by intros (K & a' & l' & _ & Hp & _).
  - by intros (q & Hp & _).
  - by exists h.
  - by intros [_ []].
Qed.

Lemma count_two f l i j x y :
  l !! i = Some x -> l !! j = Some y -> f x = true -> f y = true -> i <> j -> (2 <= count f l)%nat.
Proof.
  revert i j. induction l as [|z l IH]; intros i j Hi Hj Hx Hy Hne; [done|]. rewrite count_cons.
  destruct i as [|i], j as [|j]; cbn in *; simplify_eq; try done.
  - rewrite Hx. pose proof (count_elem f l y (list_elem_of_lookup_2 _ _ _ Hj) Hy). lia.
  - rewrite Hy. pose proof (count_elem f l x (list_elem_of_lookup_2 _ _ _ Hi) Hx). lia.
  - specialize (IH i j Hi Hj Hx Hy ltac:(congruence)). lia.
Qed.

(** Of the threads that exchange a code, one at most succeeds. *)
Lemma one_winner {A} codes w (ps : list (Prog (res A))) ros i j c a b :
  pool_inv codes w ps ros -> codes !! i = Some (Some c) -> codes !! j = Some (Some c) ->
  ps !! i = Some (Ret (Ok a)) -> ps !! j = Some (Ret (Ok b)) -> i = j.
Proof.
  intros [Hp <- _ _ Hwon] Hi Hj Ha Hb. destruct (decide (i = j)) as [|Hne]; [done|]. exfalso.
  assert (forall k x, map code_of ros !! k = Some (Some c) -> ps !! k = Some (Ret (Ok x)) ->
    exists ro, ros !! k = Some ro /\ won c ro = true) as Hw.
  { intros k x Hk Hx. apply list_lookup_fmap_Some in Hk as (ro & Hk & Hro). exists ro. split; [done|].
    pose proof (Forall2_lookup_lr _ _ _ _ _ _ Hp Hro Hx) as Hplay. destruct ro as [c' st|h]; [|done].
    injection Hk as <-. apply success_won in Hplay as [h ->]. by apply bool_decide_eq_true. }
  destruct (Hw i a Hi Ha) as (x & Hx & Hwx), (Hw j b Hj Hb) as (y & Hy & Hwy).
  pose proof (count_two _ _ _ _ _ _ Hx Hy Hwx Hwy Hne). specialize (Hwon c). lia.
Qed.

(** ** The requests of the token endpoint *)

Context `{KeyLib} `{JwtLib} `{Argon2} (s : TokenService).

Ltac plain_step :=
  lazymatch goal with
  | |- plain (Ret _) => exact I
  | |- plain (bind _ _) => apply plain_bind; [|intros ?]
  | |- plain (match ?x with _ => _ end) => destruct x
  | |- plain (trigger _) => split; [reflexivity|intros ?; exact I]
  | |- plain ?p => let f := head_of p in progress unfold f; cbv beta iota delta [FileStore]
  end.
Ltac plain := repeat plain_step.

Lemma plain_authenticate g req : plain (authenticate_for g req).
Proof. plain. Qed.
Lemma plain_revoke_each clientID l : plain (revoke_each clientID l).
Proof. induction l as [|t l IH]; cbn [revoke_each]; [plain|]. plain; done. Qed.
Lemma plain_cut_off m u c e : plain (cut_off s m u c e).
Proof. unfold cut_off, revokeGrant. plain; apply plain_revoke_each. Qed.
Lemma plain_generateTokens u c sc n t amr g : plain (generateTokens s u c sc n t amr g).
Proof. plain. Qed.
Lemma plain_active_user u : plain (active_user u).
Proof. plain. Qed.

Lemma fails_cut_off m u c e : fails (cut_off s m u c e).
Proof. apply fails_bind. by intros []. Qed.
Lemma before_Err {A} c (e : error) : before c (@Ret (res A) (Err e)).
Proof. by apply before_fail. Qed.
Lemma before_cut_off c m u cl e : before c (cut_off s m u cl e).
Proof. apply before_fail; [apply plain_quiet, plain_cut_off|apply fails_cut_off]. Qed.

Lemma quiet_try {A B} (p : Prog (res A)) (f : A -> Prog (res B)) :
  plain p -> (forall a, quiet false false (f a)) -> quiet false false (let? a := p in f a).
Proof. intros Hp Hf. eapply quiet_bind; [by apply plain_quiet|]. intros [a|e]; [apply Hf|done]. Qed.
Lemma before_try {A B} c (p : Prog (res A)) (f : A -> Prog (res B)) :
  plain p -> (forall a, before c (f a)) -> before c (let? a := p in f a).
Proof. intros Hp Hf. apply before_bind; [done|]. intros [a|e]; [apply Hf|apply before_Err]. Qed.

(** An exchange marks the code of its request, and fails unless that
    succeeds. *)
Lemma exchange_before req : before (tr_Code req) (HandleAuthorizationCode s req).
Proof.
  unfold HandleAuthorizationCode. case_match; [apply before_Err|]. case_match; [apply before_Err|].
  apply before_try; [apply plain_authenticate|]. intros client. apply before_try; [plain|]. intros code.
  case_match; [apply before_Err|]. case_match; [apply before_cut_off|].
  apply before_bind; [plain|]. intros t. repeat (case_match; [apply before_Err|]).
  apply before_mark. split.
  - intros [x|e].
    + apply quiet_try; [apply plain_active_user|]. intros user. apply plain_quiet, plain_generateTokens.
    + case_match; [apply plain_quiet, plain_cut_off|done].
  - intros e. case_match; [apply fails_cut_off|done].
Qed.

(** A refresh takes the lock to rotate its token, and gives it back. *)
Lemma quiet_locked {A} (p : Prog A) : plain p -> quiet false false (locked LConsume p).
Proof.
  intros Hp. unfold locked. apply (quiet_bind false true); [by split|]. intros _.
  apply (quiet_bind true true); [by apply plain_quiet|]. intros a. by split.
Qed.

Lemma refresh_quiet req : quiet false false (HandleRefreshToken s req).
Proof.
  unfold HandleRefreshToken. case_match; [done|]. apply quiet_try; [apply plain_authenticate|]. intros client.
  apply quiet_try; [plain|]. intros token. case_match; [done|].
  apply (quiet_bind false false); [by apply plain_quiet; plain|]. intros t.
  case_match; [apply plain_quiet, plain_cut_off|]. apply (quiet_bind false false); [by apply plain_quiet; plain|].
  intros t'. case_match; [done|]. apply quiet_try; [apply plain_active_user|]. intros user.
  apply quiet_try; [plain|]. intros scope. apply (quiet_bind false false); [apply quiet_locked; plain|].
  intros [x|e]; [apply plain_quiet, plain_generateTokens|]. case_match; [apply plain_quiet, plain_cut_off|done].
Qed.

Lemma Forall2_repeat_other {A} w h (ps : list (Prog (res A))) :
  Forall (quiet h false) ps -> Forall2 (plays w) (map (fun _ => Other h) ps) ps.
Proof. by induction 1; constructor. Qed.

(** Claim C5.  A code is exchanged once, however requests interleave: of any
    number of exchanges that run concurrently with refreshes and other
    programs that write no codes, one event at a time and in any order, at
    most one of those for the same code succeeds, whatever fails on the way. *)
Theorem single_use_interleaved reqs others w ps w' i j ri rj a b :
  LConsume ∉ w_held w -> Forall (quiet false false) others ->
  pool_steps (map (HandleAuthorizationCode s) reqs ++ others, w) (ps, w') ->
  reqs !! i = Some ri -> reqs !! j = Some rj -> tr_Code ri = tr_Code rj ->
  ps !! i = Some (Ret (Ok a)) -> ps !! j = Some (Ret (Ok b)) -> i = j.
Proof.
  intros Hfree Hothers Hsteps Hi Hj Heq Ha Hb.
  set (ros := map (fun r => Exchanging (tr_Code r) Waiting) reqs ++ map (fun _ => Other false) others).
  assert (forall f, (forall c, f (Exchanging c Waiting) = false) -> f (Other false) = false -> count f ros = 0%nat) as Hzero.
  { intros f Hx Ho. unfold ros, count. rewrite List.filter_app, length_app.
    assert (forall A (l : list A) g, (forall x, f (g x) = false) -> List.filter f (map g l) = []) as Hnil.
    { intros A l g Hg. induction l as [|x l IH]; [done|]. cbn. by rewrite Hg. }
    by rewrite !Hnil. }
  assert (pool_inv (map code_of ros) w (map (HandleAuthorizationCode s) reqs ++ others) ros) as Hinv.
  { split; [|done| | |].
    - apply Forall2_app; [|by apply Forall2_repeat_other]. clear. induction reqs as [|r reqs IH]; constructor; [|done].
      apply exchange_before.
    - rewrite Hzero; [lia|done|done].
    - rewrite Hzero by done. intros Hn. lia.
    - intros c. rewrite Hzero; [lia|done|done]. }
  destruct (pool_inv_steps _ _ _ _ _ _ Hinv Hsteps) as [ros' Hinv'].
  assert (forall k r, reqs !! k = Some r -> map code_of ros !! k = Some (Some (tr_Code r))) as Hcode.
  { intros k r Hk. unfold ros. rewrite map_app, lookup_app_l.
    - by rewrite !list_lookup_fmap, Hk.
    - rewrite !length_map. by eapply lookup_lt_Some. }
  apply (one_winner _ _ _ _ _ _ (tr_Code ri) a b Hinv'); [by apply Hcode| |done|done].
  rewrite Heq. by apply Hcode.
Qed.
End exchange.

(** ** Schedules *)

Section schedule.
Context `{Env} {A : Type}.

Definition can_step (p : Prog A) (w : World) : bool :=
  match p with Vis (ELock l) _ => free l (w_held w) | _ => true end.

(** Let thread [i] take a step, if it can. *)
Definition step_at (i : nat) (st : list (Prog A) * World) : list (Prog A) * World :=
  match st.1 !! i with
  | Some (Vis e k) =>
      if can_step (Vis e k) st.2 then (<[i := k (perform e st.2).1]> st.1, (perform e st.2).2) else st
  | _ => st
  end.
Definition schedule (turns : list nat) (st : list (Prog A) * World) : list (Prog A) * World :=
  fold_left (fun st i => step_at i st) turns st.

Lemma step_at_steps i st : pool_steps st (step_at i st).
Proof.
  destruct st as [ps w]. unfold step_at. cbn [fst snd]. destruct (ps !! i) as [[a|X e k]|] eqn:Hi; [apply rtc_refl| |apply rtc_refl].
  destruct (can_step (Vis e k) w) eqn:Hc; [|apply rtc_refl]. apply rtc_once.
  pose proof (take_drop_middle _ _ _ Hi) as Hps.
  assert (<[i := k (perform e w).1]> ps = take i ps ++ k (perform e w).1 :: drop (S i) ps) as ->.
  { apply insert_take_drop. by eapply lookup_lt_Some. }
  rewrite <-Hps at 1. apply pool_thread. apply (thread_event _ e k w); [|by destruct (perform e w)].
  by destruct e.
Qed.

Lemma schedule_steps turns st : pool_steps st (schedule turns st).
Proof.
  unfold schedule. revert st. induction turns as [|i turns IH]; intros st; [apply rtc_refl|].
  cbn [fold_left]. etransitivity; [apply step_at_steps|apply IH].
Qed.
End schedule.
