(* ===== verification/Http.v ===== *)
(** * Requests and responses of internal/http

    [HttpRequest] is what the handlers read of an [*http.Request] and of the
    router; [Request] (file World) is the part the services read, with the
    parsed form.  A handler returns the one response it writes: a redirect
    (the argument of [http.Redirect]), a page with the data given to its
    template, a JSON body, a plain error or a bare status.  HTML rendering and
    the JSON encoding of a body are the libraries' work. *)
From S2P Require Import Prelude GoTime GoText GoUrl Errors Domain Lockout PendingLogins.
From S2P Require Import World Run Store Keys Jwt TokenService Metrics.
#[local] Open Scope Z_scope.
#[local] Open Scope go_scope.

(** ** Requests *)

(** [hr_body] is what net/http finds as form body: an error (a malformed
    Content-Type, a body that cannot be read), or the text of a URL-encoded
    form, none for other content.  [hr_multipart] holds the values of a
    multipart form and [hr_vars] the parameters of the route. *)
Record HttpRequest := {
  hr_Method : string;
  hr_URL : URL;
  hr_body : res (option string);
  hr_multipart : Values;
  hr_header : list (string * string);
  hr_cookies : list (string * string);
  hr_RemoteAddr : string;
  hr_vars : list (string * string);
}.

Definition has_form_body (r : HttpRequest) : bool :=
  (hr_Method r ==? "POST") || (hr_Method r ==? "PUT") || (hr_Method r ==? "PATCH").

(** [r.PostForm] after [ParseForm], and whether the body parsed. *)
Definition PostForm (r : HttpRequest) : Values * bool :=
  if has_form_body r then
    match hr_body r with
    | Ok (Some body) => ParseQuery body
    | Ok None => ([], true)
    | Err _ => ([], false)
    end
  else ([], true).

Definition with_form (q : Values) (r : HttpRequest) : Request :=
  {| r_form := q; r_header := hr_header r; r_cookies := hr_cookies r;
     r_RemoteAddr := hr_RemoteAddr r |}.

(** The request after [r.ParseForm()], and whether that succeeded: the body's
    values come before those of the URL. *)
Definition ParseForm (r : HttpRequest) : Request * bool :=
  let '(body, ok) := PostForm r in
  let '(query, ok') := ParseQuery (u_RawQuery (hr_URL r)) in
  (with_form (body ++ query) r, ok && ok').

Definition parsed (r : HttpRequest) : Request := (ParseForm r).1.

(** The request a handler sees that calls [r.FormValue] without
    [r.ParseForm()]: a multipart form is read as well, errors are ignored. *)
Definition parsed_lazily (r : HttpRequest) : Request :=
  with_form (r_form (parsed r) ++ hr_multipart r) r.

(** [http.MaxBytesReader] with [maxPasskeyResponse]. *)
Definition maxPasskeyResponse : Z := 65536.
Definition limited (r : HttpRequest) : HttpRequest := {|
  hr_Method := hr_Method r; hr_URL := hr_URL r;
  hr_body := match hr_body r with
             | Ok (Some body) => if maxPasskeyResponse <? len body
                                 then Err (Plain "http: request body too large") else Ok (Some body)
             | b => b
             end;
  hr_multipart := hr_multipart r; hr_header := hr_header r; hr_cookies := hr_cookies r;
  hr_RemoteAddr := hr_RemoteAddr r; hr_vars := hr_vars r |}.

(** The query of the URL; the cookies and headers, before any form is read. *)
Definition url_query (r : HttpRequest) (k : string) : string := Values_Get (Query (hr_URL r)) k.
Definition URLParam (r : HttpRequest) (k : string) : string := default "" (first_value k (hr_vars r)).

(** ** Pages: the data of each template *)

Record loginPageData := {
  lp_CSRFToken : string;
  lp_ReturnURL : string;
  lp_Error : string;
  lp_Message : string;
  lp_ForgotPasswordURL : string;
  lp_HasTOTP : bool;
  lp_HasPasskeys : bool;
}.

Record consentPageData := {
  cp_CSRFToken : string;
  cp_AuthorizeQuery : string;
  cp_ClientID : string;
  cp_ClientName : string;
  cp_UserEmail : string;
  cp_Scopes : list (string * string);
}.

Record forgotPasswordData := {
  fp_CSRFToken : string;
  fp_Email : string;
  fp_Error : string;
  fp_Sent : bool;
  fp_TTL : string;
}.

Record resetPasswordData := {
  rp_CSRFToken : string;
  rp_Token : string;
  rp_Error : string;
  rp_MinLength : Z;
}.

Record messagePageData := {
  mp_Title : string;
  mp_Message : string;
  mp_Error : string;
  mp_BackURL : string;
  mp_BackLabel : string;
  mp_SecondURL : string;
  mp_SecondLabel : string;
}.

Definition message (title message error back label : string) : messagePageData :=
  Build_messagePageData title message error back label "" "".

Record wideBase := {
  wb_Section : string;
  wb_CurrentUser : option User;
  wb_CSRFToken : string;
  wb_Flash : string;
  wb_Error : string;
}.

Definition wb_set_error (e : string) (b : wideBase) : wideBase :=
  Build_wideBase (wb_Section b) (wb_CurrentUser b) (wb_CSRFToken b) (wb_Flash b) e.
Definition wb_set_flash (f : string) (b : wideBase) : wideBase :=
  Build_wideBase (wb_Section b) (wb_CurrentUser b) (wb_CSRFToken b) f (wb_Error b).

Record accountPageData := {
  ap_base : wideBase;
  ap_Sessions : list (Session * bool);
  ap_Tokens : list Token;
  ap_Consents : list Consent;
  ap_CanChangePassword : bool;
  ap_MinPasswordLength : Z;
  ap_PasskeysAvailable : bool;
  ap_Passkeys : list Passkey;
  ap_HasSecondFactor : bool;
}.

(** The QR image is left to its library: the page keeps the address it shows. *)
Record twoStepPageData := {
  tp_base : wideBase;
  tp_Secret : string;
  tp_SecretDisplay : string;
  tp_QRURI : string;
  tp_RecoveryCodes : list string;
}.

Record adminBase := {
  ab_Section : string;
  ab_CurrentUser : option User;
  ab_CSRFToken : string;
  ab_Flash : string;
  ab_Error : string;
  ab_PlaygroundEnabled : bool;
}.

Definition ab_set_error (e : string) (b : adminBase) : adminBase :=
  Build_adminBase (ab_Section b) (ab_CurrentUser b) (ab_CSRFToken b) (ab_Flash b) e
    (ab_PlaygroundEnabled b).
Definition ab_set_flash (f : string) (b : adminBase) : adminBase :=
  Build_adminBase (ab_Section b) (ab_CurrentUser b) (ab_CSRFToken b) f (ab_Error b)
    (ab_PlaygroundEnabled b).

Record userFormData := {
  uf_IsNew : bool;
  uf_IsSelf : bool;
  uf_User : User;
  uf_Consents : list Consent;
  uf_AllGroups : list (Group * bool);
  uf_Sessions : list Session;
  uf_Tokens : list Token;
  uf_Passkeys : list Passkey;
  uf_MinPasswordLength : Z;
}.

Record clientFormData := {
  cf_IsNew : bool;
  cf_Client : Client;
  cf_NewSecret : string;
  cf_IssuerURL : string;
  cf_DefaultAccessTTL : string;
  cf_DefaultRefreshTTL : string;
  cf_EffectiveAccessTTL : string;
  cf_EffectiveRefreshTTL : string;
}.

Record playgroundResult := {
  pr_ObtainedVia : string;
  pr_At : string;
  pr_IDTokenHeader : string;
  pr_IDTokenClaims : string;
  pr_AccessTokenClaims : string;
  pr_UserInfo : string;
  pr_Raw : string;
  pr_ExpiresIn : Z;
  pr_Scope : string;
  pr_RefreshToken : string;
  pr_NonceOK : bool;
  pr_Extra : string;
}.

Record playgroundData := {
  pd_base : wideBase;
  pd_ClientID : string;
  pd_RedirectURI : string;
  pd_Issuer : string;
  pd_Scopes : list (string * bool);
  pd_Result : option playgroundResult;
  pd_LastError : string;
}.

Inductive Page :=
| ErrorPage (Title Message : string)
| LoginForm (d : loginPageData)
| CodeForm (d : loginPageData)
| ConsentForm (d : consentPageData)
| ForgotForm (d : forgotPasswordData)
| ResetForm (d : resetPasswordData)
| MessagePage (d : messagePageData)
| SetupPage (Email : string)
| AccountPage (d : accountPageData)
| PlaygroundPage (d : playgroundData)
| TwoStepPage (d : twoStepPageData)
| AdminDashboard (b : adminBase) (users groups clients keys : Z) (issuer : string)
| AdminUsers (b : adminBase) (users : list User)
| AdminUserForm (b : adminBase) (d : userFormData)
| AdminGroups (b : adminBase) (rows : list (Group * Z)) (claim : string)
| AdminGroupForm (b : adminBase) (isNew : bool) (g : Group) (members : list User)
| AdminClients (b : adminBase) (clients : list Client)
| AdminClientForm (b : adminBase) (d : clientFormData)
| AdminAudit (b : adminBase) (events : list AuditEvent) (limit : Z)
| AdminKeys (b : adminBase) (keys : list KeyPair) (grace : string).

(** ** Responses *)

(** The discovery document: internal/http/discovery.go. *)
Record OIDCDiscovery := {
  od_Issuer : string;
  od_AuthorizationEndpoint : string;
  od_TokenEndpoint : string;
  od_UserinfoEndpoint : string;
  od_JwksURI : string;
  od_EndSessionEndpoint : string;
  od_RevocationEndpoint : string;
  od_IntrospectionEndpoint : string;
  od_RegistrationEndpoint : string;
  od_ScopesSupported : list string;
  od_ResponseTypesSupported : list string;
  od_ResponseModesSupported : list string;
  od_GrantTypesSupported : list string;
  od_SubjectTypesSupported : list string;
  od_IDTokenSigningAlgValuesSupported : list string;
  od_TokenEndpointAuthMethodsSupported : list string;
  od_ClaimsSupported : list string;
  od_CodeChallengeMethodsSupported : list string;
  od_RevocationEndpointAuthMethods : list string;
  od_IntrospectionEndpointAuthMethods : list string;
  od_RequestParameterSupported : bool;
  od_RequestURIParameterSupported : bool;
  od_ClaimsParameterSupported : bool;
}.

Inductive Body :=
| BTokens (t : TokenResponse)
| BUserInfo (u : UserInfoResponse)
| BIntrospection (i : IntrospectionResponse)
| BStrings (fields : list (string * string))
| BCodes (recovery_codes : list string)
| BJson (raw : string)
| BJwks (keys : list JWK)
| BDiscovery (d : OIDCDiscovery)
| BEmpty.

(** [Panicked]: the handler dereferenced nil; the Recoverer middleware
    answers 500. *)
Inductive Response :=
| Redirected (url : string) (status : Z)
| Rendered (status : Z) (p : Page)
| HttpError (status : Z) (headers : list (string * string)) (message : string)
| Wrote (status : Z) (headers : list (string * string)) (b : Body)
| Panicked.

Definition StatusOK : Z := 200.
Definition StatusFound : Z := 302.
Definition StatusBadRequest : Z := 400.
Definition StatusUnauthorized : Z := 401.
Definition StatusForbidden : Z := 403.
Definition StatusNotFound : Z := 404.
Definition StatusMethodNotAllowed : Z := 405.
Definition StatusInternalServerError : Z := 500.

Definition found (url : string) : Prog Response := Ret (Redirected url StatusFound).
Definition server_error : Prog Response :=
  Ret (HttpError StatusInternalServerError [] "Internal Server Error").

Definition json_header : string * string := ("Content-Type", "application/json").
Definition no_store : list (string * string) := [("Cache-Control", "no-store"); ("Pragma", "no-cache")].
