(* ===== verification/Middleware.v ===== *)
(** * internal/http/middleware.go

    A middleware takes the next handler and is one.  The forwarding headers
    change the request the next handler sees; the others write headers. *)
From S2P Require Import Prelude GoTime GoText GoDigits GoUrl GoNetip Errors Domain Lockout PendingLogins.
From S2P Require Import World Run Metrics Store Jwt Session TokenService Http.
From Stdlib Require Import Ascii.
#[local] Open Scope Z_scope.
#[local] Open Scope go_scope.

Definition Handler := HttpRequest -> Prog Response.

(** [r.Header.Get], [r.Header.Values] and [r.Header.Del]. *)
Definition hr_Header (r : HttpRequest) (name : string) : string := default "" (first_value name (hr_header r)).
Definition header_values (r : HttpRequest) (name : string) : list string :=
  map snd (List.filter (fun kv => kv.1 ==? name) (hr_header r)).
Definition set_headers (l : list (string * string)) (r : HttpRequest) : HttpRequest := {|
  hr_Method := hr_Method r; hr_URL := hr_URL r; hr_body := hr_body r; hr_multipart := hr_multipart r;
  hr_header := l; hr_cookies := hr_cookies r; hr_RemoteAddr := hr_RemoteAddr r; hr_vars := hr_vars r |}.
Definition header_del (name : string) (r : HttpRequest) : HttpRequest :=
  set_headers (List.filter (fun kv => kv.1 !=? name) (hr_header r)) r.
Definition set_RemoteAddr (addr : string) (r : HttpRequest) : HttpRequest := {|
  hr_Method := hr_Method r; hr_URL := hr_URL r; hr_body := hr_body r; hr_multipart := hr_multipart r;
  hr_header := hr_header r; hr_cookies := hr_cookies r; hr_RemoteAddr := addr; hr_vars := hr_vars r |}.

(** [w.Header().Set], where there is something to set. *)
Definition SetNonempty (name value : string) : Prog unit :=
  if value !=? "" then emit (SetHeader name value) else Ret tt.

(** ** Cross-origin requests *)

Record CORSConfig := {
  co_AllowedOrigins : list string;
  co_AllowCredentials : bool;
  co_AllowedMethods : list string;
  co_AllowedHeaders : list string;
  co_ExposedHeaders : list string;
  co_MaxAge : Z;
}.

Definition DefaultCORSConfig : CORSConfig := {|
  co_AllowedOrigins := []; co_AllowCredentials := true; co_AllowedMethods := ["GET"; "POST"; "OPTIONS"];
  co_AllowedHeaders := ["Authorization"; "Content-Type"; "X-CSRF-Token"]; co_ExposedHeaders := [];
  co_MaxAge := 86400 |}.

Definition StatusNoContent : Z := 204.

(** [allowAll || allowedOrigins[origin]]. *)
Definition origin_allowed (config : CORSConfig) (origin : string) : bool :=
  existsb (fun o => o ==? "*") (co_AllowedOrigins config)
  || existsb (fun o => o ==? origin) (co_AllowedOrigins config).

Definition CORSMiddleware (config : option CORSConfig) (next : Handler) : Handler := fun r =>
  let config := default DefaultCORSConfig config in
  let origin := hr_Header r "Origin" in
  let allowed := (origin !=? "") && origin_allowed config origin in
  let! _ := (if allowed then
      let! _ := emit (SetHeader "Access-Control-Allow-Origin" origin) in
      let! _ := (if co_AllowCredentials config
                 then emit (SetHeader "Access-Control-Allow-Credentials" "true") else Ret tt) in
      SetNonempty "Access-Control-Expose-Headers" (Join (co_ExposedHeaders config) ", ")
    else Ret tt) in
  if hr_Method r ==? "OPTIONS" then
    let! _ := (if allowed then
        let! _ := emit (SetHeader "Access-Control-Allow-Methods" (Join (co_AllowedMethods config) ", ")) in
        let! _ := emit (SetHeader "Access-Control-Allow-Headers" (Join (co_AllowedHeaders config) ", ")) in
        if 0 <? co_MaxAge config
        then emit (SetHeader "Access-Control-Max-Age" (dec (co_MaxAge config))) else Ret tt
      else Ret tt) in
    Ret (Wrote StatusNoContent [] BEmpty)
  else next r.

(** ** Security headers *)

Record SecurityHeadersConfig := {
  sh_ContentSecurityPolicy : string;
  sh_XFrameOptions : string;
  sh_XContentTypeOptions : string;
  sh_ReferrerPolicy : string;
  sh_StrictTransportSecurity : string;
  sh_PermissionsPolicy : string;
  sh_XSSProtection : string;
}.

Definition default_policy : string :=
  "default-src 'self'; style-src 'self' 'unsafe-inline'; img-src 'self' data:; frame-ancestors 'none'; base-uri 'none'; object-src 'none'".

Definition DefaultSecurityHeadersConfig : SecurityHeadersConfig := {|
  sh_ContentSecurityPolicy := default_policy; sh_XFrameOptions := "DENY"; sh_XContentTypeOptions := "nosniff";
  sh_ReferrerPolicy := "strict-origin-when-cross-origin"; sh_StrictTransportSecurity := "";
  sh_PermissionsPolicy := "geolocation=(), microphone=(), camera=()"; sh_XSSProtection := "0" |}.

Section security.
Context `{UnicodeTables}.

(** [tls]: whether [r.TLS] is set. *)
Definition isHTTPS (tls : bool) (r : HttpRequest) : bool :=
  tls || EqualFold (TrimSpace (Cut ","%char (hr_Header r "X-Forwarded-Proto")).1.1) "https".

Definition SecurityHeadersMiddleware (config : option SecurityHeadersConfig) (tls : bool) (next : Handler) : Handler :=
  fun r =>
    let config := default DefaultSecurityHeadersConfig config in
    let! _ := SetNonempty "Content-Security-Policy" (sh_ContentSecurityPolicy config) in
    let! _ := SetNonempty "X-Frame-Options" (sh_XFrameOptions config) in
    let! _ := SetNonempty "X-Content-Type-Options" (sh_XContentTypeOptions config) in
    let! _ := SetNonempty "Referrer-Policy" (sh_ReferrerPolicy config) in
    let! _ := SetNonempty "X-XSS-Protection" (sh_XSSProtection config) in
    let! _ := SetNonempty "Permissions-Policy" (sh_PermissionsPolicy config) in
    let! _ := (if isHTTPS tls r then SetNonempty "Strict-Transport-Security" (sh_StrictTransportSecurity config)
               else Ret tt) in
    next r.
End security.

(** ** The client's address *)

Definition forwardingHeaders : list string :=
  ["X-Forwarded-For"; "X-Forwarded-Proto"; "X-Forwarded-Host"; "X-Real-IP"; "True-Client-IP"].

Definition prefixesContain (prefixes : list Prefix) (addr : Addr) : bool :=
  existsb (fun p => Contains p addr) prefixes.

Definition peerIsTrusted (remoteAddr : string) (trusted : list Prefix) : bool :=
  let host := default remoteAddr (SplitHostPort remoteAddr) in
  match ParseAddr host with
  | Some addr => prefixesContain trusted (Unmap addr)
  | None => false
  end.

(** The hops, in order. *)
Definition forwarded_hops (values : list string) : list string :=
  List.filter (fun h => h !=? "") (map TrimSpace (concat (map (fun v => Split v ","%char) values))).

(** The walk from the right: [hops] is reversed, so that the last of the list
    is the leftmost. *)
Fixpoint walk_hops (trusted : list Prefix) (hops : list string) : option string :=
  match hops with
  | [] => None
  | h :: hops =>
      match ParseAddr h with
      | None => None
      | Some addr =>
          if (match hops with [] => true | _ => false end) || negb (prefixesContain trusted (Unmap addr))
          then Some (Addr_String (Unmap addr))
          else walk_hops trusted hops
      end
  end.

Definition clientFromForwardedFor (values : list string) (trusted : list Prefix) : option string :=
  walk_hops trusted (rev (forwarded_hops values)).

(** The request the next handler sees. *)
Definition real_request (trusted : list Prefix) (r : HttpRequest) : HttpRequest :=
  if (0 <? Z.of_nat (length trusted)) && peerIsTrusted (hr_RemoteAddr r) trusted then
    let r := match clientFromForwardedFor (header_values r "X-Forwarded-For") trusted with
             | Some ip => set_RemoteAddr ip r
             | None => r
             end in
    header_del "True-Client-IP" (header_del "X-Real-IP" r)
  else fold_left (fun r h => header_del h r) forwardingHeaders r.

Definition RealIPFromTrustedProxies (trusted : list Prefix) (next : Handler) : Handler :=
  fun r => next (real_request trusted r).

(** ** internal/metrics/metrics.go: [Middleware] *)

(** The status that reaches the client; a panic is answered further out. *)
Definition response_status (resp : Response) : option Z :=
  match resp with
  | Redirected _ s | Rendered s _ | HttpError s _ _ | Wrote s _ _ => Some s
  | Panicked => None
  end.

Definition metrics_Middleware (next : Handler) : Handler := fun r =>
  let! resp := next r in
  let! _ := (match response_status resp with
             | Some status => RecordRequest (hr_Method r) (u_Path (hr_URL r)) status
             | None => Ret tt
             end) in
  Ret resp.

(** ** What the middleware guarantees

    The address a request is attributed to cannot be chosen by the client;
    a browser is told to share signed-in answers only with listed origins;
    every answer carries the security headers. *)

(** ** Splitting at commas *)

Lemma split_from_app sep cur a b :
  split_from sep cur (a +:+ String sep b) = split_from sep cur a ++ Split b sep.
Proof.
  unfold Split. revert cur. induction a as [|c a IH]; intros cur; simpl.
  - by rewrite Ascii.eqb_refl.
  - destruct (Ascii.eqb c sep); rewrite IH; done.
Qed.

Lemma Split_app sep a b : Split (a +:+ String sep b) sep = Split a sep ++ Split b sep.
Proof. apply split_from_app. Qed.

(** The text of an address that a proxy writes: graphic, without a comma. *)
Definition address_text (h : string) : Prop :=
  h <> "" /\ Forall graphic (bytes h) /\ has_no ","%char h.

Lemma TrimSpace_spaced h : address_text h -> TrimSpace (" " +:+ h) = h.
Proof.
  intros (_ & Hg & _). rewrite <-(TrimSpace_graphic h Hg) at 2. unfold TrimSpace, trim_left. done.
Qed.

(** [hops] appended to a value, each by the proxy it came to. *)
Definition appended (value : string) (hops : list string) : string :=
  fold_left (fun v h => v +:+ ", " +:+ h) hops value.

Lemma forwarded_hops_app l1 l2 : forwarded_hops (l1 ++ l2) = forwarded_hops l1 ++ forwarded_hops l2.
Proof. unfold forwarded_hops. by rewrite map_app, concat_app, map_app, List.filter_app. Qed.

Lemma hops_of_appended value hops :
  Forall address_text hops -> forwarded_hops [appended value hops] = forwarded_hops [value] ++ hops.
Proof.
  unfold appended. intros Hh. revert value. induction Hh as [|h hops Hh Hhops IH]; intros value.
  - by rewrite app_nil_r.
  - cbn [fold_left]. rewrite IH. change (value +:+ ", " +:+ h) with (value +:+ String "," (" " +:+ h)).
    change (h :: hops) with ([h] ++ hops). rewrite app_assoc. f_equal. unfold forwarded_hops. cbn [map concat].
    rewrite !app_nil_r, Split_app, map_app, List.filter_app. f_equal. unfold Split.
    rewrite split_from_no.
    + cbn [map List.filter]. change (EmptyString +:+ (" " +:+ h)) with (" " +:+ h).
      rewrite TrimSpace_spaced by done. destruct Hh as [Hne _]. by rewrite bool_decide_eq_false_2.
    + destruct Hh as (_ & _ & Hno). unfold has_no in *. cbn [bytes String.append]. set_solver by lia.
Qed.

(** ** The walk *)

Section walk.
Context (trusted : list Prefix).

Definition trusted_hop (h : string) : Prop :=
  exists a, ParseAddr h = Some a /\ prefixesContain trusted (Unmap a) = true.

Lemma walk_trusted proxies h rest :
  Forall trusted_hop proxies -> walk_hops trusted (proxies ++ h :: rest) = walk_hops trusted (h :: rest).
Proof.
  induction 1 as [|p proxies (a & Ha & Ht) _ IH]; [done|]. rewrite <-IH. cbn [app walk_hops].
  rewrite Ha, Ht. by destruct proxies.
Qed.

Lemma walk_stops h a rest :
  ParseAddr h = Some a -> prefixesContain trusted (Unmap a) = false ->
  walk_hops trusted (h :: rest) = Some (Addr_String (Unmap a)).
Proof. intros Ha Ht. cbn. by rewrite Ha, Ht, orb_true_r. Qed.

Lemma client_of_appended values value h a proxies :
  Forall address_text (h :: proxies) -> ParseAddr h = Some a -> prefixesContain trusted (Unmap a) = false ->
  Forall trusted_hop proxies ->
  clientFromForwardedFor (values ++ [appended value (h :: proxies)]) trusted = Some (Addr_String (Unmap a)).
Proof.
  intros Htext Ha Ht Hp. unfold clientFromForwardedFor.
  rewrite forwarded_hops_app, hops_of_appended, !rev_app_distr by done. cbn [rev].
  rewrite <-!app_assoc. cbn [app]. rewrite walk_trusted by (by apply Forall_rev). by apply walk_stops.
Qed.
End walk.

(** ** Headers *)

Lemma first_value_del name l : first_value name (List.filter (fun kv => kv.1 !=? name) l) = None.
Proof.
  unfold first_value. rewrite (proj2 (find_first_None _ _)); [done|]. intros [k v] Hx.
  apply list_elem_of_In, filter_In in Hx as [_ Hx]. cbn in *. bool_to_prop. by apply bool_decide_eq_false_2.
Qed.

Lemma first_value_filter p name l :
  first_value name l = None -> first_value name (List.filter p l) = None.
Proof.
  unfold first_value. destruct (find_first _ l) eqn:E; [done|]. intros _. rewrite find_first_None in E.
  rewrite (proj2 (find_first_None _ _)); [done|]. intros x Hx. apply list_elem_of_In, filter_In in Hx as [Hx _].
  by apply E, list_elem_of_In.
Qed.

Lemma header_del_keeps_absent names name r :
  first_value name (hr_header r) = None ->
  first_value name (hr_header (fold_left (fun r h => header_del h r) names r)) = None.
Proof.
  revert r. induction names as [|n names IH]; intros r Hn; [done|]. apply IH. by apply first_value_filter.
Qed.

Lemma deleted_headers names r name :
  name ∈ names -> first_value name (hr_header (fold_left (fun r h => header_del h r) names r)) = None.
Proof.
  revert r. induction names as [|n names IH]; intros r; [set_solver|].
  intros [->|Hin]%elem_of_cons; [|by apply IH].
  apply (header_del_keeps_absent names n (header_del n r)). apply first_value_del.
Qed.

(** ** The client's address *)

(** Claim C18.  A client cannot choose the address its requests are attributed
    to.  From a peer that is no trusted proxy, the address is the peer's and
    every forwarding header is dropped.  From a trusted proxy, whatever the
    client wrote into X-Forwarded-For before ([values] and [value]), the
    address is the one [h] that the first trusted proxy saw, with the trusted
    proxies it passed afterwards skipped, and the headers that are never
    believed are dropped. *)
Theorem client_address_unspoofable trusted r :
  (peerIsTrusted (hr_RemoteAddr r) trusted = false ->
   hr_RemoteAddr (real_request trusted r) = hr_RemoteAddr r /\
   forall name, name ∈ forwardingHeaders -> first_value name (hr_header (real_request trusted r)) = None) /\
  (peerIsTrusted (hr_RemoteAddr r) trusted = true ->
   (forall values value h a proxies,
      header_values r "X-Forwarded-For" = values ++ [appended value (h :: proxies)] ->
      Forall address_text (h :: proxies) -> ParseAddr h = Some a ->
      prefixesContain trusted (Unmap a) = false -> Forall (trusted_hop trusted) proxies ->
      hr_RemoteAddr (real_request trusted r) = Addr_String (Unmap a)) /\
   forall name, name ∈ ["X-Real-IP"; "True-Client-IP"] ->
     first_value name (hr_header (real_request trusted r)) = None).
Proof.
  unfold real_request. split; intros Hpeer; rewrite Hpeer.
  - rewrite andb_false_r. split; [|intros name; apply deleted_headers].
    generalize forwardingHeaders. intros names. revert r Hpeer.
    induction names as [|n names IH]; intros r Hpeer; [done|]. cbn [fold_left]. by rewrite IH.
  - assert (0 <? Z.of_nat (length trusted) = true) as ->.
    { apply Z.ltb_lt. destruct trusted; [|cbn; lia]. exfalso. revert Hpeer. unfold peerIsTrusted. by destruct (ParseAddr _). }
    cbn [andb]. split.
    + intros values value h a proxies Hv Htext Ha Ht Hp. rewrite Hv, (client_of_appended trusted values value h a) by done.
      done.
    + set (r1 := match _ with Some _ => _ | None => _ end). intros name [->|[->|[]%elem_of_nil]%elem_of_cons]%elem_of_cons.
      * apply (first_value_filter _ "X-Real-IP"). apply first_value_del.
      * apply first_value_del.
Qed.

(** ** Cross-origin requests *)

Lemma origin_allowed_spec c origin :
  origin_allowed c origin = true <-> "*" ∈ co_AllowedOrigins c \/ origin ∈ co_AllowedOrigins c.
Proof.
  unfold origin_allowed. rewrite orb_true_iff, !existsb_exists.
  split; (intros [H|H]; [left|right]).
  1,2: destruct H as (x & Hx & Heq); apply bool_decide_eq_true in Heq as <-; by apply list_elem_of_In.
  all: eexists; split; [by apply list_elem_of_In|by apply bool_decide_eq_true].
Qed.

(** Of an origin that is not allowed, the middleware tells the browser
    nothing. *)
Lemma cors_silent c next r :
  origin_allowed c (hr_Header r "Origin") = false ->
  CORSMiddleware (Some c) next r =
  if hr_Method r ==? "OPTIONS" then Ret (Wrote StatusNoContent [] BEmpty) else next r.
Proof. intros Ho. unfold CORSMiddleware. cbv zeta. change (default DefaultCORSConfig (Some c)) with c. by rewrite Ho, andb_false_r. Qed.

(** ** An IPv6 client in the audit log

    The address of a client behind a trusted proxy has no port.  The session
    records it whole; the audit log drops its last group. *)

Definition proxied_request (client : string) : HttpRequest := {|
  hr_Method := "GET"; hr_URL := {| u_Scheme := ""; u_Opaque := ""; u_User := None; u_Host := ""; u_Path := "/";
    u_RawPath := ""; u_OmitHost := false; u_ForceQuery := false; u_RawQuery := ""; u_Fragment := ""; u_RawFragment := "" |};
  hr_body := Ok None; hr_multipart := []; hr_header := [("X-Forwarded-For", client)]; hr_cookies := [];
  hr_RemoteAddr := "10.0.0.1:4711"; hr_vars := [] |}.

Lemma ipv6_client_truncated :
  let r := real_request [PrefixFrom (Addr4 0x0A000000) 8] (proxied_request "2001:db8::7") in
  hr_RemoteAddr r = "2001:db8::7" /\ getClientIP (with_form [] r) = "2001:db8::7" /\
  ClientIP (with_form [] r) = "2001:db8:".
Proof. vm_compute. done. Qed.
