(* ===== verification/OidcHandlers.v ===== *)
(** * internal/http/oidc.go: the OpenID Connect endpoints

    Authorize, Consent, Token, UserInfo, Revoke and Introspect.  The request
    travels between /authorize, the login page and the consent form as an
    encoded query string. *)
From S2P Require Import Prelude GoTime GoText GoUrl Errors Domain Lockout PendingLogins.
From S2P Require Import World Run Store Password Jwt Keys Csrf Session AuthService Authorize TokenService Http Metrics.
#[local] Open Scope Z_scope.
#[local] Open Scope go_scope.

(** [oh_consent] tells whether the consent service is configured. *)
Record OIDCHandler := {
  oh_auth : Service;
  oh_codeTTL : Z;
  oh_consent : bool;
  oh_tokens : TokenService;
  oh_audit : bool;
}.

(** ** The query, carried on *)

(** [withoutPrompt] of the request URL [path?query]. *)
Definition withoutPrompt (path query : string) (values : list string) : string :=
  let q := (ParseQuery query).1 in
  let kept := List.filter (fun p => negb (existsb (fun v => v ==? p) values))
                (Fields (Values_Get q "prompt")) in
  let q := match kept with
           | [] => Values_Del "prompt" q
           | _ => Values_Set "prompt" (Join kept " ") q
           end in
  path +:+ "?" +:+ Values_Encode q.

Definition withoutParams (pathAndQuery : string) (names : list string) : string :=
  match Parse pathAndQuery with
  | None => pathAndQuery
  | Some u => u_Path u +:+ "?" +:+ Values_Encode (foldl (fun q n => Values_Del n q) (Query u) names)
  end.

(** ** Errors *)

Definition redirectError (req : AuthorizeRequest) (code desc : string) : Response :=
  match BuildErrorResponse (ar_RedirectURI req) code desc (ar_State req) with
  | Some url => Redirected url StatusFound
  | None => Panicked
  end.

(** [renderAuthError] without a redirect URI, as every caller calls it. *)
Definition renderAuthError (errorDesc : string) : Response :=
  Rendered StatusBadRequest (ErrorPage "Authorization Error" errorDesc).

Definition authorizeFailed (req : AuthorizeRequest) (e : error) : Response :=
  match as_redirect_error e with
  | Some (code, desc) => redirectError req code desc
  | None =>
      if IsCode e CodeInvalidInput then
        renderAuthError (default "invalid request" (direct_message e))
      else Rendered StatusInternalServerError (ErrorPage "Authorization Error" "internal error")
  end.

Definition writeTokenError (errorCode errorDesc : string) (status : Z) : Response :=
  Wrote status (json_header :: no_store)
    (BStrings [("error", errorCode); ("error_description", errorDesc)]).

Section handlers.
Context `{Store} `{UnicodeTables} `{KeyLib} `{JwtLib} `{Argon2} (h : OIDCHandler).

(** ** Authorization *)

Definition issueCode (req : AuthorizeRequest) (userID : string) (authTime : Z) (amr : list string)
    : Prog Response :=
  let! r := CreateAuthCode (oh_codeTTL h) req userID authTime amr in
  match r with
  | Err _ => Ret (redirectError req "server_error" "failed to create authorization code")
  | Ok code =>
      Ret (match BuildAuthorizationResponse (ar_RedirectURI req) (ac_Code code) (ar_State req) with
           | Some url => Redirected url StatusFound
           | None => Panicked
           end)
  end.

Definition renderConsent (req : AuthorizeRequest) (authorizeQuery : string) (client : Client)
    (userEmail : string) : Prog Response :=
  let! r := GenerateToken (as_csrf (oh_auth h)) in
  match r with
  | Err _ => server_error
  | Ok csrfToken =>
      Ret (Rendered StatusOK (ConsentForm {|
        cp_CSRFToken := csrfToken; cp_AuthorizeQuery := authorizeQuery; cp_ClientID := client_ID client;
        cp_ClientName := if client_Name client ==? "" then client_ID client else client_Name client;
        cp_UserEmail := userEmail;
        cp_Scopes := map (fun s => (s, ScopeDescription s)) (Scopes req) |}))
  end.

(** Signing in again: the session is dropped, and the prompts and [max_age]
    the new sign-in satisfies are taken out of the request. *)
Definition to_login (r : Request) (path query : string) (signed_in : bool) : Prog Response :=
  let! _ := (if signed_in then ignore (Logout (oh_auth h) r) else Ret tt) in
  found ("/login?return_url=" +:+ QueryEscape
    (withoutParams (withoutPrompt path query ["login"; "select_account"]) ["max_age"])).

(** Whether the user has granted the client what it asks for; [None] after an
    error has been reported. *)
Definition check_consent (req : AuthorizeRequest) (client : Client) (user : User) (query : string)
    (k : Prog Response) : Prog Response :=
  if negb (oh_consent h) then k
  else
    let! g := IsGranted (user_ID user) client (Scopes req) in
    match g with
    | Err _ => Ret (redirectError req "server_error" "failed to check consent")
    | Ok granted =>
        if negb granted || HasPrompt req "consent" then
          if HasPrompt req "none" then
            Ret (redirectError req "consent_required" "user consent is required")
          else renderConsent req query client (user_Email user)
        else k
    end.

(** The authorization request [params], received at [path]. *)
Definition authorize_request (r : Request) (path : string) (params : Values) : Prog Response :=
  let query := Values_Encode params in
  match ParseAuthorizeQuery params with
  | Err e => Ret (renderAuthError (Error_string e))
  | Ok req =>
      let! v := ValidateClient req in
      match v with
      | Err e => Ret (authorizeFailed req e)
      | Ok (client, req) =>
          let! s := CurrentSession r in
          let! t := now in
          let fresh := match s with
                       | Ok (session, _) => negb (RequiresFreshLogin t req (session_CreatedAt session))
                       | Err _ => false
                       end in
          match s with
          | Ok (session, user) =>
              if fresh then
                check_consent req client user query
                  (issueCode req (user_ID user) (session_CreatedAt session) (session_AMR session))
              else if HasPrompt req "none" then
                Ret (redirectError req "login_required" "user is not authenticated")
              else to_login r path query true
          | Err _ =>
              if HasPrompt req "none" then
                Ret (redirectError req "login_required" "user is not authenticated")
              else to_login r path query false
          end
      end
  end.

Definition Authorize (r : HttpRequest) : Prog Response :=
  let '(rq, ok) := ParseForm r in
  if hr_Method r ==? "POST" then
    if negb ok then Ret (renderAuthError "invalid form data")
    else authorize_request rq (u_Path (hr_URL r)) (PostForm r).1
  else authorize_request rq (u_Path (hr_URL r)) (Query (hr_URL r)).

(** ** The consent form *)

Definition client_event (user : User) (action clientID detail ip : string) : Event := {|
  e_Actor := Some user; e_ActorEmail := ""; e_Action := action; e_TargetType := "client";
  e_TargetID := clientID; e_Detail := detail; e_IP := ip |}.

(** The user allowed the client: record it and issue the code. *)
Definition consent_allowed (r : Request) (req : AuthorizeRequest) (client : Client)
    (session : Session) (user : User) : Prog Response :=
  let! g := (if oh_consent h then Grant (user_ID user) (client_ID client) (Scopes req) else ret_ok tt) in
  match g with
  | Err _ => Ret (redirectError req "server_error" "failed to record consent")
  | Ok _ =>
      let! _ := RecordEvent (oh_audit h)
        (client_event user "consent.granted" (client_ID client) (ar_Scope req) (ClientIP r)) in
      issueCode req (user_ID user) (session_CreatedAt session) (session_AMR session)
  end.

Definition consent_decision (r : Request) (query : Values) (req : AuthorizeRequest) (client : Client)
    : Prog Response :=
  let! s := CurrentSession r in
  match s with
  | Err _ => found ("/login?return_url=" +:+ QueryEscape ("/authorize?" +:+ Values_Encode query))
  | Ok (session, user) =>
      let! t := now in
      if (0 <=? ar_MaxAge req) && RequiresFreshLogin t req (session_CreatedAt session) then
        found ("/authorize?" +:+ Values_Encode query)
      else if FormValue r "action" !=? "allow" then
        let! _ := RecordEvent (oh_audit h)
          (client_event user "consent.denied" (client_ID client) (ar_Scope req) (ClientIP r)) in
        Ret (redirectError req "access_denied" "user denied the request")
      else consent_allowed r req client session user
  end.

Definition Consent_handler (r : HttpRequest) : Prog Response :=
  let '(rq, ok) := ParseForm r in
  if negb ok then Ret (renderAuthError "invalid form data")
  else
    let! v := ValidateToken (as_csrf (oh_auth h)) rq in
    match v with
    | Err _ => Ret (renderAuthError "invalid or expired form, please try again")
    | Ok _ =>
        let '(query, ok) := ParseQuery (FormValue rq "authorize_query") in
        if negb ok then Ret (renderAuthError "invalid authorization request")
        else match ParseAuthorizeQuery query with
        | Err e => Ret (renderAuthError (Error_string e))
        | Ok req =>
            let! v := ValidateClient req in
            match v with
            | Err e => Ret (authorizeFailed req e)
            | Ok (client, req) => consent_decision rq query req client
            end
        end
    end.

(** ** Tokens *)

Definition method_must_be_post : Response :=
  writeTokenError "invalid_request" "method must be POST" StatusMethodNotAllowed.

(** A request parsed after [r.ParseForm()]. *)
Definition parsed_form {A} (r : HttpRequest) (parse : Request -> res A) : res A :=
  let '(rq, ok) := ParseForm r in
  if negb ok then Err (InvalidInput "invalid form data") else parse rq.

Definition Token_handler (r : HttpRequest) : Prog Response :=
  if hr_Method r !=? "POST" then Ret method_must_be_post
  else match parsed_form r ParseTokenRequest with
  | Err e => Ret (writeTokenError "invalid_request" (Error_string e) StatusBadRequest)
  | Ok req =>
      let answer p :=
        let! a := p in
        Ret (match a with
             | Err e =>
                 let '(code, status) := token_error e in
                 writeTokenError code (default "request failed" (direct_message e)) status
             | Ok response => Wrote StatusOK (json_header :: no_store) (BTokens response)
             end) in
      if tr_GrantType req ==? "authorization_code" then
        answer (HandleAuthorizationCode (oh_tokens h) req)
      else if tr_GrantType req ==? "refresh_token" then answer (HandleRefreshToken (oh_tokens h) req)
      else Ret (writeTokenError "unsupported_grant_type" "grant_type not supported" StatusBadRequest)
  end.

(** The bearer token of a userinfo request: the Authorization header or, for
    a form without one, the [access_token] field. *)
Definition bearer_token (r : HttpRequest) : res string :=
  let authorization := Header (parsed r) "Authorization" in
  match ExtractBearerToken authorization with
  | Ok token => Ok token
  | Err e =>
      if (authorization ==? "") && (hr_Method r ==? "POST")
         && HasPrefix (Header (parsed r) "Content-Type") "application/x-www-form-urlencoded"
         && (ParseForm r).2 && (Values_Get (PostForm r).1 "access_token" !=? "")
      then Ok (Values_Get (PostForm r).1 "access_token")
      else Err e
  end.

Definition challenge (value : string) : Response :=
  HttpError StatusUnauthorized [("WWW-Authenticate", value)] "Unauthorized".
(** The challenge that names the error, with its quotes. *)
Definition invalid_token_challenge : string :=
  "Bearer error=" +:+ of_bytes [34] +:+ "invalid_token" +:+ of_bytes [34].

Definition UserInfo (r : HttpRequest) : Prog Response :=
  if (hr_Method r !=? "GET") && (hr_Method r !=? "POST") then
    Ret (HttpError StatusMethodNotAllowed [] "Method Not Allowed")
  else match bearer_token r with
  | Err _ =>
      Ret (challenge (if Header (parsed r) "Authorization" ==? "" then "Bearer" else invalid_token_challenge))
  | Ok token =>
      let! u := GetUserInfo (oh_tokens h) token in
      Ret (match u with
           | Err _ => challenge invalid_token_challenge
           | Ok info => Wrote StatusOK [json_header] (BUserInfo info)
           end)
  end.

Definition Revoke (r : HttpRequest) : Prog Response :=
  if hr_Method r !=? "POST" then Ret method_must_be_post
  else match parsed_form r ParseRevocationRequest with
  | Err e => Ret (writeTokenError "invalid_request" (Error_string e) StatusBadRequest)
  | Ok req =>
      let! a := HandleRevocation (oh_tokens h) req in
      Ret (match a with
           | Err e =>
               if IsCode e CodeUnauthorized then
                 writeTokenError "invalid_client" "invalid client credentials" StatusUnauthorized
               else Wrote StatusOK no_store BEmpty
           | Ok _ => Wrote StatusOK no_store BEmpty
           end)
  end.

Definition Introspect (r : HttpRequest) : Prog Response :=
  if hr_Method r !=? "POST" then Ret method_must_be_post
  else match parsed_form r ParseIntrospectionRequest with
  | Err e => Ret (writeTokenError "invalid_request" (Error_string e) StatusBadRequest)
  | Ok req =>
      let! a := HandleIntrospection (oh_tokens h) req in
      Ret (match a with
           | Err e =>
               if IsCode e CodeUnauthorized then
                 writeTokenError "invalid_client" "client authentication required" StatusUnauthorized
               else writeTokenError "server_error" "introspection failed" StatusInternalServerError
           | Ok response => Wrote StatusOK (json_header :: no_store) (BIntrospection response)
           end)
  end.
End handlers.
