(* ===== verification/LoginHandlers.v ===== *)
(** * internal/http/login.go and the login part of passkeys.go

    The password form, the second step, logout, and the JSON endpoints for a
    passkey.  [lh_forgotPasswordURL] is linked from the form when it is set;
    [lh_postLogout] is the token service that resolves redirect URIs of
    clients, when there is one. *)
From S2P Require Import Prelude GoTime GoText GoUrl Errors Domain Lockout PendingLogins.
From S2P Require Import World Run Store Password Jwt Keys Csrf Session AuthService Passkeys Authorize TokenService.
From S2P Require Import Http Metrics.
From Stdlib Require Import Ascii.
#[local] Open Scope Z_scope.
#[local] Open Scope go_scope.

Record LoginHandler := {
  lh_auth : Service;
  lh_wa : bool;
  lh_forgotPasswordURL : string;
  lh_postLogout : option TokenService;
}.

(** [strings.ContainsAny(s, chars)], for ASCII [chars]. *)
Definition ContainsAny (s : string) (chars : list ascii) : bool := existsb (fun c => has_char c s) chars.

Definition isValidReturnURL (returnURL : string) : bool :=
  match returnURL with
  | String c rest =>
      Ascii.eqb c "/"%char
      && match rest with
         | String d _ => negb (Ascii.eqb d "/"%char || Ascii.eqb d "\"%char)
         | EmptyString => true
         end
      && negb (ContainsAny returnURL ["\"%char; Ascii.ascii_of_nat 13; Ascii.ascii_of_nat 10])
      && match Parse returnURL with
         | Some u => (u_Scheme u ==? "") && (u_Host u ==? "") && bool_decide (u_User u = None)
         | None => false
         end
  | EmptyString => false
  end.

(** Where to go after signing in. *)
Definition return_target (returnURL : string) : string :=
  if (returnURL ==? "") || negb (isValidReturnURL returnURL) then "/" else returnURL.

Definition locked_text :=
  "Account is temporarily locked due to too many failed attempts. Please try again later.".
Definition expired_text := "Your sign-in expired. Please enter your password again.".

Definition is_locked_message (e : error) : bool :=
  match direct_message e with Some m => m ==? "account is temporarily locked" | None => false end.

Section handlers.
Context `{Store} `{UnicodeTables} `{KeyLib} `{JwtLib} `{Argon2} `{WebAuthn} (h : LoginHandler).

(** ** Pages *)

Definition login_page (csrf returnURL error message : string) : Page := LoginForm {|
  lp_CSRFToken := csrf; lp_ReturnURL := returnURL; lp_Error := error; lp_Message := message;
  lp_ForgotPasswordURL := lh_forgotPasswordURL h; lp_HasTOTP := false; lp_HasPasskeys := false |}.

(** The cookie is set even if the error is ignored: there is none then. *)
Definition renderLoginError (errMsg returnURL : string) : Prog Response :=
  let! t := GenerateToken (as_csrf (lh_auth h)) in
  let csrf := match t with Ok t => t | Err _ => "" end in
  Ret (Rendered StatusUnauthorized (login_page csrf returnURL errMsg "")).

Definition renderCodePage (r : Request) (status : Z) (returnURL errMsg : string) : Prog Response :=
  let! t := GenerateToken (as_csrf (lh_auth h)) in
  match t with
  | Err _ => server_error
  | Ok csrf =>
      let! totp := PendingLoginHasTOTP r in
      let! passkeys := PendingLoginHasPasskeys (lh_auth h) (lh_wa h) r in
      Ret (Rendered status (CodeForm {|
        lp_CSRFToken := csrf; lp_ReturnURL := returnURL; lp_Error := errMsg; lp_Message := "";
        lp_ForgotPasswordURL := ""; lp_HasTOTP := totp; lp_HasPasskeys := passkeys |}))
  end.

(** The query of the password form a login starts over at. *)
Definition restart_query (returnURL : string) : Values :=
  let q := [("message", expired_text)] in
  if (returnURL !=? "") && isValidReturnURL returnURL then Values_Set "return_url" returnURL q else q.

Definition restartLogin (returnURL : string) : Prog Response :=
  found ("/login?" +:+ Values_Encode (restart_query returnURL)).

(** ** The password form *)

Definition LoginPage (r : HttpRequest) : Prog Response :=
  let rq := with_form [] r in
  let! signed_in := IsAuthenticated rq in
  if signed_in : bool then found (return_target (url_query r "return_url"))
  else
    let! t := GenerateToken (as_csrf (lh_auth h)) in
    match t with
    | Err _ => server_error
    | Ok csrf =>
        Ret (Rendered StatusOK (login_page csrf (url_query r "return_url") "" (url_query r "message")))
    end.

Definition login_failure (e : error) : string :=
  if IsCode e CodeForbidden then
    if is_locked_message e then locked_text else "Invalid request. Please try again."
  else "Invalid email or password".

Definition Login_handler (r : HttpRequest) : Prog Response :=
  let '(rq, ok) := ParseForm r in
  let returnURL := FormValue rq "return_url" in
  if negb ok then renderLoginError "Invalid form data" returnURL
  else
    let email := FormValue rq "email" in
    let password := FormValue rq "password" in
    if (email ==? "") || (password ==? "") then
      renderLoginError "Email and password are required" returnURL
    else
      let! a := Login (lh_auth h) rq email password in
      match a with
      | Err e =>
          if errors_Is e ErrSecondFactorRequired then
            found ("/login/code" +:+ (if (returnURL !=? "") && isValidReturnURL returnURL
                                      then "?return_url=" +:+ QueryEscape returnURL else ""))
          else renderLoginError (login_failure e) returnURL
      | Ok _ => found (return_target returnURL)
      end.

(** ** Logout *)

Definition resolvePostLogoutRedirect (r : Request) (uri state : string) : Prog (res string) :=
  if isValidReturnURL uri then
    if state !=? "" then
      match with_state uri state with
      | Some url => ret_ok url
      | None => ret_err (Plain "invalid URL")
      end
    else ret_ok uri
  else match lh_postLogout h with
  | None => ret_err (Plain "only same-origin paths are allowed")
  | Some ts =>
      PostLogoutRedirect ts (FormValue r "id_token_hint") (FormValue r "client_id") uri state
  end.

Definition Logout_handler (r : HttpRequest) : Prog Response :=
  let rq := parsed_lazily r in
  let! _ := Logout (lh_auth h) rq in
  let uri := FormValue rq "post_logout_redirect_uri" in
  if uri !=? "" then
    let! u := resolvePostLogoutRedirect rq uri (FormValue rq "state") in
    match u with
    | Ok url => found url
    | Err _ => found "/login"
    end
  else found "/login".

(** ** The second step *)

Definition CodePage (r : HttpRequest) : Prog Response :=
  let returnURL := url_query r "return_url" in
  let! pending := HasPendingLogin (with_form [] r) in
  if negb pending then restartLogin returnURL
  else renderCodePage (with_form [] r) StatusOK returnURL "".

Definition Code (r : HttpRequest) : Prog Response :=
  let rq := parsed_lazily r in
  let returnURL := FormValue rq "return_url" in
  let! a := CompleteSecondFactor (lh_auth h) rq (FormValue rq "code") in
  match a with
  | Err e =>
      if errors_Is e ErrInvalidCode then
        renderCodePage rq StatusUnauthorized returnURL
          "That code is not valid. Check the time on your device, or use a recovery code."
      else if errors_Is e ErrPendingLoginExpired then restartLogin returnURL
      else if IsCode e CodeForbidden then
        renderCodePage rq StatusForbidden returnURL
          (if is_locked_message e then locked_text else "Invalid request. Please try again.")
      else server_error
  | Ok _ => found (return_target returnURL)
  end.

(** ** Passkeys *)

Definition json_no_store : list (string * string) := [json_header; ("Cache-Control", "no-store")].
Definition writeJSON (status : Z) (b : Body) : Response := Wrote status json_no_store b.
Definition passkeyError (status : Z) (msg : string) : Response := writeJSON status (BStrings [("error", msg)]).

Definition isLockedError (e : error) : bool :=
  match as_Error e with
  | Some (c, m) => (c ==? CodeForbidden) && (m ==? "account is temporarily locked")
  | None => false
  end.

Definition lockedMessage := "Too many failed attempts. Please try again later.".

Definition passkeyFailure (e : error) : Response :=
  if errors_Is e ErrInvalidPassword then
    passkeyError StatusBadRequest "Your current password is incorrect."
  else if errors_Is e ErrAccountLocked then passkeyError StatusForbidden lockedMessage
  else if errors_Is e ErrPasskeyCeremony then
    passkeyError StatusBadRequest "That took too long. Please try again."
  else if errors_Is e ErrPasskeysUnavailable then
    passkeyError StatusNotFound "Passkeys are not available on this server."
  else if IsCode e CodeForbidden then
    passkeyError StatusForbidden "This page has expired. Reload it and try again."
  else if IsCode e CodeInvalidInput || IsCode e CodeAlreadyExists then
    passkeyError StatusBadRequest
      (match direct_message e with
       | Some m => if IsCode e CodeInvalidInput then "The passkey could not be added: " +:+ m +:+ "."
                   else "The passkey could not be added."
       | None => "The passkey could not be added."
       end)
  else passkeyError StatusInternalServerError "Something went wrong. Please try again.".

Definition PasskeyBegin (r : HttpRequest) : Prog Response :=
  let! a := BeginPasskeyLogin (lh_auth h) (lh_wa h) (parsed_lazily r) in
  Ret (match a with
       | Err e =>
           if errors_Is e ErrPendingLoginExpired then
             writeJSON StatusUnauthorized (BStrings [("error", "Your sign-in expired."); ("redirect", "/login")])
           else passkeyFailure e
       | Ok assertion => writeJSON StatusOK (BJson assertion)
       end).

(** The body of a passkey request is cut off at 64 KiB. *)
Definition PasskeyFinish (r : HttpRequest) : Prog Response :=
  let '(rq, ok) := ParseForm (limited r) in
  if negb ok then Ret (passkeyError StatusBadRequest "Invalid request.")
  else
    let returnURL := FormValue rq "return_url" in
    let! a := CompletePasskeyLogin (lh_auth h) (lh_wa h) rq (FormValue rq "credential") in
    Ret (match a with
         | Err e =>
             if errors_Is e ErrInvalidCode then
               passkeyError StatusUnauthorized "That passkey was not accepted. Try again, or use a code."
             else if errors_Is e ErrPendingLoginExpired then
               writeJSON StatusUnauthorized (BStrings [("error", "Your sign-in expired.");
                 ("redirect", "/login?" +:+ Values_Encode (restart_query returnURL))])
             else if isLockedError e then passkeyError StatusForbidden locked_text
             else passkeyFailure e
         | Ok _ => writeJSON StatusOK (BStrings [("redirect", return_target returnURL)])
         end).
End handlers.
