(* ===== verification/ClientForm.v ===== *)
(** * The client form of the admin pages

    [ValidateRedirectURI] of internal/domain, and from internal/http/admin.go
    the parts of the client form that compute: lifetimes as people type them,
    one redirect URI per line, and [applyClientForm], which copies the form
    onto a client and says what is wrong with it. *)
From S2P Require Import Prelude GoTime GoText GoDigits Encoding GoUrl GoDuration Errors Domain.
From S2P Require Import Lockout PendingLogins World.
From Stdlib Require Import Ascii.
From Stdlib Require Import Ascii SpecFloat.
#[local] Open Scope Z_scope.
#[local] Open Scope go_scope.

(** ** Lines *)

(** [strings.ReplaceAll(s, "\r\n", "\n")]. *)
Fixpoint unix_lines (l : list Z) : list Z :=
  match l with
  | 13 :: (10 :: l) as l' => 10 :: unix_lines l
  | c :: l => c :: unix_lines l
  | [] => []
  end.

Definition splitLines (s : string) : list string :=
  List.filter (fun line => negb (line ==? ""))
    (map TrimSpace (Split (of_bytes (unix_lines (bytes s))) (ascii_of_nat 10))).

Section forms.
Context `{UnicodeTables}.

(** ** Redirect URIs *)

Definition forbidden_schemes := ["javascript"; "data"; "vbscript"; "file"; "blob"].

Definition ValidateRedirectURI (raw : string) : res unit :=
  let problem text := Err (Plain ("redirect URI " +:+ Quote raw +:+ text)) in
  match Parse raw with
  | None => problem " must be an absolute URI"
  | Some u =>
      if u_Scheme u ==? "" then problem " must be an absolute URI"
      else if (u_Fragment u !=? "") || has_char "#"%char raw then problem " must not contain a fragment"
      else
        let scheme := ToLower (u_Scheme u) in
        if existsb (fun s => s ==? scheme) forbidden_schemes then problem " uses a forbidden scheme"
        else if ((scheme ==? "http") || (scheme ==? "https")) && (u_Host u ==? "") then
          problem " has no host"
        else Ok tt
  end.

(** ** Lifetimes *)

(** The duration, and what is wrong with the field. *)
Definition parseTTLField (value : string) : Z * string :=
  let value := TrimSpace value in
  if value ==? "" then (0, "")
  else match CutSuffix value "d" with
  | Some days =>
      match Atoi days with
      | Some n => if n <=? 0 then (0, "Invalid duration: " +:+ value)
                  else (wrap64 (wrap64 (n * 24) * Hour), "")
      | None => (0, "Invalid duration: " +:+ value)
      end
  | None =>
      match ParseDuration value with
      | Some d => if d <=? 0 then (0, "Invalid duration: " +:+ value +:+ " (use e.g. 15m, 12h, 7d)")
                  else (d, "")
      | None => (0, "Invalid duration: " +:+ value +:+ " (use e.g. 15m, 12h, 7d)")
      end
  end.

Definition ttlForm (d : Z) : string :=
  if d <=? 0 then ""
  else if d mod (24 * Hour) =? 0 then dec (d / (24 * Hour)) +:+ "d"
  else if d mod Hour =? 0 then dec (d / Hour) +:+ "h"
  else if d mod Minute =? 0 then dec (d / Minute) +:+ "m"
  else Duration_String d.

(** ** The form *)

Definition defaultClientScopes := ["openid"; "profile"; "email"; "offline_access"; "groups"].
Definition defaultClientGrantTypes := ["authorization_code"; "refresh_token"].

(** The fields the form assigns first, checked or not. *)
Definition client_from_form (r : Request) (c : Client) : Client := {|
  client_ID := client_ID c; client_Secret := client_Secret c; client_Name := TrimSpace (FormValue r "name");
  client_RedirectURIs := splitLines (FormValue r "redirect_uris");
  client_GrantTypes := Fields (FormValue r "grant_types"); client_Scopes := Fields (FormValue r "scopes");
  client_Public := FormValue r "public" ==? "1"; client_SkipConsent := FormValue r "skip_consent" ==? "1";
  client_MinimalIDToken := FormValue r "minimal_id_token" ==? "1";
  client_AccessTokenTTL := client_AccessTokenTTL c; client_RefreshTokenTTL := client_RefreshTokenTTL c;
  client_CreatedAt := client_CreatedAt c; client_UpdatedAt := client_UpdatedAt c |}.

Definition client_set_defaults (c : Client) : Client :=
  let '(Build_Client i s n uris grants scopes p k m a r cr up) := c in
  Build_Client i s n uris
    (match grants with [] => defaultClientGrantTypes | _ => grants end)
    (match scopes with [] => defaultClientScopes | _ => scopes end) p k m a r cr up.
Definition client_set_access_ttl (ttl : Z) (c : Client) : Client :=
  let '(Build_Client i s n u g sc p k m _ r cr up) := c in Build_Client i s n u g sc p k m ttl r cr up.
Definition client_set_refresh_ttl (ttl : Z) (c : Client) : Client :=
  let '(Build_Client i s n u g sc p k m a _ cr up) := c in Build_Client i s n u g sc p k m a ttl cr up.

(** What is wrong with one redirect URI. *)
Definition redirect_uri_problem (uri : string) : option string :=
  match Parse uri with
  | None => Some ("Invalid redirect URI: " +:+ uri)
  | Some u =>
      if (u_Scheme u ==? "") || ((u_Host u ==? "") && (u_Scheme u !=? "urn")) then
        Some ("Invalid redirect URI: " +:+ uri)
      else match ValidateRedirectURI uri with
      | Err e => Some ("Invalid redirect URI: " +:+ Error_string e)
      | Ok _ => None
      end
  end.

Definition grant_problem (g : string) : option string :=
  if (g !=? "authorization_code") && (g !=? "refresh_token") then
    Some ("Unsupported grant type " +:+ g +:+ " (authorization_code, refresh_token)")
  else None.

(** The first problem of a list. *)
Fixpoint first_problem (p : string -> option string) (l : list string) : option string :=
  match l with
  | [] => None
  | x :: l => match p x with Some msg => Some msg | None => first_problem p l end
  end.

(** The lifetimes, which come last. *)
Definition apply_lifetimes (r : Request) (c : Client) : string * Client :=
  let '(access, msg) := parseTTLField (FormValue r "access_token_ttl") in
  let c := client_set_access_ttl access c in
  if msg !=? "" then ("Access token lifetime: " +:+ msg, c)
  else if MaxAccessTokenTTL <? access then ("Access token lifetime: at most 24h", c)
  else
    let '(refresh, msg) := parseTTLField (FormValue r "refresh_token_ttl") in
    let c := client_set_refresh_ttl refresh c in
    if msg !=? "" then ("Refresh token lifetime: " +:+ msg, c) else ("", c).

(** The message, empty when the form is valid, and the client as it was
    changed so far. *)
Definition applyClientForm (r : Request) (c : Client) : string * Client :=
  let c := client_from_form r c in
  if client_Name c ==? "" then ("Name is required", c)
  else match client_RedirectURIs c with
  | [] => ("At least one redirect URI is required", c)
  | uris =>
      match first_problem redirect_uri_problem uris with
      | Some msg => (msg, c)
      | None =>
          let c := client_set_defaults c in
          match first_problem grant_problem (client_GrantTypes c) with
          | Some msg => (msg, c)
          | None => apply_lifetimes r (if client_Public c then client_set_secret "" c else c)
          end
      end
  end.
End forms.

Example lines_read :
  splitLines (of_bytes (bytes "https://a/cb" ++ [13; 10; 32] ++ bytes "https://b/cb " ++ [10; 10]))
  = ["https://a/cb"; "https://b/cb"].
Proof. vm_compute. reflexivity. Qed.

Example lifetimes_read :
  map parseTTLField ["15m"; " 7d "; ""; "-5m"; "0d"] =
  [(15 * Minute, ""); (7 * 24 * Hour, ""); (0, "");
   (0, "Invalid duration: -5m (use e.g. 15m, 12h, 7d)"); (0, "Invalid duration: 0d")].
Proof. vm_compute. reflexivity. Qed.

(** ** The client form: what it accepts, and what it shows it reads

    A form that is accepted leaves a client whose redirect URIs, grant types
    and lifetimes are in order; a lifetime of whole seconds is shown as text
    that the form reads back as the same lifetime. *)

(** ** Reading digits *)

Lemma digit_value_of b : is_digit b -> digit_value b = Some (b - 48).
Proof. intros Hb. unfold is_digit in Hb. rewrite <-(digit_value_digit (b - 48)) by lia. f_equal. lia. Qed.

Lemma digits_value_le ds acc v :
  Forall is_digit ds -> 0 <= acc -> digits_value acc ds = Some v -> acc <= v.
Proof.
  intros Hds. revert acc. induction Hds as [|b ds Hb Hds IH]; intros acc Hacc Hv; cbn [digits_value] in Hv.
  - injection Hv as <-. lia.
  - rewrite digit_value_of in Hv by done. unfold is_digit in Hb. specialize (IH (acc * 10 + (b - 48)) ltac:(lia) Hv). lia.
Qed.

Definition no_digit (l : list Z) : Prop := match l with b :: _ => ~ is_digit b | [] => True end.

Lemma leadingInt_digits ds acc v rest :
  Forall is_digit ds -> no_digit rest -> 0 <= acc -> v <= two63 -> digits_value acc ds = Some v ->
  leadingInt acc (ds ++ rest) = Some (v, rest).
Proof.
  intros Hds Hrest. revert acc. induction Hds as [|b ds Hb Hds IH]; intros acc Hacc Hv Hval;
    cbn [digits_value app] in *.
  - injection Hval as <-. destruct rest as [|b rest]; [done|]. cbn [leadingInt]. cbn in Hrest.
    unfold is_digit in Hrest. by replace (in_range 48 57 b) with false by (unfold in_range; lia).
  - rewrite digit_value_of in Hval by done. 
    pose proof (digits_value_le _ (acc * 10 + (b - 48)) _ Hds ltac:(unfold is_digit in Hb; lia) Hval).
    cbn [leadingInt]. unfold is_digit in Hb. unfold two63 in *.
    replace (in_range 48 57 b) with true by (unfold in_range; lia).
    assert (2 ^ 63 / 10 <? acc = false) as ->.
    { apply Z.ltb_ge. change (2 ^ 63 / 10) with 922337203685477580. change (2 ^ 63) with 9223372036854775808 in Hv. lia. }
    replace (2 ^ 63 <? acc * 10 + (b - 48)) with false by lia.
    apply IH; [lia|done|done].
Qed.

Lemma leadingInt_dec n rest :
  0 <= n <= two63 -> no_digit rest -> leadingInt 0 (bytes (dec n) ++ rest) = Some (n, rest).
Proof.
  intros Hn Hrest. destruct (dec_digits n ltac:(lia)) as (ds & -> & [Hf Hv] & _).
  apply leadingInt_digits; [done|done|lia|lia|]. specialize (Hv 0 []). rewrite app_nil_r in Hv. by rewrite Hv.
Qed.

Lemma dec_cons n : 0 <= n -> exists b l, bytes (dec n) = b :: l /\ is_digit b /\ Forall is_digit (b :: l).
Proof.
  intros Hn. destruct (dec_digits n Hn) as (ds & -> & [Hf _] & Hne & _). destruct ds as [|b l]; [done|].
  exists b, l. split; [done|]. split; [by apply Forall_inv in Hf|done].
Qed.

Lemma Atoi_dec n : 0 <= n <= max_int64 -> Atoi (dec n) = Some n.
Proof.
  intros Hn. destruct (dec_digits n ltac:(lia)) as (ds & Hb & [Hf Hv] & Hne & _).
  specialize (Hv 0 []). rewrite app_nil_r in Hv. unfold Atoi. rewrite Hb.
  destruct ds as [|b ds]; [done|]. apply Forall_inv in Hf as Hd. unfold is_digit in Hd.
  assert (digits_value 0 (b :: ds) = Some n) as Hval by (rewrite Hv; cbn [digits_value]; f_equal; lia).
  assert (in_range min_int64 max_int64 n = true) as Hr by (unfold in_range, min_int64, max_int64 in *; lia).
  clear Hv. destruct b as [|p|p]; [lia| |lia].
  do 6 (destruct p as [p|p|]; try lia; try (rewrite Hval; by rewrite Hr)).
Qed.

(** ** Reading one component *)

(** A unit as it is written: no digit, no point. *)
Definition unit_byte (b : Z) : Prop := in_range 48 57 b = false /\ b <> 46.
Definition starts_number (l : list Z) : Prop := match l with b :: _ => is_digit b | [] => True end.

Lemma in_range_digit b : is_digit b -> in_range 48 57 b = true.
Proof. unfold is_digit, in_range. lia. Qed.

Lemma unit_text_app u rest : Forall unit_byte u -> starts_number rest -> unit_text (u ++ rest) = (u, rest).
Proof.
  intros Hu Hr. induction Hu as [|b u [Hb Hp] _ IH]; cbn [app unit_text].
  - destruct rest as [|b rest]; [done|]. cbn [unit_text]. rewrite in_range_digit by done. by rewrite orb_true_r.
  - rewrite Hb. replace (b =? 46) with false by lia. cbn [orb]. by rewrite IH.
Qed.

Lemma unit_no_digit u rest : u <> [] -> Forall unit_byte u -> no_digit (u ++ rest).
Proof.
  intros Hne Hu. destruct Hu as [|b u [Hb _] _]; [done|]. cbn. intros Hd. apply in_range_digit in Hd. congruence.
Qed.

Lemma component_dec n u unit rest :
  0 <= n -> 0 < unit -> n * unit <= two63 -> u <> [] -> Forall unit_byte u -> unitMap u = Some unit ->
  starts_number rest -> component (bytes (dec n) ++ u ++ rest) = Some (n * unit, rest).
Proof.
  intros Hn Hunit Hle Hne Hu Hmap Hrest. destruct (dec_cons n Hn) as (b & l & Hb & Hd & _).
  assert (leadingInt 0 (bytes (dec n) ++ u ++ rest) = Some (n, u ++ rest)) as Hlead.
  { apply leadingInt_dec; [nia|]. by apply unit_no_digit. }
  rewrite Hb in *. cbn [app] in *. unfold component. rewrite in_range_digit, orb_true_r by done. cbn [negb].
  rewrite Hlead. cbn [mbind option_bind].
  assert (length (b :: l ++ u ++ rest) =? length (u ++ rest) = false)%nat as Hlen.
  { apply Nat.eqb_neq. cbn [length]. rewrite length_app. lia. }
  assert (scaled n 0 (float64 1) (u ++ rest) = Some (n * unit, rest)) as Hs.
  { unfold scaled. rewrite unit_text_app by done. destruct u as [|c u]; [done|]. rewrite Hmap.
    cbn [mbind option_bind]. replace (two63 / unit <? n) with false; [done|]. symmetry. apply Z.ltb_ge.
    apply Z.div_le_lower_bound; lia. }
  rewrite Hlen. destruct u as [|c u]; [done|]. cbn [app] in *. apply Forall_inv in Hu as [_ Hc].
  destruct c as [|p|p]; try exact Hs. do 6 (destruct p as [p|p|]; try exact Hs). done.
Qed.

(** Components one after the other. *)
Lemma components_dec n u unit rest fuel d :
  0 <= n -> 0 < unit -> 0 <= d -> d + n * unit <= two63 -> u <> [] -> Forall unit_byte u ->
  unitMap u = Some unit -> starts_number rest ->
  components (S fuel) d (bytes (dec n) ++ u ++ rest) = components fuel (d + n * unit) rest.
Proof.
  intros Hn Hunit Hd Hle Hne Hu Hmap Hrest. destruct (dec_cons n Hn) as (b & l & Hb & _).
  pose proof (component_dec n u unit rest Hn Hunit ltac:(nia) Hne Hu Hmap Hrest) as Hc.
  rewrite Hb in *. cbn [app components] in *. rewrite Hc. cbn [mbind option_bind].
  rewrite Z.mod_small by (unfold two63 in *; nia). by replace (two63 <? d + n * unit) with false by lia.
Qed.

Lemma ParseDuration_components s b c l :
  bytes s = b :: c :: l -> is_digit b ->
  ParseDuration s = (d ← components (length (b :: c :: l)) 0 (b :: c :: l);
                     if two63 - 1 <? d then None else Some d).
Proof.
  intros Hs Hb. unfold ParseDuration. rewrite Hs. unfold is_digit in Hb.
  destruct b as [|p|p]; [lia| |lia].
  do 6 (destruct p as [p|p|]; try lia; try reflexivity).
Qed.

(** ** Lifetimes *)

Definition letter (x : Z) : Prop := 97 <= x <= 122.

Lemma TrimSpace_edges s b l x : bytes s = b :: l ++ [x] -> is_digit b -> letter x -> TrimSpace s = s.
Proof.
  intros Hs Hb Hx. unfold TrimSpace. rewrite <-(of_bytes_bytes s) at 2. rewrite Hs. f_equal.
  unfold is_digit, letter in *. unfold trim_left. rewrite trim_by_id.
  - unfold trim_right. change (b :: l ++ [x]) with ((b :: l) ++ [x]). rewrite rev_app_distr. cbn [rev app].
    rewrite trim_by_id.
    + cbn [rev]. rewrite rev_app_distr, rev_involutive. done.
    + unfold sp1, in_range. lia.
    + intros c. unfold sp2. lia.
    + intros c d. unfold sp3, in_range. lia.
  - unfold sp1, in_range. lia.
  - intros c. unfold sp2. lia.
  - intros c d. unfold sp3, in_range. lia.
Qed.

Lemma CutSuffix_last s l x : bytes s = l ++ [x] ->
  CutSuffix s "d" = if decide (x = 100) then Some (of_bytes l) else None.
Proof.
  intros Hs. unfold CutSuffix. rewrite <-bytes_length, Hs, length_app. cbn [length String.length].
  replace (length l + 1 - 1)%nat with (length l) by lia. rewrite drop_app_length, take_app_length.
  destruct (decide (x = 100)) as [->|Hne]; [by rewrite bool_decide_eq_true_2|].
  rewrite bool_decide_eq_false_2; [done|]. intros [= ->]. done.
Qed.

Lemma not_blank s b l : bytes s = b :: l -> (s ==? "") = false.
Proof. intros Hs. apply bool_decide_eq_false_2. intros ->. done. Qed.

Lemma parseTTLField_duration s b l x d :
  bytes s = b :: l ++ [x] -> is_digit b -> letter x -> x <> 100 -> ParseDuration s = Some d -> 0 < d ->
  parseTTLField s = (d, "").
Proof.
  intros Hs Hb Hx Hne Hp Hd. unfold parseTTLField. rewrite (TrimSpace_edges s b l x) by done.
  rewrite (not_blank _ _ _ Hs), (CutSuffix_last s (b :: l) x) by done. rewrite decide_False by done.
  rewrite Hp. by replace (d <=? 0) with false by lia.
Qed.

Lemma parseTTLField_days k :
  0 < k -> k * 24 * Hour <= max_int64 -> parseTTLField (dec k +:+ "d") = (k * 24 * Hour, "").
Proof.
  intros Hk Hle. destruct (dec_cons k ltac:(lia)) as (b & l & Hb & Hd & _).
  assert (bytes (dec k +:+ "d") = b :: l ++ [100]) as Hs by (rewrite bytes_app, Hb; done).
  unfold parseTTLField. rewrite (TrimSpace_edges _ b l 100) by (done || (unfold letter; lia)).
  rewrite (not_blank _ _ _ Hs), (CutSuffix_last _ (b :: l) 100) by done.
  rewrite decide_True by done. rewrite <-Hb, of_bytes_bytes. unfold Hour, Minute, Second, max_int64 in *.
  rewrite Atoi_dec by (unfold max_int64; lia). replace (k <=? 0) with false by lia.
  rewrite (wrap64_id (k * 24)) by (unfold min_int64, max_int64; lia).
  by rewrite wrap64_id by (unfold min_int64, max_int64; lia).
Qed.

(** ** Durations piece by piece *)

(** A number, the unit as it is written, and the unit's length. *)
Definition piece : Type := Z * string * Z.
Definition piece_ok (p : piece) : Prop :=
  let '(n, u, unit) := p in
  0 <= n /\ 0 < unit /\ u <> "" /\ Forall unit_byte (bytes u) /\ unitMap (bytes u) = Some unit.
Definition text (ps : list piece) : list Z :=
  concat (map (fun p => bytes (dec p.1.1) ++ bytes p.1.2) ps).
Definition total (ps : list piece) : Z := foldr (fun p t => p.1.1 * p.2 + t) 0 ps.

Lemma total_cons n u unit ps : total ((n, u, unit) :: ps) = n * unit + total ps.
Proof. done. Qed.

Lemma total_nonneg ps : Forall piece_ok ps -> 0 <= total ps.
Proof. induction 1 as [|[[n u] unit] ps (Hn & Hu & _) _ IH]; rewrite ?total_cons; [done|nia]. Qed.

Lemma text_starts ps : Forall piece_ok ps -> starts_number (text ps).
Proof.
  intros [|[[n u] unit] ps' (Hn & _)]; [done|]. destruct (dec_cons n Hn) as (b & l & Hb & Hd & _).
  unfold text. cbn. by rewrite Hb.
Qed.

Lemma components_pieces ps fuel d :
  Forall piece_ok ps -> 0 <= d -> d + total ps <= two63 -> (length ps <= fuel)%nat ->
  components fuel d (text ps) = Some (d + total ps).
Proof.
  intros Hps. revert fuel d. induction Hps as [|[[n u] unit] ps (Hn & Hu & Hne & Hb & Hm) Hps IH];
    intros fuel d Hd Hle Hf.
  - cbn. rewrite Z.add_0_r. by destruct fuel.
  - destruct fuel as [|fuel]; [cbn [length] in Hf; lia|]. cbn [length] in Hf. rewrite total_cons in *.
    pose proof (total_nonneg ps Hps). unfold text. cbn [map concat fst snd]. rewrite <-app_assoc. fold (text ps).
    rewrite (components_dec n (bytes u) unit); try done; [|nia|by destruct u|by apply text_starts].
    rewrite IH by (nia || lia). f_equal. lia.
Qed.

Lemma ParseDuration_pieces s ps :
  bytes s = text ps -> Forall piece_ok ps -> ps <> [] -> total ps <= max_int64 ->
  ParseDuration s = Some (total ps).
Proof.
  intros Hs Hps Hne Hle. assert (exists b c l, bytes s = b :: c :: l /\ is_digit b) as (b & c & l & Hb & Hd).
  { rewrite Hs. destruct Hps as [|[[n u] unit] ps (Hn & _ & Hu & _) _]; [done|].
    destruct (dec_cons n Hn) as (b & l & Hb & Hd & _). unfold text. cbn. rewrite Hb. exists b.
    destruct u as [|c u]; [done|]. destruct l as [|c' l]; cbn; by eexists _, _. }
  assert (length ps <= length (text ps))%nat as Hlen.
  { clear -Hps. unfold text. induction Hps as [|[[n u] unit] ps (Hn & _) _ IH]; [done|]. cbn.
    destruct (dec_cons n Hn) as (b & l & Hb & _). rewrite Hb, !length_app. cbn. lia. }
  rewrite (ParseDuration_components s b c l) by done. rewrite <-Hb, Hs. unfold max_int64 in Hle.
  rewrite components_pieces by (done || (unfold two63; lia)). cbn [mbind option_bind]. rewrite Z.add_0_l.
  by replace (two63 - 1 <? total ps) with false by (unfold two63; lia).
Qed.

(** The text of whole seconds. *)
Definition hms (h m s : Z) : string :=
  let st := dec s +:+ "s" in
  if (h =? 0) && (m =? 0) then st
  else let mt := dec m +:+ "m" +:+ st in if h =? 0 then mt else dec h +:+ "h" +:+ mt.

Lemma Duration_String_seconds n :
  0 < n -> Duration_String (n * Second) = hms (n / 3600) (n / 60 mod 60) (n mod 60).
Proof.
  intros Hn. unfold Duration_String, hms. unfold Second, Millisecond in *.
  rewrite Z.abs_eq by lia. replace (n * 1000000000 <? 0) with false by lia.
  replace (n * 1000000000 =? 0) with false by lia. replace (n * 1000000000 <? 1000) with false by lia.
  replace (n * 1000000000 <? 1000000) with false by lia. replace (n * 1000000000 <? 1000000000) with false by lia.
  rewrite Z.div_mul, Z.mod_mul by lia. change (fraction 9 0) with "". cbn [String.append].
  replace (n / 60 / 60) with (n / 3600) by (rewrite Z.div_div by lia; done).
  destruct (n / 3600 =? 0) eqn:Eh; cbn [andb].
  - replace (n / 60 mod 60) with (n / 60); [by destruct (n / 60 =? 0)|].
    symmetry. apply Z.mod_small. apply Z.eqb_eq in Eh. apply Z.div_small_iff in Eh; [|lia].
    split; [apply Z.div_pos; lia|apply Z.div_lt_upper_bound; lia].
  - replace (n / 60 =? 0) with false; [done|]. symmetry. apply Z.eqb_neq. apply Z.eqb_neq in Eh.
    intros H60. apply Z.div_small_iff in H60; [|lia]. rewrite Z.div_small in Eh by lia. done.
Qed.

Definition hms_pieces (h m s : Z) : list piece :=
  let st := [(s, "s", Second)] in
  if (h =? 0) && (m =? 0) then st
  else let mt := (m, "m", Minute) :: st in if h =? 0 then mt else (h, "h", Hour) :: mt.

Lemma hms_text h m s : bytes (hms h m s) = text (hms_pieces h m s).
Proof. unfold hms, hms_pieces, text. repeat case_match; cbn; by rewrite !bytes_app, ?app_nil_r, <-?app_assoc. Qed.

Lemma hms_total h m s : total (hms_pieces h m s) = (h * 3600 + m * 60 + s) * Second.
Proof.
  unfold hms_pieces, total, Hour, Minute. destruct (h =? 0) eqn:Eh; cbn [andb].
  - apply Z.eqb_eq in Eh. subst h. destruct (m =? 0) eqn:Em; [apply Z.eqb_eq in Em; subst m|]; cbn; lia.
  - cbn. lia.
Qed.

Ltac unit_letters := repeat constructor; done.

Lemma hms_pieces_ok h m s : 0 <= h -> 0 <= m -> 0 <= s -> Forall piece_ok (hms_pieces h m s).
Proof. intros Hh Hm Hs. unfold hms_pieces. repeat case_match; repeat constructor; done. Qed.

Lemma seconds_read n :
  0 < n -> n * Second <= max_int64 -> ParseDuration (Duration_String (n * Second)) = Some (n * Second).
Proof.
  intros Hn Hle. rewrite Duration_String_seconds by done.
  assert (n / 3600 * 3600 + n / 60 mod 60 * 60 + n mod 60 = n) as Hsum.
  { pose proof (Z.div_mod n 60 ltac:(lia)). pose proof (Z.div_mod (n / 60) 60 ltac:(lia)) as H60.
    rewrite Z.div_div in H60 by lia. change (60 * 60) with 3600 in H60. lia. }
  rewrite (ParseDuration_pieces _ (hms_pieces (n / 3600) (n / 60 mod 60) (n mod 60))).
  - by rewrite hms_total, Hsum.
  - apply hms_text.
  - apply hms_pieces_ok; [apply Z.div_pos|apply Z.mod_pos_bound|apply Z.mod_pos_bound]; lia.
  - unfold hms_pieces. by repeat case_match.
  - by rewrite hms_total, Hsum.
Qed.

Lemma unit_read n u unit :
  0 < n -> n * unit <= max_int64 -> piece_ok (n, u, unit) -> ParseDuration (dec n +:+ u) = Some (n * unit).
Proof.
  intros Hn Hle Hok. rewrite (ParseDuration_pieces _ [(n, u, unit)]).
  - f_equal. cbn. lia.
  - unfold text. cbn. by rewrite bytes_app, app_nil_r.
  - by constructor.
  - done.
  - cbn. lia.
Qed.

(** The text of a lifetime begins with a digit and ends with a letter. *)
Lemma dec_edges n u x :
  0 <= n -> bytes u = [x] -> exists b l, bytes (dec n +:+ u) = b :: l ++ [x] /\ is_digit b.
Proof.
  intros Hn Hu. destruct (dec_cons n Hn) as (b & l & Hb & Hd & _). exists b, l.
  by rewrite bytes_app, Hb, Hu.
Qed.

Lemma hms_edges h m s : 0 <= h -> 0 <= m -> 0 <= s ->
  exists b l, bytes (hms h m s) = b :: l ++ [115] /\ is_digit b.
Proof.
  intros Hh Hm Hs. assert (exists l, bytes (hms h m s) = l ++ [115]) as [l Hl].
  { unfold hms. repeat case_match; rewrite !bytes_app; eexists; rewrite ?app_assoc; done. }
  rewrite hms_text in *. pose proof (text_starts _ (hms_pieces_ok h m s Hh Hm Hs)) as Hd.
  destruct l as [|b l].
  - rewrite Hl in Hd. cbn in Hd. unfold is_digit in Hd. lia.
  - rewrite Hl in *. by exists b, l.
Qed.

(** The client form reads every lifetime it shows: for whole
    seconds within the range of a duration, the text [ttlForm] gives is read
    by [parseTTLField] as the same lifetime. *)
Theorem lifetime_roundtrip n :
  0 < n -> n * Second <= max_int64 -> parseTTLField (ttlForm (n * Second)) = (n * Second, "").
Proof.
  intros Hn Hle. unfold ttlForm. assert (0 < n * Second) as Hpos by (unfold Second; lia).
  replace (n * Second <=? 0) with false by lia.
  assert (forall unit, 0 < unit -> n * Second mod unit =? 0 = true ->
    exists k, 0 < k /\ n * Second / unit = k /\ n * Second = k * unit) as Hdiv.
  { intros unit Hu Hm. apply Z.eqb_eq in Hm.
    pose proof (proj2 (Z.div_exact (n * Second) unit ltac:(lia)) Hm) as Heq. rewrite (Z.mul_comm unit) in Heq.
    exists (n * Second / unit). split; [|done]. apply (Z.mul_pos_cancel_r _ unit Hu). by rewrite <-Heq. }
  destruct (_ mod (24 * Hour) =? 0) eqn:E1.
  { destruct (Hdiv (24 * Hour) ltac:(done) E1) as (k & Hk & -> & Heq). rewrite Heq in *.
    rewrite Z.mul_assoc in *. rewrite parseTTLField_days by done. done. }
  destruct (_ mod Hour =? 0) eqn:E2.
  { destruct (Hdiv Hour ltac:(done) E2) as (k & Hk & -> & Heq). rewrite Heq in *.
    destruct (dec_edges k "h" 104 ltac:(lia) eq_refl) as (b & l & Hb & Hd).
    apply (parseTTLField_duration _ b l 104); try done. apply unit_read; [done|done|]. repeat constructor; done || lia. }
  destruct (_ mod Minute =? 0) eqn:E3.
  { destruct (Hdiv Minute ltac:(done) E3) as (k & Hk & -> & Heq). rewrite Heq in *.
    destruct (dec_edges k "m" 109 ltac:(lia) eq_refl) as (b & l & Hb & Hd).
    apply (parseTTLField_duration _ b l 109); try done. apply unit_read; [done|done|]. repeat constructor; done || lia. }
  pose proof (seconds_read n Hn Hle) as Hread. rewrite Duration_String_seconds in * by done.
  destruct (hms_edges (n / 3600) (n / 60 mod 60) (n mod 60)) as (b & l & Hb & Hd);
    [apply Z.div_pos|apply Z.mod_pos_bound|apply Z.mod_pos_bound|]; try lia.
  by apply (parseTTLField_duration _ b l 115).
Qed.

(** A lifetime given in days is multiplied without a check: 213504 days are
    read as less than 26 minutes. *)
Lemma many_days_wrap : parseTTLField "213504d" = (1526290448384, "").
Proof. vm_compute. reflexivity. Qed.

(** ** Accepted forms *)

Section form.
Context `{UnicodeTables}.

(** A redirect URI as a client may register it: absolute, without a fragment,
    of no scheme a browser would run, and with a host where one is needed. *)
Definition registrable (uri : string) : Prop :=
  exists u, Parse uri = Some u /\ u_Scheme u <> "" /\ (u_Host u <> "" \/ u_Scheme u = "urn") /\
    u_Fragment u = "" /\ has_char "#"%char uri = false /\
    ToLower (u_Scheme u) ∉ forbidden_schemes /\
    (ToLower (u_Scheme u) = "http" \/ ToLower (u_Scheme u) = "https" -> u_Host u <> "").

Lemma existsb_eqb_false (l : list string) (x : string) : existsb (fun s => s ==? x) l = false -> x ∉ l.
Proof.
  intros He Hin. apply list_elem_of_In in Hin. assert (existsb (fun s => s ==? x) l = true) as Ht; [|congruence].
  apply existsb_exists. exists x. split; [done|]. by apply bool_decide_eq_true.
Qed.

Lemma ValidateRedirectURI_Ok uri u :
  Parse uri = Some u -> ValidateRedirectURI uri = Ok tt ->
  u_Scheme u <> "" /\ u_Fragment u = "" /\ has_char "#"%char uri = false /\
  ToLower (u_Scheme u) ∉ forbidden_schemes /\
  (ToLower (u_Scheme u) = "http" \/ ToLower (u_Scheme u) = "https" -> u_Host u <> "").
Proof.
  intros Hp Hv. unfold ValidateRedirectURI in Hv. rewrite Hp in Hv.
  destruct (u_Scheme u ==? "") eqn:E1; [done|].
  destruct (negb (u_Fragment u ==? "") || has_char "#"%char uri) eqn:E2; [done|].
  destruct (existsb _ forbidden_schemes) eqn:E3; [done|].
  destruct (((_ ==? "http") || (_ ==? "https")) && (u_Host u ==? "")) eqn:E4; [done|].
  apply orb_false_iff in E2 as [E2 E2']. apply negb_false_iff in E2. apply existsb_eqb_false in E3.
  apply bool_decide_eq_false in E1. apply bool_decide_eq_true in E2. split_and!; try done.
  intros Hs Hh. rewrite Hh, andb_true_r in E4.
  apply orb_false_iff in E4 as [E4 E5]. apply bool_decide_eq_false in E4. apply bool_decide_eq_false in E5. by destruct Hs.
Qed.

Lemma redirect_uri_fine uri : redirect_uri_problem uri = None -> registrable uri.
Proof.
  unfold redirect_uri_problem. destruct (Parse uri) as [u|] eqn:Hp; [|done].
  destruct ((u_Scheme u ==? "") || _) eqn:E; [done|]. destruct (ValidateRedirectURI uri) as [[]|] eqn:Hv; [|done].
  intros _. destruct (ValidateRedirectURI_Ok uri u Hp Hv) as (? & ? & ? & ? & ?). exists u. split_and!; try done.
  apply orb_false_iff in E as [_ E]. apply andb_false_iff in E as [E|E].
  - left. by apply bool_decide_eq_false in E.
  - right. apply negb_false_iff in E. by apply bool_decide_eq_true in E.
Qed.

Lemma first_problem_None p l x : first_problem p l = None -> x ∈ l -> p x = None.
Proof.
  induction l as [|y l IH]; cbn [first_problem]; [set_solver|]. destruct (p y) eqn:E; [done|].
  intros Hn [->|Hx]%elem_of_cons; [done|by apply IH].
Qed.

Lemma apply_lifetimes_Ok r c c' :
  apply_lifetimes r c = ("", c') ->
  exists access refresh, c' = client_set_refresh_ttl refresh (client_set_access_ttl access c) /\
    access <= MaxAccessTokenTTL.
Proof.
  unfold apply_lifetimes. destruct (parseTTLField (FormValue r "access_token_ttl")) as [access m1].
  destruct (m1 !=? ""); [done|]. destruct (MaxAccessTokenTTL <? access) eqn:E; [done|].
  destruct (parseTTLField (FormValue r "refresh_token_ttl")) as [refresh m2]. destruct (m2 !=? ""); [done|].
  intros [= <-]. exists access, refresh. split; [done|]. apply Z.ltb_ge in E. lia.
Qed.

(** A client form that is accepted leaves the client's ID alone
    and the rest in order: a name, at least one redirect URI, each fit to be
    registered, only the grant types there are, at least one scope, an access
    token lifetime of at most a day, and no secret if the client is public. *)
Theorem client_form_sound r c c' :
  applyClientForm r c = ("", c') ->
  client_ID c' = client_ID c /\ client_Name c' <> "" /\
  client_RedirectURIs c' <> [] /\ (forall uri, uri ∈ client_RedirectURIs c' -> registrable uri) /\
  client_GrantTypes c' <> [] /\ (forall g, g ∈ client_GrantTypes c' -> g ∈ defaultClientGrantTypes) /\
  client_Scopes c' <> [] /\ client_AccessTokenTTL c' <= MaxAccessTokenTTL /\
  (client_Public c' = true -> client_Secret c' = "").
Proof.
  unfold applyClientForm. set (c1 := client_from_form r c). assert (client_ID c1 = client_ID c) as Hid by done.
  clearbody c1. destruct (client_Name c1 ==? "") eqn:En; [done|].
  destruct (client_RedirectURIs c1) as [|uri uris] eqn:Eu; [done|].
  destruct (first_problem redirect_uri_problem (uri :: uris)) as [m|] eqn:Er.
  { intros [= -> _]. exfalso. clear -Er. revert Er. generalize (uri :: uris). intros l.
    induction l as [|x l IH]; cbn [first_problem]; [done|]. destruct (redirect_uri_problem x) eqn:E; [|by auto].
    intros [= ->]. unfold redirect_uri_problem in E. repeat case_match; done. }
  destruct (first_problem grant_problem _) as [m|] eqn:Eg.
  { intros [= -> _]. exfalso. clear -Eg. revert Eg. generalize (client_GrantTypes (client_set_defaults c1)).
    intros l. induction l as [|x l IH]; cbn [first_problem]; [done|].
    destruct (grant_problem x) eqn:E; [|by auto]. intros [= ->]. unfold grant_problem in E. by case_match. }
  intros (access & refresh & -> & Hmax)%apply_lifetimes_Ok. apply bool_decide_eq_false in En.
  assert (forall g, g ∈ client_GrantTypes (client_set_defaults c1) -> g ∈ defaultClientGrantTypes) as Hgrants.
  { intros g Hg. pose proof (first_problem_None _ _ _ Eg Hg) as Hn. unfold grant_problem in Hn.
    destruct (_ && _) eqn:E; [done|]. apply andb_false_iff in E as [E|E]; apply negb_false_iff in E;
      apply bool_decide_eq_true in E; subst g; set_solver. }
  assert (forall u, u ∈ uri :: uris -> registrable u) as Huris
    by (intros u Hu; apply redirect_uri_fine; by eapply first_problem_None).
  rewrite <-Eu in Huris. destruct c1 as [i s n us gs ss p sk mi a rf cr up]. cbn in *.
  destruct p; cbn; split_and!; try done; try (by rewrite Eu); first [by destruct gs|by destruct ss].

Qed.
End form.
