(* ===== verification/Config.v ===== *)
(** * internal/config/config.go: the configuration

    The environment is read by a library ([ReadEnv]): it gives a record with
    the defaults filled in, or fails.  [Load] completes and checks the record;
    the other functions read lists out of its texts. *)
From S2P Require Import Prelude GoTime GoText Encoding GoUrl GoDuration GoNetip Errors Domain.
From S2P Require Import Lockout PendingLogins World Run Metrics Store Exec StoreFacts Keys Password Jwt Totp Csrf.
From S2P Require Import Session TokenService Http Middleware ClientForm.
From Stdlib Require Import Ascii.
#[local] Open Scope Z_scope.
#[local] Open Scope go_scope.

Record Config := {
  cfg_Host : string;
  cfg_Port : Z;
  cfg_IssuerURL : string;
  cfg_StoreDriver : string;
  cfg_DataDir : string;
  cfg_StoreDSN : string;
  cfg_SessionDuration : Z;
  cfg_CookieSecret : string;
  cfg_CookieSecure : bool;
  cfg_CookieDomain : string;
  cfg_AccessTokenTTL : Z;
  cfg_RefreshTokenTTL : Z;
  cfg_AuthCodeTTL : Z;
  cfg_PasswordResetTTL : Z;
  cfg_PasswordResetInterval : Z;
  cfg_EmailVerifyTTL : Z;
  cfg_MailDriver : string;
  cfg_SMTPHost : string;
  cfg_SMTPPort : Z;
  cfg_SMTPUsername : string;
  cfg_SMTPPassword : string;
  cfg_SMTPFrom : string;
  cfg_SMTPImplicitTLS : bool;
  cfg_PlaygroundEnabled : bool;
  cfg_RequireConsent : bool;
  cfg_SigningAlgorithm : string;
  cfg_SigningKeyRotationDays : Z;
  cfg_SigningKeyGracePeriod : Z;
  cfg_MaintenanceInterval : Z;
  cfg_AuditRetention : Z;
  cfg_LoginRateLimit : Z;
  cfg_LockoutMaxAttempts : Z;
  cfg_LockoutDuration : Z;
  cfg_LogLevel : string;
  cfg_LogFormat : string;
  cfg_CORSAllowedOrigins : string;
  cfg_CORSAllowCredentials : bool;
  cfg_TrustedProxies : string;
  cfg_SecurityHeadersEnabled : bool;
  cfg_ContentSecurityPolicy : string;
  cfg_HSTSMaxAge : Z;
  cfg_MetricsEnabled : bool;
  cfg_GroupsClaim : string;
  cfg_BootstrapGroups : string;
  cfg_AdminEmails : string;
  cfg_BootstrapUsers : string;
  cfg_ClientID : string;
  cfg_ClientSecret : string;
  cfg_ClientRedirectURI : string;
  cfg_BootstrapClients : string;
  cfg_CookieSecretGenerated : bool;
}.

(** The defaults in the tags of the fields. *)
Definition env_defaults : Config := {|
  cfg_Host := "0.0.0.0"; cfg_Port := 8080; cfg_IssuerURL := "http://localhost:8080"; cfg_StoreDriver := "sqlite";
  cfg_DataDir := "./data"; cfg_StoreDSN := ""; cfg_SessionDuration := 24 * Hour; cfg_CookieSecret := "";
  cfg_CookieSecure := false; cfg_CookieDomain := ""; cfg_AccessTokenTTL := 5 * Minute;
  cfg_RefreshTokenTTL := 168 * Hour; cfg_AuthCodeTTL := 10 * Minute; cfg_PasswordResetTTL := 1 * Hour;
  cfg_PasswordResetInterval := 2 * Minute; cfg_EmailVerifyTTL := 24 * Hour; cfg_MailDriver := "log";
  cfg_SMTPHost := ""; cfg_SMTPPort := 587; cfg_SMTPUsername := ""; cfg_SMTPPassword := ""; cfg_SMTPFrom := "";
  cfg_SMTPImplicitTLS := false; cfg_PlaygroundEnabled := true; cfg_RequireConsent := true;
  cfg_SigningAlgorithm := "RS256"; cfg_SigningKeyRotationDays := 30; cfg_SigningKeyGracePeriod := 24 * Hour;
  cfg_MaintenanceInterval := 10 * Minute; cfg_AuditRetention := 2160 * Hour; cfg_LoginRateLimit := 5;
  cfg_LockoutMaxAttempts := 5; cfg_LockoutDuration := 15 * Minute; cfg_LogLevel := "info"; cfg_LogFormat := "json";
  cfg_CORSAllowedOrigins := ""; cfg_CORSAllowCredentials := true; cfg_TrustedProxies := "private";
  cfg_SecurityHeadersEnabled := true;
  cfg_ContentSecurityPolicy := "default-src 'self'; style-src 'self' 'unsafe-inline'; img-src 'self' data:; "
    +:+ "frame-ancestors 'none'; base-uri 'none'; object-src 'none'";
  cfg_HSTSMaxAge := 0; cfg_MetricsEnabled := true; cfg_GroupsClaim := "groups"; cfg_BootstrapGroups := "";
  cfg_AdminEmails := ""; cfg_BootstrapUsers := ""; cfg_ClientID := ""; cfg_ClientSecret := "";
  cfg_ClientRedirectURI := ""; cfg_BootstrapClients := ""; cfg_CookieSecretGenerated := false |}.

(** The fields [Load] may change. *)
Definition cfg_set (secret : string) (generated secure playground : bool) (store mail : string) (c : Config) : Config := {|
  cfg_Host := cfg_Host c; cfg_Port := cfg_Port c; cfg_IssuerURL := cfg_IssuerURL c; cfg_StoreDriver := store;
  cfg_DataDir := cfg_DataDir c; cfg_StoreDSN := cfg_StoreDSN c; cfg_SessionDuration := cfg_SessionDuration c;
  cfg_CookieSecret := secret; cfg_CookieSecure := secure; cfg_CookieDomain := cfg_CookieDomain c;
  cfg_AccessTokenTTL := cfg_AccessTokenTTL c; cfg_RefreshTokenTTL := cfg_RefreshTokenTTL c;
  cfg_AuthCodeTTL := cfg_AuthCodeTTL c; cfg_PasswordResetTTL := cfg_PasswordResetTTL c;
  cfg_PasswordResetInterval := cfg_PasswordResetInterval c; cfg_EmailVerifyTTL := cfg_EmailVerifyTTL c;
  cfg_MailDriver := mail; cfg_SMTPHost := cfg_SMTPHost c; cfg_SMTPPort := cfg_SMTPPort c;
  cfg_SMTPUsername := cfg_SMTPUsername c; cfg_SMTPPassword := cfg_SMTPPassword c; cfg_SMTPFrom := cfg_SMTPFrom c;
  cfg_SMTPImplicitTLS := cfg_SMTPImplicitTLS c; cfg_PlaygroundEnabled := playground;
  cfg_RequireConsent := cfg_RequireConsent c; cfg_SigningAlgorithm := cfg_SigningAlgorithm c;
  cfg_SigningKeyRotationDays := cfg_SigningKeyRotationDays c;
  cfg_SigningKeyGracePeriod := cfg_SigningKeyGracePeriod c; cfg_MaintenanceInterval := cfg_MaintenanceInterval c;
  cfg_AuditRetention := cfg_AuditRetention c; cfg_LoginRateLimit := cfg_LoginRateLimit c;
  cfg_LockoutMaxAttempts := cfg_LockoutMaxAttempts c; cfg_LockoutDuration := cfg_LockoutDuration c;
  cfg_LogLevel := cfg_LogLevel c; cfg_LogFormat := cfg_LogFormat c;
  cfg_CORSAllowedOrigins := cfg_CORSAllowedOrigins c; cfg_CORSAllowCredentials := cfg_CORSAllowCredentials c;
  cfg_TrustedProxies := cfg_TrustedProxies c; cfg_SecurityHeadersEnabled := cfg_SecurityHeadersEnabled c;
  cfg_ContentSecurityPolicy := cfg_ContentSecurityPolicy c; cfg_HSTSMaxAge := cfg_HSTSMaxAge c;
  cfg_MetricsEnabled := cfg_MetricsEnabled c; cfg_GroupsClaim := cfg_GroupsClaim c;
  cfg_BootstrapGroups := cfg_BootstrapGroups c; cfg_AdminEmails := cfg_AdminEmails c;
  cfg_BootstrapUsers := cfg_BootstrapUsers c; cfg_ClientID := cfg_ClientID c;
  cfg_ClientSecret := cfg_ClientSecret c; cfg_ClientRedirectURI := cfg_ClientRedirectURI c;
  cfg_BootstrapClients := cfg_BootstrapClients c; cfg_CookieSecretGenerated := generated |}.

(** ** Lists *)

Definition splitList (v : string) : list string :=
  List.filter (fun s => s !=? "") (map TrimSpace (Split v ","%char)).

Record BootstrapUser := { bu_Email : string; bu_Password : string; bu_Name : string }.
Record BootstrapClient := { bc_ID : string; bc_Secret : string; bc_RedirectURIs : list string; bc_Public : bool }.
Record BootstrapGroup := { bg_Name : string; bg_Members : list string }.

Definition bootstrap_user (entry : string) : list BootstrapUser :=
  match SplitN entry ":"%char 3 with
  | email :: password :: rest =>
      [{| bu_Email := TrimSpace email; bu_Password := TrimSpace password;
          bu_Name := match rest with name :: _ => TrimSpace name | [] => "" end |}]
  | _ => []
  end.
Definition ParseBootstrapUsers (c : Config) : list BootstrapUser :=
  concat (map bootstrap_user (splitList (cfg_BootstrapUsers c))).

Definition bootstrap_group (entry : string) : list BootstrapGroup :=
  let '(name, members, _) := Cut ":"%char entry in
  let name := TrimSpace name in
  if name ==? "" then [] else [{| bg_Name := name; bg_Members := Fields members |}].
Definition ParseBootstrapGroups (c : Config) : list BootstrapGroup :=
  concat (map bootstrap_group (splitList (cfg_BootstrapGroups c))).

Definition ParseAdminEmails (c : Config) : list string := splitList (cfg_AdminEmails c).
Definition ParseCORSAllowedOrigins (c : Config) : list string := splitList (cfg_CORSAllowedOrigins c).

Definition bootstrap_client (entry : string) : list BootstrapClient :=
  match SplitN entry "|"%char 3 with
  | [id; secret; uris] =>
      [{| bc_ID := TrimSpace id; bc_Secret := TrimSpace secret; bc_RedirectURIs := Fields uris;
          bc_Public := TrimSpace secret ==? "" |}]
  | _ => []
  end.
Definition ParseBootstrapClients (c : Config) : list BootstrapClient :=
  (if (cfg_ClientID c !=? "") && (cfg_ClientRedirectURI c !=? "") then
     [{| bc_ID := cfg_ClientID c; bc_Secret := cfg_ClientSecret c;
         bc_RedirectURIs := Fields (cfg_ClientRedirectURI c); bc_Public := cfg_ClientSecret c ==? "" |}]
   else [])
  ++ concat (map bootstrap_client (splitList (cfg_BootstrapClients c))).

(** ** Derived settings *)

Definition SigningKeyMaxAge (c : Config) : Z :=
  if cfg_SigningKeyRotationDays c <=? 0 then 0
  else wrap64 (wrap64 (cfg_SigningKeyRotationDays c * 24) * Hour).

(** [filepath.Join] of two elements. *)
Definition filepath_Join (dir name : string) : string :=
  if dir ==? "" then Clean name else Clean (dir +:+ "/" +:+ name).
Definition SQLitePath (c : Config) : string :=
  if cfg_StoreDSN c !=? "" then cfg_StoreDSN c else filepath_Join (cfg_DataDir c) "idpico.db".

Definition Config_Addr (c : Config) : string := cfg_Host c +:+ ":" +:+ dec (cfg_Port c).

Definition generateRandomSecret (length : nat) : Prog (res string) :=
  let? b := randRead length in ret_ok (RawURLEncodeToString b).

(** ** Trusted proxies *)

Definition prefix4 (a b c d bits : Z) : Prefix := PrefixFrom (Addr4 (of_digits 256 [a; b; c; d])) bits.
Definition prefix6 (groups : list Z) (bits : Z) : Prefix := PrefixFrom (Addr6 (of_digits 65536 groups) "") bits.

Definition privateProxyPrefixes : list Prefix := [
  prefix4 127 0 0 0 8; prefix4 10 0 0 0 8; prefix4 172 16 0 0 12; prefix4 192 168 0 0 16;
  prefix4 100 64 0 0 10; prefix4 169 254 0 0 16;
  prefix6 [0; 0; 0; 0; 0; 0; 0; 1] 128; prefix6 [0xFC00; 0; 0; 0; 0; 0; 0; 0] 7;
  prefix6 [0xFE80; 0; 0; 0; 0; 0; 0; 0] 10].

Section config.
Context `{UnicodeTables}.

Fixpoint parse_proxies (items : list string) : res (list Prefix) :=
  match items with
  | [] => Ok []
  | item :: items =>
      res_bind (match ParsePrefix item with
                 | Some p => Ok p
                 | None => match ParseAddr item with
                           | Some addr => Ok (PrefixFrom addr (BitLen addr))
                           | None => Err (Plain ("IDPICO_TRUSTED_PROXIES: " +:+ Quote item +:+ " is not an IP or CIDR"))
                           end
                 end) (fun p =>
      res_map (cons p) (parse_proxies items))
  end.

Definition ParseTrustedProxies (c : Config) : res (list Prefix) :=
  let text := ToLower (TrimSpace (cfg_TrustedProxies c)) in
  if (text ==? "") || (text ==? "none") then Ok []
  else if text ==? "private" then Ok privateProxyPrefixes
  else parse_proxies (splitList (cfg_TrustedProxies c)).

(** ** Loading *)

Definition StoreDriverSQLite := "sqlite".
Definition StoreDriverFile := "file".
Definition MailDriverLog := "log".
Definition MailDriverSMTP := "smtp".

(** The driver as it is stored, and whether it is one. *)
Definition validateStore (c : Config) : string * res unit :=
  let driver := ToLower (TrimSpace (cfg_StoreDriver c)) in
  (driver,
   if (driver ==? StoreDriverSQLite) || (driver ==? StoreDriverFile) then Ok tt
   else Err (Plain ("invalid IDPICO_STORE_DRIVER " +:+ Quote driver +:+ " (expected " +:+ Quote StoreDriverSQLite
                    +:+ " or " +:+ Quote StoreDriverFile +:+ ")"))).

Definition validateMail (c : Config) : string * res unit :=
  let driver := ToLower (TrimSpace (cfg_MailDriver c)) in
  (driver,
   if driver ==? MailDriverLog then Ok tt
   else if driver ==? MailDriverSMTP then
     if (cfg_SMTPHost c ==? "") || (cfg_SMTPFrom c ==? "") then
       Err (Plain "IDPICO_SMTP_HOST and IDPICO_SMTP_FROM are required when IDPICO_MAIL_DRIVER=smtp")
     else Ok tt
   else Err (Plain ("invalid IDPICO_MAIL_DRIVER " +:+ Quote driver +:+ " (expected " +:+ Quote MailDriverLog
                    +:+ " or " +:+ Quote MailDriverSMTP +:+ ")"))).

Definition https_issuer (c : Config) : bool := HasPrefix (ToLower (cfg_IssuerURL c)) "https://".

(** A value as it is unless it is not set and the issuer is https. *)
Definition unless_https (set : bool) (c : Config) (value https : bool) : bool :=
  if negb set && https_issuer c then https else value.

Definition wildcard_problem (c : Config) : bool :=
  cfg_CORSAllowCredentials c && existsb (fun o => o ==? "*") (ParseCORSAllowedOrigins c).

(** The checks, which come last; the drivers are stored in normal form. *)
Definition check_config (c : Config) : res Config :=
  if (cfg_AccessTokenTTL c <=? 0) || (MaxAccessTokenTTL <? cfg_AccessTokenTTL c) then
    Err (Plain ("IDPICO_ACCESS_TOKEN_TTL: " +:+ Duration_String (cfg_AccessTokenTTL c)
                +:+ " is out of range (at most " +:+ Duration_String MaxAccessTokenTTL +:+ ")"))
  else if wildcard_problem c then
    Err (Plain ("IDPICO_CORS_ALLOWED_ORIGINS=* cannot be combined with IDPICO_CORS_ALLOW_CREDENTIALS=true; "
                +:+ "list the origins"))
  else
    let '(store, v) := validateStore c in
    res_bind v (fun _ =>
    let '(mail, v) := validateMail c in
    res_bind v (fun _ =>
    let c := cfg_set (cfg_CookieSecret c) (cfg_CookieSecretGenerated c) (cfg_CookieSecure c)
               (cfg_PlaygroundEnabled c) store mail c in
    res_bind (ParseTrustedProxies c) (fun _ =>
    if negb (ValidAlgorithm (cfg_SigningAlgorithm c)) then
      Err (Plain ("IDPICO_SIGNING_ALGORITHM: " +:+ Quote (cfg_SigningAlgorithm c)
                  +:+ " is not supported (use one of [" +:+ Join SupportedAlgorithms " " +:+ "])"))
    else Ok c))).

(** [env] is [os.LookupEnv]; [ReadEnv] is [cleanenv.ReadEnv]. *)
Definition Load (ReadEnv : (string -> option string) -> res Config) (env : string -> option string)
    : Prog (res Config) :=
  let is_set name := match env name with Some _ => true | None => false end in
  match ReadEnv env with
  | Err e => ret_err (Errorf "failed to load config" e)
  | Ok c =>
      let? secret := (if cfg_CookieSecret c ==? "" then
                        mapErr (Errorf "failed to generate cookie secret") (generateRandomSecret 32)
                      else ret_ok (cfg_CookieSecret c)) in
      Ret (check_config (cfg_set secret ((cfg_CookieSecret c ==? "") || cfg_CookieSecretGenerated c)
        (unless_https (is_set "IDPICO_COOKIE_SECURE") c (cfg_CookieSecure c) true)
        (unless_https (is_set "IDPICO_PLAYGROUND_ENABLED") c (cfg_PlaygroundEnabled c) false)
        (cfg_StoreDriver c) (cfg_MailDriver c) c))
  end.
End config.

(** ** What a configuration that loads satisfies *)

Lemma existsb_star (l : list string) : existsb (fun o => o ==? "*") l = false <-> "*" ∉ l.
Proof.
  split.
  - intros He Hin. assert (existsb (fun o => o ==? "*") l = true) as Ht; [|congruence].
    apply existsb_exists. exists "*". by split; [apply list_elem_of_In|].
  - intros Hn. destruct (existsb _ l) eqn:E; [|done]. apply existsb_exists in E as (x & Hx & Heq).
    apply bool_decide_eq_true in Heq as ->. by apply list_elem_of_In in Hx.
Qed.

Section config.
Context `{Env} `{!EnvLaws} `{UnicodeTables}.

Definition valid_prefix (p : Prefix) : Prop := is_Some (pf_bits p).

Lemma PrefixFrom_valid a bits : in_range 0 (BitLen a) bits = true -> valid_prefix (PrefixFrom a bits).
Proof. unfold valid_prefix, PrefixFrom. cbn. intros ->. by eexists. Qed.

Lemma ParsePrefix_valid s p : ParsePrefix s = Some p -> valid_prefix p.
Proof.
  unfold ParsePrefix. destruct (cut_last _ s) as [[addr bits]|]; [|done]. cbn.
  destruct (ParseAddr addr) as [a|]; [|done]. cbn. destruct (Zone a !=? ""); [done|].
  assert (forall o, (n ← o; if in_range 0 (BitLen a) n then Some (PrefixFrom a n) else None) = Some p -> valid_prefix p)
    as Hlast.
  { intros [n|]; [|done]. cbn. destruct (in_range 0 (BitLen a) n) eqn:E; [|done]. intros [= <-]. by apply PrefixFrom_valid. }
  destruct (bytes bits) as [|c [|d l]]; [apply Hlast|apply Hlast|]. destruct (negb _); [done|apply Hlast].
Qed.

Lemma parse_proxies_valid items l : parse_proxies items = Ok l -> Forall valid_prefix l.
Proof.
  revert l. induction items as [|item items IH]; intros l; cbn [parse_proxies]; [by intros [= <-]|].
  assert (forall p, valid_prefix p -> res_map (cons p) (parse_proxies items) = Ok l -> Forall valid_prefix l) as Hcons.
  { intros p Hp. destruct (parse_proxies items) as [l'|]; [|done]. intros [= <-]. constructor; auto. }
  destruct (ParsePrefix item) as [p|] eqn:Ep; [apply Hcons; by eapply ParsePrefix_valid|].
  destruct (ParseAddr item) as [a|]; [|done]. apply Hcons, PrefixFrom_valid. by destruct a.
Qed.

Lemma ParseTrustedProxies_valid c l : ParseTrustedProxies c = Ok l -> Forall valid_prefix l.
Proof.
  unfold ParseTrustedProxies. destruct (_ || _); [by intros [= <-]|]. destruct (_ ==? "private").
  - intros [= <-]. repeat (apply List.Forall_cons; [by eexists|]). constructor.
  - apply parse_proxies_valid.
Qed.

(** What the checks establish. *)
Record well_configured (c : Config) : Prop := {
  wc_ttl : 0 < cfg_AccessTokenTTL c <= MaxAccessTokenTTL;
  wc_cors : cfg_CORSAllowCredentials c = true -> "*" ∉ ParseCORSAllowedOrigins c;
  wc_store : cfg_StoreDriver c = StoreDriverSQLite \/ cfg_StoreDriver c = StoreDriverFile;
  wc_mail : cfg_MailDriver c = MailDriverLog \/
            cfg_MailDriver c = MailDriverSMTP /\ cfg_SMTPHost c <> "" /\ cfg_SMTPFrom c <> "";
  wc_proxies : exists l, ParseTrustedProxies c = Ok l /\ Forall valid_prefix l;
  wc_algorithm : ValidAlgorithm (cfg_SigningAlgorithm c) = true;
}.

(** The fields the checks leave alone. *)
Definition same_choices (c c' : Config) : Prop :=
  cfg_CookieSecret c' = cfg_CookieSecret c /\ cfg_CookieSecure c' = cfg_CookieSecure c /\
  cfg_PlaygroundEnabled c' = cfg_PlaygroundEnabled c /\ cfg_IssuerURL c' = cfg_IssuerURL c.

Lemma validateStore_Ok c driver :
  validateStore c = (driver, Ok tt) -> driver = StoreDriverSQLite \/ driver = StoreDriverFile.
Proof.
  unfold validateStore. intros [= <- Hv]. destruct (_ || _) eqn:E; [|done].
  apply orb_true_iff in E as [E|E]; apply bool_decide_eq_true in E; auto.
Qed.

Lemma validateMail_Ok c driver :
  validateMail c = (driver, Ok tt) ->
  driver = MailDriverLog \/ driver = MailDriverSMTP /\ cfg_SMTPHost c <> "" /\ cfg_SMTPFrom c <> "".
Proof.
  unfold validateMail. intros [= <- Hv]. destruct (_ ==? MailDriverLog) eqn:E1; [left; by apply bool_decide_eq_true in E1|].
  destruct (_ ==? MailDriverSMTP) eqn:E2; [|done]. destruct (_ || _) eqn:E3; [done|]. right.
  apply orb_false_iff in E3 as [E3 E4]. apply bool_decide_eq_true in E2.
  by apply bool_decide_eq_false in E3, E4; split_and!.
Qed.

Lemma check_config_Ok c c' : check_config c = Ok c' -> well_configured c' /\ same_choices c c'.
Proof.
  unfold check_config. destruct (_ || _) eqn:Ettl; [done|]. destruct (wildcard_problem c) eqn:Ecors; [done|].
  destruct (validateStore c) as [store [[]|]] eqn:Es; cbn [res_bind]; [|done].
  destruct (validateMail c) as [mail [[]|]] eqn:Em; cbn [res_bind]; [|done].
  set (c1 := cfg_set _ _ _ _ _ _ c). destruct (ParseTrustedProxies c1) as [l|] eqn:Ep; cbn [res_bind]; [|done].
  destruct (negb _) eqn:Ea; [done|]. intros [= <-].
  apply orb_false_iff in Ettl as [E1 E2]. split; [|done]. split.
  - unfold c1, cfg_set. cbn. lia.
  - unfold c1, cfg_set. cbn. intros Hc. apply existsb_star. unfold wildcard_problem in Ecors. by rewrite Hc in Ecors.
  - apply (validateStore_Ok c store Es).
  - apply (validateMail_Ok c mail Em).
  - exists l. split; [exact Ep|by eapply ParseTrustedProxies_valid].
  - by apply negb_false_iff in Ea.
Qed.

Lemma secret_nonempty (l : list Z) : length l = 32%nat -> RawURLEncodeToString l <> "".
Proof.
  unfold RawURLEncodeToString. destruct (enc64 url64 [] l) as [|x k] eqn:E; [|done].
  by apply enc64_nil in E as ->.
Qed.

Lemma wp_rand n w (Q : res (list Z) -> World -> Prop) :
  (forall r w', same_disk w w' -> (forall l, r = Ok l -> length l = n) -> Q r w') -> wp (randRead n) w Q.
Proof.
  intros HQ. apply wp_intro. intros r w' Hr. unfold randRead in Hr. rewrite run_trigger in Hr. cbn in Hr.
  injection Hr as <- <-. apply HQ; [split; cbn; [lia|done]|]. intros l. destruct (env_rand _ _) eqn:E; [|done].
  intros [= ->]. by apply rand_length in E as [? _].
Qed.

(** The cookie secret: the configured one or a fresh one. *)
Lemma cookie_secret_spec secret w :
  wp (if secret ==? "" then mapErr (Errorf "failed to generate cookie secret") (generateRandomSecret 32)
      else ret_ok secret) w (fun r w' => same_disk w w' /\ forall s, r = Ok s -> s <> "").
Proof.
  apply wp_if; intros Hs.
  - unfold generateRandomSecret. apply wp_mapErr, wp_bind, wp_rand. intros [l|e] w' Hd Hl; apply wp_ret; [|done].
    split; [done|]. intros s [= <-]. apply secret_nonempty. by apply Hl.
  - apply wp_ret. split; [done|]. intros s [= <-]. by apply bool_decide_eq_false in Hs.
Qed.

(** Claim C19.  A configuration that [Load] returns is sound: the access token
    lifetime is positive and at most a day, the drivers, the signing
    algorithm and the trusted proxies are ones the program knows, there is a
    cookie secret, cookies of an https issuer are Secure and its playground
    is off unless the operator set these, and with credentials no origin but
    a listed one is told anything by the CORS middleware built from it. *)
Theorem config_sound ReadEnv env w c w' :
  run (Load ReadEnv env) w = (Ok c, w') ->
  well_configured c /\ cfg_CookieSecret c <> "" /\ same_disk w w' /\
  (https_issuer c = true ->
   (env "IDPICO_COOKIE_SECURE" = None -> cfg_CookieSecure c = true) /\
   (env "IDPICO_PLAYGROUND_ENABLED" = None -> cfg_PlaygroundEnabled c = false)) /\
  (forall cors next r, cfg_CORSAllowCredentials c = true -> co_AllowedOrigins cors = ParseCORSAllowedOrigins c ->
   hr_Header r "Origin" ∉ ParseCORSAllowedOrigins c ->
   CORSMiddleware (Some cors) next r =
   if hr_Method r ==? "OPTIONS" then Ret (Wrote StatusNoContent [] BEmpty) else next r).
Proof.
  set (Q := fun r w' => r = Ok c -> well_configured c /\ cfg_CookieSecret c <> "" /\ same_disk w w' /\
    (https_issuer c = true ->
     (env "IDPICO_COOKIE_SECURE" = None -> cfg_CookieSecure c = true) /\
     (env "IDPICO_PLAYGROUND_ENABLED" = None -> cfg_PlaygroundEnabled c = false))).
  intros Hrun. assert (Q (Ok c) w') as HQ.
  { refine (wp_run _ _ Q _ _ _ Hrun). clear Hrun w'. unfold Load. destruct (ReadEnv env) as [c0|e]; [|by apply wp_ret].
    eapply wp_step; [apply cookie_secret_spec|]. intros [secret|e] w' [Hd Hs]; apply wp_ret; [|done].
    intros [Hw (E1 & E2 & E3 & E4)]%check_config_Ok. cbn in E1, E2, E3, E4. split_and!; [done|rewrite E1; auto|done|].
    unfold https_issuer. rewrite E2, E3, E4. unfold unless_https, https_issuer.
    intros ->. by split; intros ->. }
  destruct (HQ eq_refl) as (Hw & Hs & Hd & Hh). split_and!; try done.
  intros cors next r Hc Ho Hn. apply cors_silent. destruct (origin_allowed _ _) eqn:E; [|done].
  apply origin_allowed_spec in E as [E|E]; rewrite Ho in E; [|done]. by apply wc_cors in E.
Qed.

(** A rotation interval in days is multiplied without a check: 213504 days
    rotate the signing key about every 25 minutes. *)
Lemma many_rotation_days_wrap c :
  cfg_SigningKeyRotationDays c = 213504 -> SigningKeyMaxAge c = 1526290448384.
Proof. unfold SigningKeyMaxAge. by intros ->. Qed.
End config.
