(* ===== verification/AccountHandlers.v ===== *)
(** * internal/http: the account pages

    account.go (password reset and email verification), account_page.go,
    account_twostep.go and the account part of passkeys.go (the signed-in
    user's own page).  [requireUser] puts the current user before every
    handler of the page; the handlers take it as an argument.  A page shown
    after a failed change shows the user as read for the request (the Go
    handler shows its copy, which the failed change may have touched). *)
From S2P Require Import Prelude GoTime GoText GoUrl Errors Domain Lockout PendingLogins.
From S2P Require Import World Run Store Password Jwt Keys Totp Csrf Session AuthService Passkeys Account.
From S2P Require Import Authorize TokenService Http LoginHandlers Metrics.
#[local] Open Scope Z_scope.
#[local] Open Scope go_scope.

(** ** account.go *)

Record AccountHandler := {
  ach_accounts : AccountService;
  ach_csrf : CSRFService;
  ach_resetTTL : string;
}.

(** The message of a structured error, else its text. *)
Definition userMessage (e : error) : string := default (Error_string e) (direct_message e).

Definition ignored_token (t : res string) : string := match t with Ok t => t | Err _ => "" end.

Section account.
Context `{Store} `{UnicodeTables} `{Argon2} (h : AccountHandler).

Definition renderForgot (status : Z) (email error : string) : Prog Response :=
  let! t := GenerateToken (ach_csrf h) in
  Ret (Rendered status (ForgotForm {|
    fp_CSRFToken := ignored_token t; fp_Email := email; fp_Error := error; fp_Sent := false;
    fp_TTL := ach_resetTTL h |})).

Definition renderReset (status : Z) (token error : string) : Prog Response :=
  let! t := GenerateToken (ach_csrf h) in
  Ret (Rendered status (ResetForm {|
    rp_CSRFToken := ignored_token t; rp_Token := token; rp_Error := error;
    rp_MinLength := MinPasswordLength |})).

Definition renderInvalidLink : Prog Response :=
  Ret (Rendered StatusBadRequest (MessagePage (message "Link Invalid" ""
    "This password reset link is invalid or has expired. Please request a new one."
    "/forgot-password" "Request a new link"))).

Definition ForgotPasswordPage (_ : HttpRequest) : Prog Response := renderForgot StatusOK "" "".

Definition ForgotPassword (r : HttpRequest) : Prog Response :=
  let '(rq, ok) := ParseForm r in
  if negb ok then renderForgot StatusBadRequest "" "Invalid form data"
  else
    let email := FormValue rq "email" in
    let! v := ValidateToken (ach_csrf h) rq in
    match v with
    | Err _ => renderForgot StatusBadRequest email "Invalid or expired form, please try again"
    | Ok _ =>
        if email ==? "" then renderForgot StatusBadRequest "" "Email is required"
        else
          let! a := RequestPasswordReset (ach_accounts h) email in
          match a with
          | Err _ =>
              renderForgot StatusInternalServerError email "Something went wrong, please try again later"
          | Ok _ =>
              let! _ := ClearToken (ach_csrf h) in
              Ret (Rendered StatusOK (ForgotForm {|
                fp_CSRFToken := ""; fp_Email := email; fp_Error := ""; fp_Sent := true;
                fp_TTL := ach_resetTTL h |}))
          end
    end.

Definition ResetPasswordPage (r : HttpRequest) : Prog Response :=
  let token := url_query r "token" in
  if token ==? "" then renderInvalidLink else renderReset StatusOK token "".

Definition ResetPassword_handler (r : HttpRequest) : Prog Response :=
  let '(rq, ok) := ParseForm r in
  if negb ok then renderReset StatusBadRequest "" "Invalid form data"
  else
    let token := FormValue rq "token" in
    let! v := ValidateToken (ach_csrf h) rq in
    match v with
    | Err _ => renderReset StatusBadRequest token "Invalid or expired form, please try again"
    | Ok _ =>
        let password := FormValue rq "password" in
        if password !=? FormValue rq "confirm" then
          renderReset StatusBadRequest token "Passwords do not match"
        else
          let! a := ResetPassword (ach_accounts h) token password in
          match a with
          | Err e =>
              if IsCode e CodeInvalidInput then renderReset StatusBadRequest token (userMessage e)
              else if IsCode e CodeTokenInvalid then renderInvalidLink
              else renderReset StatusInternalServerError token
                     "Something went wrong, please try again later"
          | Ok _ =>
              let! _ := ClearToken (ach_csrf h) in
              found ("/login?message=" +:+ QueryEscape "Your password has been updated. Please sign in.")
          end
    end.

Definition VerifyEmail_handler (r : HttpRequest) : Prog Response :=
  let! a := VerifyEmail (ach_accounts h) (url_query r "token") in
  Ret (match a with
       | Err _ =>
           Rendered StatusBadRequest (MessagePage (message "Verification Failed" ""
             "This verification link is invalid or has expired." "/login" "Go to sign in"))
       | Ok user =>
           Rendered StatusOK (MessagePage (message "Email Verified" (user_Email user +:+ " has been verified.")
             "" "/login" "Go to sign in"))
       end).
End account.

(** ** account_page.go *)

Record AccountPageHandler := {
  aph_auth : Service;
  aph_wa : bool;
  aph_account : option AccountService;
  aph_audit : bool;
}.

(** [groupsOf4]: the secret in groups, for typing. *)
Fixpoint groups_from (fuel : nat) (s : string) : list string :=
  match fuel with
  | O => [s]
  | S fuel => if 4 <? len s then str_take 4 s :: groups_from fuel (str_drop 4 s) else [s]
  end.
Definition groupsOf4 (s : string) : string := Join (groups_from (String.length s) s) " ".

Section page.
Context `{Store} `{UnicodeTables} `{Argon2} `{WebAuthn} (h : AccountPageHandler).

Definition requireUser (next : HttpRequest -> User -> Prog Response) (r : HttpRequest) : Prog Response :=
  let! u := GetCurrentUser (with_form [] r) in
  match u with
  | Err _ => found ("/login?return_url=" +:+ QueryEscape (RequestURI (hr_URL r)))
  | Ok user => next r user
  end.

Definition currentSessionID (r : HttpRequest) : Prog string :=
  let! s := GetSessionFromRequest (with_form [] r) in
  Ret (match s with Ok s => session_ID s | Err _ => "" end).

Definition base (r : HttpRequest) (user : User) : Prog wideBase :=
  let! t := GenerateToken (as_csrf (aph_auth h)) in
  Ret {| wb_Section := "account"; wb_CurrentUser := Some user; wb_CSRFToken := ignored_token t;
         wb_Flash := url_query r "flash"; wb_Error := "" |}.

Definition ok_list {A} (x : res (list A)) : list A := match x with Ok l => l | Err _ => [] end.

Definition render (r : HttpRequest) (user : User) (status : Z) (errMsg : string) : Prog Response :=
  let! current := currentSessionID r in
  let! b := base r user in
  let! sessions := Sessions_ListByUserID (user_ID user) in
  let! tokens := Tokens_ListByUserID (user_ID user) in
  let! consents := Consents_ListByUserID (user_ID user) in
  let! passkeys := user_passkeys (aph_auth h) (user_ID user) in
  Ret (Rendered status (AccountPage {|
    ap_base := wb_set_error errMsg b;
    ap_Sessions := map (fun s => (s, session_ID s ==? current)) (ok_list sessions);
    ap_Tokens := List.filter (fun t => negb (token_Revoked t)) (ok_list tokens);
    ap_Consents := ok_list consents;
    ap_CanChangePassword := bool_decide (is_Some (aph_account h));
    ap_MinPasswordLength := MinPasswordLength;
    ap_PasskeysAvailable := PasskeysAvailable (aph_auth h) (aph_wa h);
    ap_Passkeys := ok_list passkeys;
    ap_HasSecondFactor := TOTPEnabled user || (0 <? Z.of_nat (length (ok_list passkeys))) |})).

Definition Account_Page (r : HttpRequest) (user : User) : Prog Response := render r user StatusOK "".

(** A handler of a form: [k] runs on the parsed request once the token is
    valid. *)
Definition checkCSRF (r : HttpRequest) (user : User) (k : Request -> Prog Response) : Prog Response :=
  let '(rq, ok) := ParseForm r in
  if negb ok then render r user StatusBadRequest "Invalid form data"
  else
    let! v := ValidateToken (as_csrf (aph_auth h)) rq in
    match v with
    | Err _ => render r user StatusBadRequest "Invalid or expired form, please try again"
    | Ok _ => k rq
    end.

Definition done_page (flash : string) : Prog Response := found ("/account?flash=" +:+ QueryEscape flash).

Definition record (r : HttpRequest) (user : User) (action detail : string) : Prog unit :=
  RecordEvent (aph_audit h) (user_event user action detail (ClientIP (with_form [] r))).

(** Deletions and revocations that find nothing are done. *)
Definition failed (x : res unit) : bool :=
  match x with Ok _ => false | Err e => negb (IsCode e CodeNotFound) end.

Definition RevokeSession (r : HttpRequest) (user : User) : Prog Response :=
  checkCSRF r user (fun rq =>
    let id := URLParam r "sessionID" in
    let! s := Sessions_GetByID id in
    match s with
    | Err _ => done_page "Session not found"
    | Ok sess =>
        if session_UserID sess !=? user_ID user then done_page "Session not found"
        else
          let! d := Sessions_Delete id in
          if failed d then render r user StatusInternalServerError "Failed to sign out that session"
          else
            let! _ := record r user "user.session_revoked" ("session " +:+ id +:+ " (self-service)") in
            let! current := currentSessionID r in
            if id ==? current then
              let! _ := Logout (aph_auth h) rq in
              found ("/login?message=" +:+ QueryEscape "Signed out")
            else done_page "Session signed out"
    end).

Fixpoint delete_others (current : string) (l : list Session) : Prog unit :=
  match l with
  | [] => Ret tt
  | s :: l =>
      let! _ := (if session_ID s ==? current then Ret tt else ignore (Sessions_Delete (session_ID s))) in
      delete_others current l
  end.

Definition RevokeOtherSessions (r : HttpRequest) (user : User) : Prog Response :=
  checkCSRF r user (fun _ =>
    let! current := currentSessionID r in
    let! sessions := Sessions_ListByUserID (user_ID user) in
    match sessions with
    | Err _ => render r user StatusInternalServerError "Failed to list sessions"
    | Ok sessions =>
        let! _ := delete_others current sessions in
        let! _ := ignore (Tokens_RevokeByUserID (user_ID user)) in
        let! _ := record r user "user.sessions_revoked" "all other sessions and refresh tokens (self-service)" in
        done_page "Signed out everywhere else; refresh tokens revoked"
    end).

Definition RevokeToken (r : HttpRequest) (user : User) : Prog Response :=
  checkCSRF r user (fun _ =>
    let id := URLParam r "tokenID" in
    let! t := Tokens_GetByID id in
    match t with
    | Err _ => done_page "Token not found"
    | Ok tok =>
        if token_UserID tok !=? user_ID user then done_page "Token not found"
        else
          let! d := Tokens_Revoke id in
          if failed d then render r user StatusInternalServerError "Failed to revoke token"
          else
            let! _ := record r user "user.token_revoked"
              ("token for " +:+ token_ClientID tok +:+ " (self-service)") in
            done_page "Refresh token revoked"
    end).

Fixpoint revoke_tokens_of (clientID : string) (l : list Token) : Prog unit :=
  match l with
  | [] => Ret tt
  | t :: l =>
      let! _ := (if (token_ClientID t ==? clientID) && negb (token_Revoked t)
                 then ignore (Tokens_Revoke (token_ID t)) else Ret tt) in
      revoke_tokens_of clientID l
  end.

Definition RevokeConsent (r : HttpRequest) (user : User) : Prog Response :=
  checkCSRF r user (fun _ =>
    let clientID := URLParam r "clientID" in
    let! d := Consents_Delete (user_ID user) clientID in
    if failed d then render r user StatusInternalServerError "Failed to revoke consent"
    else
      let! tokens := Tokens_ListByUserID (user_ID user) in
      let! _ := revoke_tokens_of clientID (ok_list tokens) in
      let! _ := record r user "user.consent_revoked" ("client " +:+ clientID +:+ " (self-service)") in
      done_page ("Access for " +:+ clientID +:+ " revoked")).

Definition ChangePassword (r : HttpRequest) (user : User) : Prog Response :=
  match aph_account h with
  | None => Ret (HttpError StatusNotFound [] "404 page not found")
  | Some _ =>
      checkCSRF r user (fun rq =>
        let next := FormValue rq "new_password" in
        let! v := VerifyCurrentPassword (aph_auth h) user (FormValue rq "current_password") in
        match v with
        | Err e =>
            if errors_Is e ErrAccountLocked then render r user StatusForbidden lockedMessage
            else render r user StatusBadRequest "Current password is incorrect"
        | Ok _ =>
            if next !=? FormValue rq "confirm_password" then
              render r user StatusBadRequest "New passwords do not match"
            else
              let! p := SetPassword user next in
              match p with
              | Err e =>
                  render r user StatusBadRequest
                    (match e with
                     | IdpError c m | IdpWrapped c m _ =>
                         if c ==? CodeInvalidInput then m else "Failed to change password"
                     | _ => "Failed to change password"
                     end)
              | Ok _ =>
                  let! _ := record r user "password.changed" "self-service" in
                  let! _ := Logout (aph_auth h) rq in
                  found ("/login?message=" +:+ QueryEscape "Password changed; please sign in again")
              end
        end)
  end.

(** ** account_twostep.go *)

Definition renderTwoStepSetup (r : HttpRequest) (user : User) (status : Z) (secret errMsg : string)
    : Prog Response :=
  let! b := base r user in
  Ret (Rendered status (TwoStepPage {|
    tp_base := wb_set_error errMsg b; tp_Secret := secret; tp_SecretDisplay := groupsOf4 secret;
    tp_QRURI := TOTPURI "IDPico" (user_Email user) secret; tp_RecoveryCodes := [] |})).

Definition renderRecoveryCodes (r : HttpRequest) (user : User) (codes : list string) (flash : string)
    : Prog Response :=
  let! b := base r user in
  Ret (Rendered StatusOK (TwoStepPage {|
    tp_base := wb_set_flash flash b; tp_Secret := ""; tp_SecretDisplay := ""; tp_QRURI := "";
    tp_RecoveryCodes := codes |})).

Definition TwoStepSetup (r : HttpRequest) (user : User) : Prog Response :=
  if TOTPEnabled user then done_page "Two-step sign-in is already on"
  else
    let! s := NewTOTPSecret in
    match s with
    | Err _ => render r user StatusInternalServerError "Failed to start setup"
    | Ok secret => renderTwoStepSetup r user StatusOK secret ""
    end.

Definition TwoStepEnable (r : HttpRequest) (user : User) : Prog Response :=
  checkCSRF r user (fun rq =>
    let secret := FormValue rq "secret" in
    let! a := EnableTOTP (aph_auth h) rq user (FormValue rq "current_password") secret (FormValue rq "code") in
    match a with
    | Err e =>
        if errors_Is e ErrInvalidPassword then
          renderTwoStepSetup r user StatusBadRequest secret "Your current password is incorrect."
        else if errors_Is e ErrAccountLocked then
          renderTwoStepSetup r user StatusForbidden secret lockedMessage
        else if errors_Is e ErrInvalidCode then
          renderTwoStepSetup r user StatusBadRequest secret
            "That code did not match. Check that the app added the account and that your phone's clock is right, then try the current code."
        else render r user StatusInternalServerError "Failed to turn on two-step sign-in"
    | Ok codes => renderRecoveryCodes r user codes "Two-step sign-in is on."
    end).

Definition twoStepError (r : HttpRequest) (user : User) (e : error) : Prog Response :=
  if errors_Is e ErrInvalidCode then
    render r user StatusBadRequest
      "That code is not valid. Use the current code from your app, or a recovery code."
  else if errors_Is e ErrAccountLocked then render r user StatusForbidden lockedMessage
  else if errors_Is e ErrInvalidPassword then
    render r user StatusBadRequest "Your current password is incorrect."
  else render r user StatusInternalServerError "Failed to change two-step sign-in".

Definition TwoStepDisable (r : HttpRequest) (user : User) : Prog Response :=
  checkCSRF r user (fun rq =>
    let! a := DisableTOTP (aph_auth h) rq user (FormValue rq "code") in
    match a with
    | Err e => twoStepError r user e
    | Ok _ => done_page "Two-step sign-in is off"
    end).

Definition TwoStepRecoveryCodes (r : HttpRequest) (user : User) : Prog Response :=
  checkCSRF r user (fun rq =>
    let! a := RenewRecoveryCodes (aph_auth h) rq user (FormValue rq "code") (FormValue rq "current_password") in
    match a with
    | Err e => twoStepError r user e
    | Ok codes => renderRecoveryCodes r user codes "New recovery codes; the old ones no longer work."
    end).

(** ** passkeys.go *)

(** As [checkCSRF], with JSON answers and a bounded body. *)
Definition jsonCSRF (r : HttpRequest) (k : Request -> Prog Response) : Prog Response :=
  let '(rq, ok) := ParseForm (limited r) in
  if negb ok then Ret (passkeyError StatusBadRequest "Invalid request.")
  else
    let! v := ValidateToken (as_csrf (aph_auth h)) rq in
    match v with
    | Err _ => Ret (passkeyError StatusBadRequest "This page has expired. Reload it and try again.")
    | Ok _ => k rq
    end.

Definition PasskeyRegisterBegin (r : HttpRequest) (user : User) : Prog Response :=
  jsonCSRF r (fun rq =>
    let! c := BeginPasskeyRegistration (aph_auth h) (aph_wa h) user (FormValue rq "current_password") in
    Ret (match c with
         | Err e => passkeyFailure e
         | Ok creation => writeJSON StatusOK (BJson creation)
         end)).

Definition PasskeyRegisterFinish (r : HttpRequest) (user : User) : Prog Response :=
  jsonCSRF r (fun rq =>
    let! c := FinishPasskeyRegistration (aph_auth h) (aph_wa h) rq user (FormValue rq "name")
                (FormValue rq "credential") in
    Ret (match c with
         | Err e => passkeyFailure e
         | Ok [] => writeJSON StatusOK
                      (BStrings [("redirect", "/account?flash=" +:+ QueryEscape "Passkey added")])
         | Ok codes => writeJSON StatusOK (BCodes codes)
         end)).

Definition PasskeyRemove (r : HttpRequest) (user : User) : Prog Response :=
  checkCSRF r user (fun rq =>
    let! a := RemovePasskey (aph_auth h) rq user (URLParam r "passkeyID") (FormValue rq "current_password") in
    match a with
    | Ok _ => done_page "Passkey removed"
    | Err e =>
        if errors_Is e ErrInvalidPassword then
          render r user StatusBadRequest "Your current password is incorrect."
        else if errors_Is e ErrAccountLocked then render r user StatusForbidden lockedMessage
        else if IsCode e CodeNotFound then done_page "Passkey not found"
        else render r user StatusInternalServerError "Failed to remove the passkey"
    end).

(** [Routes]: method, pattern and handler; every handler runs under
    [requireUser]. *)
Definition Account_Routes : list (string * string * (HttpRequest -> Prog Response)) :=
  map (fun x => (x.1.1, x.1.2, requireUser x.2)) [
    ("GET", "/account", Account_Page);
    ("GET", "/account/two-step", TwoStepSetup);
    ("POST", "/account/sessions/{sessionID}/revoke", RevokeSession);
    ("POST", "/account/sessions/revoke-others", RevokeOtherSessions);
    ("POST", "/account/tokens/{tokenID}/revoke", RevokeToken);
    ("POST", "/account/consents/{clientID}/revoke", RevokeConsent);
    ("POST", "/account/password", ChangePassword);
    ("POST", "/account/two-step/enable", TwoStepEnable);
    ("POST", "/account/two-step/disable", TwoStepDisable);
    ("POST", "/account/two-step/recovery-codes", TwoStepRecoveryCodes);
    ("POST", "/account/passkeys/register/begin", PasskeyRegisterBegin);
    ("POST", "/account/passkeys/{passkeyID}/remove", PasskeyRemove);
    ("POST", "/account/passkeys/register/finish", PasskeyRegisterFinish)].
End page.
