(* ===== verification/AdminHandlers.v ===== *)
(** * internal/http/admin.go: the administration pages

    [requireAdmin] puts the signed-in administrator before every handler; the
    handlers take that user as an argument.  The service is configured with
    an account service always, as [main] does, and with a key service or
    none. *)
From S2P Require Import Prelude GoTime GoText GoUrl GoDuration Encoding Errors Domain Lockout PendingLogins.
From S2P Require Import World Run Store Keys Password Jwt Totp Csrf Session AuthService Passkeys Account.
From S2P Require Import Authorize TokenService Http LoginHandlers ClientForm AccountHandlers Metrics.
#[local] Open Scope Z_scope.
#[local] Open Scope go_scope.

Record AdminConfig := {
  ac_AuthService : Service;
  ac_AccountService : AccountService;
  ac_KeyService : option KeyService;
  ac_IssuerURL : string;
  ac_KeyGracePeriod : Z;
  ac_GroupsClaim : string;
  ac_AccessTokenTTL : Z;
  ac_RefreshTokenTTL : Z;
  ac_PlaygroundEnabled : bool;
  ac_audit : bool;
}.

(** [NewAdminHandler] fills in what is not configured. *)
Definition NewAdminHandler (cfg : AdminConfig) : AdminConfig := {|
  ac_AuthService := ac_AuthService cfg; ac_AccountService := ac_AccountService cfg;
  ac_KeyService := ac_KeyService cfg; ac_IssuerURL := ac_IssuerURL cfg;
  ac_KeyGracePeriod := if ac_KeyGracePeriod cfg =? 0 then 24 * Hour else ac_KeyGracePeriod cfg;
  ac_GroupsClaim := if ac_GroupsClaim cfg ==? "" then "groups" else ac_GroupsClaim cfg;
  ac_AccessTokenTTL := ac_AccessTokenTTL cfg; ac_RefreshTokenTTL := ac_RefreshTokenTTL cfg;
  ac_PlaygroundEnabled := ac_PlaygroundEnabled cfg; ac_audit := ac_audit cfg |}.

Definition length_Z {A} (l : list A) : Z := Z.of_nat (length l).

Section admin.
Context `{Store} `{UnicodeTables} `{KeyLib} `{Argon2} (h : AdminConfig).

(** ** Plumbing *)

Definition requireAdmin (next : HttpRequest -> User -> Prog Response) (r : HttpRequest) : Prog Response :=
  let! u := GetCurrentUser (with_form [] r) in
  match u with
  | Err _ => found ("/login?return_url=" +:+ QueryEscape (RequestURI (hr_URL r)))
  | Ok user =>
      if negb (user_Admin user) then
        Ret (Rendered StatusForbidden (MessagePage (message "Access Denied" ""
          ("Your account (" +:+ user_Email user +:+ ") is not an administrator.") "/logout" "Sign out")))
      else
        let! _ := emit (SetHeader "Cache-Control" "no-store") in
        next r user
  end.

Definition admin_record (r : HttpRequest) (admin : User) (action targetType targetID detail : string)
    : Prog unit :=
  RecordEvent (ac_audit h) {|
    e_Actor := Some admin; e_ActorEmail := ""; e_Action := action; e_TargetType := targetType;
    e_TargetID := targetID; e_Detail := detail; e_IP := ClientIP (with_form [] r) |}.

Definition admin_base (r : HttpRequest) (admin : User) (section : string) : Prog adminBase :=
  let! t := GenerateToken (as_csrf (ac_AuthService h)) in
  Ret {| ab_Section := section; ab_CurrentUser := Some admin; ab_CSRFToken := ignored_token t;
         ab_Flash := url_query r "flash"; ab_Error := ""; ab_PlaygroundEnabled := ac_PlaygroundEnabled h |}.

Definition fail_page (status : Z) (msg : string) : Prog Response :=
  Ret (Rendered status (MessagePage (message "Error" "" msg "/admin" "Back to admin"))).

Definition admin_checkCSRF (r : HttpRequest) (k : Request -> Prog Response) : Prog Response :=
  let '(rq, ok) := ParseForm r in
  if negb ok then fail_page StatusBadRequest "Invalid form data"
  else
    let! v := ValidateToken (as_csrf (ac_AuthService h)) rq in
    match v with
    | Err _ => fail_page StatusBadRequest "Invalid or expired form, please go back and try again"
    | Ok _ => k rq
    end.

Definition redirect (path flash : string) : Prog Response :=
  found (if flash !=? "" then path +:+ "?flash=" +:+ QueryEscape flash else path).

(** A row named in the path, or the page that it is not there. *)
Definition load_row {A} (get_by_id : string -> Prog (res A)) (what lower : string) (r : HttpRequest)
    (k : A -> Prog Response) : Prog Response :=
  let! x := get_by_id (URLParam r "id") in
  match x with
  | Ok x => k x
  | Err e => if IsCode e CodeNotFound then fail_page StatusNotFound (what +:+ " not found")
             else fail_page StatusInternalServerError ("Failed to load " +:+ lower)
  end.

Definition loadUser := load_row Users_GetByID "User" "user".
Definition loadGroup := load_row Groups_GetByID "Group" "group".
Definition loadClient := load_row Clients_GetByID "Client" "client".

Definition Dashboard (r : HttpRequest) (admin : User) : Prog Response :=
  let! users := Users_List in
  let! groups := Groups_List in
  let! clients := Clients_List in
  let! keys := (match ac_KeyService h with Some _ => ListKeys | None => ret_ok [] end) in
  let! b := admin_base r admin "" in
  Ret (Rendered StatusOK (AdminDashboard b (length_Z (ok_list users)) (length_Z (ok_list groups))
    (length_Z (ok_list clients)) (length_Z (ok_list keys)) (ac_IssuerURL h))).

(** ** Users *)

Definition Users (r : HttpRequest) (admin : User) : Prog Response :=
  let! users := Users_List in
  match users with
  | Err _ => fail_page StatusInternalServerError "Failed to list users"
  | Ok users => let! b := admin_base r admin "users" in Ret (Rendered StatusOK (AdminUsers b users))
  end.

(** A form about [user], with an error or none. *)
Definition user_form (isNew : bool) (user : User) : userFormData := {|
  uf_IsNew := isNew; uf_IsSelf := false; uf_User := user; uf_Consents := []; uf_AllGroups := [];
  uf_Sessions := []; uf_Tokens := []; uf_Passkeys := []; uf_MinPasswordLength := 0 |}.

Definition renderUserForm (r : HttpRequest) (admin : User) (status : Z) (data : userFormData)
    (errMsg : string) : Prog Response :=
  let! b := admin_base r admin "users" in
  let! passkeys := (if uf_IsNew data then ret_ok [] else Passkeys_ListByUserID (user_ID (uf_User data))) in
  Ret (Rendered status (AdminUserForm (ab_set_error errMsg b) {|
    uf_IsNew := uf_IsNew data; uf_IsSelf := user_ID (uf_User data) ==? user_ID admin;
    uf_User := uf_User data; uf_Consents := uf_Consents data; uf_AllGroups := uf_AllGroups data;
    uf_Sessions := uf_Sessions data; uf_Tokens := uf_Tokens data; uf_Passkeys := ok_list passkeys;
    uf_MinPasswordLength := MinPasswordLength |})).

Definition blank_user (active : bool) : User := {|
  user_ID := ""; user_Email := ""; user_PasswordHash := ""; user_DisplayName := ""; user_GivenName := "";
  user_FamilyName := ""; user_Active := active; user_EmailVerified := false; user_Admin := false;
  user_TOTPSecret := ""; user_TOTPLastStep := 0; user_RecoveryCodes := [];
  user_CreatedAt := zero_time; user_UpdatedAt := zero_time |}.

Definition NewUser (r : HttpRequest) (admin : User) : Prog Response :=
  renderUserForm r admin StatusOK (user_form true (blank_user true)) "".

Definition checked (rq : Request) (name : string) : bool := FormValue rq name ==? "1".
Definition field (rq : Request) (name : string) : string := TrimSpace (FormValue rq name).

Definition user_from_form (id : string) (rq : Request) : User := {|
  user_ID := id; user_Email := field rq "email"; user_PasswordHash := "";
  user_DisplayName := field rq "display_name"; user_GivenName := field rq "given_name";
  user_FamilyName := field rq "family_name"; user_Active := checked rq "active";
  user_EmailVerified := checked rq "email_verified"; user_Admin := checked rq "admin";
  user_TOTPSecret := ""; user_TOTPLastStep := 0; user_RecoveryCodes := [];
  user_CreatedAt := zero_time; user_UpdatedAt := zero_time |}.

Definition randomSecret (n : nat) : Prog (res string) :=
  let? b := mapErr (Errorf "failed to generate random bytes") (randRead n) in
  ret_ok (RawURLEncodeToString b).

(** The mails a new user gets, and what the page says of them. *)
Definition welcome (r : HttpRequest) (admin : User) (rq : Request) (invite : bool) (user : User)
    : Prog string :=
  let! flash := (if invite then
      let! s := SendPasswordReset (ac_AccountService h) user in
      match s with
      | Err _ => Ret "User created, but the invite email could not be sent"
      | Ok _ =>
          let! _ := admin_record r admin "user.invited" "user" (user_ID user) (user_Email user) in
          Ret "User created and invite email sent"
      end
    else Ret "User created") in
  if checked rq "send_verification" && negb (user_EmailVerified user) then
    let! s := SendEmailVerification (ac_AccountService h) user in
    Ret (flash +:+ match s with
                   | Err _ => ", but the verification email could not be sent"
                   | Ok _ => "; verification email sent"
                   end)
  else Ret flash.

(** The password of the form, or a random one for an invited user. *)
Definition chosen_password (password : string) : Prog (string + string) :=
  if password ==? "" then
    let! s := randomSecret 32 in
    Ret (match s with Ok s => inr s | Err _ => inl "Failed to generate placeholder password" end)
  else Ret (match ValidatePassword password with
            | Err e => inl (userMessage e)
            | Ok _ => inr password
            end).

Definition admin_CreateUser (r : HttpRequest) (admin : User) : Prog Response :=
  admin_checkCSRF r (fun rq =>
    let! id := newUUID in
    let user := user_from_form id rq in
    let renderErr u msg := renderUserForm r admin StatusBadRequest (user_form true u) msg in
    let password := FormValue rq "password" in
    if user_Email user ==? "" then renderErr user "Email is required"
    else
      let! p := chosen_password password in
      match p with
      | inl msg => renderErr user msg
      | inr secret =>
          let! hash := HashPassword secret in
          match hash with
          | Err _ => renderErr user "Failed to hash password"
          | Ok hash =>
              let user := user_set_password hash user in
              let! c := Users_Create user in
              match c with
              | Err e =>
                  renderErr user (if IsCode e CodeAlreadyExists then "A user with that email already exists"
                                  else "Failed to create user")
              | Ok user =>
                  let! _ := admin_record r admin "user.created" "user" (user_ID user) (user_Email user) in
                  let! flash := welcome r admin rq (password ==? "") user in
                  redirect ("/admin/users/" +:+ user_ID user) flash
              end
          end
      end).

Definition groupMemberships (userID : string) : Prog (list (Group * bool)) :=
  let! all := Groups_List in
  match all with
  | Err _ => Ret []
  | Ok all =>
      let! mine := Groups_GroupsForUser userID in
      Ret (map (fun g => (g, existsb (fun m => group_ID m ==? group_ID g) (ok_list mine))) all)
  end.

Definition EditUser (r : HttpRequest) (admin : User) : Prog Response :=
  loadUser r (fun user =>
    let! consents := Consents_ListByUserID (user_ID user) in
    let! sessions := Sessions_ListByUserID (user_ID user) in
    let! tokens := Tokens_ListByUserID (user_ID user) in
    let! groups := groupMemberships (user_ID user) in
    renderUserForm r admin StatusOK {|
      uf_IsNew := false; uf_IsSelf := false; uf_User := user; uf_Consents := ok_list consents;
      uf_AllGroups := groups; uf_Sessions := ok_list sessions; uf_Tokens := ok_list tokens;
      uf_Passkeys := []; uf_MinPasswordLength := 0 |} "").

Definition user_page (user : User) : string := "/admin/users/" +:+ user_ID user.

(** A form that changes the user of the path. *)
Definition user_action (r : HttpRequest) (k : Request -> User -> Prog Response) : Prog Response :=
  admin_checkCSRF r (fun rq => loadUser r (k rq)).

Definition RevokeUserSession (r : HttpRequest) (admin : User) : Prog Response :=
  user_action r (fun _ user =>
    let sessionID := URLParam r "sessionID" in
    let! s := Sessions_GetByID sessionID in
    match s with
    | Err _ => redirect (user_page user) "Session not found"
    | Ok sess =>
        if session_UserID sess !=? user_ID user then redirect (user_page user) "Session not found"
        else
          let! d := Sessions_Delete sessionID in
          if failed d then redirect (user_page user) "Failed to revoke session"
          else
            let! _ := admin_record r admin "user.session_revoked" "user" (user_ID user)
                        ("session " +:+ sessionID) in
            redirect (user_page user) "Session revoked"
    end).

Definition RevokeUserToken (r : HttpRequest) (admin : User) : Prog Response :=
  user_action r (fun _ user =>
    let tokenID := URLParam r "tokenID" in
    let! t := Tokens_GetByID tokenID in
    match t with
    | Err _ => redirect (user_page user) "Token not found"
    | Ok tok =>
        if token_UserID tok !=? user_ID user then redirect (user_page user) "Token not found"
        else
          let! d := Tokens_Revoke tokenID in
          match d with
          | Err _ => redirect (user_page user) "Failed to revoke token"
          | Ok _ =>
              let! _ := admin_record r admin "user.token_revoked" "user" (user_ID user)
                          ("token " +:+ tokenID) in
              redirect (user_page user) "Token revoked"
          end
    end).

(** Join the groups that are wanted, leave those that are not. *)
Fixpoint apply_groups (userID : string) (wanted : list string) (l : list (Group * bool)) : Prog unit :=
  match l with
  | [] => Ret tt
  | (g, member) :: l =>
      let want := existsb (fun id => id ==? group_ID g) wanted in
      let! _ := (if want && negb member then ignore (Groups_AddMember (group_ID g) userID)
                 else if negb want && member then ignore (Groups_RemoveMember (group_ID g) userID)
                 else Ret tt) in
      apply_groups userID wanted l
  end.

(** [r.Form[name]]. *)
Definition FormValues (rq : Request) (name : string) : list string :=
  map snd (List.filter (fun kv => kv.1 ==? name) (r_form rq)).

Definition SetUserGroups (r : HttpRequest) (admin : User) : Prog Response :=
  user_action r (fun rq user =>
    let! groups := groupMemberships (user_ID user) in
    let! _ := apply_groups (user_ID user) (FormValues rq "group") groups in
    let! _ := admin_record r admin "user.groups_updated" "user" (user_ID user) (user_Email user) in
    redirect (user_page user) "Groups updated").

(** The user as the form changes it: a new address is unverified unless the
    box is ticked, and administrators cannot lock themselves out. *)
Definition updated_user (rq : Request) (admin user : User) : User :=
  let newEmail := field rq "email" in
  {| user_ID := user_ID user; user_Email := newEmail; user_PasswordHash := user_PasswordHash user;
     user_DisplayName := field rq "display_name"; user_GivenName := field rq "given_name";
     user_FamilyName := field rq "family_name"; user_Active := checked rq "active";
     user_EmailVerified := (EqualFold newEmail (user_Email user) && user_EmailVerified user)
                           || checked rq "email_verified";
     user_Admin := (user_ID user ==? user_ID admin) || checked rq "admin";
     user_TOTPSecret := user_TOTPSecret user; user_TOTPLastStep := user_TOTPLastStep user;
     user_RecoveryCodes := user_RecoveryCodes user; user_CreatedAt := user_CreatedAt user;
     user_UpdatedAt := user_UpdatedAt user |}.

Definition user_set_active (active : bool) (u : User) : User :=
  let '(Build_User i e p d g f _ v ad s l r c m) := u in Build_User i e p d g f active v ad s l r c m.

Definition bool_text (b : bool) : string := if b then "true" else "false".
Definition update_detail (user updated : User) : string :=
  user_Email updated
  +:+ (if Bool.eqb (user_Admin user) (user_Admin updated) then ""
       else " admin: " +:+ bool_text (user_Admin user) +:+ " -> " +:+ bool_text (user_Admin updated))
  +:+ (if Bool.eqb (user_Active user) (user_Active updated) then ""
       else " active: " +:+ bool_text (user_Active user) +:+ " -> " +:+ bool_text (user_Active updated)).

(** Disabling a user ends everything they hold. *)
Definition end_all (userID : string) : Prog unit :=
  let! _ := ignore (Sessions_DeleteByUserID userID) in
  ignore (Tokens_RevokeByUserID userID).

Definition UpdateUser (r : HttpRequest) (admin : User) : Prog Response :=
  user_action r (fun rq user =>
    let renderErr u msg := renderUserForm r admin StatusBadRequest (user_form false u) msg in
    if field rq "email" ==? "" then renderErr user "Email is required"
    else
      let updated := updated_user rq admin user in
      if (user_ID user ==? user_ID admin) && negb (user_Active updated) then
        renderErr (user_set_active true updated) "You cannot disable your own account"
      else
        let! u := Users_Update updated in
        match u with
        | Err e => renderErr updated (if IsCode e CodeAlreadyExists then "A user with that email already exists"
                                      else "Failed to update user")
        | Ok _ =>
            let! _ := (if user_Active user && negb (user_Active updated) then end_all (user_ID user)
                       else Ret tt) in
            let! _ := admin_record r admin "user.updated" "user" (user_ID user) (update_detail user updated) in
            redirect (user_page user) "User updated"
        end).

Definition SetUserPassword (r : HttpRequest) (admin : User) : Prog Response :=
  user_action r (fun rq user =>
    let! p := SetPassword user (FormValue rq "password") in
    match p with
    | Err e =>
        if IsCode e CodeInvalidInput then
          renderUserForm r admin StatusBadRequest (user_form false user) (userMessage e)
        else fail_page StatusInternalServerError "Failed to set password"
    | Ok _ =>
        let! _ := admin_record r admin "password.changed" "user" (user_ID user) (user_Email user) in
        redirect (user_page user) "Password updated; the user has been signed out everywhere"
    end).

Definition SendUserReset (r : HttpRequest) (admin : User) : Prog Response :=
  user_action r (fun _ user =>
    let! s := SendPasswordReset (ac_AccountService h) user in
    match s with
    | Err _ => redirect (user_page user) "Failed to send password reset email"
    | Ok _ =>
        let! _ := admin_record r admin "password.reset_requested" "user" (user_ID user)
                    (user_Email user +:+ " (sent by admin)") in
        redirect (user_page user) ("Password reset email sent to " +:+ user_Email user)
    end).

Definition SendUserVerification (r : HttpRequest) (_ : User) : Prog Response :=
  user_action r (fun _ user =>
    let! s := SendEmailVerification (ac_AccountService h) user in
    match s with
    | Err _ => redirect (user_page user) "Failed to send verification email"
    | Ok _ => redirect (user_page user) ("Verification email sent to " +:+ user_Email user)
    end).

Definition RevokeUserSessions (r : HttpRequest) (admin : User) : Prog Response :=
  user_action r (fun _ user =>
    let! _ := end_all (user_ID user) in
    let! _ := admin_record r admin "user.sessions_revoked" "user" (user_ID user) (user_Email user) in
    redirect (user_page user) "Sessions and tokens revoked").

Definition ResetUserTwoStep (r : HttpRequest) (admin : User) : Prog Response :=
  user_action r (fun _ user =>
    let! x := ResetSecondFactors user in
    match x with
    | Err _ => redirect (user_page user) "Failed to reset two-step sign-in"
    | Ok _ =>
        let! _ := admin_record r admin "totp.disabled" "user" (user_ID user)
                    (user_Email user +:+ " (reset by admin)") in
        redirect (user_page user) "Two-step sign-in reset"
    end).

Definition RevokeUserConsent (r : HttpRequest) (admin : User) : Prog Response :=
  user_action r (fun _ user =>
    let clientID := URLParam r "clientID" in
    let! d := Consents_Delete (user_ID user) clientID in
    if failed d then redirect (user_page user) "Failed to revoke consent"
    else
      let! _ := admin_record r admin "user.consent_revoked" "user" (user_ID user) ("client " +:+ clientID) in
      redirect (user_page user) ("Consent for " +:+ clientID +:+ " revoked")).

(** Everything of a user but the row. *)
Definition clear_user (userID : string) : Prog unit :=
  let! _ := end_all userID in
  let! _ := ignore (Consents_DeleteByUserID userID) in
  let! _ := ignore (Passkeys_DeleteByUserID userID) in
  let! _ := ignore (Verification_DeleteByUserID userID "") in
  ignore (Groups_RemoveUser userID).

Definition DeleteUser (r : HttpRequest) (admin : User) : Prog Response :=
  user_action r (fun _ user =>
    if user_ID user ==? user_ID admin then
      fail_page StatusBadRequest "You cannot delete your own account"
    else
      let! _ := clear_user (user_ID user) in
      let! d := Users_Delete (user_ID user) in
      match d with
      | Err _ => fail_page StatusInternalServerError "Failed to delete user"
      | Ok _ =>
          let! _ := admin_record r admin "user.deleted" "user" (user_ID user) (user_Email user) in
          redirect "/admin/users" ("User " +:+ user_Email user +:+ " deleted")
      end).
End admin.
