(* ===== verification/AdminClients.v ===== *)
(** * internal/http/admin.go: groups, clients, audit log, keys, routes *)
From S2P Require Import Prelude GoTime GoText GoUrl GoDuration Encoding Errors Domain Lockout PendingLogins.
From S2P Require Import World Run Store Keys Password Jwt Totp Csrf Session AuthService Passkeys Account.
From S2P Require Import Authorize TokenService Http LoginHandlers ClientForm AccountHandlers AdminHandlers Metrics.
#[local] Open Scope Z_scope.
#[local] Open Scope go_scope.

(** [clientIDPattern]: [^[A-Za-z0-9._:-]+$]. *)
Definition client_id_byte (b : Z) : bool :=
  in_range 65 90 b || in_range 97 122 b || in_range 48 57 b || (b =? 46) || (b =? 95) || (b =? 58) || (b =? 45).
Definition clientIDPattern (s : string) : bool :=
  (s !=? "") && forallb client_id_byte (bytes s).

Section admin.
Context `{Store} `{UnicodeTables} `{KeyLib} `{Argon2} (h : AdminConfig).

(** ** Groups *)

Fixpoint count_members (l : list Group) : Prog (list (Group * Z)) :=
  match l with
  | [] => Ret []
  | g :: l =>
      let! ids := Groups_MemberIDs (group_ID g) in
      let! rest := count_members l in
      Ret ((g, length_Z (ok_list ids)) :: rest)
  end.

Definition Groups (r : HttpRequest) (admin : User) : Prog Response :=
  let! groups := Groups_List in
  match groups with
  | Err _ => fail_page StatusInternalServerError "Failed to list groups"
  | Ok groups =>
      let! rows := count_members groups in
      let! b := admin_base h r admin "groups" in
      Ret (Rendered StatusOK (AdminGroups b rows (ac_GroupsClaim h)))
  end.

Definition renderGroupForm (r : HttpRequest) (admin : User) (status : Z) (isNew : bool) (group : Group)
    (members : list User) (errMsg : string) : Prog Response :=
  let! b := admin_base h r admin "groups" in
  Ret (Rendered status (AdminGroupForm (ab_set_error errMsg b) isNew group members)).

Definition new_group (id name description : string) : Group := {|
  group_ID := id; group_Name := name; group_Description := description;
  group_CreatedAt := zero_time; group_UpdatedAt := zero_time |}.
Definition group_set_names (name description : string) (g : Group) : Group :=
  Build_Group (group_ID g) name description (group_CreatedAt g) (group_UpdatedAt g).

Definition NewGroup (r : HttpRequest) (admin : User) : Prog Response :=
  renderGroupForm r admin StatusOK true (new_group "" "" "") [] "".

Definition group_page (g : Group) : string := "/admin/groups/" +:+ group_ID g.

Definition CreateGroup (r : HttpRequest) (admin : User) : Prog Response :=
  admin_checkCSRF h r (fun rq =>
    let! id := newUUID in
    let group := new_group id (field rq "name") (field rq "description") in
    if group_Name group ==? "" then
      renderGroupForm r admin StatusBadRequest true group [] "Name is required"
    else
      let! c := Groups_Create group in
      match c with
      | Err e =>
          renderGroupForm r admin StatusBadRequest true group []
            (if IsCode e CodeAlreadyExists then "A group with that name already exists"
             else "Failed to create group")
      | Ok group =>
          let! _ := admin_record h r admin "group.created" "group" (group_ID group) (group_Name group) in
          redirect (group_page group) "Group created"
      end).

(** The members that can be read. *)
Fixpoint load_members (ids : list string) : Prog (list User) :=
  match ids with
  | [] => Ret []
  | id :: ids =>
      let! u := Users_GetByID id in
      let! rest := load_members ids in
      Ret (match u with Ok u => u :: rest | Err _ => rest end)
  end.

Definition groupMembers (groupID : string) : Prog (list User) :=
  let! ids := Groups_MemberIDs groupID in load_members (ok_list ids).

Definition EditGroup (r : HttpRequest) (admin : User) : Prog Response :=
  loadGroup r (fun group =>
    let! members := groupMembers (group_ID group) in
    renderGroupForm r admin StatusOK false group members "").

Definition group_action (r : HttpRequest) (k : Request -> Group -> Prog Response) : Prog Response :=
  admin_checkCSRF h r (fun rq => loadGroup r (k rq)).

Definition UpdateGroup (r : HttpRequest) (admin : User) : Prog Response :=
  group_action r (fun rq group =>
    let group := group_set_names (field rq "name") (field rq "description") group in
    let! msg := (if group_Name group ==? "" then Ret "Name is required"
                 else
                   let! u := Groups_Update group in
                   Ret (match u with
                        | Ok _ => ""
                        | Err e => if IsCode e CodeAlreadyExists then "A group with that name already exists"
                                   else "Failed to update group"
                        end)) in
    if msg !=? "" then
      let! members := groupMembers (group_ID group) in
      renderGroupForm r admin StatusBadRequest false group members msg
    else
      let! _ := admin_record h r admin "group.updated" "group" (group_ID group) (group_Name group) in
      redirect (group_page group) "Group updated").

Definition AddGroupMember (r : HttpRequest) (admin : User) : Prog Response :=
  group_action r (fun rq group =>
    let email := field rq "email" in
    let! u := Users_GetByEmail email in
    match u with
    | Err _ => redirect (group_page group) ("No user with email " +:+ email)
    | Ok user =>
        let! a := Groups_AddMember (group_ID group) (user_ID user) in
        match a with
        | Err _ => redirect (group_page group) "Failed to add member"
        | Ok _ =>
            let! _ := admin_record h r admin "group.member_added" "group" (group_ID group)
                        (group_Name group +:+ " += " +:+ user_Email user) in
            redirect (group_page group) (user_Email user +:+ " added to " +:+ group_Name group)
        end
    end).

Definition RemoveGroupMember (r : HttpRequest) (admin : User) : Prog Response :=
  group_action r (fun _ group =>
    let userID := URLParam r "userID" in
    let! d := Groups_RemoveMember (group_ID group) userID in
    if failed d then redirect (group_page group) "Failed to remove member"
    else
      let! _ := admin_record h r admin "group.member_removed" "group" (group_ID group)
                  (group_Name group +:+ " -= " +:+ userID) in
      redirect (group_page group) "Member removed").

Definition DeleteGroup (r : HttpRequest) (admin : User) : Prog Response :=
  group_action r (fun _ group =>
    let! d := Groups_Delete (group_ID group) in
    match d with
    | Err _ => fail_page StatusInternalServerError "Failed to delete group"
    | Ok _ =>
        let! _ := admin_record h r admin "group.deleted" "group" (group_ID group) (group_Name group) in
        redirect "/admin/groups" ("Group " +:+ group_Name group +:+ " deleted")
    end).

(** ** Clients *)

Definition Clients (r : HttpRequest) (admin : User) : Prog Response :=
  let! clients := Clients_List in
  match clients with
  | Err _ => fail_page StatusInternalServerError "Failed to list clients"
  | Ok clients =>
      let! b := admin_base h r admin "clients" in Ret (Rendered StatusOK (AdminClients b clients))
  end.

Definition renderClientForm (r : HttpRequest) (admin : User) (status : Z) (isNew : bool) (client : Client)
    (newSecret flash errMsg : string) : Prog Response :=
  let! b := admin_base h r admin "clients" in
  let access := ttlForm (ac_AccessTokenTTL h) in
  let refresh := ttlForm (ac_RefreshTokenTTL h) in
  Ret (Rendered status (AdminClientForm
    (ab_set_error errMsg (if flash ==? "" then b else ab_set_flash flash b)) {|
      cf_IsNew := isNew; cf_Client := client; cf_NewSecret := newSecret; cf_IssuerURL := ac_IssuerURL h;
      cf_DefaultAccessTTL := access; cf_DefaultRefreshTTL := refresh;
      cf_EffectiveAccessTTL := if 0 <? client_AccessTokenTTL client
                               then ttlForm (client_AccessTokenTTL client) else access;
      cf_EffectiveRefreshTTL := if 0 <? client_RefreshTokenTTL client
                                then ttlForm (client_RefreshTokenTTL client) else refresh |})).

Definition blank_client (id : string) (scopes grants : list string) : Client := {|
  client_ID := id; client_Secret := ""; client_Name := ""; client_RedirectURIs := [];
  client_GrantTypes := grants; client_Scopes := scopes; client_Public := false;
  client_SkipConsent := false; client_MinimalIDToken := false; client_AccessTokenTTL := 0;
  client_RefreshTokenTTL := 0; client_CreatedAt := zero_time; client_UpdatedAt := zero_time |}.

Definition NewClient (r : HttpRequest) (admin : User) : Prog Response :=
  renderClientForm r admin StatusOK true (blank_client "" defaultClientScopes defaultClientGrantTypes) "" "" "".

(** The secret to show once, and the client with its hash. *)
Definition newClientSecret (client : Client) : Prog (res (string * Client)) :=
  let? secret := randomSecret 32 in
  let? hash := HashClientSecret secret in
  ret_ok (secret, client_set_secret hash client).

Definition CreateClient (r : HttpRequest) (admin : User) : Prog Response :=
  admin_checkCSRF h r (fun rq =>
    let renderErr c msg := renderClientForm r admin StatusBadRequest true c "" "" msg in
    let '(msg, client) := applyClientForm rq (blank_client (field rq "id") [] []) in
    if msg !=? "" then renderErr client msg
    else if negb (clientIDPattern (client_ID client)) then
      renderErr client "Client ID may only contain letters, digits, '.', '_', ':' and '-'"
    else
      let! s := (if client_Public client then ret_ok ("", client) else newClientSecret client) in
      match s with
      | Err _ => renderErr client "Failed to generate client secret"
      | Ok (secret, client) =>
          let! c := Clients_Create client in
          match c with
          | Err e => renderErr client (if IsCode e CodeAlreadyExists then "A client with that ID already exists"
                                       else "Failed to create client")
          | Ok client =>
              let! _ := admin_record h r admin "client.created" "client" (client_ID client) (client_Name client) in
              renderClientForm r admin StatusOK false client secret "Client created" ""
          end
      end).

Definition EditClient (r : HttpRequest) (admin : User) : Prog Response :=
  loadClient r (fun client => renderClientForm r admin StatusOK false client "" "" "").

Definition client_action (r : HttpRequest) (k : Request -> Client -> Prog Response) : Prog Response :=
  admin_checkCSRF h r (fun rq => loadClient r (k rq)).
Definition client_page (c : Client) : string := "/admin/clients/" +:+ client_ID c.

Definition UpdateClient (r : HttpRequest) (admin : User) : Prog Response :=
  client_action r (fun rq client =>
    let wasPublic := client_Public client in
    let '(msg, client) := applyClientForm rq client in
    if msg !=? "" then renderClientForm r admin StatusBadRequest false client "" "" msg
    else
      let! s := (if wasPublic && negb (client_Public client) then newClientSecret client
                 else ret_ok ("", client)) in
      match s with
      | Err _ => fail_page StatusInternalServerError "Failed to generate client secret"
      | Ok (newSecret, client) =>
          let! u := Clients_Update client in
          match u with
          | Err _ => renderClientForm r admin StatusBadRequest false client "" "" "Failed to update client"
          | Ok client =>
              let! _ := admin_record h r admin "client.updated" "client" (client_ID client) (client_Name client) in
              if newSecret !=? "" then
                renderClientForm r admin StatusOK false client newSecret "Client updated and secret generated" ""
              else redirect (client_page client) "Client updated"
          end
      end).

Definition RegenerateClientSecret (r : HttpRequest) (admin : User) : Prog Response :=
  client_action r (fun _ client =>
    if client_Public client then fail_page StatusBadRequest "Public clients do not have a secret"
    else
      let! s := newClientSecret client in
      match s with
      | Err _ => fail_page StatusInternalServerError "Failed to generate client secret"
      | Ok (secret, client) =>
          let! u := Clients_Update client in
          match u with
          | Err _ => fail_page StatusInternalServerError "Failed to update client"
          | Ok client =>
              let! _ := admin_record h r admin "client.secret_regenerated" "client"
                          (client_ID client) (client_Name client) in
              renderClientForm r admin StatusOK false client secret
                "Secret regenerated; the previous secret no longer works" ""
          end
      end).

Definition RevokeClientTokens (r : HttpRequest) (admin : User) : Prog Response :=
  client_action r (fun _ client =>
    let! d := Tokens_RevokeByClientID (client_ID client) in
    match d with
    | Err _ => redirect (client_page client) "Failed to revoke tokens"
    | Ok _ =>
        let! _ := admin_record h r admin "client.tokens_revoked" "client" (client_ID client)
                    (client_Name client) in
        redirect (client_page client) ("All tokens for " +:+ client_ID client +:+ " revoked")
    end).

Definition DeleteClient (r : HttpRequest) (admin : User) : Prog Response :=
  client_action r (fun _ client =>
    let! _ := ignore (Tokens_RevokeByClientID (client_ID client)) in
    let! d := Clients_Delete (client_ID client) in
    match d with
    | Err _ => fail_page StatusInternalServerError "Failed to delete client"
    | Ok _ =>
        let! _ := admin_record h r admin "client.deleted" "client" (client_ID client) (client_Name client) in
        redirect "/admin/clients" ("Client " +:+ client_ID client +:+ " deleted")
    end).

(** ** The audit log and the signing keys *)

Definition audit_limit : Z := 200.

Definition Audit (r : HttpRequest) (admin : User) : Prog Response :=
  let! events := Audit_List audit_limit in
  match events with
  | Err _ => fail_page StatusInternalServerError "Failed to load audit log"
  | Ok events =>
      let! b := admin_base h r admin "audit" in Ret (Rendered StatusOK (AdminAudit b events audit_limit))
  end.

Definition Admin_Keys (r : HttpRequest) (admin : User) : Prog Response :=
  match ac_KeyService h with
  | None => fail_page StatusNotFound "Key management is not enabled"
  | Some _ =>
      let! keys := ListKeys in
      match keys with
      | Err _ => fail_page StatusInternalServerError "Failed to list keys"
      | Ok keys =>
          let! b := admin_base h r admin "keys" in
          Ret (Rendered StatusOK (AdminKeys b keys (Duration_String (ac_KeyGracePeriod h))))
      end
  end.

Definition Admin_RotateKey (r : HttpRequest) (admin : User) : Prog Response :=
  admin_checkCSRF h r (fun _ =>
    match ac_KeyService h with
    | None => fail_page StatusNotFound "Key management is not enabled"
    | Some ks =>
        let! k := RotateKey ks (ac_KeyGracePeriod h) in
        match k with
        | Err _ => redirect "/admin/keys" "Failed to rotate key"
        | Ok key =>
            let! _ := admin_record h r admin "key.rotated" "key" (kp_Kid key) "rotated from admin UI" in
            redirect "/admin/keys" ("New signing key " +:+ kp_Kid key +:+ " is active")
        end
    end).

(** ** Routes, below /admin *)

Definition admin_handlers : list (string * string * (HttpRequest -> User -> Prog Response)) := [
  ("GET", "/", Dashboard h);
  ("GET", "/users", Users h);
  ("GET", "/users/new", NewUser h);
  ("POST", "/users", admin_CreateUser h);
  ("GET", "/users/{id}", EditUser h);
  ("POST", "/users/{id}", UpdateUser h);
  ("POST", "/users/{id}/password", SetUserPassword h);
  ("POST", "/users/{id}/send-reset", SendUserReset h);
  ("POST", "/users/{id}/send-verification", SendUserVerification h);
  ("POST", "/users/{id}/revoke-sessions", RevokeUserSessions h);
  ("POST", "/users/{id}/two-step/reset", ResetUserTwoStep h);
  ("POST", "/users/{id}/sessions/{sessionID}/revoke", RevokeUserSession h);
  ("POST", "/users/{id}/tokens/{tokenID}/revoke", RevokeUserToken h);
  ("POST", "/users/{id}/consents/{clientID}/revoke", RevokeUserConsent h);
  ("POST", "/users/{id}/delete", DeleteUser h);
  ("POST", "/users/{id}/groups", SetUserGroups h);
  ("GET", "/groups", Groups);
  ("GET", "/groups/new", NewGroup);
  ("POST", "/groups", CreateGroup);
  ("GET", "/groups/{id}", EditGroup);
  ("POST", "/groups/{id}", UpdateGroup);
  ("POST", "/groups/{id}/members", AddGroupMember);
  ("POST", "/groups/{id}/members/{userID}/remove", RemoveGroupMember);
  ("POST", "/groups/{id}/delete", DeleteGroup);
  ("GET", "/clients", Clients);
  ("GET", "/clients/new", NewClient);
  ("POST", "/clients", CreateClient);
  ("GET", "/clients/{id}", EditClient);
  ("POST", "/clients/{id}", UpdateClient);
  ("POST", "/clients/{id}/secret", RegenerateClientSecret);
  ("POST", "/clients/{id}/revoke-tokens", RevokeClientTokens);
  ("POST", "/clients/{id}/delete", DeleteClient);
  ("GET", "/keys", Admin_Keys);
  ("POST", "/keys/rotate", Admin_RotateKey);
  ("GET", "/audit", Audit)].

(** Every route runs under [requireAdmin]. *)
Definition Admin_Routes : list (string * string * (HttpRequest -> Prog Response)) :=
  map (fun x => (x.1.1, x.1.2, requireAdmin x.2)) admin_handlers.
End admin.
