(* ===== verification/PlaygroundHandler.v ===== *)
(** * internal/http/playground.go: the built-in relying party

    The playground drives the server's own endpoints: [router] is the server,
    a request to it runs in process, and what it would send as headers goes
    to the recorder, not to the browser.  The bodies' text, encoding/json and
    the local clock are the class [PlaygroundLib].  [mu] is held while a page
    asks /userinfo, so the critical sections are programs under
    [LPlayground]; the fields of a session that the source reads or writes
    without [mu] are events of their own. *)
From S2P Require Import Prelude GoTime GoText Encoding GoUrl Hash Errors Domain Lockout PendingLogins World Run.
From S2P Require Import Store Exec Keys Password Jwt Csrf Session AuthService Passkeys Account Authorize TokenService Http.
From S2P Require Import Middleware AdminHandlers.
From Stdlib Require Import Ascii.
#[local] Open Scope Z_scope.
#[local] Open Scope go_scope.

Definition PlaygroundClientID := "playground".
Definition playgroundCookie := "idpico_playground".
Definition playgroundPendingTTL : Z := 10 * Minute.
Definition playgroundSessionTTL : Z := 24 * Hour.

Class PlaygroundLib := {
  body_text : Response -> string;
  unmarshal_tokens : string -> res TokenResponse;
  marshal_tokens : TokenResponse -> string;
  indented : string -> option string;
  string_members : string -> option (string -> option string);
  clock_text : Z -> string;
}.

(** The fields of [PlaygroundHandler] that do not change. *)
Record PlaygroundHandler := {
  ph_csrf : CSRFService;
  ph_issuer : string;
  ph_secret : string;
}.

Definition ph_redirectURI (h : PlaygroundHandler) : string := ph_issuer h +:+ "/playground/callback".

Definition lf : string := String (ascii_of_nat 10) "".
Definition dquote : string := String (ascii_of_nat 34) "".

(** ** Registering the client *)

Definition playground_client (h : PlaygroundHandler) (hash : string) : Client := {|
  client_ID := PlaygroundClientID; client_Secret := hash; client_Name := "OIDC Playground";
  client_RedirectURIs := [ph_redirectURI h]; client_GrantTypes := ["authorization_code"; "refresh_token"];
  client_Scopes := ["openid"; "profile"; "email"; "offline_access"; "groups"]; client_Public := false;
  client_SkipConsent := false; client_MinimalIDToken := false; client_AccessTokenTTL := 0;
  client_RefreshTokenTTL := 0; client_CreatedAt := zero_time; client_UpdatedAt := zero_time |}.

(** The operator's consent choice is kept. *)
Definition keep_choice (existing client : Client) : Client :=
  let '(Build_Client i s n u g sc p _ m a r _ up) := client in
  Build_Client i s n u g sc p (client_SkipConsent existing) m a r (client_CreatedAt existing) up.

Definition NewPlaygroundHandler `{Store} `{Argon2} (csrf : CSRFService) (issuer : string)
    : Prog (res PlaygroundHandler) :=
  let? secret := randomSecret 32 in
  let? hash := HashClientSecret secret in
  let h := {| ph_csrf := csrf; ph_issuer := TrimRight "/"%char issuer; ph_secret := secret |} in
  let client := playground_client h hash in
  let! existing := Clients_GetByID PlaygroundClientID in
  let? _ := mapErr (Errorf "failed to register playground client")
    (match existing with
     | Ok existing => Clients_Update (keep_choice existing client)
     | Err e => if IsCode e CodeNotFound then Clients_Create client else ret_err e
     end) in
  ret_ok h.

(** ** The memory *)

Definition no_tokens : TokenResponse := Build_TokenResponse "" "" 0 "" "" "".
Definition no_session : playgroundSession := Build_playgroundSession no_tokens "" false "" 0 "" "" 0.

Definition playground_crit {X} (f : Playground -> X * Playground) : Prog X :=
  crit (fun _ _ m => let '(x, p) := f (m_playground m) in (x, set_playground p m)).

(** [s.field], and assignments to fields of [*s]. *)
Definition deref (s : nat) : Prog playgroundSession :=
  playground_crit (fun p => (default no_session (pg_objects p !! s), p)).
Definition assign (s : nat) (f : playgroundSession -> playgroundSession) : Prog unit :=
  playground_crit (fun p => (tt, Build_Playground (pg_pending p) (alter f s (pg_objects p)) (pg_sessions p))).

Definition ps_set_tokens (t : TokenResponse) (s : playgroundSession) : playgroundSession :=
  let '(Build_playgroundSession _ n k o a c e u) := s in Build_playgroundSession t n k o a c e u.
Definition ps_set_obtained (o : string) (s : playgroundSession) : playgroundSession :=
  let '(Build_playgroundSession t n k _ a c e u) := s in Build_playgroundSession t n k o a c e u.
Definition ps_set_at (a : Z) (s : playgroundSession) : playgroundSession :=
  let '(Build_playgroundSession t n k o _ c e u) := s in Build_playgroundSession t n k o a c e u.
Definition ps_set_last (touched : Z) (call error : string) (s : playgroundSession) : playgroundSession :=
  let '(Build_playgroundSession t n k o a _ _ _) := s in Build_playgroundSession t n k o a call error touched.

(** [prune]: states that nobody came back with, sessions nobody uses. *)
Definition prune (now : Z) (p : Playground) : Playground := {|
  pg_pending := filter (fun kv => Sub now (pp_created kv.2) <= playgroundPendingTTL) (pg_pending p);
  pg_objects := pg_objects p;
  pg_sessions := filter (fun kv => Sub now (ps_touched (default no_session (pg_objects p !! kv.2)))
                                   <= playgroundSessionTTL) (pg_sessions p) |}.

Definition add_pending (state : string) (w : playgroundPending) (p : Playground) : Playground :=
  Build_Playground (<[state := w]> (pg_pending p)) (pg_objects p) (pg_sessions p).
Definition take_pending (state : string) (p : Playground) : option playgroundPending * Playground :=
  (pg_pending p !! state, Build_Playground (delete state (pg_pending p)) (pg_objects p) (pg_sessions p)).
Definition add_session (id : string) (s : playgroundSession) (p : Playground) : Playground :=
  let new := fresh (dom (pg_objects p)) in
  Build_Playground (pg_pending p) (<[new := s]> (pg_objects p)) (<[id := new]> (pg_sessions p)).
Definition drop_session (id : string) (p : Playground) : Playground :=
  Build_Playground (pg_pending p) (pg_objects p) (delete id (pg_sessions p)).

(** ** In-process HTTP *)

(** The recorder keeps the headers and cookies of the response: the browser
    sees nothing of them. *)
Fixpoint recorded {A} (p : Prog A) : Prog A :=
  match p with
  | Ret a => Ret a
  | Vis e k =>
      match e in Ev X return (X -> Prog A) -> Prog A with
      | EOut (SetCookie _) | EOut (SetHeader _ _) => fun k => Vis ENow (fun _ => k tt)
      | e => Vis e
      end (fun x => recorded (k x))
  end.

Definition status_of (resp : Response) : Z :=
  match resp with
  | Redirected _ status | Rendered status _ | HttpError status _ _ | Wrote status _ _ => status
  | Panicked => StatusInternalServerError
  end.

Definition url_path (path : string) : URL :=
  default (Build_URL "" "" None "" path "" false false "" "" "") (Parse path).

Definition playground_post_request (path : string) (form : Values) : HttpRequest := {|
  hr_Method := "POST"; hr_URL := url_path path; hr_body := Ok (Some (Values_Encode form)); hr_multipart := [];
  hr_header := [("Content-Type", "application/x-www-form-urlencoded")]; hr_cookies := [];
  hr_RemoteAddr := "127.0.0.1:0"; hr_vars := [] |}.

Definition playground_get_request (path bearer : string) : HttpRequest := {|
  hr_Method := "GET"; hr_URL := url_path path; hr_body := Ok None; hr_multipart := [];
  hr_header := [("Authorization", "Bearer " +:+ bearer)]; hr_cookies := [];
  hr_RemoteAddr := "127.0.0.1:0"; hr_vars := [] |}.

Section playground.
Context `{UnicodeTables} `{PlaygroundLib} (router : Handler) (h : PlaygroundHandler).

Definition pg_do (rq : HttpRequest) : Prog (Z * string) :=
  let! resp := recorded (router rq) in
  Ret (status_of resp, body_text resp).

Definition pg_post (path : string) (form : Values) : Prog (Z * string) := pg_do (playground_post_request path form).
Definition pg_get (path bearer : string) : Prog (Z * string) := pg_do (playground_get_request path bearer).

(** [h.post(path, form, &tokens)]: the error is that of the JSON of a 200. *)
Definition post_tokens (path : string) (form : Values) : Prog (Z * string * res TokenResponse) :=
  let! (status, body) := pg_post path form in
  Ret (status, body,
       if status =? StatusOK then map_err (Errorf ("invalid JSON from " +:+ path)) (unmarshal_tokens body)
       else Ok no_tokens).

(** ** JWTs, decoded only *)

Definition decodeJWTPart (token : string) (idx : nat) : string :=
  match Split token "."%char with
  | [_; _; _] as parts =>
      match RawURLDecodeString (nth idx parts "") with Some b => of_bytes b | None => "" end
  | _ => ""
  end.

Definition decodeJWTClaims (token : string) : option (string -> option string) := string_members (decodeJWTPart token 1).
Definition prettyJSON (s : string) : string := default s (indented s).

(** ** Sessions *)

Definition pg_session (r : HttpRequest) : Prog (option nat) :=
  match Cookie (parsed r) playgroundCookie with
  | None => Ret None
  | Some value => locked LPlayground (playground_crit (fun p => (pg_sessions p !! value, p)))
  end.

Definition playground_cookie (value : string) (maxAge : Z) (httpOnly : bool) (sameSite : string) : cookie := {|
  ck_Name := playgroundCookie; ck_Value := value; ck_Path := "/playground"; ck_Domain := ""; ck_MaxAge := maxAge;
  ck_HttpOnly := httpOnly; ck_Secure := false; ck_SameSite := sameSite |}.

Definition forget (r : HttpRequest) : Prog unit :=
  let! _ := match Cookie (parsed r) playgroundCookie with
            | None => Ret tt
            | Some value => locked LPlayground (playground_crit (fun p => (tt, drop_session value p)))
            end in
  emit (SetCookie (playground_cookie "" (-1) false "")).

Definition pg_redirect (flash errMsg : string) : Prog Response :=
  let q := (if flash !=? "" then [("flash", flash)] else []) ++ (if errMsg !=? "" then [("error", errMsg)] else []) in
  found (if 0 <? length_Z q then "/playground?" +:+ Values_Encode q else "/playground").

(** The form, when its CSRF token is good. *)
Definition with_csrf (r : HttpRequest) (k : Prog Response) : Prog Response :=
  let '(rq, ok) := ParseForm r in
  let refused := pg_redirect "" "Invalid or expired form, please try again" in
  if negb ok then refused
  else let! v := ValidateToken (ph_csrf h) rq in match v with Ok _ => k | Err _ => refused end.

(** ** The page *)

Definition pg_render (s : nat) : Prog playgroundResult :=
  locked LPlayground (
    let! sess := deref s in
    let t := ps_tokens sess in
    let! (_, body) := pg_get "/userinfo" (tk_AccessToken t) in
    Ret {| pr_ObtainedVia := ps_obtained sess; pr_At := clock_text (ps_at sess);
           pr_IDTokenHeader := decodeJWTPart (tk_IDToken t) 0;
           pr_IDTokenClaims := prettyJSON (decodeJWTPart (tk_IDToken t) 1);
           pr_AccessTokenClaims := prettyJSON (decodeJWTPart (tk_AccessToken t) 1);
           pr_UserInfo := prettyJSON body; pr_Raw := marshal_tokens t; pr_ExpiresIn := tk_ExpiresIn t;
           pr_Scope := tk_Scope t; pr_RefreshToken := tk_RefreshToken t; pr_NonceOK := ps_nonceOK sess;
           pr_Extra := ps_lastCall sess |}).

Definition Page_handler : Handler := fun r =>
  let! token := GenerateToken (ph_csrf h) in
  let base := Build_wideBase "playground" None (match token with Ok t => t | Err _ => "" end)
                (url_query r "flash") (url_query r "error") in
  let! sess := pg_session r in
  let! shown := match sess with
    | None => Ret (None, "")
    | Some s =>
        let! result := pg_render s in
        let! now_ := deref s in
        Ret (Some result, ps_lastError now_)
    end in
  Ret (Rendered StatusOK (PlaygroundPage {|
    pd_base := base; pd_ClientID := PlaygroundClientID; pd_RedirectURI := ph_redirectURI h; pd_Issuer := ph_issuer h;
    pd_Scopes := [("profile", true); ("email", true); ("groups", true); ("offline_access", false)];
    pd_Result := shown.1; pd_LastError := shown.2 |})).

(** ** Signing in *)

Definition Start_handler : Handler := fun r =>
  with_csrf r (
    let form := r_form (parsed r) in
    let or_empty r := match r with Ok s => s | Err _ => "" end in
    let! state := randomSecret 16 in
    let! nonce := randomSecret 16 in
    let! verifier := randomSecret 32 in
    let state := or_empty state in
    let nonce := or_empty nonce in
    let verifier := or_empty verifier in
    let! _ := locked LPlayground (
      let! t := now in
      let! _ := playground_crit (fun p => (tt, prune t p)) in
      let! t := now in
      playground_crit (fun p => (tt, add_pending state (Build_playgroundPending nonce verifier t) p))) in
    let scopes := "openid" :: map snd (List.filter (fun kv => kv.1 ==? "scope") form) in
    let q := [("response_type", "code"); ("client_id", PlaygroundClientID); ("redirect_uri", ph_redirectURI h);
              ("scope", Join scopes " "); ("state", state); ("nonce", nonce);
              ("code_challenge", S256 verifier); ("code_challenge_method", "S256")] in
    let p := FormValue (parsed r) "prompt" in
    let q := if p !=? "" then Values_Set "prompt" p q else q in
    let m := TrimSpace (FormValue (parsed r) "max_age") in
    let q := if m !=? "" then Values_Set "max_age" m q else q in
    found ("/authorize?" +:+ Values_Encode q)).

Definition callback_form (code verifier : string) : Values :=
  [("grant_type", "authorization_code"); ("code", code); ("redirect_uri", ph_redirectURI h);
   ("client_id", PlaygroundClientID); ("client_secret", ph_secret h); ("code_verifier", verifier)].

Definition Callback_handler : Handler := fun r =>
  let q := url_query r in
  if q "error" !=? "" then
    pg_redirect "" ("Authorization failed: " +:+ q "error" +:+ " — " +:+ q "error_description")
  else
    let! p := locked LPlayground (playground_crit (take_pending (q "state"))) in
    let unknown := pg_redirect "" "Unknown or expired state — start again" in
    match p with
    | None => unknown
    | Some p =>
        let! t := now in
        if playgroundPendingTTL <? Sub t (pp_created p) then unknown
        else
          let! (status, body, tokens) := post_tokens "/token" (callback_form (q "code") (pp_verifier p)) in
          let failed := pg_redirect "" ("Token exchange failed (" +:+ dec status +:+ "): " +:+ body) in
          match tokens with
          | Err _ => failed
          | Ok tokens =>
              if negb (status =? StatusOK) then failed
              else
                let! at_ := now in
                let! touched := now in
                let nonceOK := match decodeJWTClaims (tk_IDToken tokens) with
                               | Some claims => bool_decide (claims "nonce" = Some (pp_nonce p))
                               | None => false
                               end in
                let! id := randomSecret 24 in
                let id := match id with Ok id => id | Err _ => "" end in
                let! _ := locked LPlayground (playground_crit (fun m => (tt, add_session id
                  (Build_playgroundSession tokens (pp_nonce p) nonceOK "authorization_code" at_ "" "" touched) m))) in
                let! _ := emit (SetCookie (playground_cookie id (Z.quot playgroundSessionTTL Second) true "Lax")) in
                pg_redirect "Signed in: tokens received from /token" ""
          end
    end.

(** ** Using the tokens *)

(** [action]: an error's text is shown, and kept. *)
Definition action (fn : nat -> Prog (res string)) : Handler := fun r =>
  with_csrf r (
    let! sess := pg_session r in
    match sess with
    | None => pg_redirect "" "No tokens yet — sign in first"
    | Some s =>
        let! out := fn s in
        let! _ := locked LPlayground (
          let! t := now in
          assign s (match out with
                    | Ok out => ps_set_last t out ""
                    | Err e => ps_set_last t "" (Error_string e)
                    end)) in
        match out with
        | Ok _ => pg_redirect ("Done — see " +:+ dquote +:+ "Last call" +:+ dquote) ""
        | Err e => pg_redirect "" (Error_string e)
        end
    end).

Definition credentials : Values := [("client_id", PlaygroundClientID); ("client_secret", ph_secret h)].

Definition callUserInfo (s : nat) : Prog (res string) :=
  let! sess := deref s in
  let! (status, body) := pg_get "/userinfo" (tk_AccessToken (ps_tokens sess)) in
  ret_ok ("GET /userinfo → " +:+ dec status +:+ lf +:+ prettyJSON body).

Definition callIntrospect (s : nat) : Prog (res string) :=
  let! sess := deref s in
  let! (status, body) := pg_post "/introspect"
    ([("token", tk_AccessToken (ps_tokens sess)); ("token_type_hint", "access_token")] ++ credentials) in
  ret_ok ("POST /introspect → " +:+ dec status +:+ lf +:+ prettyJSON body).

Definition callRefresh (s : nat) : Prog (res string) :=
  let! sess := deref s in
  let! (status, body, tokens) := post_tokens "/token"
    ([("grant_type", "refresh_token"); ("refresh_token", tk_RefreshToken (ps_tokens sess))] ++ credentials) in
  match tokens with
  | Err e => ret_err e
  | Ok tokens =>
      if negb (status =? StatusOK) then ret_err (Plain ("refresh failed (" +:+ dec status +:+ "): " +:+ body))
      else
        let! _ := assign s (ps_set_tokens tokens) in
        let! _ := assign s (ps_set_obtained "refresh_token") in
        let! t := now in
        let! _ := assign s (ps_set_at t) in
        ret_ok ("POST /token (refresh_token) → " +:+ dec status +:+ lf +:+ prettyJSON body)
  end.

Definition callRevoke (s : nat) : Prog (res string) :=
  let! sess := deref s in
  let! (status, body) := pg_post "/revoke"
    ([("token", tk_RefreshToken (ps_tokens sess)); ("token_type_hint", "refresh_token")] ++ credentials) in
  ret_ok ("POST /revoke → " +:+ dec status +:+ lf +:+ body +:+ lf +:+ "(the refresh token is now unusable; try "
          +:+ dquote +:+ "Refresh tokens" +:+ dquote +:+ ")").

(** ** Signing out *)

Definition pg_Logout_handler : Handler := fun r =>
  with_csrf r (
    let q := [("post_logout_redirect_uri", "/playground"); ("state", "logged-out")] in
    let! sess := pg_session r in
    let! q := match sess with
              | None => Ret q
              | Some s => let! sess := deref s in Ret (Values_Set "id_token_hint" (tk_IDToken (ps_tokens sess)) q)
              end in
    let! _ := forget r in
    found ("/logout?" +:+ Values_Encode q)).

Definition Clear_handler : Handler := fun r =>
  with_csrf r (
    let! _ := forget r in
    pg_redirect "Tokens forgotten (the IdP session is still signed in)" "").

(** [Routes], under /playground. *)
Definition playground_handlers : list (string * string * Handler) :=
  [("GET", "/", Page_handler); ("POST", "/start", Start_handler); ("GET", "/callback", Callback_handler);
   ("POST", "/userinfo", action callUserInfo); ("POST", "/introspect", action callIntrospect);
   ("POST", "/refresh", action callRefresh); ("POST", "/revoke", action callRevoke);
   ("POST", "/logout", pg_Logout_handler); ("POST", "/clear", Clear_handler)].
End playground.

(** ** What the playground keeps to *)

Section facts.
Context `{Env} `{UnicodeTables} `{PlaygroundLib} (router : Handler) (h : PlaygroundHandler).

Lemma wp_playground {X} (f : Playground -> X * Playground) w (Q : X -> World -> Prop) :
  Q (f (m_playground (w_mem w))).1
    (ticked 2 (with_mem (set_playground (f (m_playground (w_mem w))).2 (w_mem w)) w)) ->
  wp (playground_crit f) w Q.
Proof.
  intros HQ. apply wp_intro. intros x w' Hr. unfold playground_crit, crit in Hr. rewrite run_trigger in Hr.
  cbn in Hr. destruct (f _) as [y p]. by injection Hr as <- <-.
Qed.

(** The pages an error leads to are the playground's. *)
Definition sent_back (resp : Response) : Prop := exists q, resp = Redirected ("/playground?" +:+ Values_Encode q) StatusFound.

Lemma wp_sent_back e w (Q : Response -> World -> Prop) :
  e <> "" -> (forall resp, sent_back resp -> Q resp w) -> wp (pg_redirect "" e) w Q.
Proof.
  intros He HQ. unfold pg_redirect. rewrite (bool_decide_eq_true_2 ("" = "")), (bool_decide_eq_false_2 (e = "")) by done.
  apply wp_ret, HQ. by eexists.
Qed.

(** An authorization request that was started: the state of the URL is
    waited for, with the nonce of the URL and the verifier of its challenge. *)
Definition awaited (resp : Response) (w : World) : Prop := exists q p,
  resp = Redirected ("/authorize?" +:+ Values_Encode q) StatusFound /\
  let asked k := Values_Get (ParseQuery (Values_Encode q)).1 k in
  pg_pending (m_playground (w_mem w)) !! asked "state" = Some p /\
  asked "nonce" = pp_nonce p /\ asked "code_challenge" = S256 (pp_verifier p) /\
  asked "client_id" = PlaygroundClientID /\ asked "redirect_uri" = ph_redirectURI h.

(** Neither a file nor the memory changes. *)
Definition still (w w' : World) : Prop := same_disk w w' /\ same_mem w w'.

#[local] Instance still_preorder : PreOrder still.
Proof. split; [by intros w; split|]. intros w1 w2 w3 [D1 M1] [D2 M2]. split; by etrans. Qed.

Lemma still_ticked n w : still w (ticked n w).
Proof. split; [|done]. split; [cbn; lia|done]. Qed.
Lemma still_held l w : still w (with_held l w).
Proof. by split. Qed.

Lemma still_event {X} (e : Ev X) : (forall w, still w (perform e w).2) -> keeps still (trigger e).
Proof. apply (keeps_event still). Qed.
Lemma still_now : keeps still now.
Proof. apply still_event. intros w. apply still_ticked. Qed.
Lemma still_rand n : keeps still (randRead n).
Proof. apply still_event. intros w. apply still_ticked. Qed.
Lemma still_ret {A} (a : A) : keeps still (Ret a).
Proof. apply (keeps_ret still). Qed.
#[local] Hint Resolve still_now still_rand still_ret : keep.

Lemma still_randomSecret n : keeps still (randomSecret n).
Proof. unfold randomSecret, mapErr, ret_ok. keep. Qed.
Lemma still_ValidateToken c rq : keeps still (ValidateToken c rq).
Proof. unfold ValidateToken, ret_err. keep. Qed.
#[local] Hint Resolve still_randomSecret still_ValidateToken : keep.

Lemma wp_still {A B} (p : Prog A) (f : A -> Prog B) (Q : B -> World -> Prop) w :
  keeps still p -> (forall x w', still w w' -> wp (f x) w' Q) -> wp (bind p f) w Q.
Proof. intros Hp Hf. apply wp_bind. eapply wp_mono; [apply Hp|]. intros x w' Hs. by apply Hf. Qed.

(** A form without a good token is sent back and changes nothing. *)
Lemma wp_with_csrf r k w (Q : Response -> World -> Prop) :
  (forall resp w', sent_back resp -> still w w' -> Q resp w') ->
  (forall w', still w w' -> wp k w' Q) -> wp (with_csrf h r k) w Q.
Proof.
  intros HQ Hk. unfold with_csrf. destruct (ParseForm r) as [rq []]; cbn [negb]; cycle 1.
  { apply wp_sent_back; [done|]. intros resp Hs. by apply HQ. }
  apply wp_still; [apply still_ValidateToken|]. intros [[]|e] w' Hs; [by apply Hk|].
  apply wp_sent_back; [done|]. intros resp Hb. by apply HQ.
Qed.

Lemma Values_Get_sent k q : Values_Get (ParseQuery (Values_Encode q)).1 k = default "" (first_of k q).
Proof. unfold Values_Get. rewrite ParseQuery_Encode. cbn [fst]. by rewrite first_of_sort. Qed.

Lemma first_of_option k k' v (b : bool) q : k <> k' -> first_of k (if b then Values_Set k' v q else q) = first_of k q.
Proof. intros Hk. destruct b; [|done]. rewrite first_of_Set. by rewrite bool_decide_eq_false_2. Qed.

(** Starting a sign-in sends the browser to the authorization endpoint with
    parameters it can read back, and the playground waits for their state
    with the nonce and the verifier they were made from; a form without its
    token is sent back and changes nothing. *)
Theorem start_asks r w :
  wp (Start_handler h r) w (fun resp w' => sent_back resp /\ still w w' \/ awaited resp w' /\ same_disk w w').
Proof.
  unfold Start_handler. apply wp_with_csrf; [by left|]. intros w0 [D0 _].
  apply wp_still; [apply still_randomSecret|]. intros state w1 [D1 _].
  apply wp_still; [apply still_randomSecret|]. intros nonce w2 [D2 _].
  apply wp_still; [apply still_randomSecret|]. intros verifier w3 [D3 _].
  cbv zeta. apply wp_bind, wp_locked. apply wp_bind, wp_now, wp_bind, wp_playground, wp_bind, wp_now, wp_playground.
  apply wp_ret. right. split; [|repeat (etrans; [eassumption|]); split; [cbn; lia|done]].
  eexists _, _. split; [reflexivity|]. cbv zeta. rewrite !Values_Get_sent, !first_of_option by done.
  cbn [w_mem ticked with_held with_mem m_playground set_playground add_pending pg_pending snd].
  split_and!; [by apply lookup_insert_eq|reflexivity..].
Qed.

(** ** The callback *)

(** Recording a response changes the outputs only. *)
Definition alike (w w' : World) : Prop :=
  w_disk w' = w_disk w /\ w_db w' = w_db w /\ w_mem w' = w_mem w /\ w_held w' = w_held w /\ w_tick w' = w_tick w.

Lemma perform_alike {X} (e : Ev X) w w' : alike w w' ->
  (perform e w').1 = (perform e w).1 /\ alike (perform e w).2 (perform e w').2.
Proof.
  destruct w as [d db m hl tk o], w' as [d' db' m' hl' tk' o']. intros (? & ? & ? & ? & ?). cbn in *. subst.
  destruct e; cbn; repeat case_match; cbn; by split_and!.
Qed.

Lemma run_vis {A X} (e : Ev X) (k : X -> Prog A) w : run (Vis e k) w = run (k (perform e w).1) (perform e w).2.
Proof. cbn [run]. by destruct (perform e w). Qed.

Lemma recorded_run {A} (p : Prog A) w w' : alike w w' ->
  (run (recorded p) w').1 = (run p w).1 /\ alike (run p w).2 (run (recorded p) w').2.
Proof.
  revert w w'. induction p as [a|X e k IH]; intros w w' Ha; [done|]. rewrite run_vis.
  assert (forall k', (forall x, k' x = recorded (k x)) ->
    (run (Vis e k') w').1 = (run (k (perform e w).1) (perform e w).2).1 /\
    alike (run (k (perform e w).1) (perform e w).2).2 (run (Vis e k') w').2) as Hsame.
  { intros k' Hk. pose proof (perform_alike e w w' Ha) as [Hx Hw]. rewrite run_vis, Hx, Hk. by apply IH. }
  destruct e; cbn [recorded]; try (by apply Hsame). destruct o; try (by apply Hsame);
    (rewrite run_vis; apply IH; by destruct w, w', Ha as (? & ? & ? & ? & ?); cbn in *; subst).
Qed.

(** The router leaves the playground's memory alone. *)
Definition same_playground (w w' : World) : Prop := m_playground (w_mem w') = m_playground (w_mem w).
Hypothesis router_keeps : forall rq, keeps same_playground (router rq).

#[local] Instance same_playground_preorder : PreOrder same_playground.
Proof. unfold same_playground. split; [done|]. intros w1 w2 w3 Hb Hc. congruence. Qed.

Lemma pg_do_keeps rq : keeps same_playground (pg_do router rq).
Proof.
  unfold pg_do. apply keeps_bind; [typeclasses eauto| |intros resp; apply (keeps_ret same_playground)].
  intros w. apply wp_intro. intros resp w' Hr.
  pose proof (recorded_run (router rq) w w ltac:(done)) as (_ & _ & _ & Hm & _). rewrite Hr in Hm. cbn in Hm.
  unfold same_playground. rewrite Hm. pose proof (router_keeps rq w) as Hk. unfold wp in Hk.
  destruct (run (router rq) w) as [x w1]. exact Hk.
Qed.

Definition waiting (w : World) : gmap string playgroundPending := pg_pending (m_playground (w_mem w)).
Definition same_waiting (w w' : World) : Prop := waiting w' = waiting w.

#[local] Instance same_waiting_preorder : PreOrder same_waiting.
Proof. unfold same_waiting. split; [done|]. intros w1 w2 w3 Hb Hc. congruence. Qed.

Lemma still_waiting {A} (p : Prog A) : keeps still p -> keeps same_waiting p.
Proof. intros Hp w. eapply wp_mono; [apply Hp|]. intros a w' [_ Hm]. unfold same_waiting, waiting. by rewrite Hm. Qed.

Lemma waiting_post path form : keeps same_waiting (pg_post router path form).
Proof.
  intros w. eapply wp_mono; [apply pg_do_keeps|]. intros a w' Hp. unfold same_waiting, waiting. by rewrite Hp.
Qed.
Lemma waiting_event {X} (e : Ev X) : (forall w, same_waiting w (perform e w).2) -> keeps same_waiting (trigger e).
Proof. apply (keeps_event same_waiting). Qed.
Lemma waiting_locked {A} l (p : Prog A) : keeps same_waiting p -> keeps same_waiting (locked l p).
Proof.
  intros Hp. unfold locked, lock, unlock. apply keeps_bind; [typeclasses eauto|by apply waiting_event|intros _].
  apply keeps_bind; [typeclasses eauto|done|intros a].
  apply keeps_bind; [typeclasses eauto|by apply waiting_event|intros _]. apply (keeps_ret same_waiting).
Qed.
Lemma waiting_crit {X} (f : Playground -> X * Playground) :
  (forall p, pg_pending (f p).2 = pg_pending p) -> keeps same_waiting (playground_crit f).
Proof. intros Hf w. apply wp_playground. unfold same_waiting, waiting. cbn. apply Hf. Qed.
Lemma waiting_ret {A} (a : A) : keeps same_waiting (Ret a).
Proof. apply (keeps_ret same_waiting). Qed.
Lemma waiting_emit o : keeps same_waiting (emit o).
Proof. by apply waiting_event. Qed.
#[local] Hint Resolve still_waiting waiting_post waiting_ret waiting_locked waiting_crit waiting_emit : keep.

(** A state is good for one callback, and for ten minutes: whatever comes of
    it, the callback takes the state off and leaves the others; without a
    state that is waited for, and recent, the browser is sent back and
    nothing is asked of the server. *)
Theorem state_once r w :
  url_query r "error" = "" ->
  wp (Callback_handler router h r) w (fun resp w' =>
    waiting w' = delete (url_query r "state") (waiting w) /\
    (sent_back resp /\ same_disk w w' \/
     exists p t, waiting w !! url_query r "state" = Some p /\ instant w w' t /\ Sub t (pp_created p) <= playgroundPendingTTL)).
Proof.
  intros He. unfold Callback_handler. rewrite He. rewrite bool_decide_eq_true_2 by done. cbn [negb].
  apply wp_bind, wp_locked, wp_playground. cbn [take_pending fst snd].
  lazymatch goal with |- context [ticked 1 (with_held (release ?a ?b) ?c)] =>
    set (w1 := ticked 1 (with_held (release a b) c)) end.
  assert (waiting w1 = delete (url_query r "state") (waiting w)) as Hw1 by done.
  assert (same_disk w w1) as Hd1 by (split; [cbn; lia|done]).
  assert (forall w' Q, same_disk w w' -> waiting w' = waiting w1 ->
    (forall resp w', sent_back resp /\ same_disk w w' -> waiting w' = waiting w1 -> Q resp w') ->
    wp (pg_redirect "" "Unknown or expired state — start again") w' Q) as Hback.
  { intros w' Q Hd Hw HQ. apply wp_sent_back; [done|]. intros resp Hs. apply HQ; [by split|done]. }
  change (pg_pending (m_playground (w_mem (ticked 1 (with_held (LPlayground :: w_held w) w)))) !! url_query r "state")
    with (waiting w !! url_query r "state").
  destruct (waiting w !! url_query r "state") as [p|] eqn:Hp.
  2:{ apply Hback; [done|done|]. intros resp w' ? Hw. split; [congruence|by left]. }
  apply wp_bind, wp_now. destruct (Z.ltb_spec playgroundPendingTTL (Sub (env_clock (w_tick w1)) (pp_created p))) as [|Hrecent].
  { apply Hback; [etrans; [exact Hd1|split; [cbn; lia|done]]|done|]. intros resp w' ? Hw. split; [congruence|by left]. }
  match goal with |- wp ?rest ?w' _ => assert (keeps same_waiting rest) as Hrest; [|set (w2 := w') in *] end.
  { unfold post_tokens, pg_redirect, found. keep. }
  eapply wp_mono; [apply wp_and_keeps; [exact Hrest|apply (outputs_only_grow _ w2)]|].
  intros resp w' [Hw [_ Ht]]. split; [rewrite Hw; exact Hw1|]. right. exists p, (env_clock (w_tick w1)).
  split; [done|]. split; [|done]. exists (w_tick w1). split; [|done]. cbn in *. lia.
Qed.
End facts.
