(* ===== verification/Server.v ===== *)
(** * internal/http/server.go, discovery.go, jwks.go, health.go and the static files of templates.go

    [NewServer] turns options into a server: a list of routes, each with the
    class of its rate limit, behind the middlewares.  chi, which finds the
    route of a request and contributes three of the middlewares, and httprate,
    which counts requests, are the class [Chi].  The playground is the
    argument [pg] of the routes, a handler when it could be set up; in
    [self_server] it is the one of file PlaygroundHandler, with the server as
    its router. *)
From S2P Require Import Prelude GoTime GoText GoUrl GoNetip Encoding Errors Domain Lockout PendingLogins.
From S2P Require Import World Run Metrics Store Keys Password Jwt Totp Csrf Session AuthService Passkeys Account.
From S2P Require Import Authorize TokenService Http Middleware OidcHandlers LoginHandlers ClientForm.
From S2P Require Import AccountHandlers AdminHandlers AdminClients PlaygroundHandler.
From Stdlib Require Import Ascii.
#[local] Open Scope Z_scope.
#[local] Open Scope go_scope.

Definition StatusServiceUnavailable : Z := 503.
Definition StatusTooManyRequests : Z := 429.

(** ** Discovery *)

Record DiscoveryHandler := { dh_issuerURL : string; dh_groupsClaim : string }.

Definition NewDiscoveryHandler (issuerURL groupsClaim : string) : DiscoveryHandler :=
  {| dh_issuerURL := TrimSuffix issuerURL "/"; dh_groupsClaim := groupsClaim |}.

Definition public_json (maxAge : string) : list (string * string) :=
  [json_header; ("Cache-Control", "public, max-age=" +:+ maxAge); ("Access-Control-Allow-Origin", "*")].
Definition method_not_allowed : Response := HttpError StatusMethodNotAllowed [] "Method Not Allowed".

Definition discovery_document (h : DiscoveryHandler) : OIDCDiscovery :=
  let groups name := if dh_groupsClaim h !=? "" then [name] else [] in
  let at_path path := dh_issuerURL h +:+ path in {|
  od_Issuer := dh_issuerURL h;
  od_AuthorizationEndpoint := at_path "/authorize";
  od_TokenEndpoint := at_path "/token";
  od_UserinfoEndpoint := at_path "/userinfo";
  od_JwksURI := at_path "/.well-known/jwks.json";
  od_EndSessionEndpoint := at_path "/logout";
  od_RevocationEndpoint := at_path "/revoke";
  od_IntrospectionEndpoint := at_path "/introspect";
  od_RegistrationEndpoint := "";
  od_ScopesSupported := ["openid"; "profile"; "email"; "offline_access"] ++ groups "groups";
  od_ResponseTypesSupported := ["code"];
  od_ResponseModesSupported := ["query"];
  od_GrantTypesSupported := ["authorization_code"; "refresh_token"];
  od_SubjectTypesSupported := ["public"];
  od_IDTokenSigningAlgValuesSupported := ["RS256"; "EdDSA"];
  od_TokenEndpointAuthMethodsSupported := ["client_secret_basic"; "client_secret_post"; "none"];
  od_ClaimsSupported := ["iss"; "sub"; "aud"; "exp"; "iat"; "auth_time"; "amr"; "nonce"; "email";
                         "email_verified"; "name"] ++ groups (dh_groupsClaim h);
  od_CodeChallengeMethodsSupported := ["S256"];
  od_RevocationEndpointAuthMethods := ["client_secret_basic"; "client_secret_post"];
  od_IntrospectionEndpointAuthMethods := ["client_secret_basic"; "client_secret_post"];
  od_RequestParameterSupported := false;
  od_RequestURIParameterSupported := false;
  od_ClaimsParameterSupported := false |}.

Definition OpenIDConfiguration (h : DiscoveryHandler) : Handler := fun r =>
  Ret (if hr_Method r !=? "GET" then method_not_allowed
       else Wrote StatusOK (public_json "3600") (BDiscovery (discovery_document h))).

(** ** Keys *)

Definition JWKS `{Store} `{KeyLib} : Handler := fun r =>
  if hr_Method r !=? "GET" then Ret method_not_allowed
  else
    let! jwks := GetJWKS in
    match jwks with
    | Err _ => server_error
    | Ok jwks => Ret (Wrote StatusOK (public_json "300") (BJwks jwks))
    end.

(** ** Health *)

Record HealthHandler := { hh_ready : bool; hh_check : option (Prog (res unit)) }.
Definition NewHealthHandler (check : option (Prog (res unit))) : HealthHandler :=
  {| hh_ready := true; hh_check := check |}.
Definition SetReady (ready : bool) (h : HealthHandler) : HealthHandler :=
  {| hh_ready := ready; hh_check := hh_check h |}.

Definition health_status (status : Z) (text : string) : Prog Response :=
  Ret (Wrote status [json_header] (BStrings [("status", text)])).

Definition Healthz : Handler := fun _ => health_status StatusOK "ok".

Definition Readyz (h : HealthHandler) : Handler := fun _ =>
  let! ready := (match hh_check h with
                 | Some check =>
                     if hh_ready h then
                       let! r := check in Ret (match r with Ok _ => true | Err _ => false end)
                     else Ret false
                 | None => Ret (hh_ready h)
                 end) in
  if ready : bool then health_status StatusOK "ready" else health_status StatusServiceUnavailable "not ready".

(** ** Static files *)

Definition set_url (u : URL) (r : HttpRequest) : HttpRequest := {|
  hr_Method := hr_Method r; hr_URL := u; hr_body := hr_body r; hr_multipart := hr_multipart r;
  hr_header := hr_header r; hr_cookies := hr_cookies r; hr_RemoteAddr := hr_RemoteAddr r; hr_vars := hr_vars r |}.
Definition set_path (path raw : string) (u : URL) : URL :=
  let '(Build_URL s o ui h _ _ oh fq q f rf) := u in Build_URL s o ui h path raw oh fq q f rf.
Definition set_vars (vars : list (string * string)) (r : HttpRequest) : HttpRequest := {|
  hr_Method := hr_Method r; hr_URL := hr_URL r; hr_body := hr_body r; hr_multipart := hr_multipart r;
  hr_header := hr_header r; hr_cookies := hr_cookies r; hr_RemoteAddr := hr_RemoteAddr r; hr_vars := vars |}.

(** [http.StripPrefix]. *)
Definition StripPrefix (prefix : string) (h : Handler) : Handler := fun r =>
  let u := hr_URL r in
  let p := TrimPrefix (u_Path u) prefix in
  let rp := TrimPrefix (u_RawPath u) prefix in
  if (len p <? len (u_Path u)) && ((u_RawPath u ==? "") || (len rp <? len (u_RawPath u)))
  then h (set_url (set_path p rp u) r)
  else Ret (HttpError StatusNotFound [] "404 page not found").

(** [files] is the file server over the embedded files. *)
Definition StaticHandler (files : Handler) : Handler := fun r =>
  let! _ := emit (SetHeader "Cache-Control"
              (if url_query r "v" !=? "" then "public, max-age=31536000, immutable" else "public, max-age=3600")) in
  files r.

Definition FaviconHandler (files : Handler) : Handler := fun r =>
  StaticHandler files (set_url (set_path "/favicon.ico" (u_RawPath (hr_URL r)) (hr_URL r)) r).

(** ** The router and its rate limits *)

(** chi finds the route of a method and URL among those below a prefix; the
    parameters of the path come with it.  Its middlewares and httprate's
    decision on a request (by the client's address) are programs. *)
Inductive routed :=
| Routed (n : nat) (vars : list (string * string))
| Unrouted (resp : Response).

Class Chi := {
  match_route : string -> list (option string * string) -> string -> URL -> routed;
  RequestID : Handler -> Handler;
  Recoverer : Handler -> Handler;
  Timeout : Z -> Handler -> Handler;
  httprate_Limit : Z -> Z -> HttpRequest -> Prog bool;
}.

(** What their documentation says: a route is found for its own method (or it
    takes every method), and the middlewares pass the request on and may
    replace the response, Recoverer that of a panic. *)
Definition passes_on (mw : Handler -> Handler) : Prop :=
  exists f, forall h r, mw h r = bind (h r) (fun resp => Ret (f resp)).

Class ChiLaws `{Chi} `{Env} : Prop := {
  routed_route : forall prefix routes method u n vars,
    match_route prefix routes method u = Routed n vars ->
    exists m p, routes !! n = Some (m, p) /\ (m = None \/ m = Some method);
  RequestID_passes : passes_on RequestID;
  Recoverer_passes : exists f, (forall resp, f resp <> Panicked) /\
    forall h r, Recoverer h r = bind (h r) (fun resp => Ret (f resp));
  Timeout_passes : forall d, passes_on (Timeout d);
  limit_touches : forall n window r, touches [] (httprate_Limit n window r);
}.

Inductive limit_class := NoLimit | Interactive | Api.

(** [rt_Method] is [None] for [r.Handle]. *)
Record Route := {
  rt_Method : option string;
  rt_Pattern : string;
  rt_Limit : limit_class;
  rt_Handler : Handler;
}.

Definition Get (pattern : string) (h : Handler) : Route := Build_Route (Some "GET") pattern NoLimit h.
Definition Post (pattern : string) (h : Handler) : Route := Build_Route (Some "POST") pattern NoLimit h.
Definition Handle (pattern : string) (h : Handler) : Route := Build_Route None pattern NoLimit h.
(** chi's [r.Route] mounts a router under three patterns: the path, the path
    with a slash, and all below it. *)
Definition Mount (pattern : string) (h : Handler) : list Route :=
  [Handle pattern h; Handle (pattern +:+ "/") h; Handle (pattern +:+ "/*") h].
Definition limited_by (c : limit_class) (rt : Route) : Route :=
  Build_Route (rt_Method rt) (rt_Pattern rt) c (rt_Handler rt).

(** ** The server and its options *)

(** [sv_oidc] holds what the three OIDC services share, [sv_wa] tells whether
    the authentication service has WebAuthn, [sv_accountStore] whether the
    store is given to the account page. *)
Record Server := {
  sv_keyService : option KeyService;
  sv_authService : option Service;
  sv_wa : bool;
  sv_accountService : option (AccountService * string);
  sv_oidc : option (Z * TokenService);
  sv_consentService : bool;
  sv_issuerURL : string;
  sv_loginRateLimit : Z;
  sv_trustedProxies : list Prefix;
  sv_corsConfig : option CORSConfig;
  sv_securityHeadersConfig : option SecurityHeadersConfig;
  sv_metricsEnabled : bool;
  sv_adminConfig : option AdminConfig;
  sv_accountStore : bool;
  sv_readinessCheck : option (Prog (res unit));
  sv_groupsClaim : string;
  sv_audit : bool;
  sv_playground : bool;
}.

Definition no_options : Server :=
  Build_Server None None false None None false "" 0 [] None None false None false None "" false false.

Definition Option_ := Server -> Server.

Definition WithKeyService (ks : KeyService) : Option_ := fun '(Build_Server _ a w ac o c i l t co sh m ad st rc g au p) =>
  Build_Server (Some ks) a w ac o c i l t co sh m ad st rc g au p.
Definition WithAuthService (s : Service) (wa : bool) : Option_ := fun '(Build_Server k _ _ ac o c i l t co sh m ad st rc g au p) =>
  Build_Server k (Some s) wa ac o c i l t co sh m ad st rc g au p.
Definition WithAccountService (s : AccountService) (resetTTL : string) : Option_ :=
  fun '(Build_Server k a w _ o c i l t co sh m ad st rc g au p) =>
  Build_Server k a w (Some (s, resetTTL)) o c i l t co sh m ad st rc g au p.
Definition WithOIDCServices (codeTTL : Z) (ts : TokenService) : Option_ :=
  fun '(Build_Server k a w ac _ c i l t co sh m ad st rc g au p) =>
  Build_Server k a w ac (Some (codeTTL, ts)) c i l t co sh m ad st rc g au p.
Definition WithConsentService : Option_ := fun '(Build_Server k a w ac o _ i l t co sh m ad st rc g au p) =>
  Build_Server k a w ac o true i l t co sh m ad st rc g au p.
Definition WithIssuerURL (issuerURL : string) : Option_ := fun '(Build_Server k a w ac o c _ l t co sh m ad st rc g au p) =>
  Build_Server k a w ac o c issuerURL l t co sh m ad st rc g au p.
Definition WithLoginRateLimit (limit : Z) : Option_ := fun '(Build_Server k a w ac o c i _ t co sh m ad st rc g au p) =>
  Build_Server k a w ac o c i limit t co sh m ad st rc g au p.
Definition WithTrustedProxies (prefixes : list Prefix) : Option_ :=
  fun '(Build_Server k a w ac o c i l _ co sh m ad st rc g au p) =>
  Build_Server k a w ac o c i l prefixes co sh m ad st rc g au p.
Definition WithCORS (config : CORSConfig) : Option_ := fun '(Build_Server k a w ac o c i l t _ sh m ad st rc g au p) =>
  Build_Server k a w ac o c i l t (Some config) sh m ad st rc g au p.
Definition WithSecurityHeaders (config : SecurityHeadersConfig) : Option_ :=
  fun '(Build_Server k a w ac o c i l t co _ m ad st rc g au p) =>
  Build_Server k a w ac o c i l t co (Some config) m ad st rc g au p.
Definition WithMetrics (enabled : bool) : Option_ := fun '(Build_Server k a w ac o c i l t co sh _ ad st rc g au p) =>
  Build_Server k a w ac o c i l t co sh enabled ad st rc g au p.
Definition WithAdmin (cfg : AdminConfig) : Option_ := fun '(Build_Server k a w ac o c i l t co sh m _ st rc g au p) =>
  Build_Server k a w ac o c i l t co sh m (Some cfg) st rc g au p.
Definition WithAccountPage : Option_ := fun '(Build_Server k a w ac o c i l t co sh m ad _ rc g au p) =>
  Build_Server k a w ac o c i l t co sh m ad true rc g au p.
Definition WithReadinessCheck (check : Prog (res unit)) : Option_ :=
  fun '(Build_Server k a w ac o c i l t co sh m ad st _ g au p) =>
  Build_Server k a w ac o c i l t co sh m ad st (Some check) g au p.
Definition WithGroupsClaim (name : string) : Option_ := fun '(Build_Server k a w ac o c i l t co sh m ad st rc _ au p) =>
  Build_Server k a w ac o c i l t co sh m ad st rc name au p.
Definition WithAudit : Option_ := fun '(Build_Server k a w ac o c i l t co sh m ad st rc g _ p) =>
  Build_Server k a w ac o c i l t co sh m ad st rc g true p.
Definition WithPlayground : Option_ := fun '(Build_Server k a w ac o c i l t co sh m ad st rc g au _) =>
  Build_Server k a w ac o c i l t co sh m ad st rc g au true.

Definition apply_options (opts : list Option_) : Server := fold_left (fun s opt => opt s) opts no_options.

(** ** Routes *)

Section server.
Context `{Store} `{UnicodeTables} `{KeyLib} `{JwtLib} `{Argon2} `{WebAuthn} `{Chi} (s : Server).

(** The file server over the embedded files, Prometheus's handler, and the
    playground's routes if it was set up. *)
Context (files prometheus : Handler) (pg : option Handler).

Definition limit_of (c : limit_class) : option Z :=
  if 0 <? sv_loginRateLimit s then
    match c with
    | NoLimit => None
    | Interactive => Some (sv_loginRateLimit s)
    | Api => Some (wrap64 (sv_loginRateLimit s * 10))
    end
  else None.

(** [exceeded] answers when the limit is reached. *)
Definition limiter (c : limit_class) (h : Handler) : Handler := fun r =>
  match limit_of c with
  | None => h r
  | Some n =>
      let! ok := httprate_Limit n Minute r in
      if ok : bool then h r
      else
        let! _ := RecordRateLimitExceeded (u_Path (hr_URL r)) in
        Ret (HttpError StatusTooManyRequests [] "Too Many Requests")
  end.

Definition ServeHTTP (prefix : string) (routes : list Route) : Handler := fun r =>
  match match_route prefix (map (fun rt => (rt_Method rt, rt_Pattern rt)) routes) (hr_Method r) (hr_URL r) with
  | Unrouted resp => Ret resp
  | Routed n vars =>
      match routes !! n with
      | Some rt => limiter (rt_Limit rt) (rt_Handler rt) (set_vars vars r)
      | None => Ret Panicked
      end
  end.

Definition when (b : bool) (l : list Route) : list Route := if b then l else [].

Definition health_routes : list Route :=
  let health := NewHealthHandler (sv_readinessCheck s) in
  [Get "/healthz" Healthz; Get "/readyz" (Readyz health)]
  ++ when (sv_metricsEnabled s) [Handle "/metrics" prometheus].

Definition discovery_routes : list Route :=
  when (sv_issuerURL s !=? "")
    [Get "/.well-known/openid-configuration"
       (OpenIDConfiguration (NewDiscoveryHandler (sv_issuerURL s) (sv_groupsClaim s)))]
  ++ when (bool_decide (is_Some (sv_keyService s)))
       [Get "/.well-known/jwks.json" JWKS; Get "/jwks" JWKS].

Definition static_routes : list Route :=
  [Handle "/static/*" (StripPrefix "/static/" (StaticHandler files)); Handle "/favicon.ico" (FaviconHandler files)].

Definition login_handler (auth : Service) : LoginHandler := {|
  lh_auth := auth; lh_wa := sv_wa s;
  lh_forgotPasswordURL := match sv_accountService s with Some _ => "/forgot-password" | None => "" end;
  lh_postLogout := option_map snd (sv_oidc s) |}.

Definition login_routes (auth : Service) : list Route :=
  let login := login_handler auth in
  [Get "/login" (LoginPage login);
   limited_by Interactive (Post "/login" (Login_handler login));
   Get "/login/code" (CodePage login);
   limited_by Interactive (Post "/login/code" (Code login));
   Post "/login/passkey/begin" (PasskeyBegin login);
   limited_by Interactive (Post "/login/passkey/finish" (PasskeyFinish login));
   Post "/logout" (Logout_handler login);
   Get "/logout" (Logout_handler login)].

Definition reset_routes (auth : Service) : list Route :=
  match sv_accountService s with
  | None => []
  | Some (accounts, ttl) =>
      let account := {| ach_accounts := accounts; ach_csrf := as_csrf auth; ach_resetTTL := ttl |} in
      [Get "/forgot-password" (ForgotPasswordPage account);
       Get "/reset-password" (ResetPasswordPage account);
       limited_by Interactive (Get "/verify-email" (VerifyEmail_handler account));
       limited_by Interactive (Post "/forgot-password" (ForgotPassword account));
       limited_by Interactive (Post "/reset-password" (ResetPassword_handler account))]
  end.

Definition oidc_handler (auth : Service) (codeTTL : Z) (ts : TokenService) : OIDCHandler := {|
  oh_auth := auth; oh_codeTTL := codeTTL; oh_consent := sv_consentService s; oh_tokens := ts;
  oh_audit := sv_audit s |}.

Definition oidc_routes (auth : Service) : list Route :=
  match sv_oidc s with
  | None => []
  | Some (codeTTL, ts) =>
      let oidc := oidc_handler auth codeTTL ts in
      [Get "/authorize" (Authorize oidc);
       Post "/authorize" (Authorize oidc);
       limited_by Interactive (Post "/consent" (Consent_handler oidc));
       limited_by Api (Post "/token" (Token_handler oidc));
       Get "/userinfo" (UserInfo oidc);
       Post "/userinfo" (UserInfo oidc);
       limited_by Api (Post "/revoke" (Revoke oidc));
       limited_by Api (Post "/introspect" (Introspect oidc))]
  end.

(** ** The landing page *)

Definition landing : Prog Response :=
  Ret (Rendered StatusOK (MessagePage {|
    mp_Title := "IDPico"; mp_Message := "This is an OpenID Connect identity provider."; mp_Error := "";
    mp_BackURL := "/login"; mp_BackLabel := "Sign in";
    mp_SecondURL := if sv_playground s then "/playground" else "";
    mp_SecondLabel := if sv_playground s then "Try the OIDC playground" else "" |})).

Definition landing_anonymous : Prog Response :=
  if sv_accountStore s then
    let! users := Users_List in
    match users with
    | Ok [] => Ret (Rendered StatusOK (SetupPage "you@example.com"))
    | _ => landing
    end
  else landing.

Definition LandingPage : Handler := fun r =>
  match sv_authService s with
  | None => landing_anonymous
  | Some _ =>
      let! u := GetCurrentUser (with_form [] r) in
      match u with
      | Err _ => landing_anonymous
      | Ok user =>
          if user_Admin user && bool_decide (is_Some (sv_adminConfig s)) then found "/admin"
          else if sv_accountStore s then found "/account"
          else Ret (Rendered StatusOK (MessagePage
                 (message "Signed In" ("You are signed in as " +:+ user_Email user +:+ ".") "" "/logout" "Sign out")))
      end
  end.

(** ** The pages behind a session *)

Definition playgroundMounted : bool :=
  sv_playground s && bool_decide (is_Some (sv_authService s)) && (sv_issuerURL s !=? "")
  && bool_decide (is_Some pg).
Definition playground_routes : list Route :=
  match pg with
  | Some h => when playgroundMounted (Mount "/playground" h)
  | None => []
  end.

(** The routes of the account page that are limited. *)
Definition account_limited : list string :=
  ["/account/password"; "/account/two-step/enable"; "/account/two-step/disable"; "/account/two-step/recovery-codes";
   "/account/passkeys/register/begin"; "/account/passkeys/{passkeyID}/remove"].

Definition account_page (auth : Service) : AccountPageHandler := {|
  aph_auth := auth; aph_wa := sv_wa s; aph_account := option_map fst (sv_accountService s); aph_audit := sv_audit s |}.

Definition account_routes (auth : Service) : list Route :=
  when (sv_accountStore s)
    (map (fun '(method, pattern, h) =>
       Build_Route (Some method) pattern
         (if existsb (fun p => p ==? pattern) account_limited then Interactive else NoLimit) h)
       (Account_Routes (account_page auth))).

Definition admin_config (cfg : AdminConfig) : AdminConfig := NewAdminHandler {|
  ac_AuthService := ac_AuthService cfg; ac_AccountService := ac_AccountService cfg;
  ac_KeyService := ac_KeyService cfg; ac_IssuerURL := ac_IssuerURL cfg;
  ac_KeyGracePeriod := ac_KeyGracePeriod cfg; ac_GroupsClaim := ac_GroupsClaim cfg;
  ac_AccessTokenTTL := ac_AccessTokenTTL cfg; ac_RefreshTokenTTL := ac_RefreshTokenTTL cfg;
  ac_PlaygroundEnabled := playgroundMounted; ac_audit := sv_audit s |}.

(** [r.Route("/admin", admin.Routes)]: the router below /admin runs under
    [requireAdmin], its lookup included. *)
Definition admin_router (cfg : AdminConfig) : Handler :=
  let h := admin_config cfg in
  requireAdmin (fun r admin =>
    ServeHTTP "/admin"
      (map (fun '(method, pattern, handler) =>
         Build_Route (Some method) pattern NoLimit (fun r => handler r admin)) (admin_handlers h)) r).

Definition admin_routes : list Route :=
  match sv_adminConfig s with
  | Some cfg => Mount "/admin" (admin_router cfg)
  | None => []
  end.

Definition routes : list Route :=
  health_routes ++ discovery_routes ++ static_routes
  ++ match sv_authService s with
     | Some auth => login_routes auth ++ reset_routes auth ++ oidc_routes auth
     | None => []
     end
  ++ [Get "/" LandingPage] ++ playground_routes
  ++ match sv_authService s with
     | Some auth => account_routes auth ++ admin_routes
     | None => []
     end.

(** ** [NewServer]: the handler with its middlewares *)

Definition with_security (tls : bool) (next : Handler) : Handler :=
  match sv_securityHeadersConfig s with
  | Some config => SecurityHeadersMiddleware (Some config) tls next
  | None => next
  end.
Definition with_cors (next : Handler) : Handler :=
  match sv_corsConfig s with
  | Some config => if 0 <? Z.of_nat (length (co_AllowedOrigins config)) then CORSMiddleware (Some config) next else next
  | None => next
  end.
Definition with_metrics (next : Handler) : Handler :=
  if sv_metricsEnabled s then metrics_Middleware next else next.

Definition NewServer (tls : bool) : Handler :=
  RequestID (RealIPFromTrustedProxies (sv_trustedProxies s) (Recoverer (Timeout (30 * Second)
    (with_security tls (with_cors (with_metrics (ServeHTTP "" routes))))))).
End server.

(** ** The playground within the server *)

Section playground.
Context `{Store} `{UnicodeTables} `{KeyLib} `{JwtLib} `{Argon2} `{WebAuthn} `{Chi} `{PlaygroundLib} (s : Server).
Context (files prometheus : Handler).

(** What [NewServer] does to the store: the playground's client. *)
Definition enable_playground : Prog (option PlaygroundHandler) :=
  match sv_authService s with
  | Some auth =>
      if sv_playground s && (sv_issuerURL s !=? "") then
        let! pg := NewPlaygroundHandler (as_csrf auth) (sv_issuerURL s) in
        Ret (match pg with Ok h => Some h | Err _ => None end)
      else Ret None
  | None => Ret None
  end.

(** [r.Route("/playground", pg.Routes)]. *)
Definition playground_router (router : Handler) (h : PlaygroundHandler) : Handler :=
  ServeHTTP s "/playground"
    (map (fun '(method, pattern, handler) => Build_Route (Some method) pattern NoLimit handler)
       (playground_handlers router h)).

(** The playground's requests go to the server they came from: a server with
    room for [depth] of them within each other.  The playground asks the
    endpoints of OpenID Connect, which ask nobody, so one is enough. *)
Fixpoint self_server (depth : nat) (h : PlaygroundHandler) (tls : bool) : Handler :=
  NewServer s files prometheus
    (Some (match depth with
           | O => fun _ => Ret Panicked
           | S depth => playground_router (self_server depth h false) h
           end)) tls.

(** The server, with what [enable_playground] gave. *)
Definition serving (mounted : option PlaygroundHandler) (tls : bool) : Handler :=
  match mounted with
  | Some h => self_server 1 h tls
  | None => NewServer s files prometheus None tls
  end.
End playground.
