(* ===== verification/Sample.v ===== *)
(** * A sample installation

    Concrete instances of what the development is parametric in, and a small
    data directory, on which the services are evaluated.  The cryptography is
    a toy that keeps the documented laws: a token is an encoding of its
    header, signing key and claims, and verifies with the matching key. *)
From stdpp Require Import countable.
From S2P Require Import Prelude GoTime GoText Encoding Hash Errors Domain Database Lockout PendingLogins.
From S2P Require Import World Run Store FileStore Keys Password Jwt Totp Csrf Session AuthService Account.
From S2P Require Import Authorize TokenService Metrics.
From Stdlib Require Import Ascii.
#[local] Open Scope Z_scope.
#[local] Open Scope go_scope.

(** ** Clock, identifiers, randomness, storage *)

Fixpoint as_ (n : nat) : string :=
  match n with O => "" | S n => String "a"%char (as_ n) end.

Lemma as_inj m n : as_ m = as_ n -> m = n.
Proof.
  revert n. induction m as [|m IH]; intros [|n] Heq; try discriminate Heq; [done|].
  injection Heq as Heq. f_equal. by apply IH.
Qed.

Definition clock (n : nat) : Z := 1000 * Second + Z.of_nat n * Millisecond.

#[export] Instance sample_env : Env := {
  env_clock := clock;
  env_uuid n := String "u"%char (as_ n);
  env_uuid7 n := String "7"%char (as_ n);
  env_rand t k := Some (repeat (Z.of_nat t mod 256) k);
  env_io _ := IoOk;
  env_mail _ := true;
}.

#[export] Instance sample_env_laws : EnvLaws.
Proof.
  split; simpl.
  - intros m n Hmn. unfold clock, Second, Millisecond. lia.
  - intros n. unfold clock, Second, Millisecond. lia.
  - intros m n Heq. injection Heq as Heq. by apply as_inj.
  - done.
  - intros n k l Hl. injection Hl as <-. split; [apply repeat_length|].
    apply Forall_forall. intros x Hx. apply repeat_spec in Hx as ->. unfold is_byte.
    apply Z.mod_pos_bound. lia.
Qed.

(** ** Keys *)

Fixpoint cut_at (c : ascii) (s : string) : option (string * string) :=
  match s with
  | "" => None
  | String a s => if bool_decide (a = c) then Some ("", s)
                  else (fun p => (String a p.1, p.2)) <$> cut_at c s
  end.

#[export] Instance sample_keys : KeyLib := {
  rsa_GenerateKey _ seed := Ok (of_bytes (take 2 seed), of_bytes (take 2 seed));
  ed25519_GenerateKey seed := Ok (of_bytes (take 2 seed), of_bytes (take 2 seed));
  pem_Encode kind der := kind +:+ ":" +:+ der;
  pem_Decode := cut_at ":"%char;
  ParsePKCS1PrivateKey der := Ok (RSAPrivateKey der);
  MarshalPKCS1PrivateKey k :=
    match k with RSAPrivateKey der | Ed25519PrivateKey der | OtherSigner der => der end;
  ParsePKCS8PrivateKey der := Ok (Signer (Ed25519PrivateKey der));
  MarshalPKCS8PrivateKey k :=
    Ok (match k with RSAPrivateKey der | Ed25519PrivateKey der | OtherSigner der => der end);
  ParsePKIXPublicKey s :=
    match s with
    | String "r"%char der => Ok (RSAPublicKey der)
    | String "e"%char der => Ok (Ed25519PublicKey der)
    | _ => Err (Plain "bad key")
    end;
  MarshalPKIXPublicKey k :=
    match k with
    | RSAPublicKey der => Ok (String "r"%char der)
    | Ed25519PublicKey der => Ok (String "e"%char der)
    | OtherPublicKey _ => Err (Plain "bad key")
    end;
  rsa_N der := bytes der;
  rsa_E _ := [1; 0; 1];
  ed25519_bytes der := bytes der;
}.

#[export] Instance sample_argon2 : Argon2 := {
  IDKey password salt _ _ _ n := take (Z.to_nat n) (Sum256 (password ++ salt) ++ repeat 0 (Z.to_nat n));
}.

Lemma sample_key_bytes p n : Forall is_byte (Sum256 p ++ repeat 0 n).
Proof.
  apply Forall_app. split; [apply Sum256_bytes|]. apply List.Forall_forall.
  intros x Hx. apply repeat_spec in Hx as ->. unfold is_byte. lia.
Qed.

#[export] Instance sample_argon2_laws : Argon2Laws.
Proof.
  split; cbn [IDKey sample_argon2]; intros p s t m k n.
  - rewrite length_take, length_app, repeat_length. lia.
  - apply Forall_take, sample_key_bytes.
Qed.

(** ** Tokens *)

#[export, refine] Instance claim_value_countable : Countable claim_value := {
  encode v := encode (match v with
    | VString s => inl (inl s) | VInt z => inl (inr z) | VBool b => inr (inl b)
    | VStrings l => inr (inr (inl l)) | VNull => inr (inr (inr (inl ())))
    | VOther s => inr (inr (inr (inr s))) end);
  decode p := (fun x => match x with
    | inl (inl s) => VString s | inl (inr z) => VInt z | inr (inl b) => VBool b
    | inr (inr (inl l)) => VStrings l | inr (inr (inr (inl ()))) => VNull
    | inr (inr (inr (inr s))) => VOther s end) <$> decode p;
}.
Proof. by intros []; rewrite decode_encode. Defined.

Fixpoint bits (p : positive) : string :=
  match p with
  | xH => ""
  | xO p => String "0"%char (bits p)
  | xI p => String "1"%char (bits p)
  end.

Fixpoint unbits (s : string) : positive :=
  match s with
  | "" => xH
  | String "0"%char s => xO (unbits s)
  | String _ s => xI (unbits s)
  end.

Lemma unbits_bits p : unbits (bits p) = p.
Proof. induction p as [p IH|p IH|]; simpl; by rewrite ?IH. Qed.

(** Header algorithm and key ID, the material of the key, and the claims. *)
Definition token_parts : Type := (string * string) * (string * list (string * claim_value)).

Definition token_of (x : token_parts) : string := bits (encode x).
Definition parts_of (s : string) : option token_parts := decode (unbits s).

Definition material (k : option PrivateKey) : string :=
  match k with
  | Some (RSAPrivateKey der) => String "r"%char der
  | Some (Ed25519PrivateKey der) => String "e"%char der
  | _ => ""
  end.
Definition matches (k : option PublicKey) (m : string) : bool :=
  match k with
  | Some (RSAPublicKey der) => m ==? String "r"%char der
  | Some (Ed25519PublicKey der) => m ==? String "e"%char der
  | _ => false
  end.

Definition unexpired (t : Z) (json : gmap string claim_value) : bool :=
  match json !! "exp" with Some (VInt e) => t <? e * Second | _ => true end
  && match json !! "nbf" with Some (VInt n) => n * Second <=? t | _ => true end.

#[export] Instance sample_jwt : JwtLib := {
  jwt_SignedString alg kid priv json := Ok (token_of ((alg, kid), (material priv, map_to_list json)));
  jwt_header s :=
    match parts_of s with
    | Some ((alg, kid), _) => Ok {| jh_alg := alg; jh_kid := Some kid |}
    | None => Err (Plain "token is malformed")
    end;
  jwt_check s key validate t :=
    match parts_of s with
    | Some (_, (m, claims)) =>
        let json := list_to_map claims : gmap string claim_value in
        if negb (matches key m) then Err (Plain "token signature is invalid")
        else if validate && negb (unexpired t json) then Err (Plain "token has invalid claims")
        else Ok json
    | None => Err (Plain "token is malformed")
    end;
  jwt_NewNumericDate t := FromUnix (Unix t) 0;
  uuid7_time s := if HasPrefix s "7" then Some (clock (String.length s - 1)) else None;
}.

(** ** A data directory *)

Definition alice_hash : string := Eval vm_compute in
  format_hash (repeat 7 16) (IDKey (bytes "correct horse") (repeat 7 16) argonTime argonMemory
                               argonThreads argonKeyLen).
Definition web_hash : string := Eval vm_compute in
  format_hash (repeat 9 16) (IDKey (bytes "s3cret") (repeat 9 16) argonTime argonMemory
                               argonThreads argonKeyLen).

Definition alice : User := {|
  user_ID := "alice"; user_Email := "alice@example.com";
  user_PasswordHash := alice_hash;
  user_DisplayName := "Alice"; user_GivenName := "Alice"; user_FamilyName := "A";
  user_Active := true; user_EmailVerified := true; user_Admin := false;
  user_TOTPSecret := ""; user_TOTPLastStep := 0; user_RecoveryCodes := [];
  user_CreatedAt := 0; user_UpdatedAt := 0 |}.

Definition web : Client := {|
  client_ID := "web";
  client_Secret := web_hash;
  client_Name := "Web"; client_RedirectURIs := ["https://web/cb"];
  client_GrantTypes := ["authorization_code"; "refresh_token"];
  client_Scopes := ["openid"; "email"; "offline_access"]; client_Public := false;
  client_SkipConsent := false; client_MinimalIDToken := false;
  client_AccessTokenTTL := 0; client_RefreshTokenTTL := 0;
  client_CreatedAt := 0; client_UpdatedAt := 0 |}.

(** Bob signs in with an authenticator too; the secret is the key of the
    vectors of RFC 6238. *)
Definition bob_secret : string := Eval vm_compute in
  Base32EncodeToString (bytes "12345678901234567890").
Definition bob : User := {|
  user_ID := "bob"; user_Email := "bob@example.com"; user_PasswordHash := alice_hash;
  user_DisplayName := "Bob"; user_GivenName := "Bob"; user_FamilyName := "B";
  user_Active := true; user_EmailVerified := true; user_Admin := false;
  user_TOTPSecret := bob_secret; user_TOTPLastStep := 0; user_RecoveryCodes := [];
  user_CreatedAt := 0; user_UpdatedAt := 0 |}.

(** RFC 7636, appendix B. *)
Definition sample_verifier := "dBjftJeZ4CVP-mB92K27uhbUJU1p1r_wW1gFWFOEjXk".
Definition sample_challenge := "E9Melhoa2OwvFrEMTJguCHaoeK1t8URWbuGJSstw-cM".

Definition sample_code : AuthCode := {|
  ac_Code := "code1"; ac_ClientID := "web"; ac_UserID := "alice";
  ac_RedirectURI := "https://web/cb"; ac_Scope := "openid email offline_access";
  ac_CodeChallenge := sample_challenge; ac_CodeChallengeMethod := "S256"; ac_Nonce := "n";
  ac_AuthTime := 999 * Second; ac_AMR := ["pwd"]; ac_CreatedAt := 999 * Second;
  ac_ExpiresAt := 1100 * Second; ac_Used := false |}.

Definition sample_refresh : Token := {|
  token_ID := "refresh1"; token_UserID := "alice"; token_ClientID := "web";
  token_Scope := "openid email offline_access"; token_CreatedAt := 999 * Second;
  token_ExpiresAt := 9999 * Second; token_Revoked := false |}.

Definition sample_key : KeyPair := {|
  kp_Kid := String "u"%char (as_ 0); kp_Alg := "EdDSA"; kp_PrivateKey := None; kp_PublicKey := None;
  kp_CreatedAt := 999 * Second; kp_ExpiresAt := zero_time; kp_Active := true;
  kp_PrivateKeyPEM := Some "PRIVATE KEY:kk"; kp_PublicKeyPEM := Some "PUBLIC KEY:ekk" |}.

Definition sample_disk : Disk := {|
  d_users := FData [alice; bob]; d_clients := FData [web]; d_sessions := FData [];
  d_codes := FData [sample_code]; d_tokens := FData [sample_refresh]; d_revocations := FData [];
  d_consents := FData []; d_verification := FData []; d_passkeys := FData [];
  d_groups := FData ([], []); d_audit := FData []; d_keys := FData (([sample_key], kp_Kid sample_key), []) |}.

(** One event has passed: the key ID was made in it. *)
Definition sample_world : World := {|
  w_disk := sample_disk; w_mem := empty_mem; w_held := []; w_tick := 1; w_out := []; w_db := migrated true |}.

Definition sample_keyService : KeyService := {| ks_cacheTTL := 60 * Second; ks_algorithm := "EdDSA" |}.

Definition sample_service : TokenService := {|
  ts_accessTTL := 900 * Second; ts_refreshTTL := 86400 * Second; ts_issuer := "https://idp";
  ts_groupClaims := Some "groups"; ts_revocations := true;
  ts_generator := {| tg_keyPair := sample_key; tg_keyService := Some sample_keyService;
                     tg_issuer := "https://idp"; tg_audience := "https://idp" |} |}.

Definition code_request : TokenRequest := {|
  tr_GrantType := "authorization_code"; tr_Code := "code1"; tr_RedirectURI := "https://web/cb";
  tr_ClientID := "web"; tr_ClientSecret := "s3cret"; tr_CodeVerifier := sample_verifier;
  tr_RefreshToken := ""; tr_Scope := "" |}.

Definition refresh_request (scope : string) : TokenRequest := {|
  tr_GrantType := "refresh_token"; tr_Code := ""; tr_RedirectURI := "";
  tr_ClientID := "web"; tr_ClientSecret := "s3cret"; tr_CodeVerifier := "";
  tr_RefreshToken := "refresh1"; tr_Scope := scope |}.

Definition sample_auth : Service := {|
  as_sessions := {| ss_cookieSecure := true; ss_cookieDomain := ""; ss_sessionTTL := 3600 * Second |};
  as_csrf := {| cs_secret := "secret"; cs_cookieSecure := true; cs_cookieDomain := "" |};
  as_lockout := Some {| lo_maxAttempts := 3; lo_duration := 900 * Second |};
  as_audit := true; as_passkeys := true |}.

Definition sample_account : AccountService := {|
  acc_baseURL := "https://idp"; acc_resetTTL := 1 * Hour; acc_verifyTTL := 24 * Hour;
  acc_audit := true; acc_resetInterval := 60 * Second |}.

(** The world a run leaves. *)
Definition after {A} (p : Prog A) (w : World) : World := (run p w).2.

Example sample_exchange :
  match run (HandleAuthorizationCode sample_service code_request) sample_world with
  | (Ok resp, w') =>
      tk_Scope resp = "openid email offline_access" /\ tk_RefreshToken resp <> "" /\
      match run (GetUserInfo sample_service (tk_AccessToken resp)) w' with
      | (Ok info, _) => ui_Email info = "alice@example.com"
      | _ => False
      end /\
      match run (HandleAuthorizationCode sample_service code_request) w' with
      | (Err e, w2) => e = reuse_code /\
          match run (GetUserInfo sample_service (tk_AccessToken resp)) w2 with
          | (Err _, _) => True
          | _ => False
          end
      | _ => False
      end
  | _ => False
  end.
Proof. vm_compute. done. Qed.
