(* ===== verification/TokenFacts.v ===== *)
(** * What the token endpoint does, operation by operation

    Specifications of the parts of [TokenService] against the contract of
    [Store], composed into those of the grants.  The properties themselves
    are in [TokenProperties]. *)
From S2P Require Import Prelude GoTime GoText Encoding Hash Errors Domain Lockout PendingLogins.
From S2P Require Import World Run Store Exec StoreFacts FileStore Keys Password Jwt Authorize TokenService Metrics.
#[local] Open Scope Z_scope.
#[local] Open Scope go_scope.

(** ** Footprints of the services *)

Section service_footprints.
Context `{StoreLaws} `{KeyLib} `{JwtLib} `{Argon2} (s : TokenService).

(** The key service writes no file when it only reads keys. *)
Lemma touches_GetKeyByID cs kid : touches cs (GetKeyByID kid).
Proof. unfold GetKeyByID, locked. touch. Qed.
Lemma touches_GetActiveKey cs ks : touches cs (GetActiveKey ks).
Proof.
  unfold GetActiveKey, read_cache, locked, setActive. touch.
Qed.
Lemma touches_verification_key cs g h : touches cs (verification_key g h).
Proof. unfold verification_key. touch; apply touches_GetKeyByID. Qed.
Lemma touches_parse cs g t v : touches cs (parse g t v).
Proof. unfold parse, mapErr. touch. apply touches_verification_key. Qed.
Lemma touches_ValidateAccessToken cs g t : touches cs (ValidateAccessToken g t).
Proof. unfold ValidateAccessToken. touch. apply touches_parse. Qed.
Lemma touches_GenerateIDTokenFor cs g su au ex c : touches cs (GenerateIDTokenFor g su au ex c).
Proof. unfold GenerateIDTokenFor, signingKey, mapErr. touch; apply touches_GetActiveKey. Qed.
Lemma touches_GenerateAccessToken cs g su ex c :
  touches cs (GenerateAccessTokenWithClaims g su ex c).
Proof. apply touches_GenerateIDTokenFor. Qed.

Lemma touches_Names cs u : touches cs (Names u).
Proof. unfold Names, mapErr. touch. Qed.
Lemma touches_Apply cs u sc c : touches cs (GroupClaims_Apply s u sc c).
Proof. unfold GroupClaims_Apply. touch; apply touches_Names. Qed.
Lemma touches_authenticateClient c p : touches [NClients] (authenticateClient c p).
Proof. unfold authenticateClient, HashClientSecret, HashPassword, mapErr. touch. Qed.
Lemma touches_authenticate_for g r : touches [NClients] (authenticate_for g r).
Proof. unfold authenticate_for. touch; apply touches_authenticateClient. Qed.
Lemma touches_active_user cs u : touches cs (active_user u).
Proof. unfold active_user, mapErr. touch. Qed.
Lemma touches_userActive cs u : touches cs (userActive u).
Proof. unfold userActive. touch. Qed.
Lemma touches_accessTokenRevoked cs c : touches cs (accessTokenRevoked s c).
Proof. unfold accessTokenRevoked. touch. Qed.

Lemma touches_revoke_each cl l : touches [NTokens; NRevocations] (revoke_each cl l).
Proof. induction l as [|t l IH]; simpl; touch; done. Qed.
Lemma touches_revokeGrant u c : touches [NTokens; NRevocations] (revokeGrant s u c).
Proof. unfold revokeGrant. touch; apply touches_revoke_each. Qed.
Lemma touches_cut_off m u c e : touches [NTokens; NRevocations] (cut_off s m u c e).
Proof. unfold cut_off, mapErr. touch; apply touches_revokeGrant. Qed.

Lemma touches_issue_refresh u c sc ttl g r : touches [NTokens] (issue_refresh u c sc ttl g r).
Proof. unfold issue_refresh, mapErr, RecordTokenIssued. touch. Qed.
Lemma touches_generateTokens u c sc n at_ amr g :
  touches [NTokens] (generateTokens s u c sc n at_ amr g).
Proof.
  unfold generateTokens, mapErr, RecordTokenIssued.
  touch; first [ apply touches_Apply | apply touches_GenerateIDTokenFor
               | apply touches_GenerateAccessToken | apply touches_issue_refresh ].
Qed.
End service_footprints.

(** ** Client authentication *)

(** The secret was right, or the client has none. *)
Definition authenticated `{Argon2} (client : Client) (secret : string) : Prop :=
  client_Public client = true \/ (VerifyClientSecret (client_Secret client) secret).1 = true.

(** The row of the client with an ID. *)
Definition client_row (w : World) (id : string) (client : Client) : Prop :=
  exists rows, get CClients (w_disk w) = FData rows /\
    find_first (fun c => client_ID c ==? id) rows = Some client.

Definition code_row (w : World) (code : string) (a : AuthCode) : Prop :=
  exists rows, get CAuthCodes (w_disk w) = FData rows /\
    find_first (fun a => ac_Code a ==? code) rows = Some a.

Definition token_row (w : World) (id : string) (t : Token) : Prop :=
  exists rows, get CTokens (w_disk w) = FData rows /\
    find_first (fun t => token_ID t ==? id) rows = Some t.

Definition user_row (w : World) (id : string) (u : User) : Prop :=
  exists rows, get CUsers (w_disk w) = FData rows /\
    find_first (fun u => user_ID u ==? id) rows = Some u.

(** The same client up to the form its secret is stored in. *)
Definition same_client (c c' : Client) : Prop :=
  client_ID c' = client_ID c /\ client_GrantTypes c' = client_GrantTypes c /\
  client_Scopes c' = client_Scopes c /\ client_Public c' = client_Public c /\
  client_MinimalIDToken c' = client_MinimalIDToken c /\
  client_AccessTokenTTL c' = client_AccessTokenTTL c /\
  client_RefreshTokenTTL c' = client_RefreshTokenTTL c.

Lemma same_client_AllowsGrant c c' g : same_client c c' -> AllowsGrant c' g = AllowsGrant c g.
Proof. intros (_ & Hg & _). unfold AllowsGrant. by rewrite Hg. Qed.

Lemma same_client_secret h t t' c : same_client c (client_set_times t t' (client_set_secret h c)).
Proof. by destruct c. Qed.

Section specs.
Context `{StoreLaws} `{KeyLib} `{JwtLib} `{Argon2} (s : TokenService).

Lemma frame_row {A} cs (c : Coll A) w w' : frame cs w w' -> name_of c ∉ cs ->
  get c (w_disk w) = get c (w_disk w').
Proof. intros Hf Hc. symmetry. by eapply frame_get. Qed.

Definition auth_result (client : Client) (secret : string) (r : bool * Client) (_ : World) : Prop :=
  same_client client r.2 /\ (r.1 = true <-> authenticated client secret).

(** Replacing a plaintext secret by its hash does not change the answer. *)
Lemma upgrade_spec client secret w :
  authenticated client secret ->
  wp (let! h := HashClientSecret secret in
      match h with
      | Ok hash =>
          let client := client_set_secret hash client in
          let! r := Clients_Update client in
          Ret (true, match r with Ok c => c | Err _ => client end)
      | Err _ => Ret (true, client)
      end) w (auth_result client secret).
Proof.
  intros Ha. apply wp_bind, (wp_mono _ _ (fun _ _ => True)); [by apply wp_intro|].
  intros [hash|e] w1 _; [|by apply wp_ret; split; [destruct client|]].
  eapply wp_step; [apply law_Clients_Update|]. intros r w2 Hu. cbn beta in Hu.
  apply wp_ret. split; [|done]. destruct r as [c|e]; [|by destruct client].
  apply upd_Ok in Hu as (a & t & u & a' & _ & _ & _ & Hr & _).
  unfold rows_replace in Hr. case_match; simplify_eq. apply same_client_secret.
Qed.

Lemma authenticateClient_spec client secret w :
  wp (authenticateClient client secret) w (fun r w' =>
    frame [NClients] w w' /\ auth_result client secret r w').
Proof.
  apply wp_and; [apply touches_authenticateClient|].
  unfold authenticateClient. destruct (client_Public client) eqn:Hp.
  { apply wp_ret. split; [by destruct client|]. split; [by left|done]. }
  destruct (VerifyClientSecret _ _) as [[] legacy] eqn:Ev; simpl.
  2:{ apply wp_ret. split; [by destruct client|]. unfold authenticated. rewrite Ev, Hp. naive_solver. }
  assert (authenticated client secret) as Ha by (right; by rewrite Ev).
  destruct legacy; [by apply upgrade_spec|]. apply wp_ret. by split; [destruct client|].
Qed.

Lemma authenticate_for_spec g req w :
  wp (authenticate_for g req) w (fun r w' =>
    frame [NClients] w w' /\
    match r with
    | Ok client => exists c0, client_row w (tr_ClientID req) c0 /\ same_client c0 client /\
        authenticated c0 (tr_ClientSecret req) /\ AllowsGrant c0 g = true
    | Err e => IsCode e CodeUnauthorized = true \/ IsCode e CodeUnauthorizedClient = true
    end).
Proof.
  unfold authenticate_for. eapply wp_step; [apply law_Clients_GetByID|].
  intros [c0|e] w1 Hq; cbn beta in Hq.
  2:{ apply wp_ret. split; [by apply same_disk_frame, (qry_same _ _ _ _ _ Hq)|by left]. }
  eapply wp_step; [apply authenticateClient_spec|].
  intros [ok client] w2 (Hf & Hs & Ha); cbn [fst snd] in *.
  assert (frame [NClients] w w2) as Hw.
  { etransitivity; [by apply same_disk_frame, (qry_same _ _ _ _ _ Hq)|done]. }
  destruct ok; simpl; [|by apply wp_ret; split; [|left]].
  destruct (AllowsGrant client g) eqn:Hg; apply wp_ret; (split; [done|]); [|by right].
  apply qry_Ok in Hq as (rows & t & Hrows & _ & Hfind).
  exists c0. split; [exists rows; split; [done|]|].
  { unfold rows_find, find_or in Hfind. by case_match; simplify_eq. }
  split; [done|]. split; [by apply Ha|]. by rewrite (same_client_AllowsGrant _ _ _ Hs) in Hg.
Qed.

Lemma active_user_spec id w :
  wp (active_user id) w (fun r w' => same_disk w w' /\
    match r with Ok u => user_row w id u /\ user_Active u = true | Err _ => True end).
Proof.
  unfold active_user. eapply wp_try_map; [apply law_Users_GetByID| |].
  - intros u w' Hq. cbn beta in Hq. pose proof (qry_same _ _ _ _ _ Hq).
    apply qry_find in Hq. destruct (user_Active u) eqn:Ha; by apply wp_ret.
  - intros e w' Hq. cbn beta in Hq. by split; [apply (qry_same _ _ _ _ _ Hq)|].
Qed.

(** What an issue of tokens leaves in the token file: nothing new, or one
    fresh refresh token for the user, client and scope. *)
Definition issued (user : User) (client : Client) (scope : string) (w : World)
    (resp : TokenResponse) (w' : World) : Prop :=
  tk_Scope resp = scope /\
  (tk_RefreshToken resp = "" /\ get CTokens (w_disk w') = get CTokens (w_disk w) \/
   exists rows t, get CTokens (w_disk w) = FData rows /\
     get CTokens (w_disk w') = FData (rows ++ [t]) /\
     token_ID t = tk_RefreshToken resp /\ fresh_id w w' (token_ID t) /\
     token_UserID t = user_ID user /\ token_ClientID t = client_ID client /\
     token_Scope t = scope /\ token_Revoked t = false /\
     hasScope scope "offline_access" = true /\ AllowsGrant client "refresh_token" = true).

Lemma issue_refresh_spec user client scope ttl g resp w :
  tk_Scope resp = scope -> tk_RefreshToken resp = "" ->
  wp (issue_refresh user client scope ttl g resp) w (fun r w' =>
    match r with Ok resp => issued user client scope w resp w' | Err _ => True end).
Proof.
  intros Hsc Hrt. unfold issue_refresh. apply wp_if; intros Hb; [|by apply wp_ret; split; [|left]].
  apply andb_true_iff in Hb as [Hoff Hgrant].
  apply wp_bind, wp_uuid, wp_bind, wp_now.
  eapply wp_try_map; [apply law_Tokens_Create| |done].
  intros t w1 Hu. pose proof (frame_tick _ _ _ (upd_frame _ _ _ _ _ Hu)) as Ht.
  apply upd_Ok in Hu as (rows & i & u & rows' & Hrows & _ & _ & Hr & Hrows').
  unfold rows_add in Hr. case_match; simplify_eq. apply wp_bind, wp_emit, wp_ret.
  split; [done|]. right. eexists rows, _. split; [done|]. split; [done|]. simpl.
  repeat match goal with |- _ /\ _ => split end; try done.
  exists (w_tick w). simpl in *. split; [lia|done].
Qed.

Lemma generateTokens_spec user client scope nonce at_ amr g w :
  wp (generateTokens s user client scope nonce at_ amr g) w (fun r w' =>
    frame [NTokens] w w' /\
    match r with Ok resp => issued user client scope w resp w' | Err _ => True end).
Proof.
  apply wp_and; [apply touches_generateTokens|]. unfold generateTokens.
  assert (forall A (p : Prog A) w, (forall cs, touches cs p) -> wp p w (fun _ w' => same_disk w w'))
    as Hquiet.
  { intros A p w0 Hp. eapply wp_mono; [apply (Hp [])|]. intros a w1. apply frame_nil. }
  eapply wp_try;
    [apply Hquiet; intros cs; apply touches_if; [apply touches_ret_ok|apply touches_Apply]| |done].
  intros c1 w1 D1.
  eapply wp_try; [apply (Hquiet _ _ _ (fun cs => touches_Apply s cs _ _ _))| |done].
  intros c2 w2 D2. destruct (ttlsFor s client) as [attl rttl].
  eapply wp_try_map; [apply (Hquiet _ _ _ (fun cs => touches_GenerateIDTokenFor cs _ _ _ _ _))| |done].
  intros [idt x1] w3 D3.
  eapply wp_try_map; [apply (Hquiet _ _ _ (fun cs => touches_GenerateAccessToken cs _ _ _ _))| |done].
  intros [act x2] w4 D4. cbn beta in *.
  apply wp_bind, wp_emit, wp_bind, wp_emit.
  eapply wp_mono; [apply issue_refresh_spec; done|].
  intros [resp|e] w5; [|done]. intros [Hsc Hcase]. split; [done|].
  assert (same_disk w w4) as [Ht Hd] by (do 3 (etransitivity; [eassumption|]); done).
  destruct Hcase as [[Hr Hg]|(rows & t & Hrows & Hrows' & Hid & Hfresh & Hrest)].
  - left. split; [done|]. rewrite Hg. cbn [ticked with_out w_disk]. by rewrite Hd.
  - right. exists rows, t. cbn [ticked with_out w_disk] in Hrows. rewrite Hd in Hrows.
    split; [done|]. split; [done|]. split; [done|]. split; [|done].
    destruct Hfresh as (n & Hn & ->). exists n. simpl in Hn. split; [lia|done].
Qed.
End specs.
