(* ===== verification/AuthFacts.v ===== *)
(** * What signing in does, operation by operation

    Footprints and specifications of the session service and of
    [AuthService], against the contract of [Store]. *)
From S2P Require Import Prelude GoTime GoText Encoding Hash Errors Domain Lockout PendingLogins.
From S2P Require Import World Run Store Exec StoreFacts FileStore Keys Password Jwt Totp Csrf Session AuthService.
From S2P Require Import Authorize TokenService TokenFacts Metrics.
#[local] Open Scope Z_scope.
#[local] Open Scope go_scope.

(** ** Footprints *)

Section auth_footprints.
Context `{StoreLaws} `{UnicodeTables} `{Argon2} (s : Service).

Lemma touches_RecordEvent b e : touches [NAudit] (RecordEvent b e).
Proof. unfold RecordEvent, ignore. touch. Qed.
Lemma touches_ValidateToken cs c r : touches cs (ValidateToken c r).
Proof. unfold ValidateToken. touch. Qed.
Lemma touches_ClearToken cs c : touches cs (ClearToken c).
Proof. unfold ClearToken. touch. Qed.
Lemma touches_setPendingCookie cs t : touches cs (setPendingCookie s t).
Proof. unfold setPendingCookie. touch. Qed.
Lemma touches_clearPendingCookie cs : touches cs (clearPendingCookie s).
Proof. unfold clearPendingCookie. touch. Qed.
Lemma touches_is_locked cs e : touches cs (is_locked s e).
Proof. unfold is_locked. touch. Qed.
Lemma touches_record_failure cs e : touches cs (record_failure s e).
Proof. unfold record_failure. touch. Qed.
Lemma touches_record_success cs e : touches cs (record_success s e).
Proof. unfold record_success. touch. Qed.
Lemma touches_pending_add cs u : touches cs (pending_add u).
Proof. unfold pending_add. touch. Qed.
Lemma touches_pending_crit {A} cs (f : Z -> pending_map -> A * pending_map) : touches cs (pending_crit f).
Proof. apply touches_crit. Qed.
Lemma touches_hasSecondFactor cs u : touches cs (hasSecondFactor s u).
Proof. unfold hasSecondFactor. touch. Qed.
Lemma touches_Authenticate cs e p : touches cs (Authenticate e p).
Proof. unfold Authenticate. touch. Qed.
Lemma touches_CreateSession u a i m :
  touches [NSessions] (CreateSession (as_sessions s) u a i m).
Proof. unfold CreateSession, mapErr. touch. Qed.
Lemma touches_RotateSession o u a i m :
  touches [NSessions] (RotateSession (as_sessions s) o u a i m).
Proof. unfold RotateSession, ignore. touch; apply touches_CreateSession. Qed.
End auth_footprints.

#[export] Hint Extern 5 (touches _ (RecordEvent _ _)) =>
  (eapply touches_sub; [eapply touches_RecordEvent|sub_files]) : touch.
#[export] Hint Extern 5 (touches _ (RotateSession _ _ _ _ _ _)) =>
  (eapply touches_sub; [eapply touches_RotateSession|sub_files]) : touch.
#[export] Hint Extern 5 (touches _ (hasSecondFactor _ _)) => (eapply touches_hasSecondFactor) : touch.
#[export] Hint Extern 5 (touches _ (Authenticate _ _)) => (eapply touches_Authenticate) : touch.
#[export] Hint Resolve touches_ClearToken touches_setPendingCookie
  touches_clearPendingCookie touches_ValidateToken touches_is_locked touches_record_failure
  touches_record_success touches_pending_add touches_pending_crit : touch.

(** ** Operations that leave the memory of requests alone *)

Section memory.
Context `{StoreLaws} `{UnicodeTables} `{Argon2} (s : Service).

Lemma same_mem_RecordLogin l : keeps same_mem (RecordLogin l).
Proof. unfold RecordLogin. keep. Qed.
Lemma same_mem_ClearToken c : keeps same_mem (ClearToken c).
Proof. unfold ClearToken. keep. Qed.
Lemma same_mem_setPendingCookie t : keeps same_mem (setPendingCookie s t).
Proof. unfold setPendingCookie. keep. Qed.
Lemma same_mem_clearPendingCookie : keeps same_mem (clearPendingCookie s).
Proof. unfold clearPendingCookie. keep. Qed.
Lemma same_mem_RecordEvent b e : keeps same_mem (RecordEvent b e).
Proof. unfold RecordEvent, ignore. keep. Qed.
Lemma same_mem_hasSecondFactor u : keeps same_mem (hasSecondFactor s u).
Proof. unfold hasSecondFactor. keep. Qed.
Lemma same_mem_RotateSession o u a i m : keeps same_mem (RotateSession (as_sessions s) o u a i m).
Proof. unfold RotateSession, CreateSession, mapErr, ignore. keep. Qed.
Lemma same_mem_ValidateToken c r : keeps same_mem (ValidateToken c r).
Proof. unfold ValidateToken. keep. Qed.
Lemma same_mem_Authenticate e p : keeps same_mem (Authenticate e p).
Proof. unfold Authenticate. keep. Qed.
End memory.

#[export] Hint Resolve same_mem_RecordLogin same_mem_ClearToken same_mem_setPendingCookie
  same_mem_clearPendingCookie : keep.
(** The hints leave the contract to be found in the context. *)
#[export] Hint Extern 2 (keeps same_mem _) => (eapply same_mem_RecordEvent) : keep.
#[export] Hint Extern 2 (keeps same_mem _) => (eapply same_mem_hasSecondFactor) : keep.
#[export] Hint Extern 2 (keeps same_mem _) => (eapply same_mem_RotateSession) : keep.
#[export] Hint Extern 2 (keeps same_mem _) => (eapply same_mem_ValidateToken) : keep.
#[export] Hint Extern 2 (keeps same_mem _) => (eapply same_mem_Authenticate) : keep.

(** ** Sessions *)

Definition session_row (w : World) (id : string) (x : Session) : Prop :=
  exists rows, get CSessions (w_disk w) = FData rows /\
    find_first (fun x => session_ID x ==? id) rows = Some x.

(** The sessions left when the one of a cookie is deleted. *)
Definition without_session (token : string) (rows : list Session) : list Session :=
  default rows (remove_first (fun x => session_ID x ==? token) rows).

Lemma without_session_subset token rows : without_session token rows ⊆ rows.
Proof.
  unfold without_session. intros x. destruct (remove_first _ rows) eqn:E; simpl; [|done].
  by apply (remove_first_elem _ _ _ _ E).
Qed.

(** Sessions may have gone, but none was added. *)
Definition fewer_sessions (w w' : World) : Prop :=
  forall rows', get CSessions (w_disk w') = FData rows' ->
    exists rows, get CSessions (w_disk w) = FData rows /\ rows' ⊆ rows.

#[global] Instance fewer_sessions_preorder : PreOrder fewer_sessions.
Proof.
  split; [by intros w rows H; exists rows|]. intros w1 w2 w3 H12 H23 rows3 H3.
  destruct (H23 _ H3) as (rows2 & H2 & S2), (H12 _ H2) as (rows1 & H1 & S1).
  exists rows1. split; [done|by etransitivity].
Qed.

Lemma fewer_sessions_same w w' : same_disk w w' -> fewer_sessions w w'.
Proof. intros [_ Hd] rows Hr. exists rows. by rewrite <-Hr, Hd. Qed.

Lemma fewer_sessions_frame cs w w' : frame cs w w' -> NSessions ∉ cs -> fewer_sessions w w'.
Proof. intros Hf Hn rows Hr. exists rows. by rewrite <-Hr, (frame_get _ _ _ _ Hf). Qed.

Lemma touches_frame_nil `{Env} {A} (p : Prog A) w :
  touches [] p -> wp p w (fun _ w' => same_disk w w').
Proof. intros Hp. eapply wp_mono; [apply Hp|]. intros a w'. cbn beta. apply frame_nil. Qed.

Section session_specs.
Context `{StoreLaws} `{UnicodeTables} `{Argon2} (ss : SessionService).

(** A new row for the user, named by random bytes of this run. *)
Definition new_session (w w' : World) (userID : string) (amr : list string) (x : Session) (token : string)
    : Prop :=
  session_ID x = token /\ session_UserID x = userID /\ session_AMR x = amr /\
  (exists n random, (w_tick w <= n < w_tick w')%nat /\ env_rand n SessionTokenLength = Some random /\
     token = RawURLEncodeToString random) /\
  exists t, instant w w' t /\ session_ExpiresAt x = Add t (ss_sessionTTL ss).

Lemma new_session_later w1 w2 w w' userID amr x token :
  (w_tick w <= w_tick w1)%nat -> (w_tick w2 <= w_tick w')%nat ->
  new_session w1 w2 userID amr x token -> new_session w w' userID amr x token.
Proof.
  intros Hw1 Hw2 (Hi & Hu & Ha & (n & random & Hn & Hr) & (t & (k & Hk & ->) & He)).
  split_and!; try done.
  - exists n, random. split; [lia|done].
  - exists (env_clock k). split; [|done]. exists k. split; [lia|done].
Qed.

Lemma CreateSession_spec userID agent ip amr w :
  wp (CreateSession ss userID agent ip amr) w (fun r w' => forall x token, r = Ok (x, token) ->
    new_session w w' userID amr x token /\
    exists rows, get CSessions (w_disk w) = FData rows /\ get CSessions (w_disk w') = FData (rows ++ [x])).
Proof.
  unfold CreateSession. eapply (wp_try_map _ _ _ _ (fun r w' => w' = ticked 1 w /\
    forall random, r = Ok random -> env_rand (w_tick w) SessionTokenLength = Some random)); [| |done].
  { apply wp_intro. intros r w' Hr. cbn in Hr. injection Hr as <- <-. split; [done|].
    intros random. by destruct (env_rand _ _); intros [= ->]. }
  intros random w1 [-> Hrand]. specialize (Hrand random eq_refl).
  apply wp_bind, wp_now, wp_bind, wp_now. cbn [ticked w_tick].
  eapply wp_try_map; [apply law_Sessions_Create| |done]. intros x w2 Hu. cbn beta in Hu.
  pose proof (frame_tick _ _ _ (upd_frame _ _ _ _ _ Hu)) as Ht. cbn [ticked w_tick] in Ht.
  apply upd_Ok in Hu as (rows & t & u & rows' & Hrows & _ & _ & Hf & Hg).
  unfold rows_add in Hf. case_match; [|done]. injection Hf as <- <-.
  apply wp_ret. intros x token [= <- <-]. split; [|by exists rows].
  split_and!; try done.
  - exists (w_tick w), random. split_and!; try done; lia.
  - eexists. split; [|done]. eexists. split; [|done]. lia.
Qed.

Lemma CreateSession_refused userID agent ip amr w :
  wp (CreateSession ss userID agent ip amr) w (fun r w' => forall e, r = Err e -> fewer_sessions w w').
Proof.
  unfold CreateSession. eapply (wp_try_map _ _ _ _ (fun r w' => same_disk w w')).
  { apply (touches_frame_nil (randRead _)), touches_rand. }
  2:{ intros e w1 Hd e' _. by apply fewer_sessions_same. }
  intros random w1 Hd1. apply wp_bind, wp_now, wp_bind, wp_now.
  eapply wp_try_map; [apply law_Sessions_Create|by intros; apply wp_ret|].
  intros e w2 Hu e' _. cbn beta in Hu.
  etransitivity; [apply (fewer_sessions_same _ _ Hd1)|].
  destruct (upd_Err_contents _ _ _ _ _ Hu) as [Hd|Hd]; intros rows' Hr'; [|congruence].
  exists rows'. rewrite <-Hr', Hd. by split.
Qed.

(** The deletion of the old session, whose error is ignored. *)
Lemma drop_session old w :
  wp (if old !=? "" then ignore (Sessions_Delete old) else Ret tt) w (fun _ w1 =>
    (w_tick w <= w_tick w1)%nat /\ fewer_sessions w w1 /\
    forall rows1, get CSessions (w_disk w1) = FData rows1 ->
      exists rows, get CSessions (w_disk w) = FData rows /\
        (rows1 = rows \/ (old <> "" /\ rows1 = without_session old rows))).
Proof.
  apply wp_if; intros Hold; [|apply wp_ret; split_and!; try done; intros rows1 ->; by eauto].
  bool_to_prop. unfold ignore. eapply wp_step; [apply law_Sessions_Delete|]. intros r w1 Hu.
  cbn beta in Hu. apply wp_ret.
  split; [exact (frame_tick _ _ _ (upd_frame _ _ _ _ _ Hu))|].
  assert (forall rows1, get CSessions (w_disk w1) = FData rows1 ->
      exists rows, get CSessions (w_disk w) = FData rows /\
        (rows1 = rows \/ (old <> "" /\ rows1 = without_session old rows))) as Hall.
  { intros rows1 Hg1. destruct r as [[]|e].
    - apply upd_Ok in Hu as (a & t & u & a' & Ha & _ & _ & Hf & Hg2). rewrite Hg2 in Hg1.
      injection Hg1 as <-. exists a. split; [done|]. right. split; [done|].
      unfold rows_remove in Hf. unfold without_session. by destruct (remove_first _ a); simplify_eq/=.
    - destruct (upd_Err_contents _ _ _ _ _ Hu) as [Hd|Hd]; [|congruence].
      rewrite Hd in Hg1. exists rows1. by split; [|left]. }
  split; [|exact Hall]. intros rows1 Hg1. destruct (Hall rows1 Hg1) as (rows & Hg & [->|[_ ->]]);
    exists rows; split; try done. apply without_session_subset.
Qed.

Lemma RotateSession_spec old userID agent ip amr w :
  wp (RotateSession ss old userID agent ip amr) w (fun r w' => forall x token, r = Ok (x, token) ->
    new_session w w' userID amr x token /\
    exists rows rows', get CSessions (w_disk w) = FData rows /\
      get CSessions (w_disk w') = FData (rows' ++ [x]) /\
      (rows' = rows \/ (old <> "" /\ rows' = without_session old rows))).
Proof.
  unfold RotateSession. eapply wp_step; [apply drop_session|]. intros [] w1 (Ht1 & _ & Hall).
  eapply wp_mono; [apply CreateSession_spec|].
  intros r w2 Hpost x token Hr. destruct (Hpost x token Hr) as (Hnew & rows1 & Hg1 & Hg2).
  destruct (Hall _ Hg1) as (rows & Hg & Hcase). split; [|by exists rows, rows1].
  by apply (new_session_later w1 w2).
Qed.

Lemma RotateSession_refused old userID agent ip amr w :
  wp (RotateSession ss old userID agent ip amr) w (fun r w' => forall e, r = Err e -> fewer_sessions w w').
Proof.
  unfold RotateSession. eapply wp_step; [apply drop_session|]. intros [] w1 (_ & Hf & _).
  eapply wp_mono; [apply CreateSession_refused|]. intros r w2 Hpost e Hr.
  etransitivity; [exact Hf|by eapply Hpost].
Qed.
End session_specs.
