(* ===== verification/SignIn.v ===== *)
(** * Signing in: what a login and a second factor promise

    Specifications of the steps of [Service.Login] and
    [Service.CompleteSecondFactor], and the properties they compose to: a
    session starts only after every check, and says which factors were used. *)
From S2P Require Import Prelude GoTime GoText Encoding Hash Errors Domain Lockout PendingLogins.
From S2P Require Import World Run Store Exec StoreFacts FileStore Keys Password Jwt Totp Csrf Session AuthService.
From S2P Require Import Authorize TokenService TokenFacts AuthFacts Metrics.
#[local] Open Scope Z_scope.
#[local] Open Scope go_scope.

Section signin.
Context `{StoreLaws} `{UnicodeTables} `{Argon2} (s : Service).

(** ** What is checked *)

(** The user the store finds for an address. *)
Definition user_at (w : World) (email : string) (u : User) : Prop :=
  exists rows, get CUsers (w_disk w) = FData rows /\
    find_first (fun u => same_email (user_Email u) email) rows = Some u.

Definition password_of (u : User) (password : string) : Prop :=
  VerifyPassword password (user_PasswordHash u) = Ok true.

Definition passkeys_in (w : World) (userID : string) (l : list Passkey) : Prop :=
  exists rows, get CPasskeys (w_disk w) = FData rows /\
    l = List.filter (fun p => passkey_UserID p ==? userID) rows.

(** Neither an authenticator nor a passkey. *)
Definition password_suffices (w : World) (u : User) : Prop :=
  TOTPEnabled u = false /\ (as_passkeys s = true -> passkeys_in w (user_ID u) []).

(** Whether the lockout refuses the address at an instant of the run. *)
Definition unlocked (w w' : World) (email : string) : Prop :=
  forall l, as_lockout s = Some l ->
    exists t, instant w w' t /\ Lockout_IsLocked l t email (m_lockout (w_mem w)) = false.

(** The lockout forgot the failures for the address. *)
Definition failures_forgotten (w' : World) (email : string) : Prop :=
  forall l, as_lockout s = Some l -> 0 < lo_maxAttempts l ->
    m_lockout (w_mem w') !! lockoutKey email = None.

Definition old_token (r : Request) : string := default "" (Cookie r SessionCookieName).

(** A new session for the user, named in a cookie; of the others at most the
    one the request came with is gone. *)
Definition signed_in (r : Request) (w w' : World) (userID : string) (amr : list string) : Prop :=
  exists x token rows rows',
    new_session (as_sessions s) w w' userID amr x token /\
    get CSessions (w_disk w) = FData rows /\ get CSessions (w_disk w') = FData (rows' ++ [x]) /\
    (rows' = rows \/ (old_token r <> "" /\ rows' = without_session (old_token r) rows)) /\
    SetCookie (session_cookie (as_sessions s) token (Z.quot (ss_sessionTTL (as_sessions s)) Second))
      ∈ w_out w'.

(** ** Specifications of the steps *)

Lemma is_locked_spec email w :
  wp (is_locked s email) w (fun b w' => same_disk w w' /\ same_mem w w' /\
    (b = false -> unlocked w w' email)).
Proof.
  unfold is_locked, unlocked. destruct (as_lockout s) as [l|].
  - apply wp_intro. intros b w' Hr. cbn in Hr. injection Hr as <- <-.
    split; [split; [cbn; lia|done]|]. split; [done|]. intros Hb l' [= <-].
    eexists. split; [|exact Hb]. exists (w_tick w). split; [cbn; lia|done].
  - apply wp_ret. by split_and!.
Qed.

Lemma Authenticate_spec email password w :
  wp (Authenticate email password) w (fun r w' => same_disk w w' /\
    (forall u, r = Ok u -> user_at w email u /\ user_Active u = true /\ password_of u password) /\
    (forall e, r = Err e -> e <> ErrSecondFactorRequired)).
Proof.
  apply wp_and_disk; [apply touches_Authenticate|]. unfold Authenticate.
  eapply wp_step; [apply law_Users_GetByEmail|]. intros [user|e] w1 Hq; cbn beta in Hq.
  - apply qry_find in Hq as (rows & Hg & Hf). apply wp_if; intros Ha; [apply wp_ret|].
    { split; [done|]. by intros e [= <-]. }
    bool_to_prop. destruct (VerifyPassword _ _) as [[]|] eqn:Hp; apply wp_ret;
      (split; [intros u [=]|intros e0 [=]]); subst; try done.
    split; [by exists rows|by split].
  - apply wp_if; intros _; apply wp_ret; (split; [done|]); by intros e' [= <-].
Qed.

Lemma hasSecondFactor_spec user w :
  wp (hasSecondFactor s user) w (fun b w' => same_disk w w' /\ same_mem w w' /\
    (b = false -> password_suffices w user)).
Proof.
  apply wp_and_disk; [apply touches_hasSecondFactor|].
  apply wp_and_keeps; [apply same_mem_hasSecondFactor|].
  unfold hasSecondFactor, password_suffices.
  apply wp_if; intros Ht; [by apply wp_ret|]. apply wp_if; intros Hp; bool_to_prop.
  { apply wp_ret. split; [done|congruence]. }
  eapply wp_step; [apply law_Passkeys_ListByUserID|]. intros r w1 Hq. cbn beta in Hq.
  apply wp_ret. intros Hb. split; [done|]. intros _. destruct r as [l|e]; [|done].
  destruct l; [|done]. apply qry_Ok in Hq as (rows & t & Hg & _ & Hf). injection Hf as Hf.
  exists rows. by rewrite Hf.
Qed.

Lemma record_success_spec email w :
  wp (record_success s email) w (fun _ w' => same_disk w w' /\ failures_forgotten w' email /\
    m_pending (w_mem w') = m_pending (w_mem w)).
Proof.
  unfold record_success, failures_forgotten. destruct (as_lockout s) as [l|].
  - apply wp_intro. intros b w' Hr. cbn in Hr. injection Hr as _ <-.
    split; [split; [cbn; lia|done]|]. split; [|done]. intros l' [= <-] Hmax. cbn.
    unfold Lockout_RecordSuccess.
    replace (lo_maxAttempts l <=? 0) with false by lia. by rewrite lookup_delete_eq.
  - apply wp_ret. by split_and!.
Qed.

Lemma failures_forgotten_same w w' email :
  same_mem w w' -> failures_forgotten w email -> failures_forgotten w' email.
Proof. unfold failures_forgotten. by intros ->. Qed.

(** What follows the creation of the session. *)
Definition greet (r : Request) (user : User) (token : string) : Prog (res unit) :=
  let! _ := SetSessionCookie (as_sessions s) token in
  let! _ := ClearToken (as_csrf s) in
  let! _ := RecordEvent (as_audit s) (user_event user "login.success" "" (ClientIP r)) in
  let! _ := RecordLogin "success" in
  ret_ok tt.

Lemma same_mem_greet r user token : keeps same_mem (greet r user token).
Proof. unfold greet, SetSessionCookie, ClearToken, RecordLogin. keep. Qed.
Lemma touches_greet r user token : touches [NAudit] (greet r user token).
Proof. unfold greet, SetSessionCookie, ClearToken, RecordLogin. touch. Qed.
Lemma greet_cookie r user token w :
  wp (greet r user token) w (fun _ w' =>
    SetCookie (session_cookie (as_sessions s) token (Z.quot (ss_sessionTTL (as_sessions s)) Second))
      ∈ w_out w').
Proof.
  unfold greet. apply wp_bind, wp_emit, wp_intro. intros a w' Hr.
  apply (out_kept _ _ _ _ _ Hr). cbn. set_solver.
Qed.

Lemma greet_Ok r user token w : wp (greet r user token) w (fun res _ => res = Ok tt).
Proof. unfold greet. do 4 (apply wp_bind, wp_intro; intros ? ? _). by apply wp_ret. Qed.

Lemma startSession_spec r user amr w :
  wp (startSession s r user amr) w (fun res w' =>
    (forall e, res = Err e -> fewer_sessions w w' /\ e <> ErrSecondFactorRequired) /\
    (forall u, res = Ok u -> signed_in r w w' (user_ID user) amr /\
                             failures_forgotten w' (user_Email user) /\
                             m_pending (w_mem w') = m_pending (w_mem w))).
Proof.
  unfold startSession. eapply wp_step; [apply record_success_spec|].
  intros [] w1 (Hd1 & Hforgot & Hpend). cbn zeta. fold (old_token r).
  eapply wp_try_map; [apply wp_and; [apply RotateSession_refused|];
    apply (wp_and_keeps same_mem); [apply same_mem_RotateSession|apply RotateSession_spec]| |]; cbn beta.
  2:{ intros e w2 [Hf _]. split; [|done]. intros e' [= <-]. split; [|done].
      etransitivity; [apply (fewer_sessions_same _ _ Hd1)|by eapply Hf]. }
  intros [x token] w2 (_ & Hm2 & Hpost). destruct (Hpost x token eq_refl) as
    (Hnew & rows & rows' & Hg1 & Hg2 & Hcase).
  apply wp_intro. intros res w3 Hr3. fold (greet r user token) in Hr3.
  pose proof (touches_run _ _ _ _ _ (touches_greet r user token) Hr3) as Hf3.
  split.
  { intros e ->. by pose proof (wp_run _ _ _ _ _ (greet_Ok r user token w2) Hr3). }
  intros u _.
  assert (same_mem w1 w3) as Hm3.
  { transitivity w2; [exact Hm2|exact (keeps_run _ _ _ _ _ (same_mem_greet r user token) Hr3)]. }
  split; [|split; [by eapply failures_forgotten_same|by rewrite Hm3]].
  - exists x, token, rows, rows'. split_and!; try done.
    + eapply new_session_later; [apply Hd1|apply (frame_tick _ _ _ Hf3)|exact Hnew].
    + by rewrite <-(proj2 Hd1).
    + by rewrite (frame_get _ _ _ _ Hf3) by set_solver.
    + exact (wp_run _ _ _ _ _ (greet_cookie r user token w2) Hr3).
Qed.

(** ** Login *)

Definition csrf_valid (r : Request) (w : World) : Prop :=
  (run (ValidateToken (as_csrf s) r) w).1 = Ok tt.

(** A pending login for the user, named by random bytes of this run. *)
Definition half_signed_in (w w' : World) (user : User) (token : string) : Prop :=
  (exists t, instant w w' t /\ m_pending (w_mem w') !! token = Some {|
     pl_userID := user_ID user; pl_email := user_Email user; pl_expires := Add t pendingLoginTTL;
     pl_attempts := 0; pl_passkey := None |}) /\
  (exists n random, (w_tick w <= n < w_tick w')%nat /\ env_rand n 32 = Some random /\
     token = RawURLEncodeToString random) /\
  SetCookie (pending_cookie s token (Z.quot pendingLoginTTL Second)) ∈ w_out w'.

Lemma unlocked_later w1 w2 w w' email :
  (w_tick w <= w_tick w1)%nat -> (w_tick w2 <= w_tick w')%nat -> same_mem w w1 ->
  unlocked w1 w2 email -> unlocked w w' email.
Proof.
  intros Hw Hw' Hm Hu l Hl. destruct (Hu l Hl) as (t & Ht & Hlock). exists t.
  rewrite <-Hm. split; [by eapply instant_in|done].
Qed.

Lemma pending_add_spec user w :
  wp (pending_add user) w (fun r w' => same_disk w w' /\
    (forall e, r = Err e -> e <> ErrSecondFactorRequired) /\ forall token, r = Ok token ->
    (exists t, instant w w' t /\ m_pending (w_mem w') !! token = Some {|
       pl_userID := user_ID user; pl_email := user_Email user; pl_expires := Add t pendingLoginTTL;
       pl_attempts := 0; pl_passkey := None |}) /\
    (exists n random, (w_tick w <= n < w_tick w')%nat /\ env_rand n 32 = Some random /\
       token = RawURLEncodeToString random)).
Proof.
  apply wp_and_disk; [apply touches_pending_add|]. apply wp_intro. intros r w' Hr.
  cbn in Hr. destruct (env_rand (w_tick w) 32) as [random|] eqn:Hrand; cbn in Hr.
  2:{ injection Hr as <- <-. split; [by intros e [= <-]|done]. }
  split; [by intros e ->|]. intros token ->.
  cbn in Hr. injection Hr as <- <-. cbn. split.
  - eexists. split; [|unfold pendingLogins_add; by rewrite lookup_insert_eq].
    exists (w_tick w + 1)%nat. cbn. split; [lia|done].
  - exists (w_tick w), random. split_and!; try done; lia.
Qed.

Lemma ValidateToken_spec r w :
  wp (ValidateToken (as_csrf s) r) w (fun v w' =>
    same_disk w w' /\ same_mem w w' /\ (v = Ok tt -> csrf_valid r w)).
Proof.
  apply wp_and_disk; [apply touches_ValidateToken|].
  apply wp_and_keeps; [apply same_mem_ValidateToken|].
  apply wp_intro. intros v w' Hr ->. unfold csrf_valid. by rewrite Hr.
Qed.

(** A step that adds no session, whatever it returns. *)
Lemma wp_skip {A B} (p : Prog A) (f : A -> Prog B) w Q :
  touches [NAudit] p ->
  (forall a w', frame [NAudit] w w' -> wp (f a) w' Q) -> wp (bind p f) w Q.
Proof. intros Hp Hf. eapply wp_step; [apply Hp|exact Hf]. Qed.

Definition login_outcome (r : Request) (email password : string) (w : World) (res : res User)
    (w' : World) : Prop :=
  match res with
  | Ok user =>
      csrf_valid r w /\ unlocked w w' email /\ user_at w email user /\ user_Active user = true /\
      password_of user password /\ password_suffices w user /\
      signed_in r w w' (user_ID user) [AMRPassword] /\ failures_forgotten w' (user_Email user)
  | Err e =>
      fewer_sessions w w' /\
      (e = ErrSecondFactorRequired -> exists user token,
         csrf_valid r w /\ unlocked w w' email /\ user_at w email user /\
         user_Active user = true /\ password_of user password /\
         half_signed_in w w' user token)
  end.

Lemma refused_outcome r email password w w' e :
  frame [NAudit] w w' -> e <> ErrSecondFactorRequired ->
  login_outcome r email password w (Err e) w'.
Proof.
  intros Hf He. split; [|done]. eapply fewer_sessions_frame; [exact Hf|set_solver].
Qed.

(** What the browser is told when a second factor is needed. *)
Definition ask_second_factor (token : string) : Prog (res User) :=
  let! _ := setPendingCookie s token in
  let! _ := ClearToken (as_csrf s) in
  let! _ := RecordLogin "second_factor_required" in
  ret_err ErrSecondFactorRequired.

Lemma ask_second_factor_spec token w :
  wp (ask_second_factor token) w (fun res w' =>
    same_disk w w' /\ same_mem w w' /\ res = Err ErrSecondFactorRequired /\
    SetCookie (pending_cookie s token (Z.quot pendingLoginTTL Second)) ∈ w_out w').
Proof.
  apply wp_and_disk; [unfold ask_second_factor; touch|].
  apply wp_and_keeps; [unfold ask_second_factor; keep|].
  unfold ask_second_factor. apply wp_bind, wp_emit, wp_and.
  - do 2 (apply wp_bind, wp_intro; intros ? ? _). by apply wp_ret.
  - apply wp_intro. intros a w' Hr. apply (out_kept _ _ _ _ _ Hr). cbn. set_solver.
Qed.

Lemma signed_in_later r w1 w2 w w' userID amr :
  (w_tick w <= w_tick w1)%nat -> get CSessions (w_disk w1) = get CSessions (w_disk w) ->
  (w_tick w2 <= w_tick w')%nat -> w_disk w' = w_disk w2 ->
  w_out w2 `prefix_of` w_out w' ->
  signed_in r w1 w2 userID amr -> signed_in r w w' userID amr.
Proof.
  intros Ht Hd Ht2 Hd2 [l Ho] (x & token & rows & rows' & Hnew & Hg & Hg' & Hc & Hout).
  exists x, token, rows, rows'. rewrite Hd2, <-Hd, Ho. split_and!; try done; [|set_solver].
  by eapply new_session_later; [exact Ht| |exact Hnew].
Qed.

Lemma Login_spec r email password w :
  wp (Login s r email password) w (login_outcome r email password w).
Proof.
  unfold Login. eapply wp_step; [apply ValidateToken_spec|]. intros v w1 (Hd1 & Hm1 & Hcsrf).
  destruct v as [[]|]; [specialize (Hcsrf eq_refl)|].
  2:{ apply wp_ret, refused_outcome; [by apply same_disk_frame|done]. }
  eapply wp_step; [apply is_locked_spec|]. intros b w2 (Hd2 & Hm2 & Hun).
  apply wp_if; intros Hb.
  { apply wp_skip; [touch|]. intros _ w3 Hf3. apply wp_skip; [touch|]. intros _ w4 Hf4.
    apply wp_ret, refused_outcome; [|done].
    transitivity w3; [|done]. transitivity w2; [|done]. apply same_disk_frame. by transitivity w1. }
  specialize (Hun Hb). assert (same_disk w w2) as Hd02 by (by transitivity w1).
  eapply wp_step; [apply Authenticate_spec|]. intros a w3 (Hd3 & Hauth & Hne).
  assert (same_disk w w3) as Hd03 by (by transitivity w2).
  destruct a as [user|e].
  2:{ specialize (Hne e eq_refl).
    apply wp_skip; [touch|]. intros _ w4 Hf4. apply wp_skip; [touch|]. intros _ w5 Hf5.
    apply wp_skip; [touch|]. intros _ w6 Hf6. apply wp_ret, refused_outcome; [|done].
    transitivity w5; [|done]. transitivity w4; [|done]. transitivity w3; [|done].
    by apply same_disk_frame. }
  clear Hne. destruct (Hauth user eq_refl) as (Hat & Hact & Hpw).
  assert (user_at w email user) as Hat0.
  { destruct Hat as (rows & Hg & Hf). exists rows. by rewrite <-(proj2 Hd02). }
  eapply wp_step; [apply hasSecondFactor_spec|]. intros second w4 (Hd4 & Hm4 & Hsuff).
  assert (same_disk w w4) as Hd04 by (by transitivity w3).
  apply wp_if; intros Hsec.
  - eapply wp_try; [apply pending_add_spec| |].
    2:{ intros e w5 (Hd5 & Hne & _). apply refused_outcome; [|exact (Hne e eq_refl)].
        apply same_disk_frame. by transitivity w4. }
    intros token w5 (Hd5 & _ & Hpend). destruct (Hpend token eq_refl) as [(t & Ht & Hp) Hrand].
    eapply wp_mono; [apply ask_second_factor_spec|]. cbn beta.
    intros res w6 (Hd6 & Hm6 & -> & Hout). assert (same_disk w w6) as Hd06.
    { transitivity w4; [done|]. by transitivity w5. }
    split; [by apply fewer_sessions_same|]. intros _. exists user, token. split_and!; try done.
    + eapply unlocked_later; [exact (proj1 Hd1)| |exact Hm1|exact Hun].
      destruct Hd3, Hd4, Hd5, Hd6. lia.
    + split; [|split; [|exact Hout]].
      * exists t. rewrite Hm6. split; [|done].
        eapply instant_in; [exact (proj1 Hd04)|exact (proj1 Hd6)|done].
      * destruct Hrand as (n & random & Hn & Hr & Heq). exists n, random. destruct Hd04, Hd6.
        split_and!; try done; lia.
  - specialize (Hsuff Hsec). eapply wp_try; [apply startSession_spec| |].
    2:{ intros e w5 [Hf _]. destruct (Hf e eq_refl) as [Hfew Hne]. split; [|done].
        etransitivity; [by apply fewer_sessions_same|exact Hfew]. }
    intros [] w5 [_ Hok]. destruct (Hok tt eq_refl) as (Hin & Hforgot & _). apply wp_ret.
    assert (w_tick w4 <= w_tick w5)%nat as Ht5.
    { destruct Hin as (x & token & rows & rows' & (_ & _ & _ & (n & rd & Hn & _) & _) & _). lia. }
    cbn [login_outcome]. split_and!; try done.
    + eapply unlocked_later; [exact (proj1 Hd1)| |exact Hm1|exact Hun].
      destruct Hd3, Hd4. lia.
    + destruct Hsuff as [Hs1 Hs2]. split; [done|]. intros Hp. destruct (Hs2 Hp) as (rows & Hg & Hr).
      exists rows. by rewrite <-(proj2 Hd03).
    + eapply (signed_in_later r w4 w5); try done; [exact (proj1 Hd04)|by rewrite (proj2 Hd04)].
Qed.

(** A second factor is never a password's to replace: a login that ends in a
    session found no authenticator and no passkey, and every other login adds
    no session. *)

(** Claim C24.  A password login that succeeds came with a valid CSRF token
    for an address that was not locked out; the store knows the address for
    an active user whose hash the password verifies against, and who has
    neither an authenticator nor a passkey.  It adds one session, for that
    user, whose token is new random bytes, with the methods ["pwd"], sends the
    token in a cookie, removes at most the session the request came with, and
    clears the user's failed attempts. *)
Theorem login_sound r email password w user w' :
  run (Login s r email password) w = (Ok user, w') ->
  csrf_valid r w /\ unlocked w w' email /\ user_at w email user /\ user_Active user = true /\
  password_of user password /\ password_suffices w user /\
  signed_in r w w' (user_ID user) [AMRPassword] /\ failures_forgotten w' (user_Email user).
Proof. intros Hr. exact (wp_run _ _ _ _ _ (Login_spec r email password w) Hr). Qed.

(** Claim C34.  A password login that does not succeed adds no session; when
    it asks for a second factor, the password was right and the account not
    locked, and the pending login it leaves names the user, expires in five
    minutes, counts no attempts and is sent to the browser. *)
Theorem login_refused r email password w e w' :
  run (Login s r email password) w = (Err e, w') ->
  fewer_sessions w w' /\
  (e = ErrSecondFactorRequired -> exists user token,
     csrf_valid r w /\ unlocked w w' email /\ user_at w email user /\
     user_Active user = true /\ password_of user password /\ half_signed_in w w' user token).
Proof. intros Hr. exact (wp_run _ _ _ _ _ (Login_spec r email password w) Hr). Qed.
End signin.
