(* ===== verification/ConsentFacts.v ===== *)
(** * Consent: what a grant leaves

    [Grant] and [IsGranted] of internal/oidc/consent.go against the contract
    of [Store]: a grant adds to what the user granted the client before,
    nothing else changes, and what was granted is found granted. *)
From S2P Require Import Prelude GoTime GoText GoUrl Errors Domain Lockout PendingLogins.
From S2P Require Import World Run Store Exec StoreFacts FileStore Keys Password Jwt Authorize TokenService TokenFacts Metrics.
#[local] Open Scope Z_scope.
#[local] Open Scope go_scope.

(** The consent of a user for a client, in the consent file. *)
Definition consent_row (rows : list Consent) (userID clientID : string) : option Consent :=
  find_first (consent_of userID clientID) rows.

Definition granted_scopes (rows : list Consent) (userID clientID : string) : list string :=
  match consent_row rows userID clientID with Some c => consent_Scopes c | None => [] end.

Lemma consent_of_set userID clientID id t c :
  consent_of userID clientID (consent_set id t c) = consent_of userID clientID c.
Proof. by destruct c. Qed.

Lemma consent_of_inj u c u' c' x :
  consent_of u c x = true -> consent_of u' c' x = true -> u = u' /\ c = c'.
Proof. unfold consent_of. intros Ha Hb. bool_to_prop. split; congruence. Qed.

(** What an upsert leaves: its scopes for its user and client. *)
Lemma upsert_scopes c t u rows rows' b :
  rows_upsert_consent c t u rows = Ok (rows', b) ->
  forall userID clientID, granted_scopes rows' userID clientID =
    if (userID ==? consent_UserID c) && (clientID ==? consent_ClientID c) then consent_Scopes c
    else granted_scopes rows userID clientID.
Proof.
  unfold rows_upsert_consent, granted_scopes, consent_row. intros Hu userID clientID.
  set (p := consent_of (consent_UserID c) (consent_ClientID c)) in *.
  assert (forall id, p (consent_set id t c) = true) as Hp.
  { intros id. unfold p. rewrite consent_of_set. unfold consent_of.
    by rewrite !bool_decide_eq_true_2. }
  assert (forall x, p x = true -> (userID ==? consent_UserID c) && (clientID ==? consent_ClientID c) = false ->
    consent_of userID clientID x = false) as Hother.
  { intros x Hx Hne. destruct (consent_of userID clientID x) eqn:E; [|done].
    destruct (consent_of_inj _ _ _ _ _ Hx E) as [Eu Ec].
    by rewrite !bool_decide_eq_true_2 in Hne. }
  destruct (find_first p rows) as [old|] eqn:Hf; injection Hu as <- _.
  - destruct (replace_first_find p (fun _ => consent_set (consent_ID old) t c) rows old Hf) as [l Hl].
    rewrite Hl. cbn [default from_option id]. destruct (_ && _) eqn:E.
    + bool_to_prop. subst userID clientID. fold p. by rewrite (find_first_replace _ _ _ _ _ Hl Hf (Hp _)).
    + rewrite (find_first_replace_other p (consent_of userID clientID) _ _ _ Hl); [done|].
      intros x Hx. split; apply Hother; auto.
  - rewrite find_first_app. destruct (_ && _) eqn:E.
    + bool_to_prop. subst userID clientID. fold p. rewrite Hf. simpl. by rewrite Hp.
    + destruct (find_first (consent_of userID clientID) rows); [done|]. simpl.
      by rewrite (Hother _ (Hp _) eq_refl).
Qed.

Section consent.
Context `{StoreLaws}.

Lemma touches_Grant userID clientID scopes : touches [NConsents] (Grant userID clientID scopes).
Proof.
  unfold Grant. touch.
Qed.

(** The write both branches of [Grant] end with. *)
Lemma upsert_spec userID clientID merged w :
  wp (let? _ := Consents_Upsert {| consent_ID := ""; consent_UserID := userID;
                                   consent_ClientID := clientID; consent_Scopes := merged;
                                   consent_GrantedAt := zero_time |} in ret_ok tt) w
    (fun r w' => r = Ok tt -> exists rows rows', get CConsents (w_disk w) = FData rows /\
       get CConsents (w_disk w') = FData rows' /\
       forall u c, granted_scopes rows' u c =
         if (u ==? userID) && (c ==? clientID) then merged else granted_scopes rows u c).
Proof.
  eapply wp_try; [apply law_Consents_Upsert| |done]. intros b w1 Hu. cbn beta in Hu. apply wp_ret.
  intros _. apply upd_Ok in Hu as (rows & t & u & rows' & Hg & _ & _ & Hf & Hg').
  exists rows, rows'. split_and!; try done. intros u' c'. by rewrite (upsert_scopes _ _ _ _ _ _ Hf).
Qed.

(** Every success of [Grant]: the union for the user and client, the rest as
    before. *)
Definition grants (userID clientID : string) (scopes : list string) (w w' : World) : Prop :=
  exists rows rows', get CConsents (w_disk w) = FData rows /\ get CConsents (w_disk w') = FData rows' /\
    forall u c, granted_scopes rows' u c ≡ₚ
      if (u ==? userID) && (c ==? clientID)
      then match consent_row rows u c with
           | Some old => unionScopes (consent_Scopes old) scopes
           | None => scopes
           end
      else granted_scopes rows u c.

Lemma Grant_spec userID clientID scopes w :
  wp (Grant userID clientID scopes) w (fun r w' => r = Ok tt -> grants userID clientID scopes w w').
Proof.
  unfold Grant. eapply wp_step; [apply law_Consents_Get|]. intros [old|e] w1 Hq; cbn beta in Hq;
    pose proof (qry_same _ _ _ _ _ Hq) as [_ Hd].
  - apply qry_find in Hq as (rows0 & Hg0 & Hf). eapply wp_mono; [apply upsert_spec|]. cbn beta.
    intros r w2 Hpost Hr. destruct (Hpost Hr) as (rows & rows' & Hg & Hg' & Hall).
    rewrite Hd, Hg0 in Hg. injection Hg as <-. exists rows0, rows'. split_and!; try done. intros u c.
    rewrite Hall. destruct (_ && _) eqn:E; [|reflexivity]. bool_to_prop. subst u c.
    unfold consent_row. by rewrite Hf.
  - apply wp_if; intros Hnf; [|by apply wp_ret].
    destruct (qry_Err _ _ _ _ _ CodeNotFound ltac:(done) Hq Hnf) as (rows0 & t & Hg0 & _ & Hmiss).
    apply rows_find_Err in Hmiss. eapply wp_mono; [apply upsert_spec|]. cbn beta.
    intros r w2 Hpost Hr. destruct (Hpost Hr) as (rows & rows' & Hg & Hg' & Hall).
    rewrite Hd, Hg0 in Hg. injection Hg as <-. exists rows0, rows'. split_and!; try done. intros u c.
    rewrite Hall. destruct (_ && _) eqn:E; [|reflexivity]. bool_to_prop. subst u c.
    unfold consent_row. by rewrite Hmiss.
Qed.

(** The granted scopes are then found. *)
Definition covered (w : World) (userID clientID : string) (scopes : list string) : Prop :=
  exists rows, get CConsents (w_disk w) = FData rows /\ scopes ⊆ granted_scopes rows userID clientID.

Lemma grants_covered userID clientID scopes w w' :
  grants userID clientID scopes w w' -> covered w' userID clientID scopes.
Proof.
  intros (rows & rows' & _ & Hg' & Hall). exists rows'. split; [done|]. intros s Hs.
  rewrite (Hall userID clientID), !bool_decide_eq_true_2 by done. simpl.
  destruct (consent_row rows _ _); [|done]. apply unionScopes_elem. by right.
Qed.

(** Consent is cumulative and isolated: after a grant the user has
    granted the client exactly what they had granted it before together with
    the new scopes; what any other user or client holds is as before; and a
    request for any of the granted scopes, and only for those, is then found
    granted (whenever the store can be read). *)
Theorem grant_roundtrip userID client scopes w w' :
  run (Grant userID (client_ID client) scopes) w = (Ok tt, w') ->
  exists rows rows',
    get CConsents (w_disk w) = FData rows /\ get CConsents (w_disk w') = FData rows' /\
    (forall s, s ∈ granted_scopes rows' userID (client_ID client) <->
       s ∈ granted_scopes rows userID (client_ID client) \/ s ∈ scopes) /\
    (forall u c, (u, c) <> (userID, client_ID client) ->
       granted_scopes rows' u c ≡ₚ granted_scopes rows u c) /\
    (forall asked b w'', client_SkipConsent client = false -> asked <> [] ->
       run (IsGranted userID client asked) w' = (Ok b, w'') ->
       (b = true <-> asked ⊆ granted_scopes rows' userID (client_ID client))).
Proof.
  intros Hr. destruct (wp_run _ _ _ _ _ (Grant_spec userID (client_ID client) scopes w) Hr eq_refl)
    as (rows & rows' & Hg & Hg' & Hall).
  exists rows, rows'. split_and!; try done.
  - intros s. rewrite (Hall userID (client_ID client)), !bool_decide_eq_true_2 by done. simpl.
    unfold granted_scopes. destruct (consent_row rows _ _); [apply unionScopes_elem|set_solver].
  - intros u c Hne. rewrite (Hall u c). destruct (_ && _) eqn:E; [|done]. bool_to_prop. by subst.
  - intros asked b w'' Hskip Hask Hrun. pattern b, w''. eapply run_Ok; [exact Hrun|].
    unfold IsGranted. rewrite Hskip. unfold granted_scopes, consent_row.
    eapply wp_step; [apply law_Consents_Get|]. intros [c|e] w1 Hq; cbn beta in Hq.
    + apply wp_ret. apply qry_find in Hq as (rows1 & Hg1 & Hf). rewrite Hg' in Hg1. injection Hg1 as <-.
      rewrite Hf. apply Covers_spec.
    + apply wp_if; intros Hnf; apply wp_ret; [|done].
      destruct (qry_Err _ _ _ _ _ CodeNotFound ltac:(done) Hq Hnf) as (rows1 & t & Hg1 & _ & Hmiss).
      apply rows_find_Err in Hmiss. rewrite Hg' in Hg1. injection Hg1 as <-. rewrite Hmiss.
      split; [done|]. intros Hsub. destruct asked as [|a l]; [done|]. destruct (not_elem_of_nil a (Hsub a (list_elem_of_here a l))).
Qed.
End consent.
