(* ===== verification/OidcFacts.v ===== *)
(** * The authorization endpoint: when a code is issued

    Specifications of the steps of the Authorize and Consent handlers, and
    the properties they compose to: a code is stored only for a validated
    request, a session that is fresh enough, and scopes the user has granted;
    the response that carries it goes to a registered redirect URI. *)
From S2P Require Import Prelude GoTime GoText GoUrl Errors Domain Lockout PendingLogins.
From S2P Require Import World Run Store Exec StoreFacts FileStore Keys Password Jwt Totp Csrf Session AuthService.
From S2P Require Import Authorize TokenService Http OidcHandlers TokenFacts AuthFacts SignIn ConsentFacts Metrics.
#[local] Open Scope Z_scope.
#[local] Open Scope go_scope.

(** ** Validated requests *)

(** What [validate_rest] leaves of a request: [max_age] is read. *)
Definition read_max_age (req0 req : AuthorizeRequest) : Prop :=
  (ar_maxAge req0 = "" /\ req = req0) \/
  (exists n, Atoi (ar_maxAge req0) = Some n /\ 0 <= n /\ req = ar_set_MaxAge n req0).

(** What the client may ask for. *)
Definition admissible (client : Client) (req : AuthorizeRequest) : Prop :=
  ar_ResponseType req = "code" /\
  AllowsGrant client "authorization_code" = true /\
  "openid" ∈ Scopes req /\ Scopes req ⊆ client_Scopes client /\
  (client_Public client = true -> ar_CodeChallenge req <> "") /\
  (ar_CodeChallenge req <> "" -> ar_CodeChallengeMethod req = "S256") /\
  (HasPrompt req "none" = true -> Z.of_nat (length (ar_Prompt req)) <= 1).

Lemma validate_rest_sound client req0 req :
  validate_rest client req0 = Ok req -> read_max_age req0 req /\ admissible client req.
Proof.
  unfold validate_rest. intros Hv.
  repeat (match type of Hv with (if ?b then _ else _) = _ => destruct b; [done|] end).
  destruct (if ar_maxAge req0 ==? "" then _ else _) as [req1|e] eqn:Hm; [|done]. cbn [res_bind] in Hv.
  assert (read_max_age req0 req1) as Hread.
  { destruct (ar_maxAge req0 ==? "") eqn:E; [left; bool_to_prop; by simplify_eq|right].
    destruct (Atoi _) as [n|]; [|done]. destruct (n <? 0) eqn:En; [done|]. injection Hm as <-.
    exists n. split; [done|]. bool_to_prop. by split. }
  do 6 (match type of Hv with (if ?b then _ else _) = _ => let E := fresh "E" in destruct b eqn:E; [done|] end).
  destruct (find_first _ (Scopes req1)) eqn:Hf; [done|]. injection Hv as <-. split; [done|].
  rewrite !andb_false_iff in *. rewrite !negb_false_iff in *. rewrite !bool_decide_eq_true in *.
  rewrite !bool_decide_eq_false in *.
  split_and!; try done.
  - by apply existsb_eqb_elem.
  - intros sc Hsc. apply (find_first_None _ _) with (x := sc) in Hf; [|done].
    apply negb_false_iff in Hf. by apply existsb_eqb_elem.
  - intros Hp. destruct E3 as [E3|E3]; [congruence|done].
  - intros Hc. by destruct E4 as [E4|E4].
  - intros Hn. destruct E as [E|E]; [congruence|lia].
Qed.

Section authorize.
Context `{StoreLaws} `{UnicodeTables} `{KeyLib} `{JwtLib} `{Argon2} (h : OIDCHandler).

(** The client and the request left of [req0]. *)
Definition validated (w : World) (req0 : AuthorizeRequest) (client : Client) (req : AuthorizeRequest)
    : Prop :=
  client_row w (ar_ClientID req0) client /\
  ar_RedirectURI req0 ∈ client_RedirectURIs client /\
  read_max_age req0 req /\ admissible client req.

Lemma ValidateClient_spec req0 w :
  wp (ValidateClient req0) w (fun r w' => same_disk w w' /\
    forall client req, r = Ok (client, req) -> validated w req0 client req).
Proof.
  unfold ValidateClient. eapply wp_step; [apply law_Clients_GetByID|].
  intros [client|e] w1 Hq; cbn beta in Hq; pose proof (qry_same _ _ _ _ _ Hq) as Hd.
  - apply qry_find in Hq. apply wp_if; intros Hu; apply wp_ret; (split; [exact Hd|]); [done|].
    intros c req Hr. destruct (validate_rest client req0) as [req1|] eqn:Hv; [|done].
    injection Hr as <- <-. apply validate_rest_sound in Hv. apply negb_false_iff in Hu.
    split; [done|]. split; [by apply existsb_eqb_elem|done].
  - apply wp_if; intros _; by apply wp_ret.
Qed.

(** ** The session behind a request *)

(** The session the cookie names has not expired; its user is active. *)
Definition session_live (r : Request) (w w' : World) (session : Session) (user : User) : Prop :=
  exists token, Cookie r SessionCookieName = Some token /\ session_row w token session /\
    (exists t, instant w w' t /\ t <= session_ExpiresAt session) /\
    user_row w (session_UserID session) user /\ user_Active user = true.

Lemma touches_CurrentSession r : touches [NSessions] (CurrentSession r).
Proof. unfold CurrentSession, GetSessionFromRequest, GetSession, ignore. touch. Qed.

Lemma CurrentSession_spec r w :
  wp (CurrentSession r) w (fun res w' => frame [NSessions] w w' /\
    forall session user, res = Ok (session, user) -> same_disk w w' /\ session_live r w w' session user).
Proof.
  apply wp_and; [apply touches_CurrentSession|]. unfold CurrentSession, GetSessionFromRequest, session_live.
  destruct (Cookie r SessionCookieName) as [token|]; [|by apply wp_ret].
  eapply (wp_try _ _ _ (fun res w' => forall session, res = Ok session ->
    same_disk w w' /\ session_row w token session /\
    exists t, instant w w' t /\ t <= session_ExpiresAt session)).
  - unfold GetSession. eapply wp_try; [apply law_Sessions_GetByID| |done].
    intros session w1 Hq. cbn beta in Hq. pose proof (qry_same _ _ _ _ _ Hq) as [Ht1 Hd1].
    apply qry_find in Hq. apply wp_bind, wp_now. apply wp_if; intros He.
    { apply wp_bind, wp_intro. intros [] w2 _. by apply wp_ret. }
    apply wp_ret. intros x [= <-]. split; [split; [cbn; lia|done]|]. split; [done|].
    exists (env_clock (w_tick w1)). split; [exists (w_tick w1); cbn; split; [lia|done]|].
    by apply After_false.
  - intros session w1 Hs. destruct (Hs session eq_refl) as (Hd1 & Hrow & t & Ht & Hle).
    eapply wp_try; [apply law_Users_GetByID| |done]. intros user w2 Hq. cbn beta in Hq.
    pose proof (qry_same _ _ _ _ _ Hq) as Hd2. apply qry_find in Hq.
    apply wp_if; intros Ha; apply wp_ret; [done|]. intros x u [= <- <-].
    split; [by transitivity w1|]. exists token. split; [done|]. split; [done|]. split.
    { exists t. split; [|done]. eapply instant_in; [|apply Hd2|exact Ht]. done. }
    split; [|by bool_to_prop]. destruct Hq as (rows & Hg & Hf). exists rows.
    by rewrite <-(proj2 Hd1).
  - done.
Qed.

(** ** Codes *)

(** No code was added: the file is as before, or lost. *)
Definition no_code (w w' : World) : Prop :=
  get CAuthCodes (w_disk w') = get CAuthCodes (w_disk w) \/ get CAuthCodes (w_disk w') = FCorrupt.

(** One code was added, for the request, user and session, and [resp] takes it
    to the request's redirect URI. *)
Definition code_given (w w' : World) (req : AuthorizeRequest) (user : User) (session : Session)
    (resp : Response) : Prop :=
  exists c rows t, get CAuthCodes (w_disk w) = FData rows /\
    get CAuthCodes (w_disk w') = FData (rows ++ [c]) /\
    fresh_id w w' (ac_Code c) /\ ac_ClientID c = ar_ClientID req /\ ac_UserID c = user_ID user /\
    ac_RedirectURI c = ar_RedirectURI req /\ ac_Scope c = ar_Scope req /\
    ac_CodeChallenge c = ar_CodeChallenge req /\
    ac_CodeChallengeMethod c = ar_CodeChallengeMethod req /\ ac_Nonce c = ar_Nonce req /\
    ac_AuthTime c = session_CreatedAt session /\ ac_AMR c = session_AMR session /\
    ac_Used c = false /\ instant w w' t /\ ac_ExpiresAt c = Add t (oh_codeTTL h) /\
    resp = match BuildAuthorizationResponse (ar_RedirectURI req) (ac_Code c) (ar_State req) with
           | Some url => Redirected url StatusFound
           | None => Panicked
           end.

Lemma touches_issueCode req userID authTime amr : touches [NAuthCodes] (issueCode h req userID authTime amr).
Proof. unfold issueCode, CreateAuthCode, mapErr. touch. Qed.

Lemma issueCode_spec req user session w :
  wp (issueCode h req (user_ID user) (session_CreatedAt session) (session_AMR session)) w
    (fun resp w' => frame [NAuthCodes] w w' /\
       (no_code w w' \/ code_given w w' req user session resp)).
Proof.
  apply wp_and; [apply touches_issueCode|]. unfold issueCode.
  eapply (wp_step _ _ _ (fun r w' => match r with
    | Ok c => code_given w w' req user session
        (match BuildAuthorizationResponse (ar_RedirectURI req) (ac_Code c) (ar_State req) with
         | Some url => Redirected url StatusFound | None => Panicked end)
    | Err _ => no_code w w' end)).
  2:{ intros [c|e] w1 Hc; apply wp_ret; [by right|by left]. }
  unfold CreateAuthCode. apply wp_bind, wp_uuid, wp_bind, wp_now.
  eapply wp_try_map; [apply law_AuthCodes_Create| |].
  2:{ intros e w1 Hu. cbn beta in Hu. unfold no_code.
      destruct (upd_Err_contents _ _ _ _ _ Hu) as [Hd|Hd]; [left; by rewrite Hd|by right]. }
  intros c w1 Hu. cbn beta in Hu. apply wp_bind, wp_emit, wp_ret.
  pose proof (frame_tick _ _ _ (upd_frame _ _ _ _ _ Hu)) as Ht. cbn in Ht.
  apply upd_Ok in Hu as (rows & t & u & rows' & Hrows & _ & _ & Hf & Hg).
  unfold rows_add in Hf. case_match; [|done]. injection Hf as <- <-. cbn in Hrows.
  eexists _, rows, _. cbn. split_and!; try done.
  - exists (w_tick w). cbn. split; [lia|done].
  - exists (w_tick w + 1)%nat. cbn. split; [lia|done].
Qed.

Lemma no_code_frame cs w w' : frame cs w w' -> NAuthCodes ∉ cs -> no_code w w'.
Proof. intros Hf Hn. left. by apply (frame_get _ _ _ _ Hf). Qed.

Lemma no_code_after w w1 w' : same_disk w w1 -> no_code w1 w' -> no_code w w'.
Proof. unfold no_code. by intros [_ ->]. Qed.

Lemma code_given_after cs w w1 w' req user session resp :
  frame cs w w1 -> NAuthCodes ∉ cs ->
  code_given w1 w' req user session resp -> code_given w w' req user session resp.
Proof.
  intros Hf Hn (c & rows & t & Hg & Hg' & (n & Hn' & Hu) & ?&?&?&?&?&?&?&?&?&?& (k & Hk & Ht) &?&?).
  pose proof (frame_tick _ _ _ Hf).
  exists c, rows, t. rewrite <-(frame_get _ CAuthCodes _ _ Hf) by done. split_and!; try done.
  - exists n. split; [lia|done].
  - exists k. split; [lia|done].
Qed.

(** ** Consent *)

(** The client needs no consent, or the user's consent covers the scopes. *)
Definition consented (w : World) (user : User) (client : Client) (req : AuthorizeRequest) : Prop :=
  client_SkipConsent client = true \/
  exists rows consent, get CConsents (w_disk w) = FData rows /\
    find_first (consent_of (user_ID user) (client_ID client)) rows = Some consent /\
    Scopes req ⊆ consent_Scopes consent.

Lemma touches_IsGranted userID client scopes : touches [] (IsGranted userID client scopes).
Proof.
  unfold IsGranted. touch.
Qed.

Lemma IsGranted_spec user client req w :
  wp (IsGranted (user_ID user) client (Scopes req)) w (fun r w' =>
    same_disk w w' /\ (r = Ok true -> consented w user client req)).
Proof.
  apply wp_and_disk; [apply touches_IsGranted|]. unfold IsGranted, consented.
  apply wp_if; intros Hskip; [apply wp_ret; by left|].
  eapply wp_step; [apply law_Consents_Get|]. intros [consent|e] w1 Hq; cbn beta in Hq.
  - apply wp_ret. intros [= Hc]. right. apply qry_find in Hq as (rows & Hg & Hf).
    exists rows, consent. split_and!; try done. by apply Covers_spec.
  - apply wp_if; intros _; by apply wp_ret.
Qed.

Lemma touches_renderConsent req query client email : touches [] (renderConsent h req query client email).
Proof. unfold renderConsent, GenerateToken, mapErr, server_error. touch. Qed.

(** Where the consent check lets the request through. *)
Definition consent_passed (w : World) (user : User) (client : Client) (req : AuthorizeRequest) : Prop :=
  oh_consent h = true -> consented w user client req /\ HasPrompt req "consent" = false.

Lemma check_consent_spec req client user query k w (Q : Response -> World -> Prop) :
  (forall w1, same_disk w w1 -> consent_passed w user client req -> wp k w1 Q) ->
  (forall resp w1, same_disk w w1 -> Q resp w1) ->
  wp (check_consent h req client user query k) w Q.
Proof.
  intros Hk Hstop. unfold check_consent. apply wp_if; intros Hc.
  { apply Hk; [done|]. intros Hc'. by rewrite Hc' in Hc. }
  eapply wp_step; [apply IsGranted_spec|]. intros [granted|e] w1 [Hd Hg]; [|by apply wp_ret, Hstop].
  apply wp_if; intros Hp.
  - apply wp_if; intros _; [by apply wp_ret, Hstop|].
    eapply wp_mono; [apply (touches_frame_nil _ _ (touches_renderConsent _ _ _ _))|].
    intros resp w2 Hd2. apply Hstop. by transitivity w1.
  - apply orb_false_iff in Hp as [Hp1 Hp2]. apply negb_false_iff in Hp1 as ->.
    apply Hk; [done|]. intros _. split; [by apply Hg|done].
Qed.

(** ** The endpoint *)

Lemma touches_to_login r path query b : touches [NSessions; NAudit] (to_login h r path query b).
Proof.
  unfold to_login, ignore, Logout, GetCurrentUser, CurrentSession, GetSessionFromRequest, GetSession,
    DeleteSession, ClearSessionCookie, ignore, found. touch.
Qed.

Definition fresh_session (w w' : World) (req : AuthorizeRequest) (session : Session) : Prop :=
  exists t, instant w w' t /\ RequiresFreshLogin t req (session_CreatedAt session) = false.

Lemma session_live_later r w w1 w' session user :
  (w_tick w1 <= w_tick w')%nat -> session_live r w w1 session user -> session_live r w w' session user.
Proof.
  intros Ht (token & Hc & Hs & (t & Hi & Hle) & Hu). exists token. split_and!; try done; [|apply Hu..].
  exists t. split; [|done]. by eapply instant_in; [| |exact Hi].
Qed.

(** Why a code was issued. *)
Definition code_authorized (r : Request) (params : Values) (w : World) (resp : Response) (w' : World) : Prop :=
  exists req0 client req session user,
    ParseAuthorizeQuery params = Ok req0 /\ validated w req0 client req /\
    session_live r w w' session user /\ fresh_session w w' req session /\
    consent_passed w user client req /\ code_given w w' req user session resp.

Lemma authorize_request_spec r path params w :
  wp (authorize_request h r path params) w (fun resp w' =>
    no_code w w' \/ code_authorized r params w resp w').
Proof.
  unfold authorize_request. destruct (ParseAuthorizeQuery params) as [req0|e] eqn:Hp.
  2:{ apply wp_ret. by left; left. }
  eapply wp_step; [apply ValidateClient_spec|]. intros [[client req]|e] w1 [Hd1 Hv].
  2:{ apply wp_ret. left. left. by rewrite (proj2 Hd1). }
  specialize (Hv client req eq_refl).
  eapply wp_step; [apply CurrentSession_spec|]. intros s w2 [Hf2 Hs].
  assert (frame [NSessions] w w2) as Hf02 by (etransitivity; [by apply same_disk_frame|done]).
  apply wp_bind, wp_now.
  assert (forall b, wp (to_login h r path (Values_Encode params) b) (ticked 1 w2)
    (fun resp w' => no_code w w' \/ code_authorized r params w resp w')) as Hlogin.
  { intros b. eapply wp_mono; [apply touches_to_login|]. cbn beta. intros resp w3 Hf3. left.
    apply (no_code_frame [NSessions; NAudit]); [|set_solver].
    transitivity w2; [eapply frame_weaken; [|exact Hf02]; set_solver|].
    transitivity (ticked 1 w2); [apply frame_ticked|done]. }
  destruct s as [[session user]|e].
  2:{ apply wp_if; intros _; [|apply Hlogin]. apply wp_ret. left.
      apply (no_code_frame [NSessions]); [|set_solver]. etransitivity; [exact Hf02|apply frame_ticked]. }
  destruct (Hs session user eq_refl) as [Hd2 Hlive].
  assert (same_disk w w2) as Hd02 by (by transitivity w1).
  apply wp_if; intros Hfresh.
  2:{ apply wp_if; intros _; [|apply Hlogin]. apply wp_ret. left. left. cbn. by rewrite (proj2 Hd02). }
  apply check_consent_spec.
  2:{ intros resp w3 Hd3. left. left. rewrite (proj2 Hd3). cbn. by rewrite (proj2 Hd02). }
  intros w3 Hd3 Hcons. assert (same_disk w w3) as Hd03.
  { transitivity w2; [done|]. transitivity (ticked 1 w2); [apply same_disk_ticked|done]. }
  eapply wp_mono; [apply issueCode_spec|]. cbn beta. intros resp w4 [Hf4 [Hno|Hgiven]].
  { left. by eapply no_code_after. }
  right. pose proof (frame_tick _ _ _ Hf4) as Ht4. destruct Hd1 as [Ht1 Hd1], Hd3 as [Ht3 Hd3], Hd2 as [Ht2 Hd2].
  cbn in Ht3.
  exists req0, client, req, session, user. split_and!; try done.
  - destruct Hlive as (token & Hc & Hsr & (t & Hi & Hle) & Hur & Ha). exists token.
    unfold session_row, user_row in *. rewrite Hd1 in Hsr, Hur. split_and!; try done.
    exists t. split; [|done]. by eapply instant_in; [| |exact Hi]; lia.
  - exists (env_clock (w_tick w2)). split; [|by apply negb_true_iff].
    exists (w_tick w2). split; [lia|done].
  - intros Hoc. unfold consent_passed, consented in Hcons. cbn in Hcons. rewrite Hd2, Hd1 in Hcons. by apply Hcons.
  - eapply (code_given_after [] w w3); [|set_solver|exact Hgiven]. by apply same_disk_frame.
Qed.

(** The parameters of an authorization request: the form of a POST, else the
    query. *)
Definition authorize_params (r : HttpRequest) : Values :=
  if hr_Method r ==? "POST" then (PostForm r).1 else Query (hr_URL r).

(** Claim C13.  The authorization endpoint stores a code only for a request
    that names a registered client and one of its redirect URIs, asks for
    nothing the client may not have (PKCE for public clients included), comes
    with an unexpired session of an active user that is as fresh as the
    request demands, and asks for scopes the user has granted.  The code
    records the client, user, redirect URI, scope, nonce, PKCE challenge and
    the session's methods, expires after the configured time, and leaves only
    in a redirect to that redirect URI. *)
Theorem authorize_sound r w resp w' rows rows' :
  run (Authorize h r) w = (resp, w') ->
  get CAuthCodes (w_disk w) = FData rows -> get CAuthCodes (w_disk w') = FData rows' ->
  rows' <> rows ->
  code_authorized (parsed r) (authorize_params r) w resp w'.
Proof.
  intros Hrun Hg Hg' Hne.
  assert (no_code w w' \/ code_authorized (parsed r) (authorize_params r) w resp w') as [[Hno|Hno]|Hyes].
  - unfold Authorize, authorize_params, parsed in *. destruct (ParseForm r) as [rq ok] eqn:E. cbn [fst].
    destruct (hr_Method r ==? "POST").
    + destruct ok; cbn in Hrun; [|by simplify_eq; left; left].
      exact (wp_run _ _ _ _ _ (authorize_request_spec _ _ _ w) Hrun).
    + exact (wp_run _ _ _ _ _ (authorize_request_spec _ _ _ w) Hrun).
  - congruence.
  - congruence.
  - done.
Qed.

(** ** The consent form *)

(** Why the consent form issued a code. *)
Definition code_allowed (r : Request) (query : Values) (w : World) (resp : Response) (w' : World) : Prop :=
  exists req0 client req session user,
    ParseAuthorizeQuery query = Ok req0 /\ validated w req0 client req /\
    session_live r w w' session user /\ (0 <= ar_MaxAge req -> fresh_session w w' req session) /\
    FormValue r "action" = "allow" /\
    (oh_consent h = true -> covered w' (user_ID user) (client_ID client) (Scopes req)) /\
    code_given w w' req user session resp.

Lemma consent_allowed_spec r req client session user w :
  wp (consent_allowed h r req client session user) w (fun resp w' =>
    (w_tick w <= w_tick w')%nat /\
    (no_code w w' \/
     (oh_consent h = true -> covered w' (user_ID user) (client_ID client) (Scopes req)) /\
     code_given w w' req user session resp)).
Proof.
  unfold consent_allowed. eapply (wp_step _ _ _ (fun g w' => frame [NConsents] w w' /\
    (g = Ok tt -> oh_consent h = true -> covered w' (user_ID user) (client_ID client) (Scopes req)))).
  { apply wp_if; intros Hoc; [|apply wp_ret; split; [done|congruence]].
    apply wp_and; [apply touches_Grant|]. eapply wp_mono; [apply Grant_spec|]. cbn beta.
    intros g w1 Hg Hok _. exact (grants_covered _ _ _ _ _ (Hg Hok)). }
  intros [[]|e] w1 [Hf1 Hcov].
  2:{ apply wp_ret. split; [apply (frame_tick _ _ _ Hf1)|]. left.
      apply (no_code_frame [NConsents]); [exact Hf1|set_solver]. }
  apply wp_skip; [apply touches_RecordEvent|]. intros [] w2 Hf2.
  assert (frame [NConsents; NAudit] w w2) as Hf02.
  { transitivity w1; eapply frame_weaken; [|exact Hf1| |exact Hf2]; set_solver. }
  eapply wp_mono; [apply issueCode_spec|]. cbn beta. intros resp w3 [Hf3 Hcase].
  pose proof (frame_tick _ _ _ Hf02). pose proof (frame_tick _ _ _ Hf3). split; [lia|].
  destruct Hcase as [Hno|Hgiven]; [left|right; split].
  - destruct (no_code_frame _ _ _ Hf02 ltac:(set_solver)) as [Hc|Hc], Hno as [Hn|Hn];
      unfold no_code in *; rewrite ?Hn, ?Hc; auto.
  - intros Hoc. destruct (Hcov eq_refl Hoc) as (rows & Hg & Hsub). exists rows. split; [|done].
    by rewrite (frame_get _ CConsents _ _ Hf3), (frame_get _ CConsents _ _ Hf2) by set_solver.
  - eapply code_given_after; [exact Hf02|set_solver|exact Hgiven].
Qed.

Lemma consent_decision_spec r query req0 client req w0 w :
  same_disk w0 w -> ParseAuthorizeQuery query = Ok req0 -> validated w0 req0 client req ->
  wp (consent_decision h r query req client) w (fun resp w' =>
    no_code w0 w' \/ code_allowed r query w0 resp w').
Proof.
  intros Hd0 Hp Hv. unfold consent_decision, found.
  eapply wp_step; [apply CurrentSession_spec|]. intros s w1 [Hf1 Hs].
  assert (no_code w0 w1) as Hno1.
  { apply (no_code_frame [NSessions]); [|set_solver]. etransitivity; [by apply same_disk_frame|done]. }
  destruct s as [[session user]|e]; [|apply wp_ret; by left].
  destruct (Hs session user eq_refl) as [Hd1 Hlive]. apply wp_bind, wp_now.
  assert (same_disk w0 (ticked 1 w1)) as Hd2.
  { transitivity w; [done|]. transitivity w1; [done|apply same_disk_ticked]. }
  apply wp_if; intros Hfresh; [apply wp_ret; left; by left; rewrite (proj2 Hd2)|].
  apply wp_if; intros Hallow.
  { eapply wp_step; [apply touches_RecordEvent|]. intros [] w2 Hf2. cbn beta in Hf2. apply wp_ret. left.
    apply (no_code_frame [NAudit]); [|set_solver]. etransitivity; [by apply same_disk_frame|done]. }
  eapply wp_mono; [apply consent_allowed_spec|]. cbn beta. intros resp w3 [Ht3 [Hno|[Hcov Hgiven]]].
  { left. by eapply no_code_after. }
  right. exists req0, client, req, session, user. cbn in Ht3. destruct Hd0 as [Ht0 Hd0], Hd1 as [Ht1 Hd1].
  split_and!; try done.
  - destruct Hlive as (token & Hc & Hsr & (t & Hi & Hle) & Hur & Ha). exists token.
    unfold session_row, user_row in *. rewrite Hd0 in Hsr, Hur. split_and!; try done.
    exists t. split; [|done]. by eapply instant_in; [| |exact Hi]; lia.
  - intros Hmax. exists (env_clock (w_tick w1)). split; [exists (w_tick w1); split; [lia|done]|].
    apply andb_false_iff in Hfresh as [Hfresh|Hfresh]; [lia|done].
  - by bool_to_prop.
  - eapply (code_given_after []); [by apply same_disk_frame|set_solver|exact Hgiven].
Qed.

(** Claim C14.  The consent form stores a code only when it carries a valid
    CSRF token and the answer "allow" for an authorization request that is
    validated afresh, with an unexpired session of an active user that still
    satisfies [max_age]; the user's consent for the client then covers the
    scopes, and the code leaves in a redirect to the request's registered
    redirect URI. *)
Theorem consent_sound r w resp w' rows rows' :
  run (Consent_handler h r) w = (resp, w') ->
  get CAuthCodes (w_disk w) = FData rows -> get CAuthCodes (w_disk w') = FData rows' ->
  rows' <> rows ->
  csrf_valid (oh_auth h) (parsed r) w /\
  exists query, ParseQuery (FormValue (parsed r) "authorize_query") = (query, true) /\
    code_allowed (parsed r) query w resp w'.
Proof.
  intros Hrun Hg Hg' Hne.
  assert (no_code w w' \/ csrf_valid (oh_auth h) (parsed r) w /\
    exists query, ParseQuery (FormValue (parsed r) "authorize_query") = (query, true) /\
      code_allowed (parsed r) query w resp w') as [[?|?]|?]; [|congruence..|done].
  pattern resp, w'. apply (wp_run (Consent_handler h r) w _ _ _); [|exact Hrun]. clear Hrun.
  unfold Consent_handler, parsed. destruct (ParseForm r) as [rq ok]. cbn [fst].
  apply wp_if; intros _; [apply wp_ret; by left; left|].
  eapply wp_step; [apply ValidateToken_spec|]. intros v w1 (Hd1 & _ & Hcsrf).
  assert (no_code w w1) as Hno by (left; by rewrite (proj2 Hd1)).
  destruct v as [[]|e]; [|apply wp_ret; by left].
  destruct (ParseQuery _) as [query ok'] eqn:Hq.
  destruct ok'; cbn [negb]; [|apply wp_ret; by left].
  destruct (ParseAuthorizeQuery query) as [req0|e] eqn:Hp; [|apply wp_ret; by left].
  eapply wp_step; [apply ValidateClient_spec|]. intros [[client req]|e] w2 [Hd2 Hv].
  2:{ apply wp_ret. left. left. by rewrite (proj2 Hd2), (proj2 Hd1). }
  eapply wp_mono.
  { eapply (consent_decision_spec rq query req0 client req w); [by transitivity w1|exact Hp|].
    destruct (Hv client req eq_refl) as (Hrow & Hrest). split; [|done].
    destruct Hrow as (l & Hl & Hf). exists l. by rewrite <-(proj2 Hd1). }
  cbn beta. intros resp1 w3 [Hn|Hyes]; [by left|right]. split; [by apply Hcsrf|]. by exists query.
Qed.
End authorize.
