(* ===== verification/SecondFactor.v ===== *)
(** * The second factor: what completing a pending login promises

    A pending login is redeemed by a code that the user's authenticator shows
    or by a recovery code; either is spent by its use. *)
From S2P Require Import Prelude GoTime GoText Encoding Hash Errors Domain Lockout PendingLogins.
From S2P Require Import World Run Store Exec StoreFacts FileStore Keys Password Jwt Totp Csrf Session AuthService.
From S2P Require Import Authorize TokenService TokenFacts AuthFacts SignIn Metrics.
#[local] Open Scope Z_scope.
#[local] Open Scope go_scope.

Section factor.
Context `{StoreLaws} `{UnicodeTables} `{Argon2} (s : Service).

(** What accepts [code] for a user, and what it leaves of the user: a time
    step after the last one used, or one recovery code less. *)
Definition factor_accepts (w w' : World) (u : User) (code : string) (u' : User) : Prop :=
  (exists t step, instant w w' t /\ TOTPEnabled u = true /\
     VerifyTOTP (user_TOTPSecret u) code t (user_TOTPLastStep u) = Some step /\
     u' = user_set_step step u) \/
  (exists rest, UseRecoveryCode (user_RecoveryCodes u) code = Some rest /\
     u' = user_set_recovery rest u).

(** The stored user had [code] accepted, and its row is the user after that. *)
Definition factor_spent (w w' : World) (userID code : string) (user : User) : Prop :=
  exists rows u u' t rows',
    get CUsers (w_disk w) = FData rows /\
    find_first (fun u => user_ID u ==? userID) rows = Some u /\
    factor_accepts w w' u code u' /\ user = user_set_updated t u' /\
    replace_first (fun u => user_ID u ==? userID) (fun _ => user) rows = Some rows' /\
    get CUsers (w_disk w') = FData rows'.

Lemma factor_spent_frame w w1 w2 userID code user :
  factor_spent w w1 userID code user -> frame [NAudit] w1 w2 -> factor_spent w w2 userID code user.
Proof.
  intros (rows & u & u' & t & rows' & Hg & Hf & Hacc & Hu & Hrep & Hg') Hframe.
  exists rows, u, u', t, rows'. split_and!; try done.
  - destruct Hacc as [(t0 & step & Hi & Hrest)|Hrest]; [left|by right].
    exists t0, step. split; [|done].
    eapply (instant_in w w1); [done|exact (frame_tick _ _ _ Hframe)|exact Hi].
  - by rewrite (frame_get _ _ _ _ Hframe) by set_solver.
Qed.

(** Storing the user an accepted code leaves. *)
Lemma spend_factor w0 w u u' userID code rows :
  (w_tick w0 <= w_tick w)%nat -> same_disk w0 w ->
  get CUsers (w_disk w0) = FData rows ->
  find_first (fun u => user_ID u ==? userID) rows = Some u ->
  factor_accepts w0 w u code u' -> user_ID u' = user_ID u ->
  wp (Users_Update u') w (fun r w' => forall user, r = Ok user ->
    user_ID user = userID /\ factor_spent w0 w' userID code user).
Proof.
  intros Ht Hd Hg Hf Hacc Hid. eapply wp_mono; [apply law_Users_Update|].
  intros r w' Hu user ->. cbn beta in Hu.
  pose proof (frame_tick _ _ _ (upd_frame _ _ _ _ _ Hu)) as Ht'.
  apply upd_Ok in Hu as (rows1 & t & uid & rows2 & Hg1 & _ & _ & Hrep & Hg2).
  rewrite (proj2 Hd), Hg in Hg1. injection Hg1 as <-.
  assert (user_ID u = userID) as HuID.
  { apply find_first_Some in Hf as [_ Hp]. by bool_to_prop. }
  unfold rows_replace in Hrep. rewrite Hid, HuID in Hrep.
  destruct (replace_first _ _ rows) as [l|] eqn:Hl; [|done]. injection Hrep as <- <-.
  split; [by rewrite user_set_updated_ID, Hid|].
  exists rows, u, u', t, l. split_and!; try done.
  destruct Hacc as [(t0 & step & Hi & Hrest)|Hrest]; [left|by right].
  exists t0, step. split; [|done]. eapply (instant_in w0 w); [done|exact Ht'|exact Hi].
Qed.

(** ** The check under the user's lock *)

Lemma touches_check_and_record r userID code :
  touches [NUsers; NAudit] (check_and_record s r userID code).
Proof. unfold check_and_record, mapErr. touch. Qed.
Lemma same_mem_check_and_record r userID code : keeps same_mem (check_and_record s r userID code).
Proof. unfold check_and_record, mapErr. keep. Qed.

(** A code that is accepted is spent; a wrong one changes nothing. *)
Definition checked (w w' : World) (userID code : string) (res : res (bool * User)) : Prop :=
  (forall user, res = Ok (true, user) ->
     user_ID user = userID /\ factor_spent w w' userID code user) /\
  (forall user, res = Ok (false, user) -> user_ID user = userID /\ w_disk w' = w_disk w).

Lemma checked_Err w w' userID code e : checked w w' userID code (Err e).
Proof. by split. Qed.

Lemma check_and_record_spec r userID code w :
  wp (check_and_record s r userID code) w (fun res w' => checked w w' userID code res).
Proof.
  unfold check_and_record.
  eapply wp_try; [apply law_Users_GetByID| |intros; apply checked_Err]. intros u w1 Hq. cbn beta in Hq.
  pose proof (qry_same _ _ _ _ _ Hq) as Hd1. apply qry_find in Hq as (rows & Hg & Hf).
  assert (user_ID u = userID) as Hid.
  { apply find_first_Some in Hf as [_ Hp]. by bool_to_prop. }
  apply wp_bind, wp_now. set (w2 := ticked 1 w1).
  assert (same_disk w w2) as Hd2.
  { transitivity w1; [done|apply same_disk_ticked]. }
  assert (instant w w2 (env_clock (w_tick w1))) as Hi.
  { exists (w_tick w1). destruct Hd1. cbn. split; [lia|done]. }
  destruct (if TOTPEnabled u then _ else _) as [step|] eqn:Hstep.
  - destruct (TOTPEnabled u) eqn:Ht; [|done].
    eapply wp_try_map; [eapply (spend_factor w w2 u)| |]; try done.
    + by apply frame_tick with [], same_disk_frame.
    + left. exists (env_clock (w_tick w1)), step. by split_and!.
    + apply user_set_totp_ID.
    + intros user w3 Hu. apply wp_ret. split; [|done]. intros user' [= <-]. by apply Hu.
  - destruct (UseRecoveryCode _ _) as [rest|] eqn:Hrest.
    2:{ apply wp_ret. split; [done|]. intros user [= <-]. split; [done|apply Hd2]. }
    eapply wp_try_map; [eapply (spend_factor w w2 u)| |]; try done.
    + by apply frame_tick with [], same_disk_frame.
    + right. by exists rest.
    + apply user_set_recovery_ID.
    + intros user w3 Hu. apply wp_skip; [touch|]. intros _ w4 Hf4. apply wp_ret.
      split; [|done]. intros user' [= <-]. destruct (Hu user eq_refl) as [Hu1 Hu2].
      split; [done|]. by eapply factor_spent_frame.
Qed.

Lemma same_mem_lock l : keeps same_mem (lock l).
Proof. by apply (keeps_event same_mem). Qed.
Lemma same_mem_unlock l : keeps same_mem (unlock l).
Proof. by apply (keeps_event same_mem). Qed.

Lemma touches_consumeSecondFactor r user code :
  touches [NUsers; NAudit] (consumeSecondFactor s r user code).
Proof.
  unfold consumeSecondFactor, locked. apply touches_if; [touch|].
  apply touches_bind; [touch|intros _]. apply touches_bind; [apply touches_check_and_record|intros a]. touch.
Qed.
Lemma same_mem_consumeSecondFactor r user code : keeps same_mem (consumeSecondFactor s r user code).
Proof.
  unfold consumeSecondFactor, locked. apply keeps_if; [keep|].
  apply keeps_bind; [typeclasses eauto|apply same_mem_lock|intros _].
  apply keeps_bind; [typeclasses eauto|apply same_mem_check_and_record|intros a].
  apply keeps_bind; [typeclasses eauto|apply same_mem_unlock|intros _; keep].
Qed.

Lemma factor_spent_in w1 w2 w w' userID code user :
  (w_tick w <= w_tick w1)%nat -> (w_tick w2 <= w_tick w')%nat ->
  get CUsers (w_disk w1) = get CUsers (w_disk w) -> get CUsers (w_disk w') = get CUsers (w_disk w2) ->
  factor_spent w1 w2 userID code user -> factor_spent w w' userID code user.
Proof.
  intros Ht Ht' Hg1 Hg2 (rows & u & u' & t & rows' & Hg & Hf & Hacc & Hrest).
  rewrite Hg1 in Hg. exists rows, u, u', t, rows'. rewrite Hg2. split_and!; try done; try apply Hrest.
  destruct Hacc as [(t0 & step & Hi & Hacc)|Hacc]; [left|by right].
  exists t0, step. split; [|done]. by eapply (instant_in w1 w2).
Qed.

Lemma consumeSecondFactor_spec r user code w :
  wp (consumeSecondFactor s r user code) w (fun res w' => forall user',
    res = Ok (true, user') ->
    user_ID user' = user_ID user /\ factor_spent w w' (user_ID user) (TrimSpace code) user').
Proof.
  unfold consumeSecondFactor. apply wp_if; intros _; [by apply wp_ret|].
  apply wp_locked. eapply wp_mono; [apply check_and_record_spec|].
  intros res w' [Hok _] user' ->. cbn beta in *. destruct (Hok user' eq_refl) as [Hid Hspent].
  split; [done|]. eapply factor_spent_in; [| | | |exact Hspent]; try done; cbn; lia.
Qed.

(** ** The pending login *)

(** The pending login the browser's cookie names: alive, with attempts left. *)
Definition pending_live (r : Request) (w w' : World) (token : string) (p : pendingLogin) : Prop :=
  Cookie r PendingLoginCookieName = Some token /\
  m_pending (w_mem w) !! token = Some p /\
  (exists t, instant w w' t /\ t <= pl_expires p) /\ pl_attempts p < pendingLoginAttempts.

(** The stored user with this ID. *)
Definition reserved (r : Request) (w w' : World) (token : string) (u : User) (n : Z) : Prop :=
  exists p, csrf_valid s r w /\ pending_live r w w' token p /\ n = pl_attempts p + 1 /\
    unlocked s w w' (pl_email p) /\ user_row w (pl_userID p) u /\ user_Active u = true /\
    m_pending (w_mem w') !! token = Some (pl_attempt p).

Lemma pending_reserve_spec token w :
  wp (pending_reserve token) w (fun res w' => same_disk w w' /\
    m_lockout (w_mem w') = m_lockout (w_mem w) /\
    forall p', res = Some p' -> exists p, p' = pl_attempt p /\
      m_pending (w_mem w) !! token = Some p /\ m_pending (w_mem w') !! token = Some p' /\ pl_attempts p < pendingLoginAttempts /\
      exists t, instant w w' t /\ t <= pl_expires p).
Proof.
  apply wp_intro. intros res w' Hr. unfold pending_reserve, pending_crit, crit in Hr.
  rewrite run_trigger in Hr. cbn in Hr. unfold pendingLogins_reserve in Hr.
  destruct (m_pending (w_mem w) !! token) as [p|] eqn:Hp.
  2:{ injection Hr as <- <-. split; [split; [cbn; lia|done]|]. by split. }
  destruct (_ || _) eqn:Hc; injection Hr as <- <-;
    (split; [split; [cbn; lia|done]|]; split; [done|]); [done|].
  intros p' [= <-]. exists p. bool_to_prop. split_and!; try done; [apply lookup_insert_eq|].
  exists (env_clock (w_tick w)). split; [|by apply After_false].
  exists (w_tick w). cbn. split; [lia|done].
Qed.

(** ** Completing it *)

Lemma touches_reserve cs r : touches cs (reservePendingAttempt s r).
Proof. unfold reservePendingAttempt, drop_pending, pending_remove, pending_reserve. touch. Qed.

Lemma user_with_same w w' id u : w_disk w' = w_disk w -> user_row w' id u -> user_row w id u.
Proof. intros Hd (rows & Hg & Hf). exists rows. by rewrite <-Hd. Qed.

(** An end of the attempt that returns an error. *)
Definition always_err {A} (p : Prog (res A)) : Prop :=
  forall w, wp p w (fun res _ => exists e, res = Err e).

Lemma drop_pending_err {A} token e : always_err (@drop_pending s A token e).
Proof.
  intros w. unfold drop_pending. do 2 (apply wp_bind, wp_intro; intros ? ? _).
  apply wp_ret. by exists e.
Qed.

Lemma wp_err {A} (p : Prog (res A)) w (Q : A -> World -> Prop) :
  always_err p -> wp p w (fun res w' => forall a, res = Ok a -> Q a w').
Proof.
  intros Hp. eapply wp_mono; [apply Hp|]. by intros res w' [e ->] a.
Qed.

Lemma reservePendingAttempt_spec r w :
  wp (reservePendingAttempt s r) w (fun res w' => forall x, res = Ok x ->
    let '(token, u, n) := x in reserved r w w' token u n).
Proof.
  unfold reservePendingAttempt.
  eapply wp_step; [apply ValidateToken_spec|]. intros v w1 (Hd1 & Hm1 & Hcsrf). cbn beta.
  destruct v as [[]|]; [specialize (Hcsrf eq_refl)|by apply wp_ret].
  destruct (Cookie r PendingLoginCookieName) as [token|] eqn:Hcookie; [|by apply wp_ret].
  eapply wp_step; [apply pending_reserve_spec|]. intros res w2 (Hd2 & Hl2 & Hres).
  destruct res as [p'|].
  2:{ apply wp_bind, wp_intro. intros ? ? _. by apply wp_ret. }
  destruct (Hres p' eq_refl) as (p & -> & Hp & Hleft & Hn & t & Ht & Hle).
  assert (same_disk w w2) as Hd02 by (by transitivity w1).
  eapply wp_step; [apply is_locked_spec|]. intros b w3 (Hd3 & Hm3 & Hun).
  apply wp_if; intros Hb.
  { do 3 (apply wp_bind, wp_intro; intros ? ? _). by apply wp_ret. }
  specialize (Hun Hb). eapply wp_step; [apply law_Users_GetByID|]. intros ru w4 Hq. cbn beta in Hq.
  pose proof (qry_same _ _ _ _ _ Hq) as Hd4.
  destruct ru as [u|e]; [|apply wp_err, drop_pending_err].
  apply wp_if; intros Ha; [apply wp_err, drop_pending_err|]. bool_to_prop.
  eapply wp_step; [apply hasSecondFactor_spec|]. intros b2 w5 (Hd5 & Hm5 & _).
  apply wp_if; intros Hb2; [apply wp_err, drop_pending_err|]. apply wp_ret.
  intros x [= <-]. assert (w_tick w2 <= w_tick w5)%nat as Ht5 by (destruct Hd3, Hd4, Hd5; lia).
  exists p. split_and!; try done.
  - split_and!; try done; [by rewrite <-Hm1|]. exists t. split; [|done].
    eapply (instant_in w1 w2); [exact (proj1 Hd1)|done|exact Ht].
  - by destruct p.
  - intros l Hl. destruct p as [uid email ex n ch]. cbn in Hun.
    destruct (Hun l Hl) as (t2 & Ht2 & Hlock). exists t2. rewrite <-Hm1, <-Hl2. split; [|done].
    eapply (instant_in w2 w3); [exact (proj1 Hd02)| |exact Ht2]. destruct Hd4, Hd5. lia.
  - pose proof (qry_find _ _ _ _ _ _ Hq) as (rows & Hg & Hf). exists rows.
    rewrite <-(proj2 Hd02), <-(proj2 Hd3). split; [exact Hg|]. by destruct p.
  - destruct Hq as (_ & Hcalm & _). by rewrite Hm5, (same_mem_calm _ _ Hcalm), Hm3.
Qed.

Lemma pending_remove_spec token w :
  wp (pending_remove token) w (fun _ w' => same_disk w w' /\ m_pending (w_mem w') !! token = None).
Proof.
  apply wp_intro. intros res w' Hr. unfold pending_remove, pending_crit, crit in Hr.
  rewrite run_trigger in Hr. cbn in Hr. injection Hr as <- <-.
  split; [split; [cbn; lia|done]|]. cbn. apply lookup_delete_eq.
Qed.

Lemma touches_startSession r user amr : touches [NSessions; NAudit] (startSession s r user amr).
Proof. unfold startSession, mapErr, SetSessionCookie. touch. Qed.

(** The pending login is gone, and the session starts. *)
Lemma finishPendingLogin_spec r token user amr w :
  wp (finishPendingLogin s r token user amr) w (fun res w' =>
    frame [NSessions; NAudit] w w' /\
    (forall e, res = Err e -> fewer_sessions w w') /\
    (forall x, res = Ok x -> signed_in s r w w' (user_ID user) amr /\
       failures_forgotten s w' (user_Email user) /\ m_pending (w_mem w') !! token = None)).
Proof.
  unfold finishPendingLogin. eapply wp_step; [apply pending_remove_spec|]. intros [] w1 [Hd1 Hp1].
  eapply wp_step; [apply (wp_and_keeps same_mem _ _ (fun _ w2 => same_disk w1 w2))|].
  { keep. }
  { apply touches_frame_nil. touch. }
  intros [] w2 [Hm2 Hd2]. assert (same_disk w w2) as Hd02 by (by transitivity w1).
  eapply wp_mono; [apply wp_and; [apply touches_startSession|apply startSession_spec]|].
  intros res w3 (Hf3 & Herr & Hok). split_and!.
  - transitivity w2; [by apply same_disk_frame|done].
  - intros e He. destruct (Herr e He) as [Hfew _]. transitivity w2; [by apply fewer_sessions_same|done].
  - intros x Hx. destruct (Hok x Hx) as (Hin & Hforgot & Hpend). split_and!; [|done|].
    + eapply (signed_in_later s r w2 w3); try done; [exact (proj1 Hd02)|by rewrite (proj2 Hd02)].
    + by rewrite Hpend, Hm2.
Qed.

Definition second_factor_outcome (r : Request) (code : string) (w : World) (res : res User)
    (w' : World) : Prop :=
  match res with
  | Ok user => exists token p u,
      csrf_valid s r w /\ pending_live r w w' token p /\ unlocked s w w' (pl_email p) /\
      user_row w (pl_userID p) u /\ user_Active u = true /\ user_ID user = pl_userID p /\
      factor_spent w w' (pl_userID p) (TrimSpace code) user /\
      signed_in s r w w' (pl_userID p) [AMRPassword; AMROneTimePassword; AMRMultiFactor] /\
      m_pending (w_mem w') !! token = None /\ failures_forgotten s w' (user_Email user)
  | Err _ => fewer_sessions w w'
  end.

Lemma touches_secondFactorFailed r user token n detail :
  touches [NAudit] (secondFactorFailed s r user token n detail).
Proof. unfold secondFactorFailed, pending_remove. touch. Qed.

Lemma user_with_ID w id u : user_row w id u -> user_ID u = id.
Proof. intros (rows & _ & Hf). apply find_first_Some in Hf as [_ Hp]. by bool_to_prop. Qed.

Lemma pending_live_later r w w1 w2 token p :
  (w_tick w1 <= w_tick w2)%nat -> pending_live r w w1 token p -> pending_live r w w2 token p.
Proof.
  intros Ht (Hc & Hp & (t & Hi & Hle) & Hn). split_and!; try done. exists t. split; [|done].
  by eapply (instant_in w w1).
Qed.

Lemma CompleteSecondFactor_spec r code w :
  wp (CompleteSecondFactor s r code) w (second_factor_outcome r code w).
Proof.
  unfold CompleteSecondFactor.
  eapply wp_try; [apply wp_and_disk; [apply touches_reserve|apply reservePendingAttempt_spec]| |];
    cbn beta.
  2:{ intros e w1 [Hd1 _]. by apply fewer_sessions_same. }
  intros [[token u] n] w1 [Hd1 Hres].
  destruct (Hres _ eq_refl) as (p & Hcsrf & Hlive & -> & Hun & Hwith & Hact & _).
  pose proof (user_with_ID _ _ _ Hwith) as Hid.
  eapply wp_try; [apply wp_and; [apply touches_consumeSecondFactor|apply consumeSecondFactor_spec]| |];
    cbn beta.
  2:{ intros e w2 [Hf2 _]. cbn. transitivity w1; [by apply fewer_sessions_same|].
      eapply fewer_sessions_frame; [exact Hf2|set_solver]. }
  intros [ok user] w2 [Hf2 Hspent]. apply wp_if; intros Hneg; bool_to_prop; subst ok.
  { apply wp_bind. eapply wp_mono; [apply touches_secondFactorFailed|]. intros e w3 Hf3.
    cbn beta in Hf3. apply wp_ret. cbn. transitivity w1; [by apply fewer_sessions_same|].
    transitivity w2; eapply fewer_sessions_frame; [exact Hf2|set_solver|exact Hf3|set_solver]. }
  destruct (Hspent user eq_refl) as [Huid Hfactor]. rewrite Hid in Huid, Hfactor.
  pose proof (frame_tick _ _ _ Hf2) as Ht2. pose proof (proj1 Hd1) as Ht1.
  eapply wp_try; [apply finishPendingLogin_spec| |]; cbn beta.
  2:{ intros e w3 (_ & Herr & _). cbn. transitivity w1; [by apply fewer_sessions_same|].
      transitivity w2; [eapply fewer_sessions_frame; [exact Hf2|set_solver]|by eapply Herr]. }
  intros x w3 (Hf3 & _ & Hok). pose proof (frame_tick _ _ _ Hf3) as Ht3.
  destruct (Hok x eq_refl) as (Hin & Hforgot & Hgone). rewrite Huid in Hin. apply wp_ret.
  exists token, p, u. split_and!; try done.
  - eapply pending_live_later; [|exact Hlive]. lia.
  - eapply (unlocked_later s w w1); [done|lia|done|exact Hun].
  - eapply (factor_spent_in w1 w2); [done|done|by rewrite (proj2 Hd1)| |done].
    by rewrite (frame_get _ _ _ _ Hf3) by set_solver.
  - eapply (signed_in_later s r w2 w3); try done; [lia|].
    rewrite (frame_get _ _ _ _ Hf2) by set_solver. by rewrite (proj2 Hd1).
Qed.

(** Claim C25.  A pending login is completed only with a valid CSRF token, for
    the unexpired pending login of the request's cookie with fewer than five
    attempts counted, by an active user who is not locked out, with a code
    that either is the one-time code of a time step later than the last one
    used, which is then recorded, or one of the user's recovery codes, which
    is then removed.  One session is added, for that user, with the methods
    ["pwd", "otp", "mfa"], and the pending login is gone.  Without a success
    no session is added. *)
Theorem second_factor_sound r code w res w' :
  run (CompleteSecondFactor s r code) w = (res, w') ->
  match res with
  | Ok user => exists token p u,
      csrf_valid s r w /\ pending_live r w w' token p /\ unlocked s w w' (pl_email p) /\
      user_row w (pl_userID p) u /\ user_Active u = true /\ user_ID user = pl_userID p /\
      factor_spent w w' (pl_userID p) (TrimSpace code) user /\
      signed_in s r w w' (pl_userID p) [AMRPassword; AMROneTimePassword; AMRMultiFactor] /\
      m_pending (w_mem w') !! token = None /\ failures_forgotten s w' (user_Email user)
  | Err _ => fewer_sessions w w'
  end.
Proof. intros Hr. exact (wp_run _ _ _ _ _ (CompleteSecondFactor_spec r code w) Hr). Qed.
End factor.
