(* ===== verification/PasskeyFacts.v ===== *)
(** * Passkeys: what completing a login with one promises

    A pending login is redeemed by an assertion over the challenge issued for
    it, made by a credential stored for its user; the counter the library
    returns is stored, so that a cloned authenticator is noticed. *)
From S2P Require Import Prelude GoTime GoText Encoding Hash Errors Domain Lockout PendingLogins.
From S2P Require Import World Run Store Exec StoreFacts FileStore Keys Password Jwt Totp Csrf Session AuthService.
From S2P Require Import Passkeys Authorize TokenService TokenFacts AuthFacts SignIn SecondFactor Metrics.
#[local] Open Scope Z_scope.
#[local] Open Scope go_scope.

Section passkeys.
Context `{StoreLaws} `{UnicodeTables} `{Argon2} `{WebAuthn} (s : Service) (wa : bool).

(** ** Footprints *)

Lemma touches_load_webauthnUser cs u : touches cs (load_webauthnUser u).
Proof. unfold load_webauthnUser. touch. Qed.
Lemma touches_record_use id raw l : touches [NPasskeys] (record_use id raw l).
Proof. induction l as [|p l IH]; cbn [record_use]; unfold mapErr; touch; try exact IH. Qed.
Lemma same_mem_load_webauthnUser u : keeps same_mem (load_webauthnUser u).
Proof. unfold load_webauthnUser. keep. Qed.
Lemma same_mem_record_use id raw l : keeps same_mem (record_use id raw l).
Proof. induction l as [|p l IH]; cbn [record_use]; unfold mapErr; keep; try exact IH. Qed.

(** ** The stored credentials *)

Lemma load_webauthnUser_spec u w :
  wp (load_webauthnUser u) w (fun r w' => same_disk w w' /\ forall creds l, r = Ok (creds, l) ->
    passkeys_in w (user_ID u) l /\ credentials_of l = Ok creds).
Proof.
  apply wp_and_disk; [apply touches_load_webauthnUser|]. unfold load_webauthnUser.
  eapply wp_try; [apply law_Passkeys_ListByUserID| |done]. intros l w1 Hq. cbn beta in Hq. apply wp_ret.
  apply qry_Ok in Hq as (rows & t & Hg & _ & Hf). injection Hf as Hf.
  intros creds l' Hc. destruct (credentials_of l) eqn:E; [|done]. injection Hc as <- <-.
  split; [|done]. exists rows. by rewrite Hf.
Qed.

(** ** Recording the use *)

(** The row of the passkey with this ID of the user holds [raw]. *)
Definition holds (w : World) (userID id raw : string) : Prop :=
  exists rows p, get CPasskeys (w_disk w) = FData rows /\
    find_first (passkey_of userID id) rows = Some p /\ passkey_Credential p = raw.

Lemma update_holds p w :
  wp (Passkeys_Update p) w (fun r w' => r = Ok tt ->
    holds w' (passkey_UserID p) (passkey_ID p) (passkey_Credential p)).
Proof.
  eapply wp_mono; [apply law_Passkeys_Update|]. intros r w' Hu ->. cbn beta in Hu.
  apply upd_Ok in Hu as (rows & t & u & rows' & Hg & _ & _ & Hr & Hg').
  unfold rows_replace in Hr. destruct (replace_first _ _ rows) as [l|] eqn:E; [|done]. injection Hr as <-.
  destruct (find_first (passkey_of (passkey_UserID p) (passkey_ID p)) rows) as [x|] eqn:Hf.
  - exists l, p. split; [done|]. split; [|done].
    pose proof (find_first_replace _ _ _ _ _ E Hf) as Hnew. cbn beta in Hnew. apply Hnew.
    unfold passkey_of. by rewrite !bool_decide_eq_true_2.
  - by rewrite (proj2 (replace_first_None _ _ _) Hf) in E.
Qed.

Lemma record_use_spec userID id raw l w :
  (forall p, p ∈ l -> passkey_UserID p = userID) ->
  wp (record_use id raw l) w (fun r w' => r = Ok tt -> forall raw', raw = Ok raw' ->
    (exists p, p ∈ l /\ passkey_ID p = id) \/ holds w userID id raw' -> holds w' userID id raw').
Proof.
  revert w. induction l as [|p l IH]; intros w Hl; cbn [record_use].
  { apply wp_ret. intros _ raw' _ [(p & Hp & _)|?]; [set_solver|done]. }
  assert (forall p, p ∈ l -> passkey_UserID p = userID) as Hl' by (intros; apply Hl; by right).
  apply wp_if; intros Hid; bool_to_prop.
  - eapply wp_mono; [apply (IH w Hl')|]. cbn beta. intros r w' Hpost Hr raw' Hraw Hin.
    apply (Hpost Hr raw' Hraw). destruct Hin as [(q & Hq & Hqid)|?]; [left|by right].
    apply elem_of_cons in Hq as [->|Hq]; [done|by exists q].
  - destruct raw as [raw|e]; [|by apply wp_ret]. apply wp_bind, wp_now.
    eapply wp_try_map; [apply update_holds| |done]. intros [] w1 Hu. specialize (Hu eq_refl).
    cbn in Hu. rewrite (Hl p (list_elem_of_here _ _)), Hid in Hu.
    eapply wp_mono; [apply (IH w1 Hl')|]. cbn beta. intros r w' Hpost Hr raw' [= <-] _.
    apply (Hpost Hr raw eq_refl). by right.
Qed.

(** ** The part under the user's lock *)

(** A response to [challenge], by one of the user's stored credentials, that
    is not a clone's. *)
Definition asserted (w : World) (u : User) (challenge response : string) (l : list Passkey)
    (cred : Credential) (verified : bool) : Prop :=
  exists creds a, passkeys_in w (user_ID u) l /\ credentials_of l = Ok creds /\
    ParseCredentialRequestResponseBytes response = Some a /\
    ValidateLogin (as_webauthn_user u) creds challenge a = Ok cred /\ CloneWarning cred = false /\
    verified = HasUserVerified a.

(** The passkey used, if the store has one under the credential's ID, now
    holds the credential with its new counter. *)
Definition use_recorded (w' : World) (userID : string) (l : list Passkey) (cred : Credential) : Prop :=
  let id := RawURLEncodeToString (credential_ID cred) in
  forall p, p ∈ l -> passkey_ID p = id ->
    exists raw, MarshalCredential cred = Ok raw /\ holds w' userID id raw.

Lemma check_assertion_Some u creds challenge response cred verified :
  check_assertion u creds challenge response = Some (cred, verified) ->
  exists a, ParseCredentialRequestResponseBytes response = Some a /\
    ValidateLogin (as_webauthn_user u) creds challenge a = Ok cred /\ CloneWarning cred = false /\
    verified = HasUserVerified a.
Proof.
  unfold check_assertion. destruct (ParseCredentialRequestResponseBytes response) as [a|]; [|done].
  cbn [mbind option_bind]. destruct (ValidateLogin _ _ _ a) as [c|] eqn:Hv; [|done].
  destruct (CloneWarning c) eqn:Hc; [done|]. intros [= <- <-]. by exists a.
Qed.

Lemma record_use_Err id e l w p :
  p ∈ l -> passkey_ID p = id -> wp (record_use id (Err e) l) w (fun r _ => r <> Ok tt).
Proof.
  intros Hp Hid. revert w. induction l as [|q l IH]; intros w; [by apply not_elem_of_nil in Hp|].
  cbn [record_use]. apply wp_if; intros Hq; [|by apply wp_ret]. bool_to_prop.
  apply elem_of_cons in Hp as [->|Hp]; [done|by apply IH].
Qed.

Lemma record_use_recorded userID cred l w :
  (forall p, p ∈ l -> passkey_UserID p = userID) ->
  wp (record_use (RawURLEncodeToString (credential_ID cred)) (MarshalCredential cred) l) w
    (fun r w' => r = Ok tt -> use_recorded w' userID l cred).
Proof.
  intros Hl. destruct (MarshalCredential cred) as [raw|e] eqn:Hm; apply wp_intro; intros r w' Hr ->.
  - intros p Hp Hid. exists raw. split; [done|].
    eapply (wp_run _ _ _ _ _ (record_use_spec userID _ (Ok raw) l w Hl) Hr eq_refl raw eq_refl).
    left. by exists p.
  - intros p Hp Hid. by destruct (wp_run _ _ _ _ _ (record_use_Err _ e l w p Hp Hid) Hr).
Qed.

Definition passkey_outcome (r : Request) (token : string) (u : User) (challenge response : string)
    (w : World) (res : res User) (w' : World) : Prop :=
  match res with
  | Ok user => user = u /\ exists l cred verified,
      asserted w u challenge response l cred verified /\ use_recorded w' (user_ID u) l cred /\
      signed_in s r w w' (user_ID u) (passkey_amr verified) /\
      m_pending (w_mem w') !! token = None /\ failures_forgotten s w' (user_Email u)
  | Err _ => fewer_sessions w w'
  end.

Lemma holds_frame cs w w' userID id raw :
  frame cs w w' -> NPasskeys ∉ cs -> holds w userID id raw -> holds w' userID id raw.
Proof. intros Hf Hn (rows & p & Hg & Hrest). exists rows, p. by rewrite (frame_get _ _ _ _ Hf). Qed.

Lemma finish_passkey_login_spec r token u n challenge response w :
  wp (finish_passkey_login s r token u n challenge response) w
    (passkey_outcome r token u challenge response w).
Proof.
  unfold finish_passkey_login. eapply wp_try; [apply load_webauthnUser_spec| |].
  2:{ intros e w1 [Hd1 _]. by apply fewer_sessions_same. }
  intros [creds l] w1 [Hd1 Hl]. destruct (Hl creds l eq_refl) as [Hin Hcreds].
  destruct (check_assertion u creds challenge response) as [[cred verified]|] eqn:Hc.
  2:{ apply wp_bind. eapply wp_mono; [apply touches_secondFactorFailed|]. intros e w2 Hf2. cbn beta in Hf2.
      apply wp_ret. cbn. transitivity w1; [by apply fewer_sessions_same|].
      eapply fewer_sessions_frame; [exact Hf2|set_solver]. }
  assert (forall p, p ∈ l -> passkey_UserID p = user_ID u) as Hown.
  { destruct Hin as (rows & _ & ->). intros p Hp. apply list_elem_of_In, filter_In in Hp as [_ Hp]. by bool_to_prop. }
  eapply wp_try; [apply wp_and; [apply touches_record_use|apply (record_use_recorded _ _ _ _ Hown)]| |].
  2:{ intros e w2 [Hf2 _]. cbn. transitivity w1; [by apply fewer_sessions_same|].
      eapply fewer_sessions_frame; [exact Hf2|set_solver]. }
  intros [] w2 [Hf2 Hrec]. specialize (Hrec eq_refl).
  assert (fewer_sessions w w2) as Hfew2.
  { transitivity w1; [by apply fewer_sessions_same|]. eapply fewer_sessions_frame; [exact Hf2|set_solver]. }
  eapply wp_try; [apply finishPendingLogin_spec| |]; cbn beta.
  2:{ intros e w3 (_ & Herr & _). cbn. transitivity w2; [done|by eapply Herr]. }
  intros x w3 (Hf3 & _ & Hok). destruct (Hok x eq_refl) as (Hsigned & Hforgot & Hgone).
  apply wp_ret. split; [done|]. exists l, cred, verified. split_and!; try done.
  - destruct (check_assertion_Some _ _ _ _ _ _ Hc) as (a & Hrest). by exists creds, a.
  - intros p Hp Hid. destruct (Hrec p Hp Hid) as (raw & Hm & Hh). exists raw. split; [done|].
    eapply holds_frame; [exact Hf3|set_solver|exact Hh].
  - eapply (signed_in_later s r w2 w3); try done.
    + pose proof (frame_tick _ _ _ Hf2). destruct Hd1. lia.
    + rewrite (frame_get _ _ _ _ Hf2) by set_solver. by rewrite (proj2 Hd1).
Qed.
(** ** The whole of it *)

Lemma pending_take_spec token w :
  wp (pending_take_challenge token) w (fun res w' => same_disk w w' /\
    m_lockout (w_mem w') = m_lockout (w_mem w) /\
    res = (p ← m_pending (w_mem w) !! token; pl_passkey p)).
Proof.
  apply wp_intro. intros res w' Hr. unfold pending_take_challenge, pending_crit, crit in Hr.
  rewrite run_trigger in Hr. cbn in Hr. unfold takePasskeyChallenge in Hr.
  destruct (m_pending (w_mem w) !! token) as [p|]; injection Hr as <- <-;
    (split; [split; [cbn; lia|done]|done]).
Qed.

Definition passkey_login_outcome (r : Request) (response : string) (w : World) (res : res User)
    (w' : World) : Prop :=
  match res with
  | Ok user => exists token p challenge l cred verified,
      as_passkeys s = true /\ wa = true /\
      csrf_valid s r w /\ pending_live r w w' token p /\ unlocked s w w' (pl_email p) /\
      user_row w (pl_userID p) user /\ user_Active user = true /\
      pl_passkey p = Some challenge /\
      asserted w user challenge response l cred verified /\ use_recorded w' (pl_userID p) l cred /\
      signed_in s r w w' (pl_userID p) (passkey_amr verified) /\
      m_pending (w_mem w') !! token = None /\ failures_forgotten s w' (user_Email user)
  | Err _ => fewer_sessions w w'
  end.

Lemma asserted_disk w w' u challenge response l cred verified :
  w_disk w' = w_disk w ->
  asserted w' u challenge response l cred verified -> asserted w u challenge response l cred verified.
Proof.
  intros Hd (creds & a & (rows & Hg & Hl) & Hrest). exists creds, a. split; [|done].
  exists rows. by rewrite <-Hd.
Qed.

(** The lock changes neither files nor the memory of requests. *)
Lemma passkey_outcome_locked r token u challenge response w1 w2 w w' res :
  (w_tick w <= w_tick w1)%nat -> (w_tick w2 <= w_tick w')%nat ->
  w_disk w1 = w_disk w -> w_disk w' = w_disk w2 -> w_mem w' = w_mem w2 -> w_out w' = w_out w2 ->
  passkey_outcome r token u challenge response w1 res w2 ->
  passkey_outcome r token u challenge response w res w'.
Proof.
  intros Ht Ht' Hd Hd' Hm Ho. destruct res as [user|e]; cbn [passkey_outcome].
  - intros (-> & l & cred & verified & Ha & Hu & Hs & Hp & Hf). split; [done|].
    exists l, cred, verified. split_and!.
    + by eapply asserted_disk.
    + unfold use_recorded, holds. by rewrite Hd'.
    + eapply (signed_in_later s r w1 w2); try done; [by rewrite Hd|by rewrite Ho].
    + by rewrite Hm.
    + unfold failures_forgotten. by rewrite Hm.
  - unfold fewer_sessions. by rewrite Hd, Hd'.
Qed.

Lemma CompletePasskeyLogin_spec r response w :
  wp (CompletePasskeyLogin s wa r response) w (passkey_login_outcome r response w).
Proof.
  unfold CompletePasskeyLogin, PasskeysAvailable. apply wp_if; intros Hav; [by apply wp_ret, fewer_sessions_same|].
  apply negb_false_iff, andb_true_iff in Hav as [Hpk Hwa].
  eapply wp_try; [apply wp_and_disk; [apply touches_reserve|apply reservePendingAttempt_spec]| |];
    cbn beta.
  2:{ intros e w1 [Hd1 _]. by apply fewer_sessions_same. }
  intros [[token u] n] w1 [Hd1 Hres].
  destruct (Hres _ eq_refl) as (p & Hcsrf & Hlive & -> & Hun & Hwith & Hact & Hleft).
  pose proof (user_with_ID _ _ _ Hwith) as Hid.
  eapply wp_step; [apply pending_take_spec|]. intros res w2 (Hd2 & Hl2 & Htake).
  assert (same_disk w w2) as Hd02 by (by transitivity w1).
  rewrite Hleft in Htake. replace (pl_passkey p) with (pl_passkey (pl_attempt p)) by (by destruct p).
  destruct res as [challenge|]; [|by apply wp_ret, fewer_sessions_same].
  apply wp_locked. eapply wp_mono; [apply finish_passkey_login_spec|]. cbn beta. intros res w3 Hout.
  apply (passkey_outcome_locked _ _ _ _ _ _ w3 w2
    (ticked 1 (with_held (release (LUser (user_ID u)) (w_held w3)) w3))) in Hout; try done; [|cbn; lia..].
  set (w4 := ticked 1 _) in *. destruct res as [user|e].
  2:{ cbn in *. transitivity w2; [by apply fewer_sessions_same|done]. }
  destruct Hout as (-> & l & cred & verified & Hass & Huse & Hsigned & Hgone & Hforgot).
  rewrite Hid in Huse, Hsigned.
  assert (w_tick w2 <= w_tick w4)%nat as Ht4.
  { destruct Hsigned as (x & tk & rows & rows' & (_ & _ & _ & (k & rd & Hk & _) & _) & _). lia. }
  destruct Hd02 as [Ht02 Hd02], Hd2 as [Ht2 Hd2], Hd1 as [Ht1 Hd1].
  exists token, p, challenge, l, cred, verified. split_and!; try done.
  - eapply pending_live_later; [|exact Hlive]. lia.
  - eapply (unlocked_later s w w1); [done|lia|done|exact Hun].
  - by destruct p.
  - by eapply asserted_disk.
  - eapply (signed_in_later s r w2 w4); try done. by rewrite Hd02.
Qed.

(** Claim C26.  A login is completed with a passkey only when passkeys are set
    up, with a valid CSRF token, for the unexpired pending login of the
    request's cookie with fewer than five attempts counted, by an active user
    who is not locked out, and with a response that the WebAuthn library
    accepts for the challenge issued for that pending login and one of the
    user's stored credentials, which is not a clone.  The stored passkey then
    holds the credential with its new counter, one session is added for the
    user with the methods of the ceremony, and the pending login, with its
    challenge, is gone.  Without a success no session is added. *)
Theorem passkey_login_sound r response w res w' :
  run (CompletePasskeyLogin s wa r response) w = (res, w') ->
  match res with
  | Ok user => exists token p challenge l cred verified,
      as_passkeys s = true /\ wa = true /\
      csrf_valid s r w /\ pending_live r w w' token p /\ unlocked s w w' (pl_email p) /\
      user_row w (pl_userID p) user /\ user_Active user = true /\
      pl_passkey p = Some challenge /\
      asserted w user challenge response l cred verified /\ use_recorded w' (pl_userID p) l cred /\
      signed_in s r w w' (pl_userID p) (passkey_amr verified) /\
      m_pending (w_mem w') !! token = None /\ failures_forgotten s w' (user_Email user)
  | Err _ => fewer_sessions w w'
  end.
Proof. intros Hr. exact (wp_run _ _ _ _ _ (CompletePasskeyLogin_spec r response w) Hr). Qed.
End passkeys.
