(* ===== verification/LoginFacts.v ===== *)
(** * The login pages: where they send the browser

    A return URL that [isValidReturnURL] accepts stays on the origin when
    [http.Redirect] sends it, unless it hides a tab behind a "#"; a logout
    returns to such a path, which with a state must not start with an escaped
    slash, or to a redirect URI registered for the client the request names. *)
From S2P Require Import Prelude GoTime GoText Encoding GoUrl Errors Domain Lockout PendingLogins.
From S2P Require Import World Run Store Exec StoreFacts FileStore Keys Password Jwt Totp Csrf Session AuthService.
From S2P Require Import Passkeys Authorize Redirects TokenService Http LoginHandlers TokenFacts AuthFacts.
From S2P Require Import SignIn Metrics.
From Stdlib Require Import Ascii.
#[local] Open Scope Z_scope.
#[local] Open Scope go_scope.

(** ** Return URLs *)

(** No tab where [url.Parse] does not look for one. *)
Definition no_hidden_tab (url : string) : Prop :=
  has_char tab url = false \/ has_char "#"%char url = false.

Lemma Cut_not_found c s : has_char c s = false -> Cut c s = (s, "", false).
Proof. intros Hs. apply Cut_none. by apply has_char_no. Qed.

Lemma has_char_byte c s : has_char c s = true -> Z.of_N (N_of_ascii c) ∈ bytes s.
Proof.
  intros Hc. destruct (decide (Z.of_N (N_of_ascii c) ∈ bytes s)) as [|Hno]; [done|].
  apply has_char_no in Hno. congruence.
Qed.

Lemma parsed_no_tab url u : Parse url = Some u -> no_hidden_tab url -> has_char tab url = false.
Proof.
  intros Hp [Ht|Hh]; [done|]. unfold Parse in Hp. rewrite (Cut_not_found _ _ Hh) in Hp.
  unfold parse_url in Hp. destruct (has_char tab url) eqn:Ht; [|done].
  apply has_char_byte in Ht. assert (existsb control_byte (bytes url) = true) as Hc.
  { apply existsb_exists. exists 9. split; [by apply list_elem_of_In|done]. }
  by rewrite Hc in Hp.
Qed.

Lemma all_chars_not p s : (forall c, p c = false -> has_char c s = false) -> all_chars p s = true.
Proof.
  induction s as [|c s IH]; [done|]. intros Hp. cbn [all_chars]. apply andb_true_iff. split.
  - destruct (p c) eqn:E; [done|]. specialize (Hp c E). cbn [has_char] in Hp. by rewrite Ascii.eqb_refl in Hp.
  - apply IH. intros d Hd. specialize (Hp d Hd). cbn [has_char] in Hp. by apply orb_false_iff in Hp as [_ ?].
Qed.

Lemma isValidReturnURL_spec url :
  isValidReturnURL url = true ->
  HasPrefix url "/" = true /\
  ContainsAny url ["\"%char; Ascii.ascii_of_nat 13; Ascii.ascii_of_nat 10] = false /\
  exists u, Parse url = Some u /\ u_Scheme u = "" /\ u_Host u = "" /\ u_User u = None.
Proof.
  unfold isValidReturnURL. destruct url as [|c rest]; [done|]. rewrite !andb_true_iff.
  intros [[[Hc _] Hany] Hp]. apply negb_true_iff in Hany. split.
  - apply Ascii.eqb_eq in Hc as ->. unfold HasPrefix. cbn. by destruct rest.
  - split; [done|]. destruct (Parse _) as [u|]; [|done]. exists u. split; [done|].
    apply andb_true_iff in Hp as [Hp ?]. apply andb_true_iff in Hp as [? ?]. by bool_to_prop.
Qed.

Lemma valid_return_stays oldpath url :
  isValidReturnURL url = true -> no_hidden_tab url -> same_origin (Location oldpath url) = true.
Proof.
  intros Hv Htab. destruct (isValidReturnURL_spec _ Hv) as (Hpre & Hany & u & Hp & Hs & Hh & _).
  eapply Location_same_origin; [exact Hp|done..|].
  pose proof (parsed_no_tab _ _ Hp Htab) as Ht. unfold ContainsAny in Hany. cbn [existsb] in Hany.
  rewrite !orb_false_iff in Hany. destruct Hany as (Hbs & Hcr & Hlf & _).
  apply all_chars_not. intros c Hc. apply orb_false_iff in Hc as [Hslash Htame].
  unfold tame, dropped in Htame. rewrite Hslash in Htame. cbn [negb andb existsb] in Htame.
  apply andb_false_iff in Htame as [Htame|Htame]; apply negb_false_iff in Htame.
  - by apply Ascii.eqb_eq in Htame as ->.
  - rewrite !orb_true_iff in Htame. destruct Htame as [Ht'|[Ht'|[Ht'|?]]]; [..|done];
      by apply Ascii.eqb_eq in Ht' as ->.
Qed.

(** Behind a "#" a tab passes [isValidReturnURL]; [http.Redirect] cleans the
    fragment as if it were the path, and the browser drops the tab: the
    Location names another host. *)
Definition hidden_tab_url : string := "/#/../" +:+ String tab "/evil.example".

Lemma return_url_leaves_origin :
  isValidReturnURL hidden_tab_url = true /\
  Location "/login" hidden_tab_url = "/" +:+ String tab "/evil.example" /\
  stripped (Location "/login" hidden_tab_url) = "//evil.example" /\
  same_origin (Location "/login" hidden_tab_url) = false.
Proof. vm_compute. done. Qed.

(** ** Every redirect of the login pages *)

Lemma Location_query oldpath path q :
  path = "/login" \/ path = "/login/code" -> same_origin (Location oldpath (path +:+ "?" +:+ q)) = true.
Proof.
  intros Hpath. unfold Location. destruct (Parse _) as [u|]; [|by destruct Hpath as [-> | ->]].
  destruct (_ && _); [|by destruct Hpath as [-> | ->]].
  assert (HasPrefix (path +:+ "?" +:+ q) "/" = true) as -> by (by destruct Hpath as [-> | ->]).
  change ("?" +:+ q) with (String "?"%char q). rewrite Cut_app; [by destruct Hpath as [-> | ->]|].
  destruct Hpath as [-> | ->]; apply has_char_no; reflexivity.
Qed.

Lemma return_target_stays oldpath url :
  no_hidden_tab (return_target url) -> same_origin (Location oldpath (return_target url)) = true.
Proof.
  unfold return_target. destruct ((url ==? "") || negb (isValidReturnURL url)) eqn:E.
  - intros _. unfold Location. cbn. destruct (oldpath ==? ""); reflexivity.
  - apply orb_false_iff in E as [_ E]. apply negb_false_iff in E. by apply valid_return_stays.
Qed.

(** The browser stays here: the redirect of a response, seen from the request. *)
Definition stays_here (r : HttpRequest) (resp : Response) : Prop :=
  match resp with
  | Redirected url _ => no_hidden_tab url -> same_origin (Location (u_Path (hr_URL r)) url) = true
  | _ => True
  end.

Lemma wp_any `{Env} {A B} (p : Prog A) (f : A -> Prog B) w Q :
  (forall a w', wp (f a) w' Q) -> wp (bind p f) w Q.
Proof. intros Hf. apply wp_bind, wp_intro. intros a w' _. apply Hf. Qed.

(** Follows a handler to its responses. *)
Ltac responses :=
  repeat first
    [ apply wp_ret | apply wp_any; intros ? ?
    | match goal with
      | |- wp (if ?b then _ else _) _ _ => destruct b
      | |- wp (match ?x with _ => _ end) _ _ => destruct x
      | |- wp (let '(_, _) := ?x in _) _ _ => destruct x
      end ].

Section login.
Context `{StoreLaws} `{UnicodeTables} `{KeyLib} `{JwtLib} `{Argon2} `{WebAuthn} (h : LoginHandler).

Lemma restartLogin_stays r returnURL w : wp (restartLogin returnURL) w (fun resp _ => stays_here r resp).
Proof. apply wp_ret. intros _. apply (Location_query _ "/login"). by left. Qed.

Lemma renderLoginError_stays r e u w : wp (renderLoginError h e u) w (fun resp _ => stays_here r resp).
Proof. unfold renderLoginError. responses; done. Qed.

Lemma renderCodePage_stays r rq st u e w :
  wp (renderCodePage h rq st u e) w (fun resp _ => stays_here r resp).
Proof. unfold renderCodePage, server_error. responses; done. Qed.

Lemma found_target_stays r url w : wp (found (return_target url)) w (fun resp _ => stays_here r resp).
Proof. apply wp_ret. intros Htab. by apply return_target_stays. Qed.

Lemma found_login_stays r url w : url = "/login/code" -> wp (found url) w (fun resp _ => stays_here r resp).
Proof.
  intros ->. apply wp_ret. intros _. unfold Location. cbn.
  by destruct (u_Path (hr_URL r) ==? "").
Qed.

Lemma Login_handler_stays r w : wp (Login_handler h r) w (fun resp _ => stays_here r resp).
Proof.
  unfold Login_handler. destruct (ParseForm r) as [rq ok].
  destruct ok; cbn [negb]; [|apply renderLoginError_stays].
  apply wp_if; intros _; [apply renderLoginError_stays|]. apply wp_any. intros [user|e] w1.
  - apply found_target_stays.
  - apply wp_if; intros _; [|apply renderLoginError_stays]. destruct (_ && _).
    + apply wp_ret. intros _. apply (Location_query _ "/login/code"). by right.
    + by apply found_login_stays.
Qed.

Lemma LoginPage_stays r w : wp (LoginPage h r) w (fun resp _ => stays_here r resp).
Proof.
  unfold LoginPage. apply wp_any. intros b w1. apply wp_if; intros _; [apply found_target_stays|].
  unfold server_error. responses; done.
Qed.

Lemma Code_stays r w : wp (Code h r) w (fun resp _ => stays_here r resp).
Proof.
  unfold Code. apply wp_any. intros [user|e] w1; [apply found_target_stays|].
  apply wp_if; intros _; [apply renderCodePage_stays|].
  apply wp_if; intros _; [apply restartLogin_stays|].
  apply wp_if; intros _; [apply renderCodePage_stays|by apply wp_ret].
Qed.

Lemma CodePage_stays r w : wp (CodePage h r) w (fun resp _ => stays_here r resp).
Proof.
  unfold CodePage. apply wp_any. intros b w1. apply wp_if; intros _;
    [apply restartLogin_stays|apply renderCodePage_stays].
Qed.

(** Claim C28.  The login pages are no open redirect: every redirect of the
    password form, the code page and their POST handlers, whatever return URL
    the request carries, is a Location that a browser reads as a path of this
    origin, after what [http.Redirect] makes of it.  The one exception is
    excluded by the hypothesis: a return URL with both a "#" and a tab. *)
Theorem login_redirects_stay r w handler resp w' url status :
  handler ∈ [LoginPage h; Login_handler h; CodePage h; Code h] ->
  run (handler r) w = (resp, w') -> resp = Redirected url status -> no_hidden_tab url ->
  same_origin (Location (u_Path (hr_URL r)) url) = true.
Proof.
  intros Hin Hrun -> Htab.
  assert (forall w, wp (handler r) w (fun resp _ => stays_here r resp)) as Hall.
  { rewrite !elem_of_cons in Hin. destruct Hin as [-> |[-> |[-> |[-> |Hin]]]]; intros w0.
    - apply LoginPage_stays.
    - apply Login_handler_stays.
    - apply CodePage_stays.
    - apply Code_stays.
    - by apply not_elem_of_nil in Hin. }
  exact (wp_run _ _ _ _ _ (Hall w) Hrun Htab).
Qed.
End login.

(** ** Logout *)

Definition other_sessions (token : string) (rows : list Session) : list Session :=
  List.filter (fun x => session_ID x !=? token) rows.

Lemma other_sessions_unique token rows :
  unique_by session_ID rows -> unique_by session_ID (other_sessions token rows).
Proof. apply unique_by_sublist, sublist_filter_list. Qed.

Lemma other_sessions_idemp token rows :
  other_sessions token (other_sessions token rows) = other_sessions token rows.
Proof.
  unfold other_sessions. induction rows as [|x rows IH]; [done|]. cbn [List.filter].
  destruct (session_ID x !=? token) eqn:E; [|done]. cbn [List.filter]. by rewrite E, IH.
Qed.

(** A path of this server that [URL.String] writes back as one. *)
Lemma with_state_stays oldpath uri state url :
  isValidReturnURL uri = true -> hidden_slash uri = false -> state <> "" -> with_state uri state = Some url ->
  same_origin (Location oldpath url) = true.
Proof.
  intros Hv Hh Hst Hw. destruct (isValidReturnURL_spec _ Hv) as (Hr & _ & _).
  assert (HasPrefix uri "//" = false) as Hr2.
  { revert Hv. destruct (slash_start _ Hr) as [s ->]. rewrite two_slashes. destruct s as [|c s]; [done|].
    rewrite HasPrefix_cons, HasPrefix_nil, andb_true_r. unfold isValidReturnURL. by destruct (Ascii.eqb c "/"). }
  unfold with_state in Hw. destruct (Parse uri) as [u|] eqn:Hp; [|done]. cbn [mbind option_bind] in Hw.
  rewrite bool_decide_eq_false_2 in Hw by done. injection Hw as <-. apply one_slash_stays.
  eapply URL_String_one_slash; [exact (rooted_Parse _ _ Hr Hr2 Hp)|..|apply Values_Encode_clean].
  - destruct (slash_start _ Hr) as [s ->]. cbn [Cut Ascii.eqb Bool.eqb].
    destruct (Cut "#" s) as [[b a] f]. cbn [fst]. apply Cut_rooted. by rewrite HasPrefix_cons, HasPrefix_nil.
  - apply not_true_iff_false. intros Hc. do 2 apply Cut_prefix in Hc. congruence.
  - by do 2 apply Cut_hidden.
Qed.

Section logout.
Context `{StoreLaws} `{UnicodeTables} `{KeyLib} `{JwtLib} `{Argon2} `{WebAuthn} (h : LoginHandler).

(** The session [token] may be gone; the others are kept. *)
Definition sessions_kept (gone : list Session -> list Session -> Prop) (w w' : World) : Prop :=
  (w_tick w <= w_tick w')%nat /\
  (io_works w w' -> forall rows, get CSessions (w_disk w) = FData rows -> unique_by session_ID rows ->
     exists rows', get CSessions (w_disk w') = FData rows' /\ gone rows rows').

Definition may_lose (token : string) (rows rows' : list Session) : Prop :=
  rows' = rows \/ rows' = other_sessions token rows.
Definition loses (token : string) (rows rows' : list Session) : Prop := rows' = other_sessions token rows.

Lemma sessions_kept_frame token cs w w' :
  frame cs w w' -> NSessions ∉ cs -> sessions_kept (may_lose token) w w'.
Proof.
  intros Hf Hn. split; [exact (frame_tick _ _ _ Hf)|]. intros _ rows Hg _. exists rows.
  by rewrite (frame_get _ _ _ _ Hf); [split; [|left]|].
Qed.

Lemma sessions_kept_then token w w1 w' :
  sessions_kept (may_lose token) w w1 -> sessions_kept (loses token) w1 w' ->
  sessions_kept (loses token) w w'.
Proof.
  intros [Ht1 Hk1] [Ht2 Hk2]. split; [lia|]. intros Hio rows Hg Hu.
  destruct (Hk1 ltac:(io_part) rows Hg Hu) as (rows1 & Hg1 & Hl1).
  assert (unique_by session_ID rows1) as Hu1.
  { destruct Hl1 as [->| ->]; [done|by apply other_sessions_unique]. }
  destruct (Hk2 ltac:(io_part) rows1 Hg1 Hu1) as (rows2 & Hg2 & ->). exists (other_sessions token rows).
  split; [|done]. destruct Hl1 as [->| ->]; [done|]. by rewrite other_sessions_idemp in Hg2.
Qed.

Lemma Sessions_Delete_spec token w :
  wp (Sessions_Delete token) w (fun _ w' => sessions_kept (loses token) w w').
Proof.
  eapply wp_mono; [apply law_Sessions_Delete|]. intros r w' Hu. cbn beta in Hu.
  split; [exact (frame_tick _ _ _ (upd_frame _ _ _ _ _ Hu))|]. intros Hio rows Hg Hun.
  destruct (upd_works _ _ _ _ _ _ Hu Hio Hg) as (t & u & _ & Hr). unfold rows_remove in Hr.
  exists (other_sessions token rows). split; [|done].
  unfold other_sessions. rewrite <-(remove_first_others session_ID token rows Hun).
  destruct (remove_first _ rows) as [l|]; destruct Hr as [_ Hr]; [exact Hr|]. by rewrite Hr.
Qed.

(** Looking at the session may delete it when it has expired. *)
Lemma GetSession_kept token w : wp (GetSession token) w (fun _ w' => sessions_kept (may_lose token) w w').
Proof.
  unfold GetSession. eapply wp_try; [apply law_Sessions_GetByID| |].
  2:{ intros e w1 Hq. cbn beta in Hq. eapply sessions_kept_frame;
      [apply same_disk_frame, (qry_same _ _ _ _ _ Hq)|apply not_elem_of_nil]. }
  intros x w1 Hq. cbn beta in Hq. pose proof (qry_same _ _ _ _ _ Hq) as Hd. apply wp_bind, wp_now.
  assert (same_disk w (ticked 1 w1)) as Hd2 by (transitivity w1; [done|apply same_disk_ticked]).
  apply wp_if; intros _.
  - eapply wp_step; [apply wp_ignore, Sessions_Delete_spec|]. intros [] w2 [Ht Hl]. apply wp_ret.
    destruct Hd2 as [Ht2 Hd2]. split; [lia|]. intros Hio rows Hg Hu.
    destruct (Hl ltac:(io_part) rows) as (rows' & Hg' & ->); [by rewrite Hd2|done|].
    exists (other_sessions token rows). split; [done|by right].
  - apply wp_ret. eapply sessions_kept_frame; [by apply same_disk_frame|apply not_elem_of_nil].
Qed.

Lemma GetCurrentUser_kept r token w :
  Cookie r SessionCookieName = Some token ->
  wp (GetCurrentUser r) w (fun _ w' => sessions_kept (may_lose token) w w').
Proof.
  intros Hc. unfold GetCurrentUser, CurrentSession, GetSessionFromRequest. rewrite Hc.
  apply wp_bind. eapply wp_step; [apply GetSession_kept|]. intros [x|e] w1 Hk; [|by do 2 apply wp_ret].
  eapply wp_step; [apply (wp_touches []); touch|]. intros u w2 Hf. cbn beta in Hf.
  assert (sessions_kept (may_lose token) w w2) as Hk2.
  { destruct Hk as [Ht Hk]. pose proof (frame_tick _ _ _ Hf). split; [lia|]. intros Hio rows Hg Hu.
    destruct (Hk ltac:(io_part) rows Hg Hu) as (rows' & Hg' & Hl). exists rows'. split; [|done].
    rewrite (frame_get _ _ _ _ Hf) by apply not_elem_of_nil. exact Hg'. }
  destruct u as [u|e]; [|by do 2 apply wp_ret]. destruct (negb _); by do 2 apply wp_ret.
Qed.

Lemma sessions_kept_later token w w1 w' cs :
  sessions_kept (may_lose token) w w1 -> frame cs w1 w' -> NSessions ∉ cs ->
  sessions_kept (may_lose token) w w'.
Proof.
  intros [Ht Hk] Hf Hn. pose proof (frame_tick _ _ _ Hf). split; [lia|]. intros Hio rows Hg Hu.
  destruct (Hk ltac:(io_part) rows Hg Hu) as (rows' & Hg' & Hl). exists rows'. split; [|done].
  by rewrite (frame_get _ _ _ _ Hf).
Qed.

(** What a logout leaves: the session of the cookie is gone, the cookie is
    cleared. *)
Definition logged_out (s : Service) (r : Request) (w w' : World) : Prop :=
  SetCookie (session_cookie (as_sessions s) "" (-1)) ∈ w_out w' /\
  forall token, Cookie r SessionCookieName = Some token -> token <> "" ->
    sessions_kept (loses token) w w'.

(** What follows the removal. *)
Lemma clear_cookies_spec s w0 w :
  (w_tick w0 <= w_tick w)%nat ->
  wp (let! _ := ClearSessionCookie (as_sessions s) in let! _ := ClearToken (as_csrf s) in ret_ok tt) w
    (fun _ w' => same_disk w w' /\ SetCookie (session_cookie (as_sessions s) "" (-1)) ∈ w_out w').
Proof.
  intros Ht. apply wp_and_disk; [unfold ClearSessionCookie, ClearToken; touch|].
  unfold ClearSessionCookie. apply wp_bind, wp_emit, wp_intro. intros a w' Hr.
  apply (out_kept _ _ _ _ _ Hr). cbn. set_solver.
Qed.

(** The removal: the logout is recorded when there is a recorder. *)
Lemma Logout_removal_spec s r token w :
  Cookie r SessionCookieName = Some token ->
  wp (let! _ := (if as_audit s then
        let! u := GetCurrentUser r in
        match u with
        | Ok user => RecordEvent (as_audit s) (user_event user "logout" "" (ClientIP r))
        | Err _ => Ret tt
        end else Ret tt) in ignore (DeleteSession token)) w
    (fun _ w' => sessions_kept (loses token) w w').
Proof.
  intros Hc. eapply (wp_step _ _ _ (fun _ w' => sessions_kept (may_lose token) w w')).
  - apply wp_if; intros Ha.
    + eapply wp_step; [by apply GetCurrentUser_kept|]. intros [u|e] w1 Hk; [|by apply wp_ret].
      eapply wp_mono; [apply touches_RecordEvent|]. cbn beta. intros [] w2 Hf.
      eapply sessions_kept_later; [exact Hk|exact Hf|set_solver].
    + apply wp_ret. by apply (sessions_kept_frame token []); [|apply not_elem_of_nil].
  - intros [] w1 Hk. eapply wp_mono; [apply wp_ignore, Sessions_Delete_spec|]. cbn beta.
    intros [] w2 Hl. by eapply sessions_kept_then.
Qed.

Lemma sessions_kept_after_disk token w w1 w' :
  sessions_kept (loses token) w w1 -> same_disk w1 w' -> sessions_kept (loses token) w w'.
Proof.
  intros [Ht Hk] [Ht2 Hd]. split; [lia|]. intros Hio rows Hg Hu.
  destruct (Hk ltac:(io_part) rows Hg Hu) as (rows' & Hg' & Hl). exists rows'. by rewrite Hd.
Qed.

Lemma touches_GetCurrentUser r : touches [NSessions] (GetCurrentUser r).
Proof. unfold GetCurrentUser, CurrentSession, GetSessionFromRequest, GetSession, ignore. touch. Qed.

Lemma Logout_spec s r w : wp (Logout s r) w (fun _ w' => logged_out s r w w').
Proof.
  unfold Logout, logged_out. destruct (Cookie r SessionCookieName) as [value|] eqn:Hc.
  2:{ apply wp_bind, wp_ret. eapply wp_mono; [by apply (clear_cookies_spec s w)|]. by intros a w' [_ Hout]. }
  destruct (value ==? "") eqn:Hv.
  { bool_to_prop. subst value. apply wp_bind, wp_ret. eapply wp_mono; [by apply (clear_cookies_spec s w)|].
    intros a w' [_ Hout]. split; [done|]. by intros token [= <-]. }
  eapply wp_step; [by apply Logout_removal_spec|]. intros [] w1 Hk. cbn beta in Hk.
  eapply wp_mono; [apply (clear_cookies_spec s w), Hk|]. cbn beta. intros a w' [Hd Hout].
  split; [done|]. intros token [= <-] _. by eapply sessions_kept_after_disk.
Qed.

(** ** The redirect after a logout *)

(** The client a logout request names: by [client_id], or as the only
    audience of a hint that one of this issuer's keys signed; both agree. *)
Definition names_client (ts : TokenService) (hint named clientID : string) : Prop :=
  clientID <> "" /\
  ((hint = "" /\ clientID = named) \/
   (hint <> "" /\ (named = "" \/ named = clientID) /\
    exists claims w1 w2, run (ParseIDTokenHint (ts_generator ts) hint) w1 = (Ok claims, w2) /\
      cl_Audience claims = [clientID])).

Lemma touches_client_of_hint ts hint named : touches [] (client_of_hint ts hint named).
Proof.
  unfold client_of_hint. apply touches_bind; [|intros r; touch].
  unfold ParseIDTokenHint. apply touches_bind; [apply touches_parse|intros r; touch].
Qed.

Lemma client_of_hint_spec ts hint named w :
  hint <> "" ->
  wp (client_of_hint ts hint named) w (fun r w' => same_disk w w' /\ forall clientID, r = Ok clientID ->
    clientID <> "" -> names_client ts hint named clientID).
Proof.
  intros Hh. apply wp_and_disk; [apply touches_client_of_hint|]. unfold client_of_hint.
  apply wp_bind, wp_intro. intros [claims|e] w1 Hr; [|by apply wp_ret].
  destruct (cl_Audience claims) as [|aud [|? ?]] eqn:Ha; [by apply wp_ret| |by apply wp_ret].
  apply wp_if; intros Hn; apply wp_ret; [done|]. intros x [= <-] Hne. split; [done|]. right.
  split; [done|]. split; [|by exists claims, w, w1].
  apply andb_false_iff in Hn as [Hn|Hn]; apply negb_false_iff in Hn; bool_to_prop; auto.
Qed.

(** The redirect URI is registered for the client the request names. *)
Definition registered_target (ts : TokenService) (w : World) (hint named uri state url : string) : Prop :=
  exists clientID client, names_client ts hint named clientID /\ client_row w clientID client /\
    uri ∈ client_RedirectURIs client /\ with_state uri state = Some url.

Lemma PostLogoutRedirect_spec ts hint named uri state w :
  wp (PostLogoutRedirect ts hint named uri state) w (fun r w' => forall url, r = Ok url ->
    registered_target ts w hint named uri state url).
Proof.
  unfold PostLogoutRedirect.
  eapply (wp_try _ _ _ (fun r w' => same_disk w w' /\ forall clientID, r = Ok clientID ->
    clientID <> "" -> names_client ts hint named clientID)); [| |done].
  { apply wp_if; intros Hh; bool_to_prop; [by apply client_of_hint_spec|]. subst hint. apply wp_ret.
    split; [done|]. intros x [= <-] Hne. split; [done|]. by left. }
  intros clientID w1 [Hd1 Hnames]. apply wp_if; intros Hne; [by apply wp_ret|]. bool_to_prop.
  eapply wp_step; [apply law_Clients_GetByID|]. intros [client|e] w2 Hq; cbn beta in Hq; [|by apply wp_ret].
  apply wp_if; intros Hreg; [by apply wp_ret|].
  destruct (with_state uri state) as [url|] eqn:Hw; apply wp_ret; [|done]. intros x [= <-].
  exists clientID, client. split_and!; try done.
  - by apply Hnames.
  - apply qry_find in Hq as (rows & Hg & Hf). exists rows. by rewrite <-(proj2 Hd1).
  - apply negb_false_iff in Hreg. unfold registeredRedirect in Hreg. by apply existsb_eqb_elem.
Qed.

(** Where a logout may send the browser. *)
Definition logout_target (r : Request) (w : World) (url : string) : Prop :=
  let uri := FormValue r "post_logout_redirect_uri" in
  let state := FormValue r "state" in
  url = "/login" \/
  (isValidReturnURL uri = true /\ if state !=? "" then with_state uri state = Some url else url = uri) \/
  exists ts, lh_postLogout h = Some ts /\
    registered_target ts w (FormValue r "id_token_hint") (FormValue r "client_id") uri state url.

(** A local path as asked for that stays local when it is sent: without a
    tab behind a "#" and, where a state makes [URL.String] write it anew,
    without an escaped slash after the first. *)
Definition plain_path (r : Request) : Prop :=
  let uri := FormValue r "post_logout_redirect_uri" in
  isValidReturnURL uri = true /\
  if FormValue r "state" !=? "" then hidden_slash uri = false else no_hidden_tab uri.

(** The browser stays on the origin. *)
Definition kept_local (r : Request) (url : string) : Prop :=
  url = "/login" \/ plain_path r -> forall oldpath, same_origin (Location oldpath url) = true.

Lemma login_local r : kept_local r "/login".
Proof. intros _ oldpath. unfold Location. cbn. by destruct (oldpath ==? ""). Qed.

Lemma resolve_spec r w0 w :
  get CClients (w_disk w) = get CClients (w_disk w0) ->
  wp (resolvePostLogoutRedirect h r (FormValue r "post_logout_redirect_uri") (FormValue r "state")) w
    (fun u _ => forall url, u = Ok url -> logout_target r w0 url /\ kept_local r url).
Proof.
  intros Hd. unfold resolvePostLogoutRedirect, logout_target, kept_local, plain_path.
  destruct (isValidReturnURL _) eqn:Hv.
  - destruct (FormValue r "state" !=? "") eqn:Hst.
    + bool_to_prop. destruct (with_state _ _) as [url|] eqn:Hw; apply wp_ret; [|done]. intros x [= <-].
      split; [right; by left|]. intros [->|[_ Hh]] oldpath; [apply (login_local r); by left|].
      by eapply with_state_stays.
    + apply wp_ret. intros x [= <-]. split; [right; by left|].
      intros [Heq|[_ Htab]] oldpath; [rewrite Heq; apply (login_local r); by left|by apply valid_return_stays].
  - destruct (lh_postLogout h) as [ts|]; [|by apply wp_ret].
    eapply wp_mono; [apply PostLogoutRedirect_spec|]. cbn beta. intros u w' Hu url ->.
    split; [|intros [->|[? _]] oldpath; [apply (login_local r); by left|done]]. right. right.
    exists ts. split; [done|]. destruct (Hu url eq_refl) as (id & client & Hn & (rows & Hg & Hf) & Hr).
    exists id, client. split; [done|]. split; [|done]. exists rows. by rewrite <-Hd.
Qed.

Lemma touches_Logout s r : touches [NSessions; NAudit] (Logout s r).
Proof.
  unfold Logout, GetCurrentUser, CurrentSession, GetSessionFromRequest, GetSession, DeleteSession,
    ClearSessionCookie, ClearToken, ignore. touch.
Qed.

Lemma touches_resolve r uri state : touches [] (resolvePostLogoutRedirect h r uri state).
Proof.
  unfold resolvePostLogoutRedirect, PostLogoutRedirect. touch. apply touches_client_of_hint.
Qed.

Definition logout_outcome (r : Request) (w : World) (resp : Response) (w' : World) : Prop :=
  logged_out (lh_auth h) r w w' /\
  exists url, resp = Redirected url StatusFound /\ logout_target r w url /\ kept_local r url.

Lemma logged_out_after s r w w1 w' :
  logged_out s r w w1 -> same_disk w1 w' -> outputs_grow w1 w' -> logged_out s r w w'.
Proof.
  intros [Hout Hk] Hd [[l Ho] _]. split; [rewrite Ho; set_solver|].
  intros token Hc Hne. eapply sessions_kept_after_disk; [by apply Hk|done].
Qed.

Lemma Logout_handler_spec r w :
  wp (Logout_handler h r) w (logout_outcome (parsed_lazily r) w).
Proof.
  unfold Logout_handler. set (rq := parsed_lazily r).
  eapply wp_step; [apply wp_and; [apply touches_Logout|apply Logout_spec]|]. intros a w1 [Hf Hout].
  apply wp_if; intros _.
  2:{ apply wp_ret. split; [done|]. eexists. split; [done|]. split; [by left|apply login_local]. }
  eapply wp_step.
  { apply wp_and_disk; [apply touches_resolve|]. apply (wp_and _ _ (fun _ w2 => outputs_grow w1 w2));
      [apply outputs_only_grow|apply (resolve_spec rq w w1)].
    by rewrite (frame_get _ _ _ _ Hf) by set_solver. }
  intros u w2 (Hd & Hgrow & Hu). assert (logged_out (lh_auth h) rq w w2) as Hout2 by (by eapply logged_out_after).
  destruct u as [url|e]; apply wp_ret; (split; [done|]); eexists; (split; [done|]);
    [by apply Hu|split; [by left|apply login_local]].
Qed.

(** Claim C27.  A logout clears the session cookie and removes the session it
    names, and only that one (when the storage works and session IDs are
    unique); it answers with a redirect: to the login page, to the URL the
    request asked for when [isValidReturnURL] takes it for a path of this
    server, or to one that is registered as a redirect URI of the client that
    the request names by [client_id] or by an ID token hint of this issuer.
    The login page and such a path are a path of this origin for the browser,
    whatever [http.Redirect] makes of them, but for two shapes of path: one
    with a tab behind a "#", and with a state one that starts with "/%2F"
    ([logout_url_leaves_origin] shows that the second may name another
    host). *)
Theorem logout_sound r w resp w' :
  run (Logout_handler h r) w = (resp, w') ->
  SetCookie (session_cookie (as_sessions (lh_auth h)) "" (-1)) ∈ w_out w' /\
  (forall token rows, Cookie (parsed_lazily r) SessionCookieName = Some token -> token <> "" ->
     io_works w w' -> get CSessions (w_disk w) = FData rows -> unique_by session_ID rows ->
     get CSessions (w_disk w') = FData (other_sessions token rows)) /\
  exists url, resp = Redirected url StatusFound /\ logout_target (parsed_lazily r) w url /\
    kept_local (parsed_lazily r) url.
Proof.
  intros Hrun. destruct (wp_run _ _ _ _ _ (Logout_handler_spec r w) Hrun) as [[Hout Hk] Hurl].
  split; [done|]. split; [|done]. intros token rows Hc Hne Hio Hg Hu.
  destruct (Hk token Hc Hne) as [_ Hgone]. by destruct (Hgone Hio rows Hg Hu) as (rows' & Hg' & ->).
Qed.
End logout.

(** A path whose escaped slash [url.Parse] keeps raw, next to a byte that is
    not a valid encoding: with a state, [URL.String] writes the decoded path,
    and the redirect names another host. *)
Definition escaped_slash_url : string := "/%2Fevil.example/ ".

Lemma logout_url_leaves_origin :
  isValidReturnURL escaped_slash_url = true /\
  with_state escaped_slash_url "1" = Some "//evil.example/%20?state=1" /\
  Location "/logout" "//evil.example/%20?state=1" = "//evil.example/%20?state=1" /\
  same_origin "//evil.example/%20?state=1" = false.
Proof. vm_compute. done. Qed.
