(* ===== verification/Scope.v ===== *)
(** * Rows of others

    A run is scoped to one owner when the rows of every other owner are after
    it what they were before.  [kept] says so of one file, as long as keys
    are unique; [mine] says that a key names a row of the owner, if any. *)
From S2P Require Import Prelude GoTime GoText Encoding Errors Domain Lockout PendingLogins World Run Metrics Store.
From S2P Require Import Exec StoreFacts Password Totp Csrf Session AuthService.
#[local] Open Scope Z_scope.
#[local] Open Scope go_scope.

Section rows.
Context `{Env} {A : Type} (c : Coll (list A)) (key owner : A -> string) (me : string).

Definition others (l : list A) : list A := List.filter (fun x => owner x !=? me) l.

Definition kept (w0 w : World) : Prop :=
  forall rows, get c (w_disk w) = FData rows -> exists rows0, get c (w_disk w0) = FData rows0 /\
    (unique_by key rows0 -> unique_by key rows /\ others rows = others rows0).

Definition mine (w0 : World) (id : string) : Prop :=
  forall rows0 x, get c (w_disk w0) = FData rows0 -> unique_by key rows0 -> x ∈ rows0 ->
    key x = id -> owner x = me.

Lemma others_elem l x : x ∈ others l <-> x ∈ l /\ owner x <> me.
Proof.
  unfold others. rewrite !list_elem_of_In, filter_In. rewrite negb_true_iff, bool_decide_eq_false. done.
Qed.

Lemma others_app l l' : others (l ++ l') = others l ++ others l'.
Proof. apply List.filter_app. Qed.

Lemma others_mine x : owner x = me -> others [x] = [].
Proof. intros Hx. unfold others. cbn. by rewrite bool_decide_eq_true_2. Qed.

Lemma others_remove p l l' :
  remove_first p l = Some l' -> (forall x, x ∈ l -> p x = true -> owner x = me) -> others l' = others l.
Proof.
  intros (l1 & x & l2 & -> & -> & Hx & _)%remove_first_Some Hp.
  change (x :: l2) with ([x] ++ l2). rewrite !others_app, others_mine; [done|].
  apply Hp; [set_solver|done].
Qed.

Lemma others_replace p f l l' :
  replace_first p f l = Some l' ->
  (forall x, x ∈ l -> p x = true -> owner x = me /\ owner (f x) = me) -> others l' = others l.
Proof.
  intros (l1 & x & l2 & -> & -> & Hx & _)%replace_first_Some Hp.
  destruct (Hp x ltac:(set_solver) Hx). change (x :: l2) with ([x] ++ l2).
  change (f x :: l2) with ([f x] ++ l2). by rewrite !others_app, !others_mine.
Qed.

Lemma others_filter p l :
  (forall x, owner x <> me -> p x = true) -> others (List.filter p l) = others l.
Proof.
  intros Hp. unfold others. induction l as [|x l IH]; [done|]. cbn [List.filter].
  destruct (owner x !=? me) eqn:E.
  - rewrite Hp by (by bool_to_prop). cbn [List.filter]. by rewrite E, IH.
  - destruct (p x); [|done]. cbn [List.filter]. by rewrite E.
Qed.

Lemma others_map f l :
  (forall x, owner (f x) = owner x) -> (forall x, owner x <> me -> f x = x) -> others (map f l) = others l.
Proof.
  intros Ho Hf. unfold others. induction l as [|x l IH]; [done|]. cbn [map List.filter]. rewrite Ho.
  destruct (owner x !=? me) eqn:E; [|done]. rewrite IH, Hf; [done|by bool_to_prop].
Qed.

(** ** Staying in scope *)

Lemma kept_refl w : kept w w.
Proof. intros rows Hg. by exists rows. Qed.

Lemma kept_same w0 w w' : kept w0 w -> get c (w_disk w') = get c (w_disk w) -> kept w0 w'.
Proof. intros Hk Hg rows Hr. rewrite Hg in Hr. by apply Hk. Qed.

Lemma kept_frame cs w0 w w' : kept w0 w -> frame cs w w' -> name_of c ∉ cs -> kept w0 w'.
Proof. intros Hk Hf Hn. eapply kept_same; [exact Hk|by apply (frame_get _ _ _ _ Hf)]. Qed.

Lemma kept_upd {B} (f : Z -> string -> list A -> res (list A * B)) w0 w r w' :
  kept w0 w -> upd c f w r w' ->
  (forall rows0 t u rows rows' b, get c (w_disk w0) = FData rows0 -> unique_by key rows0 ->
     get c (w_disk w) = FData rows -> unique_by key rows -> others rows = others rows0 ->
     f t u rows = Ok (rows', b) -> unique_by key rows' /\ others rows' = others rows) ->
  kept w0 w'.
Proof.
  intros Hk Hu Hf. destruct r as [b|e].
  - apply upd_Ok in Hu as (rows & t & u & rows' & Hg & _ & _ & Hr & Hg'). intros x Hx.
    rewrite Hg' in Hx. injection Hx as <-. destruct (Hk rows Hg) as (rows0 & Hg0 & Hrel).
    exists rows0. split; [done|]. intros Hun. destruct (Hrel Hun) as [Hun' Ho].
    destruct (Hf _ _ _ _ _ _ Hg0 Hun Hg Hun' Ho Hr) as [Hun2 Ho2]. split; [done|by rewrite Ho2].
  - destruct (upd_Err_contents _ _ _ _ _ Hu) as [Hd|Hd]; [by eapply kept_same; [|rewrite Hd]|].
    intros rows Hr. congruence.
Qed.

(** A row under a key that is the owner's in [w0] is the owner's now. *)
Lemma mine_now w0 id rows0 rows x :
  mine w0 id -> get c (w_disk w0) = FData rows0 -> unique_by key rows0 -> others rows = others rows0 ->
  x ∈ rows -> key x = id -> owner x = me.
Proof.
  intros Hm Hg0 Hun Ho Hx Hid. destruct (decide (owner x = me)) as [|Hne]; [done|].
  assert (x ∈ others rows0) as [Hx0 _]%others_elem by (rewrite <-Ho; by apply others_elem).
  by apply (Hm rows0 x).
Qed.

(** What is found now under a key and is the owner's makes the key the
    owner's. *)
Lemma mine_found w0 w rows x :
  kept w0 w -> get c (w_disk w) = FData rows -> x ∈ rows -> owner x = me -> mine w0 (key x).
Proof.
  intros Hk Hg Hx Hox rows0 y Hg0 Hun Hy Hkey. destruct (Hk rows Hg) as (rows0' & Hg0' & Hrel).
  rewrite Hg0 in Hg0'. injection Hg0' as <-. destruct (Hrel Hun) as [Hun' Ho].
  destruct (decide (owner y = me)) as [|Hne]; [done|].
  assert (y ∈ others rows) as [Hy' _]%others_elem by (rewrite Ho; by apply others_elem).
  by rewrite (unique_by_elem key rows y x Hun' Hy' Hx Hkey).
Qed.

Lemma kept_remove (p : A -> bool) missing w0 w r w' :
  kept w0 w -> (forall x, p x = true -> owner x = me \/ mine w0 (key x)) ->
  upd c (rows_remove p missing) w r w' -> kept w0 w'.
Proof.
  intros Hk Hp Hu. eapply kept_upd; [exact Hk|exact Hu|].
  intros rows0 t u rows rows' b Hg0 Hun0 Hg Hun Ho Hf. unfold rows_remove in Hf.
  destruct (remove_first p rows) as [l|] eqn:Hr; [|done]. injection Hf as <- _.
  split; [by eapply unique_by_remove|]. eapply others_remove; [exact Hr|]. intros x Hx Hpx.
  destruct (Hp x Hpx) as [|Hm]; [done|]. by eapply mine_now.
Qed.

Lemma kept_replace {B} (p : A -> bool) (f : Z -> A -> A) (b : Z -> B) missing w0 w r w' :
  kept w0 w -> (forall x, p x = true -> owner x = me \/ mine w0 (key x)) ->
  (forall t x, p x = true -> key (f t x) = key x) -> (forall t x, owner x = me -> owner (f t x) = me) ->
  upd c (rows_replace p f b missing) w r w' -> kept w0 w'.
Proof.
  intros Hk Hp Hkey Hown Hu. eapply kept_upd; [exact Hk|exact Hu|].
  intros rows0 t u rows rows' b' Hg0 Hun0 Hg Hun Ho Hf. unfold rows_replace in Hf.
  destruct (replace_first p (f t) rows) as [l|] eqn:Hr; [|done]. injection Hf as <- _.
  split; [eapply unique_by_replace; [apply Hkey|exact Hr|exact Hun]|]. eapply others_replace; [exact Hr|].
  intros x Hx Hpx. assert (owner x = me) as Hm; [|split; [done|by apply Hown]].
  destruct (Hp x Hpx) as [|Hm]; [done|]. by eapply mine_now.
Qed.

Lemma kept_keep (p : Z -> A -> bool) w0 w r w' :
  kept w0 w -> (forall t x, owner x <> me -> p t x = true) ->
  upd c (rows_keep p) w r w' -> kept w0 w'.
Proof.
  intros Hk Hp Hu. eapply kept_upd; [exact Hk|exact Hu|].
  intros rows0 t u rows rows' b Hg0 Hun0 Hg Hun Ho Hf. unfold rows_keep in Hf. injection Hf as <- _.
  split; [|apply others_filter; auto]. eapply unique_by_sublist; [apply sublist_filter_list|exact Hun].
Qed.

Lemma kept_add (p : A -> bool) taken (x : Z -> A) w0 w r w' :
  kept w0 w -> (forall t, owner (x t) = me) -> (forall t y, key y = key (x t) -> p y = true) ->
  upd c (rows_add_unless p taken x) w r w' -> kept w0 w'.
Proof.
  intros Hk Hx Hp Hu. eapply kept_upd; [exact Hk|exact Hu|].
  intros rows0 t u rows rows' b Hg0 Hun0 Hg Hun Ho Hf. unfold rows_add_unless, rows_add in Hf.
  destruct (omap _ rows) eqn:E; [|done]. injection Hf as <- _. split.
  - apply unique_by_app_fresh; [done|]. intros y Hy Heq.
    assert (taken ∈ omap (fun x => if p x then Some taken else None) rows) as Hin.
    { apply list_elem_of_omap. exists y. split; [done|]. by rewrite (Hp t y Heq). }
    rewrite E in Hin. by apply not_elem_of_nil in Hin.
  - rewrite others_app, others_mine by done. apply app_nil_r.
Qed.
End rows.

(** ** Programs within an invariant

    [within I p P]: from a world where [I] holds, [p] ends in one where it
    holds, with a result that satisfies [P].  The tactic [scope] follows a
    program; the steps that matter to the invariant are lemmas registered in
    the hint database [scope], and footprints do the rest for the files the
    invariant is [Stable] under changes of. *)

Class Stable `{Env} (I : World -> Prop) (cs : list coll_name) : Prop :=
  stable w w' : I w -> frame cs w w' -> I w'.

Definition gives {A} (P : A -> Prop) (r : res A) : Prop := match r with Ok a => P a | Err _ => True end.

Section within.
Context `{Env} (I : World -> Prop).

Definition within {A} (p : Prog A) (P : A -> Prop) : Prop :=
  forall w, I w -> wp p w (fun a w' => I w' /\ P a).
Abbreviation safe p := (within p (fun _ => True)).

Lemma within_ret {A} (a : A) (P : A -> Prop) : P a -> within (Ret a) P.
Proof. intros Ha w Hw. by apply wp_ret. Qed.
Lemma within_bind {A B} (p : Prog A) (f : A -> Prog B) P Q :
  within p P -> (forall a, P a -> within (f a) Q) -> within (bind p f) Q.
Proof. intros Hp Hf w Hw. eapply wp_step; [by apply Hp|]. intros a w1 [Hw1 Ha]. by apply Hf. Qed.
Lemma within_weaken {A} (p : Prog A) (P Q : A -> Prop) :
  within p P -> (forall a, P a -> Q a) -> within p Q.
Proof. intros Hp HPQ w Hw. eapply wp_mono; [by apply Hp|]. intros a w' [? ?]. auto. Qed.
Lemma within_touches {A} cs (p : Prog A) : Stable I cs -> touches cs p -> safe p.
Proof. intros Hs Hp w Hw. eapply wp_mono; [apply Hp|]. intros a w' Hf. split; [by eapply Hs|done]. Qed.
Lemma within_and {A} (p : Prog A) (P : A -> Prop) :
  safe p -> (forall w, I w -> wp p w (fun a _ => P a)) -> within p P.
Proof.
  intros Hp HP w Hw. eapply wp_mono; [apply wp_and; [by apply Hp|by apply HP]|].
  intros a w' [[? _] ?]. done.
Qed.
Lemma within_try {A B} (p : Prog (res A)) (f : A -> Prog (res B)) P Q :
  within p (gives P) -> (forall a, P a -> within (f a) (gives Q)) -> within (let? a := p in f a) (gives Q).
Proof. intros Hp Hf. eapply within_bind; [exact Hp|]. intros [a|e] Ha; [by apply Hf|by apply within_ret]. Qed.
Lemma within_mapErr {A} g (p : Prog (res A)) P : within p (gives P) -> within (mapErr g p) (gives P).
Proof. intros Hp. eapply within_bind; [exact Hp|]. intros [a|e] Ha; by apply within_ret. Qed.
Lemma safe_ignore {A} (p : Prog A) P : within p P -> safe (ignore p).
Proof. intros Hp. eapply within_bind; [exact Hp|]. intros a _. by apply within_ret. Qed.
Lemma within_locked {A} cs l (p : Prog A) P : Stable I cs -> within p P -> within (locked l p) P.
Proof.
  intros Hs Hp. eapply within_bind; [by eapply within_touches; [|touch]|intros _ _].
  eapply within_bind; [exact Hp|]. intros a Ha.
  eapply within_bind; [by eapply within_touches; [|touch]|intros _ _]. by apply within_ret.
Qed.

Lemma safe_mapErr {A} g (p : Prog (res A)) : safe p -> safe (mapErr g p).
Proof. intros Hp. eapply within_bind; [exact Hp|]. intros [a|e] _; by apply within_ret. Qed.
End within.

(** Follows the program; what is left are the steps that neither the lemmas
    registered in [scope] nor the footprints cover. *)
Create HintDb scope discriminated.
#[export] Hint Constants Opaque : scope.
Ltac same_user :=
  unfold user_set_step, ClearTOTP; repeat case_match; autorewrite with user_id; first [assumption|reflexivity].
#[export] Hint Extern 3 (user_ID _ = _) => same_user : scope.
#[export] Hint Extern 3 (passkey_UserID _ = _) => (cbn [passkey_UserID]; assumption) : scope.

Ltac scope_leaf :=
  first [ solve [eauto 3 with scope nocore]
        | eapply within_touches; [typeclasses eauto|solve [touch]] ].
Ltac scope_gives :=
  repeat match goal with H : gives _ ?r |- _ => progress cbn [gives] in H end.
Ltac scope_ignore :=
  first [ solve [eapply safe_ignore; scope_leaf] | apply (safe_ignore _ _ (fun _ => True)) ].
Ltac scope_step :=
  lazymatch goal with
  | |- within _ (Ret _) _ => apply within_ret; try (cbn [gives fst snd]; first [exact I|assumption])
  | |- within _ (ret_ok _) _ => apply within_ret; try (cbn [gives fst snd]; first [exact I|assumption])
  | |- within _ (ret_err _) _ => apply within_ret; try (cbn [gives fst snd]; first [exact I|assumption])
  | |- within _ (bind (ignore _) _) _ =>
      eapply within_bind; [scope_ignore|intros _ _]
  | |- within _ (ignore _) _ => scope_ignore
  | |- within _ (locked _ _) _ => eapply within_locked; [typeclasses eauto|]
  | |- within _ (bind (mapErr _ _) _) _ =>
      eapply within_bind; [first [solve [eapply within_mapErr; scope_leaf] | solve [apply safe_mapErr; scope_leaf]
                                 |eapply within_mapErr]|intros [?|?] ?; scope_gives]
  | |- within _ (bind _ _) _ =>
      first [ eapply within_bind; [scope_leaf|intros ? ?]
            | eapply (within_bind _ _ _ (fun _ => True)); [|intros ? _] ]
  | |- within _ (let _ := _ in _) _ => cbv zeta
  | |- within _ (if ?a !=? ?b then _ else _) _ => destruct (decide (a = b)); [rewrite bool_decide_eq_true_2 by done|rewrite bool_decide_eq_false_2 by done]; cbn [negb]
  | |- within _ (if ?b then _ else _) _ => destruct b eqn:?
  | |- within _ (match ?x with _ => _ end) _ => destruct x eqn:?; scope_gives
  | |- within _ _ _ => scope_leaf
  end.
Ltac scope := repeat scope_step.


Lemma touches_HashPassword `{Env} `{Argon2} cs password : touches cs (HashPassword password).
Proof. unfold HashPassword, mapErr. touch. Qed.
#[export] Hint Resolve touches_HashPassword : touch.

Lemma touches_recovery_codes `{Env} `{UnicodeTables} cs n : touches cs (recovery_codes n).
Proof. induction n; cbn [recovery_codes]; unfold mapErr; touch. Qed.
Lemma touches_NewRecoveryCodes `{Env} `{UnicodeTables} cs : touches cs NewRecoveryCodes.
Proof. unfold NewRecoveryCodes. apply touches_recovery_codes. Qed.
#[export] Hint Extern 0 (touches _ NewRecoveryCodes) => exact (touches_NewRecoveryCodes _) : touch.
