(* ===== verification/AccountScope.v ===== *)
(** * The account page is scoped to its user

    Whatever a signed-in user posts to the account page, the users, sessions,
    refresh tokens, consents, passkeys and email links of everybody else are
    afterwards what they were. *)
From S2P Require Import Prelude GoTime GoText GoUrl Errors Domain Lockout PendingLogins.
From S2P Require Import World Run Store Exec StoreFacts Scope FileStore Keys Password Jwt Totp Csrf Session.
From S2P Require Import AuthService Passkeys Account Authorize TokenService Http LoginHandlers AccountHandlers.
From S2P Require Import TokenFacts AuthFacts SignIn SecondFactor PasskeyFacts LoginFacts Metrics.
#[local] Open Scope Z_scope.
#[local] Open Scope go_scope.

(** Nobody else's rows differ, and files that no account page has business
    with are as before. *)
Record scoped `{Env} (me : string) (w0 w : World) : Prop := {
  scope_users : kept CUsers user_ID user_ID me w0 w;
  scope_sessions : kept CSessions session_ID session_UserID me w0 w;
  scope_tokens : kept CTokens token_ID token_UserID me w0 w;
  scope_consents : kept CConsents consent_ID consent_UserID me w0 w;
  scope_passkeys : kept CPasskeys passkey_ID passkey_UserID me w0 w;
  scope_links : kept CVerification vt_TokenHash vt_UserID me w0 w;
  scope_rest : forall (A : Type) (c : Coll A), name_of c ∈ [NClients; NAuthCodes; NGroups; NKeys] ->
    get c (w_disk w) = get c (w_disk w0);
}.

(** Membership in a list of files, by evaluation. *)
Ltac absurd_file H := by (exfalso; revert H; apply (bool_decide_eq_false_1 _)).

(** A file the frame does not list. *)
Ltac scope_of_file Hf := by (eapply kept_frame; [done|exact Hf|by apply (bool_decide_eq_true_1 _)]).

Section scope.
Context `{StoreLaws} `{UnicodeTables} `{Argon2} `{WebAuthn} (me : string) (w0 : World).

Lemma scoped_refl : scoped me w0 w0.
Proof. split; try apply kept_refl. done. Qed.

(** Files that belong to nobody. *)
Lemma scoped_frame w w' : scoped me w0 w -> frame [NAudit; NRevocations] w w' -> scoped me w0 w'.
Proof.
  intros [] Hf. split; [scope_of_file Hf..|]. intros A c Hc. rewrite <-scope_rest0 by done.
  apply (frame_get _ _ _ _ Hf). destruct c; try (by apply (bool_decide_eq_true_1 _));
    absurd_file Hc.
Qed.

#[export] Instance scoped_stable : Stable (scoped me w0) [NAudit; NRevocations].
Proof. intros w w'. apply scoped_frame. Qed.

(** An update of one file that keeps the scope there. *)
Lemma scoped_upd {A B} (c : Coll A) (f : Z -> string -> A -> res (A * B)) w r w' :
  scoped me w0 w -> upd c f w r w' ->
  name_of c ∈ [NUsers; NSessions; NTokens; NConsents; NPasskeys; NVerification] ->
  (match c in Coll A' return (Prop) with
   | CUsers => kept CUsers user_ID user_ID me w0 w'
   | CSessions => kept CSessions session_ID session_UserID me w0 w'
   | CTokens => kept CTokens token_ID token_UserID me w0 w'
   | CConsents => kept CConsents consent_ID consent_UserID me w0 w'
   | CPasskeys => kept CPasskeys passkey_ID passkey_UserID me w0 w'
   | CVerification => kept CVerification vt_TokenHash vt_UserID me w0 w'
   | _ => True end) -> scoped me w0 w'.
Proof.
  intros [] Hu Hc Hk. pose proof (upd_frame _ _ _ _ _ Hu) as Hf.
  destruct c; try (absurd_file Hc);
    (split; [first [exact Hk|scope_of_file Hf]..|]);
    intros A' c' Hc'; rewrite <-scope_rest0 by done; apply (frame_get _ _ _ _ Hf);
    destruct c'; try (by apply (bool_decide_eq_true_1 _)); absurd_file Hc'.
Qed.

#[local] Abbreviation within := (within (scoped me w0)).
#[local] Abbreviation safe p := (within p (fun _ => True)).

(** ** The operations of the store, in scope *)

Lemma within_Users_Update u :
  user_ID u = me -> within (Users_Update u) (gives (fun u' => user_ID u' = me)).
Proof.
  intros Hu w Hw. eapply wp_mono; [apply law_Users_Update|]. intros r w' Hupd. cbn beta in Hupd. split.
  - eapply scoped_upd; [exact Hw|exact Hupd|set_solver|].
    eapply kept_replace; [exact (scope_users _ _ _ Hw)| | | |exact Hupd].
    + intros x Hx. left. cbn beta in Hx. bool_to_prop. congruence.
    + intros t x Hx. cbn beta in *. bool_to_prop. by rewrite user_set_updated_ID.
    + intros t x _. cbn beta. by rewrite user_set_updated_ID.
  - destruct r as [u'|e]; [|done]. apply upd_Ok in Hupd as (rows & t & id & rows' & _ & _ & _ & Hr & _).
    unfold rows_replace in Hr. case_match; simplify_eq. cbn. by rewrite user_set_updated_ID.
Qed.

Lemma safe_Sessions_Delete id : mine CSessions session_ID session_UserID me w0 id -> safe (Sessions_Delete id).
Proof.
  intros Hm w Hw. eapply wp_mono; [apply law_Sessions_Delete|]. intros r w' Hupd. cbn beta in Hupd.
  split; [|done]. eapply scoped_upd; [exact Hw|exact Hupd|set_solver|].
  eapply kept_remove; [exact (scope_sessions _ _ _ Hw)| |exact Hupd].
  intros x Hx. right. cbn beta in Hx. bool_to_prop. by rewrite Hx.
Qed.

Lemma safe_Sessions_DeleteByUserID u : u = me -> safe (Sessions_DeleteByUserID u).
Proof.
  intros -> w Hw. eapply wp_mono; [apply law_Sessions_DeleteByUserID|]. intros r w' Hupd. cbn beta in Hupd.
  split; [|done]. eapply scoped_upd; [exact Hw|exact Hupd|set_solver|].
  eapply kept_keep; [exact (scope_sessions _ _ _ Hw)| |exact Hupd].
  intros t x Hx. cbn beta. by rewrite bool_decide_eq_false_2.
Qed.

Lemma safe_Consents_Delete u clientID : u = me -> safe (Consents_Delete u clientID).
Proof.
  intros -> w Hw. eapply wp_mono; [apply law_Consents_Delete|]. intros r w' Hupd. cbn beta in Hupd.
  split; [|done]. eapply scoped_upd; [exact Hw|exact Hupd|set_solver|].
  eapply kept_remove; [exact (scope_consents _ _ _ Hw)| |exact Hupd].
  intros x Hx. left. unfold consent_of in Hx. bool_to_prop. tauto.
Qed.

Lemma safe_Passkeys_Delete u id : u = me -> safe (Passkeys_Delete u id).
Proof.
  intros -> w Hw. eapply wp_mono; [apply law_Passkeys_Delete|]. intros r w' Hupd. cbn beta in Hupd.
  split; [|done]. eapply scoped_upd; [exact Hw|exact Hupd|set_solver|].
  eapply kept_remove; [exact (scope_passkeys _ _ _ Hw)| |exact Hupd].
  intros x Hx. left. unfold passkey_of in Hx. bool_to_prop. tauto.
Qed.

Lemma safe_Passkeys_Create p : passkey_UserID p = me -> safe (Passkeys_Create p).
Proof.
  intros Hp w Hw. eapply wp_mono; [apply law_Passkeys_Create|]. intros r w' Hupd. cbn beta in Hupd.
  split; [|done]. eapply scoped_upd; [exact Hw|exact Hupd|set_solver|].
  eapply kept_add; [exact (scope_passkeys _ _ _ Hw)| | |exact Hupd].
  - intros t. by destruct p.
  - intros t y Hy. cbn beta in *. rewrite Hy. apply bool_decide_eq_true. by destruct p.
Qed.

Lemma safe_Verification_DeleteByUserID u purpose : u = me -> safe (Verification_DeleteByUserID u purpose).
Proof.
  intros -> w Hw. eapply wp_mono; [apply law_Verification_DeleteByUserID|]. intros r w' Hupd. cbn beta in Hupd.
  split; [|done]. eapply scoped_upd; [exact Hw|exact Hupd|set_solver|].
  eapply kept_keep; [exact (scope_links _ _ _ Hw)| |exact Hupd].
  intros t x Hx. cbn beta. by rewrite bool_decide_eq_false_2.
Qed.

(** Revoking refresh tokens, then the watermark. *)
Lemma scoped_revoke {B B'} (f : Z -> string -> list Token -> res (list Token * B))
    (g : B -> Z -> string -> list Revocation -> res (list Revocation * B')) w r w' :
  scoped me w0 w -> upd_then CTokens f CRevocations g w r w' ->
  (forall rows0 t u rows rows' b, get CTokens (w_disk w0) = FData rows0 -> unique_by token_ID rows0 ->
     get CTokens (w_disk w) = FData rows -> unique_by token_ID rows ->
     others token_UserID me rows = others token_UserID me rows0 -> f t u rows = Ok (rows', b) ->
     unique_by token_ID rows' /\ others token_UserID me rows' = others token_UserID me rows) ->
  scoped me w0 w'.
Proof.
  intros Hw (r1 & w1 & Hu & Hr) Hf.
  assert (scoped me w0 w1) as Hw1.
  { eapply scoped_upd; [exact Hw|exact Hu|set_solver|].
    eapply kept_upd; [exact (scope_tokens _ _ _ Hw)|exact Hu|exact Hf]. }
  destruct r1 as [b|e]; [|by destruct Hr as [_ ->]]. apply (scoped_frame w1); [done|].
  apply upd_frame in Hr. eapply frame_weaken; [|exact Hr]. set_solver.
Qed.

Lemma safe_Tokens_Revoke id : mine CTokens token_ID token_UserID me w0 id -> safe (Tokens_Revoke id).
Proof.
  intros Hm w Hw. eapply wp_mono; [apply law_Tokens_Revoke|]. intros r w' Hupd. cbn beta in Hupd.
  split; [|done]. eapply scoped_revoke; [exact Hw|exact Hupd|].
  intros rows0 t u rows rows' b Hg0 Hun0 Hg Hun Ho Hf. unfold rows_revoke_token in Hf.
  destruct (find_first _ rows) eqn:Hfind; [|done]. injection Hf as <- _.
  destruct (replace_first _ _ rows) as [l|] eqn:Hr; [|done]. cbn [default]. split.
  - eapply (unique_by_replace token_ID); [|exact Hr|exact Hun]. intros x _. by destruct x.
  - eapply (others_replace token_UserID); [exact Hr|]. intros x Hx Hpx. cbn beta in Hpx. bool_to_prop.
    assert (token_UserID x = me) by (by eapply (mine_now CTokens)). split; [done|]. by destruct x.
Qed.

Lemma safe_Tokens_RevokeByUserID u : u = me -> safe (Tokens_RevokeByUserID u).
Proof.
  intros -> w Hw. eapply wp_mono; [apply law_Tokens_RevokeByUserID|]. intros r w' Hupd. cbn beta in Hupd.
  split; [|done]. eapply scoped_revoke; [exact Hw|exact Hupd|].
  intros rows0 t u rows rows' b Hg0 Hun0 Hg Hun Ho Hf. injection Hf as <- _. unfold revoke_where. split.
  - apply unique_by_map; [intros x; by case_match; destruct x|done].
  - apply others_map; intros x; [by case_match; destruct x|]. intros Hx. by rewrite bool_decide_eq_false_2.
Qed.

(** ** What is read, in scope *)

Lemma within_Users_GetByID id : within (Users_GetByID id) (gives (fun u => user_ID u = id)).
Proof.
  apply within_and; [eapply within_touches; [apply scoped_stable|touch]|]. intros w _.
  eapply wp_mono; [apply law_Users_GetByID|]. intros [u|e] w' Hq; [|done]. cbn beta in Hq.
  apply qry_find in Hq as (rows & _ & [_ Hp]%find_first_Some). cbn beta in Hp. by bool_to_prop.
Qed.

Lemma within_Sessions_GetByID id : within (Sessions_GetByID id)
  (gives (fun s => session_UserID s = me -> mine CSessions session_ID session_UserID me w0 id)).
Proof.
  apply within_and; [eapply within_touches; [apply scoped_stable|touch]|]. intros w Hw.
  eapply wp_mono; [apply law_Sessions_GetByID|]. intros [x|e] w' Hq; [|done]. cbn beta in Hq.
  apply qry_find in Hq as (rows & Hg & [Hx Hp]%find_first_Some). cbn beta in Hp. bool_to_prop. subst id.
  intros Hme. eapply mine_found; [by apply scope_sessions|exact Hg|exact Hx|done].
Qed.

Lemma within_Tokens_GetByID id : within (Tokens_GetByID id)
  (gives (fun t => token_UserID t = me -> mine CTokens token_ID token_UserID me w0 id)).
Proof.
  apply within_and; [eapply within_touches; [apply scoped_stable|touch]|]. intros w Hw.
  eapply wp_mono; [apply law_Tokens_GetByID|]. intros [x|e] w' Hq; [|done]. cbn beta in Hq.
  apply qry_find in Hq as (rows & Hg & [Hx Hp]%find_first_Some). cbn beta in Hp. bool_to_prop. subst id.
  intros Hme. eapply mine_found; [by apply scope_tokens|exact Hg|exact Hx|done].
Qed.

Lemma within_Sessions_ListByUserID u : u = me -> within (Sessions_ListByUserID u)
  (gives (Forall (fun s => mine CSessions session_ID session_UserID me w0 (session_ID s)))).
Proof.
  intros ->. apply within_and; [eapply within_touches; [apply scoped_stable|touch]|]. intros w Hw.
  eapply wp_mono; [apply law_Sessions_ListByUserID|]. intros [l|e] w' Hq; [|done]. cbn beta in Hq.
  apply qry_Ok in Hq as (rows & t & Hg & _ & Hl). unfold rows_select in Hl. injection Hl as <-.
  apply List.Forall_forall. intros x [Hx Hp]%list_elem_of_In%sort_by_elem%list_elem_of_In%filter_In.
  apply andb_true_iff in Hp as [Hp _]. bool_to_prop.
  eapply mine_found; [by apply scope_sessions|exact Hg|by apply list_elem_of_In|done].
Qed.

Lemma within_Tokens_ListByUserID u : u = me -> within (Tokens_ListByUserID u)
  (gives (Forall (fun t => mine CTokens token_ID token_UserID me w0 (token_ID t)))).
Proof.
  intros ->. apply within_and; [eapply within_touches; [apply scoped_stable|touch]|]. intros w Hw.
  eapply wp_mono; [apply law_Tokens_ListByUserID|]. intros [l|e] w' Hq; [|done]. cbn beta in Hq.
  apply qry_Ok in Hq as (rows & t & Hg & _ & Hl). unfold rows_select in Hl. injection Hl as <-.
  apply List.Forall_forall. intros x [Hx Hp]%list_elem_of_In%sort_by_elem%list_elem_of_In%filter_In.
  apply andb_true_iff in Hp as [Hp _]. bool_to_prop.
  eapply mine_found; [by apply scope_tokens|exact Hg|by apply list_elem_of_In|done].
Qed.

End scope.

#[export] Hint Resolve within_Users_Update safe_Sessions_Delete safe_Sessions_DeleteByUserID safe_Consents_Delete
  safe_Passkeys_Delete safe_Passkeys_Create safe_Verification_DeleteByUserID safe_Tokens_Revoke
  safe_Tokens_RevokeByUserID within_Users_GetByID within_Sessions_GetByID within_Tokens_GetByID
  within_Sessions_ListByUserID within_Tokens_ListByUserID : scope.

#[local] Abbreviation safe me w0 p := (within (scoped me w0) p (fun _ => True)).

(** ** The services, in scope *)

Section services.
Context `{StoreLaws} `{UnicodeTables} `{Argon2} `{WebAuthn} (me : string) (w0 : World).

Abbreviation of_me := (fun u => user_ID u = me).

(** The session the browser's cookie names is the user's, if there is one. *)
Definition cookie_mine (cookies : list (string * string)) : Prop :=
  forall value, first_value SessionCookieName cookies = Some value ->
    mine CSessions session_ID session_UserID me w0 value.

Context (s : Service) (wa : bool).

Lemma safe_GetSession value :
  mine CSessions session_ID session_UserID me w0 value -> safe me w0 (GetSession value).
Proof. intros Hm. unfold GetSession. scope. Qed.

Lemma safe_GetSessionFromRequest rq : cookie_mine (r_cookies rq) -> safe me w0 (GetSessionFromRequest rq).
Proof. intros Hc. unfold GetSessionFromRequest. scope. apply safe_GetSession. by apply Hc. Qed.

Lemma safe_GetCurrentUser rq : cookie_mine (r_cookies rq) -> safe me w0 (GetCurrentUser rq).
Proof.
  intros Hc. unfold GetCurrentUser, CurrentSession. pose proof (safe_GetSessionFromRequest rq Hc). scope.
Qed.

Lemma safe_Logout rq : cookie_mine (r_cookies rq) -> safe me w0 (Logout s rq).
Proof.
  intros Hc. unfold Logout, DeleteSession, ClearSessionCookie. pose proof (safe_GetCurrentUser rq Hc). scope.
Qed.

Lemma within_guarded user check wrong :
  within (scoped me w0) check (gives (fun x => user_ID x.2 = me)) -> within (scoped me w0) (guarded s user check wrong) (gives of_me).
Proof. intros Hc. unfold guarded. scope. Qed.

Lemma within_VerifyCurrentPassword user password :
  user_ID user = me -> within (scoped me w0) (VerifyCurrentPassword s user password) (gives of_me).
Proof. intros Hu. apply within_guarded. by apply within_ret. Qed.

Lemma within_check_and_record rq code : within (scoped me w0) (check_and_record s rq me code) (gives (fun x => user_ID x.2 = me)).
Proof. unfold check_and_record. scope. Qed.

Lemma within_consumeSecondFactor rq user code :
  user_ID user = me -> within (scoped me w0) (consumeSecondFactor s rq user code) (gives (fun x => user_ID x.2 = me)).
Proof.
  intros Hu. unfold consumeSecondFactor. rewrite Hu. scope. apply within_check_and_record.
Qed.
#[local] Hint Resolve within_VerifyCurrentPassword within_guarded within_consumeSecondFactor : scope.

Lemma safe_EnableTOTP rq user password secret code :
  user_ID user = me -> safe me w0 (EnableTOTP s rq user password secret code).
Proof. intros Hu. unfold EnableTOTP. scope. Qed.

Lemma safe_DisableTOTP rq user code : user_ID user = me -> safe me w0 (DisableTOTP s rq user code).
Proof. intros Hu. unfold DisableTOTP. scope. Qed.

Lemma safe_RenewRecoveryCodes rq user code password :
  user_ID user = me -> safe me w0 (RenewRecoveryCodes s rq user code password).
Proof.
  intros Hu. unfold RenewRecoveryCodes.
  assert (within (scoped me w0) (if TOTPEnabled user then guarded s user (consumeSecondFactor s rq user code) ErrInvalidCode
    else VerifyCurrentPassword s user password) (gives of_me)) by scope.
  scope.
Qed.

Lemma safe_SetPassword user password : user_ID user = me -> safe me w0 (SetPassword user password).
Proof. intros Hu. unfold SetPassword. scope. Qed.

Lemma safe_BeginPasskeyRegistration user password :
  user_ID user = me -> safe me w0 (BeginPasskeyRegistration s wa user password).
Proof. intros Hu. unfold BeginPasskeyRegistration, load_webauthnUser. scope. Qed.

Lemma safe_FinishPasskeyRegistration rq user name response :
  user_ID user = me -> safe me w0 (FinishPasskeyRegistration s wa rq user name response).
Proof. intros Hu. unfold FinishPasskeyRegistration, take_registration, load_webauthnUser, store_passkey, ensure_recovery_codes. scope. Qed.

Lemma safe_RemovePasskey rq user id password :
  user_ID user = me -> safe me w0 (RemovePasskey s rq user id password).
Proof. intros Hu. unfold RemovePasskey. scope. Qed.
End services.

(** ** The page, in scope *)

#[export] Hint Resolve safe_GetSessionFromRequest safe_GetCurrentUser safe_Logout within_VerifyCurrentPassword
  safe_EnableTOTP safe_DisableTOTP safe_RenewRecoveryCodes safe_SetPassword safe_BeginPasskeyRegistration
  safe_FinishPasskeyRegistration safe_RemovePasskey : scope.

Section page.
Context `{StoreLaws} `{UnicodeTables} `{Argon2} `{WebAuthn} (h : AccountPageHandler).
Context (w0 : World) (user : User) (r : HttpRequest).
Context (Hc : cookie_mine (user_ID user) w0 (hr_cookies r)).

#[local] Abbreviation me := (user_ID user).

Lemma safe_found url : safe me w0 (found url).
Proof. by apply within_ret. Qed.
Lemma safe_done_page flash : safe me w0 (done_page flash).
Proof. apply safe_found. Qed.
#[local] Hint Resolve safe_found safe_done_page : scope.

Lemma safe_currentSessionID : safe me w0 (currentSessionID r).
Proof. unfold currentSessionID. scope. Qed.
#[local] Hint Resolve safe_currentSessionID : scope.

Lemma safe_base : safe me w0 (base h r user).
Proof. unfold base, GenerateToken. scope. Qed.
#[local] Hint Resolve safe_base : scope.

Lemma safe_render status msg : safe me w0 (render h r user status msg).
Proof. unfold render, user_passkeys. scope. Qed.
#[local] Hint Resolve safe_render : scope.

Lemma safe_record action detail : safe me w0 (record h r user action detail).
Proof. unfold record. scope. Qed.
#[local] Hint Resolve safe_record : scope.

Lemma safe_checkCSRF k :
  (forall rq, r_cookies rq = hr_cookies r -> safe me w0 (k rq)) -> safe me w0 (checkCSRF h r user k).
Proof.
  intros Hk. unfold checkCSRF, ParseForm. destruct (PostForm r) as [body ok], (ParseQuery _) as [query ok'].
  pose proof (Hk (with_form (body ++ query) r) eq_refl). scope.
Qed.

Lemma safe_jsonCSRF k :
  (forall rq, r_cookies rq = hr_cookies r -> safe me w0 (k rq)) -> safe me w0 (jsonCSRF h r k).
Proof.
  intros Hk. unfold jsonCSRF, ParseForm. destruct (PostForm _) as [body ok], (ParseQuery _) as [query ok'].
  pose proof (Hk (with_form (body ++ query) (limited r)) eq_refl). scope.
Qed.

Lemma safe_delete_others current l :
  Forall (fun s => mine CSessions session_ID session_UserID me w0 (session_ID s)) l ->
  safe me w0 (delete_others current l).
Proof. induction 1; cbn [delete_others]; scope. Qed.

Lemma safe_revoke_tokens_of clientID l :
  Forall (fun t => mine CTokens token_ID token_UserID me w0 (token_ID t)) l ->
  safe me w0 (revoke_tokens_of clientID l).
Proof. induction 1; cbn [revoke_tokens_of]; scope. Qed.

Lemma gives_ok_list {A} (P : A -> Prop) (x : res (list A)) : gives (Forall P) x -> Forall P (ok_list x).
Proof. destruct x; [done|constructor]. Qed.

(** ** Each handler *)

#[local] Hint Resolve gives_ok_list : scope.
#[local] Hint Resolve safe_delete_others safe_revoke_tokens_of : scope.

Lemma safe_RevokeSession : safe me w0 (RevokeSession h r user).
Proof. apply safe_checkCSRF. intros rq Hrq. pose proof Hc as Hc'. rewrite <-Hrq in Hc'. scope. Qed.

Lemma safe_RevokeOtherSessions : safe me w0 (RevokeOtherSessions h r user).
Proof. apply safe_checkCSRF. intros rq Hrq. scope. Qed.

Lemma safe_RevokeToken : safe me w0 (RevokeToken h r user).
Proof. apply safe_checkCSRF. intros rq Hrq. scope. Qed.

Lemma safe_RevokeConsent : safe me w0 (RevokeConsent h r user).
Proof. apply safe_checkCSRF. intros rq Hrq. scope. Qed.

Lemma safe_ChangePassword : safe me w0 (ChangePassword h r user).
Proof.
  unfold ChangePassword. destruct (aph_account h); [|by apply within_ret].
  apply safe_checkCSRF. intros rq Hrq. pose proof Hc as Hc'. rewrite <-Hrq in Hc'. scope.
Qed.

Lemma safe_TwoStepSetup : safe me w0 (TwoStepSetup h r user).
Proof. unfold TwoStepSetup, renderTwoStepSetup, NewTOTPSecret. scope. Qed.

Lemma safe_TwoStepEnable : safe me w0 (TwoStepEnable h r user).
Proof. apply safe_checkCSRF. intros rq Hrq. unfold renderTwoStepSetup, renderRecoveryCodes. scope. Qed.

Lemma safe_TwoStepDisable : safe me w0 (TwoStepDisable h r user).
Proof. apply safe_checkCSRF. intros rq Hrq. unfold twoStepError. scope. Qed.

Lemma safe_TwoStepRecoveryCodes : safe me w0 (TwoStepRecoveryCodes h r user).
Proof. apply safe_checkCSRF. intros rq Hrq. unfold twoStepError, renderRecoveryCodes. scope. Qed.

Lemma safe_PasskeyRegisterBegin : safe me w0 (PasskeyRegisterBegin h r user).
Proof. apply safe_jsonCSRF. intros rq Hrq. scope. Qed.

Lemma safe_PasskeyRegisterFinish : safe me w0 (PasskeyRegisterFinish h r user).
Proof. apply safe_jsonCSRF. intros rq Hrq. scope. Qed.

Lemma safe_PasskeyRemove : safe me w0 (PasskeyRemove h r user).
Proof. apply safe_checkCSRF. intros rq Hrq. scope. Qed.
End page.

(** ** Who is at the page *)

(** The session the browser's cookie names, if there is one, is [me]'s. *)
Definition cookie_of `{Env} (me : string) (w : World) (r : HttpRequest) : Prop :=
  forall value rows x, first_value SessionCookieName (hr_cookies r) = Some value ->
    get CSessions (w_disk w) = FData rows -> x ∈ rows -> session_ID x = value -> session_UserID x = me.

Section gate.
Context `{StoreLaws} `{UnicodeTables} `{Argon2} `{WebAuthn} (me : string) (w0 : World) (r : HttpRequest).
Context (Hr : cookie_of me w0 r).

Lemma cookie_of_mine : cookie_mine me w0 (hr_cookies r).
Proof. intros value Hv rows x Hg _ Hx Hid. by eapply Hr. Qed.

Lemma session_of_me :
  wp (GetSessionFromRequest (with_form [] r)) w0 (fun x w' => scoped me w0 w' /\
    gives (fun s => session_UserID s = me) x).
Proof.
  eapply wp_mono; [apply wp_and; [apply (safe_GetSessionFromRequest me w0 (with_form [] r) cookie_of_mine); apply scoped_refl|]|].
  2: { intros x w' [[Hs _] Hx]. split; [exact Hs|exact Hx]. }
  unfold GetSessionFromRequest, GetSession. destruct (Cookie _ _) as [value|] eqn:Hv; [|by apply wp_ret].
  eapply wp_try; [apply law_Sessions_GetByID| |done]. intros x w1 Hq. cbn beta in Hq.
  apply qry_find in Hq as (rows & Hg & [Hx Hp]%find_first_Some). cbn beta in Hp. bool_to_prop.
  apply wp_bind, wp_now. destruct (Session_IsExpired _ x).
  - apply wp_any. intros ? ?. by apply wp_ret.
  - apply wp_ret. by eapply Hr.
Qed.

Lemma user_of_me :
  wp (GetCurrentUser (with_form [] r)) w0 (fun x w' => scoped me w0 w' /\ gives (fun u => user_ID u = me) x).
Proof.
  assert (within (scoped me w0) (Users_GetByID me) (gives (fun u => user_ID u = me))) as Hu by scope.
  unfold GetCurrentUser, CurrentSession. apply wp_bind. eapply wp_step; [apply session_of_me|].
  intros [x|e] w1 [Hw1 Hx]; [|by apply wp_ret, wp_ret]. cbn [gives] in Hx. rewrite Hx.
  eapply wp_step; [by apply Hu|]. intros [u|e] w2 [Hw2 Hid]; [|by apply wp_ret, wp_ret].
  apply wp_if; intros _; by apply wp_ret, wp_ret.
Qed.

Lemma requireUser_scoped next :
  (forall user w, user_ID user = me -> scoped me w0 w ->
     wp (next r user) w (fun _ w' => scoped me w0 w' /\ True)) ->
  wp (requireUser next r) w0 (fun _ w' => scoped me w0 w').
Proof.
  intros Hn. eapply wp_step; [apply user_of_me|]. intros [u|e] w1 [Hw1 Hu]; [|by apply wp_ret].
  eapply wp_mono; [by apply Hn|]. by intros ? ? [? _].
Qed.

Lemma Account_Routes_scoped h x :
  x ∈ Account_Routes h -> wp (x.2 r) w0 (fun _ w' => scoped me w0 w').
Proof.
  pose proof cookie_of_mine as Hc. intros Hx. unfold Account_Routes in Hx.
  apply list_elem_of_fmap in Hx as ([[m p] next] & -> & Hx). cbn [fst snd].
  apply requireUser_scoped. intros user w Hu Hw. subst me. apply list_elem_of_In in Hx. cbn [In] in Hx.
  destruct_or! Hx; try done; injection Hx as _ _ <-; revert w Hw;
    first [ by apply safe_render | by apply safe_TwoStepSetup | by apply safe_RevokeSession
          | by apply safe_RevokeOtherSessions | by apply safe_RevokeToken | by apply safe_RevokeConsent
          | by apply safe_ChangePassword | by apply safe_TwoStepEnable | by apply safe_TwoStepDisable
          | by apply safe_TwoStepRecoveryCodes | by apply safe_PasskeyRegisterBegin
          | by apply safe_PasskeyRemove | by apply safe_PasskeyRegisterFinish ].
Qed.

(** Claim C29.  Whatever is requested from the account page, by a browser
    whose session is the user [me]'s: users, sessions, refresh tokens,
    consents, passkeys and email links of everybody else are afterwards what
    they were, and clients, groups, keys and authorization codes are
    untouched; identifiers in paths and forms cannot reach further. *)
Theorem account_page_scoped h method pattern handler :
  (method, pattern, handler) ∈ Account_Routes h ->
  let w' := (run (handler r) w0).2 in scoped me w0 w'.
Proof.
  intros Hx w'. subst w'. pose proof (Account_Routes_scoped h _ Hx) as Hwp. cbn [snd] in Hwp.
  destruct (run (handler r) w0) as [a w'] eqn:E. exact (wp_run _ _ _ _ _ Hwp E).
Qed.
End gate.
