(* ===== verification/KeyRotation.v ===== *)
(** * Key rotation

    The key file ([signing_keys.json]) and the operations of [KeyService] on
    it.  [keys_wf] is the invariant: key IDs are unique, only the key the
    file names is marked active, and it does not expire. *)
From S2P Require Import Prelude GoTime GoText Errors Domain Lockout PendingLogins World Run Store.
From S2P Require Import Exec FileStore FileLaws Keys Password Jwt Authorize TokenService TokenFacts Metrics.
#[local] Open Scope Z_scope.
#[local] Open Scope go_scope.

(** ** The invariant *)

Definition keys_wf (rows : list KeyPair) (active : string) : Prop :=
  unique_by kp_Kid rows /\
  forall k, k ∈ rows ->
    kp_stored k = k /\ kp_Kid k <> "" /\
    (kp_Active k = true <-> kp_Kid k = active) /\
    (kp_Kid k = active -> kp_ExpiresAt k = zero_time).

(** What rotation does to a row: the active one gets an end. *)
Definition retire (active : string) (t : Z) (k : KeyPair) : KeyPair :=
  kp_set_active false (if kp_Kid k ==? active then kp_set_expires t k else k).

Lemma retire_Kid active t k : kp_Kid (retire active t k) = kp_Kid k.
Proof. unfold retire. by destruct k, (_ ==? _). Qed.

Lemma stored_stored k : kp_stored (kp_stored k) = kp_stored k.
Proof. by destruct k. Qed.

Lemma map_stored rows : (forall k, k ∈ rows -> kp_stored k = k) -> map kp_stored rows = rows.
Proof.
  induction rows as [|k rows IH]; [done|]. simpl. intros Hs. rewrite (Hs k) by left.
  f_equal. apply IH. intros r Hr. apply Hs. by right.
Qed.

(** Writing a key over the one with its ID changes that row only. *)
Lemma keys_put_over k old rows :
  unique_by kp_Kid rows -> old ∈ rows -> kp_Kid k = kp_Kid old ->
  keys_put k rows = map (fun r => if kp_Kid r ==? kp_Kid k then k else r) rows.
Proof.
  intros Hu Hin Hk. unfold keys_put.
  assert (exists rows', replace_first (fun r => kp_Kid r ==? kp_Kid k) (fun _ => k) rows = Some rows')
    as [rows' E].
  { apply (replace_first_find _ _ _ old). rewrite Hk. by apply find_first_unique. }
  rewrite E. simpl. apply replace_first_Some in E as (l1 & x & l2 & -> & -> & Hx & Hl1).
  bool_to_prop. rewrite map_app. cbn [map]. rewrite bool_decide_eq_true_2 by done.
  assert (forall l, (forall r, r ∈ l -> kp_Kid r <> kp_Kid k) ->
          map (fun r => if kp_Kid r ==? kp_Kid k then k else r) l = l) as Hid.
  { clear. induction l as [|r l IH]; intros Hl; simpl; [done|].
    rewrite bool_decide_eq_false_2 by (apply Hl; left). f_equal. apply IH. intros y Hy. apply Hl. by right. }
  rewrite !Hid; [done| |].
  - unfold unique_by in Hu. rewrite fmap_app, fmap_cons in Hu.
    apply list.NoDup_app in Hu as (_ & _ & Hu). apply list.NoDup_cons in Hu as [Hn _].
    intros r Hr Heq. apply Hn, list_elem_of_fmap. exists r. split; [congruence|done].
  - intros r Hr. specialize (Hl1 r Hr). by bool_to_prop.
Qed.

Lemma keys_put_new k rows :
  (forall r, r ∈ rows -> kp_Kid r <> kp_Kid k) -> keys_put k rows = rows ++ [k].
Proof.
  intros Hf. unfold keys_put. destruct (replace_first _ _ rows) eqn:E; [|done].
  apply replace_first_Some in E as (l1 & x & l2 & -> & _ & Hx & _). bool_to_prop.
  by destruct (Hf x ltac:(set_solver)).
Qed.

(** Marking a new key active, after the file has it. *)
Lemma mark_active_new new rows :
  (forall r, r ∈ rows -> kp_Kid r <> kp_Kid new) ->
  mark_active (kp_Kid new) (rows ++ [new]) = map (kp_set_active false) rows ++ [kp_set_active true new].
Proof.
  intros Hf. unfold mark_active. rewrite map_app. simpl. rewrite bool_decide_eq_true_2 by done.
  f_equal. induction rows as [|r rows IH]; [done|]. simpl.
  rewrite bool_decide_eq_false_2 by (apply Hf; left). f_equal. apply IH. intros y Hy. apply Hf. by right.
Qed.

(** A new active key after rows that are not. *)
Lemma added_wf rows new :
  unique_by kp_Kid rows ->
  (forall r, r ∈ rows -> kp_stored r = r /\ kp_Kid r <> "" /\ kp_Active r = false /\
     kp_Kid r <> kp_Kid new) ->
  kp_Kid new <> "" -> kp_Active new = true -> kp_ExpiresAt new = zero_time ->
  keys_wf (rows ++ [kp_stored new]) (kp_Kid new).
Proof.
  intros Hu Hr Hne Ha He. assert (kp_Kid (kp_stored new) = kp_Kid new) as Hid by by destruct new.
  split.
  - apply unique_by_app_fresh; [done|]. intros y Hy. rewrite Hid. by apply Hr.
  - intros k [Hin| ->%list_elem_of_singleton]%elem_of_app.
    + destruct (Hr k Hin) as (Hs & Hn & Hact & Hk). split; [done|]. split; [done|].
      split; [|done]. rewrite Hact. by split.
    + rewrite stored_stored. by destruct new.
Qed.

Lemma map_wf f rows active :
  keys_wf rows active ->
  (forall k, kp_Kid (f k) = kp_Kid k /\ kp_Active (f k) = false /\
     (kp_stored k = k -> kp_stored (f k) = f k)) ->
  unique_by kp_Kid (map f rows) /\
  forall r, r ∈ map f rows -> kp_stored r = r /\ kp_Kid r <> "" /\ kp_Active r = false /\
    exists k, k ∈ rows /\ kp_Kid r = kp_Kid k.
Proof.
  intros [Hu Hk] Hf. split; [by apply unique_by_map; [intros k; apply Hf|]|].
  intros r (k & -> & Hin)%list_elem_of_fmap. destruct (Hf k) as (Hi & Ha & Hs).
  destruct (Hk k Hin) as (Hst & Hn & _). rewrite Hi. split; [by apply Hs|]. split; [done|].
  split; [done|]. by exists k.
Qed.

Section service.
Context `{StoreLaws} `{!EnvLaws} `{KeyLib} (s : KeyService).

(** Key IDs are identifiers made before. *)
Definition kids_made (w : World) (rows : list KeyPair) : Prop :=
  forall k, k ∈ rows -> exists n, (n < w_tick w)%nat /\ kp_Kid k = env_uuid n.

(** A new pair: fresh, active, without an end. *)
Definition new_key (w w' : World) (k : KeyPair) : Prop :=
  fresh_id w w' (kp_Kid k) /\ kp_Active k = true /\ kp_ExpiresAt k = zero_time.

Lemma serialize_fields kp priv pub k :
  serializeToPEM kp priv pub = Ok k ->
  kp_Kid k = kp_Kid kp /\ kp_Active k = kp_Active kp /\ kp_ExpiresAt k = kp_ExpiresAt kp.
Proof.
  unfold serializeToPEM. destruct (match priv with RSAPrivateKey _ => _ | _ => _ end); [|done].
  simpl. destruct (map_err _ _); [|done]. intros [= <-]. by destruct kp.
Qed.

Lemma newKeyPair_spec alg priv pub w :
  wp (newKeyPair alg priv pub) w (fun r w' => same_disk w w' /\ calm w w' /\
    match r with Ok k => new_key w w' k | Err _ => True end).
Proof.
  unfold newKeyPair. apply wp_bind, wp_uuid, wp_bind, wp_now, wp_ret.
  split; [split; [simpl; lia|done]|]. split; [repeat split; simpl; try done; lia|].
  destruct (serializeToPEM _ priv pub) as [k|e] eqn:E; [|done].
  apply serialize_fields in E as (Hk & Ha & He). simpl in *. split; [|done].
  exists (w_tick w). simpl. split; [lia|done].
Qed.

Lemma new_key_earlier w w1 w' k : (w_tick w <= w_tick w1)%nat -> new_key w1 w' k -> new_key w w' k.
Proof. intros Ht [(n & ? & ?) ?]. split; [|done]. exists n. split; [lia|done]. Qed.

Lemma seeded_spec {A} n (f : res (list Z) -> res A) (k : A -> Prog (res KeyPair)) w :
  (forall a w0, wp (k a) w0 (fun r w' => same_disk w0 w' /\ calm w0 w' /\
     match r with Ok k => new_key w0 w' k | Err _ => True end)) ->
  wp (let! seed := randRead n in
      match f seed with Ok a => k a | Err e => ret_err e end) w
    (fun r w' => same_disk w w' /\ calm w w' /\
       match r with Ok k => new_key w w' k | Err _ => True end).
Proof.
  intros Hk. apply wp_bind, wp_intro. intros seed w1 Hr. simpl in Hr. injection Hr as _ <-.
  assert (same_disk w (ticked 1 w) /\ calm w (ticked 1 w)) as [Hs Hc].
  { split; [split; [simpl; lia|done]|]. repeat split; simpl; try done; lia. }
  destruct (f seed); [|by apply wp_ret].
  eapply wp_mono; [apply Hk|]. intros r w2 (Hs2 & Hc2 & Hn).
  split; [by etransitivity|]. split; [by etransitivity|].
  destruct r; [|done]. eapply new_key_earlier; [|exact Hn]. simpl. lia.
Qed.

Lemma GenerateKeyPairForAlg_spec alg w :
  wp (GenerateKeyPairForAlg alg) w (fun r w' => same_disk w w' /\ calm w w' /\
    match r with Ok k => new_key w w' k | Err _ => True end).
Proof.
  unfold GenerateKeyPairForAlg, GenerateKeyPair.
  apply wp_if; intros _; [|apply wp_if; intros _; [|by apply wp_ret]].
  - apply (seeded_spec 32 (fun seed => map_err _ (res_bind seed _))
             (fun p => let '(priv, pub) := p in newKeyPair AlgRS256 (RSAPrivateKey priv) (RSAPublicKey pub))).
    intros [priv pub] w0. apply newKeyPair_spec.
  - apply (seeded_spec 32 (fun seed => map_err _ (res_bind seed _))
             (fun p => let '(priv, pub) := p in newKeyPair AlgEdDSA (Ed25519PrivateKey priv) (Ed25519PublicKey pub))).
    intros [priv pub] w0. apply newKeyPair_spec.
Qed.

Lemma generate_and_activate_spec k rows active w :
  get CKeys (w_disk w) = FData (rows, active) -> (forall r, r ∈ rows -> kp_stored r = r) ->
  (forall r, r ∈ rows -> kp_Kid r <> kp_Kid k) -> kp_Active k = true ->
  wp (generate_and_activate k) w (fun r w' => forall k', r = Ok k' -> k' = k /\
    (w_tick w <= w_tick w')%nat /\
    get CKeys (w_disk w') = FData (map (kp_set_active false) rows ++ [kp_stored k], kp_Kid k) /\
    (m_keyCache (w_mem w')).1 = Some k).
Proof.
  intros Hg Hst Hf Hact. unfold generate_and_activate.
  eapply wp_try_map; [apply law_Keys_Save| |done]. intros [] w1 Hu. cbn beta in Hu.
  pose proof (frame_tick _ _ _ (upd_frame _ _ _ _ _ Hu)) as Ht1.
  apply upd_Ok in Hu as (a & t1 & u1 & a' & Ha & _ & _ & [= <-] & Hg1).
  rewrite Ha in Hg. injection Hg as ->. cbn [fst snd] in Hg1. rewrite keys_put_new in Hg1 by done.
  rewrite map_app, map_stored in Hg1 by done. cbn [map] in Hg1.
  eapply wp_try_map; [apply law_Keys_SetActive| |done]. intros [] w2 Hu. cbn beta in Hu.
  pose proof (frame_tick _ _ _ (upd_frame _ _ _ _ _ Hu)) as Ht2.
  apply upd_Ok in Hu as (a & t2 & u2 & a' & Ha2 & _ & _ & Hr & Hg2). rewrite Hg1 in Ha2.
  injection Ha2 as <-. unfold rows_activate_key in Hr. cbn [fst snd] in Hr.
  case_match; [|done]. injection Hr as <-.
  replace (kp_Kid k) with (kp_Kid (kp_stored k)) in Hg2 by by destruct k.
  rewrite mark_active_new, map_app, map_stored in Hg2.
  - apply wp_bind, wp_intro. intros [] w3 Hr. cbn in Hr. injection Hr as <-. apply wp_ret.
    intros k' [= <-]. split; [done|]. split; [simpl in *; lia|]. split; [|done].
    cbn [ticked with_mem w_disk]. rewrite Hg2. by destruct k; simpl in *; subst.
  - intros r Hr. apply list_elem_of_fmap in Hr as (x & -> & Hx). pose proof (Hst x Hx) as Hs.
    destruct x; simpl in *. congruence.
  - intros r Hr. destruct k; simpl in *. by apply Hf.
Qed.

(** The old key after the first half of a rotation. *)
Definition retired (expiresIn : Z) (w w' : World) (rows rows' : list KeyPair) (active : string) : Prop :=
  (exists t, instant w w' t /\
     rows' = map (fun r => if kp_Kid r ==? active then kp_set_active false (kp_set_expires (Add t expiresIn) r)
                           else r) rows) \/
  (rows' = rows /\ ((forall k, k ∈ rows -> kp_Kid k <> active) \/ fault CKeys w w')).

Lemma retire_old_spec expiresIn rows active w :
  get CKeys (w_disk w) = FData (rows, active) -> keys_wf rows active ->
  wp (let! old := Keys_GetActive in
      match old with
      | Ok oldKey =>
          let! t := now in
          mapErr (Errorf "failed to update old key")
            (Keys_Save (kp_set_expires (Add t expiresIn) (kp_set_active false oldKey)))
      | Err _ => ret_ok tt
      end) w (fun r w' => r = Ok tt -> (w_tick w <= w_tick w')%nat /\
    exists rows', get CKeys (w_disk w') = FData (rows', active) /\
      retired expiresIn w w' rows rows' active).
Proof.
  intros Hg [Hu Hk]. eapply wp_step; [apply law_Keys_GetActive|]. intros [old|e] w1 Hq; cbn beta in Hq.
  - pose proof (qry_same _ _ _ _ _ Hq) as [Ht1 Hd1].
    apply qry_Ok in Hq as (a & t & Ha & _ & Hr). rewrite Ha in Hg. injection Hg as ->.
    unfold rows_active_key, find_or in Hr. cbn [fst snd] in Hr.
    destruct (active ==? "") eqn:Eact; [done|]. destruct (find_first _ rows) as [k|] eqn:Ek; [|done].
    injection Hr as ->. apply find_first_Some in Ek as [Hin Hkid]. bool_to_prop.
    apply wp_bind, wp_now, wp_mapErr. eapply wp_mono; [apply law_Keys_Save|].
    intros r w2 Hup Hr. destruct r as [[]|e]; [|done].
    pose proof (frame_tick _ _ _ (upd_frame _ _ _ _ _ Hup)) as Ht2. simpl in Ht2.
    apply upd_Ok in Hup as (a & t2 & u2 & a' & Ha2 & _ & _ & [= <-] & Hg2).
    cbn [ticked w_disk] in Ha2. rewrite Hd1, Ha in Ha2. injection Ha2 as <-. cbn [fst snd] in Hg2.
    split; [lia|]. eexists. split; [exact Hg2|]. left. exists (env_clock (w_tick w1)).
    split; [exists (w_tick w1); split; [lia|done]|].
    rewrite (keys_put_over _ old rows Hu Hin) by by destruct old.
    rewrite map_map. apply map_ext_in. intros x Hx. apply list_elem_of_In in Hx.
    replace (kp_Kid (kp_set_expires _ (kp_set_active false old))) with (kp_Kid old) by by destruct old.
    rewrite Hkid. destruct (kp_Kid x ==? active) eqn:Ex; bool_to_prop; [|by apply Hk].
    rewrite (unique_by_elem _ _ x old Hu Hx Hin) by congruence.
    destruct (Hk old Hin) as [Hs _]. clear -Hs. destruct old. cbv in Hs |- *. congruence.
  - apply wp_ret. intros _. pose proof (qry_same _ _ _ _ _ Hq) as [Ht1 Hd1]. split; [done|].
    exists rows. split; [by rewrite Hd1|]. right. split; [done|].
    destruct Hq as (_ & _ & [(a & t & Ha & _ & Hr)|(e' & _ & _ & Hf)]); [left|by right].
    rewrite Ha in Hg. injection Hg as ->. unfold rows_active_key, find_or in Hr. cbn [fst snd] in Hr.
    destruct (active ==? "") eqn:Eact; bool_to_prop.
    + intros k Hin. subst. by apply Hk.
    + destruct (find_first _ rows) as [k|] eqn:Ek; [done|]. intros k Hin.
      pose proof (proj1 (find_first_None _ _) Ek k Hin) as Hn. cbn beta in Hn. by bool_to_prop.
Qed.

(** The rows of the old keys after a rotation: retired, or, when the file
    named no key or reading it failed, only marked inactive. *)
Definition outdated (expiresIn : Z) (w w' : World) (rows rows' : list KeyPair) (active : string) : Prop :=
  (exists t, instant w w' t /\ rows' = map (retire active (Add t expiresIn)) rows) \/
  (rows' = map (kp_set_active false) rows /\
   ((forall k, k ∈ rows -> kp_Kid k <> active) \/ fault CKeys w w')).

Lemma retired_outdated expiresIn w w' rows rows' active :
  keys_wf rows active -> retired expiresIn w w' rows rows' active ->
  outdated expiresIn w w' rows (map (kp_set_active false) rows') active /\
  (forall r, r ∈ rows' -> kp_stored r = r /\ exists k, k ∈ rows /\ kp_Kid r = kp_Kid k).
Proof.
  intros [Hu Hk] [(t & Ht & ->)|[-> Hcase]].
  - split.
    + left. exists t. split; [done|]. rewrite map_map. apply map_ext. intros r. unfold retire.
      by destruct r, (_ ==? _).
    + intros r Hr. apply list_elem_of_fmap in Hr as (k & -> & Hin). destruct (Hk k Hin) as [Hs _].
      split; [|exists k; split; [done|by destruct k, (_ ==? _)]].
      clear -Hs. destruct k, (_ ==? _); cbv in Hs |- *; congruence.
  - split; [by right|]. intros r Hr. destruct (Hk r Hr) as [Hs _]. split; [done|by exists r].
Qed.

Lemma outdated_rows expiresIn w w' rows rows' active :
  keys_wf rows active -> outdated expiresIn w w' rows rows' active ->
  unique_by kp_Kid rows' /\
  forall r, r ∈ rows' -> kp_stored r = r /\ kp_Kid r <> "" /\ kp_Active r = false /\
    exists k, k ∈ rows /\ kp_Kid r = kp_Kid k.
Proof.
  intros Hwf [(t & _ & ->)|[-> _]]; eapply map_wf; try exact Hwf; intros k.
  - split; [apply retire_Kid|]. unfold retire.
    split; [by destruct k, (_ ==? _)|]. intros Hs. destruct k, (_ ==? _); cbv in Hs |- *; congruence.
  - destruct k. split; [done|]. split; [done|]. cbv. congruence.
Qed.

Lemma made_other w w' rows kid :
  kids_made w rows -> fresh_id w w' kid -> forall r, r ∈ rows -> kp_Kid r <> kid.
Proof.
  intros Hm (n & Hn & ->) r Hr Heq. destruct (Hm r Hr) as (m & Hm' & Hk).
  rewrite Hk in Heq. apply uuid_inj in Heq. lia.
Qed.

Lemma outdated_later expiresIn w w1 w2 w' rows rows' active :
  w_disk w1 = w_disk w -> (w_tick w <= w_tick w1)%nat -> (w_tick w2 <= w_tick w')%nat ->
  outdated expiresIn w1 w2 rows rows' active -> outdated expiresIn w w' rows rows' active.
Proof.
  intros Hd Hle1 Hle2 [(t & (n & Hn & ->) & Hr)|[Hr [Hk|[Hf|(n & Hn & Hne)]]]].
  - left. exists (env_clock n). split; [|done]. exists n. split; [lia|done].
  - right. split; [done|]. by left.
  - right. split; [done|]. right. left. by rewrite <-Hd.
  - right. split; [done|]. right. right. exists n. split; [lia|done].
Qed.

(** Claim C23.  A rotation leaves every key in the file: the old active one is
    given its grace period and is no longer active (unless it could not be
    read), the others are kept as they were, and the new pair is the only
    active one, is named by the file and is the one tokens are signed with.
    The file keeps its invariant. *)
Theorem rotation_keeps_keys expiresIn w new w' rows active :
  run (RotateKey s expiresIn) w = (Ok new, w') ->
  get CKeys (w_disk w) = FData (rows, active) -> keys_wf rows active -> kids_made w rows ->
  new_key w w' new /\ (m_keyCache (w_mem w')).1 = Some new /\
  exists rows', get CKeys (w_disk w') = FData (rows' ++ [kp_stored new], kp_Kid new) /\
    outdated expiresIn w w' rows rows' active /\
    keys_wf (rows' ++ [kp_stored new]) (kp_Kid new) /\ kids_made w' (rows' ++ [kp_stored new]).
Proof.
  intros Hrun Hg Hwf Hm. pattern new, w'. eapply run_Ok; [exact Hrun|]. clear Hrun.
  apply wp_locked. eapply wp_try_assoc; [by apply (retire_old_spec expiresIn rows active)| |done].
  intros [] w1 Hold.
  destruct (Hold eq_refl) as (Ht1 & rows1 & Hg1 & Hret). cbn [ticked with_held w_tick] in Ht1.
  destruct (retired_outdated _ _ _ _ _ _ Hwf Hret) as [Hout Hrows1].
  eapply wp_try_map; [apply GenerateKeyPairForAlg_spec| |done].
  intros k w2 ([Ht2 Hd2] & _ & Hnew). rewrite <-Hd2 in Hg1.
  pose proof (new_key_earlier w w1 w2 k ltac:(simpl in *; lia) Hnew) as (Hfresh & Hact & Hexp).
  pose proof (made_other _ _ _ _ Hm Hfresh) as Hother.
  assert (kp_Kid k <> "") as Hne by (destruct Hfresh as (n & _ & ->); apply uuid_nonempty).
  eapply wp_mono; [eapply generate_and_activate_spec; [exact Hg1|by intros; apply Hrows1| |done]|].
  { intros r Hr. destruct (Hrows1 r Hr) as [_ (k0 & Hk0 & ->)]. by apply Hother. }
  intros [k'|e] w3 Hpost; [|done]. destruct (Hpost k' eq_refl) as (-> & Ht3 & Hg3 & Hc3).
  split; [|split; [done|]].
  { split; [|done]. destruct Hfresh as (n & Hn & Hkn). exists n. simpl. split; [lia|done]. }
  exists (map (kp_set_active false) rows1). split; [exact Hg3|].
  split; [eapply outdated_later; [| | |exact Hout]; simpl; [done|lia|lia]|].
  destruct (outdated_rows _ _ _ _ _ _ Hwf Hout) as [Hu' Hr']. split.
  - apply added_wf; [done| |done..]. intros r Hr. destruct (Hr' r Hr) as (? & ? & ? & k0 & Hk0 & Hid).
    split_and!; try done. rewrite Hid. by apply Hother.
  - intros r [Hr| ->%list_elem_of_singleton]%elem_of_app.
    + destruct (Hr' r Hr) as (_ & _ & _ & k0 & Hk0 & ->). destruct (Hm k0 Hk0) as (n & Hn & ->).
      exists n. simpl. split; [lia|done].
    + destruct Hfresh as (n & Hn & Hkn). exists n. simpl. split; [lia|by destruct k].
Qed.

(** ** Cleanup *)

Lemma remove_row kid rows :
  unique_by kp_Kid rows ->
  forall rows', remove_first (fun k => kp_Kid k ==? kid) rows = Some rows' ->
  unique_by kp_Kid rows' /\ forall k, k ∈ rows' <-> k ∈ rows /\ kp_Kid k <> kid.
Proof.
  intros Hu rows' E. split; [by eapply unique_by_remove|].
  apply remove_first_Some in E as (l1 & x & l2 & -> & -> & Hx & Hl1). bool_to_prop.
  unfold unique_by in Hu. rewrite fmap_app, fmap_cons in Hu.
  apply list.NoDup_app in Hu as (_ & _ & Hu). apply list.NoDup_cons in Hu as [Hn _].
  intros k. rewrite !elem_of_app, elem_of_cons. split.
  - intros [Hk|Hk].
    + split; [by left|]. specialize (Hl1 k Hk). by bool_to_prop.
    + split; [by do 2 right|]. intros Heq. apply Hn, list_elem_of_fmap. exists k. split; [congruence|done].
  - intros [[Hk|[->|Hk]] Hne]; [by left|done|by right].
Qed.

(** What a cleanup may and must remove: [gone] is sound and, for keys that
    had expired when it began, complete. *)
Definition cleaned (w w' : World) (l rows rows' : list KeyPair) : Prop :=
  (forall k, k ∈ rows' -> k ∈ rows) /\
  (forall k, k ∈ rows -> k ∈ rows' \/
     (kp_Active k = false /\ exists t, instant w w' t /\ KeyPair_IsExpired t k = true)) /\
  (forall k, k ∈ l -> k ∈ rows' ->
     kp_Active k = true \/ KeyPair_IsExpired (env_clock (w_tick w)) k = false).

Lemma IsExpired_later t t' k : t <= t' -> KeyPair_IsExpired t k = true -> KeyPair_IsExpired t' k = true.
Proof.
  unfold KeyPair_IsExpired, After. destruct (IsZero _); [done|]. rewrite !Z.ltb_lt. lia.
Qed.

Lemma cleaned_widen w0 w w1 w' l rows rows' :
  (w_tick w0 <= w_tick w)%nat -> (w_tick w1 <= w_tick w')%nat ->
  cleaned w w1 l rows rows' -> cleaned w0 w' l rows rows'.
Proof.
  intros Ht Ht' (Hs & Hg & Hc). split; [done|]. split.
  - intros k Hk. destruct (Hg k Hk) as [?|(Ha & t & (n & Hn & ->) & He)]; [by left|right].
    split; [done|]. exists (env_clock n). split; [exists n; split; [lia|done]|done].
  - intros k Hl Hk. destruct (Hc k Hl Hk) as [?|He]; [by left|right].
    destruct (KeyPair_IsExpired (env_clock (w_tick w0)) k) eqn:E; [|done].
    rewrite (IsExpired_later _ (env_clock (w_tick w)) _ (clock_mono _ _ Ht) E) in He. done.
Qed.

Lemma delete_expired_spec l rows active w :
  get CKeys (w_disk w) = FData (rows, active) -> unique_by kp_Kid rows ->
  (forall k, k ∈ rows -> kp_stored k = k /\ (kp_Kid k = active -> kp_Active k = true)) ->
  (forall k r, k ∈ l -> r ∈ rows -> kp_Kid k = kp_Kid r -> k = r) ->
  wp (delete_expired l) w (fun r w' => r = Ok tt -> (w_tick w <= w_tick w')%nat /\
    exists rows', get CKeys (w_disk w') = FData (rows', active) /\ unique_by kp_Kid rows' /\
      cleaned w w' l rows rows').
Proof.
  revert rows w. induction l as [|k l IH]; intros rows w Hg Hu Hr Hl; cbn [delete_expired].
  { apply wp_ret. intros _. split; [done|]. exists rows.
    split; [done|]. split; [done|]. split; [done|]. split; [by left|]. intros k Hk. set_solver. }
  apply wp_bind, wp_now. destruct (KeyPair_IsExpired _ k && negb (kp_Active k)) eqn:E.
  - apply andb_true_iff in E as [Eexp Eact]. bool_to_prop.
    eapply wp_try_map; [apply law_Keys_Delete| |done]. intros [] w1 Hup. cbn beta in Hup.
    pose proof (frame_tick _ _ _ (upd_frame _ _ _ _ _ Hup)) as Ht1. simpl in Ht1.
    apply upd_Ok in Hup as (a & t1 & u1 & a' & Ha & _ & _ & Hf & Hg1).
    cbn [ticked w_disk] in Ha. rewrite Ha in Hg. injection Hg as ->.
    unfold rows_delete_key in Hf. cbn [fst snd] in Hf.
    destruct (remove_first _ rows) as [rows1|] eqn:Erm; [|done]. injection Hf as <-.
    destruct (remove_row _ _ Hu _ Erm) as [Hu1 Hin1].
    rewrite map_stored in Hg1 by (intros r Hr1; apply Hr; by apply Hin1).
    assert (exists r, r ∈ rows /\ kp_Kid r = kp_Kid k) as (r0 & Hr0 & Hid0).
    { apply remove_first_Some in Erm as (l1 & x & l2 & -> & _ & Hx & _). bool_to_prop.
      exists x. split; [set_solver|done]. }
    assert (k = r0) as <- by (apply Hl; [by left|done|done]).
    assert (kp_Kid k <> active) as Hna by (intros Heq; destruct (Hr k Hr0) as [_ H']; rewrite H' in Eact; done).
    rewrite bool_decide_eq_false_2 in Hg1 by congruence.
    eapply wp_mono; [apply (IH rows1); [exact Hg1|done| |]|].
    + intros r Hr1. by apply Hr, Hin1.
    + intros k' r Hk' Hr1. apply Hl; [by right|by apply Hin1].
    + intros r w2 Hpost Hok. destruct (Hpost Hok) as (Ht2 & rows2 & Hg2 & Hu2 & Hcl).
      split; [lia|]. exists rows2. split; [done|]. split; [done|].
      apply (cleaned_widen w _ _ w2) in Hcl; [|lia|lia]. destruct Hcl as (Hs & Hgone & Hc).
      split; [intros x Hx; by apply Hin1, Hs|]. split.
      * intros x Hx. destruct (decide (kp_Kid x = kp_Kid k)) as [Heq|Hne].
        -- right. assert (k = x) as <- by (apply Hl; [by left|done|done]). split; [done|].
           exists (env_clock (w_tick w)). split; [exists (w_tick w); split; [lia|done]|done].
        -- apply Hgone, Hin1. by split.
      * intros x [->|Hx]%elem_of_cons Hx2; [|by apply Hc]. apply Hs, Hin1 in Hx2. by destruct Hx2.
  - eapply wp_mono; [apply (IH rows); [exact Hg|done|done|]|].
    { intros k' r Hk' Hr1. apply Hl; [by right|done]. }
    intros r w2 Hpost Hok. destruct (Hpost Hok) as (Ht2 & rows2 & Hg2 & Hu2 & Hcl). simpl in Ht2.
    split; [lia|]. exists rows2. split; [done|]. split; [done|].
    apply (cleaned_widen w _ _ w2) in Hcl; [|simpl; lia|lia]. destruct Hcl as (Hs & Hgone & Hc).
    split; [done|]. split; [done|]. intros x [->|Hx]%elem_of_cons Hx2; [|by apply Hc].
    apply andb_false_iff in E as [E|E]; [by right|left]. by bool_to_prop.
Qed.

(** A cleanup removes exactly keys that have expired: it never
    removes the active key or one inside its grace period, removes every
    inactive key that had expired when it began, and keeps the invariant. *)
Theorem cleanup_removes_expired w w' rows active :
  run CleanupExpiredKeys w = (Ok tt, w') ->
  get CKeys (w_disk w) = FData (rows, active) -> keys_wf rows active ->
  exists rows', get CKeys (w_disk w') = FData (rows', active) /\ keys_wf rows' active /\
    cleaned w w' rows rows rows' /\ forall k, k ∈ rows -> kp_Kid k = active -> k ∈ rows'.
Proof.
  intros Hrun Hg [Hu Hk].
  refine (wp_run _ w (fun r w' => r = Ok tt -> _) _ _ _ Hrun eq_refl). clear Hrun w'.
  apply wp_locked. eapply wp_try; [apply law_Keys_GetAll| |done]. intros l w1 Hq. cbn beta in Hq.
  pose proof (qry_same _ _ _ _ _ Hq) as [Ht1 Hd1].
  apply qry_Ok in Hq as (a & t & Ha & _ & [= <-]). cbn [ticked with_held w_disk] in Ha, Hd1.
  rewrite Hg in Ha. injection Ha as <-. cbn [fst].
  eapply wp_mono; [apply (delete_expired_spec rows rows active); [by rewrite Hd1|done| |]|].
  - intros k Hin. destruct (Hk k Hin) as (? & _ & Hact & _). split; [done|apply Hact].
  - intros k r Hin Hr Heq. by apply (unique_by_elem _ _ k r Hu).
  - intros r w2 Hpost Hok. destruct (Hpost Hok) as (Ht2 & rows2 & Hg2 & Hu2 & Hcl).
    exists rows2. split; [done|]. apply (cleaned_widen w _ _ (ticked 1 w2)) in Hcl; [|simpl in *; lia..].
    pose proof Hcl as (Hs & Hgone & _). split; [|split].
    + split; [done|]. intros k Hin. by apply Hk, Hs.
    + exact Hcl.
    + intros k Hin Heq. destruct (Hgone k Hin) as [?|[Hact _]]; [done|].
      destruct (Hk k Hin) as (_ & _ & Ha & _). rewrite (proj2 Ha Heq) in Hact. done.
Qed.
End service.
