(* ===== verification/CutOff.v ===== *)
(** * Cutting off a grant: revokeGrant and what reuse of a code or token does

    [revokeGrant] lists a user's unexpired refresh tokens, revokes those of
    the client one by one, and leaves a watermark for the access tokens.
    Rows of [tokens.json] have unique IDs, because they are random UUIDs. *)
From S2P Require Import Prelude GoTime GoText Encoding Hash Errors Domain Lockout PendingLogins.
From S2P Require Import World Run Store Exec StoreFacts FileStore Revocations Keys Password Jwt Authorize.
From S2P Require Import TokenService TokenFacts Metrics.
#[local] Open Scope Z_scope.
#[local] Open Scope go_scope.

(** ** Token files only gain revocations *)

Definition revoked_more (a b : Token) : Prop := b = a \/ b = token_set_revoked a.

Lemma revoked_more_fields a b :
  revoked_more a b ->
  token_ID b = token_ID a /\ token_UserID b = token_UserID a /\
  token_ClientID b = token_ClientID a /\ token_ExpiresAt b = token_ExpiresAt a /\
  (token_Revoked a = true -> token_Revoked b = true).
Proof. by destruct a; intros [-> | ->]. Qed.

#[global] Instance revoked_more_preorder : PreOrder revoked_more.
Proof. split; [by left|]. intros a b c [-> | ->] [-> | ->]; destruct a; by (left + right). Qed.

Lemma revoked_more_ids rows rows' :
  Forall2 revoked_more rows rows' -> token_ID <$> rows' = token_ID <$> rows.
Proof.
  induction 1 as [|a b la lb Hab _ IH]; [done|]. rewrite !fmap_cons, IH.
  by destruct (revoked_more_fields _ _ Hab) as [-> _].
Qed.

Lemma revoked_more_replace p rows :
  Forall2 revoked_more rows (default rows (replace_first p token_set_revoked rows)).
Proof.
  destruct (replace_first p token_set_revoked rows) as [rows'|] eqn:E; [|reflexivity]. simpl.
  apply replace_first_Some in E as (l1 & x & l2 & -> & -> & _).
  apply Forall2_app; [reflexivity|]. constructor; [by right|reflexivity].
Qed.

(** Every row with an ID is revoked. *)
Definition revoked_in (rows : list Token) (id : string) : Prop :=
  forall t, t ∈ rows -> token_ID t = id -> token_Revoked t = true.

Lemma revoked_in_more rows rows' id :
  Forall2 revoked_more rows rows' -> revoked_in rows id -> revoked_in rows' id.
Proof.
  intros Hm Hr t Ht Hid. apply list_elem_of_lookup in Ht as [i Hi].
  destruct (Forall2_lookup_r _ _ _ _ _ Hm Hi) as (a & Ha & Hab).
  apply revoked_more_fields in Hab as (Hi' & _ & _ & _ & Hrev). apply Hrev, Hr; [|congruence].
  by eapply list_elem_of_lookup_2.
Qed.

Lemma revoked_in_replace id rows :
  unique_by token_ID rows ->
  revoked_in (default rows (replace_first (fun t => token_ID t ==? id) token_set_revoked rows)) id.
Proof.
  intros Hu. destruct (replace_first _ token_set_revoked rows) as [rows'|] eqn:E; simpl.
  - pose proof E as E'. apply replace_first_Some in E' as (l1 & x & l2 & -> & -> & Hx & _).
    bool_to_prop. intros t Ht Hid.
    assert (unique_by token_ID (l1 ++ token_set_revoked x :: l2)) as Hu'.
    { unfold unique_by in *. rewrite !fmap_app, !fmap_cons in *. by destruct x. }
    rewrite (unique_by_elem _ _ t (token_set_revoked x) Hu' Ht); [by destruct x|set_solver|].
    destruct x; simpl in *; congruence.
  - apply replace_first_None in E. intros t Ht Hid.
    pose proof (proj1 (find_first_None _ _) E t Ht) as Hn. cbn beta in Hn. by bool_to_prop.
Qed.

(** ** Watermarks *)

Lemma upsert_revokes jti userID clientID issuedAt nb ex rows :
  issuedAt <= nb ->
  existsb (revokes jti userID clientID issuedAt)
    (upsert_revocation RevocationUserClient (UserClientKey userID clientID) nb ex rows) = true.
Proof.
  intros Hle. set (key := UserClientKey userID clientID).
  pose proof (find_upsert RevocationUserClient key nb ex rows (RevocationUserClient, key)) as Hf.
  rewrite decide_True in Hf by done. cbn [fst snd] in Hf.
  apply find_first_Some in Hf as [Hin Hid]. apply existsb_exists. eexists.
  split; [by apply list_elem_of_In|].
  rewrite revokes_split. fold key. rewrite Hid. simpl. rewrite !orb_true_iff. left. right.
  apply negb_true_iff, After_false.
  destruct (find_first _ rows) as [rv|]; simpl; [|done].
  unfold After. case_match eqn:E; bool_to_prop; lia.
Qed.

Section cut_off.
Context `{StoreLaws} `{KeyLib} `{JwtLib} `{Argon2} (s : TokenService).

(** ** revokeGrant *)

Lemma Tokens_Revoke_spec id rows w :
  get CTokens (w_disk w) = FData rows -> unique_by token_ID rows ->
  wp (Tokens_Revoke id) w (fun r w' => r = Ok tt ->
    exists rows', get CTokens (w_disk w') = FData rows' /\ Forall2 revoked_more rows rows' /\
      revoked_in rows' id).
Proof.
  intros Hrows Hu. eapply wp_mono; [apply law_Tokens_Revoke|].
  intros r w' (r1 & w1 & Hu1 & Hu2) ->.
  destruct r1 as [t|e]; [|by destruct Hu2]. apply upd_frame in Hu2.
  apply upd_Ok in Hu1 as (a & t1 & u1 & a' & Ha & _ & _ & Hf & Ha').
  rewrite Ha in Hrows. injection Hrows as ->. unfold rows_revoke_token in Hf.
  destruct (find_first _ rows); [|done]. injection Hf as <- _. eexists. split.
  - rewrite (frame_get _ CTokens _ _ Hu2) by set_solver. exact Ha'.
  - split; [apply revoked_more_replace|by apply revoked_in_replace].
Qed.

Lemma revoke_each_spec clientID l rows w :
  get CTokens (w_disk w) = FData rows -> unique_by token_ID rows ->
  wp (revoke_each clientID l) w (fun r w' => r = Ok tt ->
    exists rows', get CTokens (w_disk w') = FData rows' /\ Forall2 revoked_more rows rows' /\
      forall t, t ∈ l -> token_ClientID t = clientID ->
        token_Revoked t = true \/ revoked_in rows' (token_ID t)).
Proof.
  revert rows w. induction l as [|t l IH]; intros rows w Hrows Hu; simpl.
  { apply wp_ret. intros _. exists rows. split; [done|]. split; [reflexivity|set_solver]. }
  destruct ((token_ClientID t !=? clientID) || token_Revoked t) eqn:Eskip.
  - eapply wp_mono; [by apply (IH rows)|]. intros r w' Hw Hr.
    destruct (Hw Hr) as (rows' & Hg & Hm & Hall). exists rows'. split; [done|]. split; [done|].
    intros t' [->|Ht]%elem_of_cons Hc; [|by apply Hall].
    left. by apply orb_true_iff in Eskip as [?|?]; bool_to_prop.
  - eapply wp_try; [by apply Tokens_Revoke_spec| |by intros e w' _ [=]].
    intros [] w1 Hw1. destruct (Hw1 eq_refl) as (rows1 & Hg1 & Hm1 & Hr1).
    eapply wp_mono; [apply (IH rows1); [done|unfold unique_by; by rewrite (revoked_more_ids _ _ Hm1)]|].
    intros r w' Hw Hr. destruct (Hw Hr) as (rows' & Hg & Hm & Hall). exists rows'.
    split; [done|]. split; [by etransitivity|].
    intros t' [->|Ht]%elem_of_cons Hc; [|by apply Hall]. right. by eapply revoked_in_more.
Qed.

(** The grant of a user to a client is cut off: no live refresh token is
    left, and a watermark rejects the access tokens issued by [t]. *)
Definition cut_off_in (w : World) (userID clientID : string) (t : Z) : Prop :=
  (exists rows, get CTokens (w_disk w) = FData rows /\
    forall tok, tok ∈ rows -> token_UserID tok = userID -> token_ClientID tok = clientID ->
      token_Revoked tok = true \/ token_ExpiresAt tok <= t) /\
  (ts_revocations s = true -> exists rows, get CRevocations (w_disk w) = FData rows /\
    forall jti issuedAt, issuedAt <= t ->
      existsb (revokes jti userID clientID issuedAt) rows = true).

Lemma listed_revoked rows l rows' userID clientID t :
  Forall2 revoked_more rows rows' ->
  l = sort_by (fun a b => After (token_CreatedAt a) (token_CreatedAt b))
        (List.filter (fun k => (token_UserID k ==? userID) && After (token_ExpiresAt k) t) rows) ->
  (forall k, k ∈ l -> token_ClientID k = clientID ->
     token_Revoked k = true \/ revoked_in rows' (token_ID k)) ->
  forall tok, tok ∈ rows' -> token_UserID tok = userID -> token_ClientID tok = clientID ->
    token_Revoked tok = true \/ token_ExpiresAt tok <= t.
Proof.
  intros Hm -> Hl tok Ht Hus Hcl. pose proof Ht as Ht0.
  apply list_elem_of_lookup in Ht as [i Hi].
  destruct (Forall2_lookup_r _ _ _ _ _ Hm Hi) as (a & Ha & Hab).
  apply revoked_more_fields in Hab as (Hid & Hu' & Hc' & He' & Hrev).
  destruct (decide (token_ExpiresAt tok <= t)) as [?|Hlive]; [by right|]. left.
  destruct (Hl a) as [Hr|Hr].
  - apply sort_by_elem, list_elem_of_In, filter_In. split.
    + apply list_elem_of_In. by eapply list_elem_of_lookup_2.
    + apply andb_true_iff. split; [apply bool_decide_eq_true; congruence|].
      apply After_spec. rewrite <-He'. lia.
  - congruence.
  - by apply Hrev.
  - by apply (Hr tok).
Qed.

Lemma revokeGrant_spec `{!EnvLaws} userID clientID rows w :
  get CTokens (w_disk w) = FData rows -> unique_by token_ID rows ->
  wp (revokeGrant s userID clientID) w (fun r w' => r = Ok tt ->
    exists t, env_clock (w_tick w) <= t /\ cut_off_in w' userID clientID t).
Proof.
  intros Hrows Hu. unfold revokeGrant.
  eapply wp_try; [apply law_Tokens_ListByUserID| |by intros].
  intros l w1 Hq. cbn beta in Hq. pose proof (qry_same _ _ _ _ _ Hq) as [Ht1 Hd1].
  apply qry_Ok in Hq as (rows0 & t0 & Hr0 & Hi0 & Hl). rewrite Hr0 in Hrows. injection Hrows as ->.
  unfold rows_select in Hl. injection Hl as Hl.
  eapply wp_try; [apply wp_and; [apply touches_revoke_each|apply revoke_each_spec]| |by intros].
  { by rewrite Hd1. } { done. }
  intros [] w2 [Hf Hw2]. destruct (Hw2 eq_refl) as (rows2 & Hg2 & Hm2 & Hall).
  pose proof (listed_revoked _ _ _ userID clientID t0 Hm2 (eq_sym Hl) Hall) as Htok.
  apply instant_le in Hi0 as [Hlo Hhi].
  destruct (ts_revocations s) eqn:Ets.
  - apply wp_bind, wp_now. eapply wp_mono; [apply law_Revocations_RevokeBefore|].
    intros r w3 Hup ->. pose proof (upd_frame _ _ _ _ _ Hup) as Hf3.
    apply upd_Ok in Hup as (a & t3 & u3 & a' & Ha & _ & _ & Hfn & Ha').
    unfold rows_revoke_before in Hfn. injection Hfn as <-.
    assert (t0 <= env_clock (w_tick w2)) as Hle.
    { transitivity (env_clock (w_tick w1)); [done|]. apply clock_mono, (frame_tick _ _ _ Hf). }
    exists (env_clock (w_tick w2)). split; [lia|]. split.
    + exists rows2. split; [by rewrite (frame_get _ CTokens _ _ Hf3) by set_solver|].
      intros tok Hin Hus Hcl. destruct (Htok tok Hin Hus Hcl); [by left|right; lia].
    + intros _. eexists. split; [exact Ha'|]. intros jti iat Hiat. by apply upsert_revokes.
  - apply wp_ret. intros _. exists t0. split; [lia|]. split; [by exists rows2|]. by rewrite Ets.
Qed.

(** ** Reuse *)

Lemma cut_off_reuse `{!EnvLaws} m userID clientID reuse rows w :
  (forall e, reuse <> Errorf m e) ->
  get CTokens (w_disk w) = FData rows -> unique_by token_ID rows ->
  wp (cut_off s m userID clientID reuse) w (fun r w' => r = Err reuse ->
    exists t, env_clock (w_tick w) <= t /\ cut_off_in w' userID clientID t).
Proof.
  intros Hne Hrows Hu. unfold cut_off.
  eapply wp_try_map; [by eapply revokeGrant_spec| |].
  - intros [] w' Hw. apply wp_ret. intros _. by apply Hw.
  - intros e w' _ [= He]. by destruct (Hne e).
Qed.

(** An error that wraps another. *)
Definition wrapping {A} (r : res A) : Prop :=
  match r with Ok _ => True | Err e => exists m e', e = Errorf m e' end.

Definition wraps {A} (p : Prog (res A)) : Prop := forall w, wp p w (fun r _ => wrapping r).

Lemma wraps_mapErr {A} m (p : Prog (res A)) : wraps (mapErr (Errorf m) p).
Proof.
  intros w. apply wp_mapErr, wp_intro. intros [a|e] w' _; [done|]. by exists m, e.
Qed.

Lemma wraps_ret_ok {A} (a : A) : wraps (ret_ok a).
Proof. intros w. by apply wp_ret. Qed.

Lemma wraps_try {A B} (p : Prog (res A)) (k : A -> Prog (res B)) :
  wraps p -> (forall a, wraps (k a)) -> wraps (let? a := p in k a).
Proof.
  intros Hp Hk w. eapply wp_try; [apply Hp|intros a w' _; apply Hk|done].
Qed.

Lemma wraps_seq {A B} (p : Prog A) (k : A -> Prog (res B)) :
  (forall a, wraps (k a)) -> wraps (let! a := p in k a).
Proof.
  intros Hk w. apply wp_bind, wp_intro. intros a w' _. apply Hk.
Qed.

Lemma wraps_Apply user scope claims : wraps (GroupClaims_Apply s user scope claims).
Proof.
  unfold GroupClaims_Apply, Names.
  repeat case_match; try apply wraps_ret_ok;
    (apply wraps_try; [apply wraps_try; [apply wraps_mapErr|intros; apply wraps_ret_ok]|]);
    intros; try case_match; apply wraps_ret_ok.
Qed.

Lemma wraps_issue_refresh user client scope ttl g resp :
  wraps (issue_refresh user client scope ttl g resp).
Proof.
  unfold issue_refresh. case_match; [|apply wraps_ret_ok].
  do 2 (apply wraps_seq; intros ?). apply wraps_try; [apply wraps_mapErr|intros ?].
  apply wraps_seq; intros ?. apply wraps_ret_ok.
Qed.

Lemma wraps_generateTokens user client scope nonce at_ amr g :
  wraps (generateTokens s user client scope nonce at_ amr g).
Proof.
  unfold generateTokens.
  apply wraps_try; [case_match; [apply wraps_ret_ok|apply wraps_Apply]|intros ?].
  apply wraps_try; [apply wraps_Apply|intros ?]. destruct (ttlsFor s client).
  apply wraps_try; [apply wraps_mapErr|intros [??]].
  apply wraps_try; [apply wraps_mapErr|intros [??]].
  do 2 (apply wraps_seq; intros ?). apply wraps_issue_refresh.
Qed.
End cut_off.
