(* ===== verification/AccountFacts.v ===== *)
(** * What the flows through email promise

    A reset link works once, only for its user and in its time; the password
    it sets is the one that signs in from then on, and what was open before
    is closed. *)
From S2P Require Import Prelude GoTime GoText Encoding Hash Errors Domain Lockout PendingLogins.
From S2P Require Import World Run Store Exec StoreFacts FileStore Revocations Keys Password Jwt Session Account.
From S2P Require Import Authorize TokenService TokenFacts CutOff Totp Csrf AuthService AuthFacts SignIn SecondFactor Metrics.
#[local] Open Scope Z_scope.
#[local] Open Scope go_scope.

(** ** Passwords *)

Section passwords.
Context `{EnvLaws} `{Argon2Laws}.

Lemma HashPassword_verifies password w :
  wp (HashPassword password) w (fun r w' => same_disk w w' /\
    forall h, r = Ok h -> VerifyPassword password h = Ok true).
Proof.
  apply wp_and_disk; [unfold HashPassword, mapErr; touch|]. apply wp_intro. intros r w' Hr h ->.
  cbn -[format_hash] in Hr. destruct (env_rand (w_tick w) argonSaltLen) as [salt|] eqn:Hrand; [|done].
  cbn -[format_hash] in Hr. injection Hr as <- _. apply rand_length in Hrand as [_ Hb].
  rewrite VerifyPassword_format by (done || apply IDKey_bytes). rewrite IDKey_length.
  by rewrite bool_decide_eq_true_2.
Qed.

(** A password verifies against its own hash; another password
    does exactly when Argon2id derives the same key from it with the stored
    salt. *)
Theorem password_roundtrip password w h w' :
  run (HashPassword password) w = (Ok h, w') ->
  VerifyPassword password h = Ok true /\
  exists salt, length salt = argonSaltLen /\ forall other,
    VerifyPassword other h =
      Ok (IDKey (bytes other) salt argonTime argonMemory argonThreads argonKeyLen ==?
          IDKey (bytes password) salt argonTime argonMemory argonThreads argonKeyLen).
Proof.
  intros Hr. pose proof (wp_run _ _ _ _ _ (HashPassword_verifies password w) Hr) as [_ Hv].
  split; [by apply Hv|]. clear Hv. cbn -[format_hash] in Hr.
  destruct (env_rand (w_tick w) argonSaltLen) as [salt|] eqn:Hrand; [|done].
  cbn -[format_hash] in Hr. injection Hr as <- _. apply rand_length in Hrand as [Hl Hb]. exists salt. split; [done|].
  intros other. rewrite VerifyPassword_format by (done || apply IDKey_bytes). by rewrite IDKey_length.
Qed.
End passwords.

Section account.
Context `{StoreLaws} `{!EnvLaws} `{UnicodeTables} `{Argon2Laws} (s : AccountService).

(** ** Ending what was open *)

(** A user has no session, and the refresh tokens are those of before, the
    user's revoked. *)
Definition shut_out (w w' : World) (userID : string) : Prop :=
  (forall rows, get CSessions (w_disk w') = FData rows ->
     forall x, x ∈ rows -> session_UserID x <> userID) /\
  (forall rows, get CTokens (w_disk w') = FData rows ->
     forall x, x ∈ rows -> token_UserID x = userID -> token_Revoked x = true) /\
  exists t, instant w w' t /\
    forall rows, get CRevocations (w_disk w') = FData rows ->
      forall jti clientID issuedAt, issuedAt <= t ->
        existsb (revokes jti userID clientID issuedAt) rows = true.

(** The files that ending sessions and tokens needs. *)
Definition files_parse (w : World) : Prop :=
  (exists l, get CSessions (w_disk w) = FData l) /\ (exists l, get CTokens (w_disk w) = FData l) /\
  (exists l, get CRevocations (w_disk w) = FData l).

Lemma upsert_revokes_user jti userID clientID issuedAt nb ex rows :
  issuedAt <= nb ->
  existsb (revokes jti userID clientID issuedAt)
    (upsert_revocation RevocationUser userID nb ex rows) = true.
Proof.
  intros Hle. pose proof (find_upsert RevocationUser userID nb ex rows (RevocationUser, userID)) as Hf.
  rewrite decide_True in Hf by done. cbn [fst snd] in Hf.
  apply find_first_Some in Hf as [Hin Hid]. apply existsb_exists. eexists.
  split; [by apply list_elem_of_In|].
  rewrite revokes_split, Hid. simpl. rewrite !orb_true_iff. do 2 left. right.
  apply negb_true_iff, After_false.
  destruct (find_first _ rows) as [rv|]; simpl; [|done].
  unfold After. case_match eqn:E; bool_to_prop; lia.
Qed.

(** The three deletions that follow a change of password. *)
Definition close_all (userID : string) : Prog unit :=
  let! _ := ignore (Sessions_DeleteByUserID userID) in
  let! _ := ignore (Tokens_RevokeByUserID userID) in
  ignore (Verification_DeleteByUserID userID PurposePasswordReset).

Lemma touches_close_all userID :
  touches [NSessions; NTokens; NRevocations; NVerification] (close_all userID).
Proof.
  unfold close_all, ignore. touch.
Qed.

Lemma Sessions_gone userID w :
  wp (ignore (Sessions_DeleteByUserID userID)) w (fun _ w' =>
    io_works w w' -> (exists l, get CSessions (w_disk w) = FData l) ->
    forall rows, get CSessions (w_disk w') = FData rows -> forall x, x ∈ rows -> session_UserID x <> userID).
Proof.
  unfold ignore. eapply wp_step; [apply law_Sessions_DeleteByUserID|]. intros r w' Hu. cbn beta in Hu.
  apply wp_ret. intros Hio [l Hl] rows Hr x Hx.
  destruct (upd_works _ _ _ _ _ _ Hu Hio Hl) as (t & u & _ & Hres). unfold rows_keep in Hres.
  destruct Hres as [_ Hg]. rewrite Hr in Hg. injection Hg as ->.
  apply list_elem_of_In, filter_In in Hx as [_ Hx]. by bool_to_prop.
Qed.

Lemma Tokens_gone userID w :
  wp (ignore (Tokens_RevokeByUserID userID)) w (fun _ w' =>
    io_works w w' -> (exists l, get CTokens (w_disk w) = FData l) ->
    (exists l, get CRevocations (w_disk w) = FData l) ->
    (forall rows, get CTokens (w_disk w') = FData rows ->
       forall x, x ∈ rows -> token_UserID x = userID -> token_Revoked x = true) /\
    exists t, instant w w' t /\ forall rows, get CRevocations (w_disk w') = FData rows ->
      forall jti clientID issuedAt, issuedAt <= t ->
        existsb (revokes jti userID clientID issuedAt) rows = true).
Proof.
  unfold ignore. eapply wp_step; [apply law_Tokens_RevokeByUserID|]. cbn beta.
  intros r w' (r1 & w1 & Hu1 & Hu2). apply wp_ret. intros Hio [l Hl] [k Hk].
  pose proof (upd_frame _ _ _ _ _ Hu1) as Hf1.
  assert (w_tick w1 <= w_tick w')%nat as Ht.
  { destruct r1; [exact (frame_tick _ _ _ (upd_frame _ _ _ _ _ Hu2))|by destruct Hu2 as [_ ->]]. }
  pose proof (frame_tick _ _ _ Hf1) as Ht0.
  destruct (upd_works _ _ _ _ _ _ Hu1 ltac:(io_part) Hl)
    as (t1 & u1 & _ & -> & Hg1).
  pose proof (upd_frame _ _ _ _ _ Hu2) as Hf2.
  assert (get CRevocations (w_disk w1) = FData k) as Hk1.
  { by rewrite (frame_get _ _ _ _ Hf1) by set_solver. }
  destruct (upd_works _ _ _ _ _ _ Hu2 ltac:(io_part) Hk1)
    as (t2 & u2 & Hi2 & _ & Hg2).
  split.
  - intros rows Hr x Hx Hid. rewrite (frame_get _ _ _ _ Hf2), Hg1 in Hr by set_solver.
    injection Hr as <-. apply list_elem_of_In, in_map_iff in Hx as (y & <- & _).
    destruct y; cbn in *. case_bool_decide; cbn in *; [done|congruence].
  - exists t2. split; [by eapply (instant_in w1 w')|].
    intros rows Hr jti clientID issuedAt Hle. rewrite Hg2 in Hr. injection Hr as <-.
    by apply upsert_revokes_user.
Qed.

Lemma close_all_spec userID w :
  wp (close_all userID) w (fun _ w' =>
    frame [NSessions; NTokens; NRevocations; NVerification] w w' /\
    (io_works w w' -> files_parse w -> shut_out w w' userID) /\
    (forall rows, get CVerification (w_disk w') = FData rows ->
       exists old, get CVerification (w_disk w) = FData old /\ rows `sublist_of` old)).
Proof.
  apply wp_and; [apply touches_close_all|]. unfold close_all.
  eapply wp_step; [apply wp_and; [|apply Sessions_gone]|].
  { apply (touches_bind [NSessions]); [touch|intros ?; touch]. }
  intros [] w1 [Hf1 Hgone]. cbn beta in *.
  eapply wp_step; [apply wp_and; [|apply Tokens_gone]|].
  { apply (touches_bind [NTokens; NRevocations]); [touch|intros ?; touch]. }
  intros [] w2 [Hf2 Hrev]. cbn beta in *.
  unfold ignore. eapply wp_step; [apply law_Verification_DeleteByUserID|]. intros r w3 Hu. cbn beta in Hu.
  pose proof (upd_frame _ _ _ _ _ Hu) as Hf3. apply wp_ret.
  pose proof (frame_tick _ _ _ Hf1). pose proof (frame_tick _ _ _ Hf2). pose proof (frame_tick _ _ _ Hf3).
  split.
  - intros Hio (Hs & [l Hl] & [k Hk]). split.
    { intros rows Hr. apply (Hgone ltac:(io_part) Hs).
      by rewrite <-(frame_get _ _ _ _ Hf2), <-(frame_get _ _ _ _ Hf3) by set_solver. }
    destruct (Hrev ltac:(io_part)) as (Htok & t & Hi & Hmark).
    { exists l. by rewrite (frame_get _ _ _ _ Hf1) by set_solver. }
    { exists k. by rewrite (frame_get _ _ _ _ Hf1) by set_solver. }
    split.
    + intros rows Hr. apply Htok. by rewrite <-(frame_get _ _ _ _ Hf3) by set_solver.
    + exists t. split; [eapply (instant_in w1 w2); [lia|lia|exact Hi]|].
      intros rows Hr. apply Hmark. by rewrite <-(frame_get _ _ _ _ Hf3) by set_solver.
  - intros rows Hr. destruct r as [[]|e].
    + apply upd_Ok in Hu as (a & t & u & a' & Ha & _ & _ & Hf & Hg). injection Hf as <-.
      rewrite Hr in Hg. injection Hg as ->. exists a. split; [|apply sublist_filter_list].
      by rewrite <-Ha, (frame_get _ _ _ _ Hf2), (frame_get _ _ _ _ Hf1) by set_solver.
    + destruct (upd_Err_contents _ _ _ _ _ Hu) as [Hd|Hd]; [|congruence].
      rewrite Hd, (frame_get _ _ _ _ Hf2), (frame_get _ _ _ _ Hf1) in Hr by set_solver.
      by exists rows.
Qed.

(** ** Links *)

Definition link_row (w : World) (hash : string) (vt : VerificationToken) : Prop :=
  exists rows, get CVerification (w_disk w) = FData rows /\
    find_first (fun t => vt_TokenHash t ==? hash) rows = Some vt.

(** Whatever row the hash still finds is used. *)
Definition link_spent (w : World) (hash : string) : Prop :=
  forall rows, get CVerification (w_disk w) = FData rows ->
    forall x, x ∈ rows -> vt_TokenHash x = hash -> vt_Used x = true.

Definition links_unique (w : World) : Prop :=
  forall rows, get CVerification (w_disk w) = FData rows -> unique_by vt_TokenHash rows.

(** The link is for the purpose, unused, and alive at an instant of the run. *)
Definition link_valid (w w' : World) (token purpose : string) (vt : VerificationToken) : Prop :=
  token <> "" /\ link_row w (hashToken token) vt /\ vt_Purpose vt = purpose /\
  vt_Used vt = false /\ exists t, instant w w' t /\ t <= vt_ExpiresAt vt.

Lemma vt_set_used_fields v : vt_TokenHash (vt_set_used v) = vt_TokenHash v /\ vt_Used (vt_set_used v) = true.
Proof. by destruct v. Qed.

Lemma consumeToken_spec token purpose w :
  wp (consumeToken token purpose) w (fun r w' => frame [NVerification] w w' /\
    forall vt, r = Ok vt ->
      link_valid w w' token purpose vt /\ (links_unique w -> link_spent w' (hashToken token))).
Proof.
  unfold consumeToken. apply wp_if; intros Hne; [by apply wp_ret|]. bool_to_prop.
  eapply wp_try_map; [apply law_Verification_GetByHash| |].
  2:{ intros e w1 Hq. split; [|done]. by apply same_disk_frame, (qry_same _ _ _ _ _ Hq). }
  intros vt w1 Hq. cbn beta in Hq. pose proof (qry_same _ _ _ _ _ Hq) as Hd1.
  apply qry_find in Hq as (rows & Hg & Hf).
  assert (vt_TokenHash vt = hashToken token) as Hhash.
  { apply find_first_Some in Hf as [_ Hp]. by bool_to_prop. }
  apply wp_bind, wp_now. set (w2 := ticked 1 w1).
  assert (same_disk w w2) as Hd2 by (transitivity w1; [done|apply same_disk_ticked]).
  apply wp_if; intros Hbad; [apply wp_ret; split; [by apply same_disk_frame|done]|].
  bool_to_prop. unfold VerificationToken_IsValid, VerificationToken_IsExpired in *.
  eapply wp_try_map; [apply law_Verification_MarkUsed| |].
  2:{ intros e w3 Hu. split; [|done]. transitivity w2; [by apply same_disk_frame|].
      exact (upd_frame _ _ _ _ _ Hu). }
  intros [] w3 Hu. cbn beta in Hu. pose proof (upd_frame _ _ _ _ _ Hu) as Hf3.
  pose proof (frame_tick _ _ _ Hf3) as Ht3. apply wp_ret.
  split; [transitivity w2; [by apply same_disk_frame|done]|]. intros vt' [= <-]. split.
  - assert (vt_Used vt = false /\ env_clock (w_tick w1) <= vt_ExpiresAt vt) as [Hused Hexp].
    { destruct (vt_Used vt), (After _ _) eqn:E; try done. by apply After_false in E. }
    split_and!; try done; [by exists rows|]. exists (env_clock (w_tick w1)). split; [|done].
    exists (w_tick w1). destruct Hd1. cbn in Ht3. split; [lia|done].
  - intros Huni rows' Hr x Hx Hxh.
    apply upd_Ok in Hu as (a & t & u & a' & Ha & _ & _ & Hrep & Hg').
    rewrite (proj2 Hd2), Hg in Ha. injection Ha as <-. rewrite Hg' in Hr. injection Hr as ->.
    unfold rows_replace in Hrep. rewrite Hhash in Hrep.
    destruct (replace_first _ _ rows) as [l|] eqn:Hl; [|done]. injection Hrep as ->.
    apply replace_first_Some in Hl as (l1 & y & l2 & -> & -> & Hy & _). bool_to_prop.
    assert (unique_by vt_TokenHash (l1 ++ vt_set_used y :: l2)) as Hu'.
    { specialize (Huni _ Hg). unfold unique_by in *. rewrite !fmap_app, !fmap_cons in *. by destruct y. }
    destruct (vt_set_used_fields y) as [Hyh Hyu].
    rewrite (unique_by_elem _ _ x (vt_set_used y) Hu' Hx); [done|set_solver|congruence].
Qed.

Lemma link_spent_sublist w w' hash :
  link_spent w hash ->
  (forall rows, get CVerification (w_disk w') = FData rows ->
     exists old, get CVerification (w_disk w) = FData old /\ rows `sublist_of` old) ->
  link_spent w' hash.
Proof.
  intros Hs Hsub rows Hr x Hx. destruct (Hsub rows Hr) as (old & Ho & Hincl).
  apply (Hs old Ho). by apply (sublist_subseteq _ _ Hincl).
Qed.

(** ** A new password *)

(** The user's row has a hash of the password, and is otherwise as given. *)
Definition password_set (w w' : World) (u : User) (password : string) (user : User) : Prop :=
  password_of user password /\
  exists h t rows rows', user = user_set_updated t (user_set_password h u) /\
    get CUsers (w_disk w) = FData rows /\ get CUsers (w_disk w') = FData rows' /\
    replace_first (fun x => user_ID x ==? user_ID u) (fun _ => user) rows = Some rows'.

Lemma password_of_updated t h u password :
  VerifyPassword password h = Ok true ->
  password_of (user_set_updated t (user_set_password h u)) password.
Proof. by destruct u. Qed.


Lemma wp_close_all {A} userID (a : A) w (Q : res A -> World -> Prop) :
  wp (close_all userID) w (fun _ w' => Q (Ok a) w') ->
  wp (let! _ := ignore (Sessions_DeleteByUserID userID) in
      let! _ := ignore (Tokens_RevokeByUserID userID) in
      let! _ := ignore (Verification_DeleteByUserID userID PurposePasswordReset) in
      ret_ok a) w Q.
Proof.
  unfold wp, close_all. rewrite !run_bind. destruct (run _ w) as [[] w1].
  rewrite !run_bind. destruct (run _ w1) as [[] w2].
  rewrite run_bind. by destruct (run _ w2) as [[] w3].
Qed.

Lemma SetPassword_spec u password w :
  wp (SetPassword u password) w (fun r w' => forall user, r = Ok user ->
    MinPasswordLength <= RuneCountInString password /\ user_ID user = user_ID u /\
    password_set w w' u password user /\ frame [NUsers; NSessions; NTokens; NRevocations; NVerification] w w' /\
    (io_works w w' -> files_parse w -> shut_out w w' (user_ID u)) /\
    (forall rows, get CVerification (w_disk w') = FData rows ->
       exists old, get CVerification (w_disk w) = FData old /\ rows `sublist_of` old)).
Proof.
  unfold SetPassword, ValidatePassword. destruct (_ <? _) eqn:Hlen; [by apply wp_ret|]. bool_to_prop.
  eapply wp_try_map; [apply HashPassword_verifies| |done]. intros h w1 [Hd1 Hv]. specialize (Hv h eq_refl).
  eapply wp_try_map; [apply law_Users_Update| |done]. intros user w2 Hu. cbn beta in Hu.
  pose proof (upd_frame _ _ _ _ _ Hu) as Hf2.
  apply upd_Ok in Hu as (rows & t & uid & rows2 & Hg & _ & _ & Hrep & Hg2).
  unfold rows_replace in Hrep. rewrite user_set_password_ID in Hrep.
  destruct (replace_first _ _ rows) as [l|] eqn:Hl; [|done]. injection Hrep as <- <-.
  set (user := user_set_updated t (user_set_password h u)) in *.
  assert (user_ID user = user_ID u) as Hid by (unfold user; by rewrite user_set_updated_ID, user_set_password_ID).
  apply wp_close_all. rewrite Hid. eapply wp_mono; [apply close_all_spec|].
  intros [] w3 (Hf3 & Hshut & Hsub) user' [= <-]. cbn beta in *.
  assert (frame [NUsers] w w2) as Hf02 by (transitivity w1; [by apply same_disk_frame|done]).
  pose proof (frame_tick _ _ _ Hf02) as Ht2. split_and!; try done.
  - split; [by apply password_of_updated|]. exists h, t, rows, l. rewrite <-(proj2 Hd1). split_and!; try done.
    by rewrite (frame_get _ _ _ _ Hf3) by set_solver.
  - transitivity w2; (eapply frame_weaken; [|done]); set_solver.
  - intros Hio (Hs & Htk & Hrv). pose proof (frame_tick _ _ _ Hf3) as Ht3.
    destruct Hshut as (Ha & Hb & t' & Hi & Hc); [io_part| |].
    + unfold files_parse. rewrite !(frame_get _ _ _ _ Hf02) by set_solver. by split_and!.
    + split_and!; try done. exists t'. split; [|done]. by eapply (instant_in w2 w3).
  - intros rows0 Hr0. destruct (Hsub rows0 Hr0) as (old & Ho & Hincl). exists old. split; [|done].
    by rewrite <-Ho, (frame_get _ _ _ _ Hf02) by set_solver.
Qed.

Lemma shut_out_frame w1 w2 w w' userID :
  (w_tick w <= w_tick w1)%nat -> frame [NAudit] w2 w' ->
  shut_out w1 w2 userID -> shut_out w w' userID.
Proof.
  intros Ht Hf (Ha & Hb & t & Hi & Hc). pose proof (frame_tick _ _ _ Hf).
  split_and!; try (intros rows; rewrite (frame_get _ _ _ _ Hf) by set_solver); try done; [by apply Ha|by apply Hb|].
  exists t. split; [by eapply (instant_in w1 w2)|].
  intros rows. rewrite (frame_get _ _ _ _ Hf) by set_solver. by apply Hc.
Qed.

(** Claim C33.  A reset succeeds only with the link of a stored, unused,
    unexpired reset token and a password of at least eight characters.  The
    user of the token then signs in with the new password and nothing else of
    the user changed; the link cannot be used again; and if no access to the
    storage failed, the user is left without sessions, every refresh token of
    the user is revoked, and every access token issued to the user up to then
    is rejected. *)
Theorem password_reset_sound token password w user w' :
  run (ResetPassword s token password) w = (Ok user, w') ->
  MinPasswordLength <= RuneCountInString password /\
  exists vt u, link_valid w w' token PurposePasswordReset vt /\ user_row w (vt_UserID vt) u /\
    user_ID user = vt_UserID vt /\ password_set w w' u password user /\
    (links_unique w -> link_spent w' (hashToken token)) /\
    (io_works w w' -> files_parse w -> shut_out w w' (vt_UserID vt)).
Proof.
  intros Hrun. pattern user, w'. apply (run_Ok _ _ _ _ _ Hrun). clear Hrun user w'. unfold ResetPassword.
  destruct (ValidatePassword password); [|by apply wp_ret].
  eapply wp_try; [apply consumeToken_spec| |done]. intros vt w1 [Hf1 Htok]. cbn beta in *.
  destruct (Htok vt eq_refl) as [Hvalid Hspent].
  eapply wp_try_map; [apply law_Users_GetByID| |done]. intros u w2 Hq. cbn beta in Hq.
  pose proof (qry_same _ _ _ _ _ Hq) as Hd2. apply qry_find in Hq as (rows & Hg & Hf).
  eapply wp_try; [apply SetPassword_spec| |done]. intros user0 w3 Hset. cbn beta in Hset.
  destruct (Hset user0 eq_refl) as (Hlen & Hid & (Hpw & h & t & rows1 & rows2 & Hu & Hg1 & Hg2 & Hrep) &
    Hf3 & Hshut & Hsub).
  apply wp_skip; [unfold RecordEvent, ignore; touch|]. intros [] w4 Hf4. apply wp_ret.
  assert (user_row w (vt_UserID vt) u) as Hwith.
  { exists rows. split; [|done]. by rewrite <-(frame_get _ _ _ _ Hf1) by set_solver. }
  pose proof (user_with_ID _ _ _ Hwith) as Huid.
  pose proof (frame_tick _ _ _ Hf1). pose proof (frame_tick _ _ _ Hf3). pose proof (frame_tick _ _ _ Hf4).
  pose proof (proj1 Hd2).
  split; [done|]. exists vt, u. split_and!; try done; try congruence.
  - destruct Hvalid as (Hne & Hrow & Hp & Hused & t0 & Hi & Hle). split_and!; try done.
    exists t0. split; [|done]. eapply (instant_in w w1); [lia|lia|done].
  - split; [done|]. exists h, t, rows1, rows2. split_and!; try done.
    + by rewrite <-Hg1, (proj2 Hd2), (frame_get _ _ _ _ Hf1) by set_solver.
    + by rewrite (frame_get _ _ _ _ Hf4) by set_solver.
  - intros Huni. eapply link_spent_sublist; [exact (Hspent Huni)|]. intros rows0.
    rewrite (frame_get _ _ _ _ Hf4) by set_solver. intros Hr0.
    destruct (Hsub rows0 Hr0) as (old & Ho & Hincl). exists old. by rewrite <-(proj2 Hd2).
  - intros Hio (Hs & Htk & Hrv). rewrite <-Huid. eapply (shut_out_frame w2 w3); [lia|done|].
    apply Hshut; [io_part|]. unfold files_parse. rewrite (proj2 Hd2), !(frame_get _ _ _ _ Hf1) by set_solver.
    by split_and!.
Qed.

(** ** The throttle *)

(** Requests for an address, and how many of those for [email] go through. *)
Fixpoint let_through (email : string) (reqs : list (Z * string)) (m : gmap string Z) : Z :=
  match reqs with
  | [] => 0
  | (t, e) :: reqs =>
      let '(b, m) := throttle_step s t e m in
      (if negb b && (throttle_key e ==? throttle_key email) then 1 else 0) + let_through email reqs m
  end.

Lemma let_through_nonneg email reqs m : 0 <= let_through email reqs m.
Proof.
  revert m. induction reqs as [|[t e] reqs IH]; intros m; cbn [let_through]; [lia|].
  destruct (throttle_step _ _ _ _) as [b m']. specialize (IH m'). case_match; lia.
Qed.

Lemma Sub_recent t a d : 0 < d <= max_int64 -> Sub t a <? d = true <-> t - a < d.
Proof. unfold Sub, sat64, max_int64, min_int64. lia. Qed.

Context (Hinterval : 0 < acc_resetInterval s <= max_int64).

(** Entries the pruning keeps. *)
Lemma pruned_lookup t (m : gmap string Z) k a :
  m !! k = Some a -> t - a < acc_resetInterval s ->
  (if 1000 <? Z.of_nat (size m)
   then filter (fun ka : string * Z => Sub t ka.2 < acc_resetInterval s) m else m) !! k = Some a.
Proof.
  intros Hk Ha. case_match; [|done]. apply map_lookup_filter_Some. split; [done|].
  apply Z.ltb_lt. by apply Sub_recent.
Qed.

Lemma throttle_recent t e m email a :
  m !! throttle_key email = Some a -> t - a < acc_resetInterval s ->
  (throttle_key e = throttle_key email -> (throttle_step s t e m).1 = true) /\
  (throttle_step s t e m).2 !! throttle_key email = Some a.
Proof.
  intros Hm Ha. unfold throttle_step.
  pose proof (pruned_lookup t m _ a Hm Ha) as Hp. cbv zeta.
  set (m1 := if 1000 <? _ then _ else _) in *. clearbody m1.
  destruct (decide (throttle_key e = throttle_key email)) as [Hk|Hk].
  - rewrite Hk, Hp. rewrite (proj2 (Sub_recent t a _ Hinterval) Ha). done.
  - split; [done|]. destruct (m1 !! throttle_key e) as [b|].
    + case_match; cbn; [done|by rewrite lookup_insert_ne].
    + cbn. by rewrite lookup_insert_ne.
Qed.

Lemma let_through_recent email t0 reqs m a :
  t0 <= a -> Forall (fun te => t0 <= te.1 < t0 + acc_resetInterval s) reqs ->
  m !! throttle_key email = Some a -> let_through email reqs m = 0.
Proof.
  intros Ha Hr. revert m. induction Hr as [|[t e] reqs Ht _ IH]; intros m Hm; [done|].
  cbn [let_through fst] in *. destruct (throttle_recent t e m email a Hm ltac:(lia)) as [Hb Hm'].
  destruct (throttle_step s t e m) as [b m'] eqn:E. cbn [fst snd] in *. rewrite (IH m' Hm').
  case_match eqn:Hc; [|lia]. bool_to_prop. rewrite Hb in * by done. done.
Qed.

Lemma throttle_sets t e m :
  (throttle_step s t e m).1 = false -> (throttle_step s t e m).2 !! throttle_key e = Some t.
Proof.
  unfold throttle_step. cbv zeta. set (m1 := if 1000 <? _ then _ else _). clearbody m1.
  destruct (m1 !! throttle_key e) as [b|].
  - case_match; [done|]. intros _. apply lookup_insert_eq.
  - intros _. apply lookup_insert_eq.
Qed.

(** However many reset mails are asked for, at most one of those
    for one address (up to case and surrounding spaces) goes through in any
    window of the length of the reset interval. *)
Theorem throttle_bound email t0 reqs m :
  Forall (fun te => t0 <= te.1 < t0 + acc_resetInterval s) reqs -> let_through email reqs m <= 1.
Proof.
  intros Hr. revert m. induction Hr as [|[t e] reqs Ht Hrs IH]; intros m; cbn [let_through fst] in *; [lia|].
  pose proof (throttle_sets t e m) as Hset.
  destruct (throttle_step s t e m) as [b m'] eqn:E. cbn [fst snd] in *.
  destruct (negb b && (throttle_key e ==? throttle_key email)) eqn:Hc; [|specialize (IH m'); lia].
  apply andb_true_iff in Hc as [Hb Hk]. bool_to_prop.
  rewrite (let_through_recent email t0 reqs m' t); [lia|lia|done|]. rewrite <-Hk. by apply Hset.
Qed.
End account.
