(* ===== verification/Maintenance.v ===== *)
(** * internal/maintenance/maintenance.go: housekeeping

    [RunOnce] purges what has expired and rotates the signing key when it is
    due.  Its tasks are independent: the errors of all of them are joined.
    The loop of [Run] is a ticker around it. *)
From S2P Require Import Prelude GoTime GoText Encoding Hash Errors Domain Lockout PendingLogins.
From S2P Require Import World Run Store Exec StoreFacts FileStore FileLaws Revocations Keys Password Jwt Session.
From S2P Require Import Authorize TokenService TokenFacts KeyRotation Totp Csrf AuthService AuthFacts.
From S2P Require Import SignIn SecondFactor AccountFacts Metrics.
#[local] Open Scope Z_scope.
#[local] Open Scope go_scope.

(** [mt_keys] is nil when keys are not maintained; [mt_checkpoint] is the
    store's checkpoint when it has one. *)
Record Runner := {
  mt_keys : option KeyService;
  mt_keyMaxAge : Z;
  mt_keyGrace : Z;
  mt_auditRetention : Z;
  mt_audit : bool;
  mt_checkpoint : option (Prog (res unit));
}.

Section maintenance.
Context `{Store} `{KeyLib} (r : Runner).

Definition maintainKeys (keys : KeyService) : Prog (res unit) :=
  let? rotate := ShouldRotate keys (mt_keyMaxAge r) in
  let? _ := (if rotate then
      let? newKey := RotateKey keys (mt_keyGrace r) in
      let! _ := RecordEvent (mt_audit r) {|
        e_Actor := None; e_ActorEmail := "maintenance"; e_Action := "key.rotated";
        e_TargetType := "key"; e_TargetID := kp_Kid newKey; e_Detail := "scheduled rotation"; e_IP := "" |} in
      ret_ok tt
    else ret_ok tt) in
  CleanupExpiredKeys.

Definition errs_of (x : res unit) : list error := match x with Ok _ => [] | Err e => [e] end.

(** The tasks in order. *)
Definition tasks : list (Prog (res unit)) :=
  [Sessions_DeleteExpired; AuthCodes_DeleteExpired; Tokens_DeleteExpired; Revocations_DeleteExpired;
   Verification_DeleteExpired;
   if 0 <? mt_auditRetention r
   then let! t := now in Audit_DeleteBefore (Add t (- mt_auditRetention r))
   else ret_ok tt;
   match mt_keys r with Some keys => maintainKeys keys | None => ret_ok tt end;
   match mt_checkpoint r with Some c => c | None => ret_ok tt end].

Fixpoint run_tasks (l : list (Prog (res unit))) : Prog (list error) :=
  match l with
  | [] => Ret []
  | p :: l => let! x := p in let! errs := run_tasks l in Ret (errs_of x ++ errs)
  end.

(** [errors.Join]: nil when there is none. *)
Definition RunOnce : Prog (list error) := run_tasks tasks.
End maintenance.

(** ** What a run purges *)

Section purge.
Context `{StoreLaws} `{KeyLib} (r : Runner).

(** The rows that had not expired at an instant of the run are what is left. *)
Definition purged {A} (c : Coll (list A)) (expires : A -> Z) (w w' : World) : Prop :=
  forall rows, get c (w_disk w) = FData rows ->
    exists t, instant w w' t /\ get c (w_disk w') = FData (List.filter (fun x => After (expires x) t) rows).

Definition purges {A} (c : Coll (list A)) (expires : A -> Z) {B} (p : Prog B) : Prop :=
  forall w, wp p w (fun _ w' => io_works w w' -> purged c expires w w').

Lemma purged_in {A} (c : Coll (list A)) expires w1 w2 w w' :
  (w_tick w <= w_tick w1)%nat -> (w_tick w2 <= w_tick w')%nat ->
  get c (w_disk w1) = get c (w_disk w) -> get c (w_disk w') = get c (w_disk w2) ->
  purged c expires w1 w2 -> purged c expires w w'.
Proof.
  intros Ht Ht' H1' H2' Hp rows Hr. destruct (Hp rows) as (t & Hi & Hg); [by rewrite H1'|].
  exists t. split; [by eapply (instant_in w1 w2)|by rewrite H2'].
Qed.

Lemma touches_run_tasks cs l : Forall (touches cs) l -> touches cs (run_tasks l).
Proof.
  induction 1 as [|p l Hp _ IH]; cbn [run_tasks]; [touch|].
  apply touches_bind; [exact Hp|intros x]. apply touches_bind; [exact IH|intros errs]. touch.
Qed.

Lemma purged_head {A} (c : Coll (list A)) expires cs p l :
  (forall w, wp p w (upd c (rows_keep (fun t x => After (expires x) t)) w)) ->
  Forall (touches cs) l -> name_of c ∉ cs -> purges c expires (run_tasks (p :: l)).
Proof.
  intros Hp Hl Hc w. cbn [run_tasks]. eapply wp_step; [apply Hp|]. intros x w1 Hu. cbn beta in Hu.
  pose proof (frame_tick _ _ _ (upd_frame _ _ _ _ _ Hu)) as Ht.
  eapply wp_step; [apply (touches_run_tasks _ _ Hl)|]. intros errs w2 Hf. cbn beta in Hf.
  pose proof (frame_tick _ _ _ Hf) as Ht2. apply wp_ret. intros Hio rows Hr.
  destruct (upd_works _ _ _ _ _ _ Hu ltac:(io_part) Hr) as (t & u & Hi & Hres).
  unfold rows_keep in Hres. exists t. split; [by eapply (instant_in w w1)|].
  rewrite (frame_get _ _ _ _ Hf) by done. apply Hres.
Qed.

Lemma purged_tail {A} (c : Coll (list A)) expires cs p l :
  touches cs p -> name_of c ∉ cs -> purges c expires (run_tasks l) ->
  purges c expires (run_tasks (p :: l)).
Proof.
  intros Hp Hc Hl w. cbn [run_tasks]. eapply wp_step; [apply Hp|]. intros x w1 Hf. cbn beta in Hf.
  pose proof (frame_tick _ _ _ Hf) as Ht.
  eapply wp_step; [apply wp_and; [apply (outputs_only_grow (run_tasks l))|apply Hl]|].
  intros errs w2 [[_ Ht2] Hpur]. apply wp_ret. intros Hio.
  eapply (purged_in c expires w1 w2); [lia|lia|by apply (frame_get _ _ _ _ Hf)|done|].
  apply Hpur. io_part.
Qed.

Lemma touches_newKeyPair cs alg priv pub : touches cs (newKeyPair alg priv pub).
Proof. unfold newKeyPair. touch. Qed.
Lemma touches_Generate cs alg : touches cs (GenerateKeyPairForAlg alg).
Proof. unfold GenerateKeyPairForAlg, GenerateKeyPair. touch; apply touches_newKeyPair. Qed.
#[local] Hint Resolve touches_Generate : touch.

Lemma touches_RotateKey ks d : touches [NKeys] (RotateKey ks d).
Proof. unfold RotateKey, locked, generate_and_activate, setActive, mapErr. touch. Qed.
Lemma touches_delete_expired l : touches [NKeys] (delete_expired l).
Proof. induction l as [|k l IH]; cbn [delete_expired]; unfold mapErr; touch; exact IH. Qed.
Lemma touches_CleanupExpiredKeys : touches [NKeys] CleanupExpiredKeys.
Proof. unfold CleanupExpiredKeys, locked. touch. apply touches_delete_expired. Qed.

Lemma touches_maintainKeys ks : touches [NKeys; NAudit] (maintainKeys r ks).
Proof.
  unfold maintainKeys, ShouldRotate. touch; try apply touches_GetActiveKey.
  - eapply touches_sub; [apply touches_RotateKey|sub_files].
  - eapply touches_sub; [apply touches_CleanupExpiredKeys|sub_files].
Qed.

(** A checkpoint rewrites how the data is stored, not the data. *)
Context (Hcheckpoint : forall c, mt_checkpoint r = Some c -> touches [] c).

Lemma touches_last_tasks :
  Forall (touches [NKeys; NAudit]) (drop 5 (tasks r)).
Proof.
  unfold tasks. cbn [drop]. repeat constructor.
  - touch.
  - destruct (mt_keys r); [apply touches_maintainKeys|touch].
  - destruct (mt_checkpoint r) as [c|]; [|touch].
    eapply touches_sub; [by apply Hcheckpoint|sub_files].
Qed.

Lemma touches_more cs (l : list (Prog (res unit))) : Forall (touches [NKeys; NAudit]) l -> [NKeys; NAudit] ⊆ cs -> Forall (touches cs) l.
Proof. intros Hl Hs. eapply Forall_impl; [|exact Hl]. intros p. by apply touches_weaken. Qed.

(** Claim C38.  When the storage works, a maintenance run leaves in each of
    the five files exactly the sessions, codes, refresh tokens, revocations
    and links of before that had not expired at an instant of the run; a file
    that does not parse does not keep the others from being purged. *)
Theorem maintenance_purges w errs w' :
  run (RunOnce r) w = (errs, w') -> io_works w w' ->
  purged CSessions session_ExpiresAt w w' /\ purged CAuthCodes ac_ExpiresAt w w' /\
  purged CTokens token_ExpiresAt w w' /\ purged CRevocations rv_ExpiresAt w w' /\
  purged CVerification vt_ExpiresAt w w'.
Proof.
  intros Hr Hio. pose proof touches_last_tasks as Hlast.
  unfold RunOnce, tasks in *. cbn [drop] in Hlast.
  assert (forall (A : Type) (c : Coll (list A)) ex, purges c ex (run_tasks (tasks r)) -> purged c ex w w')
    as Hrun.
  { intros A c ex Hp. exact (wp_run _ _ _ _ _ (Hp w) Hr Hio). }
  unfold tasks in Hrun. split_and!; apply Hrun.
  - apply (purged_head _ _ [NAuthCodes; NTokens; NRevocations; NVerification; NKeys; NAudit]);
      [apply law_Sessions_DeleteExpired| |set_solver].
    repeat (constructor; [solve [store_touches]|]). by apply touches_more; [|set_solver].
  - apply (purged_tail _ _ [NSessions]); [touch|set_solver|].
    apply (purged_head _ _ [NTokens; NRevocations; NVerification; NKeys; NAudit]);
      [apply law_AuthCodes_DeleteExpired| |set_solver].
    repeat (constructor; [solve [store_touches]|]). by apply touches_more; [|set_solver].
  - do 2 (apply (purged_tail _ _ [NSessions; NAuthCodes]); [touch|set_solver|]).
    apply (purged_head _ _ [NRevocations; NVerification; NKeys; NAudit]);
      [apply law_Tokens_DeleteExpired| |set_solver].
    repeat (constructor; [solve [store_touches]|]). by apply touches_more; [|set_solver].
  - do 3 (apply (purged_tail _ _ [NSessions; NAuthCodes; NTokens]); [touch|set_solver|]).
    apply (purged_head _ _ [NVerification; NKeys; NAudit]);
      [apply law_Revocations_DeleteExpired| |set_solver].
    repeat (constructor; [solve [store_touches]|]). by apply touches_more; [|set_solver].
  - do 4 (apply (purged_tail _ _ [NSessions; NAuthCodes; NTokens; NRevocations]); [touch|set_solver|]).
    apply (purged_head _ _ [NKeys; NAudit]); [apply law_Verification_DeleteExpired|done|set_solver].
Qed.
End purge.
