(* ===== verification/AdminFacts.v ===== *)
(** * What the administration pages do

    They are open to active administrators only; no request locks the
    administrator who makes it out; and disabling a user ends what the user
    holds. *)
From S2P Require Import Prelude GoTime GoText GoUrl Encoding Errors Domain Lockout PendingLogins.
From S2P Require Import World Run Store Exec StoreFacts Scope FileStore Revocations Keys Password Jwt Totp Csrf Session.
From S2P Require Import AuthService Passkeys Account Authorize TokenService Http LoginHandlers ClientForm.
From S2P Require Import AccountHandlers AdminHandlers AdminClients TokenFacts AuthFacts SignIn OidcFacts SecondFactor.
From S2P Require Import LoginFacts CutOff AccountFacts AccountScope KeyRotation Maintenance Metrics.
#[local] Open Scope Z_scope.
#[local] Open Scope go_scope.

(** ** An administrator's standing *)

Definition good (me : string) (u : User) : Prop :=
  user_ID u = me -> user_Active u = true /\ user_Admin u = true.

(** User IDs are unique, and [me] is an active administrator. *)
Definition standing_in (me : string) (rows : list User) : Prop :=
  unique_by user_ID rows /\ exists u, u ∈ rows /\ user_ID u = me /\ user_Active u = true /\ user_Admin u = true.
Definition standing `{Env} (me : string) (w : World) : Prop :=
  forall rows, get CUsers (w_disk w) = FData rows -> standing_in me rows.

Definition other_files : list coll_name :=
  [NClients; NSessions; NAuthCodes; NTokens; NRevocations; NConsents; NVerification; NPasskeys; NGroups;
   NAudit; NKeys].

Lemma good_of_standing me rows u : standing_in me rows -> u ∈ rows -> good me u.
Proof.
  intros (Hu & a & Ha & Hid & Hact & Hadm) Hin Hme.
  by rewrite (unique_by_elem user_ID rows u a Hu Hin Ha) by congruence.
Qed.

Lemma standing_remove me (id : string) rows l :
  standing_in me rows -> id <> me -> remove_first (fun u => user_ID u ==? id) rows = Some l -> standing_in me l.
Proof.
  intros (Hu & a & Ha & Hid & Hrest) Hne Hr. split; [by eapply (unique_by_remove user_ID)|].
  exists a. split; [|done]. apply remove_first_Some in Hr as (l1 & x & l2 & -> & -> & Hx & _).
  cbn beta in Hx. bool_to_prop. apply elem_of_app. apply elem_of_app in Ha as [|[->|]%elem_of_cons]; [by left| |by right].
  congruence.
Qed.

Lemma standing_replace me u t rows l :
  standing_in me rows -> good me u ->
  replace_first (fun x => user_ID x ==? user_ID u) (fun _ => user_set_updated t u) rows = Some l ->
  standing_in me l.
Proof.
  intros (Hu & a & Ha & Hid & Hrest) Hg Hr. split.
  { eapply (unique_by_replace user_ID); [|exact Hr|exact Hu]. intros x Hx. cbn beta in *. bool_to_prop.
    by rewrite user_set_updated_ID. }
  apply replace_first_Some in Hr as (l1 & x & l2 & -> & -> & Hx & _). cbn beta in Hx. bool_to_prop.
  destruct (decide (user_ID u = me)) as [He|Hne].
  - destruct (Hg He). exists (user_set_updated t u). split; [set_solver|]. rewrite user_set_updated_ID. by destruct u.
  - exists a. split; [|done]. apply elem_of_app in Ha as [|[->|]%elem_of_cons]; [set_solver|congruence|set_solver].
Qed.

Section standing.
Context `{StoreLaws} `{UnicodeTables} `{KeyLib} `{Argon2} `{WebAuthn} (me : string).

#[export] Instance standing_stable : Stable (standing me) other_files.
Proof.
  intros w w' Hw Hf rows Hr. apply Hw. rewrite <-Hr. symmetry. apply (frame_get _ _ _ _ Hf).
  by apply (bool_decide_eq_true_1 _).
Qed.

Lemma standing_upd {B} (f : Z -> string -> list User -> res (list User * B)) w r w' :
  standing me w -> upd CUsers f w r w' ->
  (forall t id rows rows' b, standing_in me rows -> f t id rows = Ok (rows', b) -> standing_in me rows') ->
  standing me w'.
Proof. intros Hw Hu Hf. exact (upd_contents CUsers f (standing_in me) _ w r w' Hw Hu (fun _ Ha => Ha) Hf). Qed.

Lemma standing_Users_Update u :
  good me u -> within (standing me) (Users_Update u) (gives (fun u' => user_ID u' = user_ID u)).
Proof.
  intros Hg w Hw. eapply wp_mono; [apply law_Users_Update|]. intros r w' Hu. cbn beta in Hu. split.
  - eapply standing_upd; [exact Hw|exact Hu|]. intros t id rows rows' b Hs Hf. unfold rows_replace in Hf.
    destruct (replace_first _ _ rows) eqn:Hr; [|done]. injection Hf as <- _. by eapply standing_replace.
  - destruct r as [u'|e]; [|done]. apply upd_Ok in Hu as (rows & t & id & rows' & _ & _ & _ & Hr & _).
    unfold rows_replace in Hr. case_match; simplify_eq. cbn. by rewrite user_set_updated_ID.
Qed.

Lemma standing_Users_Create u : within (standing me) (Users_Create u) (fun _ => True).
Proof.
  intros w Hw. eapply wp_mono; [apply law_Users_Create|]. intros r w' Hu. cbn beta in Hu. split; [|done].
  eapply standing_upd; [exact Hw|exact Hu|]. intros t id rows rows' b (Hun & a & Ha & Hrest) Hf.
  unfold rows_add in Hf. destruct (omap _ rows) eqn:E; [|done]. injection Hf as <- _. split.
  - apply unique_by_app_fresh; [done|]. intros y Hy Heq. pose proof (omap_nil_None _ _ _ E Hy) as Hn.
    cbn beta in Hn. rewrite bool_decide_eq_true_2 in Hn; [done|]. rewrite Heq. by destruct u.
  - exists a. split; [set_solver|done].
Qed.

Lemma standing_Users_Delete id : id <> me -> within (standing me) (Users_Delete id) (fun _ => True).
Proof.
  intros Hne w Hw. eapply wp_mono; [apply law_Users_Delete|]. intros r w' Hu. cbn beta in Hu. split; [|done].
  eapply standing_upd; [exact Hw|exact Hu|]. intros t i rows rows' b Hs Hf. unfold rows_remove in Hf.
  destruct (remove_first _ rows) eqn:Hr; [|done]. injection Hf as <- _. by eapply standing_remove.
Qed.

Lemma standing_Users_GetByID id :
  within (standing me) (Users_GetByID id) (gives (fun u => user_ID u = id /\ good me u)).
Proof.
  apply within_and; [eapply within_touches; [apply standing_stable|touch]|]. intros w Hw.
  eapply wp_mono; [apply law_Users_GetByID|]. intros [u|e] w' Hq; [|done]. cbn beta in Hq.
  apply qry_find in Hq as (rows & Hg & [Hx Hp]%find_first_Some). cbn beta in Hp. bool_to_prop.
  split; [done|]. eapply good_of_standing; [by apply Hw|done].
Qed.
End standing.

#[export] Hint Resolve standing_Users_Update standing_Users_Create standing_Users_Delete
  standing_Users_GetByID : scope.

#[export] Hint Extern 4 (touches _ (RotateKey _ _)) =>
  (eapply touches_sub; [apply touches_RotateKey|sub_files]) : touch.

Section pages.
Context `{StoreLaws} `{UnicodeTables} `{KeyLib} `{Argon2} `{WebAuthn} (h : AdminConfig) (admin : User).

#[local] Abbreviation me := (user_ID admin).
#[local] Abbreviation calm_page p := (within (standing me) p (fun _ => True)).

Lemma standing_base r section : calm_page (admin_base h r admin section).
Proof. unfold admin_base, GenerateToken. scope. Qed.
Lemma standing_record r action ttype tid detail : calm_page (admin_record h r admin action ttype tid detail).
Proof. unfold admin_record. scope. Qed.
Lemma standing_fail status msg : calm_page (fail_page status msg).
Proof. by apply within_ret. Qed.
Lemma standing_redirect path flash : calm_page (redirect path flash).
Proof. by apply within_ret. Qed.
#[local] Hint Resolve standing_base standing_record standing_fail standing_redirect : scope.

Lemma standing_checkCSRF r k : (forall rq, calm_page (k rq)) -> calm_page (admin_checkCSRF h r k).
Proof. intros Hk. unfold admin_checkCSRF. destruct (ParseForm r) as [rq ok]. scope. Qed.

Lemma standing_load {A} (get_by_id : string -> Prog (res A)) what lower r k P :
  within (standing me) (get_by_id (URLParam r "id")) (gives P) -> (forall x, P x -> calm_page (k x)) ->
  calm_page (load_row get_by_id what lower r k).
Proof. intros Hg Hk. unfold load_row. scope. Qed.

Lemma standing_user_action r k :
  (forall rq u, good me u -> calm_page (k rq u)) -> calm_page (user_action h r k).
Proof.
  intros Hk. apply standing_checkCSRF. intros rq. eapply standing_load; [apply standing_Users_GetByID|].
  intros u [_ Hu]. by apply Hk.
Qed.

Lemma standing_form r status data msg : calm_page (renderUserForm h r admin status data msg).
Proof. unfold renderUserForm. scope. Qed.
Lemma standing_groupMemberships userID : calm_page (groupMemberships userID).
Proof. unfold groupMemberships. scope. Qed.
Lemma standing_apply_groups userID wanted l : calm_page (apply_groups userID wanted l).
Proof. induction l as [|[g m] l IH]; cbn [apply_groups]; scope. Qed.
Lemma standing_SendPasswordReset s u : calm_page (SendPasswordReset s u).
Proof. unfold SendPasswordReset, issueToken. scope. Qed.
Lemma standing_SendEmailVerification s u : calm_page (SendEmailVerification s u).
Proof. unfold SendEmailVerification, issueToken. scope. Qed.
Lemma standing_end_all userID : calm_page (end_all userID).
Proof. unfold end_all. scope. Qed.
#[local] Hint Resolve standing_form standing_groupMemberships standing_apply_groups
  standing_SendPasswordReset standing_SendEmailVerification standing_end_all : scope.

Lemma standing_welcome r rq invite u : calm_page (welcome h r admin rq invite u).
Proof. unfold welcome. scope. Qed.
Lemma standing_randomSecret n : calm_page (randomSecret n).
Proof. unfold randomSecret. scope. Qed.
#[local] Hint Resolve standing_welcome standing_randomSecret : scope.

Lemma standing_CreateUser r : calm_page (admin_CreateUser h r admin).
Proof. apply standing_checkCSRF. intros rq. unfold chosen_password. scope. Qed.

(** ** The pages about a user *)

Lemma good_set_password hash u : good me u -> good me (user_set_password hash u).
Proof. by destruct u. Qed.
Lemma good_reset u : good me u -> good me (user_set_recovery [] (ClearTOTP u)).
Proof. by destruct u. Qed.
#[local] Hint Resolve good_set_password good_reset : scope.

Lemma standing_SetPassword u password : good me u -> calm_page (SetPassword u password).
Proof. intros Hu. unfold SetPassword. scope. Qed.
Lemma standing_ResetSecondFactors u : good me u -> calm_page (ResetSecondFactors u).
Proof. intros Hu. unfold ResetSecondFactors. scope. Qed.
Lemma standing_clear_user userID : calm_page (clear_user userID).
Proof. unfold clear_user. scope. Qed.
#[local] Hint Resolve standing_SetPassword standing_ResetSecondFactors standing_clear_user : scope.

Lemma standing_UpdateUser r : calm_page (UpdateUser h r admin).
Proof.
  apply standing_user_action. intros rq u Hu. cbv zeta. destruct (field rq "email" ==? ""); [scope|].
  destruct ((user_ID u ==? me) && negb (user_Active (updated_user rq admin u))) eqn:Hself; [scope|].
  assert (good me (updated_user rq admin u)).
  { intros Hid. cbn in Hid. rewrite Hid, bool_decide_eq_true_2 in Hself by done.
    apply negb_false_iff in Hself. split; [done|]. cbn. by rewrite Hid, bool_decide_eq_true_2. }
  scope.
Qed.

Lemma standing_DeleteUser r : calm_page (DeleteUser h r admin).
Proof.
  apply standing_user_action. intros rq u Hu. destruct (user_ID u ==? me) eqn:Hself; [scope|].
  bool_to_prop. scope.
Qed.

Lemma standing_EditUser r : calm_page (EditUser h r admin).
Proof.
  eapply standing_load; [apply standing_Users_GetByID|]. intros u Hu. scope.
Qed.

(** ** The other pages *)

Lemma standing_group_action r k : (forall rq g, calm_page (k rq g)) -> calm_page (group_action h r k).
Proof.
  intros Hk. apply standing_checkCSRF. intros rq.
  apply (standing_load _ _ _ _ _ (fun _ => True)); [|by auto].
  eapply within_weaken; [scope_leaf|]. by intros [] _.
Qed.
Lemma standing_client_action r k : (forall rq c, calm_page (k rq c)) -> calm_page (client_action h r k).
Proof.
  intros Hk. apply standing_checkCSRF. intros rq.
  apply (standing_load _ _ _ _ _ (fun _ => True)); [|by auto].
  eapply within_weaken; [scope_leaf|]. by intros [] _.
Qed.

Lemma standing_group_form r status isNew g members msg :
  calm_page (renderGroupForm h r admin status isNew g members msg).
Proof. unfold renderGroupForm. scope. Qed.
Lemma standing_load_members ids : calm_page (load_members ids).
Proof. induction ids; cbn [load_members]; scope. Qed.
#[local] Hint Resolve standing_group_form standing_load_members : scope.
Lemma standing_groupMembers id : calm_page (groupMembers id).
Proof. unfold groupMembers. scope. Qed.
Lemma standing_count_members l : calm_page (count_members l).
Proof. induction l; cbn [count_members]; scope. Qed.
Lemma standing_client_form r status isNew c secret flash msg :
  calm_page (renderClientForm h r admin status isNew c secret flash msg).
Proof. unfold renderClientForm. scope. Qed.
Lemma standing_newClientSecret c : calm_page (newClientSecret c).
Proof. unfold newClientSecret, HashClientSecret. scope. Qed.
#[local] Hint Resolve standing_groupMembers standing_count_members standing_client_form
  standing_newClientSecret : scope.

(** Every handler, by what it is made of. *)
Ltac page :=
  lazymatch goal with
  | |- within _ (admin_CreateUser _ _ _) _ => apply standing_CreateUser
  | |- within _ (EditUser _ _ _) _ => apply standing_EditUser
  | |- within _ (UpdateUser _ _ _) _ => apply standing_UpdateUser
  | |- within _ (DeleteUser _ _ _) _ => apply standing_DeleteUser
  | |- within _ ?p _ =>
      let f := head_of p in unfold f;
      lazymatch goal with
      | |- within _ (user_action _ _ _) _ => apply standing_user_action; intros ? ? ?
      | |- within _ (group_action _ _ _) _ => apply standing_group_action; intros ? ?
      | |- within _ (client_action _ _ _) _ => apply standing_client_action; intros ? ?
      | |- within _ (admin_checkCSRF _ _ _) _ => apply standing_checkCSRF; intros ?
      | |- _ => unfold loadGroup, loadClient, load_row, ListKeys
      end; scope
  end.

Lemma handlers_keep_standing :
  Forall (fun x => forall r, calm_page (x.2 r admin)) (admin_handlers h).
Proof. unfold admin_handlers. repeat (apply List.Forall_cons; [intros r; cbn [snd]; page|]). constructor. Qed.
End pages.

(** ** The gate *)

Section gate.
Context `{StoreLaws} `{UnicodeTables} `{KeyLib} `{Argon2} `{WebAuthn} (h : AdminConfig).

Lemma Admin_Routes_elem method pattern handler :
  (method, pattern, handler) ∈ Admin_Routes h ->
  exists next, (method, pattern, next) ∈ admin_handlers h /\ handler = requireAdmin next.
Proof.
  intros Hx. unfold Admin_Routes in Hx. apply list_elem_of_fmap in Hx as ([[m p] next] & Heq & Hx).
  injection Heq as -> -> ->. by exists next.
Qed.

(** Who is at the gate. *)
Lemma GetCurrentUser_spec r w :
  wp (GetCurrentUser r) w (fun res w' => frame [NSessions] w w' /\
    forall user, res = Ok user -> same_disk w w' /\ exists session, session_live r w w' session user).
Proof.
  unfold GetCurrentUser. eapply wp_step; [apply CurrentSession_spec|].
  intros [[session user]|e] w1 [Hf Hs]; apply wp_ret; (split; [done|]); [|done].
  intros u [= <-]. destruct (Hs session user eq_refl). split; [done|by exists session].
Qed.

Definition denied (r : HttpRequest) (resp : Response) : Prop :=
  resp = Redirected ("/login?return_url=" +:+ QueryEscape (RequestURI (hr_URL r))) StatusFound \/
  exists email, resp = Rendered StatusForbidden (MessagePage (message "Access Denied" ""
    ("Your account (" +:+ email +:+ ") is not an administrator.") "/logout" "Sign out")).

(** Claim C30.  Every page of the administration is for administrators: either
    the request carries a live session of an active user with the flag, or
    the answer is the way to the login page or a refusal, and no file has
    been touched but that of sessions (an expired one is deleted). *)
Theorem admin_gate method pattern handler r w resp w' :
  (method, pattern, handler) ∈ Admin_Routes h -> run (handler r) w = (resp, w') ->
  (exists session user w1, session_live (with_form [] r) w w1 session user /\ user_Admin user = true) \/
  (denied r resp /\ frame [NSessions] w w').
Proof.
  intros (next & _ & ->)%Admin_Routes_elem Hrun. pattern resp, w'. refine (wp_run _ _ _ _ _ _ Hrun).
  unfold requireAdmin. eapply wp_step; [apply GetCurrentUser_spec|].
  intros [user|e] w1 [Hf Hs].
  - destruct (Hs user eq_refl) as [_ [session Hlive]]. destruct (user_Admin user) eqn:Ha.
    + apply wp_intro. intros resp' w2 _. left. by exists session, user, w1.
    + apply wp_ret. right. split; [right; by eexists|done].
  - apply wp_ret. right. split; [by left|done].
Qed.

(** ** Standing *)

(** Claim C31.  Administrators cannot lock themselves out: whatever an
    administrator requests from the administration pages, the administrator's
    row is afterwards still there, active, and an administrator's. *)
Theorem admin_keeps_standing me method pattern handler r w :
  (method, pattern, handler) ∈ Admin_Routes h -> cookie_of me w r -> standing me w ->
  standing me (run (handler r) w).2.
Proof.
  intros (next & Hx & ->)%Admin_Routes_elem Hc Hw.
  assert (wp (requireAdmin next r) w (fun _ w' => standing me w')) as Hwp.
  { unfold requireAdmin. eapply wp_step; [apply wp_and; [apply GetCurrentUser_spec|by apply user_of_me]|].
    intros [user|e] w1 [[Hf _] [_ Hme]]; cbn [gives] in Hme.
    - assert (standing me w1) as Hw1 by by eapply standing_stable; [|eapply frame_weaken; [|exact Hf]; set_solver].
      apply wp_if; intros _; [by apply wp_ret|]. apply wp_bind, wp_emit.
      subst me. pose proof (handlers_keep_standing h user) as Hall. rewrite List.Forall_forall in Hall.
      apply list_elem_of_In in Hx. eapply wp_mono; [apply (Hall _ Hx r); exact Hw1|by intros ? ? [? _]].
    - apply wp_ret. eapply standing_stable; [exact Hw|]. eapply frame_weaken; [|exact Hf]. set_solver. }
  destruct (run (requireAdmin next r) w) as [a w'] eqn:E. exact (wp_run _ _ _ _ _ Hwp E).
Qed.
End gate.

(** ** Disabling a user *)

Section disable.
Context `{StoreLaws} `{!EnvLaws} `{UnicodeTables} `{KeyLib} `{Argon2Laws} `{WebAuthn} (h : AdminConfig).

Lemma touches_end_all userID : touches [NSessions; NTokens; NRevocations] (end_all userID).
Proof. unfold end_all, ignore. touch. Qed.

Lemma end_all_spec userID w :
  wp (end_all userID) w (fun _ w' => frame [NSessions; NTokens; NRevocations] w w' /\
    (io_works w w' -> files_parse w -> shut_out w w' userID)).
Proof.
  apply wp_and; [apply touches_end_all|]. unfold end_all.
  eapply wp_step; [apply wp_and; [|apply Sessions_gone]|].
  { apply (touches_bind [NSessions]); [touch|intros ?; touch]. }
  intros [] w1 [Hf1 Hgone]. cbn beta in *.
  eapply wp_mono; [apply wp_and; [|apply Tokens_gone]|].
  { apply (touches_bind [NTokens; NRevocations]); [touch|intros ?; touch]. }
  intros [] w2 [Hf2 Hrev]. cbn beta in *. intros Hio (Hs & [l Hl] & [k Hk]).
  pose proof (frame_tick _ _ _ Hf1). pose proof (frame_tick _ _ _ Hf2). split.
  { intros rows Hr. apply (Hgone ltac:(io_part) Hs). by rewrite <-(frame_get _ _ _ _ Hf2) by set_solver. }
  destruct (Hrev ltac:(io_part)) as (Htok & t & Hi & Hmark).
  { exists l. by rewrite (frame_get _ _ _ _ Hf1) by set_solver. }
  { exists k. by rewrite (frame_get _ _ _ _ Hf1) by set_solver. }
  split; [exact Htok|]. exists t. split; [by eapply (instant_in w1 w2)|exact Hmark].
Qed.

(** The answer when the form was accepted. *)
Definition updated_page (user : User) : Response :=
  Redirected (user_page user +:+ "?flash=" +:+ QueryEscape "User updated") StatusFound.

(** Every row of the user is inactive. *)
Definition disabled (w : World) (userID : string) : Prop :=
  forall rows u, get CUsers (w_disk w) = FData rows -> unique_by user_ID rows -> u ∈ rows ->
    user_ID u = userID -> user_Active u = false.

Lemma update_disables u w r w' :
  user_Active u = false ->
  upd CUsers (rows_replace (fun x => user_ID x ==? user_ID u) (fun t _ => user_set_updated t u)
    (fun t => user_set_updated t u) (NotFound "user" (user_ID u))) w (Ok r) w' ->
  disabled w' (user_ID u).
Proof.
  intros Ha (rows & t & id & rows' & _ & _ & _ & Hr & Hg)%upd_Ok x y Hx Hun Hy Hid.
  rewrite Hg in Hx. injection Hx as <-. unfold rows_replace in Hr.
  destruct (replace_first _ _ rows) as [l|] eqn:E; [|done]. injection Hr as <- _.
  apply replace_first_Some in E as (l1 & z & l2 & -> & -> & _).
  assert (y = user_set_updated t u) as ->; [|by destruct u].
  eapply (unique_by_elem user_ID); [exact Hun|exact Hy|set_solver|]. by rewrite user_set_updated_ID.
Qed.

Lemma disabled_frame cs w w' userID :
  disabled w userID -> frame cs w w' -> NUsers ∉ cs -> disabled w' userID.
Proof. intros Hd Hf Hn rows u Hr. apply Hd. by rewrite <-(frame_get _ _ _ _ Hf). Qed.

(** A form is not the page that follows an accepted one. *)
Lemma wp_form r admin status data msg user (P : World -> Prop) w :
  wp (renderUserForm h r admin status data msg) w (fun resp w' => resp = updated_page user -> P w').
Proof.
  unfold renderUserForm. apply wp_any. intros b w1. apply wp_any. intros l w2. by apply wp_ret.
Qed.

(** Claim C32.  When an administrator unticks "active" on the form of an
    active user and the form is accepted, the user is somebody else and is
    disabled, and, the storage working, no session of theirs is left, every
    refresh token is revoked, and every access token issued until then is
    behind a watermark. *)
Theorem user_disabled_sound r admin user w w' :
  user_row w (URLParam r "id") user -> user_Active user = true -> AdminHandlers.checked (parsed r) "active" = false ->
  run (UpdateUser h r admin) w = (updated_page user, w') ->
  user_ID user <> user_ID admin /\ disabled w' (user_ID user) /\
  (io_works w w' -> files_parse w -> shut_out w w' (user_ID user)).
Proof.
  intros Hrow Hact Hchk Hrun.
  set (Q := fun (resp : Response) w' => resp = updated_page user ->
    user_ID user <> user_ID admin /\ disabled w' (user_ID user) /\
    (io_works w w' -> files_parse w -> shut_out w w' (user_ID user))).
  refine (wp_run _ _ Q _ _ _ Hrun eq_refl). clear Hrun w'. subst Q.
  unfold UpdateUser, user_action, admin_checkCSRF, parsed in *.
  destruct (ParseForm r) as [rq ok]. cbn [fst] in Hchk. apply wp_if; intros _; [by apply wp_ret|].
  apply wp_skip; [unfold ValidateToken; touch|]. intros [v|e] w1 Hf1; [|by apply wp_ret].
  unfold loadUser, load_row. eapply wp_step; [apply law_Users_GetByID|].
  intros [u|e] w2 Hq; cbn beta in Hq; [|apply wp_if; intros _; by apply wp_ret].
  pose proof (qry_same _ _ _ _ _ Hq) as Hd2. apply qry_find in Hq as (rows & Hg & Hfind).
  assert (u = user) as ->.
  { destruct Hrow as (rows0 & Hg0 & Hfind0). rewrite (frame_get _ _ _ _ Hf1) in Hg by set_solver. congruence. }
  cbv zeta. apply wp_if; intros _; [apply wp_form|].
  assert (user_Active (updated_user rq admin user) = false) as Hoff by exact Hchk. rewrite Hoff.
  cbn [negb]. rewrite andb_true_r.
  apply wp_if; intros Hself; [apply wp_form|]. bool_to_prop.
  eapply wp_step; [apply law_Users_Update|]. intros [u'|e] w3 Hu; cbn beta in Hu; [|apply wp_form].
  pose proof (upd_frame _ _ _ _ _ Hu) as Hf3. apply update_disables in Hu as Hdis; [|exact Hoff].
  rewrite Hact. rewrite andb_true_r. eapply wp_step; [apply end_all_spec|]. intros [] w4 [Hf4 Hshut]. cbn beta in *.
  apply wp_skip; [unfold admin_record, RecordEvent, ignore; touch|]. intros [] w5 Hf5. apply wp_ret.
  assert (frame [NUsers; NAudit] w w3) as Hf03.
  { etransitivity; [eapply frame_weaken; [|exact Hf1]; set_solver|].
    etransitivity; [apply same_disk_frame; exact Hd2|]. eapply frame_weaken; [|exact Hf3]. set_solver. }
  pose proof (frame_tick _ _ _ Hf03). pose proof (frame_tick _ _ _ Hf4). pose proof (frame_tick _ _ _ Hf5).
  intros _. split; [done|]. split.
  - eapply disabled_frame; [|exact Hf5|set_solver]. eapply disabled_frame; [exact Hdis|exact Hf4|set_solver].
  - intros Hio (Hs & Htk & Hrv). eapply (shut_out_frame w3 w4); [lia|exact Hf5|].
    apply Hshut; [io_part|]. unfold files_parse. rewrite !(frame_get _ _ _ _ Hf03) by set_solver. by split_and!.
Qed.
End disable.
