(* ===== verification/Bootstrap.v ===== *)
(** * cmd/idpico/main.go: what a start does to the store

    [bootstrapData], [bootstrapGroups] and [grantAdmins] run one after the
    other on every start, with the lists of the configuration.  What they log
    is left out. *)
From S2P Require Import Prelude GoTime GoText Encoding GoUrl GoDuration GoNetip Errors Domain Lockout PendingLogins.
From S2P Require Import World Run Metrics Store Exec StoreFacts Scope Keys Password Totp Csrf Session AuthService.
From S2P Require Import ClientForm Config.
#[local] Open Scope Z_scope.
#[local] Open Scope go_scope.

Section bootstrap.
Context `{Store} `{UnicodeTables} `{Argon2}.

(** ** Users and clients *)

Definition provisioned_user (id : string) (u : BootstrapUser) (hash : string) : User := {|
  user_ID := id; user_Email := bu_Email u; user_PasswordHash := hash; user_DisplayName := bu_Name u;
  user_GivenName := ""; user_FamilyName := ""; user_Active := true; user_EmailVerified := true;
  user_Admin := false; user_TOTPSecret := ""; user_TOTPLastStep := 0; user_RecoveryCodes := [];
  user_CreatedAt := zero_time; user_UpdatedAt := zero_time |}.

Definition bootstrap_one_user (u : BootstrapUser) : Prog unit :=
  let! existing := Users_GetByEmail (bu_Email u) in
  match existing with
  | Ok _ => Ret tt
  | Err _ =>
      let! hash := HashPassword (bu_Password u) in
      match hash with
      | Err _ => Ret tt
      | Ok hash =>
          let! id := newUUID in
          ignore (Users_Create (provisioned_user id u hash))
      end
  end.

Fixpoint firstInvalidRedirect (uris : list string) : option error :=
  match uris with
  | [] => None
  | uri :: uris => match ValidateRedirectURI uri with Err e => Some e | Ok _ => firstInvalidRedirect uris end
  end.

Definition provisioned_client (c : BootstrapClient) (secretHash : string) : Client := {|
  client_ID := bc_ID c; client_Secret := secretHash; client_Name := bc_ID c;
  client_RedirectURIs := bc_RedirectURIs c; client_GrantTypes := ["authorization_code"; "refresh_token"];
  client_Scopes := ["openid"; "profile"; "email"; "offline_access"; "groups"]; client_Public := bc_Public c;
  client_SkipConsent := false; client_MinimalIDToken := false; client_AccessTokenTTL := 0;
  client_RefreshTokenTTL := 0; client_CreatedAt := zero_time; client_UpdatedAt := zero_time |}.

Definition bootstrap_one_client (c : BootstrapClient) : Prog unit :=
  let! existing := Clients_GetByID (bc_ID c) in
  match existing with
  | Ok _ => Ret tt
  | Err _ =>
      match firstInvalidRedirect (bc_RedirectURIs c) with
      | Some _ => Ret tt
      | None =>
          let! hash := (if bc_Secret c !=? "" then HashClientSecret (bc_Secret c) else ret_ok "") in
          match hash with
          | Err _ => Ret tt
          | Ok secretHash => ignore (Clients_Create (provisioned_client c secretHash))
          end
      end
  end.

Fixpoint for_each {A} (f : A -> Prog unit) (l : list A) : Prog unit :=
  match l with
  | [] => Ret tt
  | x :: l => let! _ := f x in for_each f l
  end.

Definition bootstrapData (cfg : Config) : Prog unit :=
  let! _ := for_each bootstrap_one_user (ParseBootstrapUsers cfg) in
  for_each bootstrap_one_client (ParseBootstrapClients cfg).

(** ** Groups *)

Definition add_bootstrap_member (group : Group) (email : string) : Prog unit :=
  let! user := Users_GetByEmail email in
  match user with
  | Err _ => Ret tt
  | Ok user => ignore (Groups_AddMember (group_ID group) (user_ID user))
  end.

Definition provisioned_group (id name : string) : Group := {|
  group_ID := id; group_Name := name; group_Description := "";
  group_CreatedAt := zero_time; group_UpdatedAt := zero_time |}.

Definition bootstrap_one_group (bg : BootstrapGroup) : Prog unit :=
  let! group := Groups_GetByName (bg_Name bg) in
  let! group := (match group with
    | Ok group => Ret (Some group)
    | Err _ =>
        let! id := newUUID in
        let! created := Groups_Create (provisioned_group id (bg_Name bg)) in
        Ret (match created with Ok group => Some group | Err _ => None end)
    end) in
  match group with
  | Some group => for_each (add_bootstrap_member group) (bg_Members bg)
  | None => Ret tt
  end.

Definition bootstrapGroups (cfg : Config) : Prog unit := for_each bootstrap_one_group (ParseBootstrapGroups cfg).

(** ** Administrators *)

Definition user_set_admin (admin : bool) (u : User) : User :=
  let '(Build_User i e p d g f a v _ s l r c m) := u in Build_User i e p d g f a v admin s l r c m.

Definition grant_one (email : string) : Prog unit :=
  let! user := Users_GetByEmail email in
  match user with
  | Err _ => Ret tt
  | Ok user =>
      if user_Admin user then Ret tt
      else
        let! u := Users_Update (user_set_admin true user) in
        match u with
        | Err _ => Ret tt
        | Ok user =>
            RecordEvent true {|
              e_Actor := None; e_ActorEmail := "IDPICO_ADMIN_EMAILS"; e_Action := "user.updated";
              e_TargetType := "user"; e_TargetID := user_ID user;
              e_Detail := email +:+ " admin: false -> true (IDPICO_ADMIN_EMAILS at startup)"; e_IP := "" |}
        end
  end.

Definition grantAdmins (cfg : Config) : Prog unit := for_each grant_one (ParseAdminEmails cfg).

(** ** The three together, as [main] runs them: it also looks whether there are users, to warn *)

Definition provision (cfg : Config) : Prog unit :=
  let! _ := bootstrapData cfg in
  let! _ := ignore Users_List in
  let! _ := bootstrapGroups cfg in
  grantAdmins cfg.
End bootstrap.

(** ** A start adds what is missing and changes nothing else

    The users, clients and groups of the configuration are created if they
    are not there, and the listed administrators are made such; no other
    field of a user and no client that was there is touched. *)

Lemma user_set_admin_ID admin u : user_ID (user_set_admin admin u) = user_ID u.
Proof. by destruct u. Qed.

Lemma formatted_is_hashed salt hash : IsHashedClientSecret (format_hash salt hash) = true.
Proof. reflexivity. Qed.

(** A list of programs, each of which keeps the invariant. *)
Lemma within_for_each `{Env} {A} (I : World -> Prop) (f : A -> Prog unit) l :
  (forall x, x ∈ l -> within I (f x) (fun _ => True)) -> within I (for_each f l) (fun _ => True).
Proof.
  induction l as [|x l IH]; intros Hf; cbn [for_each]; [by apply within_ret|].
  eapply within_bind; [apply Hf; set_solver|]. intros _ _. apply IH. set_solver.
Qed.

Lemma Forall2_repeat {A B} (P : A -> B -> Prop) x n l : Forall2 P (repeat x n) l -> Forall (P x) l.
Proof. revert n. induction l as [|y l IH]; intros [|n] Hl; inversion_clear Hl; constructor; eauto. Qed.

Lemma touches_for_each `{Env} {A} cs (f : A -> Prog unit) l :
  (forall x, touches cs (f x)) -> touches cs (for_each f l).
Proof. intros Hf. induction l as [|x l IH]; cbn [for_each]; [touch|]. by apply touches_bind. Qed.

Section bootstrap.
Context `{StoreLaws} `{UnicodeTables} `{Argon2} (cfg : Config).

(** A user that may have been made an administrator. *)
Definition promoted (x x' : User) : Prop :=
  x' = x \/ exists t e, e ∈ ParseAdminEmails cfg /\ same_email (user_Email x) e = true /\ user_Admin x = false /\
    x' = user_set_updated t (user_set_admin true x).

(** A user made from an entry of the configuration. *)
Definition provisioned (x : User) : Prop :=
  exists u id hash t, u ∈ ParseBootstrapUsers cfg /\ promoted (user_set_times t t (provisioned_user id u hash)) x.

Definition registered (c : Client) : Prop :=
  exists bc hash t, bc ∈ ParseBootstrapClients cfg /\ c = client_set_times t t (provisioned_client bc hash) /\
    (forall uri, uri ∈ bc_RedirectURIs bc -> ValidateRedirectURI uri = Ok tt) /\
    (bc_Secret bc = "" /\ hash = "" \/ bc_Secret bc <> "" /\ IsHashedClientSecret hash = true).

(** Where a row comes from: a row before the start, or the configuration. *)
Definition row_from (o : option User) (x : User) : Prop :=
  match o with Some x0 => promoted x0 x | None => provisioned x end.

Lemma row_from_promoted o x e t :
  row_from o x -> e ∈ ParseAdminEmails cfg -> same_email (user_Email x) e = true -> user_Admin x = false ->
  row_from o (user_set_updated t (user_set_admin true x)).
Proof.
  assert (forall x0, promoted x0 x -> e ∈ ParseAdminEmails cfg -> same_email (user_Email x) e = true ->
    user_Admin x = false -> promoted x0 (user_set_updated t (user_set_admin true x))) as Hp.
  { intros x0 [->|(t' & e' & _ & _ & _ & ->)] He Hm Ha; [right; by exists t, e|]. by destruct x0. }
  destruct o as [x0|]; [apply Hp|]. intros (u & id & hash & t' & Hu & Hx) He Hm Ha. exists u, id, hash, t'. auto.
Qed.

Definition origins (rows0 : list User) (n : nat) : list (option User) := map Some rows0 ++ repeat None n.
Definition users_grown (rows0 rows : list User) : Prop :=
  unique_by user_ID rows /\ exists n, Forall2 row_from (origins rows0 n) rows.
Definition clients_grown (clients0 clients : list Client) : Prop :=
  exists added, clients = clients0 ++ added /\ Forall registered added.

Lemma users_grown_add rows0 rows x :
  users_grown rows0 rows -> provisioned x -> (forall y, y ∈ rows -> user_ID y <> user_ID x) ->
  users_grown rows0 (rows ++ [x]).
Proof.
  intros [Hu [n Hn]] Hx Hf. split; [by apply unique_by_app_fresh|]. exists (n + 1)%nat.
  unfold origins in *. rewrite repeat_app, app_assoc. apply Forall2_app; [done|]. by constructor.
Qed.

Lemma users_grown_promote rows0 rows rows' x e t :
  users_grown rows0 rows -> x ∈ rows -> e ∈ ParseAdminEmails cfg -> same_email (user_Email x) e = true ->
  user_Admin x = false ->
  replace_first (fun y => user_ID y ==? user_ID x) (fun _ => user_set_updated t (user_set_admin true x)) rows
    = Some rows' -> users_grown rows0 rows'.
Proof.
  intros [Hu [n Hn]] Hx He Hm Ha Hr. split.
  { eapply (unique_by_replace user_ID); [|exact Hr|exact Hu]. intros y Hy. cbn beta in *. bool_to_prop.
    by rewrite user_set_updated_ID, user_set_admin_ID. }
  exists n. apply replace_first_Some in Hr as (l1 & y & l2 & -> & -> & Hy & _). cbn beta in Hy. bool_to_prop.
  assert (y = x) as -> by (eapply (unique_by_elem user_ID); [exact Hu|set_solver|exact Hx|done]).
  apply Forall2_app_inv_r in Hn as (o1 & o2 & Ho1 & Ho2 & Heq). rewrite Heq. clear Heq.
  apply Forall2_cons_inv_r in Ho2 as (o & o2' & Ho & Ho2 & ->).
  apply Forall2_app; [done|]. constructor; [by eapply row_from_promoted|done].
Qed.

(** ** The invariant of a start *)

Context (rows0 : list User) (clients0 : list Client).

Definition started (w : World) : Prop :=
  (forall rows, get CUsers (w_disk w) = FData rows -> users_grown rows0 rows) /\
  (forall clients, get CClients (w_disk w) = FData clients -> clients_grown clients0 clients).

#[local] Instance started_stable : Stable started [NGroups; NAudit].
Proof.
  intros w w' [Hu Hc] Hf. split.
  - intros rows Hr. apply Hu. by rewrite <-(frame_get _ _ _ _ Hf) by set_solver.
  - intros rows Hr. apply Hc. by rewrite <-(frame_get _ _ _ _ Hf) by set_solver.
Qed.

Lemma started_users w w' {B} (f : Z -> string -> list User -> res (list User * B)) r (P : list User -> Prop) :
  started w -> upd CUsers f w r w' -> (forall rows, get CUsers (w_disk w) = FData rows -> P rows) ->
  (forall t id rows rows' b, users_grown rows0 rows -> P rows -> f t id rows = Ok (rows', b) ->
     users_grown rows0 rows') ->
  started w'.
Proof.
  intros [Hu Hc] Hupd HP Hf. split.
  - refine (upd_contents CUsers f (fun l => users_grown rows0 l /\ P l) _ w r w' _ Hupd _ _).
    + intros l Hl. by split; [apply Hu|apply HP].
    + by intros l [? _].
    + intros t id l l' b [? ?]. by apply (Hf t id).
  - intros clients Hr. apply Hc. by rewrite <-(frame_get _ _ _ _ (upd_frame _ _ _ _ _ Hupd)) by set_solver.
Qed.

Lemma started_client c : c ∈ ParseBootstrapClients cfg -> within started (bootstrap_one_client c) (fun _ => True).
Proof.
  intros Hc. unfold bootstrap_one_client. eapply within_bind; [eapply within_touches; [apply started_stable|touch]|].
  intros [x|e] _; [by apply within_ret|]. destruct (firstInvalidRedirect (bc_RedirectURIs c)) eqn:Einv; [by apply within_ret|].
  eapply (within_bind _ _ _ (gives (fun hash => bc_Secret c = "" /\ hash = "" \/
    bc_Secret c <> "" /\ IsHashedClientSecret hash = true))).
  { destruct (bc_Secret c ==? "") eqn:Es; cbn [negb].
    - apply within_ret. left. by apply bool_decide_eq_true in Es.
    - apply bool_decide_eq_false in Es. unfold HashClientSecret, HashPassword.
      eapply (within_try _ _ _ (fun _ => True)); [|intros salt _; apply within_ret; by right].
      eapply within_weaken; [eapply within_touches; [apply started_stable|unfold mapErr; touch]|].
      by intros [a|e'] _. }
  intros [hash|e'] Hh; [|by apply within_ret]. apply (safe_ignore _ _ (fun _ => True)). intros w [Hu Hcl].
  eapply wp_mono; [apply law_Clients_Create|]. intros r w' Hupd. cbn beta in Hupd. split; [|done]. split.
  { intros rows Hr. apply Hu. by rewrite <-(frame_get _ _ _ _ (upd_frame _ _ _ _ _ Hupd)) by set_solver. }
  refine (upd_contents CClients _ (clients_grown clients0) _ w r w' Hcl Hupd (fun _ Ha => Ha) _).
  intros t i rows rows' b (added & -> & Hadd) Hr. unfold rows_add_unless, rows_add in Hr.
  destruct (omap _ _); [|done]. injection Hr as <- _. eexists. split; [by rewrite <-app_assoc|].
  apply Forall_app. split; [done|]. constructor; [|constructor]. exists c, hash, t. split_and!; try done.
  clear -Einv. intros uri. induction (bc_RedirectURIs c) as [|x l IH]; [set_solver|]. cbn [firstInvalidRedirect] in Einv.
  destruct (ValidateRedirectURI x) as [[]|] eqn:E; [|done]. intros [->|Hin]%elem_of_cons; auto.
Qed.

Lemma started_user u : u ∈ ParseBootstrapUsers cfg -> within started (bootstrap_one_user u) (fun _ => True).
Proof.
  intros Hu. unfold bootstrap_one_user. eapply within_bind; [eapply within_touches; [apply started_stable|touch]|].
  intros [x|e] _; [by apply within_ret|]. eapply within_bind; [eapply within_touches; [apply started_stable|touch]|].
  intros [hash|e'] _; [|by apply within_ret]. eapply within_bind; [eapply within_touches; [apply started_stable|touch]|].
  intros id _. apply (safe_ignore _ _ (fun _ => True)). intros w Hw.
  eapply wp_mono; [apply law_Users_Create|]. intros r w' Hupd. cbn beta in Hupd. split; [|done].
  eapply (started_users _ _ _ _ (fun _ => True)); [exact Hw|exact Hupd|done|]. intros t i rows rows' b Hg _ Hr. unfold rows_add in Hr.
  destruct (omap _ rows) eqn:E; [|done]. injection Hr as <- _. apply users_grown_add; [done| |].
  - exists u, id, hash, t. split; [done|by left].
  - intros y Hy Heq. pose proof (omap_nil_None _ _ _ E Hy) as Hn. cbn beta in Hn.
    rewrite bool_decide_eq_true_2 in Hn; done.
Qed.

Lemma grant_one_started e : e ∈ ParseAdminEmails cfg -> within started (grant_one e) (fun _ => True).
Proof.
  intros He w Hw. unfold grant_one. eapply wp_step; [apply law_Users_GetByEmail|].
  intros [x|err] w1 Hq; cbn beta in Hq; [|].
  2:{ apply wp_ret. split; [|done]. eapply started_stable; [exact Hw|]. by apply same_disk_frame, (qry_same _ _ _ _ _ Hq). }
  assert (started w1) as Hw1 by (eapply started_stable; [exact Hw|]; by apply same_disk_frame, (qry_same _ _ _ _ _ Hq)).
  pose proof (qry_same _ _ _ _ _ Hq) as [_ Hd]. apply qry_find in Hq as (rows & Hg & [Hx Hm]%find_first_Some).
  cbn beta in Hm. destruct (user_Admin x) eqn:Ha; [by apply wp_ret|].
  eapply wp_step; [apply law_Users_Update|]. intros r w2 Hupd. cbn beta in Hupd.
  assert (started w2) as Hw2.
  { eapply (started_users _ _ _ _ (fun rows => x ∈ rows)); [exact Hw1|exact Hupd| |].
    - intros rows1 Hr1. rewrite Hd in Hr1. rewrite Hg in Hr1. by injection Hr1 as <-.
    - intros t i rows1 rows' b Hgrown Hin Hr. unfold rows_replace in Hr.
      destruct (replace_first _ _ rows1) as [l|] eqn:E; [|done]. injection Hr as <- _.
      rewrite user_set_admin_ID in E. by eapply users_grown_promote. }
  destruct r as [u|err]; [|by apply wp_ret].
  refine (within_touches started [NGroups; NAudit] _ started_stable _ w2 Hw2). unfold RecordEvent, ignore. touch.
Qed.

Lemma touches_one_group cs g : [NGroups] ⊆ cs -> touches cs (bootstrap_one_group g).
Proof.
  intros Hcs. eapply touches_weaken; [exact Hcs|]. unfold bootstrap_one_group. touch_step; [touch|].
  touch_step; [touch|]. case_match; [|touch]. apply touches_for_each. intros e.
  unfold add_bootstrap_member, ignore. touch.
Qed.

Lemma started_group g : within started (bootstrap_one_group g) (fun _ => True).
Proof. eapply within_touches; [apply started_stable|]. apply touches_one_group. set_solver. Qed.

Lemma touches_provision : touches [NUsers; NClients; NGroups; NAudit] (provision cfg).
Proof.
  unfold provision, bootstrapData, bootstrapGroups, grantAdmins.
  repeat (apply touches_bind; [|intros []]); try (unfold ignore; solve [touch]); apply touches_for_each; intros x.
  - unfold bootstrap_one_user, ignore. touch.
  - unfold bootstrap_one_client, HashClientSecret, ignore. touch.
  - apply touches_one_group. set_solver.
  - unfold grant_one, RecordEvent, ignore. touch.
Qed.

Lemma provision_started : within started (provision cfg) (fun _ => True).
Proof.
  unfold provision, bootstrapData, bootstrapGroups, grantAdmins.
  eapply within_bind; [|intros _ _; eapply within_bind; [|intros _ _; eapply within_bind; [|intros _ _]]].
  - eapply within_bind; [apply within_for_each; intros u; apply started_user|intros _ _].
    apply within_for_each. intros c. apply started_client.
  - eapply within_touches; [apply started_stable|]. unfold ignore.
    apply touches_bind; [apply (touches_weaken []); [set_solver|auto with touch]|intros; apply touches_ret].
  - apply within_for_each. intros g _. apply started_group.
  - apply within_for_each. intros e. apply grant_one_started.
Qed.

(** Claim C20.  A start only adds.  The users that were there are still there,
    in order and as they were, but that listed ones may have become
    administrators; new ones come from the configuration, active, verified
    and no administrators unless listed.  The clients that were there are
    untouched; new ones come from the configuration, with redirect URIs fit
    to be registered and their secrets hashed.  Apart from groups and the
    audit log nothing else is touched. *)
Theorem provision_sound w w' :
  run (provision cfg) w = (tt, w') ->
  get CUsers (w_disk w) = FData rows0 -> unique_by user_ID rows0 -> get CClients (w_disk w) = FData clients0 ->
  (forall rows, get CUsers (w_disk w') = FData rows ->
   exists kept added, rows = kept ++ added /\ Forall2 promoted rows0 kept /\ Forall provisioned added) /\
  (forall clients, get CClients (w_disk w') = FData clients ->
   exists added, clients = clients0 ++ added /\ Forall registered added) /\
  frame [NUsers; NClients; NGroups; NAudit] w w'.
Proof.
  intros Hrun Hu Huniq Hc. assert (started w) as Hw.
  { split; [intros rows Hr; rewrite Hr in Hu; injection Hu as ->|intros rows Hr; rewrite Hr in Hc; injection Hc as ->].
    - split; [done|]. exists O. unfold origins. rewrite app_nil_r. apply Forall2_fmap_l.
      apply Forall_Forall2_diag, Forall_true. intros x. by left.
    - exists []. by rewrite app_nil_r. }
  destruct (wp_run _ _ _ _ _ (provision_started w Hw) Hrun) as [[Hus Hcl] _]. split_and!.
  - intros rows Hr. destruct (Hus rows Hr) as [_ [n Hn]]. unfold origins in Hn.
    apply Forall2_app_inv_l in Hn as (kept & added & Hk & Ha & ->). exists kept, added.
    split_and!; [done|exact (proj1 (Forall2_fmap_l _ _ _ _) Hk)|]. by apply Forall2_repeat in Ha.
  - exact Hcl.
  - by apply (touches_run _ _ _ _ _ touches_provision Hrun).
Qed.
End bootstrap.
