(* ===== verification/Mail.v ===== *)
(** * internal/mail: messages on the wire

    [NewSMTPMailer], [buildMessage] and [Send] of smtp.go.  The conversation
    with a server is the list of commands that were sent; the server's answer
    to a command, given what was sent before, is the argument [reply], and
    [starttls] tells whether it offers STARTTLS.  What package net/smtp checks
    before it sends is part of the conversation.  [date] is the formatted
    time. *)
From S2P Require Import Prelude GoTime GoText GoUrl Errors Domain Lockout PendingLogins World ClientForm.
From Stdlib Require Import Ascii.
#[local] Open Scope Z_scope.
#[local] Open Scope go_scope.

Record SMTPConfig := {
  smtp_Host : string;
  smtp_Port : Z;
  smtp_Username : string;
  smtp_Password : string;
  smtp_From : string;
  smtp_ImplicitTLS : bool;
}.

Definition NewSMTPMailer (cfg : SMTPConfig) : res SMTPConfig :=
  if smtp_Host cfg ==? "" then Err (Plain "smtp host is required")
  else if smtp_From cfg ==? "" then Err (Plain "smtp from address is required")
  else Ok {| smtp_Host := smtp_Host cfg; smtp_Port := if smtp_Port cfg =? 0 then 587 else smtp_Port cfg;
             smtp_Username := smtp_Username cfg; smtp_Password := smtp_Password cfg; smtp_From := smtp_From cfg;
             smtp_ImplicitTLS := smtp_ImplicitTLS cfg |}.

(** ** The message *)

Definition CR : ascii := ascii_of_nat 13.
Definition LF : ascii := ascii_of_nat 10.
Definition crlf : string := String CR (String LF "").

Fixpoint sanitizeHeader (s : string) : string :=
  match s with
  | EmptyString => EmptyString
  | String c s => String (if Ascii.eqb c CR || Ascii.eqb c LF then " "%char else c) (sanitizeHeader s)
  end.

(** [strings.ReplaceAll(s, "\n", "\r\n")]. *)
Fixpoint dos_lines (s : string) : string :=
  match s with
  | EmptyString => EmptyString
  | String c s => if Ascii.eqb c LF then String CR (String LF (dos_lines s)) else String c (dos_lines s)
  end.

Definition buildMessage (date from : string) (msg : Message) : string :=
  "From: " +:+ from +:+ crlf +:+ "To: " +:+ msg_To msg +:+ crlf
  +:+ "Subject: " +:+ sanitizeHeader (msg_Subject msg) +:+ crlf +:+ "Date: " +:+ date +:+ crlf
  +:+ "MIME-Version: 1.0" +:+ crlf +:+ "Content-Type: text/plain; charset=utf-8" +:+ crlf +:+ crlf
  +:+ dos_lines (of_bytes (unix_lines (bytes (msg_Body msg)))).

(** ** The conversation *)

Inductive smtp_command :=
| Dial (tls : bool) (addr : string)
| StartTLS (serverName : string)
| Auth (username password : string)
| MailFrom (from : string)
| RcptTo (to : string)
| Data
| Write (text : string)
| CloseData
| Quit.

#[export] Instance smtp_command_eq_dec : EqDecision smtp_command.
Proof. solve_decision. Defined.

(** [net.JoinHostPort]. *)
Definition JoinHostPort (host port : string) : string :=
  if has_char ":"%char host then "[" +:+ host +:+ "]:" +:+ port else host +:+ ":" +:+ port.

(** net/smtp's checks: no line breaks in a command, and a password only over
    TLS or to the local host. *)
Definition validateLine (line : string) : res unit :=
  if has_char LF line || has_char CR line
  then Err (Plain "smtp: A line must not contain CR or LF") else Ok tt.

Definition isLocalhost (name : string) : bool := (name ==? "localhost") || (name ==? "127.0.0.1") || (name ==? "::1").
Definition plain_auth (tls : bool) (host : string) : res unit :=
  if negb tls && negb (isLocalhost host) then Err (Plain "unencrypted connection") else Ok tt.

(** A step of [Send]: the check that comes first, the command, and how an
    error is wrapped. *)
Record smtp_step := { st_check : res unit; st_command : smtp_command; st_wrap : error -> error }.
Definition step_of (what : string) (check : res unit) (c : smtp_command) : smtp_step :=
  {| st_check := check; st_command := c; st_wrap := Errorf ("smtp " +:+ what) |}.

Definition Send_steps (cfg : SMTPConfig) (starttls : bool) (date : string) (msg : Message) : list smtp_step :=
  [step_of "connect" (Ok tt) (Dial (smtp_ImplicitTLS cfg) (JoinHostPort (smtp_Host cfg) (dec (smtp_Port cfg))))]
  ++ (if negb (smtp_ImplicitTLS cfg) && starttls
      then [step_of "starttls" (Ok tt) (StartTLS (smtp_Host cfg))] else [])
  ++ (if smtp_Username cfg !=? ""
      then [step_of "auth" (plain_auth (smtp_ImplicitTLS cfg || starttls) (smtp_Host cfg))
              (Auth (smtp_Username cfg) (smtp_Password cfg))] else [])
  ++ [step_of "from" (validateLine (smtp_From cfg)) (MailFrom (smtp_From cfg));
      step_of "rcpt" (validateLine (msg_To msg)) (RcptTo (msg_To msg));
      step_of "data" (Ok tt) Data;
      step_of "write" (Ok tt) (Write (buildMessage date (smtp_From cfg) msg));
      step_of "close" (Ok tt) CloseData;
      {| st_check := Ok tt; st_command := Quit; st_wrap := fun e => e |}].

Fixpoint converse (reply : list smtp_command -> smtp_command -> option error) (sent : list smtp_command)
    (steps : list smtp_step) : list smtp_command * res unit :=
  match steps with
  | [] => (sent, Ok tt)
  | s :: steps =>
      match st_check s with
      | Err e => (sent, Err (st_wrap s e))
      | Ok _ =>
          match reply sent (st_command s) with
          | Some e => (sent ++ [st_command s], Err (st_wrap s e))
          | None => converse reply (sent ++ [st_command s]) steps
          end
      end
  end.

Definition Send (cfg : SMTPConfig) (reply : list smtp_command -> smtp_command -> option error)
    (starttls : bool) (date : string) (msg : Message) : list smtp_command * res unit :=
  converse reply [] (Send_steps cfg starttls date msg).

(** ** Reading a message back *)

(** The lines of the header: up to the first empty one.  Lines end in a line
    feed here, so that a reader that takes bare ones finds no more. *)
Fixpoint header_of (lines : list string) : list string :=
  match lines with
  | [] => []
  | l :: lines => if l ==? String CR "" then [] else l :: header_of lines
  end.
Definition header_lines (text : string) : list string := header_of (Split text LF).

Definition no_breaks (s : string) : Prop := has_no CR s /\ has_no LF s.

Lemma validateLine_ok s : validateLine s = Ok tt -> no_breaks s.
Proof.
  unfold validateLine. destruct (has_char LF s) eqn:El; [done|]. destruct (has_char CR s) eqn:Ec; [done|]. intros _.
  split; by apply has_char_no.
Qed.

Lemma sanitize_no_breaks s : no_breaks (sanitizeHeader s).
Proof.
  split; apply has_char_no; induction s as [|c s IH]; cbn [sanitizeHeader has_char]; try done; rewrite IH, orb_false_r;
    (destruct (Ascii.eqb c CR) eqn:Ec; [done|]); (destruct (Ascii.eqb c LF) eqn:El; [done|]); cbn [orb]; done.
Qed.

(** A conversation sends the commands of the first steps, whose checks
    passed; it ends well when they are all. *)
Lemma converse_spec reply sent steps sent' r :
  converse reply sent steps = (sent', r) ->
  exists done_ rest, steps = done_ ++ rest /\ sent' = sent ++ map st_command done_ /\
    Forall (fun s => st_check s = Ok tt) done_ /\ (r = Ok tt -> rest = []).
Proof.
  revert sent. induction steps as [|s steps IH]; intros sent; cbn [converse].
  { intros [= <- <-]. exists [], []. cbn [map]. rewrite !app_nil_r. split_and!; done || constructor. }
  destruct (st_check s) as [[]|e] eqn:Hc; [|intros [= <- <-]; exists [], (s :: steps); cbn [map]; rewrite app_nil_r; split_and!; done || constructor].
  destruct (reply sent (st_command s)) as [e|].
  - intros [= <- <-]. exists [s], steps. split_and!; try done. by repeat constructor.
  - intros (done_ & rest & -> & -> & Hall & Hr)%IH. exists (s :: done_), rest.
    cbn [map app]. rewrite <-app_assoc. split_and!; try done. by constructor.
Qed.

(** A header line, as it is written and as it is read. *)
Definition line_of (s : string) : string := s +:+ String CR "".

Lemma crlf_assoc a rest : a +:+ crlf +:+ rest = line_of a +:+ String LF rest.
Proof. unfold line_of, crlf. induction a as [|c a IH]; [done|]. exact (f_equal (String c) IH). Qed.

Lemma Split_crlf a rest : has_no LF a -> Split (a +:+ crlf +:+ rest) LF = line_of a :: Split rest LF.
Proof.
  intros Ha. rewrite crlf_assoc. unfold Split. rewrite split_from_sep; [done|].
  apply has_no_app; [done|]. by apply has_char_no.
Qed.

Fixpoint written (lines : list string) (rest : string) : string :=
  match lines with [] => rest | l :: lines => l +:+ crlf +:+ written lines rest end.

Lemma Split_written lines rest :
  Forall (has_no LF) lines -> Split (written lines rest) LF = map line_of lines ++ Split rest LF.
Proof. induction 1 as [|l lines Hl Hls IH]; [done|]. cbn [written map app]. rewrite Split_crlf by done. by rewrite IH. Qed.

(** The header of a message that can be sent. *)
Definition header (date from : string) (msg : Message) : list string :=
  ["From: " +:+ from; "To: " +:+ msg_To msg; "Subject: " +:+ sanitizeHeader (msg_Subject msg); "Date: " +:+ date;
   "MIME-Version: 1.0"; "Content-Type: text/plain; charset=utf-8"].

Lemma cr_line s : (line_of s ==? String CR "") = true -> s = "".
Proof. unfold line_of. intros Hs%bool_decide_eq_true. destruct s as [|c [|d s]]; done. Qed.

Lemma header_of_lines l rest :
  Forall (fun s => s <> "") l -> header_of (map line_of l ++ line_of "" :: rest) = map line_of l.
Proof.
  induction 1 as [|s l Hs Hl IH]; cbn [map app header_of]; [done|].
  destruct (_ ==? _) eqn:E; [by apply cr_line in E|]. by rewrite IH.
Qed.

Lemma buildMessage_written date from msg :
  buildMessage date from msg
  = written (header date from msg ++ [""]) (dos_lines (of_bytes (unix_lines (bytes (msg_Body msg))))).
Proof. reflexivity. Qed.

Lemma build_header date from msg :
  no_breaks date -> no_breaks from -> no_breaks (msg_To msg) ->
  header_lines (buildMessage date from msg) = map line_of (header date from msg).
Proof.
  intros [_ Hd] [_ Hf] [_ Ht]. destruct (sanitize_no_breaks (msg_Subject msg)) as [_ Hs].
  assert (forall name value, has_char LF name = false -> has_no LF value -> has_no LF (name +:+ value)) as Happ
    by (intros n v Hn Hv; apply has_no_app; [by apply has_char_no|done]).
  unfold header_lines. rewrite buildMessage_written, Split_written, map_app, <-app_assoc.
  - apply header_of_lines. repeat constructor; discriminate.
  - unfold header. cbn [app]. repeat constructor; (by apply Happ) || by apply has_char_no.
Qed.

(** What comes before a command that was sent was sent, with its check. *)
Lemma sent_before (pre post sent : list smtp_step) s :
  sent `prefix_of` pre ++ s :: post -> Forall (fun s => st_check s = Ok tt) sent ->
  Forall (fun x => st_command x <> st_command s) pre -> st_command s ∈ map st_command sent ->
  pre ++ [s] `prefix_of` sent /\ Forall (fun s => st_check s = Ok tt) (pre ++ [s]).
Proof.
  intros Hp Hall Hne Hs.
  assert (pre ++ [s] `prefix_of` sent) as Hpre.
  { destruct (prefix_weak_total (pre ++ [s]) sent (pre ++ s :: post)) as [H|[k Hk]]; try done.
    - exists post. by rewrite <-app_assoc.
    - destruct k as [|y k _] using rev_ind; [rewrite app_nil_r in Hk; by rewrite Hk|].
      rewrite app_assoc in Hk. apply app_inj_tail in Hk as [Hk _].
      apply list_elem_of_fmap in Hs as (x & Hx & Hin). rewrite List.Forall_forall in Hne.
      destruct (Hne x); [|done]. apply list_elem_of_In. rewrite Hk. set_solver. }
  split; [done|]. destruct Hpre as [k ->]. by apply Forall_app in Hall as [Hall _].
Qed.

Lemma sent_of_steps cfg starttls date msg sent c :
  sent `prefix_of` Send_steps cfg starttls date msg -> c ∈ map st_command sent ->
  c ∈ map st_command (Send_steps cfg starttls date msg).
Proof. intros [k ->] Hc. rewrite map_app. set_solver. Qed.

Lemma write_steps cfg starttls date msg :
  exists pre post,
    Send_steps cfg starttls date msg
    = pre ++ step_of "write" (Ok tt) (Write (buildMessage date (smtp_From cfg) msg)) :: post /\
    step_of "from" (validateLine (smtp_From cfg)) (MailFrom (smtp_From cfg)) ∈ pre /\
    step_of "rcpt" (validateLine (msg_To msg)) (RcptTo (msg_To msg)) ∈ pre /\
    Forall (fun x => forall text, st_command x <> Write text) pre.
Proof.
  unfold Send_steps. rewrite !(app_assoc (A := smtp_step)).
  match goal with |- context [?l ++ [?a; ?b; ?c; ?d; ?e; ?f]] => exists (l ++ [a; b; c]), [e; f] end.
  rewrite <-!(app_assoc (A := smtp_step)). split_and!; [done|set_solver|set_solver|].
  repeat (apply Forall_app; split); repeat constructor; try done; case_match; repeat constructor; done.
Qed.

Lemma auth_steps cfg starttls date msg :
  smtp_Username cfg <> "" ->
  exists pre post,
    Send_steps cfg starttls date msg
    = pre ++ step_of "auth" (plain_auth (smtp_ImplicitTLS cfg || starttls) (smtp_Host cfg))
               (Auth (smtp_Username cfg) (smtp_Password cfg)) :: post /\
    (smtp_ImplicitTLS cfg = false -> starttls = true -> StartTLS (smtp_Host cfg) ∈ map st_command pre) /\
    Forall (fun x => forall u p, st_command x <> Auth u p) pre.
Proof.
  intros Hu. unfold Send_steps.
  match goal with |- context [[?d] ++ ?t ++ _] => exists ([d] ++ t) end.
  rewrite (bool_decide_eq_false_2 (smtp_Username cfg = "")) by done. cbn [negb].
  eexists. split_and!; [by rewrite <-app_assoc| |].
  - intros -> ->. set_solver.
  - repeat (apply Forall_app; split); repeat constructor; try done; case_match; repeat constructor; done.
Qed.

(** Claim C37.  Mail goes to the one recipient, and the text that is written
    has the header that [header] lists and nothing else, whatever the subject
    and the body hold: a line break in the addresses stops the conversation,
    and one in the subject is a blank.  The password is sent only under TLS
    or to the local host, and only where it is configured.  A conversation
    that ends well has sent every command. *)
Theorem mail_sound cfg reply starttls date msg sent r :
  Send cfg reply starttls date msg = (sent, r) -> no_breaks date ->
  (forall text, Write text ∈ sent -> header_lines text = map line_of (header date (smtp_From cfg) msg)) /\
  (forall to, RcptTo to ∈ sent -> to = msg_To msg) /\
  (forall u p, Auth u p ∈ sent ->
     u = smtp_Username cfg /\ u <> "" /\ p = smtp_Password cfg /\
     (smtp_ImplicitTLS cfg = true \/ StartTLS (smtp_Host cfg) ∈ sent \/ isLocalhost (smtp_Host cfg) = true)) /\
  (r = Ok tt -> sent = map st_command (Send_steps cfg starttls date msg)).
Proof.
  intros (done_ & rest & Hsteps & -> & Hall & Hr)%converse_spec Hdate. cbn [app].
  assert (done_ `prefix_of` Send_steps cfg starttls date msg) as Hp by by exists rest.
  split_and!.
  - intros text Ht. destruct (write_steps cfg starttls date msg) as (pre & post & Hw & Hf & Hto & Hne).
    assert (text = buildMessage date (smtp_From cfg) msg) as ->.
    { apply (sent_of_steps _ _ _ _ _ _ Hp) in Ht. unfold Send_steps in Ht. rewrite !map_app in Ht.
      repeat case_match; set_solver. }
    rewrite Hw in Hp. apply sent_before in Hp as [_ Hck]; try done.
    + apply Forall_app in Hck as [Hck _]. rewrite List.Forall_forall in Hck.
      apply list_elem_of_In in Hf, Hto. apply build_header; [done| |]; apply validateLine_ok;
        by apply (Hck _ Hf) || by apply (Hck _ Hto).
    + refine (List.Forall_impl _ _ Hne). intros x Hx. apply Hx.
  - intros to Ht. apply (sent_of_steps _ _ _ _ _ _ Hp) in Ht. unfold Send_steps in Ht. rewrite !map_app in Ht.
    repeat case_match; set_solver.
  - intros u p Ha.
    assert (u = smtp_Username cfg /\ u <> "" /\ p = smtp_Password cfg) as (-> & Hu & ->).
    { apply (sent_of_steps _ _ _ _ _ _ Hp) in Ha. unfold Send_steps in Ha. rewrite !map_app in Ha.
      destruct (decide (smtp_Username cfg = "")) as [E|E].
      - rewrite (bool_decide_eq_true_2 _ E) in Ha. repeat case_match; set_solver.
      - rewrite (bool_decide_eq_false_2 _ E) in Ha. repeat case_match; set_solver. }
    split_and!; try done. destruct (auth_steps cfg starttls date msg Hu) as (pre & post & Hw & Htls & Hne).
    rewrite Hw in Hp. apply sent_before in Hp as [[k Hk] Hck]; try done.
    + apply Forall_app in Hck as [_ Hck]. inversion_clear Hck as [|? ? Hc _]. cbn in Hc. unfold plain_auth in Hc.
      destruct (smtp_ImplicitTLS cfg); [by left|]. destruct starttls.
      * right. left. rewrite Hk, !map_app. specialize (Htls eq_refl eq_refl). set_solver.
      * right. right. by destruct (isLocalhost _).
    + refine (List.Forall_impl _ _ Hne). intros x Hx. apply Hx.
  - intros ->%Hr. by rewrite Hsteps, app_nil_r.
Qed.
