(* ===== verification/Opening.v ===== *)
(** * Opening the store, migrating it and backing it up

    [NewStore] of the two stores, [migrations.Up], [backup] and the
    [openStore] of the two commands, as programs ([Sys]) over the host: its
    files, and the database the connection is on.  Every call may fail, a
    failed [VACUUM INTO] may leave part of a copy, a failed migration what it
    got to, and other processes may write to the database between two calls;
    a crash is a run that stops, so what holds after every step holds after a
    crash.

    [h_files] has the files under the names the process can reach; on those
    [os.Stat] tells whether a file is there, and [os.Rename] is atomic. *)
From S2P Require Import Prelude GoTime GoText Encoding GoUrl Errors Domain Database World Run Store Sqlite FileStore Config.
From Stdlib Require Import Ascii.
#[local] Open Scope Z_scope.
#[local] Open Scope go_scope.

(** ** The host *)

Section host.
Context {Rows : Type}.

(** A database: goose's version of its schema, 0 without one, and the rows,
    of whatever release. *)
Record Snapshot := { sn_version : Z; sn_rows : Rows }.

Inductive Contents :=
| Copy (s : Snapshot)
| Other.

Record File := { f_contents : Contents; f_mode : Z }.

(** [h_dsn] is what the connection was opened with. *)
Record Host := { h_dsn : string; h_database : Snapshot; h_files : gmap string File }.

Definition with_files (m : gmap string File) (h : Host) : Host :=
  let '(Build_Host d s _) := h in Build_Host d s m.
Definition with_database (s : Snapshot) (h : Host) : Host :=
  let '(Build_Host d _ m) := h in Build_Host d s m.
Definition with_dsn (d : string) (h : Host) : Host :=
  let '(Build_Host _ s m) := h in Build_Host d s m.

(** The calls of [os], [database/sql] and goose. *)
Inductive Call : Type -> Type :=
| Stat (name : string) : Call (res unit)
| MkdirAll (name : string) (perm : Z) : Call (res unit)
| Remove (name : string) : Call (res unit)
| Rename (old new : string) : Call (res unit)
| Chmod (name : string) (mode : Z) : Call (res unit)
| Now : Call Z
| Open (dsn : string) : Call (res unit)
| Ping : Call (res unit)
| Close : Call unit
| VacuumInto (name : string) : Call (res unit)
| NewProvider (dir : string) : Call (res unit)
| GetVersions : Call (res (Z * Z))
| Up : Call (res unit).

(** The version of the last file of internal/store/migrations/sqlite. *)
Definition embedded : Z := 6.

Definition holding (c : Contents) (m : Z) : File := {| f_contents := c; f_mode := m |}.
Definition put (p : string) (f : File) (h : Host) : Host := with_files (<[p := f]> (h_files h)) h.
Definition drop (p : string) (h : Host) : Host := with_files (delete p (h_files h)) h.

(** What a call may answer ([r]) and leave ([h']). *)
Definition answers {X} (c : Call X) (h : Host) : X -> Host -> Prop :=
  match c with
  | Stat p => fun r h' => h' = h /\ (r = Ok tt <-> is_Some (h_files h !! p))
  | MkdirAll _ _ | Now | NewProvider _ | Close => fun _ h' => h' = h
  | Remove p => fun r h' => h' = match r with Ok _ => drop p h | Err _ => h end
  | Rename p q => fun r h' => match r with
      | Ok _ => exists f, h_files h !! p = Some f /\ h' = put q f (drop p h)
      | Err _ => h' = h
      end
  | Chmod p m => fun r h' => match r with
      | Ok _ => exists f, h_files h !! p = Some f /\ h' = put p (holding (f_contents f) m) h
      | Err _ => h' = h
      end
  | Open d => fun _ h' => h' = with_dsn d h
  | Ping => fun _ h' => h' = h \/
      exists p m, h_dsn h = dsn p /\ h_files h !! p = None /\ h' = put p (holding Other m) h
  | VacuumInto p => fun r h' => match r with
      | Ok _ => exists m, h' = put p (holding (Copy (h_database h)) m) h
      | Err _ => h' = h \/ exists m, h' = put p (holding Other m) h
      end
  | GetVersions => fun r h' => h' = h /\ forall v, r = Ok v -> v = (sn_version (h_database h), embedded)
  | Up => fun r h' =>
      let v := sn_version (h_database h) in
      if embedded <=? v then h' = h
      else exists d, h' = with_database d h /\ v <= sn_version d <= embedded
           /\ (r = Ok tt -> sn_version d = embedded)
  end.

(** ** Programs *)

Inductive Sys (A : Type) :=
| Return (a : A)
| Perform X (c : Call X) (k : X -> Sys A).
#[global] Arguments Return {A} a.
#[global] Arguments Perform {A X} c k.

Fixpoint sys_bind {A B} (f : A -> Sys B) (p : Sys A) : Sys B :=
  match p with
  | Return a => f a
  | Perform c k => Perform c (fun x => sys_bind f (k x))
  end.
#[export] Instance Sys_MBind : MBind Sys := @sys_bind.

Definition call {X} (c : Call X) : Sys X := Perform c Return.

(** [if err != nil { return wrap(err) }]. *)
Definition or_return {A B} (wrap : error -> error) (m : Sys (res A)) (k : A -> Sys (res B)) : Sys (res B) :=
  r ← m; match r with Ok a => k a | Err e => Return (Err (wrap e)) end.

(** Other processes write to the database as [others] says.  A run of a
    program is a sequence of its calls and of their writes. *)
Context (others : Snapshot -> Snapshot -> Prop).

Inductive sys_step {A} : Sys A * Host -> Sys A * Host -> Prop :=
| sys_call X (c : Call X) k h x h' : answers c h x h' -> sys_step (Perform c k, h) (k x, h')
| sys_others p h d : others (h_database h) d -> sys_step (p, h) (p, with_database d h).

(** Two programs of two processes. *)
Inductive pair_step {A B} : Sys A * Sys B * Host -> Sys A * Sys B * Host -> Prop :=
| pair_left p p' q h h' : sys_step (p, h) (p', h') -> pair_step (p, q, h) (p', q, h')
| pair_right p q q' h h' : sys_step (q, h) (q', h') -> pair_step (p, q, h) (p, q', h').
End host.
Arguments Snapshot : clear implicits.
Arguments Contents : clear implicits.
Arguments File : clear implicits.
Arguments Host : clear implicits.

(** ** The programs

    The modes 0700 and 0600 are 0x1C0 and 0x180. *)

(** [filepath.Dir]. *)
Definition filepath_Dir (path : string) : string := Clean (dir_of path).

(** The civil date of a number of days since 1970-01-01: year, month, day. *)
Definition civil (days : Z) : Z * Z * Z :=
  let z := days + 719468 in
  let era := z / 146097 in
  let doe := z mod 146097 in
  let yoe := (doe - doe / 1460 + doe / 36524 - doe / 146096) / 365 in
  let doy := doe - (365 * yoe + yoe / 4 - yoe / 100) in
  let mp := (5 * doy + 2) / 153 in
  let m := if mp <? 10 then mp + 3 else mp - 9 in
  (yoe + era * 400 + (if m <=? 2 then 1 else 0), m, doy - (153 * mp + 2) / 5 + 1).

(** [t.UTC().Format("20060102T150405Z")], for years of four digits. *)
Definition stamp (t : Z) : string :=
  let '(y, m, d) := civil (Unix t / 86400) in
  let s := Unix t mod 86400 in
  let two z := pad_zeros 2 (dec z) in
  pad_zeros 4 (dec y) +:+ two m +:+ two d +:+ "T"
  +:+ two (s / 3600) +:+ two (s / 60 mod 60) +:+ two (s mod 60) +:+ "Z".

Definition partial (path : string) : string := path +:+ ".partial".

Definition backup (path : string) : Sys (res unit) :=
  found ← call (Stat path);
  match found with
  | Ok _ => Return (Err (Plain (path +:+ " already exists")))
  | Err _ =>
      let wrap := Errorf "sqlite backup" in
      let tmp := partial path in
      or_return wrap (call (MkdirAll (filepath_Dir path) 0x1C0)) (fun _ =>
      _ ← call (Remove tmp);
      let clean e := _ ← call (Remove tmp); Return (Err (wrap e)) in
      copied ← call (VacuumInto tmp);
      match copied with
      | Err e => clean e
      | Ok _ =>
          owned ← call (Chmod tmp 0x180);
          match owned with
          | Err e => clean e
          | Ok _ =>
              moved ← call (Rename tmp path);
              match moved with Err e => clean e | Ok _ => Return (Ok tt) end
          end
      end)
  end.

(** [goose.DialectSQLite3]. *)
Definition DialectSQLite3 : string := "sqlite3".

Definition dialectDir (dialect : string) : option string :=
  if dialect ==? DialectSQLite3 then Some "sqlite" else None.

Definition newProvider `{UnicodeTables} (dialect : string) : Sys (res unit) :=
  match dialectDir dialect with
  | None => Return (Err (Plain ("no migrations for dialect " +:+ Quote dialect)))
  | Some dir => or_return (Errorf "failed to create migration provider") (call (NewProvider dir))
                  (fun _ => Return (Ok tt))
  end.

Definition migrations_Up `{UnicodeTables} (dialect : string)
    (beforeMigrate : option (Z -> Z -> Sys (res unit))) : Sys (res unit) :=
  or_return id (newProvider dialect) (fun _ =>
  or_return id
    match beforeMigrate with
    | None => Return (Ok tt)
    | Some before =>
        or_return (Errorf "failed to read schema version") (call GetVersions) (fun '(current, target) =>
        if (0 <? current) && (current <? target) then before current target else Return (Ok tt))
    end (fun _ =>
  or_return (Errorf "failed to apply migrations") (call Up) (fun _ => Return (Ok tt)))).

(** A path whose directory, mode and backups are the store's business. *)
Definition own_file (path : string) : bool := negb (isMemory path) && negb (HasPrefix path "file:").

Definition backup_path (path : string) (current target t : Z) : string :=
  filepath_Join (filepath_Join (filepath_Dir path) "backups")
    ("idpico-pre-migration-v" +:+ dec current +:+ "-to-v" +:+ dec target +:+ "-" +:+ stamp t +:+ ".db").

Definition before_migrate (path : string) (current target : Z) : Sys (res unit) :=
  t ← call Now;
  or_return (Errorf ("backing up before migrating schema " +:+ dec current +:+ " -> " +:+ dec target
                     +:+ " failed, nothing was migrated"))
    (backup (backup_path path current target t)) (fun _ => Return (Ok tt)).

Section opening.
Context `{UnicodeTables} `{Sqlite}.

Definition sqlite_NewStore (path : string) : Sys (res Store) :=
  if path ==? "" then Return (Err (Plain "sqlite: database path is required")) else
  or_return (Errorf "failed to create database directory")
    (if own_file path then call (MkdirAll (filepath_Dir path) 0x1C0) else Return (Ok tt)) (fun _ =>
  or_return (Errorf "failed to open sqlite database") (call (Open (dsn path))) (fun _ =>
  connected ← call Ping;
  match connected with
  | Err e => _ ← call Close; Return (Err (Errorf "failed to connect to sqlite database" e))
  | Ok _ =>
      _ ← (if own_file path then call (Chmod path 0x180) else Return (Ok tt));
      up ← migrations_Up DialectSQLite3 (if own_file path then Some (before_migrate path) else None);
      match up with
      | Err e => _ ← call Close; Return (Err e)
      | Ok _ => Return (Ok SQLiteStore)
      end
  end)).

Definition file_NewStore (dataDir : string) : Sys (res Store) :=
  or_return (Errorf "failed to create data directory") (call (MkdirAll dataDir 0x1C0)) (fun _ =>
  Return (Ok FileStore)).

(** [openStore] of cmd/idpico and of cmd/idpicoctl. *)
Definition openStore (c : Config) : Sys (res Store) :=
  if cfg_StoreDriver c ==? StoreDriverSQLite then sqlite_NewStore (SQLitePath c)
  else if cfg_StoreDriver c ==? StoreDriverFile then file_NewStore (cfg_DataDir c)
  else Return (Err (Plain ("unsupported store driver " +:+ Quote (cfg_StoreDriver c)))).

Definition ctl_openStore (driver dataDir database : string) : Sys (res Store) :=
  if driver ==? "sqlite" then
    sqlite_NewStore (if database ==? "" then filepath_Join dataDir "idpico.db" else database)
  else if driver ==? "file" then file_NewStore dataDir
  else Return (Err (Plain ("unknown driver " +:+ Quote driver +:+ " (expected sqlite or file)"))).
End opening.

(** ** Crash safety

    [safe R Q p h]: [R] holds at every moment of a run of [p] from [h], and
    [Q] of its result if it ends. *)
Section crash.
Context {Rows : Type} (others : Snapshot Rows -> Snapshot Rows -> Prop).
#[local] Notation Host := (Host Rows).
Implicit Types (h : Host) (R : Host -> Prop).

(** What the other processes alone may do. *)
Definition drift h h' : Prop := exists d, rtc others (h_database h) d /\ h' = with_database d h.

Lemma drift_refl h : drift h h.
Proof. exists (h_database h). split; [done|]. by destruct h. Qed.
Lemma drift_trans h1 h2 h3 : drift h1 h2 -> drift h2 h3 -> drift h1 h3.
Proof.
  intros (d & Hd & ->) (d' & Hd' & ->). exists d'. destruct h1; cbn in *. split; [by etrans|done].
Qed.
Lemma drift_files h h' : drift h h' -> h_files h' = h_files h.
Proof. intros (d & _ & ->). by destruct h. Qed.
Lemma drift_database h h' : drift h h' -> rtc others (h_database h) (h_database h').
Proof. intros (d & Hd & ->). by destruct h. Qed.

Fixpoint safe {A} R (Q : A -> Host -> Prop) (p : Sys A) h : Prop :=
  match p with
  | Return a => forall h', drift h h' -> R h' /\ Q a h'
  | Perform c k => forall h', drift h h' -> R h' /\ forall x h'', answers c h' x h'' -> safe R Q (k x) h''
  end.

Lemma safe_drift {A} R Q (p : Sys A) h h' : safe R Q p h -> drift h h' -> safe R Q p h'.
Proof. destruct p; cbn; intros Hs Hd h1 Hd1; apply Hs; by eapply drift_trans. Qed.

Lemma safe_now {A} R Q (p : Sys A) h : safe R Q p h -> R h.
Proof. destruct p; cbn; intros Hs; apply (Hs h), drift_refl. Qed.

Lemma safe_mono {A} R R' (Q Q' : A -> Host -> Prop) p h :
  (forall h, R h -> R' h) -> (forall a h, R h -> Q a h -> Q' a h) -> safe R Q p h -> safe R' Q' p h.
Proof.
  intros HR HQ. revert h. induction p as [a|X c k IH]; cbn; intros h Hs h' Hd; destruct (Hs h' Hd) as [? Hk]; eauto.
Qed.

Lemma safe_bind {A B} R Q (p : Sys A) (f : A -> Sys B) h :
  safe R (fun a h => safe R Q (f a) h) p h -> safe R Q (p ≫= f) h.
Proof.
  revert h. induction p as [a|X c k IH]; cbn; intros h Hs.
  - apply (Hs h), drift_refl.
  - intros h' Hd. destruct (Hs h' Hd) as [? Hk]. eauto.
Qed.

Lemma safe_return {A} R Q (a : A) h : (forall h', drift h h' -> R h' /\ Q a h') -> safe R Q (Return a) h.
Proof. done. Qed.

Lemma safe_call {X} R Q (c : Call X) h :
  (forall h', drift h h' -> R h' /\ forall x h'', answers c h' x h'' -> forall h1, drift h'' h1 -> R h1 /\ Q x h1) ->
  safe R Q (call c) h.
Proof. cbn. intros Hs h' Hd. destruct (Hs h' Hd). eauto. Qed.

(** Both of two, and a crash condition that is kept besides. *)
Lemma safe_or_return {A B} R Q wrap (m : Sys (res A)) (k : A -> Sys (res B)) h :
  safe R (fun r h => match r with Ok a => safe R Q (k a) h
                     | Err e => forall h', drift h h' -> R h' /\ Q (Err (wrap e)) h' end) m h ->
  safe R Q (or_return wrap m k) h.
Proof. intros Hm. apply safe_bind. eapply safe_mono; [..|exact Hm]; [done|]. by intros [a|e] h' _. Qed.

Lemma safe_step {A} R Q (p p' : Sys A) h h' : safe R Q p h -> sys_step others (p, h) (p', h') -> safe R Q p' h'.
Proof.
  intros Hs Hst. inversion Hst; subst; simplify_eq.
  - cbn in Hs. apply (Hs h); [apply drift_refl|done].
  - eapply safe_drift; [done|]. exists d. split; [by apply rtc_once|done].
Qed.

Lemma safe_run {A} R Q (p : Sys A) h p' h' :
  safe R Q p h -> rtc (sys_step others) (p, h) (p', h') -> R h' /\ forall a, p' = Return a -> Q a h'.
Proof.
  intros Hs Hr. assert (safe R Q p' h') as Hs'.
  { remember (p, h) as s. remember (p', h') as s'. revert p h Heqs Hs.
    induction Hr as [|s [p1 h1] s' Hst Hr IH]; intros p h -> Hs; simplify_eq; [done|].
    eapply IH; [done..|]. by eapply safe_step. }
  split; [by eapply safe_now|]. intros a ->. apply (Hs' h'), drift_refl.
Qed.

(** ** A backup *)

(** [h_files] at [path] is a whole copy, owner-only, of the database as it
    was at a moment since [h0]. *)
Definition complete (h0 : Host) (path : string) h : Prop :=
  exists s, h_files h !! path = Some (holding (Copy s) 0x180)
  /\ rtc others (h_database h0) s /\ rtc others s (h_database h).

(** Nothing but [path] and its [.partial] is touched, and [path] is as it
    was, or was absent and is complete. *)
Definition backup_crash (path : string) (h0 : Host) h : Prop :=
  drift (with_files (h_files h) h0) h
  /\ (forall q, q <> path -> q <> partial path -> h_files h !! q = h_files h0 !! q)
  /\ (h_files h !! path = h_files h0 !! path \/ h_files h0 !! path = None /\ complete h0 path h).

Definition backup_done (path : string) (h0 : Host) (r : res unit) h : Prop :=
  match r with
  | Ok _ => h_files h0 !! path = None /\ complete h0 path h
  | Err _ => h_files h !! path = h_files h0 !! path
  end.

Lemma partial_neq path : partial path <> path.
Proof.
  unfold partial. intros E%(f_equal String.length). revert E. induction path as [|c path IH]; cbn; [done|].
  intros [=E]. by apply IH.
Qed.

Definition stable (P : Host -> Prop) : Prop := forall h h', P h -> drift h h' -> P h'.

Lemma safe_call_bind {X B} I R Q (c : Call X) (f : X -> Sys B) h :
  stable I -> I h -> (forall h, I h -> R h) ->
  (forall x h h', I h -> answers c h x h' -> safe R Q (f x) h') ->
  safe R Q (call c ≫= f) h.
Proof. intros HI Hh HR Hf. cbn. intros h' Hd. pose proof (HI _ _ Hh Hd). eauto. Qed.

Lemma safe_stop {A} I R (Q : A -> Host -> Prop) a h :
  stable I -> I h -> (forall h, I h -> R h) -> (forall h, I h -> Q a h) -> safe R Q (Return a) h.
Proof. intros HI Hh HR HQ. cbn. intros h' Hd. pose proof (HI _ _ Hh Hd). eauto. Qed.

(** Before the rename: only the partial file differs. *)
Definition untouched (path : string) (h0 : Host) h : Prop :=
  drift (with_files (h_files h) h0) h /\ (forall q, q <> partial path -> h_files h !! q = h_files h0 !! q).

(** The copy beside the path, whole. *)
Definition copied (path : string) (h0 : Host) (mode : Z) h : Prop :=
  untouched path h0 h /\ h_files h0 !! path = None /\
  exists s, h_files h !! partial path = Some (holding (Copy s) mode)
  /\ rtc others (h_database h0) s /\ rtc others s (h_database h).

Lemma drifted_base h0 h h' :
  drift (with_files (h_files h) h0) h -> drift h h' -> drift (with_files (h_files h') h0) h'.
Proof. intros Hd Hd'. rewrite (drift_files _ _ Hd'). by eapply drift_trans. Qed.
Lemma drifted_files h0 h m :
  drift (with_files (h_files h) h0) h -> drift (with_files (h_files (with_files m h)) h0) (with_files m h).
Proof. intros (d & Hd & E). exists d. destruct h, h0; cbn in *. by simplify_eq. Qed.

Lemma untouched_stable path h0 : stable (untouched path h0).
Proof.
  intros h h' [Hd Hf] Hd'. split; [by eapply drifted_base|]. by rewrite (drift_files _ _ Hd').
Qed.
(** Writes of the other processes keep what is said of the files. *)
Lemma complete_drift h0 path h h' : complete h0 path h -> drift h h' -> complete h0 path h'.
Proof.
  intros (s & Hf & H0 & H1) Hd. exists s. rewrite (drift_files _ _ Hd). split_and!; [done..|].
  etrans; [done|]. by apply drift_database.
Qed.
Lemma copied_stable path h0 m : stable (copied path h0 m).
Proof.
  intros h h' (Hu & Hn & s & Hs & H0 & H1) Hd. split_and!; [by eapply untouched_stable|done|].
  exists s. rewrite (drift_files _ _ Hd). split_and!; [done..|]. etrans; [done|]. by apply drift_database.
Qed.

Lemma backup_crash_stable path h0 : stable (backup_crash path h0).
Proof.
  intros h h' (Hd & Hf & Hp) Hd'. split; [by eapply drifted_base|]. rewrite (drift_files _ _ Hd').
  split; [done|].
  destruct Hp as [?|[? ?]]; [by left|right]. split; [done|]. by eapply complete_drift.
Qed.

Lemma untouched_crash path h0 h : untouched path h0 h -> backup_crash path h0 h.
Proof.
  intros [Hd Hf]. split_and!; [done|auto|left]. apply Hf. by apply not_eq_sym, partial_neq.
Qed.

Lemma untouched_put path h0 h f : untouched path h0 h -> untouched path h0 (put (partial path) f h).
Proof.
  intros [Hd Hf]. split; [by apply drifted_files|].
  intros q Hq. destruct h; cbn in *. rewrite lookup_insert_ne by done. auto.
Qed.
Lemma untouched_drop path h0 h : untouched path h0 h -> untouched path h0 (drop (partial path) h).
Proof.
  intros [Hd Hf]. split; [by apply drifted_files|].
  intros q Hq. destruct h; cbn in *. rewrite lookup_delete_ne by done. auto.
Qed.

(** The end of a backup that fails: the partial file is removed, or stays. *)
Lemma backup_clean_safe path h0 wrap h :
  untouched path h0 h ->
  safe (backup_crash path h0) (backup_done path h0) (_ ← call (Remove (partial path)); Return (Err (wrap : error))) h.
Proof.
  intros Hu. apply (safe_call_bind (untouched path h0)); [apply untouched_stable|done|apply untouched_crash|].
  intros r h1 h2 H1 Ha. assert (untouched path h0 h2) as H2.
  { cbn in Ha. destruct r; subst; [by apply untouched_drop|done]. }
  apply (safe_stop (untouched path h0)); [apply untouched_stable|done|apply untouched_crash|].
  intros h3 [_ Hf]. cbn. apply Hf. by apply not_eq_sym, partial_neq.
Qed.

Lemma backup_rename_safe path h0 wrap h :
  copied path h0 0x180 h ->
  safe (backup_crash path h0) (backup_done path h0)
    (moved ← call (Rename (partial path) path);
     match moved with
     | Err e => _ ← call (Remove (partial path)); Return (Err (wrap e : error))
     | Ok _ => Return (Ok tt)
     end) h.
Proof.
  intros Hc. apply (safe_call_bind (copied path h0 0x180)); [apply copied_stable|done|by intros ? [? _]; apply untouched_crash|].
  intros r h1 h2 (Hu & Hn & s & Hs & H0 & H1) Ha. cbn in Ha. destruct r as [[]|e]; [|subst; by apply backup_clean_safe].
  destruct Ha as (f & Hf & ->). simplify_eq.
  apply (safe_stop (fun h => backup_crash path h0 h /\ complete h0 path h)); [| |by intros ? []|].
  - intros h4 h5 [Hb Hp] Hd. split; [by eapply backup_crash_stable|by eapply complete_drift].
  - assert (complete h0 path (put path (holding (Copy s) 0x180) (drop (partial path) h1))) as Hdone.
    { exists s. destruct h1; cbn in *. rewrite lookup_insert_eq. done. }
    split; [|done]. destruct Hu as [Hd Hf']. split_and!; [|intros q Hq Hq'|right; by split].
    + by do 2 apply drifted_files.
    + destruct h1; cbn in *. rewrite lookup_insert_ne, lookup_delete_ne by done. by apply Hf'.
  - intros h3 [_ Hp]. split; [done|exact Hp].
Qed.

Lemma backup_copy_safe path h0 wrap h :
  untouched path h0 h -> h_files h0 !! path = None ->
  safe (backup_crash path h0) (backup_done path h0)
    (let clean e := _ ← call (Remove (partial path)); Return (Err (wrap e : error)) in
     copied ← call (VacuumInto (partial path));
     match copied with
     | Err e => clean e
     | Ok _ =>
         owned ← call (Chmod (partial path) 0x180);
         match owned with
         | Err e => clean e
         | Ok _ => moved ← call (Rename (partial path) path);
                   match moved with Err e => clean e | Ok _ => Return (Ok tt) end
         end
     end) h.
Proof.
  intros Hu Hn. cbn zeta. apply (safe_call_bind (untouched path h0)); [apply untouched_stable|done|apply untouched_crash|].
  intros r h1 h2 H1 Ha. cbn in Ha. destruct r as [[]|e]; cycle 1.
  { apply backup_clean_safe. destruct Ha as [->|[m ->]]; [done|by apply untouched_put]. }
  destruct Ha as [m ->].
  apply (safe_call_bind (copied path h0 m)); [apply copied_stable| |by intros ? [? _]; apply untouched_crash|].
  { split_and!; [by apply untouched_put|done|]. exists (h_database h1). destruct H1 as [Hd _].
    apply drift_database in Hd. destruct h1, h0; cbn in *. rewrite lookup_insert_eq. done. }
  intros r h3 h4 (H3 & _ & s & Hs & H0 & Hs1) Ha. cbn in Ha. destruct r as [[]|e]; [|subst; by apply backup_clean_safe].
  destruct Ha as (f & Hf & ->). simplify_eq. apply backup_rename_safe.
  split_and!; [by apply untouched_put|done|]. exists s. destruct h3; cbn in *. rewrite lookup_insert_eq. done.
Qed.

Lemma backup_safe path h0 h :
  untouched path h0 h -> safe (backup_crash path h0) (backup_done path h0) (backup path) h.
Proof.
  intros Hu. unfold backup. apply (safe_call_bind (untouched path h0)); [apply untouched_stable|done|apply untouched_crash|].
  intros r h1 h2 H1 [-> Hr]. destruct r as [[]|e].
  { apply (safe_stop (untouched path h0)); [apply untouched_stable|done|apply untouched_crash|].
    intros h3 [_ Hf]. cbn. apply Hf. by apply not_eq_sym, partial_neq. }
  assert (h_files h0 !! path = None) as Hn.
  { destruct H1 as [_ Hf]. rewrite <- Hf by (by apply not_eq_sym, partial_neq).
    destruct (h_files h1 !! path) eqn:E; [|done]. exfalso. destruct Hr as [_ Hr]. discriminate Hr. by eexists. }
  apply safe_or_return. apply safe_call. intros h3 Hd3.
  pose proof (untouched_stable _ _ _ _ H1 Hd3) as H3. split; [by apply untouched_crash|].
  intros x h4 -> h5 Hd5. pose proof (untouched_stable _ _ _ _ H3 Hd5) as H5.
  split; [by apply untouched_crash|]. destruct x as [[]|e'].
  - apply (safe_call_bind (untouched path h0)); [apply untouched_stable|done|apply untouched_crash|].
    intros r h6 h7 H6 Ha. apply backup_copy_safe; [|done]. cbn in Ha. destruct r; subst; [by apply untouched_drop|done].
  - intros h6 Hd6. pose proof (untouched_stable _ _ _ _ H5 Hd6) as H6.
    split; [by apply untouched_crash|]. destruct H6 as [_ Hf]. cbn. apply Hf. by apply not_eq_sym, partial_neq.
Qed.

Lemma untouched_refl path h : untouched path h h.
Proof. split; [|done]. replace (with_files (h_files h) h) with h by (by destruct h). apply drift_refl. Qed.

(** Claim C11. A backup is atomic: at every moment of it — so after a crash —
    and whatever fails, no file but the destination and its [.partial] is
    touched, and the destination is as it was, or it was absent and is a
    whole copy, owner-only, of the database as it was at some moment since
    the start.  If the backup reports success the destination is such a copy;
    if it reports an error, also that the destination exists, the destination
    is as it was. *)
Theorem backup_atomic path h p h' :
  rtc (sys_step others) (backup path, h) (p, h') ->
  backup_crash path h h' /\ (forall r, p = Return r -> backup_done path h r h').
Proof. intros Hr. eapply safe_run; [|exact Hr]. apply backup_safe, untouched_refl. Qed.
End crash.

(** ** Migrating *)

Section migrating.
Context `{UnicodeTables} `{Sqlite}.
Context {Rows : Type} (others : Snapshot Rows -> Snapshot Rows -> Prop).
#[local] Notation Host := (Host Rows).
Implicit Types (h : Host).

(** The other processes write rows; the opening one migrates. *)
Hypothesis others_version : forall s s', others s s' -> sn_version s' = sn_version s.
Variables (path : string) (h0 : Host).
Hypothesis Hown : own_file path = true.
Hypothesis Hschema : 0 < sn_version (h_database h0).

(** What the database is but for the other processes' writes. *)
Definition unmigrated h : Prop := rtc others (h_database h0) (h_database h).

(** There is a whole copy, owner-only, of the database before migrating. *)
Definition saved h : Prop := exists t s,
  h_files h !! backup_path path (sn_version (h_database h0)) embedded t = Some (holding (Copy s) 0x180)
  /\ rtc others (h_database h0) s.

Definition way_back h : Prop := unmigrated h \/ saved h.
Definition ready h : Prop := unmigrated h /\ (embedded <= sn_version (h_database h0) \/ saved h).
(** A result whose errors promise nothing. *)
Definition on_ok {A} (J : A -> Host -> Prop) (r : res A) h : Prop := match r with Ok a => J a h | Err _ => True end.

Lemma others_keep_version s s' : rtc others s s' -> sn_version s' = sn_version s.
Proof. induction 1 as [|s s' s'' Hs _ IH]; [done|]. rewrite IH. by apply others_version. Qed.
Lemma drift_version h h' : drift others h h' -> sn_version (h_database h') = sn_version (h_database h).
Proof. intros Hd. by apply others_keep_version, drift_database. Qed.

Lemma unmigrated_stable : stable others unmigrated.
Proof. intros h h' Hu Hd. unfold unmigrated. etrans; [exact Hu|]. by apply drift_database. Qed.
Lemma saved_stable : stable others saved.
Proof. intros h h' Hs Hd. unfold saved. by rewrite (drift_files _ _ _ Hd). Qed.
Lemma way_back_stable : stable others way_back.
Proof. intros h h' [?|?] ?; [left; by eapply unmigrated_stable|right; by eapply saved_stable]. Qed.
Lemma ready_stable : stable others ready.
Proof.
  intros h h' [? Hs] ?. split; [by eapply unmigrated_stable|].
  destruct Hs as [?|?]; [by left|right; by eapply saved_stable].
Qed.
Lemma way_back_unmigrated h : unmigrated h -> way_back h.
Proof. by left. Qed.
#[local] Hint Resolve unmigrated_stable ready_stable way_back_stable way_back_unmigrated : core.

(** A call that leaves the database alone. *)
Definition quiet {X} (c : Call X) : Prop := forall h x h', answers c h x h' -> h_database h' = h_database h.

Lemma quiet_call_bind {X B} (c : Call X) (f : X -> Sys B) Q h :
  quiet c -> unmigrated h -> (forall x h, unmigrated h -> safe others way_back Q (f x) h) ->
  safe others way_back Q (call c ≫= f) h.
Proof.
  intros Hc Hu Hf. apply (safe_call_bind _ unmigrated); auto.
  intros x h1 h2 H1 Ha. apply Hf. unfold unmigrated. by rewrite (Hc _ _ _ Ha).
Qed.

Lemma quiet_calls :
  (forall p m, quiet (MkdirAll p m)) /\ (forall p m, quiet (Chmod p m)) /\ quiet Now /\ (forall d, quiet (Open d))
  /\ quiet Ping /\ quiet Close /\ (forall d, quiet (NewProvider d)) /\ quiet GetVersions.
Proof.
  split_and!; repeat intro; destruct h; cbn in *; destruct_or?; destruct_and?; subst; try done.
  - destruct x; [|by subst]. by destruct H1 as (f & _ & ->).
  - by destruct H1 as (p & m & _ & _ & ->).
Qed.

Lemma backup_unmigrated dst h h' : unmigrated h -> backup_crash others dst h h' -> unmigrated h'.
Proof.
  intros Hu [Hd _]. unfold unmigrated. apply drift_database in Hd. destruct h, h'; cbn in *. etrans; [exact Hu|exact Hd].
Qed.

(** The backup before migrating. *)
Definition backed_up (r : res unit) h : Prop := unmigrated h /\ (r = Ok tt -> saved h).

Lemma backed_up_stable r : stable others (backed_up r).
Proof. intros h h' [? ?] ?. split; [by eapply unmigrated_stable|]. intros Hr. eapply saved_stable; eauto. Qed.

Lemma before_migrate_safe h :
  unmigrated h ->
  safe others way_back backed_up (before_migrate path (sn_version (h_database h0)) embedded) h.
Proof.
  intros Hu. apply quiet_call_bind; [by apply quiet_calls|done|]. intros t h1 H1. apply safe_or_return.
  eapply safe_mono; [| |apply backup_safe, untouched_refl].
  - intros h2 Hb. left. by eapply backup_unmigrated.
  - intros r h2 Hb%(backup_unmigrated _ _ _ H1) Hr. destruct r as [[]|e]; cbn beta iota.
    + apply (safe_stop _ (backed_up (Ok tt))); [apply backed_up_stable| |by intros ? [? _]; left|done].
      split; [done|]. intros _. destruct Hr as [_ (s & Hf & Hs & _)]. exists t, s. split; [done|].
      etrans; [exact H1|exact Hs].
    + intros h3 Hd. pose proof (unmigrated_stable _ _ Hb Hd). by split; [left|].
Qed.

Lemma up_safe h : ready h ->
  safe others way_back (on_ok (fun _ h => embedded <= sn_version (h_database h)))
    (or_return (Errorf "failed to apply migrations") (call Up) (fun _ => Return (Ok tt))) h.
Proof.
  intros Hr. apply (safe_call_bind _ ready); [auto|done|by intros ? [? _]; auto|].
  intros r h1 h2 [Hu Hs] Ha. assert (way_back h2 /\ (r = Ok tt -> embedded <= sn_version (h_database h2))) as Hw.
  { pose proof (others_keep_version _ _ Hu) as Hv. cbn in Ha. destruct (Z.leb_spec embedded (sn_version (h_database h1))).
    - subst. by split; [left|].
    - destruct Ha as (d & -> & Hd & Hok). destruct Hs as [?|Hs]; [lia|]. split.
      + right. destruct Hs as (t & s & Hf). exists t, s. by destruct h1.
      + intros Hr'. rewrite <- (Hok Hr'). by destruct h1. }
  set (I h := way_back h /\ (r = Ok tt -> embedded <= sn_version (h_database h))).
  assert (stable others I) as HI.
  { intros h3 h4 [? Hv] Hd. split; [by eapply way_back_stable|]. rewrite (drift_version _ _ Hd). exact Hv. }
  destruct r as [[]|e]; (apply (safe_stop _ I); [done|done|by intros ? []|]); intros h3 [_ Hok]; cbn; auto.
Qed.

Lemma or_return_safe {A B} (J : A -> Host -> Prop) (Q : B -> Host -> Prop) wrap m (k : A -> Sys (res B)) h :
  safe others way_back (on_ok J) m h -> (forall a h, J a h -> safe others way_back (on_ok Q) (k a) h) ->
  safe others way_back (on_ok Q) (or_return wrap m k) h.
Proof.
  intros Hm Hk. apply safe_or_return. eapply safe_mono; [done| |exact Hm].
  intros [a|e] h1 HR HJ; [by apply Hk|]. intros h2 Hd. by split; [eapply way_back_stable|].
Qed.

Lemma quiet_safe {A} (c : Call (res A)) h : quiet c -> unmigrated h -> safe others way_back (on_ok (fun _ => unmigrated)) (call c) h.
Proof.
  intros Hc Hu. apply safe_call. intros h1 Hd1. pose proof (unmigrated_stable _ _ Hu Hd1) as H1.
  split; [auto|]. intros x h2 Ha h3 Hd3.
  assert (unmigrated h3) by (eapply unmigrated_stable; [|done]; unfold unmigrated; by rewrite (Hc _ _ _ Ha)).
  split; [auto|]. by destruct x.
Qed.

Lemma return_safe {A} (J : Host -> Prop) (r : res A) h :
  stable others J -> (forall h, J h -> way_back h) -> J h -> safe others way_back (on_ok (fun _ => J)) (Return r) h.
Proof. intros HJ HR Hh. apply (safe_stop _ J); [done..|]. by destruct r. Qed.

Lemma versions_safe h : unmigrated h ->
  safe others way_back (on_ok (fun v h => unmigrated h /\ v = (sn_version (h_database h0), embedded))) (call GetVersions) h.
Proof.
  intros Hu. apply safe_call. intros h1 Hd1. pose proof (unmigrated_stable _ _ Hu Hd1) as H1.
  split; [auto|]. intros x h2 [-> Hv] h3 Hd3. pose proof (unmigrated_stable _ _ H1 Hd3) as H3.
  split; [auto|]. destruct x as [v|]; [|done]. split; [done|]. rewrite (Hv v) by done.
  by rewrite (others_keep_version _ _ H1).
Qed.

Lemma migrations_safe h :
  unmigrated h ->
  safe others way_back (on_ok (fun _ h => embedded <= sn_version (h_database h)))
    (migrations_Up DialectSQLite3 (Some (before_migrate path))) h.
Proof.
  intros Hu. unfold migrations_Up, newProvider. change (dialectDir DialectSQLite3) with (Some "sqlite"%string). cbn iota.
  eapply (or_return_safe (fun _ => unmigrated)).
  { eapply (or_return_safe (fun _ => unmigrated)); [apply quiet_safe; [by apply quiet_calls|done]|].
    intros _ h1 H1. apply return_safe; auto. }
  intros _ h1 H1. apply (or_return_safe (fun _ => ready)); [|intros _ h2; apply up_safe].
  eapply or_return_safe; [by apply versions_safe|]. intros v h2 [H2 ->].
  destruct ((0 <? _) && _) eqn:E; bool_to_prop.
  - eapply safe_mono; [done| |by apply before_migrate_safe]. intros [[]|e] h3 _ [? Hs]; [|done].
    split; [done|]. right. by apply Hs.
  - apply return_safe; [auto|by intros ? [? _]; left|]. split; [done|]. left. lia.
Qed.

Lemma closing_safe {A} (J : A -> Host -> Prop) (e : error) h :
  way_back h -> safe others way_back (on_ok J) (_ ← call Close; Return (Err e)) h.
Proof.
  intros Hw. apply (safe_call_bind _ way_back); [auto|done|done|]. intros [] h1 h2 H1 ->.
  by apply (safe_stop _ way_back); auto.
Qed.

Lemma NewStore_safe h :
  unmigrated h ->
  safe others way_back (on_ok (fun _ h => embedded <= sn_version (h_database h))) (sqlite_NewStore path) h.
Proof.
  intros Hu. unfold sqlite_NewStore. rewrite Hown. split_match; [by apply (safe_stop _ unmigrated); auto|].
  apply (or_return_safe (fun _ => unmigrated)); [apply quiet_safe; [by apply quiet_calls|done]|]. intros _ h1 H1.
  apply (or_return_safe (fun _ => unmigrated)); [apply quiet_safe; [by apply quiet_calls|done]|]. intros _ h2 H2.
  apply quiet_call_bind; [by apply quiet_calls|done|]. intros [_|e] h3 H3; [|by apply closing_safe; left].
  apply quiet_call_bind; [by apply quiet_calls|done|]. intros _ h4 H4.
  apply safe_bind. eapply safe_mono; [done| |by apply migrations_safe].
  intros [[]|e] h5 Hw Hv; cbn beta iota; [|by apply closing_safe].
  apply (safe_stop _ (fun h => way_back h /\ embedded <= sn_version (h_database h))); [|done|by intros ? []|by intros ? []].
  intros h6 h7 [? ?] Hd. split; [by eapply way_back_stable|]. by rewrite (drift_version _ _ Hd).
Qed.
End migrating.

(** Claim C12. A database of an earlier release is migrated only when there is
    a way back: opening a store whose file is the program's own, at every
    moment — so also after a crash in the middle of a migration that fails —
    the database is the one there was, but for what other processes wrote, or
    there is a whole copy of it, owner-only, in the file of [backups/] that
    is named after the two versions; and a store that opens has a schema at
    least as recent as the program. *)
Theorem migration_way_back `{UnicodeTables} `{Sqlite} {Rows} (others : Snapshot Rows -> Snapshot Rows -> Prop)
    path h p h' :
  (forall s s', others s s' -> sn_version s' = sn_version s) ->
  own_file path = true -> 0 < sn_version (h_database h) ->
  rtc (sys_step others) (sqlite_NewStore path, h) (p, h') ->
  (rtc others (h_database h) (h_database h') \/
   exists t s, h_files h' !! backup_path path (sn_version (h_database h)) embedded t = Some (holding (Copy s) 0x180)
     /\ rtc others (h_database h) s)
  /\ (forall st, p = Return (Ok st) -> embedded <= sn_version (h_database h')).
Proof.
  intros Hv Hown Hs Hr.
  destruct (safe_run _ _ _ _ _ _ _ (NewStore_safe others Hv path h Hown Hs h (rtc_refl _ _)) Hr) as [Hw Hq].
  split; [exact Hw|]. intros st ->. by apply (Hq (Ok st)).
Qed.

(** ** When nothing fails *)

Section succeeding.
Context {Rows : Type} (others : Snapshot Rows -> Snapshot Rows -> Prop).
(** The clock, the mode of a new file, and what the migrations make of the
    rows. *)
Context (clock new_mode : Z) (migrate : Rows -> Rows).
#[local] Notation Host := (Host Rows).

Definition update_mode (p : string) (m : Z) (h : Host) : res unit * Host :=
  match h_files h !! p with
  | Some f => (Ok tt, put p (holding (f_contents f) m) h)
  | None => (Err (Plain "no such file"), h)
  end.

Definition succeed {X} (c : Call X) (h : Host) : X * Host :=
  match c in Call X return X * Host with
  | Stat p => match h_files h !! p with Some _ => (Ok tt, h) | None => (Err (Plain "no such file"), h) end
  | MkdirAll _ _ | NewProvider _ => (Ok tt, h)
  | Remove p => (Ok tt, drop p h)
  | Rename p q => match h_files h !! p with
      | Some f => (Ok tt, put q f (drop p h))
      | None => (Err (Plain "no such file"), h)
      end
  | Chmod p m => update_mode p m h
  | Now => (clock, h)
  | Open d => (Ok tt, with_dsn d h)
  | Ping => (Ok tt, h)
  | Close => (tt, h)
  | VacuumInto p => (Ok tt, put p (holding (Copy (h_database h)) new_mode) h)
  | GetVersions => (Ok (sn_version (h_database h), embedded), h)
  | Up => (Ok tt, if embedded <=? sn_version (h_database h) then h
                  else with_database {| sn_version := embedded; sn_rows := migrate (sn_rows (h_database h)) |} h)
  end.

Lemma succeed_answers {X} (c : Call X) h : answers c h (succeed c h).1 (succeed c h).2.
Proof.
  destruct c; cbn; unfold update_mode; try (by eauto); try (by left).
  - destruct (h_files h !! name) eqn:E; cbn; split; try done; by split; [intros; eexists|].
  - destruct (h_files h !! old) eqn:E; cbn; eauto.
  - destruct (h_files h !! name) eqn:E; cbn; eauto.
  - split; [done|]. by intros v [= <-].
  - destruct (Z.leb_spec embedded (sn_version (h_database h))); [done|]. unfold embedded in *. eexists; split_and!; [done|cbn; lia|cbn; lia|done].
Qed.

Fixpoint lucky {A} (p : Sys A) (h : Host) : A * Host :=
  match p with
  | Return a => (a, h)
  | Perform c k => lucky (k (succeed c h).1) (succeed c h).2
  end.

Lemma lucky_run {A} (p : Sys A) h : rtc (sys_step others) (p, h) (Return (lucky p h).1, (lucky p h).2).
Proof.
  revert h. induction p as [a|X c k IH]; intros h; cbn; [done|].
  eapply rtc_l; [|apply IH]. constructor. apply succeed_answers.
Qed.

(** A backup to a new place succeeds. *)
Lemma backup_succeeds path h : h_files h !! path = None -> (lucky (backup path) h).1 = Ok tt.
Proof.
  intros Hn. unfold backup. cbn. rewrite Hn. cbn. unfold update_mode. destruct h; cbn.
  rewrite lookup_insert_eq. cbn. by rewrite lookup_insert_eq.
Qed.
End succeeding.

(** ** What the partial file is open to *)

(** Until it is made owner-only the partial file, a whole copy, has the mode
    of any new file, and keeps it when the process ends there. *)
Lemma partial_readable {Rows} (others : Snapshot Rows -> Snapshot Rows -> Prop) path h m :
  h_files h !! path = None ->
  exists p h', rtc (sys_step others) (backup path, h) (p, h') /\
    h_files h' !! partial path = Some (holding (Copy (h_database h)) m).
Proof.
  intros Hn. eexists _, _. split.
  - unfold backup. cbn.
    eapply rtc_l; [apply (sys_call _ _ (Stat path)) with (x := Err (Plain "")); cbn; split; [done|]; rewrite Hn; by split; [|intros []]|].
    eapply rtc_l; [apply (sys_call _ _ (MkdirAll _ _)) with (x := Ok tt); done|].
    eapply rtc_l; [apply (sys_call _ _ (Remove _)) with (x := Ok tt); done|].
    apply rtc_once, (sys_call _ _ (VacuumInto _)) with (x := Ok tt). by exists m.
  - destruct h; cbn. by rewrite lookup_insert_eq.
Qed.

(** ** Two backups to one place *)

(** Two backups at once share the partial file: one that fails — or whose
    process ends — while it copies leaves part of a copy, which the other,
    that has copied but not renamed yet, moves into place and reports done. *)
Lemma backups_race {Rows} (others : Snapshot Rows -> Snapshot Rows -> Prop) path h :
  h_files h !! path = None ->
  exists q h', rtc (pair_step others) (backup path, backup path, h) (Return (Ok tt), q, h') /\
    h_files h' !! path = Some (holding Other 0x180).
Proof.
  intros Hn.
  assert (forall h : Host Rows, h_files h !! path = None ->
            answers (Stat path) h (Err (Plain "")) h) as Hstat.
  { intros h1 H1. cbn. split; [done|]. rewrite H1. by split; [|intros []]. }
  assert (forall h : Host Rows, h_files h !! path = None ->
            h_files (drop (partial path) h) !! path = None) as Hdrop.
  { intros [] H1; cbn in *. by rewrite lookup_delete_ne by apply partial_neq. }
  assert (forall f (h : Host Rows), h_files h !! path = None ->
            h_files (put (partial path) f h) !! path = None) as Hput.
  { intros f [] H1; cbn in *. by rewrite lookup_insert_ne by apply partial_neq. }
  unfold backup. cbn. eexists _, _. split.
  - eapply rtc_l; [apply pair_left, (sys_call _ _ (Stat path)), Hstat, Hn|]. cbn.
    eapply rtc_l; [by apply pair_left, (sys_call _ _ (MkdirAll _ _)) with (x := Ok tt)|]. cbn.
    eapply rtc_l; [by apply pair_left, (sys_call _ _ (Remove _)) with (x := Ok tt)|]. cbn.
    eapply rtc_l; [apply pair_left, (sys_call _ _ (VacuumInto _)) with (x := Ok tt); by exists 0x180|]. cbn.
    eapply rtc_l; [apply pair_right, (sys_call _ _ (Stat path)), Hstat, Hput, Hdrop, Hn|]. cbn.
    eapply rtc_l; [by apply pair_right, (sys_call _ _ (MkdirAll _ _)) with (x := Ok tt)|]. cbn.
    eapply rtc_l; [by apply pair_right, (sys_call _ _ (Remove _)) with (x := Ok tt)|]. cbn.
    eapply rtc_l; [apply pair_right, (sys_call _ _ (VacuumInto _)) with (x := Err (Plain "disk full")); right; by exists 0x180|]. cbn.
    eapply rtc_l; [apply pair_left, (sys_call _ _ (Chmod _ _)) with (x := Ok tt)|]. 
    { eexists. split; [destruct h; cbn; apply lookup_insert_eq|reflexivity]. }
    cbn. eapply rtc_l; [apply pair_left, (sys_call _ _ (Rename _ _)) with (x := Ok tt)|].
    { eexists. split; [destruct h; cbn; apply lookup_insert_eq|reflexivity]. }
    cbn. apply rtc_refl.
  - destruct h; cbn. by rewrite lookup_insert_eq.
Qed.
