(* ===== verification/Main.v ===== *)
(** * cmd/idpico/main.go: how the server is put together

    [startup] prepares the store and the signing key and builds the services
    and the server's options from the configuration.  The configuration is
    read before (file Config); [main_program] opens the store (file Opening)
    and goes on with it.  Signals, logging and the listening socket are left
    to the runtime. *)
From S2P Require Import Prelude GoTime GoText GoUrl GoNetip GoDuration Encoding Errors Domain Database Lockout PendingLogins.
From S2P Require Import World Run Store Keys Password Jwt Totp Csrf Session AuthService Passkeys Account.
From S2P Require Import Authorize TokenService Http Middleware AdminHandlers Config Bootstrap Maintenance Server Mail Sqlite Opening.
From Stdlib Require Import Ascii.
#[local] Open Scope Z_scope.
#[local] Open Scope go_scope.

(** ** The services *)

Definition key_service (c : Config) : KeyService :=
  {| ks_cacheTTL := DefaultActiveKeyCacheTTL; ks_algorithm := cfg_SigningAlgorithm c |}.

Definition session_service (c : Config) : SessionService := {|
  ss_cookieSecure := cfg_CookieSecure c; ss_cookieDomain := cfg_CookieDomain c;
  ss_sessionTTL := cfg_SessionDuration c |}.

Definition csrf_service (c : Config) : CSRFService := {|
  cs_secret := cfg_CookieSecret c; cs_cookieSecure := cfg_CookieSecure c; cs_cookieDomain := cfg_CookieDomain c |}.

Definition lockout_service (c : Config) : option LockoutService :=
  if 0 <? cfg_LockoutMaxAttempts c
  then Some {| lo_maxAttempts := cfg_LockoutMaxAttempts c; lo_duration := cfg_LockoutDuration c |} else None.

Definition auth_service (c : Config) : Service := {|
  as_sessions := session_service c; as_csrf := csrf_service c; as_lockout := lockout_service c;
  as_audit := true; as_passkeys := true |}.

Definition account_service (c : Config) : AccountService := {|
  acc_baseURL := TrimRight "/"%char (cfg_IssuerURL c); acc_resetTTL := cfg_PasswordResetTTL c;
  acc_verifyTTL := cfg_EmailVerifyTTL c; acc_audit := true; acc_resetInterval := cfg_PasswordResetInterval c |}.

Definition token_generator (c : Config) (activeKey : KeyPair) : TokenGenerator := {|
  tg_keyPair := activeKey; tg_keyService := Some (key_service c);
  tg_issuer := cfg_IssuerURL c; tg_audience := cfg_IssuerURL c |}.

Definition groups_claim (c : Config) : string :=
  if cfg_GroupsClaim c ==? "" then DefaultGroupsClaim else cfg_GroupsClaim c.

Definition token_service (c : Config) (activeKey : KeyPair) : TokenService := {|
  ts_accessTTL := cfg_AccessTokenTTL c; ts_refreshTTL := cfg_RefreshTokenTTL c; ts_issuer := cfg_IssuerURL c;
  ts_groupClaims := Some (groups_claim c); ts_revocations := true;
  ts_generator := token_generator c activeKey |}.

Definition security_config (c : Config) : SecurityHeadersConfig :=
  let d := DefaultSecurityHeadersConfig in {|
  sh_ContentSecurityPolicy := if cfg_ContentSecurityPolicy c !=? "" then cfg_ContentSecurityPolicy c
                              else sh_ContentSecurityPolicy d;
  sh_XFrameOptions := sh_XFrameOptions d; sh_XContentTypeOptions := sh_XContentTypeOptions d;
  sh_ReferrerPolicy := sh_ReferrerPolicy d;
  sh_StrictTransportSecurity := if 0 <? cfg_HSTSMaxAge c
                                then "max-age=" +:+ dec (cfg_HSTSMaxAge c) +:+ "; includeSubDomains"
                                else sh_StrictTransportSecurity d;
  sh_PermissionsPolicy := sh_PermissionsPolicy d; sh_XSSProtection := sh_XSSProtection d |}.

Definition cors_config (c : Config) : CORSConfig :=
  let d := DefaultCORSConfig in {|
  co_AllowedOrigins := ParseCORSAllowedOrigins c; co_AllowCredentials := cfg_CORSAllowCredentials c;
  co_AllowedMethods := co_AllowedMethods d; co_AllowedHeaders := co_AllowedHeaders d;
  co_ExposedHeaders := co_ExposedHeaders d; co_MaxAge := co_MaxAge d |}.

Definition main_admin (c : Config) : AdminConfig := {|
  ac_AuthService := auth_service c; ac_AccountService := account_service c; ac_KeyService := Some (key_service c);
  ac_IssuerURL := cfg_IssuerURL c; ac_KeyGracePeriod := cfg_SigningKeyGracePeriod c;
  ac_GroupsClaim := groups_claim c; ac_AccessTokenTTL := cfg_AccessTokenTTL c;
  ac_RefreshTokenTTL := cfg_RefreshTokenTTL c; ac_PlaygroundEnabled := false; ac_audit := false |}.

(** [newMailer]: the configuration of the SMTP mailer, or the log. *)
Definition newMailer (c : Config) : res (option SMTPConfig) :=
  if cfg_MailDriver c ==? MailDriverSMTP then
    res_map Some (NewSMTPMailer {|
      smtp_Host := cfg_SMTPHost c; smtp_Port := cfg_SMTPPort c; smtp_Username := cfg_SMTPUsername c;
      smtp_Password := cfg_SMTPPassword c; smtp_From := cfg_SMTPFrom c; smtp_ImplicitTLS := cfg_SMTPImplicitTLS c |})
  else Ok None.

Definition trusted_proxies (c : Config) : list Prefix :=
  match ParseTrustedProxies c with Ok l => l | Err _ => [] end.

(** ** The server *)

Section main.
Context `{Store} `{UnicodeTables} `{KeyLib} `{JwtLib} `{Argon2} `{WebAuthn}.

(** go-webauthn's check of its configuration, and what /readyz asks: the
    connection, or the data directory. *)
Context (webauthn_New : string -> string -> list string -> option error) (readinessCheck : Prog (res unit)).

Definition has_webauthn (c : Config) : bool :=
  match newWebAuthn webauthn_New (cfg_IssuerURL c) with Ok _ => true | Err _ => false end.

Definition serverOpts (c : Config) (activeKey : KeyPair) : list Option_ :=
  [WithKeyService (key_service c);
   WithIssuerURL (cfg_IssuerURL c);
   WithAuthService (auth_service c) (has_webauthn c);
   WithAccountService (account_service c) (Duration_String (cfg_PasswordResetTTL c));
   WithOIDCServices (cfg_AuthCodeTTL c) (token_service c activeKey);
   WithGroupsClaim (groups_claim c);
   WithAudit;
   WithLoginRateLimit (cfg_LoginRateLimit c);
   WithTrustedProxies (trusted_proxies c);
   WithAccountPage;
   WithReadinessCheck readinessCheck;
   WithAdmin (main_admin c)]
  ++ (if cfg_PlaygroundEnabled c then [WithPlayground] else [])
  ++ (if cfg_RequireConsent c then [WithConsentService] else [])
  ++ (if cfg_SecurityHeadersEnabled c then [WithSecurityHeaders (security_config c)] else [])
  ++ (if 0 <? length_Z (ParseCORSAllowedOrigins c) then [WithCORS (cors_config c)] else [])
  ++ (if cfg_MetricsEnabled c then [WithMetrics true] else []).

(** The active key at the start: of the configured algorithm, rotated to it
    if need be. *)
Definition signing_key (c : Config) : Prog (res KeyPair) :=
  let? activeKey := EnsureActiveKey (key_service c) in
  if kp_Alg activeKey !=? cfg_SigningAlgorithm c
  then RotateKey (key_service c) (cfg_SigningKeyGracePeriod c)
  else ret_ok activeKey.

(** Up to the server; an error is the end of the process. *)
Definition startup (c : Config) : Prog (res Server) :=
  let! _ := provision c in
  let? activeKey := signing_key c in
  let? _ := Ret (newMailer c) in
  ret_ok (apply_options (serverOpts c activeKey)).

(** The maintenance runner, when one is started. *)
Definition maintenance_runner (c : Config) (checkpoint : option (Prog (res unit))) : option Runner :=
  if 0 <? cfg_MaintenanceInterval c then
    Some {| mt_keys := Some (key_service c); mt_keyMaxAge := SigningKeyMaxAge c;
            mt_keyGrace := cfg_SigningKeyGracePeriod c; mt_auditRetention := cfg_AuditRetention c;
            mt_audit := true; mt_checkpoint := checkpoint |}
  else None.
End main.

(** From the opening of the store on: the programs the store that opens runs. *)
Definition main_program `{Sqlite} `{UnicodeTables} `{KeyLib} `{JwtLib} `{Argon2} `{WebAuthn}
    (webauthn_New : string -> string -> list string -> option error) (readinessCheck : Store -> Prog (res unit))
    (c : Config) : Sys (res (Prog (res Server))) :=
  or_return id (openStore c) (fun st => Return (Ok (startup (H := st) webauthn_New (readinessCheck st) c))).
