(* ===== verification/TokenProperties.v ===== *)
(** * Properties of the token endpoint *)
From S2P Require Import Prelude GoTime GoText Encoding Hash Errors Domain Lockout PendingLogins World Run Metrics.
From S2P Require Import Store Exec StoreFacts FileStore Revocations Keys Password Jwt Authorize TokenService.
From S2P Require Import TokenFacts CutOff.
#[local] Open Scope Z_scope.
#[local] Open Scope go_scope.

Section grants.
Context `{StoreLaws} `{KeyLib} `{JwtLib} `{Argon2} (s : TokenService).

Lemma cut_off_spec m u c e w :
  wp (cut_off s m u c e) w (fun r _ => match r with Ok _ => False | Err _ => True end).
Proof.
  unfold cut_off. apply wp_bind, (wp_mono _ _ (fun _ _ => True)); [by apply wp_intro|].
  intros [[]|e'] w' _; by apply wp_ret.
Qed.

Lemma or_invalid_grant_try {A B} m (p : Prog (res A)) (k : A -> Prog (res B)) w P Q :
  wp p w P ->
  (forall a w', P (Ok a) w' -> wp (k a) w' Q) ->
  (forall e w', P (Err e) w' -> Q (Err (if IsCode e CodeNotFound then InvalidGrant m else e)) w') ->
  wp (let? a := or_invalid_grant m p in k a) w Q.
Proof. apply wp_try_map. Qed.

(** Claim C1.  A successful code exchange names a registered client, which
    authenticated itself and may use the grant; the code was stored unused
    for that client and redirect URI, had not expired, and its PKCE
    challenge was met; its user is active; the tokens carry the scope that
    was authorized; and the code is stored as used. *)
Theorem code_exchange_sound req w resp w' :
  run (HandleAuthorizationCode s req) w = (Ok resp, w') ->
  exists client code codes t,
    client_row w (tr_ClientID req) client /\
    authenticated client (tr_ClientSecret req) /\
    AllowsGrant client "authorization_code" = true /\
    get CAuthCodes (w_disk w) = FData codes /\
    find_first (fun a => ac_Code a ==? tr_Code req) codes = Some code /\
    ac_Used code = false /\
    ac_ClientID code = tr_ClientID req /\
    ac_RedirectURI code = tr_RedirectURI req /\
    instant w w' t /\ t <= ac_ExpiresAt code /\
    ValidateCodeVerifier (tr_CodeVerifier req) (ac_CodeChallenge code)
      (ac_CodeChallengeMethod code) = true /\
    (exists user, user_row w (ac_UserID code) user /\ user_Active user = true) /\
    tk_Scope resp = ac_Scope code /\
    get CAuthCodes (w_disk w') =
      FData (default codes (replace_first (fun a => ac_Code a ==? tr_Code req) ac_set_used codes)).
Proof.
  intros Hrun. pattern resp, w'. eapply run_Ok; [exact Hrun|]. clear Hrun.
  unfold HandleAuthorizationCode.
  do 2 (apply wp_if; intros _; [by apply wp_ret|]).
  eapply wp_try; [apply authenticate_for_spec| |done].
  intros client w1 (Hf1 & c0 & Hc0 & _ & Hauth & Hgrant).
  eapply or_invalid_grant_try; [apply law_AuthCodes_GetByCode| |done].
  intros code w2 Hq. pose proof (qry_same _ _ _ _ _ Hq) as [Ht2 Hd2].
  apply qry_find in Hq as (codes & Hcodes & Hfind).
  apply wp_if; intros Hcl; [by apply wp_ret|].
  apply wp_if; intros Hused; [by eapply wp_mono; [apply cut_off_spec|intros []]|].
  apply wp_bind, wp_now.
  apply wp_if; intros Hexp; [by apply wp_ret|].
  apply wp_if; intros Huri; [by apply wp_ret|].
  apply wp_if; intros Hpkce; [by apply wp_ret|].
  eapply wp_step; [apply law_AuthCodes_MarkUsed|].
  intros [[]|e] w3 Hu; cbn beta in Hu.
  2:{ apply wp_if; intros _; [by eapply wp_mono; [apply cut_off_spec|intros []]|by apply wp_ret]. }
  pose proof (upd_frame _ _ _ _ _ Hu) as Hf3.
  apply upd_Ok in Hu as (codes' & t3 & u3 & rows & Hc' & _ & _ & Hr & Hrows).
  cbn [ticked w_disk] in Hc'. rewrite Hd2, Hcodes in Hc'. injection Hc' as <-.
  unfold rows_consume in Hr. rewrite Hfind, Hused in Hr. injection Hr as <-.
  eapply wp_try; [apply active_user_spec| |done].
  intros user w4 ([Ht4 Hd4] & Hurow & Hact).
  eapply wp_mono; [apply generateTokens_spec|]. intros [resp'|e] w5 (Hf5 & Hiss); [|done].
  destruct Hiss as [Hsc _].
  rewrite <-(frame_row _ CAuthCodes _ _ Hf1) in Hcodes by set_solver.
  exists c0, code, codes, (env_clock (w_tick w2)). bool_to_prop.
  assert (w_tick w <= w_tick w2 /\ w_tick w2 <= w_tick w5)%nat as [Hle1 Hle2].
  { pose proof (frame_tick _ _ _ Hf1). pose proof (frame_tick _ _ _ Hf3).
    pose proof (frame_tick _ _ _ Hf5). simpl in *. lia. }
  repeat match goal with |- _ /\ _ => split end; auto.
  - by exists (w_tick w2).
  - by apply After_false.
  - exists user. split; [|done]. destruct Hurow as (us & Hus & Hfu). exists us. split; [|done].
    rewrite <-Hus. rewrite (frame_row _ CUsers _ _ Hf1) by set_solver. rewrite <-Hd2.
    rewrite <-(frame_row _ CUsers _ _ Hf3) by set_solver. done.
  - rewrite <-(frame_row _ CAuthCodes _ _ Hf5) by set_solver. by rewrite Hd4.
Qed.

(** Claim C2.  A successful refresh presents a stored, unrevoked, unexpired
    token of the authenticated client; its user is active; the new tokens
    carry a scope the old one grants; the presented token is stored as
    revoked, and the token file gains at most one fresh refresh token, which
    is the one returned. *)
Theorem refresh_sound req w resp w' :
  run (HandleRefreshToken s req) w = (Ok resp, w') ->
  exists client token tokens t,
    client_row w (tr_ClientID req) client /\
    authenticated client (tr_ClientSecret req) /\
    AllowsGrant client "refresh_token" = true /\
    get CTokens (w_disk w) = FData tokens /\
    find_first (fun t => token_ID t ==? tr_RefreshToken req) tokens = Some token /\
    token_Revoked token = false /\ token_ClientID token = tr_ClientID req /\
    instant w w' t /\ t <= token_ExpiresAt token /\
    (exists user, user_row w (token_UserID token) user /\ user_Active user = true) /\
    refreshed_scope (tr_Scope req) (token_Scope token) = Ok (tk_Scope resp) /\
    let rotated := default tokens
      (replace_first (fun t => token_ID t ==? tr_RefreshToken req) token_set_revoked tokens) in
    (tk_RefreshToken resp = "" /\ get CTokens (w_disk w') = FData rotated \/
     exists fresh, get CTokens (w_disk w') = FData (rotated ++ [fresh]) /\
       token_ID fresh = tk_RefreshToken resp /\ fresh_id w w' (token_ID fresh) /\
       token_UserID fresh = token_UserID token /\ token_ClientID fresh = token_ClientID token /\
       token_Scope fresh = tk_Scope resp /\ token_Revoked fresh = false).
Proof.
  intros Hrun. pattern resp, w'. eapply run_Ok; [exact Hrun|]. clear Hrun.
  unfold HandleRefreshToken.
  apply wp_if; intros _; [by apply wp_ret|].
  eapply wp_try; [apply authenticate_for_spec| |done].
  intros client w1 (Hf1 & c0 & Hc0 & Hsame & Hauth & Hgrant).
  eapply or_invalid_grant_try; [apply law_Tokens_GetByID| |done].
  intros token w2 Hq. pose proof (qry_same _ _ _ _ _ Hq) as [Ht2 Hd2].
  apply qry_find in Hq as (tokens & Htokens & Hfind).
  apply wp_if; intros Hcl; [by apply wp_ret|]. bool_to_prop.
  apply wp_bind, wp_now.
  apply wp_if; intros Hrev; [by eapply wp_mono; [apply cut_off_spec|intros []]|].
  apply wp_bind, wp_now. apply wp_if; intros Hval; [by apply wp_ret|].
  apply negb_false_iff, andb_true_iff in Hval as [Hne Hnr]. apply negb_true_iff in Hnr, Hne.
  eapply wp_try; [apply active_user_spec| |done].
  intros user w3 ([Ht3 Hd3] & Hurow & Hact). cbn [ticked w_disk w_tick] in Ht3, Hd3.
  destruct (refreshed_scope _ _) as [scope|e] eqn:Hscope; [|by apply wp_bind, wp_ret].
  apply wp_bind, wp_ret.
  eapply wp_step; [apply law_Tokens_Rotate|]. intros [[]|e] w4 Hu; cbn beta in Hu.
  2:{ apply wp_if; intros _; [by eapply wp_mono; [apply cut_off_spec|intros []]|by apply wp_ret]. }
  pose proof (upd_frame _ _ _ _ _ Hu) as Hf4.
  apply upd_Ok in Hu as (tokens' & t4 & u4 & rows & Ht' & _ & _ & Hr & Hrows).
  rewrite Hd3, Hd2, Htokens in Ht'. injection Ht' as <-.
  unfold rows_consume in Hr. rewrite Hfind, Hnr in Hr. injection Hr as <-.
  eapply wp_mono; [apply generateTokens_spec|]. intros [resp'|e] w5 (Hf5 & Hiss); [destruct Hiss as [Hsc Hiss]|done].
  rewrite <-(frame_row _ CTokens _ _ Hf1) in Htokens by set_solver.
  exists c0, token, tokens, (env_clock (w_tick w2 + 1)).
  assert (w_tick w <= w_tick w2 /\ w_tick w2 + 1 <= w_tick w4 /\ w_tick w4 <= w_tick w5)%nat
    as (Hle1 & Hle2 & Hle3).
  { pose proof (frame_tick _ _ _ Hf1). pose proof (frame_tick _ _ _ Hf4).
    pose proof (frame_tick _ _ _ Hf5). simpl in *. lia. }
  repeat match goal with |- _ /\ _ => split end; auto.
  - exists (w_tick w2 + 1)%nat. split; [lia|done].
  - by apply After_false.
  - exists user. split; [|done]. destruct Hurow as (us & Hus & Hfu). exists us. split; [|done].
    rewrite <-Hus. rewrite (frame_row _ CUsers _ _ Hf1) by set_solver. by rewrite <-Hd2.
  - by rewrite Hsc.
  - destruct Hiss as [[Hn Hg]|(rs & fresh & Hrs & Hrs' & Hid & Hfr & Hu5 & Hc5 & Hs5 & Hr5 & _)].
    + left. split; [done|]. by rewrite Hg, Hrows.
    + right. rewrite Hrows in Hrs. injection Hrs as <-. exists fresh.
      destruct Hfr as (n & Hn & Hidn). destruct Hurow as (us & Hus & Hfu).
      apply find_first_Some in Hfu as [_ Hfu]. destruct Hc0 as (cs & Hcs & Hfc).
      apply find_first_Some in Hfc as [_ Hfc]. destruct Hsame as [Hci _]. bool_to_prop.
      repeat match goal with |- _ /\ _ => split end; try congruence.
      exists n. split; [lia|done].
Qed.

(** ** Reuse *)

(** [cut_off] later than [w], from a world whose token file is that of [w]. *)
Lemma cut_off_later `{!EnvLaws} cs m userID clientID reuse rows w w1 :
  (forall e, reuse <> Errorf m e) ->
  get CTokens (w_disk w) = FData rows -> unique_by token_ID rows ->
  frame cs w w1 -> NTokens ∉ cs ->
  wp (cut_off s m userID clientID reuse) w1 (fun r w' => r = Err reuse ->
    exists t, env_clock (w_tick w) <= t /\ cut_off_in s w' userID clientID t).
Proof.
  intros Hne Hrows Hu Hf Hcs. eapply wp_mono.
  - eapply (cut_off_reuse s m userID clientID reuse rows); [done| |done].
    by rewrite (frame_get _ CTokens _ _ Hf).
  - intros r w' Hw Hr. destruct (Hw Hr) as (t & Ht & Hcut). exists t. split; [|done].
    pose proof (clock_mono _ _ (frame_tick _ _ _ Hf)). lia.
Qed.

Lemma not_storage {A} (c : Coll A) {B} (f : Z -> A -> res B) w w' message reuse e :
  (forall t a e', f t a = Err e' -> IsCode e' CodeNotFound = true) ->
  InvalidGrant message <> reuse -> ~ storage_error reuse ->
  qry c f w (Err e) w' -> (if IsCode e CodeNotFound then InvalidGrant message else e) <> reuse.
Proof.
  intros Hf Hm Hs (_ & _ & [(a & t & _ & _ & Hr)|(e' & [= <-] & He & _)]).
  - by rewrite (Hf _ _ _ (eq_sym Hr)).
  - rewrite (storage_error_IsCode _ _ He) by done. by intros ->.
Qed.

Lemma rows_find_missing {A} (p : A -> bool) kind id t a e :
  rows_find p (NotFound kind id) t a = Err e -> IsCode e CodeNotFound = true.
Proof. unfold rows_find, find_or. by case_match; intros; simplify_eq. Qed.

Lemma not_reuse_wrapped {A} (p : Prog (res A)) w (Q : World -> Prop) reuse :
  wraps p -> (forall m e, reuse <> Errorf m e) -> wp p w (fun r w' => r = Err reuse -> Q w').
Proof.
  intros Hp Hr. eapply wp_mono; [apply Hp|]. intros [a|e] w' Hw; [by intros|]. intros [= ->].
  destruct Hw as (m & e & He). by destruct (Hr m e).
Qed.

Lemma active_user_not_reuse {B} id reuse (k : User -> Prog (res B)) w (Q : World -> Prop) :
  (forall m e, reuse <> Errorf m e) -> reuse <> InvalidGrant "user account is disabled" ->
  (forall u w', frame [] w w' -> wp (k u) w' (fun r w' => r = Err reuse -> Q w')) ->
  wp (let? u := active_user id in k u) w (fun r w' => r = Err reuse -> Q w').
Proof.
  intros Hr Hd Hk. eapply (wp_try _ _ _ (fun r w' => frame [] w w' /\ r <> Err reuse)).
  - unfold active_user. eapply wp_try_map; [apply law_Users_GetByID| |].
    + intros u w' Hq. cbn beta in Hq. apply qry_same, (same_disk_frame []) in Hq.
      case_match; apply wp_ret; (split; [done|congruence]).
    + intros e w' Hq. cbn beta in Hq. apply qry_same, (same_disk_frame []) in Hq.
      split; [done|]. intros [= He]. by destruct (Hr _ _ (eq_sym He)).
  - intros u w' [Hf _]. by apply Hk.
  - intros e w' [_ Hn] He. congruence.
Qed.

(** Claim C3.  When a code exchange answers that the code was already used,
    the code is that client's, and the whole grant of its user to the client
    has been cut off: every live refresh token is revoked, and a watermark
    rejects every access token issued up to then. *)
Theorem code_reuse_cuts_off `{!EnvLaws} req w w' tokens :
  run (HandleAuthorizationCode s req) w = (Err reuse_code, w') ->
  get CTokens (w_disk w) = FData tokens -> unique_by token_ID tokens ->
  exists code t, code_row w (tr_Code req) code /\ ac_ClientID code = tr_ClientID req /\
    env_clock (w_tick w) <= t /\ cut_off_in s w' (ac_UserID code) (ac_ClientID code) t.
Proof.
  intros Hrun Htokens Hu.
  refine (wp_run _ w (fun r w' => r = Err reuse_code -> _) _ _ _ Hrun eq_refl). clear Hrun w'.
  unfold HandleAuthorizationCode.
  do 2 (apply wp_if; intros _; [by apply wp_ret|]).
  eapply wp_try; [apply authenticate_for_spec| |by intros e w' [_ [He|He]] [= ->]].
  intros client w1 (Hf1 & _).
  eapply or_invalid_grant_try; [apply law_AuthCodes_GetByCode| |].
  2:{ intros e w' Hq [= He]. exfalso. revert He. eapply not_storage; [|done| |exact Hq].
      - intros. by eapply rows_find_missing. - by intros [?|?]. }
  intros code w2 Hq. pose proof (qry_same _ _ _ _ _ Hq) as Hs2.
  apply qry_find in Hq as (codes & Hcodes & Hfind).
  rewrite <-(frame_row _ CAuthCodes _ _ Hf1) in Hcodes by set_solver.
  assert (code_row w (tr_Code req) code) as Hrow by by exists codes.
  pose proof (transitivity Hf1 (same_disk_frame _ _ _ Hs2)) as Hf2.
  apply wp_if; intros Hcl; [by apply wp_ret|]. bool_to_prop.
  apply wp_if; intros Hused.
  { eapply wp_mono; [eapply (cut_off_later [NClients]); [done|exact Htokens|done|exact Hf2|set_solver]|].
    intros r w' Hw Hr. destruct (Hw Hr) as (t & ? & ?). by exists code, t. }
  apply wp_bind, wp_now. do 3 (apply wp_if; intros _; [by apply wp_ret|]).
  eapply wp_step; [apply law_AuthCodes_MarkUsed|]. intros [[]|e] w3 Hup; cbn beta in Hup.
  - apply active_user_not_reuse; [done|done|]. intros u w4 _.
    apply not_reuse_wrapped; [apply wraps_generateTokens|done].
  - apply wp_if; intros _; [|by apply wp_ret]. apply upd_frame in Hup.
    eapply wp_mono; [eapply (cut_off_later [NClients; NAuthCodes]); try done|].
    + etransitivity; [eapply frame_weaken; [|exact Hf2]; set_solver|].
      etransitivity; [apply frame_ticked|]. eapply frame_weaken; [|exact Hup]. set_solver.
    + set_solver.
    + intros r w' Hw Hr. destruct (Hw Hr) as (t & ? & ?). by exists code, t.
Qed.

(** Claim C4.  The same for a refresh token that was rotated before, also
    when the rotation that overtook it ran at the same time. *)
Theorem refresh_reuse_cuts_off `{!EnvLaws} req w w' tokens :
  run (HandleRefreshToken s req) w = (Err reuse_refresh, w') ->
  get CTokens (w_disk w) = FData tokens -> unique_by token_ID tokens ->
  exists token t, token_row w (tr_RefreshToken req) token /\
    token_ClientID token = tr_ClientID req /\
    env_clock (w_tick w) <= t /\ cut_off_in s w' (token_UserID token) (token_ClientID token) t.
Proof.
  intros Hrun Htokens Hu.
  refine (wp_run _ w (fun r w' => r = Err reuse_refresh -> _) _ _ _ Hrun eq_refl). clear Hrun w'.
  unfold HandleRefreshToken. apply wp_if; intros _; [by apply wp_ret|].
  eapply wp_try; [apply authenticate_for_spec| |by intros e w' [_ [He|He]] [= ->]].
  intros client w1 (Hf1 & _).
  eapply or_invalid_grant_try; [apply law_Tokens_GetByID| |].
  2:{ intros e w' Hq [= He]. exfalso. revert He. eapply not_storage; [|done| |exact Hq].
      - intros. by eapply rows_find_missing. - by intros [?|?]. }
  intros token w2 Hq. pose proof (qry_same _ _ _ _ _ Hq) as Hs2.
  apply qry_find in Hq as (rows & Hrows & Hfind).
  rewrite <-(frame_row _ CTokens _ _ Hf1) in Hrows by set_solver.
  assert (token_row w (tr_RefreshToken req) token) as Hrow by by exists rows.
  pose proof (transitivity Hf1 (same_disk_frame _ _ _ Hs2)) as Hf2.
  apply wp_if; intros Hcl; [by apply wp_ret|]. bool_to_prop.
  assert (forall w3, frame [NClients] w w3 ->
    wp (cut_off s "failed to revoke tokens after refresh token reuse" (token_UserID token)
          (token_ClientID token) reuse_refresh) w3 (fun r w' => r = Err reuse_refresh ->
      exists token t, token_row w (tr_RefreshToken req) token /\
        token_ClientID token = tr_ClientID req /\ env_clock (w_tick w) <= t /\
        cut_off_in s w' (token_UserID token) (token_ClientID token) t)) as Hcut.
  { intros w3 Hf3. eapply wp_mono;
      [eapply (cut_off_later [NClients]); [done|exact Htokens|done|exact Hf3|set_solver]|].
    intros r w' Hw Hr. destruct (Hw Hr) as (t & ? & ?). by exists token, t. }
  apply wp_bind, wp_now. apply wp_if; intros _.
  { apply Hcut. etransitivity; [exact Hf2|apply frame_ticked]. }
  apply wp_bind, wp_now. apply wp_if; intros _; [by apply wp_ret|].
  apply active_user_not_reuse; [done|done|]. intros u w4 Hf4.
  destruct (refreshed_scope _ _) as [scope|e] eqn:Esc; apply wp_bind, wp_ret.
  2:{ apply wp_ret. intros [= ->]. unfold refreshed_scope in Esc. by repeat case_match. }
  eapply wp_step; [apply law_Tokens_Rotate|]. intros [[]|e] w5 Hup; cbn beta in Hup.
  - apply not_reuse_wrapped; [apply wraps_generateTokens|done].
  - apply wp_if; intros Hconf; [|by apply wp_ret]. apply Hcut.
    assert (frame [] w4 w5) as Hf5.
    { pose proof (frame_tick _ _ _ (upd_frame _ _ _ _ _ Hup)).
      apply upd_Err with (code := CodeConflict) in Hup as (a & t & u5 & _ & _ & Hd); [|done|done].
      apply same_disk_frame. by split. }
    etransitivity; [exact Hf2|]. do 2 (etransitivity; [apply frame_ticked|]).
    etransitivity; (eapply frame_weaken; [|eassumption]; set_solver).
Qed.
End grants.

(** ** Bearer tokens: what userinfo and introspection accept

    [ValidateAccessToken] against the key file, then the two endpoints that
    consume access tokens, which also ask the revocation table and the user
    table. *)

(** ** Reading the key file *)

(** The row of the key file with an ID. *)
Definition key_row (w : World) (kid : string) (k : KeyPair) : Prop :=
  exists rows active, get CKeys (w_disk w) = FData (rows, active) /\
    find_first (fun k => kp_Kid k ==? kid) rows = Some k.

Section keys.
Context `{StoreLaws} `{KeyLib}.

Lemma Keys_GetByID_spec kid w :
  wp (Keys_GetByID kid) w (fun r w' => same_disk w w' /\
    match r with Ok k => key_row w kid k | Err _ => True end).
Proof.
  eapply wp_mono; [apply law_Keys_GetByID|]. intros r w' Hq. cbn beta in Hq.
  split; [exact (qry_same _ _ _ _ _ Hq)|]. destruct r as [k|e]; [|done].
  apply qry_Ok in Hq as ([keys active] & t & Hg & _ & Hf). apply rows_find_Ok in Hf. by exists keys, active.
Qed.

(** The pair as stored, or with the material its PEM holds. *)
Lemma GetKeyByID_spec kid w :
  wp (GetKeyByID kid) w (fun r w' => same_disk w w' /\
    match r with Ok k => exists k0, key_row w kid k0 /\ ensure_both k0 = Ok k | Err _ => True end).
Proof.
  unfold GetKeyByID. apply wp_locked. eapply wp_try; [apply Keys_GetByID_spec| |by intros e w' [[Ht Hd] _]; split; [split; cbn in *; [lia|done]|]].
  intros k0 w' [[Ht Hd] Hrow]. apply wp_ret. split; [split; cbn in *; [lia|done]|].
  destruct (ensure_both k0) eqn:E; [|done]. by exists k0.
Qed.

Context `{JwtLib} (g : TokenGenerator).

(** The key the generator verifies a token with. *)
Definition verifies (w : World) (t : Z) (kid : string) (k : KeyPair) : Prop :=
  match tg_keyService g with
  | Some _ => KeyPair_IsExpired t k = false /\ exists k0, key_row w kid k0 /\ ensure_both k0 = Ok k
  | None => k = tg_keyPair g /\ kp_Kid k = kid
  end.

Lemma verification_key_spec h w :
  wp (verification_key g h) w (fun r w' => same_disk w w' /\
    match r with
    | Ok pub => accepted_method (jh_alg h) = true /\
        exists kid k n, jh_kid h = Some kid /\ (w_tick w <= n <= w_tick w')%nat /\
          verifies w (env_clock n) kid k /\
          kp_Alg k = jh_alg h /\ pub = kp_PublicKey k
    | Err _ => True
    end).
Proof.
  unfold verification_key. apply wp_if; intros Ha; [by apply wp_ret|]. bool_to_prop.
  destruct (jh_kid h) as [kid|] eqn:Ek; [|by apply wp_ret].
  eapply (wp_try _ _ _ (fun r w' => same_disk w w' /\ match r with
    | Ok k => exists n, (w_tick w <= n <= w_tick w')%nat /\ verifies w (env_clock n) kid k
    | Err _ => True end)).
  - unfold verifies. destruct (tg_keyService g) as [ks|].
    + eapply wp_step; [apply GetKeyByID_spec|]. intros [k|e] w1 [[Ht Hd] Hk]; [|by apply wp_ret].
      apply wp_bind, wp_now. apply wp_if; intros Hexp; apply wp_ret.
      { split; [|done]. split; [simpl; lia|done]. }
      split; [split; [simpl; lia|done]|]. exists (w_tick w1). split; [simpl; lia|done].
    + apply wp_if; intros Hkid; apply wp_ret; (split; [done|]); [done|]. bool_to_prop.
      exists (w_tick w). split; [lia|]. by split.
  - intros k w1 [Hd (n & Hn & Hv)]. apply wp_if; intros Halg; apply wp_ret; [by split|].
    bool_to_prop. split; [done|]. split; [done|]. exists kid, k, n. split_and!; try done; lia.
  - intros e w1 [Hd _]. by split.
Qed.

(** What a valid access token is. *)
Definition token_valid (w w' : World) (tokenString : string) (claims : Claims) : Prop :=
  exists h kid k t t' json,
    jwt_header tokenString = Ok h /\ accepted_method (jh_alg h) = true /\
    jh_kid h = Some kid /\ instant w w' t /\ verifies w t kid k /\ kp_Alg k = jh_alg h /\
    instant w w' t' /\ jwt_check tokenString (kp_PublicKey k) true t' = Ok json /\
    UnmarshalJSON json = Some claims /\
    cl_Issuer claims = tg_issuer g /\ cl_ClientID claims <> "".

Lemma ValidateAccessToken_spec tokenString w :
  wp (ValidateAccessToken g tokenString) w (fun r w' => same_disk w w' /\
    match r with Ok claims => token_valid w w' tokenString claims | Err _ => True end).
Proof.
  unfold ValidateAccessToken.
  eapply (wp_try _ _ _ (fun r w' => same_disk w w' /\ match r with
    | Ok claims => exists h kid k t t' json,
        jwt_header tokenString = Ok h /\ accepted_method (jh_alg h) = true /\
        jh_kid h = Some kid /\ instant w w' t /\ verifies w t kid k /\ kp_Alg k = jh_alg h /\
        instant w w' t' /\ jwt_check tokenString (kp_PublicKey k) true t' = Ok json /\
        UnmarshalJSON json = Some claims
    | Err _ => True end)); [| |by intros e w' [Hd _]; split].
  - unfold parse. apply wp_mapErr.
    destruct (jwt_header tokenString) as [h|e] eqn:Eh; apply wp_bind, wp_ret; [|by apply wp_ret].
    eapply wp_try; [apply verification_key_spec| |by intros e w' [Hd _]; split].
    intros pub w1 ([Ht Hd] & Ha & kid & k & n & Ek & Hn & Hv & Halg & ->).
    apply wp_bind, wp_now.
    assert (same_disk w (ticked 1 w1)) as Hs by (split; [simpl; lia|done]).
    destruct (jwt_check _ _ true _) as [json|e] eqn:Ec; apply wp_bind, wp_ret; [|by apply wp_ret].
    destruct (UnmarshalJSON json) as [claims|] eqn:Eu; apply wp_ret; (split; [done|]); [|done].
    exists h, kid, k, (env_clock n), (env_clock (w_tick w1)), json. simpl. repeat split; try done.
    + exists n. split; [simpl; lia|done].
    + exists (w_tick w1). split; [simpl; lia|done].
  - intros claims w1 [Hs Hp]. apply wp_if; intros Hi; [by apply wp_ret|].
    apply wp_if; intros Hc; [by apply wp_ret|]. bool_to_prop. apply wp_ret. split; [done|].
    destruct Hp as (h & kid & k & t & t' & json & ? & ? & ? & ? & ? & ? & ? & ? & ?).
    by exists h, kid, k, t, t', json.
Qed.
End keys.

(** ** The endpoints *)

Section endpoints.
Context `{StoreLaws} `{KeyLib} `{JwtLib} `{Argon2} (s : TokenService).

(** No row of the revocation table covers the token. *)
Definition unrevoked (w : World) (claims : Claims) : Prop :=
  ts_revocations s = true -> IssuedAtOf claims <> zero_time ->
  exists rows, get CRevocations (w_disk w) = FData rows /\
    existsb (revokes (cl_ID claims) (cl_Subject claims) (cl_ClientID claims) (IssuedAtOf claims))
      rows = false.

Lemma accessTokenRevoked_spec claims w :
  wp (accessTokenRevoked s claims) w (fun r w' => same_disk w w' /\
    (r = Ok false -> unrevoked w claims)).
Proof.
  unfold accessTokenRevoked, unrevoked.
  apply wp_if; intros Hr; [apply wp_ret; split; [done|]; intros _; bool_to_prop; congruence|].
  apply wp_if; intros Hz; [apply wp_ret; split; [done|]; intros _ _ Hn|].
  { by apply Z.eqb_eq in Hz. }
  eapply wp_mono; [apply law_Revocations_IsRevoked|]. intros r w' Hq. cbn beta in Hq.
  split; [by eapply qry_same|]. intros -> _ _.
  apply qry_Ok in Hq as (rows & t & Hrows & _ & [= Hf]). by exists rows.
Qed.

(** A token that is valid, not revoked, and whose user is active. *)
Definition accepted (w w' : World) (tokenString : string) (claims : Claims) (user : User) : Prop :=
  token_valid (ts_generator s) w w' tokenString claims /\ unrevoked w claims /\
  user_row w (cl_Subject claims) user /\ user_Active user = true.

Lemma same_disk_unrevoked w w1 claims : same_disk w w1 -> unrevoked w1 claims -> unrevoked w claims.
Proof. intros [_ Hd]. unfold unrevoked. by rewrite Hd. Qed.

Lemma token_valid_later g w w1 w' tok claims :
  same_disk w1 w' -> token_valid g w w1 tok claims -> token_valid g w w' tok claims.
Proof.
  intros [Ht _] (h & kid & k & t & t' & json & ? & ? & ? & [n [? ?]] & ? & ? & [n' [? ?]] & ?).
  exists h, kid, k, t, t', json. split_and!; try done; try tauto;
    [exists n|exists n']; (split; [lia|done]).
Qed.

(** Everything [GetUserInfo] tells is read from the row of the user. *)
Definition tells_only (scope : string) (user : User) (r : UserInfoResponse) : Prop :=
  ui_Sub r = user_ID user /\
  (if hasScope scope "email"
   then ui_Email r = user_Email user /\ ui_EmailVerified r = user_EmailVerified user
   else ui_Email r = "" /\ ui_EmailVerified r = false) /\
  (if hasScope scope "profile"
   then ui_Name r = user_DisplayName user /\ ui_GivenName r = user_GivenName user /\
        ui_FamilyName r = user_FamilyName user
   else ui_Name r = "" /\ ui_GivenName r = "" /\ ui_FamilyName r = "") /\
  (hasScope scope ScopeGroups = false -> ui_Groups r = None /\ ui_Extra r = ∅).

Lemma tells_user_info user scope groups extra :
  (hasScope scope ScopeGroups = false -> groups = None /\ extra = ∅) ->
  tells_only scope user (ui_set_groups groups extra (user_info user scope)).
Proof.
  intros Hg. unfold tells_only, ui_set_groups, user_info. cbn [ui_Sub ui_Email ui_EmailVerified
    ui_Name ui_GivenName ui_FamilyName ui_Groups ui_Extra].
  split; [done|]. by destruct (hasScope scope "email"), (hasScope scope "profile").
Qed.

Definition userinfo_scope (claims : Claims) : string :=
  if cl_Scope claims ==? "" then "openid profile email" else cl_Scope claims.

Lemma touches_GetUserInfo tok : touches [] (GetUserInfo s tok).
Proof.
  unfold GetUserInfo, mapErr, ignore. touch;
    first [apply touches_ValidateAccessToken|apply touches_accessTokenRevoked|apply touches_Names].
Qed.

(** Claim C15.  Userinfo answers only for a token signed by a key that is in
    the key file, whose algorithm is the key's, that has not expired, that no
    row of the revocation table covers, and whose user exists and is active;
    it tells of the user what the scope covers, and writes nothing. *)
Theorem userinfo_sound tok w resp w' :
  run (GetUserInfo s tok) w = (Ok resp, w') ->
  exists claims user, accepted w w' tok claims user /\
    tells_only (userinfo_scope claims) user resp /\ w_disk w' = w_disk w.
Proof.
  intros Hrun. pose proof (touches_run _ _ _ _ _ (touches_GetUserInfo tok) Hrun) as Hf.
  apply frame_nil in Hf as [Ht Hd].
  assert (exists claims user w1, same_disk w1 w' /\ token_valid (ts_generator s) w w1 tok claims /\
    unrevoked w claims /\ user_row w (cl_Subject claims) user /\ user_Active user = true /\
    tells_only (userinfo_scope claims) user resp) as
    (claims & user & w1 & Hs & Hv & Hrest).
  2:{ exists claims, user. unfold accepted. pose proof (token_valid_later _ _ _ _ _ _ Hs Hv). tauto. }
  revert Hrun. clear Ht Hd. intros Hrun. pattern resp, w'. eapply run_Ok; [exact Hrun|].
  unfold GetUserInfo. eapply wp_step; [apply ValidateAccessToken_spec|].
  intros [claims|e] w1 [Hs1 Hv]; [|apply wp_bind, wp_emit; by apply wp_ret].
  eapply wp_try; [apply accessTokenRevoked_spec| |done]. intros revoked w2 [Hs2 Hun].
  apply wp_if; intros Hr; [apply wp_bind, wp_emit; by apply wp_ret|]. rewrite Hr in Hun.
  eapply wp_try_map; [apply law_Users_GetByID| |done]. intros user w3 Hq. cbn beta in Hq.
  pose proof (qry_same _ _ _ _ _ Hq) as Hs3. apply qry_find in Hq as (us & Hus & Hfind).
  assert (user_row w (cl_Subject claims) user) as Hrow.
  { exists us. split; [|done]. destruct Hs1 as [_ <-], Hs2 as [_ <-]. done. }
  pose proof (same_disk_unrevoked _ _ _ Hs1 (Hun eq_refl)) as Hun'.
  apply wp_if; intros Ha; [apply wp_bind, wp_emit; by apply wp_ret|]. bool_to_prop.
  fold (userinfo_scope claims).
  assert (forall r w4, same_disk w3 w4 -> tells_only (userinfo_scope claims) user r ->
    exists claims user w1, same_disk w1 w4 /\ token_valid (ts_generator s) w w1 tok claims /\
      unrevoked w claims /\ user_row w (cl_Subject claims) user /\ user_Active user = true /\
      tells_only (userinfo_scope claims) user r) as Hdone.
  { intros r w4 Hs4 Ht. exists claims, user, w1. split_and!; try done.
    etransitivity; [exact Hs2|]; by etransitivity. }
  destruct (ts_groupClaims s) as [claimName|]; [|by apply wp_ret, Hdone, (tells_user_info _ _ None)].
  apply wp_if; intros Hg; [|by apply wp_ret, Hdone, (tells_user_info _ _ None)].
  eapply (wp_try _ _ _ (fun _ w' => same_disk w3 w')); [| |done].
  { eapply wp_mono; [apply (touches_Names [])|]. intros a w4. apply frame_nil. }
  intros names w4 Hs4.
  by apply wp_if; intros _; apply wp_ret, Hdone; [|apply tells_user_info; rewrite Hg|
    |apply tells_user_info; rewrite Hg].
Qed.

(** ** Introspection *)

(** An active answer about a refresh token: it is stored, live, and its user
    is active. *)
Definition refresh_live (w w' : World) (tok : string) (r : IntrospectionResponse) : Prop :=
  exists token t user, token_row w tok token /\ token_Revoked token = false /\
    instant w w' t /\ t <= token_ExpiresAt token /\
    user_row w (token_UserID token) user /\ user_Active user = true /\
    ir_Sub r = token_UserID token /\ ir_ClientID r = token_ClientID token /\
    ir_Scope r = token_Scope token.

Lemma userActive_spec id w :
  wp (userActive id) w (fun b w' => same_disk w w' /\
    (b = true -> exists user, user_row w id user /\ user_Active user = true)).
Proof.
  unfold userActive. eapply wp_step; [apply law_Users_GetByID|]. intros [u|e] w' Hq; cbn beta in Hq;
    apply wp_ret; (split; [by eapply qry_same|]); [|done].
  apply qry_find in Hq. intros Ha. by exists u.
Qed.

Lemma introspect_refresh_spec tok w :
  wp (introspect_refresh tok) w (fun r w' => same_disk w w' /\
    match r with Ok resp => ir_Active resp = true -> refresh_live w w' tok resp | Err _ => True end).
Proof.
  unfold introspect_refresh. eapply wp_step; [apply law_Tokens_GetByID|].
  intros [token|e] w1 Hq; cbn beta in Hq; pose proof (qry_same _ _ _ _ _ Hq) as Hs1;
    [|by apply wp_ret].
  apply qry_find in Hq as (rows & Hrows & Hfind). apply wp_bind, wp_now.
  pose proof (transitivity Hs1 (same_disk_ticked _ 1)) as Hs2.
  apply wp_if; intros Hv; [by apply wp_ret|]. apply negb_false_iff, andb_true_iff in Hv as [He Hr].
  eapply wp_step; [apply userActive_spec|]. intros b w3 [Hs3 Ha].
  pose proof (transitivity Hs2 Hs3) as Hs. apply wp_if; intros Hb; [by apply wp_ret|].
  bool_to_prop. subst b. destruct (Ha eq_refl) as (user & (us & Hus & Hfu) & Hact).
  eapply wp_step; [apply law_Users_GetByID|]. intros u w4 Hq. cbn beta in Hq.
  apply qry_same in Hq. apply wp_ret. split; [by etransitivity|]. intros _.
  exists token, (env_clock (w_tick w1)), user. cbn [ir_Sub ir_ClientID ir_Scope].
  split_and!; try done.
  - by exists rows.
  - exists (w_tick w1). destruct Hs1 as [? _], Hs3 as [? _], Hq as [? _]. simpl in *.
    split; [lia|done].
  - by apply After_false.
  - exists us. split; [|done]. by rewrite <-Hus, <-(proj2 Hs2).
Qed.

Lemma touches_introspect req : touches [NClients] (introspect s req).
Proof.
  unfold introspect, introspect_refresh. touch;
    first [ apply touches_authenticateClient | apply touches_ValidateAccessToken
          | apply touches_accessTokenRevoked | apply touches_userActive ].
Qed.

(** Everything these conditions read is in files other than [clients.json]. *)
Lemma token_valid_frame g w w1 w2 tok claims :
  frame [NClients] w w1 -> token_valid g w1 w2 tok claims -> token_valid g w w2 tok claims.
Proof.
  intros Hf (h & kid & k & t & t' & json & ? & ? & ? & [n [? ?]] & Hv & ? & [n' [? ?]] & ?).
  pose proof (frame_tick _ _ _ Hf).
  exists h, kid, k, t, t', json. split_and!; try done; try tauto.
  - exists n. split; [lia|done].
  - unfold verifies in *. destruct (tg_keyService g); [|done].
    destruct Hv as (He & kp & (rows & act & Hg & Hk) & Hkp). split; [done|]. exists kp. split; [|done].
    exists rows, act. split; [|done]. by rewrite (frame_row _ CKeys _ _ Hf) by set_solver.
  - exists n'. split; [lia|done].
Qed.

Lemma user_row_frame w w1 id u : frame [NClients] w w1 -> user_row w1 id u -> user_row w id u.
Proof.
  intros Hf (us & Hg & Hu). exists us. split; [|done].
  by rewrite (frame_row _ CUsers _ _ Hf) by set_solver.
Qed.

Lemma refresh_live_frame w w1 w2 tok r :
  frame [NClients] w w1 -> refresh_live w1 w2 tok r -> refresh_live w w2 tok r.
Proof.
  intros Hf (token & t & user & (rows & Hg & Hk) & ? & [n [? ?]] & ? & Hu & ?).
  pose proof (frame_tick _ _ _ Hf). exists token, t, user. split_and!; try done; try tauto.
  - exists rows. split; [|done]. by rewrite (frame_row _ CTokens _ _ Hf) by set_solver.
  - exists n. split; [lia|done].
  - by eapply user_row_frame.
Qed.

Lemma unrevoked_frame w w1 claims : frame [NClients] w w1 -> unrevoked w1 claims -> unrevoked w claims.
Proof.
  intros Hf Hu Hr Hi. destruct (Hu Hr Hi) as (rows & Hg & He). exists rows. split; [|done].
  by rewrite (frame_row _ CRevocations _ _ Hf) by set_solver.
Qed.

(** What introspection says after the caller is authenticated. *)
Lemma introspect_token_spec tok w :
  wp (let! c := ValidateAccessToken (ts_generator s) tok in
      match c with
      | Ok claims =>
          let? revoked := accessTokenRevoked s claims in
          if revoked then ret_ok inactive
          else
            let! active := userActive (cl_Subject claims) in
            if negb active then ret_ok inactive
            else ret_ok (access_token_response claims)
      | Err _ => introspect_refresh tok
      end) w (fun r w' => match r with
        | Ok resp => ir_Active resp = true ->
            (exists claims user, accepted w w' tok claims user /\
               resp = access_token_response claims) \/
            refresh_live w w' tok resp
        | Err _ => True end).
Proof.
  eapply wp_step; [apply ValidateAccessToken_spec|]. intros [claims|e] w1 [Hs1 Hv].
  - eapply wp_try; [apply accessTokenRevoked_spec| |done]. intros revoked w2 [Hs2 Hun].
    apply wp_if; intros Hr; [by apply wp_ret|]. subst revoked.
    eapply wp_step; [apply userActive_spec|]. intros b w3 [Hs3 Ha].
    apply wp_if; intros Hb; [by apply wp_ret|]. bool_to_prop. subst b.
    destruct (Ha eq_refl) as (user & (us & Hus & Hfu) & Hact). apply wp_ret. intros _. left.
    exists claims, user. split; [|done]. split_and!; try done.
    + eapply token_valid_later; [|exact Hv]. by etransitivity.
    + by eapply same_disk_unrevoked, Hun.
    + exists us. split; [|done]. destruct Hs1 as [_ <-], Hs2 as [_ <-]. done.
  - eapply wp_mono; [apply introspect_refresh_spec|]. intros [resp|e'] w2 [_ Hl]; [|done].
    intros Ha. right. eapply refresh_live_frame; [by apply same_disk_frame|by apply Hl].
Qed.

(** Claim C16.  Introspection calls a token active only to a registered,
    confidential client that proved its secret, and only for an access token
    that userinfo would accept or a stored, live refresh token, of an active
    user; whatever it answers, it writes nothing but the form of the client's
    secret. *)
Theorem introspection_sound req w resp w' :
  run (introspect s req) w = (Ok resp, w') ->
  frame [NClients] w w' /\
  (ir_Active resp = true ->
    (exists client, client_row w (ct_ClientID req) client /\ client_Public client = false /\
       (VerifyClientSecret (client_Secret client) (ct_ClientSecret req)).1 = true) /\
    ((exists claims user, accepted w w' (ct_Token req) claims user /\
        resp = access_token_response claims) \/
     refresh_live w w' (ct_Token req) resp)).
Proof.
  intros Hrun. split; [by eapply touches_run; [apply touches_introspect|]|].
  pattern resp, w'. eapply run_Ok; [exact Hrun|]. clear Hrun.
  unfold introspect. apply wp_if; intros _; [by apply wp_ret|].
  eapply wp_step; [apply law_Clients_GetByID|]. intros [client|e] w1 Hq; cbn beta in Hq; [|by apply wp_ret].
  pose proof (same_disk_frame [NClients] _ _ (qry_same _ _ _ _ _ Hq)) as Hf1.
  apply qry_find in Hq. apply wp_if; intros Hpub; [by apply wp_ret|].
  eapply wp_step; [apply authenticateClient_spec|]. intros [ok c'] w2 (Hf2 & _ & Hauth). simpl in Hauth.
  pose proof (transitivity Hf1 Hf2) as Hf.
  apply wp_if; intros Hok; [by apply wp_ret|]. bool_to_prop. subst ok.
  destruct (proj1 Hauth eq_refl) as [?|Hsec]; [congruence|].
  eapply wp_mono; [apply introspect_token_spec|]. intros [r|e] w3 Hl; [|done].
  intros Hact. split; [by exists client|].
  destruct (Hl Hact) as [(claims & user & (Hv & Hu & Hrow & Ha) & ->)|Hlive].
  - left. exists claims, user. split; [|done]. split_and!; try done.
    + by eapply token_valid_frame.
    + by eapply unrevoked_frame.
    + by eapply user_row_frame.
  - right. by eapply refresh_live_frame.
Qed.
End endpoints.
