(* ===== verification/Availability.v ===== *)
(** * The token endpoint serves what is asked rightly

    The properties of [TokenProperties] bound what a success may do; this
    one says when there must be one.  [answers] is the behaviour of a part of
    a run that works if the storage does, and leaves what the later parts
    need: signing keys, readable groups and tokens. *)
From S2P Require Import Prelude GoTime GoText Encoding Hash Errors Domain Lockout PendingLogins.
From S2P Require Import World Run Store Exec StoreFacts FileStore Revocations Keys Password Jwt Authorize.
From S2P Require Import TokenService TokenFacts Metrics.
#[local] Open Scope Z_scope.
#[local] Open Scope go_scope.

Section availability.
Context `{StoreLaws} `{KeyLib} `{JwtLib} `{Argon2} (s : TokenService).

(** ** What issuing tokens needs *)

(** Whatever the claims, the JWT library signs them with the key. *)
Definition key_signs (k : KeyPair) : Prop :=
  forall claims, exists token,
    jwt_SignedString (signingMethodFor (kp_Alg k)) (kp_Kid k) (kp_PrivateKey k) claims = Ok token.

(** The key of the generator signs; or that of its key service does, the
    cached one and the active one of the key file. *)
Definition signing_ready (w : World) : Prop :=
  match tg_keyService (ts_generator s) with
  | None => key_signs (tg_keyPair (ts_generator s))
  | Some _ =>
      (forall k, (m_keyCache (w_mem w)).1 = Some k -> key_signs k) /\
      exists keys active k k', get CKeys (w_disk w) = FData (keys, active) /\ active <> "" /\
        find_first (fun k => kp_Kid k ==? active) keys = Some k /\
        ensure_private k = Ok k' /\ key_signs k'
  end.

Definition ready (w : World) : Prop :=
  signing_ready w /\ (exists l, get CTokens (w_disk w) = FData l) /\
  (exists g, get CGroups (w_disk w) = FData g).

Lemma ready_frame cs w w' :
  frame cs w w' -> same_mem w w' -> NTokens ∉ cs -> NGroups ∉ cs -> NKeys ∉ cs -> ready w -> ready w'.
Proof.
  intros Hf Hm Ht Hg Hk (Hs & Htok & Hgr). unfold ready, signing_ready.
  rewrite (frame_get _ CTokens _ _ Hf Ht), (frame_get _ CGroups _ _ Hf Hg), (frame_get _ CKeys _ _ Hf Hk).
  split; [|done]. unfold signing_ready in Hs. by rewrite Hm.
Qed.

(** A part of a run that succeeds from a world that is ready, if the storage
    works, and leaves one. *)
Definition answers {A} (P : A -> Prop) (w : World) (r : res A) (w' : World) : Prop :=
  ready w -> io_works w w' -> ready w' /\ exists a, r = Ok a /\ P a.

Lemma wp_answers {A} (p : Prog (res A)) P w :
  (ready w -> wp p w (fun r w' => io_works w w' -> ready w' /\ exists a, r = Ok a /\ P a)) ->
  wp p w (answers P w).
Proof. unfold wp. destruct (run p w). unfold answers. auto. Qed.

Lemma run_tick {A} (p : Prog A) w a w' : run p w = (a, w') -> (w_tick w <= w_tick w')%nat.
Proof. intros Hr. apply (keeps_run _ _ _ _ _ (outputs_only_grow p) Hr). Qed.

Lemma answers_ok {A} (P : A -> Prop) a w : P a -> wp (ret_ok a) w (answers P w).
Proof. intros HP. apply wp_ret. intros Hr _. eauto. Qed.

(** What runs before the end of a run that works, works. *)
Lemma wp_works {A B} (p : Prog A) (k : A -> Prog B) w w0 P Q :
  (w_tick w0 <= w_tick w)%nat ->
  wp p w P ->
  (forall a w', (w_tick w <= w_tick w')%nat -> P a w' -> io_works w w' ->
     wp (k a) w' (fun b w' => io_works w0 w' -> Q b w')) ->
  wp (let! a := p in k a) w (fun b w' => io_works w0 w' -> Q b w').
Proof.
  intros Ht0 Hp Hk. apply wp_bind, wp_intro. intros a w1 Hr1. apply wp_intro. intros b w2 Hr2 Hio.
  pose proof (run_tick _ _ _ _ Hr1). pose proof (run_tick _ _ _ _ Hr2).
  refine (wp_run _ _ _ _ _ (Hk a w1 _ (wp_run _ _ _ _ _ Hp Hr1) _) Hr2 Hio); [done|io_part].
Qed.

Lemma answers_try {A B} (p : Prog (res A)) (k : A -> Prog (res B)) P Q w :
  wp p w (answers P w) ->
  (forall a w', P a -> wp (k a) w' (answers Q w')) ->
  wp (let? a := p in k a) w (answers Q w).
Proof.
  intros Hp Hk. apply wp_answers. intros Hready.
  eapply wp_works; [done|exact Hp|]. intros r w1 Ht Hr Hio. cbn beta in Hr.
  destruct (Hr Hready Hio) as (Hready1 & a & -> & Ha).
  eapply wp_mono; [apply (Hk a w1 Ha)|]. intros b w2 Hb Hio2. apply Hb; [done|].
  intros n Hn. apply Hio2. lia.
Qed.

Lemma answers_mapErr {A} g (p : Prog (res A)) P w :
  wp p w (answers P w) -> wp (mapErr g p) w (answers P w).
Proof.
  intros Hp. apply wp_mapErr. eapply wp_mono; [exact Hp|]. intros r w' Hr Hready Hio.
  destruct (Hr Hready Hio) as (? & a & -> & Ha). eauto.
Qed.

(** A part that writes none of the files needed, nor the memory. *)
Lemma answers_step {A B} cs (p : Prog A) (k : A -> Prog (res B)) Q w :
  touches cs p -> keeps same_mem p -> NTokens ∉ cs -> NGroups ∉ cs -> NKeys ∉ cs ->
  (forall a w', wp (k a) w' (answers Q w')) ->
  wp (let! a := p in k a) w (answers Q w).
Proof.
  intros Hp Hm Ht Hg Hk Hw. apply wp_answers. intros Hready.
  eapply wp_works; [done|apply wp_and; [apply Hp|apply Hm]|]. intros a w1 Hle [Hf Hs] _.
  eapply wp_mono; [apply Hw|]. intros b w2 Hb Hio. apply Hb; [by eapply ready_frame|].
  intros n Hn. apply Hio. lia.
Qed.

(** A query whose answer is known. *)
Lemma answers_qry {A B} (c : Coll A) (f : Z -> A -> res B) p (P : B -> Prop) w :
  wp p w (qry c f w) ->
  (ready w -> exists a, get c (w_disk w) = FData a /\ forall t, exists b, f t a = Ok b /\ P b) ->
  wp p w (answers P w).
Proof.
  intros Hp Hf. apply wp_answers. intros Hready. eapply wp_mono; [exact Hp|]. intros r w' Hq Hio.
  destruct (Hf Hready) as (a & Ha & Hb). destruct (qry_works _ _ _ _ _ _ Hq Hio Ha) as (t & _ & ->).
  destruct (Hb t) as (b & Hft & HP). pose proof Hq as (Hd & (_ & Hm & _) & _).
  split; [|by eauto]. apply (ready_frame [] w); [by apply same_disk_frame|done|set_solver..|done].
Qed.

(** ** Signing *)

(** What the key service answers from its cache. *)
Lemma read_cache_ready ks w :
  tg_keyService (ts_generator s) = Some ks -> ready w ->
  wp (read_cache ks) w (fun c w' => ready w' /\ forall k, c = Some k -> key_signs k).
Proof.
  intros Hks Hready. apply wp_intro. intros c w' Hr. unfold read_cache, crit in Hr. cbn in Hr. injection Hr as <- <-.
  split; [done|]. intros k Hc. destruct Hready as [Hs _]. unfold signing_ready in Hs.
  rewrite Hks in Hs. apply (proj1 Hs). unfold cachedActive in Hc. by repeat case_match; simplify_eq.
Qed.

Lemma setActive_answers {A} k (a : A) (P : A -> Prop) w :
  key_signs k -> P a -> wp (let! _ := setActive k in ret_ok a) w (answers P w).
Proof.
  intros Hk Ha. apply wp_bind, wp_intro. intros [] w1 Hr. unfold setActive, crit in Hr. cbn in Hr. injection Hr as <-.
  apply wp_ret. intros (Hs & Ht & Hg) _. split; [|by eauto].
  split; [|by split]. unfold signing_ready in *. destruct (tg_keyService _); [|done].
  split; [|apply Hs]. cbn. by intros k' [= <-].
Qed.

Lemma load_active_answers ks w :
  tg_keyService (ts_generator s) = Some ks ->
  wp (let? key := Keys_GetActive in
      let? key := Ret (ensure_private key) in
      let! _ := setActive key in ret_ok key) w (answers key_signs w).
Proof.
  intros Hks. eapply (answers_try _ _ (fun k => exists k', ensure_private k = Ok k' /\ key_signs k')).
  - eapply answers_qry; [apply law_Keys_GetActive|]. intros [Hs _]. unfold signing_ready in Hs. rewrite Hks in Hs.
    destruct Hs as (_ & keys & active & k & k' & Hg & Hne & Hf & Hen & Hk). exists (keys, active).
    split; [done|]. intros t. exists k. unfold rows_active_key. cbn. rewrite bool_decide_false by done.
    unfold find_or. rewrite Hf. eauto.
  - intros k w1 (k' & Hen & Hk). apply wp_bind, wp_ret. rewrite Hen. by apply setActive_answers.
Qed.

(** The mutexes are not among what is needed. *)
Lemma answers_locked {A} l (p : Prog (res A)) P w :
  (forall w', wp p w' (answers P w')) -> wp (locked l p) w (answers P w).
Proof.
  intros Hp. apply wp_answers. intros Hready. apply wp_locked.
  eapply wp_mono; [apply Hp|]. intros r w1 Hr Hio.
  destruct Hr as (Hready1 & Ha); [done| |by split].
  intros n Hn. apply Hio. cbn in *. lia.
Qed.

Lemma GetActiveKey_answers ks w :
  tg_keyService (ts_generator s) = Some ks -> wp (GetActiveKey ks) w (answers key_signs w).
Proof.
  intros Hks. assert (forall (rd : Prog (option KeyPair)) (q : Prog (res KeyPair)) w,
    (forall w', ready w' -> wp rd w' (fun c w1 => ready w1 /\ forall k, c = Some k -> key_signs k)) ->
    (forall w', wp q w' (answers key_signs w')) ->
    wp (let! c := rd in match c with Some key => ret_ok key | None => q end) w
      (answers key_signs w)) as Hcached.
  { intros rd q w0 Hrd Hq. apply wp_answers. intros Hready.
    eapply wp_works; [done|by apply Hrd|]. intros c w1 Ht [Hready1 Hc] _. cbn beta in *.
    destruct c as [k|]; [apply wp_ret; intros _; eauto|].
    eapply wp_mono; [apply Hq|]. intros r w2 Hr Hio. apply Hr; [done|]. intros n Hn. apply Hio. lia. }
  unfold GetActiveKey. apply Hcached.
  { intros w1 Hready. apply wp_locked. eapply wp_mono; [by apply (read_cache_ready _ _ Hks)|]. by intros c w2 [Hr Hc]. }
  intros w1. apply answers_locked. intros w2. apply Hcached; [intros w3; by apply read_cache_ready|].
  intros w3. by eapply load_active_answers.
Qed.

Lemma signingKey_answers w : wp (signingKey (ts_generator s)) w (answers key_signs w).
Proof.
  unfold signingKey. destruct (tg_keyService _) as [ks|] eqn:Hks.
  - by apply answers_mapErr, GetActiveKey_answers.
  - apply wp_answers. intros Hready. apply wp_ret. intros _. split; [done|]. eexists. split; [done|].
    destruct Hready as [Hs _]. unfold signing_ready in Hs. by rewrite Hks in Hs.
Qed.

Lemma GenerateIDTokenFor_answers subject audience expiry claims w :
  wp (GenerateIDTokenFor (ts_generator s) subject audience expiry claims) w (answers (fun _ => True) w).
Proof.
  unfold GenerateIDTokenFor. apply (answers_step []); [auto with touch|auto with keep|set_solver..|]. intros t w1.
  apply (answers_step []); [auto with touch| |set_solver..|]; [by apply (keeps_event same_mem)|]. intros id w2.
  eapply answers_try; [apply signingKey_answers|]. intros k w3 Hk.
  destruct (Hk (MarshalJSON (claims_set_registered (tg_issuer (ts_generator s)) subject [audience]
    (jwt_NewNumericDate (Add t expiry)) (jwt_NewNumericDate (Add t (- (5 * Minute))))
    (jwt_NewNumericDate t) id claims))) as [token Htoken].
  apply wp_bind, wp_ret. rewrite Htoken. by apply answers_ok.
Qed.

(** ** Issuing *)

Lemma GroupClaims_answers user scope claims w :
  wp (GroupClaims_Apply s user scope claims) w (answers (fun _ => True) w).
Proof.
  unfold GroupClaims_Apply. destruct (ts_groupClaims s) as [name|]; [|by apply answers_ok].
  apply wp_if; intros _; [by apply answers_ok|].
  eapply (answers_try _ _ (fun _ => True)); [|intros names w1 _; apply wp_if; intros _; by apply answers_ok].
  unfold Names. eapply (answers_try _ _ (fun _ => True)); [|by intros; apply answers_ok].
  apply answers_mapErr. destruct (law_Groups_GroupsForUser (user_ID user)) as [groups Hg].
  eapply answers_qry; [apply Hg|]. intros (_ & _ & gm & Hgm). exists gm. eauto.
Qed.

Lemma issue_refresh_answers user client scope ttl g resp w :
  wp (issue_refresh user client scope ttl g resp) w (answers (fun r => tk_Scope r = tk_Scope resp) w).
Proof.
  unfold issue_refresh. apply wp_if; intros _; [|by apply answers_ok].
  do 2 (apply (answers_step []); [auto with touch|auto with keep|set_solver..|]; intros ? ?).
  eapply (answers_try _ _ (fun _ => True)).
  - apply answers_mapErr, wp_answers. intros (Hs & (l & Hl) & Hg).
    eapply wp_mono; [apply law_Tokens_Create|]. intros r w3 Hu Hio.
    destruct (upd_works _ _ _ _ _ _ Hu Hio Hl) as (t & u & _ & Hr).
    pose proof Hu as (Hf & (_ & Hm & _) & _). unfold rows_add in Hr.
    assert (omap (fun _ : Token => @None error) l = []) as Hnone by (clear; by induction l).
    rewrite Hnone in Hr. destruct Hr as [-> Hl']. split; [|by eexists].
    split; [|split; [by eexists|by rewrite (frame_get _ CGroups _ _ Hf) by set_solver]].
    unfold signing_ready in *. by rewrite Hm, (frame_get _ CKeys _ _ Hf) by set_solver.
  - intros token w3 _. apply (answers_step []); [apply touches_emit|apply same_mem_emit|set_solver..|].
    intros [] w4. by apply answers_ok.
Qed.

Lemma generateTokens_answers user client scope nonce at_ amr g w :
  wp (generateTokens s user client scope nonce at_ amr g) w (answers (fun r => tk_Scope r = scope) w).
Proof.
  unfold generateTokens.
  eapply (answers_try _ _ (fun _ => True)); [apply wp_if; intros _; [by apply answers_ok|apply GroupClaims_answers]|].
  intros idc w1 _. eapply answers_try; [apply GroupClaims_answers|]. intros acc w2 _.
  destruct (ttlsFor s client) as [attl rttl].
  eapply answers_try; [apply answers_mapErr, GenerateIDTokenFor_answers|]. intros [idt x1] w3 _.
  eapply answers_try; [apply answers_mapErr, GenerateIDTokenFor_answers|]. intros [act x2] w4 _.
  do 2 (apply (answers_step []); [apply touches_emit|apply same_mem_emit|set_solver..|]; intros [] ?).
  apply issue_refresh_answers.
Qed.

(** ** The exchange of a code *)

Lemma same_mem_authenticate_for g req : keeps same_mem (authenticate_for g req).
Proof. unfold authenticate_for, authenticateClient, HashClientSecret, HashPassword, mapErr. keep. Qed.

(** The client authenticates itself and may use the grant. *)
Definition client_due (w : World) (g : string) (req : TokenRequest) : Prop :=
  exists client, client_row w (tr_ClientID req) client /\ authenticated client (tr_ClientSecret req) /\
    AllowsGrant client g = true.

Lemma authenticate_for_due g req w :
  client_due w g req ->
  wp (authenticate_for g req) w (fun r w' => io_works w w' ->
    frame [NClients] w w' /\ same_mem w w' /\ exists client, r = Ok client).
Proof.
  intros (c & (rows & Hrows & Hf) & Ha & Hg).
  apply (wp_mono _ _ (fun r w' => (frame [NClients] w w' /\ same_mem w w') /\
    (io_works w w' -> exists client, r = Ok client))); [|naive_solver].
  apply wp_and; [apply wp_and; [apply touches_authenticate_for|apply same_mem_authenticate_for]|].
  unfold authenticate_for. eapply wp_works; [done|apply law_Clients_GetByID|].
  intros r w1 Ht Hq Hio. cbn beta in Hq. destruct (qry_works _ _ _ _ _ _ Hq Hio Hrows) as (t & _ & ->).
  unfold rows_find, find_or. rewrite Hf. eapply wp_step; [apply authenticateClient_spec|].
  intros [ok client] w2 (_ & Hs & Hok). cbn [fst snd] in *. destruct ok; [|by pose proof (proj2 Hok Ha)].
  cbn. rewrite (same_client_AllowsGrant _ _ _ Hs), Hg. apply wp_ret. eauto.
Qed.

(** A query, its error rewritten, whose answer is known. *)
Lemma due_qry {A B C} (c : Coll A) (f : Z -> A -> res B) (p : Prog (res B)) g (k : B -> Prog (res C)) a b w0 w Q :
  (w_tick w0 <= w_tick w)%nat -> wp p w (qry c f w) -> get c (w_disk w) = FData a -> (forall t, f t a = Ok b) ->
  (forall w1, same_disk w w1 -> same_mem w w1 ->
     wp (k b) w1 (fun r w' => io_works w0 w' -> Q r w')) ->
  wp (let? x := mapErr g p in k x) w (fun r w' => io_works w0 w' -> Q r w').
Proof.
  intros Ht0 Hp Ha Hf Hk. unfold mapErr. apply wp_bind, wp_bind.
  assert (forall r w1, qry c f w r w1 -> wp (match r with Ok x => k x | Err e => Ret (Err (g e)) end) w1
    (fun r w' => io_works w0 w' -> Q r w')) as Hgo.
  { intros r w1 Hq. apply wp_intro. intros x w2 Hr2 Hio. pose proof (run_tick _ _ _ _ Hr2).
    pose proof Hq as (Hd & (_ & Hm & _) & _). pose proof Hd as [Ht _].
    destruct (qry_works _ _ _ _ _ _ Hq ltac:(io_part) Ha) as (t & _ & Hr). rewrite Hr, Hf in Hr2.
    exact (wp_run _ _ _ _ _ (Hk w1 Hd Hm) Hr2 Hio). }
  eapply wp_mono; [exact Hp|]. intros r w1 Hq. apply wp_ret. specialize (Hgo r w1 Hq).
  by destruct r.
Qed.

Lemma active_user_due id user w users :
  get CUsers (w_disk w) = FData users -> find_first (fun u => user_ID u ==? id) users = Some user ->
  user_Active user = true ->
  wp (active_user id) w (fun r w' => io_works w w' -> same_disk w w' /\ same_mem w w' /\ r = Ok user).
Proof.
  intros Hu Hf Hact. unfold active_user. eapply (due_qry CUsers); [done|apply law_Users_GetByID|exact Hu| |].
  - intros t. unfold rows_find, find_or. by rewrite Hf.
  - intros w1 Hd Hm. rewrite Hact. by apply wp_ret.
Qed.

(** The code is the client's, unused, unexpired to the end of the run, and
    its redirect URI and challenge are met; its user is active. *)
Definition code_due (w w' : World) (req : TokenRequest) (code : AuthCode) : Prop :=
  code_row w (tr_Code req) code /\ tr_Code req <> "" /\ tr_RedirectURI req <> "" /\
  ac_ClientID code = tr_ClientID req /\ ac_Used code = false /\
  (forall t, instant w w' t -> t <= ac_ExpiresAt code) /\
  ac_RedirectURI code = tr_RedirectURI req /\
  ValidateCodeVerifier (tr_CodeVerifier req) (ac_CodeChallenge code) (ac_CodeChallengeMethod code) = true /\
  exists user, user_row w (ac_UserID code) user /\ user_Active user = true.

(** Claim C6.  An exchange of a code that meets every condition is answered
    with tokens for the scope of the code, provided the storage works during
    the run and the server has a key that signs. *)
Theorem code_exchange_live req w r w' code :
  run (HandleAuthorizationCode s req) w = (r, w') ->
  io_works w w' -> ready w -> client_due w "authorization_code" req -> code_due w w' req code ->
  exists resp, r = Ok resp /\ tk_Scope resp = ac_Scope code.
Proof.
  intros Hrun Hio Hready Hcl (Hcode & Hne & Hne' & Hid & Hused & Hexp & Huri & Hpkce & user & Huser & Hact).
  destruct Hcode as (codes & Hcodes & Hfind). destruct Huser as (users & Husers & Hfu).
  revert Hexp. refine (wp_run _ w (fun r w' => io_works w w' -> (forall t, instant w w' t -> t <= ac_ExpiresAt code) ->
    exists resp, r = Ok resp /\ tk_Scope resp = ac_Scope code) _ _ _ Hrun Hio). clear Hrun Hio r w'.
  unfold HandleAuthorizationCode. rewrite !bool_decide_false by done.
  eapply wp_works; [done|by apply authenticate_for_due|]. intros r w1 Ht1 Hr Hio1; cbn beta in Hr.
  destruct (Hr Hio1) as (Hf1 & Hm1 & client & ->). clear Hr.
  rewrite <-(frame_get _ CAuthCodes _ _ Hf1) in Hcodes by set_solver.
  rewrite <-(frame_get _ CUsers _ _ Hf1) in Husers by set_solver.
  apply (ready_frame _ _ _ Hf1 Hm1) in Hready; [|set_solver..].
  eapply (due_qry CAuthCodes); [done|apply law_AuthCodes_GetByCode|exact Hcodes| |].
  { intros t. unfold rows_find, find_or. by rewrite Hfind. }
  intros w2 [Ht2 Hd2] Hm2. rewrite Hid, Huri, Hused, Hpkce, !bool_decide_true by done. cbn [negb].
  apply wp_bind, wp_now. unfold AuthCode_IsExpired.
  apply wp_if; intros Hexp.
  { apply wp_ret. intros _ Hin. exfalso. assert (env_clock (w_tick w2) <= ac_ExpiresAt code) as Hle.
    { apply Hin. exists (w_tick w2). split; [cbn; lia|done]. }
    apply After_false in Hle. congruence. }
  eapply wp_works; [cbn; lia|apply law_AuthCodes_MarkUsed|]. intros r w3 Ht3 Hu Hio3; cbn beta in Hu. cbn [ticked w_tick] in Ht3.
  rewrite <-Hd2 in Hcodes. destruct (upd_works _ _ _ _ _ _ Hu Hio3 Hcodes) as (t & u & _ & Hr).
  unfold rows_consume in Hr. rewrite Hfind, Hused in Hr. destruct Hr as [-> _].
  pose proof Hu as (Hf3 & (_ & Hm3 & _) & _).
  assert (get CUsers (w_disk w3) = FData users) as Husers3.
  { rewrite (frame_get _ CUsers _ _ Hf3) by set_solver. cbn [ticked w_disk]. by rewrite Hd2. }
  apply (ready_frame [] w1 w2) in Hready; [|by apply same_disk_frame|done|set_solver..].
  apply (ready_frame _ (ticked 1 w2) w3 Hf3) in Hready; [|done|set_solver..].
  eapply wp_works; [cbn; lia|by apply (active_user_due _ user _ users)|]. intros r w4 Ht4 Hr Hio4.
  destruct (Hr Hio4) as (Hd4 & Hm4 & ->).
  eapply wp_mono; [apply generateTokens_answers|]. intros r w5 Hr5 Hio5 _.
  destruct Hr5 as (_ & resp & -> & Hsc); [|intros n Hn; apply Hio5; cbn in *; lia|by exists resp].
  apply (ready_frame [] w3); [by apply same_disk_frame|done|set_solver..|done].
Qed.
End availability.
