(* ===== verification/ServerFacts.v ===== *)
(** * The server as a whole

    Facts about every request the server answers: what a request without the
    browser's CSRF cookie can reach, where the endpoints of the discovery
    document are, and which keys are published. *)
From S2P Require Import Prelude GoTime GoText GoUrl GoNetip GoDuration Encoding Errors Domain Lockout PendingLogins.
From S2P Require Import World Run Metrics Store Exec StoreFacts FileStore Keys Password Jwt Totp Csrf Session.
From S2P Require Import AuthService Passkeys Account Authorize TokenService Http Middleware OidcHandlers.
From S2P Require Import LoginHandlers ClientForm AccountHandlers AdminHandlers AdminClients Server Config Bootstrap Main.
From S2P Require Import TokenFacts AuthFacts SignIn SecondFactor PasskeyFacts LoginFacts Maintenance AdminFacts KeyRotation TokenProperties.
#[local] Open Scope Z_scope.
#[local] Open Scope go_scope.

(** ** Requests without the cookie *)

(** The cookies hold no CSRF token that this server signed and that is still
    good: a page of another site sends none, as the cookie is SameSite. *)
Definition forged (s : CSRFService) (cookies : list (string * string)) : Prop :=
  forall v t, first_value (csrf_cookieName s) cookies = Some v -> validateTokenFormat s t v <> Ok tt.

Section forged.
Context `{Env}.

Lemma forged_Err s r : forged s (r_cookies r) -> forall w, exists e, (run (ValidateToken s r) w).1 = Err e.
Proof.
  intros Hf w. unfold ValidateToken. cbv zeta.
  generalize (if FormValue r CSRFFormField ==? "" then Header r "X-CSRF-Token" else FormValue r CSRFFormField).
  intros token. case_bool_decide; [by eexists|].
  destruct (Cookie r (csrf_cookieName s)) as [v|] eqn:Hc; [|by eexists].
  case_bool_decide as Hv; cbn [negb]; [|by eexists]. unfold now. rewrite run_bind, run_trigger.
  cbn [perform run fst]. rewrite Hv.
  destruct (validateTokenFormat s _ v) as [[]|e] eqn:Hok; [|by eexists]. by destruct (Hf v _ Hc Hok).
Qed.

(** What follows a check of the token has only its failure to deal with. *)
Lemma touches_forged {A} cs s r (f : res unit -> Prog A) :
  forged s (r_cookies r) -> (forall e, touches cs (f (Err e))) -> touches cs (bind (ValidateToken s r) f).
Proof.
  intros Hf Hk w. apply wp_bind, wp_intro. intros v w1 Hr. destruct (forged_Err s r Hf w) as [e He].
  rewrite Hr in He. cbn in He. subst v. eapply wp_mono; [apply Hk|]. intros a w2 H2. cbn beta in H2.
  etransitivity; [|exact H2]. refine (touches_run _ _ _ _ _ _ Hr). unfold ValidateToken. touch.
Qed.
End forged.

Lemma ParseForm_cookies r : r_cookies (ParseForm r).1 = hr_cookies r.
Proof. unfold ParseForm. by destruct (PostForm r), (ParseQuery _). Qed.
Lemma limited_cookies r : r_cookies (ParseForm (limited r)).1 = hr_cookies r.
Proof. by rewrite ParseForm_cookies. Qed.
Lemma lazily_cookies r : r_cookies (parsed_lazily r) = hr_cookies r.
Proof. done. Qed.

(** Follow a handler; where it checks the token it has failed. *)
Ltac forged_step :=
  match goal with
  | |- touches _ (bind (ValidateToken _ _) _) => apply touches_forged; [done|intros ?; cbn beta iota]
  | |- touches _ (let '(_, _) := ParseForm ?r in _) =>
      pose proof (ParseForm_cookies r); destruct (ParseForm r) as [? ?]; cbn [fst] in *
  | |- touches _ (let? _ := Ret (Err _) in _) => cbn [bind]
  | |- touches _ (bind (Ret _) _) => cbn [bind]
  end.

Section reads.
Context `{StoreLaws} `{UnicodeTables} `{KeyLib} `{JwtLib} `{Argon2} `{WebAuthn} (r : HttpRequest).

Lemma touches_GenerateToken cs c : touches cs (GenerateToken c).
Proof. unfold GenerateToken, mapErr. touch. Qed.
Lemma touches_user_passkeys cs s u : touches cs (user_passkeys s u).
Proof. unfold user_passkeys. touch. Qed.
Lemma touches_GetSession rq : touches [NSessions] (GetSessionFromRequest rq).
Proof. unfold GetSessionFromRequest, GetSession, ignore. touch. Qed.
Lemma touches_groupMemberships cs u : touches cs (groupMemberships u).
Proof. unfold groupMemberships. touch. Qed.
Lemma touches_found cs url : touches cs (found url).
Proof. apply touches_ret. Qed.
Lemma touches_server_error cs : touches cs server_error.
Proof. apply touches_ret. Qed.
Lemma touches_pending_get cs token : touches cs (pending_get token).
Proof. apply touches_pending_crit. Qed.
Lemma touches_publish cs keys : touches cs (publish keys).
Proof. induction keys as [|k keys IH]; cbn [publish]; touch. Qed.
Lemma touches_GetJWKS cs : touches cs GetJWKS.
Proof. unfold GetJWKS, locked. touch. apply touches_publish. Qed.
End reads.

#[export] Hint Resolve touches_GenerateToken touches_found touches_server_error touches_pending_get
  : touch.
#[export] Hint Extern 5 (touches _ GetJWKS) => (eapply touches_GetJWKS) : touch.
#[export] Hint Extern 5 (touches _ (user_passkeys _ _)) => (eapply touches_user_passkeys) : touch.
#[export] Hint Extern 5 (touches _ (groupMemberships _)) => (eapply touches_groupMemberships) : touch.
#[export] Hint Extern 5 (touches _ (GetSessionFromRequest _)) =>
  (eapply touches_sub; [apply touches_GetSession|sub_files]) : touch.
#[export] Hint Extern 5 (touches _ (GetCurrentUser _)) =>
  (eapply touches_sub; [apply touches_GetCurrentUser|sub_files]) : touch.

(** Pages that are only shown read; forms stop at the token. *)
Ltac shown :=
  lazymatch goal with
  | |- touches _ (bind _ _) => fail
  | |- touches _ ?p => let f := head_of p in unfold f
  end.

Section pages.
Context `{StoreLaws} `{UnicodeTables} `{KeyLib} `{JwtLib} `{Argon2} `{WebAuthn} (r : HttpRequest).

(** ** The administration pages *)

Context (cfg : AdminConfig) (admin : User).
Context (Hforged : forged (as_csrf (ac_AuthService cfg)) (hr_cookies r)).

Lemma touches_admin_base section : touches [NSessions] (admin_base cfg r admin section).
Proof. unfold admin_base. touch. Qed.

Lemma touches_admin_checkCSRF k : touches [NSessions] (admin_checkCSRF cfg r k).
Proof.
  unfold admin_checkCSRF. pose proof (ParseForm_cookies r) as Hc. destruct (ParseForm r) as [rq ok]. cbn [fst] in Hc.
  apply touches_if; [apply touches_ret|]. apply touches_forged; [by rewrite Hc|]. intros e. apply touches_ret.
Qed.

Lemma touches_load_row {A} get_by_id what lower (k : A -> Prog Response) :
  (forall id, touches [NSessions] (get_by_id id)) -> (forall x, touches [NSessions] (k x)) ->
  touches [NSessions] (load_row get_by_id what lower r k).
Proof. intros Hg Hk. unfold load_row, fail_page. apply touches_bind; [apply Hg|]. intros []; [apply Hk|touch]. Qed.

#[local] Hint Resolve touches_admin_base touches_admin_checkCSRF : touch.

Lemma touches_load_members ids : touches [NSessions] (load_members ids).
Proof. induction ids; cbn [load_members]; touch. Qed.
Lemma touches_count_members l : touches [NSessions] (count_members l).
Proof. induction l; cbn [count_members]; touch. Qed.
#[local] Hint Resolve touches_load_members touches_count_members : touch.

Lemma admin_pages_quiet : Forall (fun x => touches [NSessions] (x.2 r admin)) (admin_handlers cfg).
Proof.
  unfold admin_handlers.
  repeat (apply List.Forall_cons; [cbn [snd]; repeat (touch; try shown)|]). constructor.
Qed.
End pages.

(** ** The account page, the password form and the consent form *)

Section forms.
Context `{StoreLaws} `{UnicodeTables} `{KeyLib} `{JwtLib} `{Argon2} `{WebAuthn} (r : HttpRequest).
Context (auth : Service) (Hforged : forged (as_csrf auth) (hr_cookies r)).

Lemma touches_base h user : touches [NSessions] (base h r user).
Proof. unfold base. touch. Qed.
#[local] Hint Resolve touches_base : touch.

Lemma touches_render h user status msg : touches [NSessions] (render h r user status msg).
Proof. unfold render, currentSessionID. touch. Qed.
#[local] Hint Resolve touches_render : touch.

Lemma touches_checkCSRF h user k : aph_auth h = auth -> touches [NSessions] (checkCSRF h r user k).
Proof.
  intros <-. unfold checkCSRF. pose proof (ParseForm_cookies r) as Hc. destruct (ParseForm r) as [rq ok].
  cbn [fst] in Hc. apply touches_if; [apply touches_render|].
  apply touches_forged; [by rewrite Hc|]. intros e. apply touches_render.
Qed.

Lemma touches_jsonCSRF h k : aph_auth h = auth -> touches [NSessions] (jsonCSRF h r k).
Proof.
  intros <-. unfold jsonCSRF. pose proof (limited_cookies r) as Hc. destruct (ParseForm (limited r)) as [rq ok].
  cbn [fst] in Hc. apply touches_if; [apply touches_ret|].
  apply touches_forged; [by rewrite Hc|]. intros e. apply touches_ret.
Qed.

Lemma account_pages_quiet h :
  aph_auth h = auth -> Forall (fun x => touches [NSessions] (x.2 r)) (Account_Routes h).
Proof.
  intros Ha. unfold Account_Routes. cbn [map].
  repeat (apply List.Forall_cons; [cbn [snd]; unfold requireUser;
    repeat first [apply touches_checkCSRF; exact Ha | apply touches_jsonCSRF; exact Ha | touch_step | shown]|]).
  constructor.
Qed.

Lemma consent_quiet h : oh_auth h = auth -> touches [NSessions] (Consent_handler h r).
Proof.
  intros <-. unfold Consent_handler. pose proof (ParseForm_cookies r) as Hc. destruct (ParseForm r) as [rq ok].
  cbn [fst] in Hc. apply touches_if; [apply touches_ret|].
  apply touches_forged; [by rewrite Hc|]. intros e. apply touches_ret.
Qed.
Lemma touches_renderLoginError h msg url : touches [NSessions] (renderLoginError h msg url).
Proof. unfold renderLoginError. touch. Qed.
#[local] Hint Resolve touches_renderLoginError : touch.

Lemma login_quiet h : lh_auth h = auth -> touches [NSessions] (Login_handler h r).
Proof.
  intros <-. unfold Login_handler. pose proof (ParseForm_cookies r) as Hc. destruct (ParseForm r) as [rq ok].
  cbn [fst] in Hc. apply touches_if; [touch|]. apply touches_if; [touch|].
  apply touches_bind; [|intros; touch]. unfold Login.
  apply touches_forged; [by rewrite Hc|]. intros e. apply touches_ret.
Qed.

Lemma reserve_quiet rq : r_cookies rq = hr_cookies r -> touches [NSessions] (reservePendingAttempt auth rq).
Proof.
  intros Hc. unfold reservePendingAttempt. apply touches_forged; [by rewrite Hc|]. intros e. apply touches_ret.
Qed.

(** Without a token there is no attempt, so the rest is not reached. *)
Lemma reserve_forged {A} rq (f : string * User * Z -> Prog (res A)) : r_cookies rq = hr_cookies r ->
  touches [NSessions] (let? p := reservePendingAttempt auth rq in f p).
Proof.
  intros Hc. unfold reservePendingAttempt.
  intros w. apply wp_bind, wp_bind, wp_intro. intros v w1 Hr.
  destruct (forged_Err (as_csrf auth) rq ltac:(by rewrite Hc) w) as [e He].
  rewrite Hr in He. cbn in He. subst v. apply wp_ret, wp_ret.
  refine (touches_run _ _ _ _ _ _ Hr). unfold ValidateToken. touch.
Qed.

Lemma touches_renderCodePage h rq status url msg : touches [NSessions] (renderCodePage h rq status url msg).
Proof.
  unfold renderCodePage, PendingLoginHasTOTP, PendingLoginHasPasskeys. touch.
Qed.
#[local] Hint Resolve touches_renderCodePage : touch.

Lemma restart_quiet url : touches [NSessions] (restartLogin url).
Proof. apply touches_ret. Qed.
#[local] Hint Resolve restart_quiet : touch.

Lemma code_quiet h : lh_auth h = auth -> touches [NSessions] (Code h r).
Proof.
  intros Ha. unfold Code. rewrite Ha. apply touches_bind; [|intros; touch]. by apply reserve_forged.
Qed.

Lemma passkey_begin_quiet h : lh_auth h = auth -> touches [NSessions] (PasskeyBegin h r).
Proof.
  intros <-. unfold PasskeyBegin, BeginPasskeyLogin. apply touches_bind; [|intros; apply touches_ret].
  apply touches_if; [apply touches_ret|]. apply touches_forged; [done|]. intros e. apply touches_ret.
Qed.

Lemma passkey_finish_quiet h : lh_auth h = auth -> touches [NSessions] (PasskeyFinish h r).
Proof.
  intros Ha. unfold PasskeyFinish. rewrite Ha. pose proof (limited_cookies r) as Hc. destruct (ParseForm (limited r)) as [rq ok].
  cbn [fst] in Hc. apply touches_if; [apply touches_ret|]. apply touches_bind; [|intros; apply touches_ret].
  unfold CompletePasskeyLogin. apply touches_if; [apply touches_ret|]. by apply reserve_forged.
Qed.

Lemma forgot_quiet h : ach_csrf h = as_csrf auth -> touches [NSessions] (ForgotPassword h r).
Proof.
  intros Ha. unfold ForgotPassword, renderForgot. pose proof (ParseForm_cookies r) as Hc.
  destruct (ParseForm r) as [rq ok]. cbn [fst] in Hc. apply touches_if; [touch|].
  apply touches_forged; [by rewrite Ha, Hc|]. intros e. touch.
Qed.

Lemma reset_quiet h : ach_csrf h = as_csrf auth -> touches [NSessions] (ResetPassword_handler h r).
Proof.
  intros Ha. unfold ResetPassword_handler, renderReset. pose proof (ParseForm_cookies r) as Hc.
  destruct (ParseForm r) as [rq ok]. cbn [fst] in Hc. apply touches_if; [touch|].
  apply touches_forged; [by rewrite Ha, Hc|]. intros e. touch.
Qed.
End forms.

(** ** Every route *)

(** The endpoints that do not ask for the token: those for programs, with
    credentials of their own; the authorization endpoint, which answers
    redirects from other sites; the end of a session; the link of a mail; and
    the playground, whose callback answers such a redirect. *)
Definition without_csrf : list string :=
  ["/token"; "/userinfo"; "/revoke"; "/introspect"; "/authorize"; "/logout"; "/verify-email";
   "/playground"; "/playground/"; "/playground/*"].

Section server.
Context `{StoreLaws} `{UnicodeTables} `{KeyLib} `{JwtLib} `{Argon2} `{WebAuthn} `{Chi} `{!ChiLaws} (s : Server).
Context (files prometheus : Handler) (pg : option Handler).

(** The handlers that belong to libraries write no file; the administration
    uses the server's authentication service; a readiness check writes
    nothing. *)
Record quiet_parts : Prop := {
  quiet_files : forall r, touches [NSessions] (files r);
  quiet_prometheus : forall r, touches [NSessions] (prometheus r);
  quiet_check : forall c, sv_readinessCheck s = Some c -> touches [NSessions] c;
  same_service : forall auth cfg, sv_authService s = Some auth -> sv_adminConfig s = Some cfg ->
    ac_AuthService cfg = auth;
}.

Definition forged_request (r : HttpRequest) : Prop :=
  forall auth, sv_authService s = Some auth -> forged (as_csrf auth) (hr_cookies r).

(** A route is quiet when it asks for the token, or changes nothing. *)
Definition quiet_route (rt : Route) : Prop :=
  rt_Pattern rt ∉ without_csrf -> forall r, forged_request r -> touches [NSessions] (rt_Handler rt r).

Lemma set_vars_forged vars r : forged_request r -> forged_request (set_vars vars r).
Proof. done. Qed.

Lemma touches_limiter c h r : touches [NSessions] (h r) -> touches [NSessions] (limiter s c h r).
Proof.
  intros Hh. unfold limiter. destruct (limit_of s c) as [n|]; [|done].
  apply touches_bind; [apply (touches_weaken []); [set_solver|apply limit_touches]|]. intros []; [done|].
  apply touches_bind; [auto with touch|]. intros _. apply touches_ret.
Qed.

Context (Hparts : quiet_parts).

Lemma quiet_when b l : Forall quiet_route l -> Forall quiet_route (when b l).
Proof. by destruct b. Qed.

Ltac quiet_shown := intros _ ? _; cbn [rt_Handler Get Post Handle limited_by]; repeat (touch; try shown).
Ltac each_route tac :=
  lazymatch goal with
  | |- Forall _ nil => constructor
  | |- _ => apply List.Forall_cons; [solve [tac]|each_route tac]
  end.

Lemma quiet_health : Forall quiet_route (health_routes s prometheus).
Proof.
  unfold health_routes. apply Forall_app_2; [|apply quiet_when].
  - apply List.Forall_cons; [quiet_shown|]. apply List.Forall_cons; [|constructor]. intros _ r _.
    cbn [rt_Handler Get]. unfold Readyz, NewHealthHandler, health_status. cbn [hh_check hh_ready].
    apply touches_bind; [|intros []; touch]. destruct (sv_readinessCheck s) as [c|] eqn:Hc; [|touch].
    apply touches_bind; [by eapply quiet_check|]. intros []; touch.
  - apply List.Forall_cons; [|constructor]. intros _ r _. by apply quiet_prometheus.
Qed.

Lemma quiet_discovery : Forall quiet_route (discovery_routes s).
Proof. unfold discovery_routes. apply Forall_app_2; apply quiet_when; each_route ltac:(quiet_shown). Qed.

Lemma quiet_static : Forall quiet_route (static_routes files).
Proof.
  each_route ltac:(intros _ r _; cbn [rt_Handler Handle]; unfold StripPrefix, FaviconHandler, StaticHandler;
    touch; by apply quiet_files).
Qed.

(** A route that is excepted is quiet by its pattern. *)
Ltac excepted := intros Hp ? ?; exfalso; apply Hp; by apply (bool_decide_eq_true_1 _).

(** A form is quiet by its lemma; [auth] is the server's service. *)
Ltac form auth Ha :=
  idtac;
  lazymatch goal with
  | |- quiet_route (Build_Route _ ?p _ _) =>
      let b := eval vm_compute in (bool_decide (p ∈ without_csrf)) in
      lazymatch b with
      | true => excepted
      | false =>
          intros _ r Hr; cbn [rt_Handler]; specialize (Hr auth Ha);
          lazymatch goal with
          | |- touches _ (Login_handler _ _) => by apply (login_quiet r auth)
          | |- touches _ (Code _ _) => by apply (code_quiet r auth)
          | |- touches _ (PasskeyBegin _ _) => by apply (passkey_begin_quiet r auth)
          | |- touches _ (PasskeyFinish _ _) => by apply (passkey_finish_quiet r auth)
          | |- touches _ (ForgotPassword _ _) => by apply (forgot_quiet r auth)
          | |- touches _ (ResetPassword_handler _ _) => by apply (reset_quiet r auth)
          | |- touches _ (Consent_handler _ _) => by apply (consent_quiet r auth)
          | |- _ => repeat (touch; try shown)
          end
      end
  end.

Lemma quiet_login auth : sv_authService s = Some auth -> Forall quiet_route (login_routes s auth).
Proof.
  intros Ha. unfold login_routes, limited_by, Get, Post; cbn [rt_Method rt_Pattern rt_Handler].
  each_route ltac:(form auth Ha).
Qed.

Lemma quiet_reset auth : sv_authService s = Some auth -> Forall quiet_route (reset_routes s auth).
Proof.
  intros Ha. unfold reset_routes, limited_by, Get, Post; cbn [rt_Method rt_Pattern rt_Handler].
  destruct (sv_accountService s) as [[accounts ttl]|]; [|constructor]. each_route ltac:(form auth Ha).
Qed.

Lemma quiet_oidc auth : sv_authService s = Some auth -> Forall quiet_route (oidc_routes s auth).
Proof.
  intros Ha. unfold oidc_routes, limited_by, Get, Post; cbn [rt_Method rt_Pattern rt_Handler].
  destruct (sv_oidc s) as [[ttl ts]|]; [|constructor]. each_route ltac:(form auth Ha).
Qed.

Lemma quiet_landing : quiet_route (Get "/" (LandingPage s)).
Proof.
  intros _ r _. cbn [rt_Handler Get]. unfold LandingPage, landing_anonymous, landing. touch.
Qed.

Lemma quiet_playground_routes : Forall quiet_route (playground_routes s pg).
Proof.
  unfold playground_routes. destruct pg as [h|] eqn:Hpg; [|constructor]. apply quiet_when.
  repeat (apply List.Forall_cons; [excepted|]). constructor.
Qed.

Lemma quiet_account auth : sv_authService s = Some auth -> Forall quiet_route (account_routes s auth).
Proof.
  intros Ha. unfold account_routes. apply quiet_when. apply List.Forall_map, List.Forall_forall.
  intros [[m p] h] Hin _ r Hr. cbn [rt_Handler].
  pose proof (account_pages_quiet r auth (Hr auth Ha) (account_page s auth) eq_refl) as Hall.
  rewrite List.Forall_forall in Hall. exact (Hall _ Hin).
Qed.

(** A router over quiet handlers. *)
Lemma quiet_ServeHTTP prefix l r :
  (forall rt vars, rt ∈ l -> touches [NSessions] (rt_Handler rt (set_vars vars r))) ->
  touches [NSessions] (ServeHTTP s prefix l r).
Proof.
  intros Hl. unfold ServeHTTP. destruct (match_route _ _ _ _) as [n vars|resp]; [|apply touches_ret].
  destruct (l !! n) as [rt|] eqn:Hn; [|apply touches_ret]. apply touches_limiter, Hl.
  by eapply list_elem_of_lookup_2.
Qed.

Lemma quiet_admin auth : sv_authService s = Some auth -> Forall quiet_route (admin_routes s pg).
Proof.
  intros Ha. unfold admin_routes. destruct (sv_adminConfig s) as [cfg|] eqn:Hcfg; [|constructor].
  assert (forall r, forged_request r -> touches [NSessions] (admin_router s pg cfg r)) as Hrouter;
    [|repeat (apply List.Forall_cons; [by intros _ r; apply Hrouter|]); constructor].
  intros r Hr. unfold admin_router, requireAdmin.
  apply touches_bind; [auto with touch|]. intros [user|e]; [|touch]. apply touches_if; [touch|].
  apply touches_bind; [auto with touch|]. intros _. apply quiet_ServeHTTP. intros rt vars Hrt.
  apply list_elem_of_fmap in Hrt as ([[m p] h] & -> & Hin). cbn [rt_Handler].
  assert (forged (as_csrf (ac_AuthService (admin_config s pg cfg))) (hr_cookies (set_vars vars r))) as Hf.
  { cbn. rewrite (same_service Hparts auth cfg Ha Hcfg). exact (Hr auth Ha). }
  pose proof (admin_pages_quiet (set_vars vars r) (admin_config s pg cfg) user Hf) as Hall.
  rewrite List.Forall_forall in Hall. apply (Hall (m, p, h)). by apply list_elem_of_In.
Qed.

Lemma quiet_routes : Forall quiet_route (routes s files prometheus pg).
Proof.
  unfold routes. apply Forall_app_2; [apply quiet_health|]. apply Forall_app_2; [apply quiet_discovery|].
  apply Forall_app_2; [apply quiet_static|]. apply Forall_app_2.
  { destruct (sv_authService s) as [auth|] eqn:Ha; [|constructor]. apply Forall_app_2; [by apply quiet_login|].
    apply Forall_app_2; [by apply quiet_reset|by apply quiet_oidc]. }
  apply Forall_app_2; [apply List.Forall_cons; [apply quiet_landing|constructor]|].
  apply Forall_app_2; [apply quiet_playground_routes|].
  destruct (sv_authService s) as [auth|] eqn:Ha; [|constructor].
  apply Forall_app_2; [by apply quiet_account|by eapply quiet_admin].
Qed.

(** ** Middlewares *)

Lemma real_request_cookies trusted r : hr_cookies (real_request trusted r) = hr_cookies r.
Proof.
  unfold real_request. destruct (_ && _); [by destruct (clientFromForwardedFor _ _)|]. done.
Qed.

Lemma touches_passes cs mw h r : passes_on mw -> touches cs (h r) -> touches cs (mw h r).
Proof. intros [f Hf] Hh. rewrite Hf. apply touches_bind; [done|]. intros x. apply touches_ret. Qed.

Lemma real_request_route trusted r :
  hr_Method (real_request trusted r) = hr_Method r /\ hr_URL (real_request trusted r) = hr_URL r.
Proof.
  unfold real_request. destruct (_ && _); [by destruct (clientFromForwardedFor _ _)|]. done.
Qed.

(** The route a request is for. *)
Definition routed_to (r : HttpRequest) (pattern : string) : Prop :=
  exists n vars rt, match_route "" (map (fun rt => (rt_Method rt, rt_Pattern rt)) (routes s files prometheus pg))
                      (hr_Method r) (hr_URL r) = Routed n vars /\
    routes s files prometheus pg !! n = Some rt /\ rt_Pattern rt = pattern.

Lemma touches_SetNonempty cs name value : touches cs (SetNonempty name value).
Proof. unfold SetNonempty. touch. Qed.
#[local] Hint Resolve touches_SetNonempty : touch.

(** The middlewares add headers and metrics around the router. *)
Lemma touches_middlewares cs tls next r :
  touches cs (next (real_request (sv_trustedProxies s) r)) ->
  touches cs (RequestID (RealIPFromTrustedProxies (sv_trustedProxies s) (Recoverer (Timeout (30 * Second)
    (with_security s tls (with_cors s (with_metrics s next)))))) r).
Proof.
  intros Hn. apply touches_passes; [apply RequestID_passes|]. unfold RealIPFromTrustedProxies.
  apply touches_passes; [destruct Recoverer_passes as (f & _ & Hf); by exists f|].
  apply touches_passes; [apply Timeout_passes|].
  assert (touches cs (with_metrics s next (real_request (sv_trustedProxies s) r))) as Hm.
  { unfold with_metrics, metrics_Middleware. destruct (sv_metricsEnabled s); [|apply Hn].
    apply touches_bind; [apply Hn|]. intros resp. touch. }
  revert Hm. generalize (real_request (sv_trustedProxies s) r) as r'. intros r' Hm.
  assert (touches cs (with_cors s (with_metrics s next) r')) as Hc.
  { unfold with_cors. destruct (sv_corsConfig s) as [config|]; [|done]. case_match; [|done].
    unfold CORSMiddleware. touch. }
  unfold with_security. destruct (sv_securityHeadersConfig s) as [config|]; [|done].
  unfold SecurityHeadersMiddleware. touch.
Qed.

(** Claim C17.  Without the browser's CSRF cookie nothing is changed: whatever
    the request, if no cookie of it holds a token this server signed, and the
    route is none of the eight that do not ask for one (the playground's
    mount, with its three patterns, is one of them), then no file is touched
    but that of sessions (an expired one is deleted). *)
Theorem csrf_required tls r w :
  forged_request r -> (forall pattern, routed_to r pattern -> pattern ∉ without_csrf) ->
  frame [NSessions] w (run (NewServer s files prometheus pg tls r) w).2.
Proof.
  intros Hr Hp. pose proof quiet_routes as Hall. rewrite List.Forall_forall in Hall.
  assert (touches [NSessions] (ServeHTTP s "" (routes s files prometheus pg) (real_request (sv_trustedProxies s) r)))
    as Hserve.
  { unfold ServeHTTP. destruct (real_request_route (sv_trustedProxies s) r) as [Hm Hu]. rewrite Hm, Hu.
    destruct (match_route _ _ _ _) as [n vars|resp] eqn:Hmatch; [|apply touches_ret].
    destruct (routes s files prometheus pg !! n) as [rt|] eqn:Hn; [|apply touches_ret].
    apply touches_limiter, (Hall rt).
    - apply list_elem_of_In. by eapply list_elem_of_lookup_2.
    - apply Hp. by exists n, vars, rt.
    - unfold forged_request. cbn [hr_cookies set_vars]. by rewrite real_request_cookies. }
  assert (touches [NSessions] (NewServer s files prometheus pg tls r)) as Ht.
  { apply touches_middlewares. done. }
  destruct (run (NewServer s files prometheus pg tls r) w) as [resp w'] eqn:Hrun.
  exact (touches_run _ _ _ _ _ Ht Hrun).
Qed.
End server.

(** ** Discovery *)

(** The endpoints a document names, with the methods they are asked with. *)
Definition endpoints (d : OIDCDiscovery) : list (string * string) :=
  [("GET", od_AuthorizationEndpoint d); ("POST", od_AuthorizationEndpoint d); ("POST", od_TokenEndpoint d);
   ("GET", od_UserinfoEndpoint d); ("POST", od_UserinfoEndpoint d); ("GET", od_JwksURI d);
   ("GET", od_EndSessionEndpoint d); ("POST", od_EndSessionEndpoint d); ("POST", od_RevocationEndpoint d);
   ("POST", od_IntrospectionEndpoint d)].

Section discovery.
Context `{Store} `{UnicodeTables} `{KeyLib} `{JwtLib} `{Argon2} `{WebAuthn} `{Chi} `{Env}.
Context (webauthn_New : string -> string -> list string -> option error) (readiness : Prog (res unit)).
Context (files prometheus : Handler) (pg : option Handler).

(** What [main]'s options leave in the server, whatever is switched on. *)
Lemma serverOpts_fields c key (s := apply_options (serverOpts webauthn_New readiness c key)) :
  sv_authService s = Some (auth_service c) /\ sv_issuerURL s = cfg_IssuerURL c /\
  sv_keyService s = Some (key_service c) /\
  sv_oidc s = Some (cfg_AuthCodeTTL c, token_service c key) /\ sv_groupsClaim s = groups_claim c /\
  sv_adminConfig s = Some (main_admin c) /\ sv_accountStore s = true /\
  sv_readinessCheck s = Some readiness /\ sv_loginRateLimit s = cfg_LoginRateLimit c /\
  sv_trustedProxies s = trusted_proxies c /\ sv_audit s = true /\ sv_consentService s = cfg_RequireConsent c.
Proof.
  subst s. unfold serverOpts, apply_options. rewrite !fold_left_app.
  by destruct (cfg_PlaygroundEnabled c), (cfg_RequireConsent c), (cfg_SecurityHeadersEnabled c),
    (0 <? length_Z (ParseCORSAllowedOrigins c)), (cfg_MetricsEnabled c).
Qed.

Lemma startup_options c w s w' :
  run (startup webauthn_New readiness c) w = (Ok s, w') ->
  exists key, s = apply_options (serverOpts webauthn_New readiness c key).
Proof.
  unfold startup. rewrite !run_bind. destruct (run (provision c) w) as [[] w1]. rewrite run_bind.
  destruct (run (signing_key c) w1) as [[key|e] w2]; [|done]. destruct (newMailer c); [|done]. intros [= <- _].
  by exists key.
Qed.

Definition document_of (s : Server) : OIDCDiscovery :=
  discovery_document (NewDiscoveryHandler (sv_issuerURL s) (sv_groupsClaim s)).

(** A route of the list, by method and pattern. *)
Definition serves (l : list Route) (method pattern : string) : Prop :=
  exists rt, rt ∈ l /\ rt_Method rt = Some method /\ rt_Pattern rt = pattern.

Lemma serves_in l method pattern :
  (Some method, pattern) ∈ map (fun rt => (rt_Method rt, rt_Pattern rt)) l -> serves l method pattern.
Proof. intros (rt & Heq & Hin)%list_elem_of_fmap. injection Heq as Hm Hp. by exists rt. Qed.

(** Claim C22.  Discovery tells the truth about the server [main] starts: the
    document is served at its well-known place, every endpoint it names is
    the issuer followed by the path of a route with the method it is asked
    with, and tokens carry the issuer of the document, unless the configured
    issuer ends in a slash. *)
Theorem discovery_served c w s w' (l := routes s files prometheus pg) (d := document_of s) :
  run (startup webauthn_New readiness c) w = (Ok s, w') -> cfg_IssuerURL c <> "" ->
  (exists rt, rt ∈ l /\ rt_Pattern rt = "/.well-known/openid-configuration" /\
     forall r, hr_Method r = "GET" -> rt_Handler rt r = Ret (Wrote StatusOK (public_json "3600") (BDiscovery d))) /\
  Forall (fun '(method, url) => exists path, url = od_Issuer d +:+ path /\ serves l method path) (endpoints d) /\
  (CutSuffix (cfg_IssuerURL c) "/" = None -> exists ttl ts, sv_oidc s = Some (ttl, ts) /\
     tg_issuer (ts_generator ts) = od_Issuer d /\ ts_issuer ts = od_Issuer d).
Proof.
  intros [key Hs]%startup_options Hne. subst l d.
  destruct (serverOpts_fields c key) as (Hauth & Hiss & Hks & Hoidc & _ & _ & _). rewrite <-Hs in *. clear Hs.
  assert (forall method pattern, (Some method, pattern) ∈ map (fun rt => (rt_Method rt, rt_Pattern rt))
      (discovery_routes s ++ login_routes s (auth_service c) ++ oidc_routes s (auth_service c)) ->
    serves (routes s files prometheus pg) method pattern) as Hin.
  { intros m p (rt & Hrt & Hm & Hp)%serves_in. exists rt. split; [|done]. unfold routes. rewrite Hauth.
    rewrite !elem_of_app in Hrt. rewrite !elem_of_app. tauto. }
  unfold discovery_routes, oidc_routes in Hin. rewrite Hiss, Hks, Hoidc in Hin.
  rewrite (bool_decide_eq_false_2 _ Hne) in Hin. cbn [negb when] in Hin.
  split_and!.
  - exists (Get "/.well-known/openid-configuration"
              (OpenIDConfiguration (NewDiscoveryHandler (sv_issuerURL s) (sv_groupsClaim s)))). split_and!.
    + unfold routes, discovery_routes. rewrite Hiss, (bool_decide_eq_false_2 _ Hne). cbn [negb when].
      rewrite !elem_of_app. right. left. left. left.
    + done.
    + intros r Hr. cbn [rt_Handler Get]. unfold OpenIDConfiguration. by rewrite Hr.
  - unfold endpoints. repeat apply List.Forall_cons; try constructor; (eexists; split; [reflexivity|]; apply Hin).
    all: by apply (bool_decide_eq_true_1 _).
  - intros Hs. do 2 eexists. split; [exact Hoidc|]. cbn. unfold TrimSuffix. by rewrite Hiss, Hs.
Qed.
End discovery.

(** ** Published keys *)

Section keys.
Context `{StoreLaws} `{!EnvLaws} `{KeyLib} `{JwtLib}.

Lemma publish_run keys w l w' :
  run (publish keys) w = (l, w') -> same_disk w w' /\
  forall k kp, k ∈ keys -> kp_PublicKey k = None -> LoadFromPEM k = Ok kp ->
    (forall n, (n < w_tick w')%nat -> KeyPair_IsExpired (env_clock n) k = false) -> kp ∈ l.
Proof.
  revert w l w'. induction keys as [|k keys IH]; intros w l w' Hr; cbn [publish] in Hr.
  { injection Hr as <- <-. split; [done|]. intros k kp Hk. by apply elem_of_nil in Hk. }
  unfold now in Hr. rewrite run_bind, run_trigger in Hr. cbn [perform] in Hr. rewrite run_bind in Hr.
  destruct (run (publish keys) (ticked 1 w)) as [rest w1] eqn:E. cbn [run] in Hr. injection Hr as <- <-.
  destruct (IH _ _ _ E) as [[Ht Hd] Hrest]. cbn [ticked w_tick w_disk] in Ht, Hd.
  split; [split; [lia|done]|]. intros x kp Hx Hpub Hload Hexp.
  assert (forall y, y ∈ rest -> y ∈ if KeyPair_IsExpired (env_clock (w_tick w)) k then rest
           else match kp_PublicKey k with
                | Some _ => k :: rest
                | None => match LoadFromPEM k with Ok k => k :: rest | Err _ => rest end end) as Hkeep.
  { intros y Hy. repeat case_match; try done; by right. }
  apply elem_of_cons in Hx as [->|Hx].
  - rewrite Hexp by lia. rewrite Hpub, Hload. left.
  - apply Hkeep. by apply (Hrest x).
Qed.

Lemma GetJWKS_spec w :
  wp GetJWKS w (fun r w' => same_disk w w' /\
    match r with
    | Ok jwks => exists rows active keys, jwks = map ToJWK keys /\ get CKeys (w_disk w) = FData (rows, active) /\
        forall k kp, k ∈ rows -> kp_PublicKey k = None -> LoadFromPEM k = Ok kp ->
          (forall n, (n < w_tick w')%nat -> KeyPair_IsExpired (env_clock n) k = false) -> kp ∈ keys
    | Err _ => True
    end).
Proof.
  unfold GetJWKS. apply wp_locked. apply wp_bind.
  eapply wp_mono; [apply law_Keys_GetAll|]. intros rows w1 Hq. cbn beta in Hq. pose proof (qry_same _ _ _ _ _ Hq) as [Ht1 Hd1].
  destruct rows as [rows|e]; [|apply wp_ret; split; [split; cbn in *; [lia|done]|done]].
  apply qry_Ok in Hq as ([rows' active] & t & Hg & _ & Heq). injection Heq as ->.
  apply wp_bind, wp_intro. intros keys w2 Hpub. apply wp_ret.
  destruct (publish_run _ _ _ _ Hpub) as [[Ht2 Hd2] Hl]. split; [split; cbn in *; [lia|congruence]|].
  exists rows, active, keys. split; [done|]. split; [exact Hg|]. intros k kp Hk Hnone Hload Hexp.
  eapply Hl; [done..|]. intros n Hn. apply Hexp. cbn. lia.
Qed.

Lemma JWKS_run r w status hs jwks w' :
  run (JWKS r) w = (Wrote status hs (BJwks jwks), w') -> same_disk w w' /\
  exists rows active, get CKeys (w_disk w) = FData (rows, active) /\
  forall k kp, k ∈ rows -> kp_stored k = k -> LoadFromPEM k = Ok kp ->
    (forall n, (n < w_tick w')%nat -> KeyPair_IsExpired (env_clock n) k = false) -> ToJWK kp ∈ jwks.
Proof.
  unfold JWKS. destruct (hr_Method r !=? "GET"); [done|]. rewrite run_bind.
  destruct (run GetJWKS w) as [published w3] eqn:Hget. pose proof (wp_run _ _ _ _ _ (GetJWKS_spec w) Hget) as [Hs Hkeys].
  destruct published as [l|e]; [|done]. intros [= <- <- <- <-]. split; [done|].
  destruct Hkeys as (rows & active & keys & -> & Hg & Hl). exists rows, active. split; [done|]. intros k kp Hk Hst Hload Hexp.
  apply list_elem_of_fmap. exists kp. split; [done|]. eapply Hl; [done| |done|done]. rewrite <-Hst. by destruct k.
Qed.

Lemma LoadFromPEM_Kid k kp : LoadFromPEM k = Ok kp -> kp_Kid kp = kp_Kid k /\ kp_ExpiresAt kp = kp_ExpiresAt k.
Proof.
  unfold LoadFromPEM.
  destruct (kp_PrivateKeyPEM k) as [priv|], (kp_PublicKeyPEM k) as [pub|]; try done.
  destruct (pem_Decode priv) as [block|]; [|done]. destruct (parse_private block) as [sk|e]; [|done]. cbn [res_bind].
  destruct (pem_Decode pub) as [block'|]; [|done]. destruct (ParsePKIXPublicKey block'.2) as [pk|e]; [|done].
  cbn [map_err res_bind]. cbv zeta. destruct (check_alg _ _ sk pk) as [[]|e]; [|done]. cbn [res_bind].
  intros [= <-]. by destruct k.
Qed.

Lemma ensure_both_stored k kp : kp_stored k = k -> ensure_both k = Ok kp ->
  LoadFromPEM k = Ok kp.
Proof.
  intros <-. unfold ensure_both. destruct k; cbn -[LoadFromPEM]. destruct (LoadFromPEM _) as [kp'|e]; [|done].
  by intros [= ->].
Qed.

(** Claim C21.  Clients can check what the server accepts: after the key set
    was fetched, and as long as the key file holds what it held, a token that the
    server takes for valid is checked with a key of that set, under the key
    identifier and the algorithm of the token's header. *)
Theorem published_keys_cover g ks r w status hs jwks w1 w2 tok claims w3 :
  tg_keyService g = Some ks ->
  (forall rows active, get CKeys (w_disk w) = FData (rows, active) -> forall k, k ∈ rows -> kp_stored k = k) ->
  run (JWKS r) w = (Wrote status hs (BJwks jwks), w1) ->
  (w_tick w1 <= w_tick w2)%nat -> get CKeys (w_disk w2) = get CKeys (w_disk w1) ->
  run (ValidateAccessToken g tok) w2 = (Ok claims, w3) ->
  exists h k t json, jwt_header tok = Ok h /\ jwt_check tok (kp_PublicKey k) true t = Ok json /\
    UnmarshalJSON json = Some claims /\ ToJWK k ∈ jwks /\
    jh_kid h = Some (jwk_Kid (ToJWK k)) /\ jwk_Alg (ToJWK k) = jh_alg h.
Proof.
  intros Hks Hst Hj Ht12 Hd12 Hv.
  destruct (JWKS_run _ _ _ _ _ _ Hj) as ([Ht1 Hd1] & rows & active & Hg & Hcover).
  destruct (wp_run _ _ _ _ _ (ValidateAccessToken_spec g tok w2) Hv)
    as (_ & h & kid & k & t & t' & json & Hh & _ & Hkid & Hi & Hver & Halg & _ & Hcheck & Hun & _).
  unfold verifies in Hver. rewrite Hks in Hver.
  destruct Hver as (Hexp & k0 & (rows' & active' & Hg' & Hfind) & Hens).
  rewrite Hd12, Hd1, Hg in Hg'. injection Hg' as <- <-.
  apply find_first_Some in Hfind as [Hin Hk0]. cbn beta in Hk0. bool_to_prop.
  pose proof (Hst _ _ Hg k0 Hin) as Hstored. pose proof (ensure_both_stored _ _ Hstored Hens) as Hload.
  destruct (LoadFromPEM_Kid _ _ Hload) as [Hkk Hke].
  exists h, k, t', json. split_and!; try done.
  - apply (Hcover k0 k Hin Hstored Hload). intros n Hn. destruct Hi as (m & Hm & ->).
    destruct (KeyPair_IsExpired (env_clock n) k0) eqn:Hx; [|done].
    rewrite <-Hexp. unfold KeyPair_IsExpired. rewrite Hke. symmetry.
    apply (IsExpired_later (env_clock n)); [|exact Hx]. apply clock_mono. lia.
  - rewrite Hkid. f_equal. rewrite <-Hk0, <-Hkk. unfold ToJWK. by destruct (kp_PublicKey k) as [[]|].
  - rewrite <-Halg. unfold ToJWK. by destruct (kp_PublicKey k) as [[]|].
Qed.
End keys.
