(* ===== verification/Completion.v ===== *)
(** * Every request is answered, however the requests interleave

    Mutexes are ordered: the playground's [mu] comes before the others, which
    come before none, and a request that holds a mutex waits only for later
    ones and gives back what it took.  [tidy n] is that discipline for a
    program that takes nothing before rank [n], so that [tidy 2] takes nothing
    at all.  The whole server keeps it over either store, with the playground
    mounted or not, whence [requests_answered]: there is no deadlock, and no
    schedule goes on for ever. *)
From S2P Require Import Prelude GoTime GoText GoUrl Encoding Errors Domain Database Lockout PendingLogins World Run Metrics Store.
From S2P Require Import FileStore Keys Password Jwt Totp Csrf Session AuthService Passkeys Account Authorize TokenService.
From S2P Require Import Http Middleware OidcHandlers LoginHandlers ClientForm AccountHandlers AdminHandlers.
From S2P Require Import AdminClients PlaygroundHandler Server Maintenance.
#[local] Open Scope Z_scope.
#[local] Open Scope go_scope.

(** ** The discipline *)

Inductive lock_use := NoLock | Take (l : mutex) | Give (l : mutex).
Definition lock_use_of {X} (e : Ev X) : lock_use :=
  match e with ELock l => Take l | EUnlock l => Give l | _ => NoLock end.

(** A page of the playground is made, and the server asked for it, while its
    [mu] is held. *)
Definition rank (l : mutex) : nat := match l with LPlayground => 0 | _ => 1 end.

Lemma conflicts_rank l l' : conflicts l l' = true -> rank l = rank l'.
Proof. destruct l, l'; cbn; try done. Qed.

(** The program holds the mutexes [hs] of its own at its start, the last one
    taken first, and none at its end; it takes mutexes of rank [n] and more,
    each of a higher rank than what it holds. *)
Fixpoint bracketed (n : nat) (hs : list mutex) {A} (p : Prog A) : Prop :=
  match p with
  | Ret _ => hs = []
  | Vis e k =>
      match lock_use_of e with
      | NoLock => forall x, bracketed n hs (k x)
      | Take l => ((n <= rank l)%nat /\ Forall (fun h => (rank h < rank l)%nat) hs) /\
                  forall x, bracketed n (l :: hs) (k x)
      | Give l => exists hs', hs = l :: hs' /\ forall x, bracketed n hs' (k x)
      end
  end.

Definition tidy (n : nat) {A} (p : Prog A) : Prop := bracketed n [] p.

Arguments tidy : simpl never.

Lemma bracketed_bind {A B} n hs (p : Prog A) (f : A -> Prog B) :
  bracketed n hs p -> (forall a, bracketed n [] (f a)) -> bracketed n hs (bind p f).
Proof.
  intros Hp Hf. revert hs Hp. induction p as [a|X e k IH]; intros hs Hp; cbn [bind bracketed] in *.
  - subst. apply Hf.
  - destruct (lock_use_of e).
    + intros x. by apply IH.
    + destruct Hp as [Hl Hp]. split; [done|]. intros x. by apply IH.
    + destruct Hp as (hs' & -> & Hp). exists hs'. split; [done|]. intros x. by apply IH.
Qed.

(** A part that takes later mutexes only, within what is held. *)
Lemma bracketed_within {A B} n m hs base (p : Prog A) (f : A -> Prog B) :
  (n <= m)%nat -> Forall (fun h => (rank h < m)%nat) base ->
  bracketed m hs p -> (forall a, bracketed n base (f a)) -> bracketed n (hs ++ base) (bind p f).
Proof.
  intros Hnm Hbase Hp Hf. revert hs Hp. induction p as [a|X e k IH]; intros hs Hp; cbn [bind bracketed] in *.
  - subst. apply Hf.
  - destruct (lock_use_of e) as [|l|l].
    + intros x. by apply IH.
    + destruct Hp as [[Hl Hhs] Hp]. split; [|intros x; by apply (IH x (l :: hs))].
      split; [lia|]. apply Forall_app_2; [done|]. revert Hbase. apply List.Forall_impl. cbn. intros h Hh. lia.
    + destruct Hp as (hs' & -> & Hp). exists (hs' ++ base). split; [done|]. intros x. by apply IH.
Qed.

Lemma tidy_ret {A} n (a : A) : tidy n (Ret a).
Proof. done. Qed.
Lemma tidy_ret_ok {A} n (a : A) : tidy n (ret_ok a).
Proof. done. Qed.
Lemma tidy_ret_err {A} n e : tidy n (@ret_err A e).
Proof. done. Qed.

Lemma tidy_bind {A B} n (p : Prog A) (f : A -> Prog B) :
  tidy n p -> (forall a, tidy n (f a)) -> tidy n (bind p f).
Proof. apply bracketed_bind. Qed.

(** The events that use no mutex. *)
Lemma tidy_vis {A X} n (e : Ev X) (k : X -> Prog A) :
  lock_use_of e = NoLock -> (forall x, tidy n (k x)) -> tidy n (Vis e k).
Proof. intros He Hk. unfold tidy. cbn. by rewrite He. Qed.
Lemma tidy_event {X} n (e : Ev X) : lock_use_of e = NoLock -> tidy n (trigger e).
Proof. intros He. by apply tidy_vis. Qed.

(** A critical section. *)
Lemma tidy_locked {A} n l (p : Prog A) : (n <= rank l)%nat -> tidy (S (rank l)) p -> tidy n (locked l p).
Proof.
  intros Hl Hp. unfold tidy. cbn. split; [by split|]. intros _.
  apply (bracketed_within n (S (rank l)) [] [l]); [lia|by repeat constructor|done|]. intros a. by exists [].
Qed.

(** What may take fewer mutexes may take more. *)
Lemma tidy_weaken {A} m n (p : Prog A) : (n <= m)%nat -> tidy m p -> tidy n p.
Proof.
  intros Hnm. unfold tidy. generalize ([] : list mutex). induction p as [a|X e k IH]; intros hs Hp; cbn in *; [done|].
  destruct (lock_use_of e); [intros x; by apply IH| |].
  - destruct Hp as [[Hl Hhs] Hp]. split; [split; [lia|done]|]. intros x. by apply IH.
  - destruct Hp as (hs' & -> & Hp). exists hs'. split; [done|]. intros x. by apply IH.
Qed.

Create HintDb tidy discriminated.
#[export] Hint Resolve tidy_ret tidy_ret_ok tidy_ret_err : tidy.
#[export] Hint Extern 1 (_ <= _)%nat => lia : tidy.

(** Follows the program: its syntax, the lemmas registered in [tidy], and
    else its definition. *)
Ltac tidy_step :=
  lazymatch goal with
  | |- tidy _ (bind _ _) => apply tidy_bind; [|intros ?]
  | |- tidy _ (locked _ _) => apply tidy_locked; [cbn [rank]; lia|cbn [rank]]
  | |- tidy _ (trigger _) => apply tidy_event; reflexivity
  | |- tidy _ (Vis _ _) => apply tidy_vis; [reflexivity|intros ?]
  | |- tidy _ (Ret _) => apply tidy_ret
  | |- tidy _ (match ?x with _ => _ end) => destruct x
  | |- tidy _ (let '_ := ?x in _) => destruct x
  | |- tidy _ ?p => first [solve [auto 2 with tidy nocore] | let h := head_of p in progress unfold h]
  end.
Ltac tidy := intros; repeat (cbn beta zeta; tidy_step).

(** ** Pools of tidy threads *)

(** Whatever the scheduler does, [P] is reached: as long as it is not, some
    step is possible, and every step leads there. *)
Inductive inevitably {S} (step : relation S) (P : S -> Prop) (s : S) : Prop :=
| inevitably_now : P s -> inevitably step P s
| inevitably_step : (exists s', step s s') -> (forall s', step s s' -> inevitably step P s') ->
    inevitably step P s.

Lemma release_Permutation l held : l ∈ held -> held ≡ₚ l :: release l held.
Proof.
  intros Hl. unfold release. destruct (remove_first _ held) as [held'|] eqn:Hr; cbn.
  - apply remove_first_Some in Hr as (l1 & x & l2 & -> & -> & Hx & _). apply bool_decide_eq_true in Hx as ->.
    symmetry. apply Permutation_middle.
  - exfalso. apply remove_first_None in Hr. rewrite find_first_None in Hr. specialize (Hr l Hl). cbn in Hr. by rewrite bool_decide_true in Hr.
Qed.

Section pools.
Context `{Env} {A : Type}.
Implicit Types (p : Prog A) (ps : list (Prog A)).

Definition finished p : Prop := match p with Ret _ => True | Vis _ _ => False end.
Definition all_answered (s : list (Prog A) * World) : Prop := Forall finished s.1 /\ w_held s.2 = [].

#[local] Instance finished_dec p : Decision (finished p).
Proof. destruct p; cbn; apply _. Defined.
#[local] Instance enabled_dec p w : Decision (enabled p w).
Proof. destruct p as [a|X e k]; [by left|]. destruct e; cbn; apply _. Defined.

(** Each thread holds the mutexes its bracket says, and those are all. *)
Definition pool_tidy ps (w : World) : Prop :=
  exists hss, Forall2 (fun hs p => bracketed 0 hs p) hss ps /\ w_held w ≡ₚ concat hss.

Lemma perform_held {X} (e : Ev X) w x w' : perform e w = (x, w') ->
  w_held w' = match lock_use_of e with
              | NoLock => w_held w | Take l => l :: w_held w | Give l => release l (w_held w)
              end.
Proof. intros Hp. destruct e; cbn in *; repeat case_match; by simplify_eq. Qed.

Lemma pool_tidy_step ps w ps' w' : pool_tidy ps w -> pool_step (ps, w) (ps', w') -> pool_tidy ps' w'.
Proof.
  intros (hss & Hhss & Hheld) Hstep. inversion Hstep as [qs p rs ? p' ? Hth]; subst.
  apply Forall2_app_inv_r in Hhss as (hss1 & hss2 & H1 & H2 & ->).
  apply Forall2_cons_inv_r in H2 as (hs & hss3 & Hp & H2 & ->).
  rewrite concat_app in Hheld. cbn in Hheld.
  assert (forall hs', bracketed 0 hs' p' -> w_held w' ≡ₚ concat hss1 ++ hs' ++ concat hss3 -> pool_tidy (qs ++ p' :: rs) w')
    as Hnext.
  { intros hs' Hp' Hw'. exists (hss1 ++ hs' :: hss3). split; [apply Forall2_app; [done|by constructor]|].
    by rewrite concat_app. }
  inversion Hth as [X e k ? x ? Hen Hpf]; subst. apply perform_held in Hpf. cbn in Hp.
  destruct (lock_use_of e) as [|l|l].
  - apply (Hnext hs); [apply Hp|by rewrite Hpf].
  - apply (Hnext (l :: hs)); [apply Hp|]. rewrite Hpf, Hheld. apply Permutation_middle.
  - destruct Hp as (hs' & -> & Hp). apply (Hnext hs'); [apply Hp|]. rewrite Hpf. apply (Permutation_cons_inv (a := l)).
    rewrite <-release_Permutation; [rewrite Hheld; symmetry; apply Permutation_middle|].
    rewrite Hheld. set_solver.
Qed.

Lemma enabled_steps ps p w :
  p ∈ ps -> ~ finished p -> enabled p w -> exists s', pool_step (ps, w) s'.
Proof.
  intros Hp Hf Hen. destruct p as [a|X e k]; [by destruct Hf|].
  apply list_elem_of_split in Hp as (qs & rs & ->).
  destruct (perform e w) as [x w'] eqn:Hpf. eexists. apply pool_thread. by apply (thread_event _ _ _ _ _ _ Hen Hpf).
Qed.

(** Who waits, waits for a holder of a mutex of the same rank, who waits, if
    at all, for one of a higher rank; there are two. *)
Lemma waiting_progress ps w r l (k : unit -> Prog A) :
  pool_tidy ps w -> (2 <= r + rank l)%nat -> Vis (ELock l) k ∈ ps -> exists s', pool_step (ps, w) s'.
Proof.
  intros Htidy. revert l k. induction r as [|r IH]; intros l k Hr Hp; [destruct l; cbn in Hr; lia|].
  destruct (free l (w_held w)) eqn:Hfree; [by eapply enabled_steps; [exact Hp|by intros []|]|].
  apply negb_false_iff, existsb_exists in Hfree as (l' & Hl' & Hrank%conflicts_rank).
  destruct Htidy as (hss & Hhss & Hheld). apply list_elem_of_In in Hl'. rewrite Hheld in Hl'.
  apply list_elem_of_In, in_concat in Hl' as (hs & Hhs & Hin).
  apply list_elem_of_In, list_elem_of_lookup in Hhs as [i Hi].
  destruct (Forall2_lookup_l _ _ _ _ _ Hhss Hi) as (q & Hq & Hbr). apply list_elem_of_lookup_2 in Hq.
  destruct q as [a|X e kq]; [cbn in Hbr; by subst|].
  destruct (decide (enabled (Vis e kq) w)) as [Hen|Hdis]; [by eapply enabled_steps; [exact Hq|by intros []|]|].
  destruct e as [| |l2| | | | | | | | |]; try by destruct Hdis. cbn in Hbr. destruct Hbr as [[_ Hlt] _].
  rewrite Forall_forall in Hlt. specialize (Hlt l' Hin). apply (IH l2 kq); [lia|done].
Qed.

Lemma pool_progress ps w : pool_tidy ps w -> all_answered (ps, w) \/ exists s', pool_step (ps, w) s'.
Proof.
  intros Htidy. destruct (decide (Forall finished ps)) as [Hall|Hsome].
  - left. split; [done|]. destruct Htidy as (hss & Hhss & Hheld). assert (concat hss = []) as Hnone.
    { clear Hheld. induction Hhss as [|hs p hss ps Hp _ IH]; [done|]. apply Forall_cons_1 in Hall as [Hf Hall].
      destruct p; [|done]. cbn in Hp. subst. by apply IH. }
    rewrite Hnone in Hheld. by apply Permutation_nil_r in Hheld.
  - right. apply not_Forall_Exists, Exists_exists in Hsome as (p & Hp & Hnf); [|apply _].
    destruct p as [a|X e k]; [by destruct Hnf|].
    destruct (decide (enabled (Vis e k) w)) as [Hen|Hdis]; [by eapply enabled_steps; [apply list_elem_of_In, Hp|exact Hnf|]|].
    destruct e as [| |l| | | | | | | | |]; try by destruct Hdis. apply (waiting_progress ps w 2 l k); [done|lia|by apply list_elem_of_In].
Qed.

(** ** Threads end *)

Definition rest_of p' p : Prop := match p with Ret _ => False | Vis e k => exists x, p' = k x end.
Definition pool_rest ps' ps : Prop :=
  exists qs p p' rs, ps = qs ++ p :: rs /\ ps' = qs ++ p' :: rs /\ rest_of p' p.

Lemma rest_wf p : Acc rest_of p.
Proof. induction p as [a|X e k IH]; constructor; intros p' Hp'; [done|]. destruct Hp' as [x ->]. apply IH. Qed.

Lemma pool_rest_wf ps : Acc pool_rest ps.
Proof.
  induction ps as [|p ps IHps]; [constructor; intros ps' (qs & q & q' & rs & Hq & _); by destruct qs|].
  revert ps IHps. induction (rest_wf p) as [p _ IHp]. intros ps Hps.
  induction Hps as [ps Hacc IHps]. constructor. intros ps' ([|q0 qs] & q & q' & rs & Hq & -> & Hr); simplify_eq/=.
  - apply IHp; [done|]. by constructor.
  - apply IHps. by exists qs, q, q', rs.
Qed.

Lemma pool_step_rest ps w ps' w' : pool_step (ps, w) (ps', w') -> pool_rest ps' ps.
Proof.
  intros Hstep. inversion Hstep as [qs p rs ? p' ? Hth]; subst. exists qs, p, p', rs.
  inversion Hth; subst. by repeat split; eexists.
Qed.

Lemma pool_inevitable ps w : pool_tidy ps w -> inevitably pool_step all_answered (ps, w).
Proof.
  revert w. induction (pool_rest_wf ps) as [ps _ IH]. intros w Htidy.
  destruct (pool_progress ps w Htidy) as [Hdone|Hgo]; [by apply inevitably_now|].
  apply inevitably_step; [done|]. intros [ps' w'] Hstep.
  apply IH; [by eapply pool_step_rest|by eapply pool_tidy_step].
Qed.

(** From the start, when no mutex is held. *)
Lemma tidy_inevitable ps w :
  Forall (tidy 0) ps -> w_held w = [] -> inevitably pool_step all_answered (ps, w).
Proof.
  intros Hps Hw. apply pool_inevitable. exists (replicate (length ps) []). rewrite Hw. split.
  - clear Hw. induction Hps; cbn; by constructor.
  - clear Hps Hw. by induction ps.
Qed.
End pools.

(** ** The store *)

(** What the services expect of a store: only the consume-once operations
    take a mutex, one of the last rank. *)
Class StoreTidy `{Store} : Prop := {
  tidy_Users_Create n x : tidy n (Users_Create x);
  tidy_Users_GetByID n x : tidy n (Users_GetByID x);
  tidy_Users_GetByEmail n x : tidy n (Users_GetByEmail x);
  tidy_Users_Update n x : tidy n (Users_Update x);
  tidy_Users_Delete n x : tidy n (Users_Delete x);
  tidy_Users_List n : tidy n Users_List;
  tidy_Clients_Create n x : tidy n (Clients_Create x);
  tidy_Clients_GetByID n x : tidy n (Clients_GetByID x);
  tidy_Clients_Update n x : tidy n (Clients_Update x);
  tidy_Clients_Delete n x : tidy n (Clients_Delete x);
  tidy_Clients_List n : tidy n Clients_List;
  tidy_Sessions_Create n x : tidy n (Sessions_Create x);
  tidy_Sessions_GetByID n x : tidy n (Sessions_GetByID x);
  tidy_Sessions_Delete n x : tidy n (Sessions_Delete x);
  tidy_Sessions_DeleteByUserID n x : tidy n (Sessions_DeleteByUserID x);
  tidy_Sessions_DeleteExpired n : tidy n Sessions_DeleteExpired;
  tidy_Sessions_ListByUserID n x : tidy n (Sessions_ListByUserID x);
  tidy_AuthCodes_Create n x : tidy n (AuthCodes_Create x);
  tidy_AuthCodes_GetByCode n x : tidy n (AuthCodes_GetByCode x);
  tidy_AuthCodes_MarkUsed n x : (n <= 1)%nat -> tidy n (AuthCodes_MarkUsed x);
  tidy_AuthCodes_Delete n x : tidy n (AuthCodes_Delete x);
  tidy_AuthCodes_DeleteExpired n : tidy n AuthCodes_DeleteExpired;
  tidy_Tokens_Create n x : tidy n (Tokens_Create x);
  tidy_Tokens_GetByID n x : tidy n (Tokens_GetByID x);
  tidy_Tokens_Revoke n x : tidy n (Tokens_Revoke x);
  tidy_Tokens_RevokeByUserID n x : tidy n (Tokens_RevokeByUserID x);
  tidy_Tokens_RevokeByClientID n x : tidy n (Tokens_RevokeByClientID x);
  tidy_Tokens_Rotate n x : (n <= 1)%nat -> tidy n (Tokens_Rotate x);
  tidy_Tokens_DeleteExpired n : tidy n Tokens_DeleteExpired;
  tidy_Tokens_ListByUserID n x : tidy n (Tokens_ListByUserID x);
  tidy_Revocations_RevokeAccessToken n x y : tidy n (Revocations_RevokeAccessToken x y);
  tidy_Revocations_RevokeBefore n x y z : tidy n (Revocations_RevokeBefore x y z);
  tidy_Revocations_IsRevoked n x y z w : tidy n (Revocations_IsRevoked x y z w);
  tidy_Revocations_DeleteExpired n : tidy n Revocations_DeleteExpired;
  tidy_Consents_Upsert n x : tidy n (Consents_Upsert x);
  tidy_Consents_Get n x y : tidy n (Consents_Get x y);
  tidy_Consents_ListByUserID n x : tidy n (Consents_ListByUserID x);
  tidy_Consents_Delete n x y : tidy n (Consents_Delete x y);
  tidy_Consents_DeleteByUserID n x : tidy n (Consents_DeleteByUserID x);
  tidy_Passkeys_Create n x : tidy n (Passkeys_Create x);
  tidy_Passkeys_ListByUserID n x : tidy n (Passkeys_ListByUserID x);
  tidy_Passkeys_Update n x : tidy n (Passkeys_Update x);
  tidy_Passkeys_Delete n x y : tidy n (Passkeys_Delete x y);
  tidy_Passkeys_DeleteByUserID n x : tidy n (Passkeys_DeleteByUserID x);
  tidy_Verification_Create n x : tidy n (Verification_Create x);
  tidy_Verification_GetByHash n x : tidy n (Verification_GetByHash x);
  tidy_Verification_MarkUsed n x : tidy n (Verification_MarkUsed x);
  tidy_Verification_DeleteByUserID n x y : tidy n (Verification_DeleteByUserID x y);
  tidy_Verification_DeleteExpired n : tidy n Verification_DeleteExpired;
  tidy_Groups_Create n x : tidy n (Groups_Create x);
  tidy_Groups_GetByID n x : tidy n (Groups_GetByID x);
  tidy_Groups_GetByName n x : tidy n (Groups_GetByName x);
  tidy_Groups_Update n x : tidy n (Groups_Update x);
  tidy_Groups_Delete n x : tidy n (Groups_Delete x);
  tidy_Groups_List n : tidy n Groups_List;
  tidy_Groups_AddMember n x y : tidy n (Groups_AddMember x y);
  tidy_Groups_RemoveMember n x y : tidy n (Groups_RemoveMember x y);
  tidy_Groups_MemberIDs n x : tidy n (Groups_MemberIDs x);
  tidy_Groups_GroupsForUser n x : tidy n (Groups_GroupsForUser x);
  tidy_Groups_RemoveUser n x : tidy n (Groups_RemoveUser x);
  tidy_Audit_Append n x : tidy n (Audit_Append x);
  tidy_Audit_List n x : tidy n (Audit_List x);
  tidy_Audit_DeleteBefore n x : tidy n (Audit_DeleteBefore x);
  tidy_SigningKeys_Create n x : tidy n (SigningKeys_Create x);
  tidy_SigningKeys_GetByID n x : tidy n (SigningKeys_GetByID x);
  tidy_SigningKeys_GetActive n : tidy n SigningKeys_GetActive;
  tidy_SigningKeys_GetAll n : tidy n SigningKeys_GetAll;
  tidy_SigningKeys_SetActive n x : tidy n (SigningKeys_SetActive x);
  tidy_SigningKeys_Delete n x : tidy n (SigningKeys_Delete x);
  tidy_Keys_GetByID n x : tidy n (Keys_GetByID x);
  tidy_Keys_GetActive n : tidy n Keys_GetActive;
  tidy_Keys_GetAll n : tidy n Keys_GetAll;
  tidy_Keys_Save n x : tidy n (Keys_Save x);
  tidy_Keys_SetActive n x : tidy n (Keys_SetActive x);
  tidy_Keys_Delete n x : tidy n (Keys_Delete x);
}.
#[export] Hint Resolve tidy_Users_Create tidy_Users_GetByID tidy_Users_GetByEmail tidy_Users_Update 
tidy_Users_Delete tidy_Users_List tidy_Clients_Create tidy_Clients_GetByID tidy_Clients_Update tidy_Clients_Delete 
tidy_Clients_List tidy_Sessions_Create tidy_Sessions_GetByID tidy_Sessions_Delete tidy_Sessions_DeleteByUserID 
tidy_Sessions_DeleteExpired tidy_Sessions_ListByUserID tidy_AuthCodes_Create tidy_AuthCodes_GetByCode 
tidy_AuthCodes_MarkUsed tidy_AuthCodes_Delete tidy_AuthCodes_DeleteExpired tidy_Tokens_Create tidy_Tokens_GetByID 
tidy_Tokens_Revoke tidy_Tokens_RevokeByUserID tidy_Tokens_RevokeByClientID tidy_Tokens_Rotate 
tidy_Tokens_DeleteExpired tidy_Tokens_ListByUserID tidy_Revocations_RevokeAccessToken tidy_Revocations_RevokeBefore 
tidy_Revocations_IsRevoked tidy_Revocations_DeleteExpired tidy_Consents_Upsert tidy_Consents_Get 
tidy_Consents_ListByUserID tidy_Consents_Delete tidy_Consents_DeleteByUserID tidy_Passkeys_Create 
tidy_Passkeys_ListByUserID tidy_Passkeys_Update tidy_Passkeys_Delete tidy_Passkeys_DeleteByUserID 
tidy_Verification_Create tidy_Verification_GetByHash tidy_Verification_MarkUsed tidy_Verification_DeleteByUserID 
tidy_Verification_DeleteExpired tidy_Groups_Create tidy_Groups_GetByID tidy_Groups_GetByName tidy_Groups_Update 
tidy_Groups_Delete tidy_Groups_List tidy_Groups_AddMember tidy_Groups_RemoveMember tidy_Groups_MemberIDs 
tidy_Groups_GroupsForUser tidy_Groups_RemoveUser tidy_Audit_Append tidy_Audit_List tidy_Audit_DeleteBefore
tidy_SigningKeys_Create tidy_SigningKeys_GetByID tidy_SigningKeys_GetActive tidy_SigningKeys_GetAll
tidy_SigningKeys_SetActive tidy_SigningKeys_Delete tidy_Keys_GetByID tidy_Keys_GetActive tidy_Keys_GetAll tidy_Keys_Save
  tidy_Keys_SetActive tidy_Keys_Delete : tidy.

#[export] Instance FileStoreTidy `{UnicodeTables} : @StoreTidy FileStore.
Proof.
  constructor; intros; unfold
    Users_Create, Users_GetByID, Users_GetByEmail, Users_Update, Users_Delete, Users_List, Clients_Create,
    Clients_GetByID, Clients_Update, Clients_Delete, Clients_List, Sessions_Create, Sessions_GetByID,
    Sessions_Delete, Sessions_DeleteByUserID, Sessions_DeleteExpired, Sessions_ListByUserID,
    AuthCodes_Create, AuthCodes_GetByCode, AuthCodes_MarkUsed, AuthCodes_Delete, AuthCodes_DeleteExpired,
    Tokens_Create, Tokens_GetByID, Tokens_Revoke, Tokens_RevokeByUserID, Tokens_RevokeByClientID,
    Tokens_Rotate, Tokens_DeleteExpired, Tokens_ListByUserID, Revocations_RevokeAccessToken,
    Revocations_RevokeBefore, Revocations_IsRevoked, Revocations_DeleteExpired, Consents_Upsert,
    Consents_Get, Consents_ListByUserID, Consents_Delete, Consents_DeleteByUserID, Passkeys_Create,
    Passkeys_ListByUserID, Passkeys_Update, Passkeys_Delete, Passkeys_DeleteByUserID, Verification_Create,
    Verification_GetByHash, Verification_MarkUsed, Verification_DeleteByUserID, Verification_DeleteExpired,
    Groups_Create, Groups_GetByID, Groups_GetByName, Groups_Update, Groups_Delete, Groups_List,
    Groups_AddMember, Groups_RemoveMember, Groups_MemberIDs, Groups_GroupsForUser, Groups_RemoveUser,
    Audit_Append, Audit_List, Audit_DeleteBefore, SigningKeys_Create, SigningKeys_GetByID, SigningKeys_GetActive,
    SigningKeys_GetAll, SigningKeys_SetActive, SigningKeys_Delete, Keys_GetByID, Keys_GetActive, Keys_GetAll, Keys_Save, Keys_SetActive, Keys_Delete,
    FileStore;
  cbv iota beta; tidy.
Qed.

(** ** The services *)

Section services.
Context `{StoreTidy} `{UnicodeTables} `{KeyLib} `{JwtLib} `{Argon2} `{WebAuthn}.

Lemma tidy_revoke_each m clientID l : tidy m (revoke_each clientID l).
Proof. induction l as [|t l IH]; cbn [revoke_each]; tidy; apply IH. Qed.
Lemma tidy_publish m l : tidy m (publish l).
Proof. induction l as [|k l IH]; cbn [publish]; tidy; apply IH. Qed.
Lemma tidy_delete_expired m l : tidy m (delete_expired l).
Proof. induction l as [|k l IH]; cbn [delete_expired]; tidy; apply IH. Qed.
Lemma tidy_record_use m id raw l : tidy m (record_use id raw l).
Proof. induction l as [|p l IH]; cbn [record_use]; tidy; apply IH. Qed.
Lemma tidy_recovery_codes m n : tidy m (recovery_codes n).
Proof. induction n as [|n IH]; cbn [recovery_codes]; tidy; apply IH. Qed.
Lemma tidy_delete_others m c l : tidy m (delete_others c l).
Proof. induction l as [|t l IH]; cbn [delete_others]; tidy; apply IH. Qed.
Lemma tidy_revoke_tokens_of m c l : tidy m (revoke_tokens_of c l).
Proof. induction l as [|t l IH]; cbn [revoke_tokens_of]; tidy; apply IH. Qed.
Lemma tidy_count_members m l : tidy m (count_members l).
Proof. induction l as [|t l IH]; cbn [count_members]; tidy; apply IH. Qed.
Lemma tidy_load_members m l : tidy m (load_members l).
Proof. induction l as [|t l IH]; cbn [load_members]; tidy; apply IH. Qed.
Lemma tidy_apply_groups m u wanted l : tidy m (apply_groups u wanted l).
Proof. induction l as [|t l IH]; cbn [apply_groups]; tidy; apply IH. Qed.
End services.
#[export] Hint Resolve tidy_revoke_each tidy_publish tidy_delete_expired tidy_record_use tidy_recovery_codes
  tidy_delete_others tidy_revoke_tokens_of tidy_count_members tidy_load_members tidy_apply_groups : tidy.

Section handlers.
Context `{StoreTidy} `{UnicodeTables} `{KeyLib} `{JwtLib} `{Argon2} `{WebAuthn} `{Chi} (s : Server).
Context (files prometheus : Handler) (pg : option Handler) (n : nat) (Hn : (n <= 1)%nat).

Definition orderly (h : Handler) : Prop := forall r, tidy n (h r).

Abbreviation all_orderly l := (Forall (fun rt => orderly (rt_Handler rt)) l).

Ltac orderly_routes := repeat (constructor; [cbv [rt_Handler Get Post Handle limited_by]; intros ?; tidy|]); constructor.

Lemma orderly_discovery : all_orderly (discovery_routes s).
Proof. unfold discovery_routes, when. do 2 case_match; orderly_routes. Qed.
Lemma orderly_login auth : all_orderly (login_routes s auth).
Proof. orderly_routes. Qed.
Lemma orderly_reset auth : all_orderly (reset_routes s auth).
Proof. unfold reset_routes. destruct (sv_accountService s) as [[accounts t]|]; orderly_routes. Qed.
Lemma orderly_oidc auth : all_orderly (oidc_routes s auth).
Proof. unfold oidc_routes. destruct (sv_oidc s) as [[codeTTL t]|]; orderly_routes. Qed.
Lemma orderly_landing : orderly (LandingPage s).
Proof. intros r. tidy. Qed.
Lemma orderly_account auth : all_orderly (account_routes s auth).
Proof. unfold account_routes, when. case_match; [|constructor]. unfold Account_Routes. cbv [map]. orderly_routes. Qed.
Lemma orderly_admin cfg : Forall (fun '(_, _, h) => forall r admin, tidy n (h r admin)) (admin_handlers cfg).
Proof. unfold admin_handlers. repeat (constructor; [cbv beta iota; tidy|]); constructor. Qed.

(** What serves files and metrics, tells whether the server is ready and
    counts requests uses none of the program's mutexes. *)
Definition parts_tidy : Prop :=
  (forall r, tidy 2 (files r)) /\ (forall r, tidy 2 (prometheus r)) /\
  (forall check, sv_readinessCheck s = Some check -> tidy 2 check) /\
  forall limit window r, tidy 2 (httprate_Limit limit window r).

Context (Hparts : parts_tidy) (Hpg : forall h, pg = Some h -> orderly h).

Lemma tidy_part {A} (p : Prog A) : tidy 2 p -> tidy n p.
Proof. apply tidy_weaken. lia. Qed.

Lemma orderly_limiter c h : orderly h -> orderly (limiter s c h).
Proof.
  intros Hh r. unfold limiter. destruct (limit_of s c); [|apply Hh].
  apply tidy_bind; [apply tidy_part, Hparts|]. intros ok. destruct ok; [apply Hh|]. tidy.
Qed.

Lemma orderly_ServeHTTP prefix l : all_orderly l -> orderly (ServeHTTP s prefix l).
Proof.
  intros Hl r. unfold ServeHTTP. destruct (match_route _ _ _ _) as [i vars|resp]; [|apply tidy_ret].
  destruct (l !! i) as [rt|] eqn:Hi; [|apply tidy_ret]. apply orderly_limiter.
  by apply (Forall_lookup_1 _ _ _ _ Hl Hi).
Qed.

Lemma orderly_health : all_orderly (health_routes s prometheus).
Proof.
  destruct Hparts as (_ & Hprom & Hcheck & _). unfold health_routes.
  assert (orderly (Readyz (NewHealthHandler (sv_readinessCheck s)))) as Hr.
  { intros r. unfold Readyz. apply tidy_bind; [|tidy]. cbn. destruct (sv_readinessCheck s) as [check|]; [|tidy].
    apply tidy_bind; [by apply tidy_part, Hcheck|tidy]. }
  constructor; [intros r; cbn; tidy|]. constructor; [exact Hr|]. unfold when. case_match; repeat constructor. intros r. by apply tidy_part.
Qed.

Lemma orderly_static : all_orderly (static_routes files).
Proof.
  assert (orderly files) as Hf by (intros r; apply tidy_part, Hparts). assert (orderly (StaticHandler files)) as Hs.
  { intros r. unfold StaticHandler. apply tidy_bind; [tidy|]. intros []. apply Hf. }
  constructor; [|constructor; [|constructor]]; intros r; cbv [rt_Handler Handle StripPrefix FaviconHandler];
    [case_match; [apply Hs|tidy]|apply Hs].
Qed.

Lemma orderly_playground : all_orderly (playground_routes s pg).
Proof.
  unfold playground_routes, when. destruct pg as [h|]; [|constructor]. case_match; repeat constructor; by apply Hpg.
Qed.

Lemma orderly_admin_router cfg : orderly (admin_router s pg cfg).
Proof.
  intros r. unfold admin_router.
  assert (forall admin r, tidy n (ServeHTTP s "/admin"
    (map (fun '(method, pattern, handler) =>
       Build_Route (Some method) pattern NoLimit (fun r => handler r admin)) (admin_handlers (admin_config s pg cfg))) r))
    as Hin.
  { intros admin. apply orderly_ServeHTTP, Forall_map.
    eapply List.Forall_impl; [|apply orderly_admin]. intros [[m p] h] Hh r'. apply Hh. }
  unfold requireAdmin. tidy.
Qed.

Lemma orderly_admin_routes : all_orderly (admin_routes s pg).
Proof.
  unfold admin_routes. destruct (sv_adminConfig s) as [cfg|]; [|constructor].
  repeat constructor; apply orderly_admin_router.
Qed.

Lemma orderly_routes_all : all_orderly (routes s files prometheus pg).
Proof.
  unfold routes. apply Forall_app_2; [apply orderly_health|]. apply Forall_app_2; [apply orderly_discovery|].
  apply Forall_app_2; [apply orderly_static|]. apply Forall_app_2.
  { destruct (sv_authService s); [|constructor]. apply Forall_app_2; [apply orderly_login|].
    apply Forall_app_2; [apply orderly_reset|apply orderly_oidc]. }
  constructor; [exact orderly_landing|]. apply Forall_app_2; [apply orderly_playground|].
  destruct (sv_authService s); [|constructor]. apply Forall_app_2; [apply orderly_account|apply orderly_admin_routes].
Qed.

Lemma orderly_passes mw h : passes_on mw -> orderly h -> orderly (mw h).
Proof. intros [f Hf] Hh r. rewrite Hf. apply tidy_bind; [apply Hh|]. intros resp; apply tidy_ret. Qed.

Lemma orderly_security tls h : orderly h -> orderly (with_security s tls h).
Proof. intros Hh r. unfold with_security. case_match; [|apply Hh]. tidy. Qed.
Lemma orderly_cors h : orderly h -> orderly (with_cors s h).
Proof. intros Hh r. unfold with_cors. repeat case_match; [|apply Hh..]. tidy. Qed.
Lemma orderly_metrics h : orderly h -> orderly (with_metrics s h).
Proof. intros Hh r. unfold with_metrics. case_match; [|apply Hh]. tidy. Qed.

Lemma orderly_server `{!Env} `{!ChiLaws} tls : orderly (NewServer s files prometheus pg tls).
Proof.
  unfold NewServer. apply orderly_passes; [apply RequestID_passes|]. intros r. unfold RealIPFromTrustedProxies.
  generalize (real_request (sv_trustedProxies s) r). clear r.
  change (orderly (Recoverer (Timeout (30 * Second) (with_security s tls (with_cors s (with_metrics s
    (ServeHTTP s "" (routes s files prometheus pg)))))))).
  destruct Recoverer_passes as (f & _ & Hrec). apply orderly_passes; [by exists f|].
  apply orderly_passes; [apply Timeout_passes|]. apply orderly_security, orderly_cors, orderly_metrics.
  apply orderly_ServeHTTP, orderly_routes_all.
Qed.

End handlers.

(** ** The playground *)

Lemma tidy_recorded {A} n (p : Prog A) : tidy n p -> tidy n (recorded p).
Proof.
  unfold tidy. generalize ([] : list mutex). induction p as [a|X e k IH]; intros hs Hp; [done|].
  destruct e as [| |l|l| | | | | | | |[]]; cbn in *; try (intros x; by apply IH).
  - destruct Hp as [Hl Hp]. split; [done|]. intros x. by apply IH.
  - destruct Hp as (hs' & -> & Hp). exists hs'. split; [done|]. intros x. by apply IH.
Qed.

Section playground.
Context `{StoreTidy} `{UnicodeTables} `{KeyLib} `{JwtLib} `{Argon2} `{WebAuthn} `{Chi} `{PlaygroundLib} (s : Server).
Context (files prometheus : Handler) (Hparts : parts_tidy s files prometheus) (h : PlaygroundHandler).

(** Its pages ask the server, the page of tokens under [mu]. *)
Lemma orderly_playground_handlers router :
  orderly 1 router -> Forall (fun '(_, _, p) => orderly 0 p) (playground_handlers router h).
Proof.
  intros Hrouter. assert (forall n rq, (n <= 1)%nat -> tidy n (pg_do router rq)) as Hdo.
  { intros n rq Hn. unfold pg_do. apply tidy_bind; [|tidy]. apply tidy_recorded. by eapply tidy_weaken. }
  unfold playground_handlers.
  repeat (constructor; [cbv beta iota; intros r; tidy|]); constructor.
Qed.

Context `{!Env} `{!ChiLaws}.

Lemma orderly_inner tls : orderly 1 (self_server s files prometheus 0 h tls).
Proof. cbn [self_server]. eapply orderly_server; [lia|done|by intros g [= <-] r|done]. Qed.

Lemma orderly_self tls : orderly 0 (self_server s files prometheus 1 h tls).
Proof.
  cbn [self_server]. eapply orderly_server; [lia|done| |done].
  intros g [= <-]. unfold playground_router.
  eapply orderly_ServeHTTP; [lia|exact Hparts|].
  apply Forall_map. eapply List.Forall_impl; [|apply orderly_playground_handlers, orderly_inner]. by intros [[m p] g] Hg.
Qed.
End playground.

Section whole.
Context `{StoreTidy} `{UnicodeTables} `{KeyLib} `{JwtLib} `{Argon2} `{WebAuthn} `{Chi} `{PlaygroundLib} `{!Env} `{!ChiLaws}.
Context (s : Server) (files prometheus : Handler) (Hparts : parts_tidy s files prometheus).

Lemma orderly_serving mounted tls : orderly 0 (serving s files prometheus mounted tls).
Proof. destruct mounted as [h|]; [by eapply orderly_self|]. eapply orderly_server; [lia|done..]. Qed.

Context (m : Runner) (Hcheckpoint : forall c, mt_checkpoint m = Some c -> tidy 2 c).

Lemma tidy_RunOnce : tidy 0 (RunOnce m).
Proof.
  unfold RunOnce. assert (Forall (tidy 0) (tasks m)) as Hall.
  { unfold tasks. destruct (mt_checkpoint m) as [c|] eqn:Hc.
    - repeat (apply List.Forall_cons; [tidy|]); try apply List.Forall_nil. by eapply tidy_weaken, Hcheckpoint; [lia|].
    - repeat (apply List.Forall_cons; [tidy|]); apply List.Forall_nil. }
  induction Hall as [|p l Hp _ IH]; cbn [run_tasks]; tidy; done.
Qed.

End whole.
