(* ===== verification/SqliteFacts.v ===== *)
(** * What the SQLite store promises

    It keeps to the discipline of [Completion]; its operations do to a table
    what those of the file store do to a file ([stores_agree]); and the index
    that allows one active signing key stands in the way of no write of keys
    ([active_key_kept]). *)
From S2P Require Import Prelude GoTime GoText GoUrl Encoding Errors Domain Database Lockout PendingLogins World Run Metrics Store.
From S2P Require Import FileStore FileLaws StoreFacts Exec Sqlite Keys Password Jwt Totp Csrf Session AuthService Passkeys Account Authorize TokenService.
From S2P Require Import TokenFacts KeyRotation Interleaving Http Middleware Server Completion.
#[local] Open Scope Z_scope.
#[local] Open Scope go_scope.

#[export] Instance SQLiteStoreTidy `{Sqlite} : @StoreTidy SQLiteStore.
Proof.
  constructor; intros; unfold
    Users_Create, Users_GetByID, Users_GetByEmail, Users_Update, Users_Delete, Users_List, Clients_Create,
    Clients_GetByID, Clients_Update, Clients_Delete, Clients_List, Sessions_Create, Sessions_GetByID,
    Sessions_Delete, Sessions_DeleteByUserID, Sessions_DeleteExpired, Sessions_ListByUserID,
    AuthCodes_Create, AuthCodes_GetByCode, AuthCodes_MarkUsed, AuthCodes_Delete, AuthCodes_DeleteExpired,
    Tokens_Create, Tokens_GetByID, Tokens_Revoke, Tokens_RevokeByUserID, Tokens_RevokeByClientID,
    Tokens_Rotate, Tokens_DeleteExpired, Tokens_ListByUserID, Revocations_RevokeAccessToken,
    Revocations_RevokeBefore, Revocations_IsRevoked, Revocations_DeleteExpired, Consents_Upsert,
    Consents_Get, Consents_ListByUserID, Consents_Delete, Consents_DeleteByUserID, Passkeys_Create,
    Passkeys_ListByUserID, Passkeys_Update, Passkeys_Delete, Passkeys_DeleteByUserID, Verification_Create,
    Verification_GetByHash, Verification_MarkUsed, Verification_DeleteByUserID, Verification_DeleteExpired,
    Groups_Create, Groups_GetByID, Groups_GetByName, Groups_Update, Groups_Delete, Groups_List,
    Groups_AddMember, Groups_RemoveMember, Groups_MemberIDs, Groups_GroupsForUser, Groups_RemoveUser,
    Audit_Append, Audit_List, Audit_DeleteBefore, SigningKeys_Create, SigningKeys_GetByID, SigningKeys_GetActive,
    SigningKeys_GetAll, SigningKeys_SetActive, SigningKeys_Delete, Keys_GetByID, Keys_GetActive, Keys_GetAll, Keys_Save, Keys_SetActive, Keys_Delete,
    SQLiteStore;
  cbv iota beta; tidy.
Qed.

(** ** The operations as functions of rows *)

(** A statement that picks a row by a key picks one at most. *)
Definition at_most_one {A} (p : A -> bool) (l : list A) : Prop := (length (List.filter p l) <= 1)%nat.

Lemma picked_same {A} (p : A -> bool) l x y :
  at_most_one p l -> In x l -> In y l -> p x = true -> p y = true -> x = y.
Proof.
  unfold at_most_one. intros Hone Hx Hy Hpx Hpy.
  assert (In x (List.filter p l)) as Hx' by by apply List.filter_In.
  assert (In y (List.filter p l)) as Hy' by by apply List.filter_In.
  destruct (List.filter p l) as [|z [|z' l']]; [done| |cbn in Hone; lia].
  destruct Hx' as [<-|[]], Hy' as [<-|[]]. done.
Qed.

Lemma unpicked {A} (p : A -> bool) l : List.filter p l = [] ->
  find_first p l = None /\ (forall f, map (fun x => if p x then f x else x) l = l) /\ List.filter (fun x => negb (p x)) l = l.
Proof.
  induction l as [|x l IH]; cbn; [done|]. destruct (p x); [done|]. intros (Hf & Hm & Hd)%IH.
  cbn. split; [done|]. split; [intros f; by rewrite Hm|by rewrite Hd].
Qed.

Lemma one_picked {A} (p : A -> bool) l : at_most_one p l ->
  (forall f, map (fun x => if p x then f x else x) l = default l (replace_first p f l)) /\
  List.filter (fun x => negb (p x)) l = default l (remove_first p l).
Proof.
  unfold at_most_one. induction l as [|x l IH]; cbn; [done|]. destruct (p x) eqn:Hp; cbn; intros Hl.
  - assert (List.filter p l = []) as Hn by (destruct (List.filter p l); [done|cbn in Hl; lia]).
    apply unpicked in Hn as (_ & Hm & Hd). split; [intros f; by rewrite Hm|done].
  - destruct (IH Hl) as [Hm Hd]. split; [intros f; rewrite Hm; by destruct (replace_first p f l)|].
    rewrite Hd. by destruct (remove_first p l).
Qed.

Lemma picked_found {A} (p : A -> bool) l :
  rowsAffected (Z.of_nat (length (List.filter p l))) = bool_decide (is_Some (find_first p l)).
Proof.
  induction l as [|x l IH]; [done|]. cbn [List.filter find_first]. destruct (p x) eqn:Hp; [|done].
  rewrite (bool_decide_true (is_Some (Some x))) by done. unfold rowsAffected. cbn [length]. apply Z.ltb_lt. lia.
Qed.

Lemma picks_one {A} (T : Table A) (c : constraint A) p db :
  intact db -> c ∈ constraints T -> (forall x y, p x = true -> p y = true -> clash c x y = true) ->
  at_most_one p (rows T db).
Proof.
  intros [Hu _] Hc Hp. specialize (Hu _ T). rewrite violations_none in Hu. specialize (Hu c Hc).
  unfold at_most_one. induction (rows T db) as [|x l IH]; cbn in *; [lia|].
  apply orb_false_iff in Hu as [Hx Hl]. destruct (p x) eqn:Hpx; [|by apply IH]. cbn.
  destruct (List.filter p l) as [|y l'] eqn:Hf; [cbn; lia|]. exfalso. apply not_true_iff_false in Hx. apply Hx.
  apply existsb_exists. exists y. assert (In y (List.filter p l)) as [Hy Hpy]%List.filter_In by (rewrite Hf; by left).
  split; [done|by apply Hp].
Qed.

Lemma drop_nothing {A} (T : Table A) db : drop_referring T [] db = db.
Proof.
  assert (forall B (T' : Table B) l, List.filter (fun x => negb (existsb (fun r => bool_decide (r ∈ [])) (references T' x))) l = l)
    as Hall.
  { intros B T' l. induction l as [|x l IH]; [done|]. cbn [List.filter].
    assert (existsb (fun r => bool_decide (r ∈ [])) (references T' x) = false) as ->; [|cbn; by rewrite IH].
    apply not_true_iff_false. rewrite existsb_exists. intros (r & _ & Hr%bool_decide_eq_true). by apply elem_of_nil in Hr. }
  unfold drop_referring. rewrite Hall. by destruct T, db.
Qed.

(** A table no row refers to. *)
Definition childless {A} (T : Table A) : Prop := forall x, parent_key T x = None.

Lemma DELETE_childless `{Sqlite} {A} (T : Table A) p db : childless T ->
  DELETE T p db = inr (Z.of_nat (length (List.filter p (rows T db))),
                       set_rows T (List.filter (fun x => negb (p x)) (rows T db)) db).
Proof.
  intros Hc. unfold DELETE. assert (forall l, omap (parent_key T) l = []) as Hn.
  { intros l. induction l as [|x l IH]; [done|]. cbn. by rewrite Hc. }
  unfold cascade. rewrite Hn, !drop_nothing. by destruct (db_foreign_keys db).
Qed.

(** A change of rows that leaves the columns under constraints alone. *)
Lemma violates_map {A} (c : constraint A) (p : A -> bool) (f : A -> A) l :
  (forall x, p x = true -> uq_key c (f x) = uq_key c x) ->
  violates c (map (fun x => if p x then f x else x) l) = violates c l.
Proof.
  intros Hf. assert (forall x, uq_key c (if p x then f x else x) = uq_key c x) as Hk.
  { intros x. destruct (p x) eqn:Hp; [by apply Hf|done]. }
  induction l as [|x l IH]; cbn; [done|]. rewrite IH. f_equal. clear IH.
  induction l as [|y l IH]; cbn; [done|]. rewrite IH. f_equal. unfold clash. by rewrite !Hk.
Qed.

Definition same_columns {A} (T : Table A) (p : A -> bool) (f : A -> A) : Prop :=
  forall c x, c ∈ constraints T -> p x = true -> uq_key c (f x) = uq_key c x.

Lemma UPDATE_changes `{Sqlite} {A} (T : Table A) p f db : intact db -> same_columns T p f ->
  UPDATE T p f db = inr (Z.of_nat (length (List.filter p (rows T db))),
                         set_rows T (map (fun x => if p x then f x else x) (rows T db)) db).
Proof.
  intros [Hu _] Hf. unfold UPDATE, checked.
  assert (violations T (map (fun x => if p x then f x else x) (rows T db)) = []) as ->; [|done].
  apply violations_none. intros c Hc. rewrite violates_map by (intros x; by apply Hf).
  exact (proj1 (violations_none _ _) (Hu _ T) c Hc).
Qed.

Section shapes.
Context `{Env} `{Sqlite}.

(** The statement failed. *)
Definition db_fault (w w' : World) : Prop := exists n, (w_tick w <= n < w_tick w')%nat /\ env_io n <> IoOk.

(** What [qry] and [upd] say of the file of a collection, of a table; a
    failed write leaves the database as it was. *)
Definition t_qry {A B} (T : Table A) (f : Z -> list A -> res B) (w : World) (r : res B) (w' : World) : Prop :=
  same_disk w w' /\ calm w w' /\ w_db w' = w_db w /\
  ((exists t, instant w w' t /\ r = f t (rows T (w_db w))) \/
   (exists e, r = Err e /\ storage_error e /\ db_fault w w')).

Definition t_upd {A B} (T : Table A) (f : Z -> string -> list A -> res (list A * B))
    (w : World) (r : res B) (w' : World) : Prop :=
  same_disk w w' /\ calm w w' /\
  ((exists t u, instant w w' t /\
      match f t u (rows T (w_db w)) with
      | Ok (l, b) => r = Ok b /\ w_db w' = set_rows T l (w_db w)
      | Err e => r = Err e /\ w_db w' = w_db w
      end) \/
   (exists e, r = Err e /\ db_fault w w' /\ w_db w' = w_db w)).

Lemma wp_sql {X} (f : Z -> Tx X) w (Q : SqlErr + X -> World -> Prop) :
  (env_io (w_tick w) <> IoOk -> Q (inl Failed) (ticked 1 w)) ->
  (env_io (w_tick w) = IoOk ->
   match f (env_clock (w_tick w)) (w_db w) with
   | inr (x, db) => Q (inr x) (ticked 1 (with_db db w))
   | inl e => Q (inl e) (ticked 1 w)
   end) ->
  wp (sql f) w Q.
Proof.
  intros Hf Hok. unfold wp, sql. rewrite run_trigger. cbn. destruct (env_io (w_tick w)); [|by apply Hf..].
  specialize (Hok eq_refl). by destruct (f _ _) as [e|[x db]].
Qed.

(** Worlds that differ in the database and the time. *)
Lemma ticks_same n w db : same_disk w (ticked n (with_db db w)) /\ calm w (ticked n (with_db db w)).
Proof. split; [split|split_and!]; cbn; try done; lia. Qed.
Lemma ticks_same' n w : same_disk w (ticked n w) /\ calm w (ticked n w).
Proof. split; [split|split_and!]; cbn; try done; lia. Qed.
Lemma instant_here n w db : instant w (ticked n (with_db db w)) (env_clock (w_tick w)).
Proof. exists (w_tick w). split; [cbn; lia|done]. Qed.

Lemma row_read {A} (T : Table A) p missing m w :
  wp (let! r := sql (fun _ => SELECT_row T p) in Ret (scanned missing m r)) w (t_qry T (rows_find p missing) w).
Proof.
  apply wp_bind, wp_sql; intros Hio; [|unfold SELECT_row; cbn].
  - apply wp_ret. destruct (ticks_same' 1 w) as [Hs Hc]. split_and!; [done..|]. right. eexists. split; [done|].
    split; [by right|]. exists (w_tick w). split; [cbn; lia|done].
  - apply wp_ret. destruct (ticks_same 1 w (w_db w)) as [Hs Hc]. split_and!; [done..|]. left.
    exists (env_clock (w_tick w)). split; [apply instant_here|]. unfold rows_find, find_or. by destruct (find_first _ _).
Qed.
End shapes.

(** Side conditions on worlds a few ticks apart. *)
Ltac worlds :=
  lazymatch goal with
  | |- same_disk _ _ => split; [cbn; lia|done]
  | |- calm _ _ => split_and!; cbn; [lia|done..]
  | |- instant _ _ _ => eexists; split; [|reflexivity]; cbn; lia
  | |- db_fault _ _ => eexists; split; [|eassumption]; cbn; lia
  | |- _ => done
  end.

Section operations.
Context `{Env} `{Sqlite}.

(** What a statement's success or failure says, however long the program ran
    before it. *)
Lemma qry_here {A B} (T : Table A) (f : Z -> list A -> res B) t w w' :
  same_disk w w' -> calm w w' -> w_db w' = w_db w -> instant w w' t -> t_qry T f w (f t (rows T (w_db w))) w'.
Proof. intros. split_and!; [done..|]. left. by exists t. Qed.

Lemma upd_here {A B} (T : Table A) (f : Z -> string -> list A -> res (list A * B)) l b w w' t :
  same_disk w w' -> calm w w' -> instant w w' t -> f t "" (rows T (w_db w)) = Ok (l, b) ->
  w_db w' = set_rows T l (w_db w) -> t_upd T f w (Ok b) w'.
Proof. intros Hs Hc Ht Hf Hdb. split_and!; [done..|]. left. exists t, "". by rewrite Hf. Qed.

Lemma upd_refused {A B} (T : Table A) (f : Z -> string -> list A -> res (list A * B)) e w w' t :
  same_disk w w' -> calm w w' -> instant w w' t -> f t "" (rows T (w_db w)) = Err e ->
  w_db w' = w_db w -> t_upd T f w (Err e) w'.
Proof. intros Hs Hc Ht Hf Hdb. split_and!; [done..|]. left. exists t, "". by rewrite Hf. Qed.

Lemma upd_failed {A B} (T : Table A) (f : Z -> string -> list A -> res (list A * B)) e w w' :
  same_disk w w' -> calm w w' -> db_fault w w' -> w_db w' = w_db w -> t_upd T f w (Err e) w'.
Proof. intros. split_and!; [done..|]. right. by exists e. Qed.

Lemma set_same_rows {A} (T : Table A) db : set_rows T (rows T db) db = db.
Proof. by destruct T, db. Qed.

Lemma list_read {A} (T : Table A) (p : Z -> A -> bool) less m w :
  wp (let! t := now in let! r := sql (fun _ => SELECT T (p t)) in Ret (listed (sort_by less) m r)) w
     (t_qry T (rows_select p less) w).
Proof.
  apply wp_bind, wp_now, wp_bind, wp_sql; intros Hio; apply wp_ret.
  - split_and!; [worlds..|]. right. eexists. split; [done|]. split; [by right|worlds].
  - apply (qry_here T (rows_select p less) (env_clock (w_tick w)) w); worlds.
Qed.

Lemma delete_where {A} (T : Table A) p m w : childless T ->
  wp (let! r := sql (fun _ => DELETE T p) in Ret (done_or tt (internal m) r)) w
     (t_upd T (rows_keep (fun _ x => negb (p x))) w).
Proof.
  intros Hc. apply wp_bind, wp_sql; intros Hio; [|rewrite DELETE_childless by done]; apply wp_ret.
  - apply upd_failed; worlds.
  - eapply (upd_here _ _ _ _ _ _ (env_clock (w_tick w))); [worlds..|reflexivity|done].
Qed.

Lemma delete_expired {A} (T : Table A) (expiry : A -> Z) m w : childless T ->
  wp (let! t := now in let! r := sql (fun _ => DELETE T (fun x => expiry x <=? t)) in Ret (done_or tt (internal m) r)) w
     (t_upd T (rows_keep (fun t x => After (expiry x) t)) w).
Proof.
  intros Hc. apply wp_bind, wp_now, wp_bind, wp_sql; intros Hio; [|rewrite DELETE_childless by done]; apply wp_ret.
  - apply upd_failed; worlds.
  - eapply (upd_here _ _ _ _ _ _ (env_clock (w_tick w))); [worlds..|reflexivity|]. cbn. f_equal.
    induction (rows T (w_db w)) as [|x l IH]; [done|]. cbn. unfold After at 1. rewrite Z.ltb_antisym.
    destruct (expiry x <=? _); cbn; by rewrite IH.
Qed.

Lemma delete_one {A} (T : Table A) (c : constraint A) p missing m w :
  intact (w_db w) -> childless T -> c ∈ constraints T ->
  (forall x y, p x = true -> p y = true -> clash c x y = true) ->
  wp (let! r := sql (fun _ => DELETE T p) in Ret (affected tt missing (internal m) r)) w
     (t_upd T (rows_remove p missing) w).
Proof.
  intros Hi Hl Hc Hp. destruct (one_picked p _ (picks_one T c p _ Hi Hc Hp)) as [_ Hd].
  apply wp_bind, wp_sql; intros Hio; [|rewrite DELETE_childless by done]; apply wp_ret.
  { apply upd_failed; worlds. }
  unfold affected. rewrite picked_found, Hd. case_bool_decide as Hf; destruct (remove_first p (rows T (w_db w))) as [l|] eqn:Hr.
  - eapply (upd_here _ _ _ _ _ _ (env_clock (w_tick w))); [worlds..| |done]. unfold rows_remove. by rewrite Hr.
  - apply remove_first_None in Hr. rewrite Hr in Hf. by destruct Hf.
  - exfalso. apply Hf. destruct (find_first p _) eqn:Hn; [done|]. apply remove_first_None in Hn. congruence.
  - eapply (upd_refused _ _ _ _ _ (env_clock (w_tick w))); [worlds..| |cbn; apply set_same_rows].
    unfold rows_remove. by rewrite Hr.
Qed.

(** One row is changed. *)
Lemma update_one {A} (T : Table A) (c : constraint A) p f missing m w :
  intact (w_db w) -> c ∈ constraints T -> same_columns T p f ->
  (forall x y, p x = true -> p y = true -> clash c x y = true) ->
  wp (let! r := sql (fun _ => UPDATE T p f) in Ret (affected tt missing (internal m) r)) w
     (t_upd T (rows_replace p (fun _ => f) (fun _ => tt) missing) w).
Proof.
  intros Hi Hc Hf Hp. destruct (one_picked p _ (picks_one T c p _ Hi Hc Hp)) as [Hm _].
  apply wp_bind, wp_sql; intros Hio; [|rewrite UPDATE_changes by done]; apply wp_ret.
  { apply upd_failed; worlds. }
  unfold affected. rewrite picked_found, Hm. case_bool_decide as Hx; destruct (replace_first p f (rows T (w_db w))) as [l|] eqn:Hr.
  - eapply (upd_here _ _ _ _ _ _ (env_clock (w_tick w))); [worlds..| |done]. unfold rows_replace. by rewrite Hr.
  - apply replace_first_None in Hr. rewrite Hr in Hx. by destruct Hx.
  - exfalso. apply Hx. destruct (find_first p _) eqn:Hn; [done|]. apply (replace_first_None p f) in Hn. congruence.
  - eapply (upd_refused _ _ _ _ _ (env_clock (w_tick w))); [worlds..| |cbn; apply set_same_rows].
    unfold rows_replace. by rewrite Hr.
Qed.

(** Consume once: the row with the key is changed if it is not spent. *)
Definition consume {A} (T : Table A) (p spent : A -> bool) (spend : A -> A) (m : string) (conflict missing : error)
    : Prog (res unit) :=
  let! r := sql (fun _ => UPDATE T (fun x => p x && negb (spent x)) spend) in
  match r with
  | inl e => ret_err (internal m e)
  | inr n =>
      if rowsAffected n then ret_ok tt
      else
        let! exists_ := sql (fun _ => COUNT T p) in
        ret_err (match exists_ with
                 | inr n => if 0 <? n then conflict else missing
                 | inl _ => missing
                 end)
  end.

Lemma unspent_found {A} (p spent : A -> bool) l x :
  at_most_one p l -> find_first p l = Some x ->
  forall f, default l (replace_first (fun x => p x && negb (spent x)) f l)
    = (if spent x then l else default l (replace_first p f l)) /\
    bool_decide (is_Some (find_first (fun x => p x && negb (spent x)) l)) = negb (spent x).
Proof.
  unfold at_most_one. intros Ho Hf f. induction l as [|y l IH]; [done|]. cbn in *. destruct (p y) eqn:Hp; cbn.
  - injection Hf as ->. destruct (spent x) eqn:Hs; cbn; [|done].
    assert (List.filter p l = []) as Hn by (destruct (List.filter p l); [done|cbn in Ho; lia]).
    assert (find_first (fun x => p x && negb (spent x)) l = None) as Hnone.
    { apply find_first_None. intros z Hz. destruct (p z) eqn:Hpz; [|done]. exfalso.
      assert (In z (List.filter p l)) as Hin by (apply List.filter_In; split; [by apply list_elem_of_In|done]).
      by rewrite Hn in Hin. }
    rewrite Hnone. rewrite (proj2 (replace_first_None _ f l)) by done. split; [done|]. by rewrite bool_decide_false by (by intros [? ?]).
  - destruct (IH Ho Hf) as [Hr Hb]. split; [|done]. revert Hr.
    destruct (replace_first (fun x => p x && negb (spent x)) f l), (replace_first p f l), (spent x); cbn; congruence.
Qed.

Lemma consume_one {A} (T : Table A) (c : constraint A) p spent spend m conflict missing w :
  intact (w_db w) -> c ∈ constraints T -> same_columns T p spend ->
  (forall x y, p x = true -> p y = true -> clash c x y = true) ->
  wp (consume T p spent spend m conflict missing) w (t_upd T (rows_consume p spent spend conflict missing) w).
Proof.
  intros Hi Hc Hf Hp. pose proof (picks_one T c p _ Hi Hc Hp) as Ho.
  assert (same_columns T (fun x => p x && negb (spent x)) spend) as Hf'.
  { intros c' x Hc' [Hx _]%andb_true_iff. by apply Hf. }
  assert (at_most_one (fun x => p x && negb (spent x)) (rows T (w_db w))) as Ho'.
  { apply (picks_one T c _ _ Hi Hc). intros x y [Hx _]%andb_true_iff [Hy _]%andb_true_iff. by apply Hp. }
  destruct (one_picked _ _ Ho') as [Hm _].
  apply wp_bind, wp_sql; intros Hio; [apply wp_ret, upd_failed; worlds|].
  rewrite UPDATE_changes, picked_found, Hm by done.
  destruct (find_first p (rows T (w_db w))) as [x|] eqn:Hfx.
  - destruct (unspent_found p spent _ _ Ho Hfx spend) as [-> ->]. destruct (spent x) eqn:Hs; cbn [negb].
    + rewrite set_same_rows. apply wp_bind, wp_sql; intros Hio'; apply wp_ret; [apply upd_failed; worlds|].
      eapply (upd_refused _ _ _ _ _ (env_clock (w_tick w))); [worlds..| |done]. unfold rows_consume. rewrite Hfx, Hs.
      cbn. pose proof (picked_found p (rows T (w_db w))) as Hn. rewrite Hfx in Hn. unfold rowsAffected in Hn.
      by rewrite Hn, bool_decide_true.
    + apply wp_ret. eapply (upd_here _ _ _ _ _ _ (env_clock (w_tick w))); [worlds..| |done].
      unfold rows_consume. by rewrite Hfx, Hs.
  - assert (forall f, replace_first (fun x => p x && negb (spent x)) f (rows T (w_db w)) = None) as Hr.
    { intros f. apply replace_first_None, find_first_None. intros y Hy. rewrite find_first_None in Hfx. by rewrite Hfx. }
    rewrite Hr. cbn [default]. rewrite set_same_rows.
    pose proof (Hr spend) as Hnone. apply replace_first_None in Hnone. rewrite Hnone, bool_decide_false by (by intros [? ?]).
    apply wp_bind, wp_sql; intros Hio'; apply wp_ret; [apply upd_failed; worlds|].
    eapply (upd_refused _ _ _ _ _ (env_clock (w_tick w))); [worlds..| |done]. unfold rows_consume. rewrite Hfx.
    cbn. pose proof (picked_found p (rows T (w_db w))) as Hn. rewrite Hfx in Hn. unfold rowsAffected in Hn.
    rewrite Hn. by rewrite bool_decide_false by (by intros [? ?]).
Qed.
End operations.

(** *** Watermarks *)

Lemma violates_app {A} (c : constraint A) l x :
  violates c l = false -> existsb (fun y => clash c y x) l = false -> violates c (l ++ [x]) = false.
Proof.
  induction l as [|y l IH]; cbn; [done|]. intros [Hy Hl]%orb_false_iff [Hc Hx]%orb_false_iff.
  rewrite existsb_app, Hy. cbn. by rewrite Hc, IH.
Qed.

Lemma same_row_clash kind key nb ex rv :
  clash kind_key rv {| rv_Kind := kind; rv_Key := key; rv_NotBefore := nb; rv_ExpiresAt := ex |} = same_row kind key rv.
Proof.
  unfold clash, same_row. cbn. destruct rv as [k k' n e]; cbn. repeat case_bool_decide; cbn; try done; naive_solver.
Qed.

Lemma raise_max nb ex rv :
  raise_revocation nb ex rv = {| rv_Kind := rv_Kind rv; rv_Key := rv_Key rv;
    rv_NotBefore := Z.max (rv_NotBefore rv) nb; rv_ExpiresAt := Z.max (rv_ExpiresAt rv) ex |}.
Proof.
  unfold raise_revocation, After. f_equal.
  - destruct (Z.ltb_spec (rv_NotBefore rv) nb); [by rewrite Z.max_r by lia|by rewrite Z.max_l by lia].
  - destruct (Z.ltb_spec (rv_ExpiresAt rv) ex); [by rewrite Z.max_r by lia|by rewrite Z.max_l by lia].
Qed.

Lemma upsert_exec `{Sqlite} kind key nb ex db : intact db ->
  upsertRevocation kind key nb ex db
    = inr (tt, set_rows TTokenRevocations (upsert_revocation kind key nb ex (rows TTokenRevocations db)) db).
Proof.
  intros Hi. unfold upsertRevocation, INSERT_or_update, upsert_revocation.
  set (x := {| rv_Kind := kind; rv_Key := key; rv_NotBefore := nb; rv_ExpiresAt := ex |}).
  pose proof (violations_none TTokenRevocations (rows TTokenRevocations db)) as Hv.
  pose proof (proj1 Hv (proj1 Hi _ _)) as Hnone. clear Hv.
  assert (at_most_one (same_row kind key) (rows TTokenRevocations db)) as Ho.
  { apply (picks_one TTokenRevocations kind_key _ _ Hi); [by left|]. intros [k1 k2 ??] [k3 k4 ??]. unfold same_row, clash. cbn.
    intros Hx Hy. bool_to_prop. subst. by apply bool_decide_eq_true. }
  destruct (one_picked _ _ Ho) as [Hm _]. pose proof (picked_found (same_row kind key) (rows TTokenRevocations db)) as Hf.
  assert (existsb (fun y => clash kind_key y x) (rows TTokenRevocations db)
    = existsb (same_row kind key) (rows TTokenRevocations db)) as ->.
  { generalize (rows TTokenRevocations db). intros l. induction l as [|y l IH]; cbn [existsb]; [done|]. by rewrite IH, (same_row_clash kind key nb ex). }
  destruct (existsb (same_row kind key) (rows TTokenRevocations db)) eqn:He.
  - assert (map (fun y => if clash kind_key y x then
        {| rv_Kind := rv_Kind y; rv_Key := rv_Key y; rv_NotBefore := Z.max (rv_NotBefore y) nb;
           rv_ExpiresAt := Z.max (rv_ExpiresAt y) ex |} else y) (rows TTokenRevocations db)
      = map (fun y => if same_row kind key y then raise_revocation nb ex y else y) (rows TTokenRevocations db)) as Heq.
    { apply map_ext. intros y. unfold x. rewrite same_row_clash. destruct (same_row kind key y); [|done].
      by rewrite raise_max. }
    unfold checked. rewrite Heq.
    assert (violations TTokenRevocations (map (fun y => if same_row kind key y then raise_revocation nb ex y else y)
      (rows TTokenRevocations db)) = []) as ->.
    { apply violations_none. intros c Hc. apply list_elem_of_singleton in Hc as ->. rewrite violates_map; [by apply Hnone; left|].
      by intros []. }
    rewrite Hm. destruct (replace_first _ _ _) as [l|] eqn:Hr; [done|]. exfalso.
    apply existsb_exists in He as (y & Hy & Hsame). apply replace_first_None in Hr. rewrite find_first_None in Hr.
    rewrite Hr in Hsame by by apply list_elem_of_In. done.
  - assert (replace_first (same_row kind key) (raise_revocation nb ex) (rows TTokenRevocations db) = None) as ->.
    { apply replace_first_None, find_first_None. intros y Hy. apply not_true_iff_false. intros Hs.
      apply not_true_iff_false in He. apply He, existsb_exists. exists y. split; [by apply list_elem_of_In|done]. }
    unfold INSERT. cbn [resolved references forallb]. rewrite orb_true_r. unfold checked.
    assert (violations TTokenRevocations (rows TTokenRevocations db ++ [x]) = []) as ->; [|done].
    apply violations_none. intros c Hc. apply list_elem_of_singleton in Hc as ->. apply violates_app; [by apply Hnone; left|].
    apply not_true_iff_false. rewrite existsb_exists. intros (y & Hy & Hcl).
    change (clash kind_key y x = true) in Hcl. unfold x in Hcl. rewrite same_row_clash in Hcl.
    apply not_true_iff_false in He. apply He, existsb_exists. by exists y.
Qed.

Lemma revoked_by_revokes jti userID clientID iat rv :
  revoked_by jti userID clientID iat rv = revokes jti userID clientID iat rv.
Proof.
  unfold revoked_by, revokes, After. destruct rv as [kind key nb ex]. cbn. rewrite Z.ltb_antisym, negb_involutive.
  repeat (case_bool_decide; subst); cbn; try done; by rewrite ?orb_false_r.
Qed.

(** *** The active key *)

(** Rows that clash are among those a predicate picks, and it picks one. *)
Lemma violates_one {A} (c : constraint A) (q : A -> bool) l :
  (forall x y, clash c x y = true -> q x = true /\ q y = true) -> at_most_one q l -> violates c l = false.
Proof.
  unfold at_most_one. intros Hq. induction l as [|x l IH]; cbn; [done|]. intros Hl.
  rewrite IH by (destruct (q x); cbn in Hl; lia). rewrite orb_false_r. apply not_true_iff_false.
  rewrite existsb_exists. intros (y & Hy & [Hx Hqy]%Hq). rewrite Hx in Hl. cbn in Hl.
  assert (In y (List.filter q l)) as Hin by (by apply List.filter_In).
  destruct (List.filter q l); [done|]. cbn in Hl. lia.
Qed.

Lemma at_most_one_map {A} (p q : A -> bool) (f : A -> A) l :
  (forall x, q (f x) = true -> p x = true) -> at_most_one p l -> at_most_one q (map f l).
Proof.
  unfold at_most_one. intros Hq. induction l as [|x l IH]; cbn; [done|]. intros Hl.
  destruct (q (f x)) eqn:E; [apply Hq in E; rewrite E in Hl|destruct (p x)]; cbn in *; [|lia|lia].
  assert (List.filter p l = []) as Hn by (destruct (List.filter p l); [done|cbn in Hl; lia]).
  enough (List.filter q (map f l) = []) as -> by (cbn; lia).
  clear -Hq Hn. induction l as [|y l IH]; [done|]. cbn in *. destruct (p y) eqn:Hp; [done|].
  destruct (q (f y)) eqn:Hqy; [apply Hq in Hqy; congruence|]. by apply IH.
Qed.

(** Few rows of signing keys have one ID, or are active. *)
Lemma one_id db id : intact db -> at_most_one (fun k => sk_ID k ==? id) (rows TSigningKeys db).
Proof.
  intros Hi. apply (picks_one TSigningKeys (on "signing_keys.id" (fun k => [sk_ID k])) _ _ Hi); [by left|].
  intros x y Hx Hy. bool_to_prop. apply bool_decide_eq_true. by rewrite Hx, Hy.
Qed.

Definition active_index : constraint SigningKey :=
  {| uq_name := "signing_keys.active"; uq_key k := if sk_Active k then Some [] else None |}.

Lemma one_active db : intact db -> at_most_one sk_Active (rows TSigningKeys db).
Proof.
  intros Hi. apply (picks_one TSigningKeys active_index _ _ Hi); [by right; left|].
  intros x y Hx Hy. unfold clash. cbn. by rewrite Hx, Hy.
Qed.

(** The rows after a change that makes no other row active. *)
Lemma keys_unviolated db p f :
  intact db -> (forall k, sk_ID (f k) = sk_ID k) ->
  at_most_one p (rows TSigningKeys db) -> (forall k, sk_Active (f k) = true -> p k = true) ->
  violations TSigningKeys (map f (rows TSigningKeys db)) = [].
Proof.
  intros Hi Hid Ho Hact. apply violations_none. intros c [->|Hc]%elem_of_cons; [|apply list_elem_of_singleton in Hc as ->].
  - rewrite (violates_map _ (fun _ => true) f); [|by intros k _; cbn; rewrite Hid].
    pose proof (proj1 (violations_none TSigningKeys _) (proj1 Hi _ TSigningKeys)) as Hv. apply Hv. by left.
  - apply (violates_one _ sk_Active); [|by eapply at_most_one_map].
    intros x y. unfold clash. cbn. by destruct (sk_Active x), (sk_Active y).
Qed.

Lemma activate_exec `{Sqlite} id db : intact db ->
  setActiveKey id db =
    if existsb (fun k => sk_ID k ==? id) (rows TSigningKeys db)
    then inr (tt, set_rows TSigningKeys (map (fun k => sk_set_active (sk_ID k ==? id) k) (rows TSigningKeys db)) db)
    else inl (App (NotFound "signing key" id)).
Proof.
  intros Hi. unfold setActiveKey, tx_bind, COUNT. set (l := rows TSigningKeys db).
  assert ((Z.of_nat (length (List.filter (fun k => sk_ID k ==? id) l)) =? 0) = negb (existsb (fun k => sk_ID k ==? id) l)) as ->.
  { induction l as [|k l IH]; [done|]. cbn. destruct (sk_ID k ==? id); [|exact IH]. cbn [length orb negb]. apply Z.eqb_neq. lia. }
  destruct (existsb _ l); [|done]. cbn [negb]. unfold UPDATE at 1. unfold checked. fold l.
  rewrite (keys_unviolated db (fun k => sk_ID k ==? id)
    (fun k => if sk_Active k && (sk_ID k !=? id) then sk_set_active false k else k)); [|done| |by apply one_id|].
  2:{ intros []. cbn. by destruct (_ && _). }
  2:{ intros [i a p q [] c e]; cbn; [|done]. by destruct (bool_decide_reflect (i = id)). }
  unfold UPDATE, checked. rewrite !rows_set_eq. cbn [tx_ret]. rewrite map_map.
  rewrite (map_ext _ (fun k => sk_set_active (sk_ID k ==? id) k)).
  2:{ intros [i a p q [] c e]; cbn; by destruct (bool_decide_reflect (i = id)) as [->|]; cbn; rewrite ?bool_decide_true, ?bool_decide_false by done. }
  rewrite (keys_unviolated db (fun k => sk_ID k ==? id) (fun k => sk_set_active (sk_ID k ==? id) k));
    [|done|by intros []|by apply one_id|].
  2:{ by intros []. }
  by destruct db.
Qed.

(** What a write of a key makes of the rows: the others are retired when it
    is active, and its row is replaced, or added. *)
Definition others_off (k : SigningKey) (l : list SigningKey) : list SigningKey :=
  if sk_Active k then map (fun x => if sk_ID x ==? sk_ID k then x else sk_set_active false x) l else l.
Definition saved (k : SigningKey) (l : list SigningKey) : list SigningKey :=
  if existsb (fun x => sk_ID x ==? sk_ID k) l
  then map (fun x => if sk_ID x ==? sk_ID k then k else x) (others_off k l)
  else others_off k l ++ [k].

Lemma others_off_exec `{Sqlite} k db : intact db ->
  (if sk_Active k
   then UPDATE TSigningKeys (fun x => sk_Active x && (sk_ID x !=? sk_ID k)) (sk_set_active false)
   else tx_ret 0) db = inr (if sk_Active k
     then Z.of_nat (length (List.filter (fun x => sk_Active x && (sk_ID x !=? sk_ID k)) (rows TSigningKeys db))) else 0,
     set_rows TSigningKeys (others_off k (rows TSigningKeys db)) db).
Proof.
  intros Hi. unfold others_off. destruct (sk_Active k); [|by rewrite set_same_rows].
  unfold UPDATE, checked.
  rewrite (map_ext _ (fun x => if sk_ID x ==? sk_ID k then x else sk_set_active false x)).
  2:{ intros [i a p q [] c e]; cbn; by destruct (bool_decide_reflect (i = sk_ID k)). }
  rewrite (keys_unviolated db (fun x => sk_ID x ==? sk_ID k)); [done|done| |by apply one_id|].
  - intros x. destruct (_ ==? _); [done|by destruct x].
  - intros x. destruct (_ ==? _) eqn:E; [done|]. destruct x. cbn. done.
Qed.

(** No write of a key breaks a constraint of the table. *)
Lemma save_exec `{Sqlite} k db : intact db ->
  save_key k db = inr (tt, set_rows TSigningKeys (saved k (rows TSigningKeys db)) db).
Proof.
  intros Hi. unfold save_key, tx_bind. rewrite others_off_exec by done. unfold INSERT_or_update, saved. rewrite rows_set_eq.
  set (l := rows TSigningKeys db).
  assert (forall x, clash (on "signing_keys.id" (fun k => [sk_ID k])) x k = (sk_ID x ==? sk_ID k)) as Hcl.
  { intros x. unfold clash. cbn. apply bool_decide_ext. split; [by intros [=]|by intros ->]. }
  assert (existsb (fun y => clash (on "signing_keys.id" (fun k => [sk_ID k])) y k) (others_off k l)
    = existsb (fun x => sk_ID x ==? sk_ID k) l) as ->.
  { unfold others_off. destruct (sk_Active k); [|induction l as [|x l IH]; cbn [existsb]; [done|]; by rewrite Hcl, IH].
    induction l as [|x l IH]; cbn [existsb map]; [done|]. rewrite Hcl, IH. f_equal.
    destruct (sk_ID x ==? sk_ID k) eqn:E; [done|]. by destruct x. }
  destruct (existsb (fun x => sk_ID x ==? sk_ID k) l) eqn:He.
  - rewrite (map_ext _ (fun x => if sk_ID x ==? sk_ID k then k else x)) by (intros x; by rewrite Hcl).
    unfold checked, others_off, l. destruct (sk_Active k) eqn:Ha; rewrite ?map_map;
      [rewrite (keys_unviolated db (fun x => sk_ID x ==? sk_ID k)); [by destruct db|done| |by apply one_id|]
      |rewrite (keys_unviolated db sk_Active); [by destruct db|done| |by apply one_active|]].
    + intros x. destruct (sk_ID x ==? sk_ID k) eqn:E; [rewrite E; by bool_to_prop|destruct x; cbn in *; by rewrite E].
    + intros x. destruct (sk_ID x ==? sk_ID k) eqn:E; [done|]. destruct x. cbn in *. by rewrite E.
    + intros x. destruct (sk_ID x ==? sk_ID k) eqn:E; [by bool_to_prop|done].
    + intros x. destruct (sk_ID x ==? sk_ID k) eqn:E; [congruence|done].
  - unfold INSERT. cbn [resolved references forallb]. rewrite orb_true_r. unfold checked. rewrite rows_set_eq.
    assert (violations TSigningKeys (others_off k l ++ [k]) = []) as ->; [|by destruct db].
    assert (forall x, In x l -> sk_ID x <> sk_ID k) as Hne.
    { intros x Hx Heq. apply not_true_iff_false in He. apply He, existsb_exists. exists x. split; [done|]. by apply bool_decide_eq_true. }
    pose proof (one_active db Hi) as Ho. fold l in Ho.
    assert (violations TSigningKeys (others_off k l) = []) as Hv.
    { pose proof (others_off_exec k db Hi) as Hx. unfold others_off in *. destruct (sk_Active k); [|exact (proj1 Hi _ TSigningKeys)].
      eapply keys_unviolated; [done| |exact Ho|].
      - intros x. destruct (_ ==? _); [done|by destruct x].
      - intros x. destruct (_ ==? _); [done|by destruct x]. }
    rewrite violations_none in Hv |- *. intros c Hc. apply violates_app; [by apply Hv|].
    apply not_true_iff_false. rewrite existsb_exists. intros (y & Hy & Hclash). unfold others_off in Hy.
    apply elem_of_cons in Hc as [->|Hc]; [|apply list_elem_of_singleton in Hc as ->].
    + rewrite Hcl in Hclash. destruct (sk_Active k); [apply in_map_iff in Hy as (x & <- & Hy)|];
        apply bool_decide_eq_true in Hclash; apply (Hne _ Hy); [|done].
      destruct (_ ==? _); [done|by destruct x].
    + unfold clash in Hclash. cbn in Hclash. destruct (sk_Active k) eqn:Ha; [|by destruct (sk_Active y)].
      apply in_map_iff in Hy as (x & <- & Hy). specialize (Hne x Hy).
      rewrite bool_decide_eq_false_2 in Hclash by done. by destruct x.
Qed.

(** *** The operations on which the stores agree *)

(** An operation of the interface that reads: the file and the table it
    reads, and the function of instant and rows that both stores compute. *)
Inductive reading : forall {A B}, Coll (list A) -> Table A -> (Z -> list A -> res B) -> (Store -> Prog (res B)) -> Prop :=
| read_user id : reading CUsers TUsers (rows_find (fun u => user_ID u ==? id) (NotFound "user" id))
    (fun st => @Users_GetByID st id)
| read_session id : reading CSessions TSessions (rows_find (fun s => session_ID s ==? id) (NotFound "session" id))
    (fun st => @Sessions_GetByID st id)
| read_sessions userID : reading CSessions TSessions
    (rows_select (fun t s => (session_UserID s ==? userID) && After (session_ExpiresAt s) t)
       (fun a b => After (session_CreatedAt a) (session_CreatedAt b)))
    (fun st => @Sessions_ListByUserID st userID)
| read_client id : reading CClients TClients (rows_find (fun c => client_ID c ==? id) (NotFound "client" id))
    (fun st => @Clients_GetByID st id)
| read_code code : reading CAuthCodes TAuthCodes (rows_find (fun a => ac_Code a ==? code) (NotFound "auth code" code))
    (fun st => @AuthCodes_GetByCode st code)
| read_token id : reading CTokens TTokens (rows_find (fun t => token_ID t ==? id) (NotFound "token" id))
    (fun st => @Tokens_GetByID st id)
| read_tokens userID : reading CTokens TTokens
    (rows_select (fun n t => (token_UserID t ==? userID) && After (token_ExpiresAt t) n)
       (fun a b => After (token_CreatedAt a) (token_CreatedAt b)))
    (fun st => @Tokens_ListByUserID st userID)
| read_revoked jti userID clientID issuedAt : reading CRevocations TTokenRevocations
    (fun _ l => Ok (existsb (revokes jti userID clientID issuedAt) l))
    (fun st => @Revocations_IsRevoked st jti userID clientID issuedAt)
| read_consent userID clientID : reading CConsents TConsents
    (rows_find (consent_of userID clientID) (NotFound "consent" (userID +:+ "/" +:+ clientID)))
    (fun st => @Consents_Get st userID clientID)
| read_link hash : reading CVerification TVerificationTokens
    (rows_find (fun t => vt_TokenHash t ==? hash) (NotFound "verification token" ""))
    (fun st => @Verification_GetByHash st hash)
| read_signing_key id : reading CSigningKeys TSigningKeys (rows_find (fun k => sk_ID k ==? id) (NotFound "signing key" id))
    (fun st => @SigningKeys_GetByID st id)
| read_active_key : reading CSigningKeys TSigningKeys (rows_find sk_Active (NotFound "active signing key" ""))
    (fun st => @SigningKeys_GetActive st).

(** An operation that writes. *)
Inductive writing : forall {A B}, Coll (list A) -> Table A -> (Z -> string -> list A -> res (list A * B)) ->
    (Store -> Prog (res B)) -> Prop :=
| write_end_session id : writing CSessions TSessions (rows_remove (fun s => session_ID s ==? id) (NotFound "session" id))
    (fun st => @Sessions_Delete st id)
| write_end_sessions userID : writing CSessions TSessions (rows_keep (fun _ s => session_UserID s !=? userID))
    (fun st => @Sessions_DeleteByUserID st userID)
| write_purge_sessions : writing CSessions TSessions (rows_keep (fun t s => After (session_ExpiresAt s) t))
    (fun st => @Sessions_DeleteExpired st)
| write_take_code code : writing CAuthCodes TAuthCodes
    (rows_consume (fun a => ac_Code a ==? code) ac_Used ac_set_used
       (Conflict "auth code already used") (NotFound "auth code" code))
    (fun st => @AuthCodes_MarkUsed st code)
| write_purge_codes : writing CAuthCodes TAuthCodes (rows_keep (fun t a => After (ac_ExpiresAt a) t))
    (fun st => @AuthCodes_DeleteExpired st)
| write_rotate id : writing CTokens TTokens
    (rows_consume (fun t => token_ID t ==? id) token_Revoked token_set_revoked
       (Conflict "refresh token already used") (NotFound "token" id))
    (fun st => @Tokens_Rotate st id)
| write_purge_tokens : writing CTokens TTokens (rows_keep (fun n t => After (token_ExpiresAt t) n))
    (fun st => @Tokens_DeleteExpired st)
| write_revoke_access jti expiresAt : writing CRevocations TTokenRevocations
    (fun t _ l => Ok (upsert_revocation RevocationJTI jti t expiresAt l, tt))
    (fun st => @Revocations_RevokeAccessToken st jti expiresAt)
| write_revoke_before kind key notBefore : writing CRevocations TTokenRevocations (rows_revoke_before kind key notBefore)
    (fun st => @Revocations_RevokeBefore st kind key notBefore)
| write_purge_revocations : writing CRevocations TTokenRevocations (rows_keep (fun t rv => After (rv_ExpiresAt rv) t))
    (fun st => @Revocations_DeleteExpired st)
| write_withdraw userID clientID : writing CConsents TConsents
    (rows_remove (consent_of userID clientID) (NotFound "consent" (userID +:+ "/" +:+ clientID)))
    (fun st => @Consents_Delete st userID clientID)
| write_withdraw_all userID : writing CConsents TConsents (rows_keep (fun _ c => consent_UserID c !=? userID))
    (fun st => @Consents_DeleteByUserID st userID)
| write_drop_passkey userID id : writing CPasskeys TPasskeys (rows_remove (passkey_of userID id) (NotFound "passkey" id))
    (fun st => @Passkeys_Delete st userID id)
| write_drop_passkeys userID : writing CPasskeys TPasskeys (rows_keep (fun _ p => passkey_UserID p !=? userID))
    (fun st => @Passkeys_DeleteByUserID st userID)
| write_use_link hash : writing CVerification TVerificationTokens
    (rows_replace (fun t => vt_TokenHash t ==? hash) (fun _ => vt_set_used) (fun _ => tt) (NotFound "verification token" ""))
    (fun st => @Verification_MarkUsed st hash)
| write_purge_links : writing CVerification TVerificationTokens (rows_keep (fun n t => After (vt_ExpiresAt t) n))
    (fun st => @Verification_DeleteExpired st)
| write_activate id : writing CSigningKeys TSigningKeys (rows_activate_signing id)
    (fun st => @SigningKeys_SetActive st id)
| write_drop_key id : writing CSigningKeys TSigningKeys (rows_remove (fun k => sk_ID k ==? id) (NotFound "signing key" id))
    (fun st => @SigningKeys_Delete st id).

(** An operation that adds a row, and what must hold of the tables. *)
Inductive adding : forall {A}, Coll (list A) -> Table A -> (Z -> string -> list A -> res (list A * A)) ->
    (Store -> Prog (res A)) -> (Database -> Prop) -> Prop :=
| add_session s : adding CSessions TSessions (rows_add (fun _ => None) (fun t => session_set_created t s))
    (fun st => @Sessions_Create st s)
    (fun db => resolved TSessions db s = true /\
               existsb (fun x => session_ID x ==? session_ID s) (rows TSessions db) = false)
| add_code a : adding CAuthCodes TAuthCodes (rows_add (fun _ => None) (fun t => ac_set_created t a))
    (fun st => @AuthCodes_Create st a)
    (fun db => resolved TAuthCodes db a = true /\ existsb (fun x => ac_Code x ==? ac_Code a) (rows TAuthCodes db) = false)
| add_token t : adding CTokens TTokens (rows_add (fun _ => None) (fun n => token_set_created n t))
    (fun st => @Tokens_Create st t)
    (fun db => resolved TTokens db t = true /\ existsb (fun x => token_ID x ==? token_ID t) (rows TTokens db) = false)
| add_link t : adding CVerification TVerificationTokens (rows_add_unless (fun x => vt_TokenHash x ==? vt_TokenHash t)
      (AlreadyExists "verification token" (vt_TokenHash t)) (fun n => vt_set_created n t))
    (fun st => @Verification_Create st t) (fun db => resolved TVerificationTokens db t = true)
| add_passkey p : adding CPasskeys TPasskeys (rows_add_unless (fun x => passkey_ID x ==? passkey_ID p)
      (AlreadyExists "passkey" (passkey_ID p)) (fun n => passkey_set_created n p))
    (fun st => @Passkeys_Create st p) (fun db => resolved TPasskeys db p = true).

(** An operation that revokes refresh tokens and then the access tokens of
    the same grants. *)
Inductive revoking : forall {B}, (Z -> string -> list Token -> res (list Token * B)) ->
    (B -> Z -> string -> list Revocation -> res (list Revocation * unit)) -> (Store -> Prog (res unit)) -> Prop :=
| revoke_token id : revoking (rows_revoke_token id)
    (fun t => rows_revoke_now RevocationUserClient (UserClientKey (token_UserID t) (token_ClientID t)))
    (fun st => @Tokens_Revoke st id)
| revoke_of_user userID : revoking (fun _ _ l => Ok (revoke_where (fun t => token_UserID t ==? userID) l, tt))
    (fun _ => rows_revoke_now RevocationUser userID) (fun st => @Tokens_RevokeByUserID st userID)
| revoke_of_client clientID : revoking (fun _ _ l => Ok (revoke_where (fun t => token_ClientID t ==? clientID) l, tt))
    (fun _ => rows_revoke_now RevocationClient clientID) (fun st => @Tokens_RevokeByClientID st clientID).

(** One transaction over both tables: both writes, or none. *)
Definition t_upd_then `{Env} {B} (f : Z -> string -> list Token -> res (list Token * B))
    (g : B -> Z -> string -> list Revocation -> res (list Revocation * unit))
    (w : World) (r : res unit) (w' : World) : Prop :=
  same_disk w w' /\ calm w w' /\
  ((exists t, instant w w' t /\
      match f t "" (rows TTokens (w_db w)) with
      | Ok (l, b) =>
          match g b t "" (rows TTokenRevocations (w_db w)) with
          | Ok (l', _) => r = Ok tt /\ w_db w' = set_rows TTokenRevocations l' (set_rows TTokens l (w_db w))
          | Err e => r = Err e /\ w_db w' = w_db w
          end
      | Err e => r = Err e /\ w_db w' = w_db w
      end) \/
   (exists e, r = Err e /\ db_fault w w' /\ w_db w' = w_db w)).

(** SQLite folds the letters of ASCII, [strings.EqualFold] those of Unicode. *)
Definition same_addresses `{UnicodeTables} (email : string) (users : list User) : Prop :=
  Forall (fun u => (LOWER (user_Email u) ==? LOWER email) = EqualFold (user_Email u) email) users.

Section agreement.
Context `{Env} `{Sqlite} `{UnicodeTables}.

Lemma unique_key {A} (name : string) (key : A -> list string) (p : A -> bool) k :
  (forall x, p x = true -> key x = k) -> forall x y, p x = true -> p y = true -> clash (on name key) x y = true.
Proof. intros Hk x y Hx Hy. unfold clash. cbn. rewrite (Hk x Hx), (Hk y Hy). by apply bool_decide_eq_true. Qed.

Lemma sqlite_reads {A B} (c : Coll (list A)) T f (op : Store -> Prog (res B)) w :
  reading c T f op -> wp (op SQLiteStore) w (t_qry T f w).
Proof.
  destruct 1; try (apply row_read || apply list_read).
  unfold SQLiteStore, Revocations_IsRevoked, revocationRepository_IsRevoked.
  apply wp_bind, wp_sql; intros Hio; apply wp_ret.
  - split_and!; [worlds..|]. right. eexists. split; [done|]. split; [by right|worlds].
  - assert (existsb (revokes jti userID clientID issuedAt) (rows TTokenRevocations (w_db w)) =
      bool_decide (is_Some (find_first (revoked_by jti userID clientID issuedAt) (rows TTokenRevocations (w_db w))))) as Heq.
    { generalize (rows TTokenRevocations (w_db w)). intros l. induction l as [|x l IH]; [done|]. cbn [existsb find_first].
      rewrite revoked_by_revokes, IH. by destruct (revokes _ _ _ _ x). }
    cbv [SELECT_row]. rewrite <-Heq.
    apply (qry_here TTokenRevocations (fun _ l => Ok (existsb (revokes jti userID clientID issuedAt) l))
      (env_clock (w_tick w)) w); worlds.
Qed.

(** Revocations are written in one statement, at an instant of the run. *)
Lemma record_exec kind key nb ex w w0 f t : intact (w_db w) ->
  same_disk w0 w -> calm w0 w -> w_db w = w_db w0 -> instant w0 w t ->
  f t "" (rows TTokenRevocations (w_db w0)) = Ok (upsert_revocation kind key nb ex (rows TTokenRevocations (w_db w0)), tt) ->
  wp (record_revocation kind key nb ex) w (t_upd TTokenRevocations f w0).
Proof.
  intros Hi Hs Hc Hdb (n & Hn & ->) Hf. apply wp_bind, wp_sql; intros Hio; [|rewrite upsert_exec by done]; apply wp_ret.
  - apply upd_failed; [transitivity w; [done|worlds]|transitivity w; [done|worlds]| |done]. exists (w_tick w). split; [|done].
    destruct Hs as [Ht _]. cbn. lia.
  - rewrite Hdb. eapply (upd_here _ _ _ _ _ _ (env_clock n)); [transitivity w; [done|worlds]|transitivity w; [done|worlds]| |exact Hf|done].
    exists n. split; [cbn; lia|done].
Qed.

(** The rows a predicate picks share their key of a constraint. *)
Ltac same_key :=
  intros ? ? ? ?; unfold consent_of, passkey_of in *; bool_to_prop; unfold clash; cbn; apply bool_decide_eq_true; congruence.

Lemma sqlite_writes {A B} (c : Coll (list A)) T f (op : Store -> Prog (res B)) w :
  writing c T f op -> intact (w_db w) -> wp (op SQLiteStore) w (t_upd T f w).
Proof.
  destruct 1; intros Hi; try (by apply delete_where); try (by apply delete_expired).
  - apply (delete_one _ (on "sessions.id" (fun s => [session_ID s]))); [done..|by left|same_key].
  - apply (consume_one _ (on "auth_codes.code" (fun a => [ac_Code a]))); [done|by left| |same_key].
    intros c x ->%list_elem_of_singleton _. by destruct x.
  - apply (consume_one _ (on "tokens.id" (fun t => [token_ID t]))); [done|by left| |same_key].
    intros c x ->%list_elem_of_singleton _. by destruct x.
  - apply wp_bind, wp_now. apply (record_exec _ _ _ _ _ _ _ (env_clock (w_tick w))); [done|worlds..|reflexivity].
  - apply (record_exec _ _ _ _ _ _ _ (env_clock (w_tick w))); [done|worlds..|reflexivity].
  - apply (delete_one _ user_client); [done..|by right; left|same_key].
  - apply (delete_one _ (on "passkeys.id" (fun p => [passkey_ID p]))); [done..|by left|same_key].
  - apply (update_one _ (on "verification_tokens.token_hash" (fun t => [vt_TokenHash t]))); [done|by left| |same_key].
    intros c x ->%list_elem_of_singleton _. by destruct x.
  - apply wp_bind, wp_sql; intros Hio; [|rewrite activate_exec by done]; [apply wp_ret, upd_failed; worlds|].
    destruct (existsb _ _) eqn:E; apply wp_ret.
    + eapply (upd_here _ _ _ _ _ _ (env_clock (w_tick w))); [worlds..| |done]. unfold rows_activate_signing. by rewrite E.
    + eapply (upd_refused _ _ _ _ _ (env_clock (w_tick w))); [worlds..| |done]. unfold rows_activate_signing. by rewrite E.
  - apply (delete_one _ (on "signing_keys.id" (fun k => [sk_ID k]))); [done..|by left|same_key].
Qed.

(** *** A row is added *)

Lemma existsb_ext {A} (p q : A -> bool) l : (forall x, p x = q x) -> existsb p l = existsb q l.
Proof. intros Hpq. induction l as [|x l IH]; cbn; [done|]. by rewrite Hpq, IH. Qed.

Lemma INSERT_exec {A} (T : Table A) c x db :
  intact db -> constraints T = [c] -> resolved T db x = true ->
  INSERT T x db = if existsb (fun y => clash c y x) (rows T db) then inl (Unique (sqlite_reports [uq_name c]))
                  else inr (tt, set_rows T (rows T db ++ [x]) db).
Proof.
  intros [Hu _] Hc Hr. unfold INSERT. rewrite Hr, orb_true_r. unfold checked, violations. rewrite Hc. cbn [List.filter].
  assert (violates c (rows T db) = false) as Hv.
  { apply (proj1 (violations_none T _) (Hu _ T)). rewrite Hc. by left. }
  destruct (existsb (fun y => clash c y x) (rows T db)) eqn:He.
  - assert (violates c (rows T db ++ [x]) = true) as ->; [|done].
    clear Hv. induction (rows T db) as [|y l IH]; cbn in *; [done|]. apply orb_true_iff in He as [He|He].
    + rewrite existsb_app. cbn. by rewrite He, !orb_true_r.
    + by rewrite IH, orb_true_r.
  - by rewrite violates_app.
Qed.

(** Where the key is free, and where a row with the key refuses another. *)
Lemma add_fresh {A} (T : Table A) c (x : Z -> A) wrap w :
  intact (w_db w) -> constraints T = [c] -> (forall t, resolved T (w_db w) (x t) = true) ->
  (forall t, existsb (fun y => clash c y (x t)) (rows T (w_db w)) = false) ->
  wp (let! t := now in let! r := sql (fun _ => INSERT T (x t)) in Ret (done_or (x t) wrap r)) w
     (t_upd T (rows_add (fun _ => None) x) w).
Proof.
  intros Hi Hc Hr Hfree. apply wp_bind, wp_now, wp_bind, wp_sql; intros Hio; [apply wp_ret, upd_failed; worlds|].
  cbn [w_db ticked]. rewrite (INSERT_exec T c), Hfree by done. apply wp_ret.
  eapply (upd_here _ _ _ _ _ _ (env_clock (w_tick w))); [worlds..| |done]. unfold rows_add.
  assert (omap (fun _ : A => @None error) (rows T (w_db w)) = []) as ->; [|done].
  generalize (rows T (w_db w)). intros l. by induction l.
Qed.

Lemma add_unless {A} (T : Table A) c (taken : A -> bool) (e : error) (x : Z -> A) wrap w :
  intact (w_db w) -> constraints T = [c] -> (forall t, resolved T (w_db w) (x t) = true) ->
  (forall t y, clash c y (x t) = taken y) -> (forall v, wrap (Unique v) = e) ->
  wp (let! t := now in let! r := sql (fun _ => INSERT T (x t)) in Ret (done_or (x t) wrap r)) w
     (t_upd T (rows_add_unless taken e x) w).
Proof.
  intros Hi Hc Hr Hcl He. apply wp_bind, wp_now, wp_bind, wp_sql; intros Hio; [apply wp_ret, upd_failed; worlds|].
  cbn [w_db ticked]. rewrite (INSERT_exec T c) by done.
  assert (existsb (fun y => clash c y (x (env_clock (w_tick w)))) (rows T (w_db w)) = existsb taken (rows T (w_db w))) as ->.
  { by apply existsb_ext. }
  assert (omap (fun y => if taken y then Some e else None) (rows T (w_db w)) = [] /\ existsb taken (rows T (w_db w)) = false \/
    (exists l, omap (fun y => if taken y then Some e else None) (rows T (w_db w)) = e :: l) /\
    existsb taken (rows T (w_db w)) = true) as [[Ho ->]|[[l Ho] ->]].
  { generalize (rows T (w_db w)). intros l. induction l as [|y l [[Ho Hx]|[[l' Ho] Hx]]]; cbn; [by left|..];
      destruct (taken y); cbn; rewrite ?Ho, ?Hx; eauto. }
  - apply wp_ret. eapply (upd_here _ _ _ _ _ _ (env_clock (w_tick w))); [worlds..| |done].
    unfold rows_add_unless, rows_add. by rewrite Ho.
  - apply wp_ret. cbn [done_or]. rewrite He.
    eapply (upd_refused _ _ _ _ _ (env_clock (w_tick w))); [worlds..| |done].
    unfold rows_add_unless, rows_add. by rewrite Ho.
Qed.

(** A row clashes with the one added when it has its key. *)
Ltac clash_key x := intros; unfold clash; destruct x; cbn; by repeat case_bool_decide; simplify_eq.
Ltac fresh_key x H := intros ?; rewrite <-H; apply existsb_ext; clash_key x.

Lemma sqlite_adds {A} (c : Coll (list A)) T f (op : Store -> Prog (res A)) P w :
  adding c T f op P -> intact (w_db w) -> P (w_db w) -> wp (op SQLiteStore) w (t_upd T f w).
Proof.
  destruct 1; intros Hi HP; cbn beta in HP.
  - destruct HP as [Hr Hfree]. apply (add_fresh TSessions (on "sessions.id" (fun s => [session_ID s]))
      (fun t => session_set_created t s)); [done|done|by destruct s|fresh_key s Hfree].
  - destruct HP as [Hr Hfree]. apply (add_fresh TAuthCodes (on "auth_codes.code" (fun a => [ac_Code a]))
      (fun t => ac_set_created t a)); [done|done|by destruct a|fresh_key a Hfree].
  - destruct HP as [Hr Hfree]. apply (add_fresh TTokens (on "tokens.id" (fun t => [token_ID t]))
      (fun n => token_set_created n t)); [done|done|by destruct t|fresh_key t Hfree].
  - apply (add_unless TVerificationTokens (on "verification_tokens.token_hash" (fun t => [vt_TokenHash t]))
      (fun x => vt_TokenHash x ==? vt_TokenHash t) _ (fun n => vt_set_created n t));
      [done|done|by destruct t|clash_key t|by destruct t].
  - apply (add_unless TPasskeys (on "passkeys.id" (fun p => [passkey_ID p]))
      (fun x => passkey_ID x ==? passkey_ID p) _ (fun n => passkey_set_created n p));
      [done|done|by destruct p|clash_key p|by destruct p].
Qed.

(** *** Refresh tokens are revoked, with the access tokens of their grant *)

Lemma intact_revoked p db : intact db ->
  intact (set_rows TTokens (revoke_where p (rows TTokens db)) db).
Proof.
  intros Hi. assert (same_columns TTokens p token_set_revoked) as Hf.
  { intros c x ->%list_elem_of_singleton _. by destruct x. }
  pose proof (UPDATE_changes TTokens p token_set_revoked db Hi Hf) as Hu.
  refine (proj1 (UPDATE_sound TTokens p token_set_revoked _ _ _ _ Hi Hu)). by intros [] _.
Qed.

Lemma revoke_exec kind key p t db : intact db ->
  (let* _ := UPDATE TTokens p token_set_revoked in revokeGrantAccessTokens kind key t) db
  = inr (tt, set_rows TTokenRevocations
               (upsert_revocation kind key t (Add t RevocationRetention) (rows TTokenRevocations db))
               (set_rows TTokens (revoke_where p (rows TTokens db)) db)).
Proof.
  intros Hi. unfold tx_bind. rewrite UPDATE_changes; [|done|intros c x ->%list_elem_of_singleton _; by destruct x].
  unfold revokeGrantAccessTokens, tx_wrap. fold (revoke_where p (rows TTokens db)).
  rewrite upsert_exec by by apply intact_revoked. by destruct db.
Qed.

Lemma sqlite_revokes {B} f g (op : Store -> Prog (res unit)) w :
  revoking (B := B) f g op -> intact (w_db w) -> wp (op SQLiteStore) w (t_upd_then f g w).
Proof.
  destruct 1; intros Hi; (apply wp_bind, wp_sql; intros Hio;
    [apply wp_ret; split_and!; [worlds..|]; right; eexists; split; [done|]; split; [worlds|done]|]).
  - unfold tx_bind at 1. unfold SELECT_row.
    destruct (find_first (fun x => token_ID x ==? id) (rows TTokens (w_db w))) as [tok|] eqn:Hf.
    + assert (revoke_where (fun x => token_ID x ==? id) (rows TTokens (w_db w))
        = default (rows TTokens (w_db w)) (replace_first (fun x => token_ID x ==? id) token_set_revoked (rows TTokens (w_db w))))
        as Hpick.
      { apply one_picked. apply (picks_one TTokens (on "tokens.id" (fun t => [token_ID t])) _ _ Hi); [by left|].
        intros x y Hx Hy. unfold clash. cbn. bool_to_prop. apply bool_decide_eq_true. congruence. }
      rewrite revoke_exec, Hpick by done. apply wp_ret. split_and!; [worlds..|]. left. exists (env_clock (w_tick w)).
      split; [worlds|]. unfold rows_revoke_token. by rewrite Hf.
    + apply wp_ret. split_and!; [worlds..|]. left. exists (env_clock (w_tick w)). split; [worlds|].
      unfold rows_revoke_token. by rewrite Hf.
  - rewrite revoke_exec by done. apply wp_ret. split_and!; [worlds..|]. left. exists (env_clock (w_tick w)).
    split; [worlds|done].
  - rewrite revoke_exec by done. apply wp_ret. split_and!; [worlds..|]. left. exists (env_clock (w_tick w)).
    split; [worlds|done].
Qed.

Lemma sqlite_by_email email w :
  same_addresses email (rows TUsers (w_db w)) ->
  wp (@Users_GetByEmail SQLiteStore email) w
    (t_qry TUsers (rows_find (fun u => EqualFold (user_Email u) email) (NotFound "user with email" email)) w).
Proof.
  intros Hs. eapply wp_mono; [apply row_read|]. intros r w' (Hd & Hc & Hdb & Hr). split_and!; [done..|].
  destruct Hr as [(t & Ht & ->)|Hr]; [left|by right]. exists t. split; [done|]. unfold rows_find, find_or.
  assert (find_first (fun u => LOWER (user_Email u) ==? LOWER email) (rows TUsers (w_db w))
    = find_first (fun u => EqualFold (user_Email u) email) (rows TUsers (w_db w))) as ->; [|done].
  induction Hs as [|u l Hu _ IH]; cbn; [done|]. by rewrite Hu, IH.
Qed.

End agreement.

(** ** The active key *)

Section active_key.
Context `{Env} `{Sqlite} `{KeyLib} (s : KeyService).
#[local] Existing Instance SQLiteStore.

Lemma sqlite_save k w : intact (w_db w) ->
  wp (Keys_Save k) w (t_upd TSigningKeys (fun _ _ l => Ok (saved (key_row k) l, tt)) w).
Proof.
  intros Hi. apply wp_bind, wp_sql; intros Hio; [|rewrite save_exec by done]; apply wp_ret.
  - apply upd_failed; worlds.
  - eapply (upd_here _ _ _ _ _ _ (env_clock (w_tick w))); [worlds..|reflexivity|done].
Qed.

Lemma sqlite_activate kid w : intact (w_db w) ->
  wp (Keys_SetActive kid) w (t_upd TSigningKeys (rows_activate_signing kid) w).
Proof.
  intros Hi. apply wp_bind, wp_sql; intros Hio; [|rewrite activate_exec by done]; [apply wp_ret, upd_failed; worlds|].
  destruct (existsb _ _) eqn:E; apply wp_ret.
  - eapply (upd_here _ _ _ _ _ _ (env_clock (w_tick w))); [worlds..| |done]. unfold rows_activate_signing. by rewrite E.
  - eapply (upd_refused _ _ _ _ _ (env_clock (w_tick w))); [worlds..| |done]. unfold rows_activate_signing. by rewrite E.
Qed.

Lemma save_intact k db : intact db -> intact (set_rows TSigningKeys (saved k (rows TSigningKeys db)) db).
Proof.
  intros Hi. assert (tx_sound (save_key k)) as Hs by sound. exact (proj1 (Hs _ _ _ Hi (save_exec k db Hi))).
Qed.

(** Making a pair asks no database. *)
Definition same_db (w w' : World) : Prop := w_db w' = w_db w.
#[local] Instance same_db_preorder : PreOrder same_db.
Proof. split; [done|]. intros w1 w2 w3 Ha Hb. unfold same_db in *. congruence. Qed.

Lemma same_db_Generate alg : keeps same_db (GenerateKeyPairForAlg alg).
Proof.
  assert (forall n, keeps same_db (randRead n)) as Hrand by (intros n; by apply keeps_event).
  assert (keeps same_db newUUID) as Huuid by by apply keeps_event.
  assert (keeps same_db now) as Hnow by by apply keeps_event.
  assert (forall A (a : A), keeps same_db (Ret a)) as Hret by (intros A a; apply (keeps_ret same_db)).
  unfold GenerateKeyPairForAlg, GenerateKeyPair, newKeyPair, ret_err. repeat (keep_step || apply Hret).
Qed.

(** What a rotation does to the row of the active key. *)
Definition retired_row (t : Z) (k : SigningKey) : SigningKey :=
  if sk_Active k then Build_SigningKey (sk_ID k) (sk_Algorithm k) (sk_PrivateKey k) (sk_PublicKey k) false (sk_CreatedAt k) t
  else k.

(** The rows of the old keys: the active one is given its end, or, when it
    could not be read, only retired. *)
Definition old_rows (expiresIn : Z) (w w' : World) (l l' : list SigningKey) : Prop :=
  (exists t, instant w w' t /\ l' = map (retired_row (Add t expiresIn)) l) \/
  (db_fault w w' /\ l' = map (sk_set_active false) l).

Lemma saved_inactive k old l : at_most_one (fun x => sk_ID x ==? sk_ID old) l -> at_most_one sk_Active l ->
  find_first sk_Active l = Some old -> sk_ID k = sk_ID old -> sk_Active k = false ->
  saved k l = map (fun x => if sk_Active x then k else x) l.
Proof.
  intros Hone Hact Hf Hid Ha. apply find_first_Some in Hf as [Hin Hold]. unfold saved, others_off. rewrite Ha, Hid.
  assert (existsb (fun x => sk_ID x ==? sk_ID old) l = true) as ->.
  { apply existsb_exists. exists old. split; [by apply list_elem_of_In|by apply bool_decide_eq_true]. }
  apply list_elem_of_In in Hin. apply map_ext_in. intros x Hx. destruct (sk_ID x ==? sk_ID old) eqn:E.
  - rewrite (picked_same _ _ x old Hone Hx Hin E); [by rewrite Hold|by apply bool_decide_eq_true].
  - destruct (sk_Active x) eqn:Hx'; [|done]. rewrite (picked_same _ _ x old Hact Hx Hin Hx' Hold) in E. by bool_to_prop.
Qed.

(** The first half of a rotation. *)
Lemma retire_active expiresIn w : intact (w_db w) ->
  wp (let! old := Keys_GetActive in
      match old with
      | Ok oldKey =>
          let! t := now in
          mapErr (Errorf "failed to update old key")
            (Keys_Save (kp_set_expires (Add t expiresIn) (kp_set_active false oldKey)))
      | Err _ => ret_ok tt
      end) w (fun r w' => r = Ok tt -> (w_tick w <= w_tick w')%nat /\ intact (w_db w') /\ exists l,
    w_db w' = set_rows TSigningKeys l (w_db w) /\ map sk_ID l = map sk_ID (rows TSigningKeys (w_db w)) /\
    old_rows expiresIn w w' (rows TSigningKeys (w_db w)) (map (sk_set_active false) l)).
Proof.
  intros Hi. set (l0 := rows TSigningKeys (w_db w)).
  assert (forall t, find_first sk_Active l0 = None -> map (sk_set_active false) l0 = map (retired_row t) l0) as Hnone.
  { intros t Hf. apply map_ext_in. intros x Hx. pose proof (proj1 (find_first_None _ _) Hf x) as Hn.
    rewrite list_elem_of_In in Hn. specialize (Hn Hx). unfold retired_row. rewrite Hn. destruct x. cbn in *. by subst. }
  apply wp_bind, wp_bind, wp_sql; intros Hio; apply wp_ret.
  { cbn [scanned map_row]. apply wp_ret. intros _. split; [cbn; lia|]. split; [done|]. exists l0. split; [symmetry; apply set_same_rows|].
    split; [done|]. right. split; [worlds|done]. }
  unfold SELECT_row. fold l0. destruct (find_first sk_Active l0) as [old|] eqn:Hf; cbn [map_row fmap option_fmap option_map scanned].
  - apply wp_bind, wp_now, wp_mapErr. eapply wp_mono; [by apply sqlite_save|]. intros r w' Hu Hr.
    destruct r as [[]|e]; [|done]. destruct Hu as ([Ht _] & _ & [(t & u & _ & _ & Hdb)|(e & [=] & _)]). cbn in Ht, Hdb.
    split; [lia|]. split; [rewrite Hdb; by apply save_intact|]. fold l0 in Hdb. set (t0 := Add (env_clock (w_tick w + 1)) expiresIn) in *.
    rewrite (saved_inactive _ old) in Hdb; [|by apply one_id|by apply one_active|done|by destruct old..].
    assert (forall x, In x l0 -> sk_Active x = true -> x = old) as Hold.
    { apply find_first_Some in Hf as [Hin%list_elem_of_In Hold]. intros x Hx Ha.
      exact (picked_same _ _ _ _ (one_active _ Hi) Hx Hin Ha Hold). }
    eexists. split; [exact Hdb|]. rewrite !map_map. split.
    + apply map_ext_in. intros x Hx. destruct (sk_Active x) eqn:Ha; [|done]. rewrite (Hold x Hx Ha). by destruct old.
    + left. exists (env_clock (w_tick w + 1)). split; [exists (w_tick w + 1)%nat; split; [lia|done]|].
      apply map_ext_in. intros x Hx. unfold retired_row. destruct (sk_Active x) eqn:Ha.
      * rewrite (Hold x Hx Ha). by destruct old.
      * destruct x. cbn in *. by subst.
  - apply wp_ret. intros _. split; [cbn; lia|]. split; [done|]. exists l0. split; [symmetry; apply set_same_rows|].
    split; [done|]. left. exists (env_clock (w_tick w)). split; [worlds|]. by apply Hnone.
Qed.
(** The second: the new pair is the only active one. *)
Lemma activate_new k l w db : intact db -> w_db w = set_rows TSigningKeys l db -> intact (w_db w) ->
  kp_Active k = true -> (forall x, In x l -> sk_ID x <> kp_Kid k) ->
  wp (generate_and_activate k) w (fun r w' => forall k', r = Ok k' -> k' = k /\ (w_tick w <= w_tick w')%nat /\
    w_db w' = set_rows TSigningKeys (map (sk_set_active false) l ++ [key_row k]) db /\
    (m_keyCache (w_mem w')).1 = Some k).
Proof.
  intros Hi0 Hw Hi Ha Hne. unfold generate_and_activate.
  assert (rows TSigningKeys (w_db w) = l) as Hl by (rewrite Hw; apply rows_set_eq).
  eapply wp_try_map; [by apply sqlite_save| |done]. intros [] w1 ([Ht1 _] & _ & [(t & u & _ & _ & Hdb)|(e & [=] & _)]).
  cbn beta in Hdb. rewrite Hl in Hdb.
  assert (saved (key_row k) l = map (sk_set_active false) l ++ [key_row k]) as Hs.
  { unfold saved, others_off. cbn [sk_Active key_row]. rewrite Ha.
    assert (existsb (fun x => sk_ID x ==? sk_ID (key_row k)) l = false) as ->.
    { apply not_true_iff_false. rewrite existsb_exists. intros (x & Hx & Hk). apply bool_decide_eq_true in Hk. by apply (Hne x Hx). }
    f_equal. apply map_ext_in. intros x Hx. by rewrite bool_decide_eq_false_2 by by apply Hne. }
  rewrite Hs in Hdb.
  assert (intact (w_db w1)) as Hi1.
  { rewrite Hdb, <-Hs, <-Hl. by apply save_intact. }
  eapply wp_try_map; [by apply sqlite_activate| |done]. intros [] w2 ([Ht2 _] & _ & [(t2 & u2 & _ & Hdb2)|(e & [=] & _)]).
  unfold rows_activate_signing in Hdb2. rewrite Hdb, rows_set_eq in Hdb2. destruct (existsb _ _) in Hdb2; [|by destruct Hdb2].
  destruct Hdb2 as [_ Hdb2]. apply wp_bind, wp_intro. intros [] w3 Hr. cbn in Hr. injection Hr as <-. apply wp_ret.
  intros k' [= <-]. split; [done|]. split; [cbn in *; lia|]. split; [|done]. cbn [ticked with_mem w_db]. rewrite Hdb2, Hw.
  rewrite map_app, map_map. cbn [map]. rewrite bool_decide_true by done.
  rewrite (map_ext_in _ (sk_set_active false)).
  2:{ intros x Hx. replace (sk_ID (sk_set_active false x)) with (sk_ID x) by by destruct x.
      rewrite bool_decide_eq_false_2 by by apply Hne. by destruct x. }
  replace (sk_set_active true (key_row k)) with (key_row k) by by (destruct k; cbn in *; subst).
  by destruct db.
Qed.

Context `{!EnvLaws}.

(** Claim C8.  Over SQLite, whose table of keys has an index that allows one
    active row, keys are written and activated without being refused: saving
    a key puts its row in place of the one with its ID, or adds it, and
    retires the others when it is active; activating one leaves it as the
    only active row; other rows and tables stay.  A rotation keeps every key:
    the old active one gets its grace period and is no longer active (unless
    it could not be read), and the new pair is added, is the only active one
    and is what tokens are signed with. *)
Theorem active_key_kept w : intact (w_db w) ->
  (forall k, wp (Keys_Save k) w (t_upd TSigningKeys (fun _ _ l => Ok (saved (key_row k) l, tt)) w)) /\
  (forall kid, wp (Keys_SetActive kid) w (t_upd TSigningKeys (rows_activate_signing kid) w)) /\
  (forall expiresIn new w',
     (forall x, In x (rows TSigningKeys (w_db w)) -> exists n, (n < w_tick w)%nat /\ sk_ID x = env_uuid n) ->
     run (RotateKey s expiresIn) w = (Ok new, w') ->
     new_key w w' new /\ (m_keyCache (w_mem w')).1 = Some new /\
     exists l, w_db w' = set_rows TSigningKeys (l ++ [key_row new]) (w_db w) /\
       old_rows expiresIn w w' (rows TSigningKeys (w_db w)) l).
Proof.
  intros Hi. split; [intros k; by apply sqlite_save|]. split; [intros kid; by apply sqlite_activate|].
  intros expiresIn new w' Hmade Hrun. pattern new, w'. eapply run_Ok; [exact Hrun|]. clear Hrun.
  apply wp_locked. eapply wp_try_assoc; [by apply (retire_active expiresIn)| |done].
  intros [] w1 Hold. destruct (Hold eq_refl) as (Ht1 & Hi1 & l & Hdb1 & Hids & Hrows). cbn [ticked with_held w_tick w_db] in *.
  eapply wp_try_map; [apply wp_and_keeps; [apply same_db_Generate|apply GenerateKeyPairForAlg_spec]| |done].
  intros k w2 [Hdb2 ([Ht2 _] & _ & Hnew)]. unfold same_db in Hdb2. rewrite <-Hdb2 in Hi1, Hdb1.
  pose proof (new_key_earlier w w1 w2 k ltac:(lia) Hnew) as Hfresh. destruct Hnew as [(n & Hn & Hk) [Hact _]].
  eapply wp_mono; [apply (activate_new k l w2 (w_db w)); [done..|]|].
  { intros x Hx Heq. assert (In (sk_ID x) (map sk_ID (rows TSigningKeys (w_db w)))) as Hin by (rewrite <-Hids; by apply in_map).
    apply in_map_iff in Hin as (y & Hy & Hin). destruct (Hmade y Hin) as (m & Hm & Hym).
    rewrite Hy, Heq, Hk in Hym. apply uuid_inj in Hym. lia. }
  intros r w3 Hpost. destruct r as [k'|e]; [|done]. destruct (Hpost k' eq_refl) as (-> & Ht3 & Hdb3 & Hc3).
  split; [|split; [done|]].
  { destruct Hfresh as [(m & Hm & Hkm) ?]. split; [|done]. exists m. cbn. split; [lia|done]. }
  exists (map (sk_set_active false) l). split; [done|].
  destruct Hrows as [(t & (m & Hm & ->) & Hl)|[(m & Hm & Hio) Hl]].
  - left. exists (env_clock m). split; [exists m; cbn in *; split; [lia|done]|done].
  - right. split; [exists m; cbn in *; split; [lia|done]|done].
Qed.
End active_key.
