(* ===== verification/SingleUse.v ===== *)
(** * Taken once

    A code, and a refresh token, is taken by one request at most over the
    SQLite store ([code_taken_once], [refresh_taken_once]).  The store consumes a
    row by one UPDATE that matches it only while it is
    not spent.  No lock protects it, and none is needed: [take key] is that
    statement, [gone key] what it leaves and what everything else keeps. *)
From S2P Require Import Prelude GoTime GoText GoUrl Encoding Errors Domain Database Lockout PendingLogins World Run Metrics Store.
From S2P Require Import FileStore FileLaws StoreFacts Exec Sqlite Keys Password Jwt Totp Csrf Session AuthService Passkeys Account Authorize TokenService.
From S2P Require Import Interleaving Http Middleware Server Completion SqliteFacts.
#[local] Open Scope Z_scope.
#[local] Open Scope go_scope.


Section once.
Context `{Env} (asked : string -> Prop) (take : string -> Tx Z) (gone : string -> Database -> Prop).
Hypothesis take_gone : forall c db n db', take c db = inr (n, db') -> rowsAffected n = true -> gone c db'.
Hypothesis gone_take : forall c db n db', gone c db -> take c db = inr (n, db') -> rowsAffected n = false.

Definition spares {A} (m : Tx A) : Prop := forall c db a db', asked c -> gone c db -> m db = inr (a, db') -> gone c db'.
Hypothesis take_spares : forall c, spares (take c).

Lemma spares_bind {A B} (m : Tx A) (k : A -> Tx B) : spares m -> (forall a, spares (k a)) -> spares (tx_bind m k).
Proof.
  intros Hm Hk c db b db' Hc Hg. unfold tx_bind. destruct (m db) as [e|[a db1]] eqn:E; [done|].
  apply Hk; [done|]. by eapply Hm.
Qed.

Definition spares_event {X} (e : Ev X) : Prop := match e with ESql f => forall t, spares (f t) | _ => True end.
Fixpoint harmless {A} (p : Prog A) : Prop :=
  match p with
  | Ret _ => True
  | Vis e k => spares_event e /\ forall x, harmless (k x)
  end.

Definition took (r : SqlErr + Z) : bool := match r with inr n => rowsAffected n | inl _ => false end.

(** A program that fails, or takes [c] and fails unless it got it. *)
Inductive seeking {A} (c : string) : Prog (res A) -> Prop :=
| seek_event X (e : Ev X) k : spares_event e -> (forall x, seeking c (k x)) -> seeking c (Vis e k)
| seek_fail p : harmless p -> fails p -> seeking c p
| seek_take k : (forall r, harmless (k r)) -> (forall r, took r = false -> fails (k r)) ->
    seeking c (Vis (ESql (fun _ => take c)) k).

Inductive part := Seeks (c : string) | Took (c : string) | Missed (c : string) | Bystander.
Definition key_of (r : part) : option string :=
  match r with Seeks c | Took c | Missed c => Some c | Bystander => None end.

Definition acts {A} (w : World) (r : part) (p : Prog (res A)) : Prop :=
  match r with
  | Seeks c => seeking c p
  | Took c => harmless p /\ gone c (w_db w)
  | Missed c => harmless p /\ fails p
  | Bystander => harmless p
  end.

Lemma harmless_bind {A B} (p : Prog A) (f : A -> Prog B) :
  harmless p -> (forall a, harmless (f a)) -> harmless (bind p f).
Proof.
  intros Hp Hf. induction p as [a|X e k IH]; cbn [bind harmless] in *; [apply Hf|]. destruct Hp as [He Hk].
  split; [done|]. intros x. by apply IH.
Qed.

Lemma seeking_bind {A B} c (p : Prog A) (f : A -> Prog (res B)) :
  harmless p -> (forall a, seeking c (f a)) -> seeking c (bind p f).
Proof.
  intros Hp Hf. induction p as [a|X e k IH]; cbn [bind harmless] in *; [apply Hf|]. destruct Hp as [He Hk].
  apply seek_event; [done|]. intros x. by apply IH.
Qed.

(** An event keeps what is gone. *)
Lemma perform_spares {X} (e : Ev X) w c : asked c -> spares_event e -> gone c (w_db w) -> gone c (w_db (perform e w).2).
Proof.
  intros Hc He Hg. destruct e; cbn; repeat case_match; simplify_eq; try exact Hg. cbn. by eapply (He _ _ _ _ _ Hc Hg).
Qed.

(** What a step of one thread does to its part. *)
Record moved {A} (w w' : World) (r r' : part) (p' : Prog (res A)) : Prop := {
  mv_acts : acts w' r' p';
  mv_key : key_of r' = key_of r;
  mv_took : forall c, r' = Took c -> r = Took c \/ ~ gone c (w_db w);
  mv_gone : forall c, asked c -> gone c (w_db w) -> gone c (w_db w');
}.

Lemma take_step {A} c (k : SqlErr + Z -> Prog (res A)) w :
  (forall r, harmless (k r)) -> (forall r, took r = false -> fails (k r)) ->
  exists r', moved w (perform (ESql (fun _ => take c)) w).2 (Seeks c) r' (k (perform (ESql (fun _ => take c)) w).1).
Proof.
  intros Hk Hf. assert (forall c', asked c' -> gone c' (w_db w) -> gone c' (w_db (perform (ESql (fun _ => take c)) w).2))
    as Hkeep by (intros c' Hc'; apply perform_spares; [done|intros t; apply take_spares]).
  revert Hkeep. cbn [perform]. destruct (env_io (w_tick w)); [|intros Hkeep; exists (Missed c); split; try done; split; [done|by apply Hf]..].
  destruct (take c (w_db w)) as [e|[n db]] eqn:Ht; cbn [fst snd]; intros Hkeep.
  { exists (Missed c). split; try done. split; [done|by apply Hf]. }
  destruct (rowsAffected n) eqn:Hn.
  - exists (Took c). split; [split; [done|by eapply take_gone]|done| |done].
    intros c' [= <-]. right. intros Hg. rewrite (gone_take _ _ _ _ Hg Ht) in Hn. done.
  - exists (Missed c). split; try done. split; [done|by apply Hf].
Qed.

Lemma part_step {A} r (p p' : Prog (res A)) w w' :
  (forall c, key_of r = Some c -> asked c) -> acts w r p -> thread_step (p, w) (p', w') -> exists r', moved w w' r r' p'.
Proof.
  intros Hasked Hp Hs%thread_step_inv. cbn [fst snd] in Hs. destruct r as [c|c|c|]; cbn in Hp.
  - destruct Hp as [X e k He Hk|p Hh Hf|k Hk Hf].
    + destruct Hs as [_ [= -> ->]]. exists (Seeks c). split; try done; [apply Hk|]. intros c' Hc'. by apply perform_spares.
    + destruct p as [a|X e k]; [done|]. destruct Hs as [_ [= -> ->]], Hh as [He Hh].
      exists (Missed c). split; [split; [apply Hh|apply Hf]|done..|]. intros c' Hc'. by apply perform_spares.
    + destruct Hs as [_ [= -> ->]]. by apply take_step.
  - destruct p as [a|X e k]; [done|]. destruct Hs as [_ [= -> ->]], Hp as [[He Hh] Hg].
    assert (forall c, asked c -> gone c (w_db w) -> gone c (w_db (perform e w).2)) as Hkeep by (intros ??; by apply perform_spares).
    exists (Took c). split; [split; [apply Hh|by apply Hkeep, Hg; apply Hasked]|done|by left|done].
  - destruct p as [a|X e k]; [done|]. destruct Hs as [_ [= -> ->]], Hp as [[He Hh] Hf].
    exists (Missed c). split; [split; [apply Hh|apply Hf]|done..|]. intros ??. by apply perform_spares.
  - destruct p as [a|X e k]; [done|]. destruct Hs as [_ [= -> ->]], Hp as [He Hh].
    exists Bystander. split; [apply Hh|done..|]. intros ??. by apply perform_spares.
Qed.

(** The pool: each thread acts its part, and a key was taken once. *)
Record pool_once {A} (keys : list (option string)) (w : World) (ps : list (Prog (res A))) (rs : list part) : Prop := {
  po_acts : Forall2 (acts w) rs ps;
  po_keys : map key_of rs = keys;
  po_once : forall i j c, rs !! i = Some (Took c) -> rs !! j = Some (Took c) -> i = j;
}.

Lemma acts_moved {A} w w' r (p : Prog (res A)) : (forall c, key_of r = Some c -> asked c) ->
  (forall c, asked c -> gone c (w_db w) -> gone c (w_db w')) -> acts w r p -> acts w' r p.
Proof. intros Ha Hg. destruct r as [c|c|c|]; cbn; try done. intros [Hh Hc]. split; [done|]. by apply Hg; [apply Ha|]. Qed.

Lemma pool_once_step {A} keys w w' (ps ps' : list (Prog (res A))) rs :
  (forall c, Some c ∈ keys -> asked c) ->
  pool_once keys w ps rs -> pool_step (ps, w) (ps', w') -> exists rs', pool_once keys w' ps' rs'.
Proof.
  intros Hasked [Ha Hk Ho] Hstep. inversion Hstep as [qs p ts ? p' ? Hth]; subst.
  assert (forall r c, r ∈ rs -> key_of r = Some c -> asked c) as Hall.
  { intros r c Hr Hc. apply Hasked. rewrite <-Hc. by apply list_elem_of_fmap_2. }
  apply Forall2_app_inv_r in Ha as (rs1 & rs2 & H1 & H2 & ->).
  apply Forall2_cons_inv_r in H2 as (r & rs3 & Hp & H3 & ->).
  destruct (part_step r p p' w w') as [r' [Hact Hkey Htook Hgone]]; [intros c; apply Hall; set_solver|done|done|].
  assert (forall rs qs, (forall x, x ∈ rs -> x ∈ rs1 ++ r :: rs3) -> Forall2 (acts w) rs qs -> Forall2 (acts (A := A) w') rs qs) as Hmove.
  { intros rs qs' Hin. induction 1 as [|x q rs qs' Hx Hrs IH]; constructor.
    - apply (acts_moved w); [intros c; by apply Hall, Hin; left|done|done].
    - apply IH. intros y Hy. apply Hin. by right. }
  assert ((rs1 ++ r' :: rs3) = <[length rs1 := r']> (rs1 ++ r :: rs3)) as Heq by (by rewrite insert_app_r_alt, Nat.sub_diag).
  assert ((rs1 ++ r :: rs3) !! length rs1 = Some r) as Hr by (by rewrite lookup_app_r, Nat.sub_diag).
  exists (rs1 ++ r' :: rs3). split.
  - apply Forall2_app; [|constructor; [done|]]; (apply Hmove; [set_solver|done]).
  - rewrite !map_app. cbn. by rewrite Hkey.
  - (* a thread takes a key only when nobody has taken it *)
    assert (forall i j c, r' = Took c -> i = length rs1 -> (rs1 ++ r :: rs3) !! j = Some (Took c) -> i = j) as Hnew.
    { intros i j c Hc -> Hj. destruct (Htook c Hc) as [->|Hng]; [by apply (Ho _ _ c)|]. exfalso. apply Hng.
      assert (Forall2 (acts w) (rs1 ++ r :: rs3) (qs ++ p :: ts)) as Hacts by (apply Forall2_app; [done|by constructor]).
      destruct (Forall2_lookup_l _ _ _ _ _ Hacts Hj) as (q & _ & _ & Hg). exact Hg. }
    intros i j c. rewrite Heq. rewrite !list_lookup_insert_Some.
    intros [(<- & [= Hi] & _)|[Hi' Hi]] [(<- & [= Hj] & _)|[Hj' Hj]]; try done.
    + by eapply Hnew.
    + symmetry. by eapply Hnew.
    + by eapply Ho.
Qed.

Lemma pool_once_steps {A} keys w w' (ps ps' : list (Prog (res A))) rs :
  (forall c, Some c ∈ keys -> asked c) ->
  pool_once keys w ps rs -> pool_steps (ps, w) (ps', w') -> exists rs', pool_once keys w' ps' rs'.
Proof.
  intros Hasked Hp Hsteps. remember (ps, w) as st eqn:Hst. remember (ps', w') as st' eqn:Hst'.
  revert ps w rs Hst Hp. induction Hsteps as [st|st [ps1 w1] st' Hstep Hsteps IH]; intros ps w rs -> Hp; simplify_eq; [by exists rs|].
  destruct (pool_once_step _ _ _ _ _ _ Hasked Hp Hstep) as [rs1 Hp1]. by eapply IH.
Qed.

Lemma not_seeking {A} c (a : A) : ~ seeking c (Ret (Ok a)).
Proof. intros Hs. remember (Ret (Ok a)) as p eqn:Hp. destruct Hs as [| |]; by subst. Qed.

(** Of the threads that seek one key, one succeeds at most. *)
Lemma taken_once {A} (seekers : list (string * Prog (res A))) others w ps w' i j c p q a b :
  Forall (fun s => asked s.1 /\ seeking s.1 s.2) seekers -> Forall harmless others ->
  pool_steps (map snd seekers ++ others, w) (ps, w') ->
  seekers !! i = Some (c, p) -> seekers !! j = Some (c, q) ->
  ps !! i = Some (Ret (Ok a)) -> ps !! j = Some (Ret (Ok b)) -> i = j.
Proof.
  intros Hs Hothers Hsteps Hi Hj Ha Hb.
  set (rs := map (fun s => Seeks s.1) seekers ++ map (fun _ : Prog (res A) => Bystander) others).
  assert (pool_once (map key_of rs) w (map snd seekers ++ others) rs) as Hinv.
  { split; [|done|].
    - apply Forall2_app.
      + clear -Hs. induction Hs as [|[c p] l [_ Hp] Hl IH]; constructor; [done|done].
      + clear -Hothers. induction Hothers; constructor; done.
    - intros k l x Hk. exfalso. apply list_elem_of_lookup_2 in Hk. unfold rs in Hk.
      apply elem_of_app in Hk as [Hk|Hk]; apply list_elem_of_fmap in Hk as (? & ? & _); done. }
  assert (forall c', Some c' ∈ map key_of rs -> asked c') as Hasked.
  { intros c' Hc'. unfold rs in Hc'. rewrite map_app, !map_map in Hc'. apply elem_of_app in Hc' as [Hc'|Hc'];
      apply list_elem_of_fmap in Hc' as (x & [= Heq] & Hx). subst.
    rewrite Forall_forall in Hs. by destruct (Hs x (proj1 (list_elem_of_In _ _) Hx)). }
  destruct (pool_once_steps _ _ _ _ _ _ Hasked Hinv Hsteps) as [rs' [Hact Hkeys Honce]].
  assert (forall k p x, seekers !! k = Some (c, p) -> ps !! k = Some (Ret (Ok x)) -> rs' !! k = Some (Took c)) as Htook.
  { intros k p' x Hk Hx. destruct (Forall2_lookup_r _ _ _ _ _ Hact Hx) as (r & Hr & Hplay).
    assert (map key_of rs' !! k = Some (Some c)) as Hkey.
    { rewrite Hkeys. unfold rs. rewrite map_app, map_map, lookup_app_l; [by rewrite list_lookup_fmap, Hk|].
      rewrite length_map. by eapply lookup_lt_Some. }
    rewrite list_lookup_fmap, Hr in Hkey. injection Hkey as Hkey.
    destruct r as [c'|c'|c'|]; cbn in Hkey, Hplay; simplify_eq; [by apply not_seeking in Hplay|done|by destruct Hplay]. }
  exact (Honce _ _ _ (Htook _ _ _ Hi Ha) (Htook _ _ _ Hj Hb)).
Qed.
End once.

(** *** Rows that are spent *)

Section rows.
Context `{Sqlite} {A : Type} (U : Table A) (key : A -> string) (spent : A -> bool) (spend : A -> A).
Hypothesis spend_key : forall x, key (spend x) = key x.
Hypothesis spend_spent : forall x, spent (spend x) = true.

Definition take_row (c : string) : Tx Z := UPDATE U (fun x => (key x ==? c) && negb (spent x)) spend.

(** No row with the key is left to take; and there is one, that was taken. *)
Definition none_left (c : string) (db : Database) : Prop :=
  forall x, In x (rows U db) -> key x = c -> spent x = true.
Definition gone_row (c : string) (db : Database) : Prop :=
  none_left c db /\ exists x, In x (rows U db) /\ key x = c.

Lemma UPDATE_inv {B} (T : Table B) p f db n db' : UPDATE T p f db = inr (n, db') ->
  n = Z.of_nat (length (List.filter p (rows T db))) /\
  db' = set_rows T (map (fun x => if p x then f x else x) (rows T db)) db.
Proof. unfold UPDATE, checked. destruct (violations _ _); [by intros [= <- <-]|done]. Qed.

Lemma take_row_gone c db n db' : take_row c db = inr (n, db') -> rowsAffected n = true -> gone_row c db'.
Proof.
  intros (-> & ->)%UPDATE_inv Hn. unfold gone_row, none_left. rewrite rows_set_eq. split.
  - intros x (y & <- & Hy)%in_map_iff. destruct ((key y ==? c) && negb (spent y)) eqn:Hp; [intros _; apply spend_spent|].
    intros Hk. apply andb_false_iff in Hp as [Hp|Hp]; bool_to_prop; [done|by destruct (spent y)].
  - rewrite picked_found in Hn. apply bool_decide_eq_true in Hn as [x [Hx Hp]%find_first_Some]. exists (spend x).
    split; [|rewrite spend_key; by bool_to_prop]. apply in_map_iff. exists x. rewrite Hp. split; [done|by apply list_elem_of_In].
Qed.

Lemma none_left_take c db n db' : none_left c db -> take_row c db = inr (n, db') -> rowsAffected n = false.
Proof.
  intros Hn (-> & _)%UPDATE_inv. rewrite picked_found. apply bool_decide_eq_false. intros [x [Hx Hp]%find_first_Some].
  bool_to_prop. rewrite (Hn x) in *; [done|by apply list_elem_of_In|done].
Qed.

(** *** Statements that spare them *)

Context (asked : string -> Prop).
Abbreviation spares_left m := (spares asked none_left m).
Abbreviation spares_gone m := (spares asked gone_row m).

(** A transaction that leaves the table alone. *)
Definition leaves {B} (m : Tx B) : Prop := forall db b db', m db = inr (b, db') -> rows U db' = rows U db.
Lemma leaves_left {B} (m : Tx B) : leaves m -> spares_left m.
Proof. intros Hl c db b db' _ Hg Hm x. rewrite (Hl _ _ _ Hm). apply Hg. Qed.
Lemma leaves_gone {B} (m : Tx B) : leaves m -> spares_gone m.
Proof. intros Hl c db b db' _ Hg Hm. unfold gone_row, none_left. by rewrite (Hl _ _ _ Hm). Qed.

Definition apart {B} (T : Table B) : Prop := forall l db, rows U (set_rows T l db) = rows U db.

Lemma leaves_checked {B X} (T : Table B) l (x : X) : apart T -> leaves (checked T l x).
Proof. intros Ha db b db'. unfold checked. destruct (violations T l); [|done]. intros [= _ <-]. apply Ha. Qed.
Lemma leaves_INSERT {B} (T : Table B) x : apart T -> leaves (INSERT T x).
Proof.
  intros Ha db b db'. unfold INSERT. case_match; [by apply leaves_checked|]. by destruct (checked _ _ _ _).
Qed.
Lemma leaves_INSERT_or_update {B} (T : Table B) t f x : apart T -> leaves (INSERT_or_update T t f x).
Proof. intros Ha db b db'. unfold INSERT_or_update. case_match; [by apply leaves_checked|by apply leaves_INSERT]. Qed.
Lemma leaves_UPDATE {B} (T : Table B) p f : apart T -> leaves (UPDATE T p f).
Proof. intros Ha db b db' (_ & ->)%UPDATE_inv. apply Ha. Qed.
Lemma leaves_SELECT {B} (T : Table B) p : leaves (SELECT T p).
Proof. by intros db b db' [= _ <-]. Qed.
Lemma leaves_SELECT_row {B} (T : Table B) p : leaves (SELECT_row T p).
Proof. by intros db b db' [= _ <-]. Qed.
Lemma leaves_COUNT {B} (T : Table B) p : leaves (COUNT T p).
Proof. by intros db b db' [= _ <-]. Qed.
Lemma leaves_ret {B} (b : B) : leaves (tx_ret b).
Proof. by intros db x db' [= _ <-]. Qed.
Lemma leaves_fail {B} e : leaves (@tx_fail B e).
Proof. done. Qed.

(** A change that unspends nothing. *)
Lemma spares_left_UPDATE p f :
  (forall x, key (f x) = key x) -> (forall x, spent x = true -> spent (f x) = true) -> spares_left (UPDATE U p f).
Proof.
  intros Hk Hf c db b db' _ Hg (_ & ->)%UPDATE_inv x. rewrite rows_set_eq.
  intros (y & <- & Hy)%in_map_iff Hx. destruct (p y); [apply Hf; rewrite Hk in Hx|]; by apply Hg.
Qed.
Lemma spares_gone_UPDATE p f :
  (forall x, key (f x) = key x) -> (forall x, spent x = true -> spent (f x) = true) -> spares_gone (UPDATE U p f).
Proof.
  intros Hk Hf c db b db' Hc [Hg (x & Hx & Hkx)] Hu. split; [by eapply spares_left_UPDATE|].
  apply UPDATE_inv in Hu as [_ ->]. rewrite rows_set_eq. exists (if p x then f x else x).
  split; [by apply in_map_iff; exists x|]. by destruct (p x); rewrite ?Hk.
Qed.

(** A row with another key is added, *)
Lemma spares_left_INSERT x : ~ asked (key x) -> spares_left (INSERT U x).
Proof.
  intros Hx c db b db' Hc Hg Hi y. assert (db' = set_rows U (rows U db ++ [x]) db) as ->.
  { revert Hi. unfold INSERT, checked. destruct (violations U (rows U db ++ [x])); [|by case_match].
    case_match; [|done]. by intros [= _ <-]. }
  rewrite rows_set_eq. intros [Hy|[->|[]]]%in_app_iff; [by apply Hg|]. intros <-. done.
Qed.

(** or any row, when the key is a primary key. *)
Lemma spares_gone_INSERT c' x : c' ∈ constraints U -> (forall y, uq_key c' y = Some [key y]) -> spares_gone (INSERT U x).
Proof.
  intros Hc' Hkey c db b db' _ [Hg (y & Hy & Hky)] Hi.
  assert (violations U (rows U db ++ [x]) = [] /\ db' = set_rows U (rows U db ++ [x]) db) as [Hv ->].
  { revert Hi. unfold INSERT, checked. destruct (violations U (rows U db ++ [x])); [|by case_match].
    case_match; [|done]. by intros [= _ <-]. }
  assert (key x <> c) as Hne.
  { intros Hx. rewrite violations_none in Hv. specialize (Hv c' Hc'). revert Hv Hy. clear -Hkey Hx Hky.
    induction (rows U db) as [|z l IH]; cbn; [done|]. intros [Hz Hl]%orb_false_iff [->|Hin]; [|by apply IH].
    apply not_true_iff_false in Hz. apply Hz, existsb_exists. exists x. split; [apply in_app_iff; right; by left|].
    unfold clash. rewrite !Hkey. apply bool_decide_eq_true. congruence. }
  unfold gone_row, none_left. rewrite rows_set_eq. split.
  - intros z [Hz|[->|[]]]%in_app_iff; [by apply Hg|done].
  - exists y. split; [apply in_app_iff; by left|done].
Qed.

(** Rows go. *)
Lemma spares_left_DELETE {B} (T : Table B) p :
  (forall l db, (forall x, In x l -> In x (rows T db)) -> forall x, In x (rows U (set_rows T l db)) -> In x (rows U db)) ->
  spares_left (DELETE T p).
Proof.
  intros Hsub c db b db' _ Hg Hd x Hx. apply Hg. revert Hx. unfold DELETE in Hd. injection Hd as _ <-.
  assert (forall x, In x (rows U (set_rows T (List.filter (fun x => negb (p x)) (rows T db)) db)) -> In x (rows U db)) as Hin.
  { apply Hsub. by intros y [Hy _]%List.filter_In. }
  destruct (db_foreign_keys db); [|apply Hin]. rewrite rows_cascade. intros [Hx _]%List.filter_In. by apply Hin.
Qed.
End rows.

(** *** The requests of the token endpoint *)

Lemma spares_wrap asked gone {A} g (m : Tx A) : spares asked gone m -> spares asked gone (tx_wrap g m).
Proof.
  intros Hm c db a db' Hc Hg. unfold tx_wrap. destruct (m db) as [e|[x db1]] eqn:E; [done|]. rewrite <-E. by apply Hm.
Qed.

Definition token_gone := gone_row TTokens token_ID token_Revoked.
Definition token_take `{Sqlite} := take_row TTokens token_ID token_Revoked token_set_revoked.
Definition code_gone := none_left TAuthCodes ac_Code ac_Used.
Definition code_take `{Sqlite} := take_row TAuthCodes ac_Code ac_Used ac_set_used.

(** A statement on another table, or one that only spends. *)
Ltac apart := intros ? []; reflexivity.
Ltac leaves :=
  first [ apply leaves_INSERT; apart | apply leaves_INSERT_or_update; apart | apply leaves_UPDATE; apart
        | apply leaves_SELECT | apply leaves_SELECT_row | apply leaves_COUNT | apply leaves_ret | apply leaves_fail ].
Ltac spends :=
  first [ apply leaves_gone; leaves | apply leaves_left; leaves
        | apply spares_gone_UPDATE; by intros []
        | apply spares_left_UPDATE; by intros []
        | by eapply spares_gone_INSERT; [left|intros ?; reflexivity] ].
Ltac spare_step :=
  lazymatch goal with
  | |- forall _, _ => intros ?
  | |- spares _ _ (tx_bind _ _) => apply spares_bind; [|intros ?]
  | |- spares _ _ (tx_wrap _ _) => apply spares_wrap
  | |- spares _ _ (match ?x with _ => _ end) => destruct x
  | |- spares _ _ ?m => first [solve [spends] | let h := head_of m in progress unfold h]
  end.
Ltac spare := unfold token_gone, code_gone; repeat (cbn beta zeta; spare_step).

Create HintDb harmless discriminated.
Ltac harmless_step :=
  lazymatch goal with
  | |- harmless _ _ (Ret _) => exact I
  | |- harmless _ _ (bind _ _) => apply harmless_bind; [|intros ?]
  | |- harmless _ _ (trigger _) => split; [first [exact I|cbn; spare]|intros ?; exact I]
  | |- harmless _ _ (match ?x with _ => _ end) => destruct x
  | |- harmless _ _ ?p =>
      first [ solve [auto 2 with harmless nocore]
            | let h := head_of p in progress unfold h; cbv beta iota delta [SQLiteStore] ]
  end.
Ltac harmless := repeat harmless_step.

Section endpoint.
Context `{Env} `{Sqlite} `{UnicodeTables} `{KeyLib} `{JwtLib} `{Argon2} (s : TokenService).
#[local] Existing Instance SQLiteStore.

Context (asked : string -> Prop).

Lemma revoke_each_spares_tokens clientID l : harmless asked token_gone (revoke_each clientID l).
Proof. induction l as [|t l IH]; cbn [revoke_each]; harmless; done. Qed.
Lemma revoke_each_spares_codes clientID l : harmless asked code_gone (revoke_each clientID l).
Proof. induction l as [|t l IH]; cbn [revoke_each]; harmless; done. Qed.
#[local] Hint Resolve revoke_each_spares_tokens revoke_each_spares_codes : harmless.

Lemma authenticate_spares_tokens g req : harmless asked token_gone (authenticate_for g req).
Proof. harmless. Qed.
Lemma authenticate_spares_codes g req : harmless asked code_gone (authenticate_for g req).
Proof. harmless. Qed.
Lemma cut_off_spares_tokens m u c e : harmless asked token_gone (cut_off s m u c e).
Proof. harmless. Qed.
Lemma cut_off_spares_codes m u c e : harmless asked code_gone (cut_off s m u c e).
Proof. harmless. Qed.
Lemma generate_spares_tokens u c sc n t amr g : harmless asked token_gone (generateTokens s u c sc n t amr g).
Proof. harmless. Qed.
Lemma generate_spares_codes u c sc n t amr g : harmless asked code_gone (generateTokens s u c sc n t amr g).
Proof. harmless. Qed.
Lemma user_spares_tokens u : harmless asked token_gone (active_user u).
Proof. harmless. Qed.
Lemma user_spares_codes u : harmless asked code_gone (active_user u).
Proof. harmless. Qed.
End endpoint.

Section taken.
Context `{Env} `{Sqlite} `{UnicodeTables} `{KeyLib} `{JwtLib} `{Argon2} (s : TokenService).
#[local] Existing Instance SQLiteStore.

Lemma harmless_try {A B} asked gone (p : Prog (res A)) (f : A -> Prog (res B)) :
  harmless asked gone p -> (forall a, harmless asked gone (f a)) -> harmless asked gone (let? a := p in f a).
Proof. intros Hp Hf. apply harmless_bind; [done|]. intros [a|e]; [apply Hf|done]. Qed.

Lemma seeking_try {A B} asked take gone c (p : Prog (res A)) (f : A -> Prog (res B)) :
  harmless asked gone p -> (forall a, seeking asked take gone c (f a)) ->
  seeking asked take gone c (let? a := p in f a).
Proof. intros Hp Hf. apply seeking_bind; [done|]. intros [a|e]; [apply Hf|by apply seek_fail]. Qed.

(** The consuming operations, and what goes on after them. *)
Definition carries_on asked gone {A} (K : res unit -> Prog (res A)) : Prop :=
  (forall x, harmless asked gone (K x)) /\ forall e, fails (K (Err e)).

Lemma rotate_seeks {A} asked c (K : res unit -> Prog (res A)) : carries_on asked token_gone K ->
  seeking asked token_take token_gone c (bind (tokenRepository_Rotate c) K).
Proof.
  intros [Hk Hf]. apply (seek_take asked token_take token_gone c).
  - intros [e|n]; [apply Hk|]. destruct (rowsAffected n); [apply Hk|]. split; [cbn; spare|]. intros x. apply Hk.
  - intros [e|n]; cbn; [intros _; apply Hf|]. intros ->. cbn. intros x. apply Hf.
Qed.

Lemma mark_seeks {A} asked c (K : res unit -> Prog (res A)) : carries_on asked code_gone K ->
  seeking asked code_take code_gone c (bind (authCodeRepository_MarkUsed c) K).
Proof.
  intros [Hk Hf]. apply (seek_take asked code_take code_gone c).
  - intros [e|n]; [apply Hk|]. destruct (rowsAffected n); [apply Hk|]. split; [cbn; spare|]. intros x. apply Hk.
  - intros [e|n]; cbn; [intros _; apply Hf|]. intros ->. cbn. intros x. apply Hf.
Qed.

Lemma cut_off_fails m u c e : fails (cut_off s m u c e).
Proof. apply fails_bind. by intros []. Qed.

Lemma refresh_seeks asked req : seeking asked token_take token_gone (tr_RefreshToken req) (HandleRefreshToken s req).
Proof.
  unfold HandleRefreshToken. case_match; [by apply seek_fail|].
  apply seeking_try; [apply authenticate_spares_tokens|]. intros client. apply seeking_try; [harmless|]. intros token.
  case_match; [by apply seek_fail|]. apply seeking_bind; [harmless|]. intros t.
  case_match; [apply seek_fail; [apply cut_off_spares_tokens|apply cut_off_fails]|].
  apply seeking_bind; [harmless|]. intros t'. case_match; [by apply seek_fail|].
  apply seeking_try; [apply user_spares_tokens|]. intros user. apply seeking_try; [harmless|]. intros scope.
  apply rotate_seeks. split.
  - intros [x|e]; [apply generate_spares_tokens|]. case_match; [apply cut_off_spares_tokens|done].
  - intros e. case_match; [apply cut_off_fails|done].
Qed.

Lemma exchange_seeks asked req : seeking asked code_take code_gone (tr_Code req) (HandleAuthorizationCode s req).
Proof.
  unfold HandleAuthorizationCode. case_match; [by apply seek_fail|]. case_match; [by apply seek_fail|].
  apply seeking_try; [apply authenticate_spares_codes|]. intros client. apply seeking_try; [harmless|]. intros code.
  case_match; [by apply seek_fail|].
  case_match; [apply seek_fail; [apply cut_off_spares_codes|apply cut_off_fails]|].
  apply seeking_bind; [harmless|]. intros t. repeat (case_match; [by apply seek_fail|]).
  apply mark_seeks. split.
  - intros [x|e].
    + apply harmless_try; [apply user_spares_codes|]. intros user. apply generate_spares_codes.
    + case_match; [apply cut_off_spares_codes|done].
  - intros e. case_match; [apply cut_off_fails|done].
Qed.

(** What may run beside: the other grant, and for codes also the issue of
    other codes and the purge. *)
Lemma exchange_spares_tokens asked req : harmless asked token_gone (HandleAuthorizationCode s req).
Proof.
  unfold HandleAuthorizationCode, or_invalid_grant. repeat (case_match; [done|]).
  apply harmless_try; [apply authenticate_spares_tokens|]. intros client. apply harmless_try; [harmless|]. intros code.
  case_match; [done|]. case_match; [apply cut_off_spares_tokens|]. apply harmless_bind; [harmless|]. intros t.
  repeat (case_match; [done|]). apply harmless_bind; [harmless|]. intros [x|e].
  - apply harmless_try; [apply user_spares_tokens|]. intros user. apply generate_spares_tokens.
  - case_match; [apply cut_off_spares_tokens|done].
Qed.

Lemma refresh_spares_codes asked req : harmless asked code_gone (HandleRefreshToken s req).
Proof.
  unfold HandleRefreshToken. case_match; [done|]. apply harmless_try; [apply authenticate_spares_codes|]. intros client.
  apply harmless_try; [harmless|]. intros token. case_match; [done|]. apply harmless_bind; [harmless|]. intros t.
  case_match; [apply cut_off_spares_codes|]. apply harmless_bind; [harmless|]. intros t'. case_match; [done|].
  apply harmless_try; [apply user_spares_codes|]. intros user. apply harmless_try; [harmless|]. intros scope.
  apply harmless_bind; [harmless|]. intros [x|e]; [apply generate_spares_codes|]. case_match; [apply cut_off_spares_codes|done].
Qed.

Lemma issue_spares asked code : ~ asked (ac_Code code) -> harmless asked code_gone (authCodeRepository_Create code).
Proof.
  intros Hc. unfold authCodeRepository_Create. apply harmless_bind; [harmless|]. intros t. apply harmless_bind; [|done].
  split; [cbn; intros _; apply spares_left_INSERT; by destruct code|done].
Qed.
Lemma purge_spares asked : harmless asked code_gone authCodeRepository_DeleteExpired.
Proof.
  unfold authCodeRepository_DeleteExpired. apply harmless_bind; [harmless|]. intros t. apply harmless_bind; [|done].
  split; [cbn; intros _|done]. apply spares_left_DELETE. intros l db Hl x. rewrite (rows_set_eq TAuthCodes). apply Hl.
Qed.

(** The codes some requests present. *)
Definition presented (reqs : list TokenRequest) (c : string) : Prop := exists r, r ∈ reqs /\ tr_Code r = c.

(** Over the SQLite store a code is exchanged once, however the
    requests interleave, and whatever else runs beside them: refreshes, the
    purge of expired codes, and the issue of other codes, which over the file
    store can bring a code back. *)
Theorem code_taken_once reqs refreshes others w ps w' i j ri rj a b :
  Forall (harmless (presented reqs) code_gone) others ->
  pool_steps (map (HandleAuthorizationCode s) reqs ++ map (HandleRefreshToken s) refreshes ++ others, w) (ps, w') ->
  reqs !! i = Some ri -> reqs !! j = Some rj -> tr_Code ri = tr_Code rj ->
  ps !! i = Some (Ret (Ok a)) -> ps !! j = Some (Ret (Ok b)) -> i = j.
Proof.
  intros Hothers Hsteps Hi Hj Heq Ha Hb.
  set (seekers := map (fun r => (tr_Code r, HandleAuthorizationCode s r)) reqs).
  assert (map snd seekers = map (HandleAuthorizationCode s) reqs) as Hsnd by (unfold seekers; by rewrite map_map).
  rewrite <-Hsnd in Hsteps. eapply (taken_once (presented reqs) code_take code_gone); [..|exact Hsteps| | |exact Ha|exact Hb].
  - intros c db n db' Ht Hn. eapply take_row_gone in Ht as [Hg _]; [exact Hg|by intros []|by intros []|done].
  - intros c db n db'. by apply none_left_take.
  - intros c. unfold code_take, code_gone. apply spares_left_UPDATE; by intros [].
  - apply Forall_map, List.Forall_forall. intros r Hr. split; [exists r; split; [by apply list_elem_of_In|done]|apply exchange_seeks].
  - apply Forall_app_2; [|done]. apply Forall_map, List.Forall_forall. intros r _. apply refresh_spares_codes.
  - unfold seekers. by rewrite list_lookup_fmap, Hi.
  - unfold seekers. rewrite list_lookup_fmap, Hj. cbn. by rewrite Heq.
Qed.

(** Claim C10.  Over the SQLite store a refresh token is rotated once, however
    refreshes, code exchanges and other programs interleave that neither
    delete spent tokens nor take back a rotation: no new token, whoever
    stores it, brings a rotated one back. *)
Theorem refresh_taken_once reqs exchanges others w ps w' i j ri rj a b :
  Forall (harmless (fun _ => True) token_gone) others ->
  pool_steps (map (HandleRefreshToken s) reqs ++ map (HandleAuthorizationCode s) exchanges ++ others, w) (ps, w') ->
  reqs !! i = Some ri -> reqs !! j = Some rj -> tr_RefreshToken ri = tr_RefreshToken rj ->
  ps !! i = Some (Ret (Ok a)) -> ps !! j = Some (Ret (Ok b)) -> i = j.
Proof.
  intros Hothers Hsteps Hi Hj Heq Ha Hb.
  set (seekers := map (fun r => (tr_RefreshToken r, HandleRefreshToken s r)) reqs).
  assert (map snd seekers = map (HandleRefreshToken s) reqs) as Hsnd by (unfold seekers; by rewrite map_map).
  rewrite <-Hsnd in Hsteps. eapply (taken_once (fun _ => True) token_take token_gone); [..|exact Hsteps| | |exact Ha|exact Hb].
  - intros c db n db' Ht Hn. eapply (take_row_gone TTokens token_ID token_Revoked token_set_revoked); [by intros []|by intros []|exact Ht|done].
  - intros c db n db' [Hn _]. by apply none_left_take.
  - intros c. unfold token_take, token_gone. apply spares_gone_UPDATE; by intros [].
  - apply Forall_map, List.Forall_forall. intros r Hr. split; [done|apply refresh_seeks].
  - apply Forall_app_2; [|done]. apply Forall_map, List.Forall_forall. intros r _. apply exchange_spares_tokens.
  - unfold seekers. by rewrite list_lookup_fmap, Hi.
  - unfold seekers. rewrite list_lookup_fmap, Hj. cbn. by rewrite Heq.
Qed.
End taken.
