(* ===== verification/Ctl.v ===== *)
(** * cmd/idpicoctl/app.go: the command line

    A command is a program that ends in an error or in what it prints: lines,
    and tables whose cells the tab writer lines up.  [store_Backup] is the
    store's online backup when it has one (the SQLite driver's), [usage] the
    text of the usage message. *)
From S2P Require Import Prelude GoTime GoText Encoding GoUrl GoNetip Errors GoDuration Domain Database Lockout.
From S2P Require Import PendingLogins World Run Metrics Store Sqlite Exec StoreFacts Keys Password Totp Csrf.
From S2P Require Import Session AuthService Passkeys Account ClientForm Config AdminHandlers TokenFacts AuthFacts.
From S2P Require Import Scope AccountFacts Maintenance AdminFacts Bootstrap Opening.
From Stdlib Require Import Ascii.
#[local] Open Scope Z_scope.
#[local] Open Scope go_scope.

(** ** Output *)

Inductive cell := Text (s : string) | Truth (b : bool) | Count (n : Z) | Date (t : Z).
Inductive printed := Line (s : string) | Table (rows : list (list cell)).

Definition fail {A} (text : string) : Prog (res A) := ret_err (Plain text).
Definition say (text : string) : Prog (res (list printed)) := ret_ok [Line text].

(** ** The positional argument *)

Section arguments.
Context `{UnicodeTables}.

(** The loop of [parseOne], for at most [fuel] arguments. *)
Fixpoint positional_from (fuel : nat) (fs : FlagSet) (args : list string) (found : list string)
    : option (res (FlagSet * list string)) :=
  match args with
  | [] => Some (Ok (fs, found))
  | _ =>
      match fuel with
      | O => None
      | S fuel =>
          match flag_Parse fs args with
          | Err e => Some (Err e)
          | Ok (fs, []) => Some (Ok (fs, found))
          | Ok (fs, x :: rest) => positional_from fuel fs rest (found ++ [x])
          end
      end
  end.

Definition parseOne (fs : FlagSet) (args : list string) (what : string) : res (FlagSet * string) :=
  match positional_from (length args) fs args [] with
  | Some (Ok (fs, [x])) => Ok (fs, x)
  | Some (Ok _) => Err (Plain ("expected exactly one " +:+ what +:+ " argument"))
  | Some (Err e) => Err e
  | None => Err (Plain "out of fuel")
  end.

Definition flag_string (fs : FlagSet) (name : string) : string :=
  match flag_lookup fs name with Some (FString s) => s | _ => "" end.
Definition flag_bool (fs : FlagSet) (name : string) : bool :=
  match flag_lookup fs name with Some (FBool b) => b | _ => false end.
Definition flag_duration (fs : FlagSet) (name : string) : Z :=
  match flag_lookup fs name with Some (FDuration d) => d | _ => 0 end.
Definition flag_multi (fs : FlagSet) (name : string) : list string :=
  match flag_lookup fs name with Some (FMulti l) => l | _ => [] end.
End arguments.

(** ** Commands *)

Section app.
Context `{Store} `{UnicodeTables} `{KeyLib} `{Argon2}.
Context (usage : string) (keys : KeyService) (store_Backup : option (string -> Prog (res unit))).

Definition randomPassword : Prog (res string) := randomSecret 24.

Definition backup (path : string) : Prog (res (list printed)) :=
  match store_Backup with
  | None => fail "backup needs the sqlite driver; with -driver file, stop the server and copy the data directory"
  | Some b => let? _ := b path in say ("backed up to " +:+ path)
  end.

(** ** Users *)

Definition user_list : Prog (res (list printed)) :=
  let? list := Users_List in
  ret_ok [Table (map Text ["EMAIL"; "NAME"; "ACTIVE"; "VERIFIED"; "ADMIN"; "TWO-STEP"; "ID"]
    :: map (fun u => [Text (user_Email u); Text (user_DisplayName u); Truth (user_Active u);
                      Truth (user_EmailVerified u); Truth (user_Admin u); Truth (TOTPEnabled u); Text (user_ID u)])
         list)].

Definition user_add_flags : FlagSet :=
  [("name", FString ""); ("given-name", FString ""); ("family-name", FString ""); ("password", FString "");
   ("admin", FBool false); ("verified", FBool false); ("inactive", FBool false)].

Definition ctl_user (fs : FlagSet) (id email hash : string) : User := {|
  user_ID := id; user_Email := email; user_PasswordHash := hash; user_DisplayName := flag_string fs "name";
  user_GivenName := flag_string fs "given-name"; user_FamilyName := flag_string fs "family-name";
  user_Active := negb (flag_bool fs "inactive"); user_EmailVerified := flag_bool fs "verified";
  user_Admin := flag_bool fs "admin"; user_TOTPSecret := ""; user_TOTPLastStep := 0; user_RecoveryCodes := [];
  user_CreatedAt := zero_time; user_UpdatedAt := zero_time |}.

Definition user_add (args : list string) : Prog (res (list printed)) :=
  let? (fs, email) := Ret (parseOne user_add_flags args "email") in
  let? (pw, generated) := (if flag_string fs "password" ==? ""
                           then let? pw := randomPassword in ret_ok (pw, true)
                           else ret_ok (flag_string fs "password", false)) in
  let? _ := Ret (ValidatePassword pw) in
  let? hash := HashPassword pw in
  let! id := newUUID in
  let? u := Users_Create (ctl_user fs id email hash) in
  ret_ok (Line ("created user " +:+ user_Email u +:+ " (" +:+ user_ID u +:+ ")")
          :: (if generated : bool then [Line ("password: " +:+ pw)] else [])).

Definition user_passwd (args : list string) : Prog (res (list printed)) :=
  match args with
  | [email; password] =>
      let? u := Users_GetByEmail email in
      let? _ := Ret (ValidatePassword password) in
      let? hash := HashPassword password in
      let? u := Users_Update (user_set_password hash u) in
      let! _ := ignore (Sessions_DeleteByUserID (user_ID u)) in
      let! _ := ignore (Tokens_RevokeByUserID (user_ID u)) in
      say ("password updated for " +:+ user_Email u +:+ "; sessions and refresh tokens revoked")
  | _ => fail "usage: user passwd <email> <password>"
  end.

Definition user_reset_two_step (args : list string) : Prog (res (list printed)) :=
  match args with
  | [email] =>
      let? u := Users_GetByEmail email in
      let? _ := ResetSecondFactors u in
      say ("two-step sign-in reset for " +:+ user_Email u
           +:+ ": authenticator app, passkeys and recovery codes removed")
  | _ => fail "usage: user reset-two-step <email>"
  end.

Definition user_set_admin_cmd (args : list string) : Prog (res (list printed)) :=
  match args with
  | [email; value] =>
      if (value !=? "true") && (value !=? "false") then fail "usage: user set-admin <email> true|false"
      else
        let? u := Users_GetByEmail email in
        let? u := Users_Update (user_set_admin (value ==? "true") u) in
        say (user_Email u +:+ " admin=" +:+ (if user_Admin u then "true" else "false"))
  | _ => fail "usage: user set-admin <email> true|false"
  end.

Definition user_delete (args : list string) : Prog (res (list printed)) :=
  match args with
  | [email] =>
      let? u := Users_GetByEmail email in
      let! _ := ignore (Sessions_DeleteByUserID (user_ID u)) in
      let! _ := ignore (Tokens_RevokeByUserID (user_ID u)) in
      let! _ := ignore (Consents_DeleteByUserID (user_ID u)) in
      let! _ := ignore (Passkeys_DeleteByUserID (user_ID u)) in
      let! _ := ignore (Verification_DeleteByUserID (user_ID u) "") in
      let! _ := ignore (Groups_RemoveUser (user_ID u)) in
      let? _ := Users_Delete (user_ID u) in
      say ("deleted user " +:+ user_Email u)
  | _ => fail "usage: user delete <email>"
  end.

Definition user (cmd : string) (args : list string) : Prog (res (list printed)) :=
  if cmd ==? "list" then user_list
  else if cmd ==? "add" then user_add args
  else if cmd ==? "passwd" then user_passwd args
  else if cmd ==? "reset-two-step" then user_reset_two_step args
  else if cmd ==? "set-admin" then user_set_admin_cmd args
  else if cmd ==? "delete" then user_delete args
  else fail ("unknown user command " +:+ Quote cmd).

(** ** Groups *)

Fixpoint group_rows (l : list Group) : Prog (list (list cell)) :=
  match l with
  | [] => Ret []
  | g :: l =>
      let! ids := Groups_MemberIDs (group_ID g) in
      let! rows := group_rows l in
      Ret ([Text (group_Name g); Count (match ids with Ok ids => length_Z ids | Err _ => 0 end);
            Text (group_Description g)] :: rows)
  end.

Definition group_list : Prog (res (list printed)) :=
  let? list := Groups_List in
  let! rows := group_rows list in
  ret_ok [Table (map Text ["NAME"; "MEMBERS"; "DESCRIPTION"] :: rows)].

Definition group_add (args : list string) : Prog (res (list printed)) :=
  let? (fs, name) := Ret (parseOne [("desc", FString "")] args "name") in
  let! id := newUUID in
  let? g := Groups_Create {| group_ID := id; group_Name := name; group_Description := flag_string fs "desc";
                             group_CreatedAt := zero_time; group_UpdatedAt := zero_time |} in
  say ("created group " +:+ group_Name g).

Definition group_delete (args : list string) : Prog (res (list printed)) :=
  match args with
  | [name] =>
      let? g := Groups_GetByName name in
      let? _ := Groups_Delete (group_ID g) in
      say ("deleted group " +:+ group_Name g)
  | _ => fail "usage: group delete <name>"
  end.

Fixpoint member_lines (ids : list string) : Prog (list printed) :=
  match ids with
  | [] => Ret []
  | id :: ids =>
      let! u := Users_GetByID id in
      let! lines := member_lines ids in
      Ret (match u with Ok u => Line (user_Email u) :: lines | Err _ => lines end)
  end.

Definition group_members (args : list string) : Prog (res (list printed)) :=
  match args with
  | [name] =>
      let? g := Groups_GetByName name in
      let? ids := Groups_MemberIDs (group_ID g) in
      let! lines := member_lines ids in
      ret_ok lines
  | _ => fail "usage: group members <name>"
  end.

Definition group_member (cmd : string) (args : list string) : Prog (res (list printed)) :=
  match args with
  | [name; email] =>
      let? g := Groups_GetByName name in
      let? u := Users_GetByEmail email in
      if cmd ==? "add-member" then
        let? _ := Groups_AddMember (group_ID g) (user_ID u) in
        say ("added " +:+ user_Email u +:+ " to " +:+ group_Name g)
      else
        let? _ := Groups_RemoveMember (group_ID g) (user_ID u) in
        say ("removed " +:+ user_Email u +:+ " from " +:+ group_Name g)
  | _ => fail ("usage: group " +:+ cmd +:+ " <name> <email>")
  end.

Definition group (cmd : string) (args : list string) : Prog (res (list printed)) :=
  if cmd ==? "list" then group_list
  else if cmd ==? "add" then group_add args
  else if cmd ==? "delete" then group_delete args
  else if cmd ==? "members" then group_members args
  else if (cmd ==? "add-member") || (cmd ==? "remove-member") then group_member cmd args
  else fail ("unknown group command " +:+ Quote cmd).

(** ** Clients *)

Definition client_list : Prog (res (list printed)) :=
  let? list := Clients_List in
  ret_ok [Table (map Text ["ID"; "NAME"; "TYPE"; "CONSENT"; "REDIRECT URIS"]
    :: map (fun c => [Text (client_ID c); Text (client_Name c);
                      Text (if client_Public c then "public" else "confidential");
                      Text (if client_SkipConsent c then "skipped" else "required");
                      Text (Join (client_RedirectURIs c) " ")]) list)].

Definition client_add_flags : FlagSet :=
  [("redirect", FMulti []); ("name", FString ""); ("public", FBool false); ("skip-consent", FBool false);
   ("minimal-id-token", FBool false); ("scopes", FString "openid profile email offline_access groups");
   ("grant-types", FString "authorization_code refresh_token"); ("access-ttl", FDuration 0);
   ("refresh-ttl", FDuration 0)].

(** What is wrong with the flags. *)
Definition unsupported_grant (g : string) : bool := (g !=? "authorization_code") && (g !=? "refresh_token").

Definition client_flags_problem (fs : FlagSet) : option error :=
  match flag_multi fs "redirect" with
  | [] => Some (Plain "at least one -redirect URI is required")
  | uris =>
      match firstInvalidRedirect uris with
      | Some e => Some e
      | None =>
          if (flag_duration fs "access-ttl" <? 0) || (MaxAccessTokenTTL <? flag_duration fs "access-ttl") then
            Some (Plain ("-access-ttl: at most " +:+ Duration_String MaxAccessTokenTTL))
          else match find_first unsupported_grant (Fields (flag_string fs "grant-types")) with
          | Some g => Some (Plain ("unsupported grant type " +:+ Quote g +:+ " (authorization_code, refresh_token)"))
          | None => None
          end
      end
  end.

Definition ctl_client (fs : FlagSet) (id secretHash : string) : Client := {|
  client_ID := id; client_Secret := secretHash;
  client_Name := if flag_string fs "name" ==? "" then id else flag_string fs "name";
  client_RedirectURIs := flag_multi fs "redirect"; client_GrantTypes := Fields (flag_string fs "grant-types");
  client_Scopes := Fields (flag_string fs "scopes"); client_Public := flag_bool fs "public";
  client_SkipConsent := flag_bool fs "skip-consent"; client_MinimalIDToken := flag_bool fs "minimal-id-token";
  client_AccessTokenTTL := flag_duration fs "access-ttl"; client_RefreshTokenTTL := flag_duration fs "refresh-ttl";
  client_CreatedAt := zero_time; client_UpdatedAt := zero_time |}.

Definition client_add (args : list string) : Prog (res (list printed)) :=
  let? (fs, id) := Ret (parseOne client_add_flags args "id") in
  match client_flags_problem fs with
  | Some e => ret_err e
  | None =>
      let? (secret, hash) := (if flag_bool fs "public" then ret_ok ("", "")
                              else
                                let? secret := randomPassword in
                                let? hash := HashClientSecret secret in
                                ret_ok (secret, hash)) in
      let? c := Clients_Create (ctl_client fs id hash) in
      ret_ok (Line ("created client " +:+ client_ID c)
              :: (if secret !=? "" then [Line ("client_secret: " +:+ secret)] else []))
  end.

Definition client_reset_secret (args : list string) : Prog (res (list printed)) :=
  match args with
  | [id] =>
      let? c := Clients_GetByID id in
      if client_Public c then fail ("client " +:+ client_ID c +:+ " is public and has no secret")
      else
        let? secret := randomPassword in
        let? hash := HashClientSecret secret in
        let? _ := Clients_Update (client_set_secret hash c) in
        say ("client_secret: " +:+ secret)
  | _ => fail "usage: client reset-secret <id>"
  end.

Definition client_delete (args : list string) : Prog (res (list printed)) :=
  match args with
  | [id] =>
      let! _ := ignore (Tokens_RevokeByClientID id) in
      let? _ := Clients_Delete id in
      say ("deleted client " +:+ id)
  | _ => fail "usage: client delete <id>"
  end.

Definition client (cmd : string) (args : list string) : Prog (res (list printed)) :=
  if cmd ==? "list" then client_list
  else if cmd ==? "add" then client_add args
  else if cmd ==? "reset-secret" then client_reset_secret args
  else if cmd ==? "delete" then client_delete args
  else fail ("unknown client command " +:+ Quote cmd).

(** ** Keys *)

Definition key_list : Prog (res (list printed)) :=
  let? keys := ListKeys in
  ret_ok [Table (map Text ["KID"; "ALG"; "ACTIVE"; "CREATED"; "EXPIRES"]
    :: map (fun k => [Text (kp_Kid k); Text (kp_Alg k); Truth (kp_Active k); Date (kp_CreatedAt k);
                      if IsZero (kp_ExpiresAt k) then Text "-" else Date (kp_ExpiresAt k)]) keys)].

(** Flags only: arguments that are left are ignored. *)
Definition key_rotate (args : list string) : Prog (res (list printed)) :=
  let? (fs, _) := Ret (flag_Parse [("grace", FDuration (24 * Hour)); ("alg", FString (ks_algorithm keys))] args) in
  let alg := flag_string fs "alg" in
  let grace := flag_duration fs "grace" in
  if negb (ValidAlgorithm alg) then
    fail ("unsupported -alg " +:+ Quote alg +:+ " (use one of [" +:+ Join SupportedAlgorithms " " +:+ "])")
  else
    let keys := if alg !=? ks_algorithm keys then {| ks_cacheTTL := DefaultActiveKeyCacheTTL; ks_algorithm := alg |}
                else keys in
    let? _ := EnsureActiveKey keys in
    let? k := RotateKey keys grace in
    say ("active key is now " +:+ kp_Kid k +:+ " (" +:+ kp_Alg k +:+ "; previous key valid for "
         +:+ Duration_String grace +:+ ")").

Definition key (cmd : string) (args : list string) : Prog (res (list printed)) :=
  if cmd ==? "list" then key_list
  else if cmd ==? "rotate" then key_rotate args
  else fail ("unknown key command " +:+ Quote cmd).

(** ** [app.run] *)

Definition ctl_run (args : list string) : Prog (res (list printed)) :=
  match args with
  | resource :: cmd :: rest =>
      if (resource ==? "backup") && bool_decide (rest = []) then backup cmd
      else if resource ==? "user" then user cmd rest
      else if resource ==? "group" then group cmd rest
      else if resource ==? "client" then client cmd rest
      else if resource ==? "key" then key cmd rest
      else fail ("unknown resource " +:+ Quote resource +:+ String (ascii_of_nat 10) (String (ascii_of_nat 10) usage))
  | _ => fail usage
  end.
End app.

(** [main], up to the command: the exit status of a run that ends before, or
    the program of the command over the store that opened.  [algorithm] is
    IDPICO_SIGNING_ALGORITHM. *)
Definition main_flags : FlagSet :=
  [("driver", FString "sqlite"); ("data-dir", FString "./data"); ("dsn", FString "")].

Definition ctl_key_service (algorithm : string) : KeyService :=
  {| ks_cacheTTL := DefaultActiveKeyCacheTTL; ks_algorithm := if algorithm ==? "" then AlgRS256 else algorithm |}.

Definition ctl_main `{Sqlite} `{UnicodeTables} `{KeyLib} `{Argon2} (usage algorithm : string)
    (store_Backup : Store -> option (string -> Prog (res unit))) (args : list string)
    : Sys (Z + Prog (res (list printed))) :=
  match flag_Parse main_flags args with
  | Err _ => Return (inl 2)
  | Ok (fs, rest) =>
      opened ← ctl_openStore (flag_string fs "driver") (flag_string fs "data-dir") (flag_string fs "dsn");
      match opened with
      | Err _ => Return (inl 1)
      | Ok st => Return (inr (ctl_run (H := st) usage (ctl_key_service algorithm) (store_Backup st) rest))
      end
  end.

(** ** What the command line does

    The reading of arguments ends and is determined; every command touches
    the files of its own only; and what creates users and clients makes rows
    that the server's own checks would pass. *)

(** ** Reading the arguments *)

Section arguments.
Context `{UnicodeTables}.

(** The loop, without a bound: flags, a positional argument, flags again. *)
Inductive collects : FlagSet -> list string -> list string -> res (FlagSet * list string) -> Prop :=
| collect_end fs found : collects fs [] found (Ok (fs, found))
| collect_error fs x args found e :
    flag_Parse fs (x :: args) = Err e -> collects fs (x :: args) found (Err e)
| collect_flags fs x args found fs' :
    flag_Parse fs (x :: args) = Ok (fs', []) -> collects fs (x :: args) found (Ok (fs', found))
| collect_one fs x args found fs' y rest r :
    flag_Parse fs (x :: args) = Ok (fs', y :: rest) -> collects fs' rest (found ++ [y]) r ->
    collects fs (x :: args) found r.

Lemma collects_positional fuel fs args found :
  (length args <= fuel)%nat ->
  exists r, positional_from fuel fs args found = Some r /\ collects fs args found r.
Proof.
  revert fs args found. induction fuel as [|fuel IH]; intros fs [|x args] found Hn; cbn [length] in Hn; try lia.
  1-2: eexists; split; [done|constructor].
  cbn [positional_from]. destruct (flag_Parse fs (x :: args)) as [[fs' [|y rest]]|e] eqn:Hp.
  - eexists. split; [done|]. by apply collect_flags.
  - pose proof (flag_Parse_left _ _ _ _ Hp) as Hl. cbn [length] in Hl.
    destruct (IH fs' rest (found ++ [y]) ltac:(lia)) as (r & Hr & Hc). exists r. split; [done|].
    by eapply collect_one.
  - eexists. split; [done|]. by apply collect_error.
Qed.

Lemma collects_det fs args found r r' : collects fs args found r -> collects fs args found r' -> r = r'.
Proof.
  intros Hc. revert r'. induction Hc as [fs found|fs x args found e Hp|fs x args found fs' Hp
    |fs x args found fs' y rest r Hp Hc IH]; intros r' Hc'; inversion Hc'; subst; try congruence.
  apply IH. match goal with E : flag_Parse _ _ = Ok (?f, ?z :: ?l) |- _ => rewrite Hp in E end. by simplify_eq.
Qed.

(** Claim C36.  [parseOne] ends for all arguments, with the outcome the loop
    determines: an error of a flag, or the flags and the one argument that is
    none. *)
Theorem parseOne_terminates fs args what :
  exists r, collects fs args [] r /\ (forall r', collects fs args [] r' -> r' = r) /\
    parseOne fs args what =
      match r with
      | Ok (fs', [x]) => Ok (fs', x)
      | Ok _ => Err (Plain ("expected exactly one " +:+ what +:+ " argument"))
      | Err e => Err e
      end.
Proof.
  destruct (collects_positional (length args) fs args [] (le_n _)) as (r & Hr & Hc). exists r.
  split; [done|]. split; [intros r' Hc'; by eapply collects_det|]. unfold parseOne. rewrite Hr.
  destruct r as [[fs' [|x []]]|e]; done.
Qed.
End arguments.

(** ** The files of a command *)

Definition ends_logins : list coll_name := [NSessions; NTokens; NRevocations].

Definition user_files (cmd : string) : list coll_name :=
  if cmd ==? "list" then []
  else if cmd ==? "add" then [NUsers]
  else if cmd ==? "passwd" then NUsers :: ends_logins
  else if cmd ==? "reset-two-step" then [NUsers; NPasskeys]
  else if cmd ==? "set-admin" then [NUsers]
  else if cmd ==? "delete" then [NUsers; NConsents; NPasskeys; NVerification; NGroups] ++ ends_logins
  else [].
Definition group_files (cmd : string) : list coll_name :=
  if existsb (fun c => c ==? cmd) ["add"; "delete"; "add-member"; "remove-member"] then [NGroups] else [].
Definition client_files (cmd : string) : list coll_name :=
  if cmd ==? "delete" then [NClients; NTokens; NRevocations]
  else if (cmd ==? "add") || (cmd ==? "reset-secret") then [NClients] else [].

Definition command_files (args : list string) : list coll_name :=
  match args with
  | resource :: cmd :: _ =>
      if resource ==? "user" then user_files cmd
      else if resource ==? "group" then group_files cmd
      else if resource ==? "client" then client_files cmd
      else if (resource ==? "key") && (cmd ==? "rotate") then [NKeys] else []
  | _ => []
  end.

Section commands.
Context `{StoreLaws} `{UnicodeTables} `{KeyLib} `{Argon2}.
Context (usage : string) (keys : KeyService) (store_Backup : option (string -> Prog (res unit))).

Lemma touches_randomPassword cs : touches cs randomPassword.
Proof. unfold randomPassword, randomSecret, mapErr. touch. Qed.
Lemma touches_group_rows cs l : touches cs (group_rows l).
Proof. induction l; cbn [group_rows]; touch. Qed.
Lemma touches_member_lines cs l : touches cs (member_lines l).
Proof. induction l; cbn [member_lines]; touch. Qed.
Lemma touches_fail {A} cs text : touches cs (@fail A text).
Proof. apply touches_ret. Qed.
Lemma touches_say cs text : touches cs (say text).
Proof. apply touches_ret. Qed.
#[local] Hint Resolve touches_fail touches_say touches_randomPassword touches_group_rows touches_member_lines : touch.

Ltac command := repeat first [touch_step | progress shown_cmd]
with shown_cmd := lazymatch goal with
  | |- touches _ (bind _ _) => fail
  | |- touches _ ?p => let f := head_of p in unfold f, ignore
  end.

Lemma user_add_files args : touches [NUsers] (user_add args).
Proof. command. Qed.
Lemma user_passwd_files args : touches (NUsers :: ends_logins) (user_passwd args).
Proof. command. Qed.
Lemma user_reset_files args : touches [NUsers; NPasskeys] (user_reset_two_step args).
Proof. command. Qed.
Lemma user_set_admin_files args : touches [NUsers] (user_set_admin_cmd args).
Proof. command. Qed.
Lemma user_delete_files args :
  touches ([NUsers; NConsents; NPasskeys; NVerification; NGroups] ++ ends_logins) (user_delete args).
Proof. command. Qed.
Lemma group_read_files args : touches [] group_list /\ touches [] (group_members args).
Proof. split; command. Qed.
Lemma group_write_files cmd args :
  touches [NGroups] (group_add args) /\ touches [NGroups] (group_delete args) /\ touches [NGroups] (group_member cmd args).
Proof. split_and!; command. Qed.
Lemma client_add_files args : touches [NClients] (client_add args).
Proof. command. Qed.
Lemma client_reset_files args : touches [NClients] (client_reset_secret args).
Proof. command. Qed.
Lemma client_delete_files args : touches [NClients; NTokens; NRevocations] (client_delete args).
Proof. command. Qed.
Lemma list_files : touches [] user_list /\ touches [] client_list /\ touches [] key_list.
Proof. split_and!; command. Qed.

Lemma touches_EnsureActiveKey ks : touches [NKeys] (EnsureActiveKey ks).
Proof.
  unfold EnsureActiveKey, locked, generate_and_activate, setActive, mapErr. touch; apply touches_Generate.
Qed.
Lemma key_rotate_files args : touches [NKeys] (key_rotate keys args).
Proof. unfold key_rotate. touch; apply touches_EnsureActiveKey. Qed.

Lemma user_cmd_files cmd args : touches (user_files cmd) (user cmd args).
Proof.
  unfold user_files, user. repeat case_bool_decide;
    first [apply list_files | apply user_add_files | apply user_passwd_files | apply user_reset_files
          | apply user_set_admin_files | apply user_delete_files | apply touches_fail].
Qed.

Lemma group_cmd_files cmd args : touches (group_files cmd) (group cmd args).
Proof.
  unfold group_files, group. cbn [existsb].
  destruct (group_read_files args) as [Hl Hm], (group_write_files cmd args) as (Ha & Hd & Hmem).
  repeat case_bool_decide; subst; cbn [orb]; try congruence; first [done | apply touches_fail | idtac].
Qed.

Lemma client_cmd_files cmd args : touches (client_files cmd) (client cmd args).
Proof.
  unfold client_files, client. repeat case_bool_decide; subst; cbn [orb]; try congruence;
    first [apply list_files | apply client_add_files | apply client_reset_files | apply client_delete_files
          | apply touches_fail].
Qed.

(** A command changes the files of its own only, whatever its
    arguments and however it ends; listing, unknown commands and wrong usage
    change nothing. *)
Theorem command_footprint args w :
  (forall b path, store_Backup = Some b -> touches [] (b path)) ->
  frame (command_files args) w (run (ctl_run usage keys store_Backup args) w).2.
Proof.
  intros Hb.
  assert (touches (command_files args) (ctl_run usage keys store_Backup args)) as Ht.
  { destruct args as [|resource [|cmd rest]]; try apply touches_fail. unfold ctl_run, command_files, key.
    destruct (_ && bool_decide (rest = [])) eqn:E.
    { apply (touches_weaken []); [set_solver|]. unfold backup. destruct store_Backup as [b|] eqn:Hs; [|apply touches_fail].
      apply touches_bind; [by eapply Hb|]. intros []; [apply touches_say|apply touches_ret]. }
    repeat case_bool_decide; cbn [andb]; try congruence;
      first [apply user_cmd_files | apply group_cmd_files | apply client_cmd_files | apply list_files
            | apply key_rotate_files | apply touches_fail]. }
  destruct (run _ w) as [x w'] eqn:Hr. exact (touches_run _ _ _ _ _ Ht Hr).
Qed.
End commands.

(** ** New users and clients *)

Section creation.
Context `{StoreLaws} `{!EnvLaws} `{UnicodeTables} `{KeyLib} `{Argon2Laws}.

Lemma firstInvalidRedirect_None uris :
  firstInvalidRedirect uris = None -> Forall (fun uri => ValidateRedirectURI uri = Ok tt) uris.
Proof.
  induction uris as [|uri uris IH]; cbn [firstInvalidRedirect]; [constructor|].
  destruct (ValidateRedirectURI uri) as [[]|e] eqn:E; [|done]. intros Hn. constructor; [done|by apply IH].
Qed.

Definition good_flags (fs : FlagSet) : Prop :=
  flag_multi fs "redirect" <> [] /\
  Forall (fun uri => ValidateRedirectURI uri = Ok tt) (flag_multi fs "redirect") /\
  0 <= flag_duration fs "access-ttl" <= MaxAccessTokenTTL /\
  Forall (fun g => g = "authorization_code" \/ g = "refresh_token") (Fields (flag_string fs "grant-types")).

Lemma client_flags_good fs : client_flags_problem fs = None -> good_flags fs.
Proof.
  unfold client_flags_problem, good_flags. destruct (flag_multi fs "redirect") as [|uri uris]; [done|].
  destruct (firstInvalidRedirect (uri :: uris)) eqn:Ei; [done|]. destruct (_ || _) eqn:Ed; [done|].
  destruct (find_first unsupported_grant _) as [g|] eqn:Eg; [done|]. intros _. split_and!.
  - done.
  - by apply firstInvalidRedirect_None.
  - apply orb_false_iff in Ed as [Ed%Z.ltb_ge _]. done.
  - apply orb_false_iff in Ed as [_ Ed%Z.ltb_ge]. done.
  - apply List.Forall_forall. intros g Hg. rewrite find_first_None in Eg.
    specialize (Eg g ltac:(by apply list_elem_of_In)) as Hn. unfold unsupported_grant in Hn.
    destruct (decide (g = "authorization_code")) as [|Ha]; [by left|]. right.
    rewrite (bool_decide_eq_false_2 _ Ha) in Hn. cbn in Hn. bool_to_prop. done.
Qed.

(** The row a command appends, which collides with none. *)
Definition appended {A} (c : Coll (list A)) (clash : A -> bool) (x : A) (w w' : World) : Prop :=
  exists rows, get c (w_disk w) = FData rows /\ get c (w_disk w') = FData (rows ++ [x]) /\
    Forall (fun y => clash y = false) rows.

Lemma randomPassword_nonempty w : wp randomPassword w (fun r _ => forall s, r = Ok s -> s <> "").
Proof.
  unfold randomPassword, randomSecret. apply wp_intro. intros r w' Hr s ->. cbn in Hr.
  destruct (env_rand (w_tick w) 24) as [b|] eqn:Hrand; [|done]. cbn in Hr. injection Hr as <- _.
  apply rand_length in Hrand as [Hl Hb]. intros Heq.
  assert (enc64 url64 [] b = []) as Hn.
  { rewrite <-(bytes_of_bytes (enc64 _ _ _)); [unfold RawURLEncodeToString in Heq; by rewrite Heq|].
    apply printable_is_byte, enc64_printable; [apply url64_good|done|constructor]. }
  apply enc64_nil in Hn. by rewrite Hn in Hl.
Qed.

(** [client add] that succeeds adds one client, under the
    identifier of the command line and new to the store, whose redirect URIs
    are all fit to be registered, whose grants are the two the server knows
    and whose access-token lifetime is in range; a confidential client's
    secret is printed and only its hash stored, which that secret opens. *)
Theorem client_add_sound args w out w' :
  run (client_add args) w = (Ok out, w') ->
  exists fs id hash secret t, parseOne client_add_flags args "id" = Ok (fs, id) /\ good_flags fs /\
    appended CClients (fun y => client_ID y ==? id) (client_set_times t t (ctl_client fs id hash)) w w' /\
    (if flag_bool fs "public"
     then hash = "" /\ out = [Line ("created client " +:+ id)]
     else VerifyPassword secret hash = Ok true /\
          (out = [Line ("created client " +:+ id); Line ("client_secret: " +:+ secret)])).
Proof.
  intros Hrun. pattern out, w'. eapply run_Ok; [exact Hrun|]. unfold client_add. apply wp_bind, wp_ret.
  destruct (parseOne client_add_flags args "id") as [[fs id]|e]; [|by apply wp_ret].
  destruct (client_flags_problem fs) as [e|] eqn:Hp; [by apply wp_ret|]. apply client_flags_good in Hp.
  eapply (wp_try _ _ _ (fun x w1 => same_disk w w1 /\ forall secret hash, x = Ok (secret, hash) ->
    if flag_bool fs "public" then secret = "" /\ hash = ""
    else VerifyPassword secret hash = Ok true /\ secret <> "")); [| |done].
  - destruct (flag_bool fs "public").
    + apply wp_ret. split; [done|]. by intros s h [= <- <-].
    + apply wp_and_disk; [unfold randomPassword, randomSecret, HashClientSecret, HashPassword, mapErr; touch|].
      eapply wp_try; [apply randomPassword_nonempty| |done]. intros secret w1 Hne. unfold HashClientSecret.
      eapply wp_try; [apply HashPassword_verifies| |done]. intros hash w2 [_ Hv]. apply wp_ret.
      intros s h [= <- <-]. split; [by apply Hv|by apply Hne].
  - intros [secret hash] w1 [Hs1 Hsec]. specialize (Hsec _ _ eq_refl).
    eapply wp_try; [apply law_Clients_Create| |done]. intros c w2 Hu. cbn beta in Hu. apply wp_ret.
    apply upd_Ok in Hu as (rows & t & u & rows' & Hg & _ & _ & Hadd & Hg').
    unfold rows_add_unless, rows_add in Hadd. destruct (omap _ rows) as [|] eqn:Eo; [|done]. injection Hadd as <- <-.
    exists fs, id, hash, secret, t. split; [done|]. split; [done|]. split.
    { exists rows. destruct Hs1 as [_ Hd]. rewrite <-Hd. split_and!; [done|done|].
      apply List.Forall_forall. intros y Hy%list_elem_of_In. pose proof (omap_nil_None _ _ _ Eo Hy) as Hn.
      cbn [ctl_client client_ID] in Hn. by destruct (client_ID y ==? id). }
    destruct (flag_bool fs "public"); [by destruct Hsec as [-> ->]|]. destruct Hsec as [Hv Hne]. split; [done|].
    by rewrite (bool_decide_eq_false_2 _ Hne).
Qed.
End creation.

(** ** cmd/seed/main.go: sample data for development

    [seed] fills an open store with two clients, two users and two groups;
    what is there already stays.  [seed_main] opens the store first.  What the
    command prints is left out. *)

Definition seed_client (id secret name : string) (public : bool) : Client := {|
  client_ID := id; client_Secret := secret; client_Name := name;
  client_RedirectURIs := ["http://localhost:3000/callback"; "http://localhost:8081/callback"];
  client_GrantTypes := ["authorization_code"; "refresh_token"];
  client_Scopes := ["openid"; "profile"; "email"; "offline_access"; "groups"]; client_Public := public;
  client_SkipConsent := false; client_MinimalIDToken := false; client_AccessTokenTTL := 0;
  client_RefreshTokenTTL := 0; client_CreatedAt := zero_time; client_UpdatedAt := zero_time |}.

Definition seed_user (id email hash name : string) (admin : bool) : User := {|
  user_ID := id; user_Email := email; user_PasswordHash := hash; user_DisplayName := name;
  user_GivenName := ""; user_FamilyName := ""; user_Active := true; user_EmailVerified := true;
  user_Admin := admin; user_TOTPSecret := ""; user_TOTPLastStep := 0; user_RecoveryCodes := [];
  user_CreatedAt := zero_time; user_UpdatedAt := zero_time |}.

Definition seed_group (id name description : string) : Group := {|
  group_ID := id; group_Name := name; group_Description := description;
  group_CreatedAt := zero_time; group_UpdatedAt := zero_time |}.

Definition seed_groups : list (string * string * list string) :=
  [("admins", "Administrators", ["test@example.com"]);
   ("devs", "Developers", ["test@example.com"; "alice@example.com"])].

Section seed.
Context `{Store} `{UnicodeTables} `{Argon2}.

Definition seed_one_group (g : string * string * list string) : Prog unit :=
  let '(name, description, members) := g in
  let! group := Groups_GetByName name in
  let! group := (match group with
    | Ok group => Ret (Some group)
    | Err _ =>
        let! id := newUUID in
        let! created := Groups_Create (seed_group id name description) in
        Ret (match created with Ok group => Some group | Err _ => None end)
    end) in
  match group with
  | Some group => for_each (add_bootstrap_member group) members
  | None => Ret tt
  end.

Definition seed : Prog (res unit) :=
  let? secretHash := HashClientSecret "test-secret" in
  let! _ := ignore (Clients_Create (seed_client "test-client" secretHash "Test Application" false)) in
  let! _ := ignore (Clients_Create (seed_client "test-public-client" "" "Test Public Application" true)) in
  let? hash := HashPassword "password123" in
  let! id := newUUID in
  let! id' := newUUID in
  let! _ := for_each (fun u => ignore (Users_Create u))
    [seed_user id "test@example.com" hash "Test User" true; seed_user id' "alice@example.com" hash "Alice" false] in
  let! _ := for_each seed_one_group seed_groups in
  ret_ok tt.
End seed.

Definition seed_main `{Sqlite} `{UnicodeTables} `{Argon2} (args : list string) : Sys (res (Prog (res unit))) :=
  or_return id (Return (flag_Parse main_flags args)) (fun '(fs, _) =>
  or_return (Errorf "Failed to initialize store")
    (ctl_openStore (flag_string fs "driver") (flag_string fs "data-dir") (flag_string fs "dsn")) (fun st =>
  Return (Ok (seed (H := st))))).

(** ** Seeding only adds *)

Section facts.
Context `{StoreLaws} `{UnicodeTables} `{Argon2} (rows0 : list User) (clients0 : list Client).

Definition grown {A} (made : A -> Prop) (l0 l : list A) : Prop := exists added, l = l0 ++ added /\ Forall made added.

Definition seeded_user (u : User) : Prop := exists t id hash,
  u = user_set_times t t (seed_user id "test@example.com" hash "Test User" true) \/
  u = user_set_times t t (seed_user id "alice@example.com" hash "Alice" false).
Definition seeded_client (c : Client) : Prop := exists t secret,
  IsHashedClientSecret secret = true /\
    c = client_set_times t t (seed_client "test-client" secret "Test Application" false) \/
  c = client_set_times t t (seed_client "test-public-client" "" "Test Public Application" true).

Definition seeding (w : World) : Prop :=
  (forall rows, get CUsers (w_disk w) = FData rows -> grown seeded_user rows0 rows) /\
  (forall clients, get CClients (w_disk w) = FData clients -> grown seeded_client clients0 clients).

Lemma grown_add {A} (made : A -> Prop) l0 l x : grown made l0 l -> made x -> grown made l0 (l ++ [x]).
Proof.
  intros (added & -> & Ha) Hx. exists (added ++ [x]). rewrite app_assoc. split; [done|].
  apply Forall_app. by split; [|constructor].
Qed.

#[local] Instance seeding_stable : Stable seeding [NGroups].
Proof.
  intros w w' [Hu Hc] Hf. split; intros rows Hr; [apply Hu|apply Hc]; by rewrite <-(frame_get _ _ _ _ Hf) by set_solver.
Qed.

Lemma seeding_client c :
  (forall t, seeded_client (client_set_times t t c)) -> within seeding (ignore (Clients_Create c)) (fun _ => True).
Proof.
  intros Hc. apply (safe_ignore _ _ (fun _ => True)). intros w [Hu Hcl].
  eapply wp_mono; [apply law_Clients_Create|]. intros r w' Hupd. cbn beta in Hupd. split; [|done]. split.
  { intros rows Hr. apply Hu. by rewrite <-(frame_get _ _ _ _ (upd_frame _ _ _ _ _ Hupd)) by set_solver. }
  refine (upd_contents CClients _ (grown seeded_client clients0) _ w r w' Hcl Hupd (fun _ Ha => Ha) _).
  intros t i rows rows' b Hg Hr. unfold rows_add_unless, rows_add in Hr.
  destruct (omap _ _); [|done]. injection Hr as <- _. by apply grown_add.
Qed.

Lemma seeding_user u :
  (forall t, seeded_user (user_set_times t t u)) -> within seeding (ignore (Users_Create u)) (fun _ => True).
Proof.
  intros Hc. apply (safe_ignore _ _ (fun _ => True)). intros w [Hu Hcl].
  eapply wp_mono; [apply law_Users_Create|]. intros r w' Hupd. cbn beta in Hupd. split; [|done]. split.
  2:{ intros rows Hr. apply Hcl. by rewrite <-(frame_get _ _ _ _ (upd_frame _ _ _ _ _ Hupd)) by set_solver. }
  refine (upd_contents CUsers _ (grown seeded_user rows0) _ w r w' Hu Hupd (fun _ Ha => Ha) _).
  intros t i rows rows' b Hg Hr. unfold rows_add in Hr.
  destruct (omap _ _); [|done]. injection Hr as <- _. by apply grown_add.
Qed.

Lemma touches_seed_group g : touches [NGroups] (seed_one_group g).
Proof.
  unfold seed_one_group. destruct g as [[name description] members]. touch_step; [touch|].
  touch_step; [touch|]. case_match; [|touch]. apply touches_for_each. intros e.
  unfold add_bootstrap_member, ignore. touch.
Qed.

Lemma seeding_touches {A} (p : Prog A) : touches [] p -> within seeding p (fun _ => True).
Proof. intros Hp. eapply within_touches; [apply seeding_stable|]. by apply (touches_weaken []); [set_solver|]. Qed.

Lemma seeding_seed : within seeding seed (fun _ => True).
Proof.
  unfold seed. eapply (within_bind _ _ _ (gives (fun hash => IsHashedClientSecret hash = true))).
  { unfold HashClientSecret, HashPassword.
    eapply (within_try _ _ _ (fun _ => True)); [|intros salt _; by apply within_ret].
    eapply within_weaken; [apply seeding_touches; unfold mapErr; touch|]. by intros [a|e'] _. }
  intros [secret|e] Hs; [|by apply within_ret].
  eapply within_bind; [apply seeding_client; intros t; exists t, secret; by left|intros _ _].
  eapply within_bind; [apply seeding_client; intros t; exists t, secret; by right|intros _ _].
  eapply within_bind; [apply seeding_touches; unfold HashPassword, mapErr; touch|].
  intros [hash|e] _; [|by apply within_ret].
  eapply within_bind; [apply seeding_touches; touch|intros id _].
  eapply within_bind; [apply seeding_touches; touch|intros id' _].
  eapply within_bind; [|intros _ _; eapply within_bind; [|intros _ _; by apply within_ret]].
  - apply within_for_each. intros u Hu. apply seeding_user. intros t.
    apply elem_of_cons in Hu as [->|Hu%list_elem_of_singleton]; [exists t, id, hash; by left|subst; exists t, id', hash; by right].
  - apply within_for_each. intros g _. eapply within_touches; [apply seeding_stable|apply touches_seed_group].
Qed.

(** Seeding a store that is in use adds at most the two sample clients, the
    first with its secret hashed, and the two sample users, and touches no
    other client or user, even one of the same ID or address. *)
Theorem seed_adds w r w' :
  run seed w = (r, w') -> get CUsers (w_disk w) = FData rows0 -> get CClients (w_disk w) = FData clients0 ->
  (forall rows, get CUsers (w_disk w') = FData rows -> grown seeded_user rows0 rows) /\
  (forall clients, get CClients (w_disk w') = FData clients -> grown seeded_client clients0 clients).
Proof.
  intros Hrun Hu Hc. assert (seeding w) as Hw.
  { split; intros rows Hr; [rewrite Hr in Hu; injection Hu as ->|rewrite Hr in Hc; injection Hc as ->];
      exists []; by rewrite app_nil_r. }
  by destruct (wp_run _ _ _ _ _ (seeding_seed w Hw) Hrun) as [Hs _].
Qed.
End facts.
