(* ===== verification/Scenarios.v ===== *)
(** * Scenarios: the properties at the sample installation

    Each lemma applies a property of the development to a run of the services
    in [Sample]. *)
From S2P Require Import Prelude GoTime GoText Encoding Hash Errors Domain Lockout PendingLogins.
From S2P Require Import World Run Store Exec StoreFacts FileStore FileLaws Revocations Keys Password Jwt.
From S2P Require Import Authorize TokenService Sample TokenFacts KeyRotation CutOff TokenProperties Interleaving.
From S2P Require Import Availability Metrics.
#[local] Open Scope Z_scope.
#[local] Open Scope go_scope.

(** The result of a run that succeeds. *)
Definition result {A} (d : A) (p : Prog (res A)) (w : World) : A :=
  match (run p w).1 with Ok a => a | Err _ => d end.
Definition no_response : TokenResponse := Build_TokenResponse "" "" 0 "" "" "".
Definition no_info : UserInfoResponse := user_info alice "".

Definition exchanged : World :=
  after (HandleAuthorizationCode sample_service code_request) sample_world.
Definition exchange_response : TokenResponse :=
  result no_response (HandleAuthorizationCode sample_service code_request) sample_world.

Lemma code_exchange_sound_witness :
  run (HandleAuthorizationCode sample_service code_request) sample_world = (Ok exchange_response, exchanged) /\
  exists client code, client_row sample_world "web" client /\
    code_row sample_world "code1" code /\ ac_Used code = false /\
    tk_Scope exchange_response = ac_Scope code.
Proof.
  assert (run (HandleAuthorizationCode sample_service code_request) sample_world =
          (Ok exchange_response, exchanged)) as Hrun by (vm_compute; reflexivity).
  split; [exact Hrun|].
  destruct (code_exchange_sound sample_service code_request sample_world exchange_response exchanged Hrun)
    as (client & code & codes & t & Hc & _ & _ & Hg & Hf & Hu & _ & _ & _ & _ & _ & _ & Hs & _).
  exists client, code. split; [exact Hc|]. split; [exists codes; split; [exact Hg|exact Hf]|].
  split; [exact Hu|exact Hs].
Defined.

Lemma sample_ready : ready sample_service sample_world.
Proof.
  split; [|split; eexists; reflexivity]. split; [done|].
  eexists [sample_key], (kp_Kid sample_key), sample_key, _.
  split; [reflexivity|]. split; [done|]. split; [reflexivity|]. split; [reflexivity|].
  intros claims. by eexists.
Qed.

Lemma code_exchange_live_witness :
  exists resp, run (HandleAuthorizationCode sample_service code_request) sample_world = (Ok resp, exchanged) /\
    tk_Scope resp = "openid email offline_access".
Proof.
  assert (exists code, code_row sample_world "code1" code /\ ac_Scope code = "openid email offline_access" /\
    code_due sample_world exchanged code_request code) as (code & _ & Hs & Hdue).
  { eexists. split; [eexists; split; reflexivity|]. split; [reflexivity|].
    split; [eexists; split; reflexivity|]. do 2 (split; [discriminate|]). do 2 (split; [reflexivity|]).
    split; [|split; [reflexivity|split; [vm_compute; reflexivity|eexists; split; [eexists; split; reflexivity|reflexivity]]]].
    intros t Ht. apply instant_le in Ht as [_ Ht]. etransitivity; [exact Ht|].
    apply Z.leb_le. vm_compute. reflexivity. }
  destruct (run (HandleAuthorizationCode sample_service code_request) sample_world) as [r w'] eqn:Hrun.
  assert (w' = exchanged) as Hw by (unfold exchanged, after; rewrite Hrun; reflexivity). subst w'.
  destruct (code_exchange_live sample_service code_request sample_world r exchanged code Hrun) as (resp & Hr & Hsc);
    [intros n _; reflexivity|apply sample_ready| |exact Hdue|].
  - eexists. split; [eexists; split; reflexivity|]. split; [right; vm_compute; reflexivity|reflexivity].
  - exists resp. rewrite Hr, Hsc. split; [reflexivity|exact Hs].
Defined.

Definition refreshed : World :=
  after (HandleRefreshToken sample_service (refresh_request "openid")) sample_world.
Definition refresh_response : TokenResponse :=
  result no_response (HandleRefreshToken sample_service (refresh_request "openid")) sample_world.

Lemma refresh_sound_witness :
  run (HandleRefreshToken sample_service (refresh_request "openid")) sample_world =
    (Ok refresh_response, refreshed) /\
  exists token, token_row sample_world "refresh1" token /\
    refreshed_scope "openid" (token_Scope token) = Ok (tk_Scope refresh_response).
Proof.
  assert (run (HandleRefreshToken sample_service (refresh_request "openid")) sample_world =
          (Ok refresh_response, refreshed)) as Hrun by (vm_compute; reflexivity).
  split; [exact Hrun|].
  destruct (refresh_sound sample_service (refresh_request "openid") sample_world refresh_response
              refreshed Hrun) as
    (client & token & tokens & t & _ & _ & _ & Hg & Hf & _ & _ & _ & _ & _ & Hs & _).
  exists token. split; [exists tokens; split; [exact Hg|exact Hf]|exact Hs].
Defined.

(** The same code a second time. *)
Definition tokens_of (w : World) : list Token :=
  match get CTokens (w_disk w) with FData l => l | FCorrupt => [] end.

Lemma code_reuse_cuts_off_witness :
  let w' := after (HandleAuthorizationCode sample_service code_request) exchanged in
  exists code t, code_row exchanged "code1" code /\ cut_off_in sample_service w' "alice" "web" t.
Proof.
  edestruct (code_reuse_cuts_off sample_service code_request exchanged
    (after (HandleAuthorizationCode sample_service code_request) exchanged) (tokens_of exchanged))
    as (code & t & Hrow & _ & _ & Hcut).
  - vm_compute. reflexivity.
  - vm_compute. reflexivity.
  - unfold unique_by. apply (bool_decide_eq_true_1 _). vm_compute. reflexivity.
  - exists code, t. split; [exact Hrow|].
    assert (ac_UserID code = "alice" /\ ac_ClientID code = "web") as [<- <-]; [|exact Hcut].
    destruct Hrow as (rows & Hg & Hf). vm_compute in Hg. injection Hg as <-.
    vm_compute in Hf. injection Hf as <-. done.
Defined.

Lemma refresh_reuse_cuts_off_witness :
  let w' := after (HandleRefreshToken sample_service (refresh_request "")) refreshed in
  exists token t, token_row refreshed "refresh1" token /\
    cut_off_in sample_service w' (token_UserID token) (token_ClientID token) t.
Proof.
  edestruct (refresh_reuse_cuts_off sample_service (refresh_request "") refreshed
    (after (HandleRefreshToken sample_service (refresh_request "")) refreshed) (tokens_of refreshed))
    as (token & t & Hrow & _ & _ & Hcut).
  - vm_compute. reflexivity.
  - vm_compute. reflexivity.
  - unfold unique_by. apply (bool_decide_eq_true_1 _). vm_compute. reflexivity.
  - exists token, t. split; [exact Hrow|exact Hcut].
Defined.

(** An access token of the first exchange. *)
Definition access_token : string :=
  match run (HandleAuthorizationCode sample_service code_request) sample_world with
  | (Ok resp, _) => tk_AccessToken resp
  | _ => ""
  end.

Lemma userinfo_sound_witness :
  let info := result no_info (GetUserInfo sample_service access_token) exchanged in
  exists claims user, tells_only (userinfo_scope claims) user info /\
    user_row exchanged (cl_Subject claims) user.
Proof.
  assert (run (GetUserInfo sample_service access_token) exchanged =
    (Ok (result no_info (GetUserInfo sample_service access_token) exchanged),
     after (GetUserInfo sample_service access_token) exchanged)) as Hrun by (vm_compute; reflexivity).
  destruct (userinfo_sound sample_service access_token exchanged _ _ Hrun) as
    (claims & user & (_ & _ & Hrow & _) & Ht & _).
  exists claims, user. split; [exact Ht|exact Hrow].
Defined.

Definition introspection_request : ClientTokenRequest := {|
  ct_Token := access_token; ct_TokenTypeHint := ""; ct_ClientID := "web"; ct_ClientSecret := "s3cret" |}.

Lemma introspection_sound_witness :
  let answer := result inactive (introspect sample_service introspection_request) exchanged in
  ir_Active answer = true /\
  exists client, client_row exchanged "web" client /\ client_Public client = false.
Proof.
  assert (ir_Active (result inactive (introspect sample_service introspection_request) exchanged) = true)
    as Hactive by (vm_compute; reflexivity).
  split; [exact Hactive|].
  assert (run (introspect sample_service introspection_request) exchanged =
    (Ok (result inactive (introspect sample_service introspection_request) exchanged),
     after (introspect sample_service introspection_request) exchanged)) as Hrun by (vm_compute; reflexivity).
  destruct (introspection_sound sample_service introspection_request exchanged _ _ Hrun) as [_ Hact].
  destruct (Hact Hactive) as [(client & Hrow & Hp & _) _]. exists client. split; [exact Hrow|exact Hp].
Defined.

(** ** Keys *)

Lemma sample_keys_wf : keys_wf [sample_key] (kp_Kid sample_key).
Proof.
  split; [apply NoDup_singleton|]. intros k ->%list_elem_of_singleton. done.
Qed.

Lemma sample_kids_made : kids_made sample_world [sample_key].
Proof. intros k ->%list_elem_of_singleton. exists 0%nat. split; [apply Nat.lt_0_1|reflexivity]. Qed.

Definition rotation : World := after (RotateKey sample_keyService (3600 * Second)) sample_world.

Definition rotation_key : KeyPair :=
  result sample_key (RotateKey sample_keyService (3600 * Second)) sample_world.

Lemma rotation_keeps_keys_witness :
  (m_keyCache (w_mem rotation)).1 = Some rotation_key /\ new_key sample_world rotation rotation_key.
Proof.
  assert (run (RotateKey sample_keyService (3600 * Second)) sample_world = (Ok rotation_key, rotation))
    as Hrun by (vm_compute; reflexivity).
  destruct (rotation_keeps_keys sample_keyService (3600 * Second) sample_world rotation_key rotation
    [sample_key] (kp_Kid sample_key) Hrun eq_refl sample_keys_wf sample_kids_made) as (Hn & Hc & _).
  split; [exact Hc|exact Hn].
Defined.

(** An expired key that is no longer active goes. *)
Definition spent_key : KeyPair :=
  Build_KeyPair "old" "EdDSA" None None 0 (1 * Second) false (Some "PRIVATE KEY:oo") (Some "PUBLIC KEY:eoo").
Definition with_spent_key : World :=
  with_disk (set CKeys (FData ([spent_key; sample_key], kp_Kid sample_key)) sample_disk) sample_world.

Lemma spent_keys_wf : keys_wf [spent_key; sample_key] (kp_Kid sample_key).
Proof.
  split; [unfold unique_by; apply (bool_decide_eq_true_1 _); vm_compute; reflexivity|].
  intros k [->|[->|Hk]%elem_of_cons]%elem_of_cons; [done|done|set_solver].
Qed.

Lemma cleanup_removes_expired_witness : exists rows',
  get CKeys (w_disk (after CleanupExpiredKeys with_spent_key)) = FData (rows', kp_Kid sample_key) /\
  sample_key ∈ rows'.
Proof.
  edestruct (cleanup_removes_expired with_spent_key (after CleanupExpiredKeys with_spent_key)
    [spent_key; sample_key] (kp_Kid sample_key)) as (rows' & Hg & _ & _ & Hin);
    [vm_compute; reflexivity|reflexivity|exact spent_keys_wf|].
  exists rows'. split; [exact Hg|]. apply Hin; [set_solver|done].
Defined.

(** ** Two browsers, one code *)

(** Turns of three threads: the exchanges take turns event by event, with a
    refresh in between. *)
Definition three_turns : list nat := concat (repeat [0; 2; 1; 1]%nat 90).
Definition raced : list (Prog (res TokenResponse)) * World :=
  schedule three_turns (map (HandleAuthorizationCode sample_service) [code_request; code_request]
                        ++ [HandleRefreshToken sample_service (refresh_request "openid")], sample_world).
Definition outcome {A} (p : Prog A) : option A := match p with Ret a => Some a | _ => None end.

Lemma outcome_Ret {A} (ps : list (Prog A)) i a : ps !! i ≫= outcome = Some a -> ps !! i = Some (Ret a).
Proof. destruct (ps !! i) as [[b|]|]; [|done|done]. by intros [= ->]. Qed.

Lemma single_use_interleaved_witness :
  exists i resp, raced.1 !! i = Some (Ret (Ok resp)) /\ (i < 2)%nat /\
    (forall j b, (j < 2)%nat -> raced.1 !! j = Some (Ret (Ok b)) -> j = i) /\
    raced.1 !! (1 - i)%nat = Some (Ret (Err reuse_code)).
Proof.
  set (i := 1%nat).
  destruct (raced.1 !! i ≫= outcome) as [[resp|e]|] eqn:Hwin; [|vm_compute in Hwin; discriminate Hwin..].
  exists i, resp. apply outcome_Ret in Hwin. split; [exact Hwin|]. split; [unfold i; lia|].
  split; [|apply outcome_Ret; vm_compute; reflexivity].
  intros j b Hj Hb.
  apply (single_use_interleaved sample_service [code_request; code_request]
    [HandleRefreshToken sample_service (refresh_request "openid")] sample_world raced.1 raced.2 j i code_request
    code_request b resp); [apply (bool_decide_eq_true_1 _); reflexivity| | | |reflexivity|reflexivity|exact Hb|exact Hwin].
  - apply List.Forall_cons; [apply refresh_quiet|constructor].
  - rewrite <-surjective_pairing. apply schedule_steps.
  - destruct j as [|[|j]]; [reflexivity|reflexivity|lia].
Defined.

(** A code that is issued between the reading and the writing of [MarkUsed]
    is written over the mark: the lock does not cover [Create], and the first
    code can be exchanged again. *)
Definition another_code : AuthCode := {|
  ac_Code := "code2"; ac_ClientID := "web"; ac_UserID := "alice"; ac_RedirectURI := "https://web/cb"; ac_Scope := "openid";
  ac_Nonce := ""; ac_CodeChallenge := sample_challenge; ac_CodeChallengeMethod := "S256"; ac_AuthTime := 0; ac_AMR := [];
  ac_CreatedAt := 0; ac_ExpiresAt := 1000 * Hour; ac_Used := false |}.
Definition issuing : Prog (res TokenResponse) :=
  let? _ := AuthCodes_Create another_code in ret_err (Plain "issued").
Definition lost_mark : list (Prog (res TokenResponse)) * World :=
  schedule (repeat 2%nat 1 ++ repeat 0%nat 100 ++ repeat 2%nat 10 ++ repeat 1%nat 100)
    ([HandleAuthorizationCode sample_service code_request; HandleAuthorizationCode sample_service code_request; issuing],
     sample_world).

Lemma mark_lost_to_new_code :
  exists ps w' a b,
    pool_steps ([HandleAuthorizationCode sample_service code_request;
                 HandleAuthorizationCode sample_service code_request; issuing], sample_world) (ps, w') /\
    ps !! 0%nat = Some (Ret (Ok a)) /\ ps !! 1%nat = Some (Ret (Ok b)).
Proof.
  destruct (lost_mark.1 !! 0%nat ≫= outcome) as [[a|e]|] eqn:H0; [|vm_compute in H0; discriminate H0..].
  destruct (lost_mark.1 !! 1%nat ≫= outcome) as [[b|e]|] eqn:H1; [|vm_compute in H1; discriminate H1..].
  exists lost_mark.1, lost_mark.2, a, b. apply outcome_Ret in H0, H1. split; [|exact (conj H0 H1)].
  rewrite <-surjective_pairing. apply schedule_steps.
Qed.

(** The same for refresh tokens, within the token endpoint: an exchange that
    stores its new refresh token between the reading and the writing of
    [Rotate] brings the rotated token back. *)
Definition lost_rotation : list (Prog (res TokenResponse)) * World :=
  schedule (repeat 2%nat 28 ++ repeat 0%nat 100 ++ repeat 2%nat 100 ++ repeat 1%nat 100)
    ([HandleRefreshToken sample_service (refresh_request "openid");
      HandleRefreshToken sample_service (refresh_request "openid");
      HandleAuthorizationCode sample_service code_request], sample_world).

Lemma rotation_lost_to_new_token :
  exists ps w' a b,
    pool_steps ([HandleRefreshToken sample_service (refresh_request "openid");
                 HandleRefreshToken sample_service (refresh_request "openid");
                 HandleAuthorizationCode sample_service code_request], sample_world) (ps, w') /\
    ps !! 0%nat = Some (Ret (Ok a)) /\ ps !! 1%nat = Some (Ret (Ok b)).
Proof.
  destruct (lost_rotation.1 !! 0%nat ≫= outcome) as [[a|e]|] eqn:H0; [|vm_compute in H0; discriminate H0..].
  destruct (lost_rotation.1 !! 1%nat ≫= outcome) as [[b|e]|] eqn:H1; [|vm_compute in H1; discriminate H1..].
  exists lost_rotation.1, lost_rotation.2, a, b. apply outcome_Ret in H0, H1. split; [|exact (conj H0 H1)].
  rewrite <-surjective_pairing. apply schedule_steps.
Qed.
