(* ===== verification/AccessScenarios.v ===== *)
(** * Scenarios: signing in and managing an account at the sample installation

    Applications of the properties of sign-in, second factors, account flows,
    the lockout and maintenance to runs of the services in [Sample]. *)
From S2P Require Import Prelude GoTime GoText Encoding GoUrl Hash Errors Domain Lockout PendingLogins World Run.
From S2P Require Import Metrics Store Exec StoreFacts FileStore FileLaws Revocations Keys Password Jwt Totp.
From S2P Require Import Csrf Session AuthService Passkeys Account Authorize Redirects TokenService Http.
From S2P Require Import OidcHandlers Sample TokenFacts AuthFacts SignIn ConsentFacts OidcFacts SecondFactor.
From S2P Require Import PasskeyFacts AccountFacts Maintenance Scenarios.
From Stdlib Require Import Ascii.
#[local] Open Scope Z_scope.
#[local] Open Scope go_scope.

(** ** Signing in *)

(** The login page was fetched, and its form comes back. *)
Definition csrf_service : CSRFService := as_csrf sample_auth.
Definition csrf_token : string := result "" (GenerateToken csrf_service) sample_world.
Definition with_form : World := after (GenerateToken csrf_service) sample_world.

Definition form_request (cookies : list (string * string)) : Request := {|
  r_form := [(CSRFFormField, csrf_token)]; r_header := [("User-Agent", "browser")];
  r_cookies := (csrfHostCookieName, csrf_token) :: cookies; r_RemoteAddr := "192.0.2.1:4711" |}.

Lemma csrf_roundtrip_witness :
  run (GenerateToken csrf_service) sample_world = (Ok csrf_token, with_form) /\
  (run (ValidateToken csrf_service (form_request [])) with_form).1 = Ok tt.
Proof.
  assert (run (GenerateToken csrf_service) sample_world = (Ok csrf_token, with_form)) as Hrun
    by (vm_compute; reflexivity).
  split; [exact Hrun|].
  apply (csrf_roundtrip csrf_service sample_world csrf_token with_form (form_request []) with_form Hrun);
    [reflexivity|vm_compute; reflexivity|vm_compute; discriminate|vm_compute; discriminate].
Defined.

#[local] Notation alice_login :=
  (Login sample_auth (form_request []) "alice@example.com" "correct horse").

Lemma login_sound_witness :
  run alice_login with_form = (Ok alice, after alice_login with_form) /\
  signed_in sample_auth (form_request []) with_form (after alice_login with_form) "alice" ["pwd"].
Proof.
  assert (run alice_login with_form = (Ok alice, after alice_login with_form)) as Hrun
    by (vm_compute; reflexivity).
  split; [exact Hrun|].
  destruct (login_sound sample_auth (form_request []) "alice@example.com" "correct horse" with_form alice
    _ Hrun) as (_ & _ & _ & _ & _ & _ & Hin & _).
  exact Hin.
Defined.

#[local] Notation bob_login :=
  (Login sample_auth (form_request []) "bob@example.com" "correct horse").

Lemma login_refused_witness :
  run bob_login with_form = (Err ErrSecondFactorRequired, after bob_login with_form) /\
  exists user token, half_signed_in sample_auth with_form (after bob_login with_form) user token.
Proof.
  assert (run bob_login with_form = (Err ErrSecondFactorRequired, after bob_login with_form)) as Hrun
    by (vm_compute; reflexivity).
  split; [exact Hrun|].
  destruct (login_refused sample_auth (form_request []) "bob@example.com" "correct horse" with_form
    ErrSecondFactorRequired _ Hrun) as [_ Hhalf].
  destruct (Hhalf eq_refl) as (user & token & _ & _ & _ & _ & _ & Hin). exists user, token. exact Hin.
Defined.

(** Bob's pending login, and the code his authenticator shows. *)
Definition bob_pending : World := after bob_login with_form.
Definition pending_token : string :=
  match map_to_list (m_pending (w_mem bob_pending)) with (k, _) :: _ => k | [] => "" end.
Definition bob_code : string :=
  default "" (GenerateTOTP bob_secret (clock (w_tick bob_pending))).
#[local] Notation bob_second :=
  (CompleteSecondFactor sample_auth (form_request [(PendingLoginCookieName, pending_token)]) bob_code).

Definition bob_signed_in : World := after bob_second bob_pending.
Definition bob_after : User := result bob bob_second bob_pending.

Lemma second_factor_sound_witness :
  user_TOTPLastStep bob_after = totpStep (clock (w_tick bob_pending)) /\
  exists p, signed_in sample_auth (form_request [(PendingLoginCookieName, pending_token)])
    bob_pending bob_signed_in (pl_userID p) ["pwd"; "otp"; "mfa"].
Proof.
  assert (run bob_second bob_pending = (Ok bob_after, bob_signed_in)) as Hrun by (vm_compute; reflexivity).
  split; [vm_compute; reflexivity|].
  destruct (second_factor_sound sample_auth _ bob_code bob_pending _ _ Hrun)
    as (token & p & u & _ & _ & _ & _ & _ & _ & _ & Hin & _).
  exists p. exact Hin.
Defined.

(** ** Codes and passwords *)

Definition new_secret : string := result "" NewTOTPSecret sample_world.

Lemma totp_enrolment_witness :
  exists code, GenerateTOTP new_secret (clock 7) = Some code /\
    is_Some (VerifyTOTP (ToUpper new_secret) code (clock 9) 0).
Proof.
  assert (run NewTOTPSecret sample_world = (Ok new_secret, after NewTOTPSecret sample_world)) as Hrun
    by (vm_compute; reflexivity).
  destruct (totp_enrolment sample_world new_secret _ Hrun (clock 7)) as (code & Hg & Hv).
  exists code. split; [exact Hg|]. apply Hv; [reflexivity|vm_compute; split; discriminate].
Defined.

Definition codes_made : list string * list string := result ([], []) NewRecoveryCodes sample_world.

Lemma recovery_codes_single_use_witness : exists code h rest,
  codes_made.1 !! 3%nat = Some code /\ codes_made.2 !! 3%nat = Some h /\
  UseRecoveryCode codes_made.2 code = Some rest /\ UseRecoveryCode rest code = None.
Proof.
  assert (run NewRecoveryCodes sample_world =
    (Ok (codes_made.1, codes_made.2), after NewRecoveryCodes sample_world)) as Hrun
    by (vm_compute; reflexivity).
  assert (NoDup codes_made.2) as Hnd by (apply (bool_decide_eq_true_1 _); vm_compute; reflexivity).
  destruct (recovery_codes_single_use _ _ _ _ Hrun) as [Hlen Hall].
  assert (exists code, codes_made.1 !! 3%nat = Some code) as [code Hcode]
    by (eexists; vm_compute; reflexivity).
  destruct (Hall 3%nat code Hcode) as (h & rest & Hh & Huse & _ & Honce).
  exists code, h, rest. split; [exact Hcode|]. split; [exact Hh|]. split; [exact Huse|exact (Honce Hnd)].
Defined.

Lemma password_roundtrip_witness :
  let h := result "" (HashPassword "correct horse") sample_world in
  VerifyPassword "correct horse" h = Ok true /\ h <> "".
Proof.
  assert (run (HashPassword "correct horse") sample_world =
    (Ok (result "" (HashPassword "correct horse") sample_world),
     after (HashPassword "correct horse") sample_world)) as Hrun by (vm_compute; reflexivity).
  destruct (password_roundtrip _ _ _ _ Hrun) as [Hv _]. split; [exact Hv|vm_compute; discriminate].
Defined.

(** ** A reset by mail *)

Definition link_token : string := result "" (issueToken "alice" PurposePasswordReset (1 * Hour)) sample_world.
Definition link_sent : World := after (issueToken "alice" PurposePasswordReset (1 * Hour)) sample_world.
#[local] Notation reset := (ResetPassword sample_account link_token "new password").
Definition was_reset : World := after reset link_sent.
Definition reset_user : User := result alice reset link_sent.

Lemma password_reset_sound_witness :
  password_of reset_user "new password" /\ shut_out link_sent was_reset "alice".
Proof.
  assert (run reset link_sent = (Ok reset_user, was_reset)) as Hrun by (vm_compute; reflexivity).
  destruct (password_reset_sound sample_account link_token "new password" link_sent reset_user was_reset
    Hrun) as (_ & vt & u & (_ & (rows & Hg & Hf) & _) & _ & _ & (Hpw & _) & _ & Hout).
  split; [exact Hpw|].
  assert (vt_UserID vt = "alice") as <-.
  { vm_compute in Hg. injection Hg as <-. vm_compute in Hf. injection Hf as <-. reflexivity. }
  apply Hout; [intros n Hn; reflexivity|].
  split; [eexists; vm_compute; reflexivity|]. split; eexists; vm_compute; reflexivity.
Defined.

Lemma throttle_bound_witness :
  let reqs := [(5, "Alice@example.com"); (6, "bob@example.com"); (7, " alice@example.com")] in
  let_through sample_account "alice@example.com" reqs ∅ = 1 /\
  let_through sample_account "alice@example.com" reqs ∅ <= 1.
Proof.
  cbn zeta. split; [vm_compute; reflexivity|].
  apply (throttle_bound sample_account ltac:(vm_compute; split; [reflexivity|discriminate])
    "alice@example.com" 0).
  repeat constructor; vm_compute; done.
Defined.

(** ** Lockout and pending logins *)

(** Two logins at a time guess: four passwords are checked before the third
    failure locks the account. *)
Definition concurrent_guesses : list lockout_op :=
  let checked t := OIsLocked "Alice@example.com" t in
  let failed t := ORecordFailure "alice@example.com" t t in
  [checked 10; checked 11; failed 12; ORecordSuccess "bob@example.com"; checked 13; failed 14; checked 15;
   failed 16; checked 17; failed 18; checked 19].

Lemma guesses_limited_witness :
  let s := {| lo_maxAttempts := 3; lo_duration := 900 * Second |} in
  guesses s "alice@example.com" concurrent_guesses ∅ = 4 /\
  guesses s "alice@example.com" concurrent_guesses ∅ <= 4 /\
  Lockout_IsLocked s 20 "alice@example.com" (lockout_all s concurrent_guesses ∅) = true.
Proof.
  cbn zeta. split; [vm_compute; reflexivity|].
  pose proof (guesses_limited {| lo_maxAttempts := 3; lo_duration := 900 * Second |}
    ltac:(reflexivity) ltac:(vm_compute; split; [reflexivity|discriminate]) 10 ltac:(discriminate)
    "alice@example.com" [] concurrent_guesses 2 0 (List.Forall_nil _)) as [Hg Hl].
  - repeat constructor; vm_compute; (done || discriminate).
  - vm_compute. repeat split; discriminate.
  - split; [exact Hg|]. apply Hl; [vm_compute; discriminate|vm_compute; reflexivity|vm_compute; reflexivity].
Defined.

Definition guessed_login : pending_map := pendingLogins_add 0 "tok" bob ∅.
Definition reservations : list (Z * pending_op) := repeat (1, PReserve "tok") 9.

Lemma attempts_bounded_witness :
  attempts_granted "tok" reservations guessed_login = 5 /\
  attempts_granted "tok" reservations guessed_login <= attempts_left "tok" guessed_login.
Proof.
  split; [vm_compute; reflexivity|]. apply attempts_bounded. repeat constructor.
Defined.

(** ** Housekeeping *)

Definition sample_runner : Runner := {|
  mt_keys := Some sample_keyService; mt_keyMaxAge := 0; mt_keyGrace := 24 * Hour;
  mt_auditRetention := 24 * Hour; mt_audit := true; mt_checkpoint := None |}.
Definition stale_code : AuthCode :=
  Build_AuthCode "old" "web" "alice" "https://web/cb" "openid" "" "" "" 0 [] 0 (1 * Second) false.
Definition with_stale : World :=
  with_disk (set CAuthCodes (FData [stale_code; sample_code]) sample_disk) sample_world.

Lemma maintenance_purges_witness : exists t,
  get CAuthCodes (w_disk (after (RunOnce sample_runner) with_stale))
    = FData (List.filter (fun c => After (ac_ExpiresAt c) t) [stale_code; sample_code]).
Proof.
  assert (run (RunOnce sample_runner) with_stale = ([], after (RunOnce sample_runner) with_stale)) as Hrun
    by (vm_compute; reflexivity).
  destruct (maintenance_purges sample_runner ltac:(discriminate) with_stale _ _ Hrun
    ltac:(intros n Hn; reflexivity)) as (_ & Hcodes & _).
  destruct (Hcodes [stale_code; sample_code] eq_refl) as (t & _ & Hg). exists t. exact Hg.
Defined.

Lemma revocation_refinement_witness :
  let w' := after (revocationRepository_RevokeBefore RevocationUser "alice" 7) sample_world in
  stands_for w' (record_mark (RevocationUser, "alice") 7 (Add 7 RevocationRetention) ∅).
Proof.
  cbn zeta. assert (stands_for sample_world ∅) as Hempty.
  { exists []. split; [reflexivity|]. split; [constructor|reflexivity]. }
  destruct (revocation_refinement sample_world ∅
    (after (revocationRepository_RevokeBefore RevocationUser "alice" 7) sample_world) Hempty) as (_ & Hb & _).
  apply Hb. vm_compute. reflexivity.
Defined.

Definition old_mark : Revocation :=
  Build_Revocation RevocationUser "alice" 0 (Add 0 RevocationRetention).

Lemma purge_keeps_live_witness :
  0 + MaxAccessTokenTTL <= RevocationRetention \/
  exists rv, rv ∈ [old_mark] /\ rv_id rv = (RevocationJTI, "j") /\ rv_ExpiresAt rv <= RevocationRetention.
Proof.
  apply (purge_keeps_live [old_mark] RevocationRetention "j" "alice" "web" 0).
  - intros rv ->%list_elem_of_singleton _. vm_compute. discriminate.
  - vm_compute. reflexivity.
  - vm_compute. reflexivity.
Defined.

(** ** Scenarios: a login completed with a passkey

    A toy WebAuthn library (a challenge is its random bytes, an assertion is
    the challenge with the credential's ID, the counter goes up by one) and
    Bob's second step with the passkey he registered. *)

Record toy_credential := { toy_id : string; toy_count : nat }.

Definition toy_find (id : string) (creds : list toy_credential) : option toy_credential :=
  find_first (fun c => toy_id c ==? id) creds.

#[export] Instance sample_webauthn : WebAuthn := {
  Credential := toy_credential;
  CreationResponse := string * string;
  AssertionResponse := string * string;
  UnmarshalCredential s :=
    (fun p => {| toy_id := p.1; toy_count := String.length p.2 |}) <$> cut_at ":"%char s;
  MarshalCredential c := Ok (toy_id c +:+ ":" +:+ as_ (toy_count c));
  credential_ID c := bytes (toy_id c);
  CloneWarning c := false;
  BeginRegistration _ _ random := Ok (of_bytes random, of_bytes random);
  ParseCredentialCreationResponseBytes := cut_at "|"%char;
  CreateCredential _ data response :=
    if data ==? response.1 then Ok {| toy_id := response.2; toy_count := 0 |}
    else Err (Plain "challenge mismatch");
  BeginLogin _ _ random := Ok (of_bytes random, of_bytes random);
  ParseCredentialRequestResponseBytes := cut_at "|"%char;
  ValidateLogin _ creds challenge response :=
    if challenge ==? response.1 then
      match toy_find response.2 creds with
      | Some c => Ok {| toy_id := toy_id c; toy_count := S (toy_count c) |}
      | None => Err (Plain "unknown credential")
      end
    else Err (Plain "challenge mismatch");
  HasUserVerified _ := true;
}.

#[export] Instance sample_webauthn_laws : WebAuthnLaws.
Proof.
  split. intros u creds challenge a c Hv. cbn in Hv.
  destruct (challenge ==? a.1); [|done]. destruct (toy_find a.2 creds) as [c'|] eqn:Hf; [|done].
  injection Hv as <-. exists c'. split; [|done]. apply find_first_Some in Hf. apply Hf.
Qed.

Definition bob_passkey : Passkey := {|
  passkey_ID := RawURLEncodeToString (bytes "key"); passkey_UserID := "bob"; passkey_Name := "Phone";
  passkey_Credential := "key:aa"; passkey_CreatedAt := 0; passkey_LastUsedAt := 0 |}.

(** Bob gave his password; the passkey page asks for a challenge. *)
Definition with_passkey : World :=
  with_disk (set CPasskeys (FData [bob_passkey]) (w_disk bob_pending)) bob_pending.
Definition pending_request : Request := form_request [(PendingLoginCookieName, pending_token)].
Definition challenged : World := after (BeginPasskeyLogin sample_auth true pending_request) with_passkey.
Definition the_challenge : string :=
  result "" (BeginPasskeyLogin sample_auth true pending_request) with_passkey.
#[local] Notation passkey_login :=
  (CompletePasskeyLogin sample_auth true pending_request (the_challenge +:+ "|key")).

Lemma passkey_login_sound_witness :
  get CPasskeys (w_disk (after passkey_login challenged)) =
    FData [{| passkey_ID := passkey_ID bob_passkey; passkey_UserID := "bob"; passkey_Name := "Phone";
              passkey_Credential := "key:aaa"; passkey_CreatedAt := 0;
              passkey_LastUsedAt := clock (w_tick challenged + 10) |}] /\
  exists l cred verified, asserted challenged bob the_challenge (the_challenge +:+ "|key") l cred verified.
Proof.
  assert (run passkey_login challenged = (Ok bob, after passkey_login challenged)) as Hrun
    by (vm_compute; reflexivity).
  split; [vm_compute; reflexivity|].
  destruct (passkey_login_sound sample_auth true pending_request _ challenged _ _ Hrun)
    as (token & p & challenge & l & cred & verified & _ & _ & _ & (Hc & Hp & _) & _ & _ & _ & Hch & Hass & _).
  assert (token = pending_token) as -> by (vm_compute in Hc; injection Hc as <-; vm_compute; reflexivity).
  assert (challenge = the_challenge) as ->.
  { vm_compute in Hp. injection Hp as <-. cbn in Hch. injection Hch as <-. vm_compute. reflexivity. }
  exists l, cred, verified. exact Hass.
Defined.

(** ** Scenarios: a browser at the authorization endpoint

    Alice signs in, allows the client on the consent form and gets a code;
    the properties of the OpenID Connect handlers are applied to these runs. *)

Definition sample_oidc : OIDCHandler := {|
  oh_auth := sample_auth; oh_codeTTL := 60 * Second; oh_consent := true;
  oh_tokens := sample_service; oh_audit := true |}.

(** ** Requests *)

Definition url_of (path query : string) : URL := {|
  u_Scheme := ""; u_Opaque := ""; u_User := None; u_Host := ""; u_Path := path; u_RawPath := "";
  u_OmitHost := false; u_ForceQuery := false; u_RawQuery := query; u_Fragment := "";
  u_RawFragment := "" |}.

Definition get_request (path query : string) (cookies : list (string * string)) : HttpRequest := {|
  hr_Method := "GET"; hr_URL := url_of path query; hr_body := Ok None; hr_multipart := [];
  hr_header := [("User-Agent", "browser")]; hr_cookies := cookies; hr_RemoteAddr := "192.0.2.1:4711";
  hr_vars := [] |}.

Definition post_request (path : string) (form : Values) (cookies : list (string * string))
    : HttpRequest := {|
  hr_Method := "POST"; hr_URL := url_of path ""; hr_body := Ok (Some (Values_Encode form));
  hr_multipart := []; hr_header := [("User-Agent", "browser")]; hr_cookies := cookies;
  hr_RemoteAddr := "192.0.2.1:4711"; hr_vars := [] |}.

(** ** Alice's session *)

Definition signed_in_world : World := after alice_login with_form.
Definition session_token : string :=
  match get CSessions (w_disk signed_in_world) with FData [s] => session_ID s | _ => "" end.
Definition browser : list (string * string) :=
  [(SessionCookieName, session_token); (csrfHostCookieName, csrf_token)].

Definition asked : string :=
  "client_id=web&redirect_uri=https%3A%2F%2Fweb%2Fcb&response_type=code&scope=openid+email&state=xyz".

(** ** The consent form, and the request that follows *)

Definition allow_form : HttpRequest := post_request "/consent"
  [(CSRFFormField, csrf_token); ("authorize_query", asked); ("action", "allow")] browser.
Definition allowed_world : World := after (Consent_handler sample_oidc allow_form) signed_in_world.
Definition authorize_get : HttpRequest := get_request "/authorize" asked browser.
Definition code_world : World := after (Authorize sample_oidc authorize_get) allowed_world.

Definition codes_of (w : World) : list AuthCode :=
  match get CAuthCodes (w_disk w) with FData rows => rows | _ => [] end.

(** Before consent the endpoint shows the consent form. *)
Example consent_is_asked : exists d,
  (run (Authorize sample_oidc authorize_get) signed_in_world).1 = Rendered StatusOK (ConsentForm d) /\
  map fst (cp_Scopes d) = ["openid"; "email"].
Proof. eexists. split; vm_compute; reflexivity. Qed.

Lemma consent_sound_witness :
  length (codes_of allowed_world) = 2%nat /\
  exists query, code_allowed sample_oidc (parsed allow_form) query signed_in_world
    (run (Consent_handler sample_oidc allow_form) signed_in_world).1 allowed_world.
Proof.
  split; [vm_compute; reflexivity|].
  destruct (consent_sound sample_oidc allow_form signed_in_world
    (run (Consent_handler sample_oidc allow_form) signed_in_world).1 allowed_world
    (codes_of signed_in_world) (codes_of allowed_world)) as (_ & query & _ & Hall).
  - unfold allowed_world, after. apply surjective_pairing.
  - vm_compute. reflexivity.
  - vm_compute. reflexivity.
  - intros Heq. apply (f_equal length) in Heq. vm_compute in Heq. discriminate Heq.
  - exists query. exact Hall.
Defined.

Lemma authorize_sound_witness :
  length (codes_of code_world) = 3%nat /\
  code_authorized sample_oidc (parsed authorize_get) (authorize_params authorize_get) allowed_world
    (run (Authorize sample_oidc authorize_get) allowed_world).1 code_world.
Proof.
  split; [vm_compute; reflexivity|].
  apply (authorize_sound sample_oidc authorize_get allowed_world
    (run (Authorize sample_oidc authorize_get) allowed_world).1 code_world
    (codes_of allowed_world) (codes_of code_world)).
  - unfold code_world, after. apply surjective_pairing.
  - vm_compute. reflexivity.
  - vm_compute. reflexivity.
  - intros Heq. apply (f_equal length) in Heq. vm_compute in Heq. discriminate Heq.
Defined.

(** ** A grant, and the redirect *)

#[local] Notation grant_email := (Grant "alice" (client_ID web) ["openid"; "email"]).

Lemma grant_roundtrip_witness :
  exists rows', get CConsents (w_disk (after grant_email sample_world)) = FData rows' /\
    "email" ∈ granted_scopes rows' "alice" "web".
Proof.
  assert (run grant_email sample_world = (Ok tt, after grant_email sample_world)) as Hrun
    by (vm_compute; reflexivity).
  destruct (grant_roundtrip "alice" web ["openid"; "email"] sample_world _ Hrun)
    as (rows & rows' & _ & Hg & Hall & _).
  exists rows'. split; [exact Hg|]. apply Hall. right. by right; left.
Defined.

Lemma redirect_readback_witness : exists url,
  BuildAuthorizationResponse "https://web/cb?tenant=7" "c 1&x" "s=t#" = Some url /\
  answered "https://web/cb?tenant=7" url (code_answer "c 1&x" "s=t#").
Proof.
  eexists. split; [vm_compute; reflexivity|].
  apply (redirect_readback "https://web/cb?tenant=7" "c 1&x" "" "s=t#"). vm_compute. reflexivity.
Defined.
