(* ===== verification/LoginScenarios.v ===== *)
(** * Scenarios: the login and logout pages

    Alice signs in through the form and is sent back to the authorization
    endpoint; she logs out and returns to her client. *)
From S2P Require Import Prelude GoTime GoText Encoding GoUrl GoDuration Hash Errors Domain Lockout PendingLogins.
From S2P Require Import World Run Metrics Store Exec StoreFacts Scope FileStore FileLaws Keys Password Jwt Totp.
From S2P Require Import Csrf Session AuthService Passkeys Account Authorize Redirects TokenService Http.
From S2P Require Import OidcHandlers LoginHandlers ClientForm AccountHandlers AdminHandlers AdminClients.
From S2P Require Import Sample TokenFacts AuthFacts SignIn OidcFacts LoginFacts AccountScope AccountFacts.
From S2P Require Import AdminFacts Scenarios AccessScenarios.
#[local] Open Scope Z_scope.
#[local] Open Scope go_scope.

Definition sample_login : LoginHandler := {|
  lh_auth := sample_auth; lh_wa := true; lh_forgotPasswordURL := "/forgot-password";
  lh_postLogout := Some sample_service |}.

Definition login_form : HttpRequest := post_request "/login"
  [(CSRFFormField, csrf_token); ("email", "alice@example.com"); ("password", "correct horse");
   ("return_url", "/authorize?client_id=web")] [(csrfHostCookieName, csrf_token)].

Lemma login_redirects_stay_witness :
  (run (Login_handler sample_login login_form) with_form).1 = Redirected "/authorize?client_id=web" StatusFound /\
  same_origin (Location "/login" "/authorize?client_id=web") = true.
Proof.
  assert (run (Login_handler sample_login login_form) with_form =
    (Redirected "/authorize?client_id=web" StatusFound, after (Login_handler sample_login login_form) with_form))
    as Hrun by (vm_compute; reflexivity).
  split; [by rewrite Hrun|].
  apply (login_redirects_stay sample_login login_form with_form (Login_handler sample_login) _ _ _ _
    ltac:(right; left) Hrun eq_refl).
  left. vm_compute. reflexivity.
Defined.

Definition logout_form : HttpRequest := post_request "/logout"
  [("client_id", "web"); ("post_logout_redirect_uri", "https://web/cb"); ("state", "s1")] browser.
Definition logged_out_world : World := after (Logout_handler sample_login logout_form) signed_in_world.
Definition sessions_of (w : World) : list Session :=
  match get CSessions (w_disk w) with FData rows => rows | _ => [] end.

Lemma logout_sound_witness :
  length (sessions_of signed_in_world) = 1%nat /\
  get CSessions (w_disk logged_out_world) = FData [] /\
  logout_target sample_login (parsed_lazily logout_form) signed_in_world "https://web/cb?state=s1".
Proof.
  assert (run (Logout_handler sample_login logout_form) signed_in_world =
    (Redirected "https://web/cb?state=s1" StatusFound, logged_out_world)) as Hrun by (vm_compute; reflexivity).
  destruct (logout_sound sample_login logout_form signed_in_world _ _ Hrun) as (_ & Hgone & url & Hresp & Htarget & _).
  split; [vm_compute; reflexivity|]. split.
  - assert (get CSessions (w_disk logged_out_world) = FData (other_sessions session_token (sessions_of signed_in_world)))
      as ->; [|vm_compute; reflexivity].
    apply Hgone; [vm_compute; reflexivity|vm_compute; discriminate|intros n Hn; reflexivity|vm_compute; reflexivity|].
    apply (bool_decide_eq_true_1 _). vm_compute. reflexivity.
  - injection Hresp as <-. exact Htarget.
Defined.

(** ** Scenarios: the account page

    Alice is at her account page.  A form that names Bob's session leaves it
    alone; a form that names her own session ends it. *)

Definition sample_page : AccountPageHandler := {|
  aph_auth := sample_auth; aph_wa := true; aph_account := Some sample_account; aph_audit := true |}.

Definition bob_session : Session := {|
  session_ID := "bob-session"; session_UserID := "bob"; session_CreatedAt := env_clock 0;
  session_ExpiresAt := Add (env_clock 0) (1 * Hour); session_UserAgent := ""; session_IPAddress := "";
  session_AMR := ["pwd"] |}.
Definition both_signed_in : World :=
  with_disk (set CSessions (FData (sessions_of signed_in_world ++ [bob_session])) (w_disk signed_in_world))
    signed_in_world.

Definition revoke_request (id : string) : HttpRequest :=
  let r := post_request ("/account/sessions/" +:+ id +:+ "/revoke") [(CSRFFormField, csrf_token)] browser in
  {| hr_Method := hr_Method r; hr_URL := hr_URL r; hr_body := hr_body r; hr_multipart := hr_multipart r;
     hr_header := hr_header r; hr_cookies := hr_cookies r; hr_RemoteAddr := hr_RemoteAddr r;
     hr_vars := [("sessionID", id)] |}.
Definition revoke_session (id : string) : Prog Response :=
  requireUser (RevokeSession sample_page) (revoke_request id).

Definition alices_or_not (x : Session) : bool :=
  negb (session_ID x ==? session_token) || (session_UserID x ==? "alice").

Lemma browser_is_alice id : cookie_of "alice" both_signed_in (revoke_request id).
Proof.
  intros value rows x Hv Hg Hx Hid.
  assert (first_value SessionCookieName (hr_cookies (revoke_request id)) = Some session_token) as Hcookie
    by reflexivity.
  rewrite Hcookie in Hv. apply (inj Some) in Hv as <-.
  assert (rows = sessions_of both_signed_in) as -> by (unfold sessions_of; by rewrite Hg).
  assert (forallb alices_or_not (sessions_of both_signed_in) = true) as Hall by (vm_compute; reflexivity).
  rewrite forallb_forall in Hall. apply list_elem_of_In, Hall in Hx. unfold alices_or_not in Hx.
  rewrite Hid, (bool_decide_eq_true_2 _ eq_refl) in Hx. exact (bool_decide_eq_true_1 _ Hx).
Qed.

(** Alice names Bob's session: it is not found, and it is there. *)
Definition after_bobs : World := after (revoke_session "bob-session") both_signed_in.

Lemma account_page_scoped_witness :
  (run (revoke_session "bob-session") both_signed_in).1
    = Redirected "/account?flash=Session+not+found" StatusFound /\
  kept CSessions session_ID session_UserID "alice" both_signed_in after_bobs /\
  sessions_of after_bobs = sessions_of signed_in_world ++ [bob_session].
Proof.
  split; [vm_compute; reflexivity|]. split.
  - refine (scope_sessions _ _ _ (account_page_scoped "alice" both_signed_in (revoke_request "bob-session")
      (browser_is_alice _) sample_page "POST" "/account/sessions/{sessionID}/revoke" _ _)).
    apply list_elem_of_In. unfold Account_Routes. cbn [map In]. right. right. left. reflexivity.
  - vm_compute. reflexivity.
Defined.

(** ** Signing out this very browser

    The page means to send a browser whose own session is revoked to the
    sign-in page, its cookies cleared.  It asks which session is the
    browser's only after the session is gone, so the browser is told that
    some session ended, and keeps its cookie. *)

Definition after_own : World := after (revoke_session session_token) both_signed_in.

Lemma own_session_is_not_noticed :
  (run (revoke_session session_token) both_signed_in).1
    = Redirected "/account?flash=Session+signed+out" StatusFound /\
  sessions_of after_own = [bob_session] /\
  w_out after_own = w_out both_signed_in.
Proof. split; [|split]; vm_compute; reflexivity. Qed.

(** ** Scenarios: the administration pages

    Carol is an administrator and signed in; so is Alice, who is none. *)

Definition carol : User := {|
  user_ID := "carol"; user_Email := "carol@example.com"; user_PasswordHash := alice_hash;
  user_DisplayName := "Carol"; user_GivenName := "Carol"; user_FamilyName := "C";
  user_Active := true; user_EmailVerified := true; user_Admin := true; user_TOTPSecret := "";
  user_TOTPLastStep := 0; user_RecoveryCodes := []; user_CreatedAt := 0; user_UpdatedAt := 0 |}.

Definition carol_session : Session := {|
  session_ID := "carol-session"; session_UserID := "carol"; session_CreatedAt := env_clock 0;
  session_ExpiresAt := Add (env_clock 0) (1 * Hour); session_UserAgent := ""; session_IPAddress := "";
  session_AMR := ["pwd"] |}.

Definition users_of (w : World) : list User :=
  match get CUsers (w_disk w) with FData rows => rows | _ => [] end.

Definition with_carol : World :=
  with_disk (set CUsers (FData (users_of signed_in_world ++ [carol]))
    (set CSessions (FData (sessions_of signed_in_world ++ [carol_session])) (w_disk signed_in_world)))
    signed_in_world.

Definition sample_admin : AdminConfig := NewAdminHandler {|
  ac_AuthService := sample_auth; ac_AccountService := sample_account; ac_KeyService := Some sample_keyService;
  ac_IssuerURL := "https://idp"; ac_KeyGracePeriod := 0; ac_GroupsClaim := ""; ac_AccessTokenTTL := 15 * Minute;
  ac_RefreshTokenTTL := 7 * 24 * Hour; ac_PlaygroundEnabled := false; ac_audit := true |}.

Definition carols : list (string * string) :=
  [(SessionCookieName, "carol-session"); (csrfHostCookieName, csrf_token)].

(** A form posted to the page of the user [id]. *)
Definition user_form_request (id : string) (form : Values) : HttpRequest :=
  let r := post_request ("/admin/users/" +:+ id) ((CSRFFormField, csrf_token) :: form) carols in
  {| hr_Method := hr_Method r; hr_URL := hr_URL r; hr_body := hr_body r; hr_multipart := hr_multipart r;
     hr_header := hr_header r; hr_cookies := hr_cookies r; hr_RemoteAddr := hr_RemoteAddr r;
     hr_vars := [("id", id)] |}.

(** ** Alice at the gate *)

Definition alice_at_dashboard : HttpRequest := get_request "/admin" "" browser.
Definition dashboard : Prog Response := requireAdmin (Dashboard sample_admin) alice_at_dashboard.

Lemma admin_gate_witness :
  (exists session user w1, session_live (Http.with_form [] alice_at_dashboard) with_carol w1 session user /\
     user_Admin user = true) \/
  (denied alice_at_dashboard (run dashboard with_carol).1 /\
   frame [NSessions] with_carol (run dashboard with_carol).2).
Proof.
  refine (admin_gate sample_admin "GET" "/" (requireAdmin (Dashboard sample_admin)) alice_at_dashboard
    with_carol _ _ _ _).
  - apply list_elem_of_In. left. reflexivity.
  - apply surjective_pairing.
Defined.

(** ** Carol and her own account

    The form carries no "admin" box, and "active" is ticked. *)

Lemma carol_stands : standing "carol" with_carol.
Proof.
  intros rows Hr. assert (rows = users_of with_carol) as -> by (unfold users_of; by rewrite Hr). split.
  - apply (bool_decide_eq_true_1 (unique_by user_ID (users_of with_carol))). vm_compute. reflexivity.
  - exists carol. split; [|by split_and!]. apply (bool_decide_eq_true_1 _). vm_compute. reflexivity.
Qed.

Definition is_carols (x : Session) : bool :=
  negb (session_ID x ==? "carol-session") || (session_UserID x ==? "carol").

Lemma carols_is_carol id form : cookie_of "carol" with_carol (user_form_request id form).
Proof.
  intros value rows x Hv Hg Hx Hid.
  assert (first_value SessionCookieName (hr_cookies (user_form_request id form)) = Some "carol-session") as Hcookie
    by reflexivity.
  rewrite Hcookie in Hv. apply (inj Some) in Hv as <-.
  assert (rows = sessions_of with_carol) as -> by (unfold sessions_of; by rewrite Hg).
  assert (forallb is_carols (sessions_of with_carol) = true) as Hall by (vm_compute; reflexivity).
  rewrite forallb_forall in Hall. apply list_elem_of_In, Hall in Hx. unfold is_carols in Hx.
  rewrite Hid, (bool_decide_eq_true_2 _ eq_refl) in Hx. exact (bool_decide_eq_true_1 _ Hx).
Qed.

Definition carols_form : HttpRequest :=
  user_form_request "carol" [("email", "carol@example.com"); ("active", "1")].
Definition carol_updates : Prog Response := requireAdmin (UpdateUser sample_admin) carols_form.
Definition after_carols : World := (run carol_updates with_carol).2.

Lemma admin_keeps_standing_witness :
  (run carol_updates with_carol).1 = Redirected "/admin/users/carol?flash=User+updated" StatusFound /\
  standing "carol" after_carols.
Proof.
  split; [vm_compute; reflexivity|].
  refine (admin_keeps_standing sample_admin "carol" "POST" "/users/{id}" _ carols_form with_carol _
    (carols_is_carol _ _) carol_stands).
  apply list_elem_of_In. unfold Admin_Routes, admin_handlers. cbn [map In]. do 5 right. left. reflexivity.
Defined.

(** ** Carol disables Alice *)

Definition alices_form : HttpRequest := user_form_request "alice" [("email", "alice@example.com")].
Definition carol_disables : Prog Response := UpdateUser sample_admin alices_form carol.
Definition after_alices : World := (run carol_disables with_carol).2.

Lemma user_disabled_sound_witness :
  sessions_of after_alices = [carol_session] /\
  disabled after_alices "alice" /\ shut_out with_carol after_alices "alice".
Proof.
  assert (run carol_disables with_carol = (updated_page alice, after_alices)) as Hrun by (vm_compute; reflexivity).
  split; [vm_compute; reflexivity|].
  destruct (user_disabled_sound sample_admin alices_form carol alice with_carol after_alices) as (_ & Hd & Hs).
  - exists (users_of with_carol). split; [|split]; vm_compute; reflexivity.
  - reflexivity.
  - vm_compute. reflexivity.
  - exact Hrun.
  - split; [exact Hd|]. apply Hs.
    + intros n Hn. reflexivity.
    + split; [|split]; eexists; vm_compute; reflexivity.
Defined.

(** ** The client form *)

Lemma lifetime_roundtrip_witness :
  ttlForm (5400 * Second) = "90m" /\ parseTTLField "90m" = (90 * Minute, "").
Proof. split; [vm_compute; reflexivity|]. exact (lifetime_roundtrip 5400 ltac:(lia) ltac:(vm_compute; discriminate)). Defined.

Definition client_form : Request := {|
  r_form := [("name", " Web "); ("redirect_uris", "https://web/cb"); ("access_token_ttl", "1h"); ("public", "1")];
  r_header := []; r_cookies := []; r_RemoteAddr := "192.0.2.1:1234" |}.
Definition new_client : Client := (applyClientForm client_form (blank_client "web" [] [])).2.

Lemma client_form_sound_witness :
  client_Scopes new_client = defaultClientScopes /\ client_AccessTokenTTL new_client = Hour /\
  client_Name new_client <> "" /\ (forall uri, uri ∈ client_RedirectURIs new_client -> registrable uri).
Proof.
  assert (applyClientForm client_form (blank_client "web" [] []) = ("", new_client)) as Hform
    by (vm_compute; reflexivity).
  destruct (client_form_sound client_form (blank_client "web" [] []) new_client Hform) as (_ & Hn & _ & Hu & _).
  split; [vm_compute; reflexivity|]. split; [vm_compute; reflexivity|]. by split.
Defined.
