(* ===== verification/ServerScenarios.v ===== *)
(** * Scenarios: starting a server, and requests through its router

    A toy router (patterns are compared by segment) and a configuration; the
    server it starts serves discovery, refuses a form posted by another site,
    and attributes a request behind a proxy; the command line adds a client,
    a mail is sent, the playground signs in, and it and the maintenance run
    beside a request. *)
From S2P Require Import Prelude GoTime GoText GoDigits GoUrl GoNetip GoDuration Encoding Errors Domain Lockout PendingLogins.
From S2P Require Import World Run Metrics Store Exec StoreFacts FileStore FileLaws Keys Password Jwt Totp Csrf Session.
From S2P Require Import AuthService Passkeys Account Authorize TokenService Http Middleware OidcHandlers.
From S2P Require Import LoginHandlers ClientForm AccountHandlers AdminHandlers AdminClients PlaygroundHandler Server Config Bootstrap.
From S2P Require Import Main Mail Ctl ServerFacts Maintenance Completion Sample.
From S2P Require Import TokenFacts AuthFacts SignIn Scenarios AccessScenarios.
From Stdlib Require Import Ascii.
#[local] Open Scope Z_scope.
#[local] Open Scope go_scope.

(** ** A router *)

Fixpoint match_segments (pattern path : list string) : option (list (string * string)) :=
  match pattern, path with
  | ["*"], _ => Some []
  | p :: pattern, s :: path =>
      match p with
      | String "{"%char name => fmap (cons (TrimSuffix name "}", s)) (match_segments pattern path)
      | _ => if p ==? s then match_segments pattern path else None
      end
  | [], [] => Some []
  | _, _ => None
  end.

Fixpoint match_from (n : nat) (routes : list (option string * string)) (method path : string) : routed :=
  match routes with
  | [] => Unrouted (HttpError StatusNotFound [] "404 page not found")
  | (m, pattern) :: routes =>
      match match_segments (Split pattern "/"%char) (Split path "/"%char) with
      | Some vars =>
          if match m with None => true | Some m => m ==? method end then Routed n vars
          else match_from (S n) routes method path
      | None => match_from (S n) routes method path
      end
  end.

#[export] Instance sample_chi : Chi := {
  match_route prefix routes method url := match_from 0 routes method (TrimPrefix (u_Path url) prefix);
  RequestID h r := bind (h r) Ret;
  Recoverer h r := bind (h r) (fun resp =>
    Ret (match resp with Panicked => HttpError 500 [] "" | _ => resp end));
  Timeout _ h r := bind (h r) Ret;
  httprate_Limit _ _ _ := Ret true;
}.

Lemma match_from_route k routes method path n vars :
  match_from k routes method path = Routed n vars ->
  exists m p, routes !! (n - k)%nat = Some (m, p) /\ (m = None \/ m = Some method) /\ (k <= n)%nat.
Proof.
  revert k. induction routes as [|[m p] routes IH]; intros k; cbn [match_from]; [done|].
  assert (forall k, match_from (S k) routes method path = Routed n vars ->
    exists m' p', ((m, p) :: routes) !! (n - k)%nat = Some (m', p') /\ (m' = None \/ m' = Some method) /\ (k <= n)%nat)
    as Hnext.
  { intros j (m' & p' & Hl & Hm & Hle)%IH. exists m', p'. split_and!; [|done|lia].
    replace (n - j)%nat with (S (n - S j)) by lia. done. }
  destruct (match_segments _ _) as [v|]; [|apply Hnext].
  destruct (match m with None => true | Some _ => _ end) eqn:Hm; [|apply Hnext].
  intros [= <- _]. exists m, p. rewrite Nat.sub_diag. split_and!; [done| |done].
  destruct m as [m|]; [|by left]. right. apply bool_decide_eq_true in Hm. by rewrite Hm.
Qed.

#[export] Instance sample_chi_laws : ChiLaws.
Proof.
  split.
  - intros prefix routes method url n vars (m & p & Hl & Hm & _)%match_from_route. rewrite Nat.sub_0_r in Hl. eauto.
  - by exists (fun resp => resp).
  - eexists. split; [|done]. by intros [].
  - intros d. by exists (fun resp => resp).
  - intros n window r. apply touches_ret.
Qed.

(** ** A configuration and its server *)

Definition sample_config : Config := {|
  cfg_Host := "0.0.0.0"; cfg_Port := 8080; cfg_IssuerURL := "https://idp"; cfg_StoreDriver := "FILE ";
  cfg_DataDir := "./data"; cfg_StoreDSN := ""; cfg_SessionDuration := 24 * Hour; cfg_CookieSecret := "";
  cfg_CookieSecure := false; cfg_CookieDomain := ""; cfg_AccessTokenTTL := 5 * Minute;
  cfg_RefreshTokenTTL := 168 * Hour; cfg_AuthCodeTTL := 10 * Minute; cfg_PasswordResetTTL := 1 * Hour;
  cfg_PasswordResetInterval := 2 * Minute; cfg_EmailVerifyTTL := 24 * Hour; cfg_MailDriver := "log";
  cfg_SMTPHost := ""; cfg_SMTPPort := 587; cfg_SMTPUsername := ""; cfg_SMTPPassword := ""; cfg_SMTPFrom := "";
  cfg_SMTPImplicitTLS := false; cfg_PlaygroundEnabled := true; cfg_RequireConsent := true;
  cfg_SigningAlgorithm := "EdDSA"; cfg_SigningKeyRotationDays := 30; cfg_SigningKeyGracePeriod := 24 * Hour;
  cfg_MaintenanceInterval := 10 * Minute; cfg_AuditRetention := 2160 * Hour; cfg_LoginRateLimit := 5;
  cfg_LockoutMaxAttempts := 5; cfg_LockoutDuration := 15 * Minute; cfg_LogLevel := "info"; cfg_LogFormat := "json";
  cfg_CORSAllowedOrigins := "https://web, https://app"; cfg_CORSAllowCredentials := true;
  cfg_TrustedProxies := "10.0.0.0/8, ::1"; cfg_SecurityHeadersEnabled := true;
  cfg_ContentSecurityPolicy := "default-src 'self'"; cfg_HSTSMaxAge := 31536000; cfg_MetricsEnabled := true;
  cfg_GroupsClaim := "groups"; cfg_BootstrapGroups := "staff:carol@example.com bob@example.com";
  cfg_AdminEmails := "Alice@example.com"; cfg_BootstrapUsers := "carol@example.com:carol's pw:Carol";
  cfg_ClientID := "app"; cfg_ClientSecret := ""; cfg_ClientRedirectURI := "https://app/cb";
  cfg_BootstrapClients := "bad||javascript:x"; cfg_CookieSecretGenerated := false |}.

Definition loaded : res Config := (run (Load (fun _ => Ok sample_config) (fun _ => None)) sample_world).1.
Definition running_config : Config := match loaded with Ok c => c | Err _ => sample_config end.

Lemma config_sound_witness :
  loaded = Ok running_config /\ cfg_StoreDriver running_config = "file" /\
  cfg_CookieSecret running_config <> "" /\ cfg_CookieSecure running_config = true /\
  cfg_PlaygroundEnabled running_config = false /\
  (forall next r, hr_Header r "Origin" = "https://evil" -> hr_Method r = "GET" ->
   CORSMiddleware (Some (cors_config running_config)) next r = next r).
Proof.
  destruct (run (Load (fun _ => Ok sample_config) (fun _ => None)) sample_world) as [x w'] eqn:Hrun.
  assert (x = Ok running_config) as ->.
  { transitivity loaded; [unfold loaded; by rewrite Hrun|]. vm_compute. reflexivity. }
  destruct (config_sound _ _ _ _ _ Hrun) as (_ & Hsecret & _ & Hhttps & Hcors).
  destruct (Hhttps ltac:(vm_compute; reflexivity)) as [Hsecure Hplay].
  split; [vm_compute; reflexivity|]. split; [vm_compute; reflexivity|]. split; [exact Hsecret|].
  split; [by apply Hsecure|]. split; [by apply Hplay|]. intros next r Ho Hm.
  rewrite (Hcors (cors_config running_config) next r); [|vm_compute; reflexivity|reflexivity|].
  - by rewrite Hm.
  - rewrite Ho. apply (bool_decide_eq_true_1 _). vm_compute. reflexivity.
Defined.

Definition provisioned_world : World := after (provision running_config) sample_world.
Definition rows_of {A} (c : Coll (list A)) (w : World) : list A :=
  match get c (w_disk w) with FData rows => rows | _ => [] end.

Lemma provision_sound_witness :
  map user_Email (rows_of CUsers provisioned_world) = ["alice@example.com"; "bob@example.com"; "carol@example.com"] /\
  map user_Admin (rows_of CUsers provisioned_world) = [true; false; false] /\
  map client_ID (rows_of CClients provisioned_world) = ["web"; "app"] /\
  (exists kept added, rows_of CUsers provisioned_world = kept ++ added /\
     Forall2 (promoted (same_email := EqualFold) running_config) [alice; bob] kept /\
     Forall (provisioned (same_email := EqualFold) running_config) added) /\
  get CTokens (w_disk provisioned_world) = get CTokens (w_disk sample_world).
Proof.
  assert (run (provision running_config) sample_world = (tt, provisioned_world)) as Hrun.
  { unfold provisioned_world, after. by destruct (run _ _) as [[] w']. }
  destruct (provision_sound running_config [alice; bob] [web] sample_world provisioned_world Hrun eq_refl
    ltac:(by apply (bool_decide_eq_true_1 _)) eq_refl) as (Hu & _ & Hf).
  split; [vm_compute; reflexivity|]. split; [vm_compute; reflexivity|]. split; [vm_compute; reflexivity|].
  split; [apply Hu; vm_compute; reflexivity|].
  apply (frame_get _ _ _ _ Hf). apply (bool_decide_eq_true_1 _). vm_compute. reflexivity.
Defined.

Definition no_readiness : Prog (res unit) := ret_ok tt.
Definition accepted (_ _ : string) (_ : list string) : option error := None.
Definition sample_startup : Prog (res Server) := startup accepted no_readiness running_config.
Definition sample_server : Server :=
  match (run sample_startup sample_world).1 with Ok s => s | Err _ => no_options end.
Definition no_files : Handler := fun _ => Ret (HttpError StatusNotFound [] "404 page not found").
Definition sample_serve : Handler := NewServer sample_server no_files no_files None true.

Lemma discovery_served_witness :
  run sample_startup sample_world = (Ok sample_server, after sample_startup sample_world) /\
  od_TokenEndpoint (document_of sample_server) = "https://idp/token" /\
  serves (routes sample_server no_files no_files None) "POST" "/token" /\
  match (run (sample_serve (get_request "/.well-known/openid-configuration" "" [])) sample_world).1 with
  | Wrote status _ (BDiscovery d) => status = StatusOK /\ d = document_of sample_server
  | _ => False
  end.
Proof.
  assert (run sample_startup sample_world = (Ok sample_server, after sample_startup sample_world)) as Hrun.
  { assert ((run sample_startup sample_world).1 = Ok sample_server) as H1 by (vm_compute; reflexivity).
    unfold after. destruct (run sample_startup sample_world) as [x w']. cbn in *. by rewrite H1. }
  split; [exact Hrun|]. split; [vm_compute; reflexivity|].
  destruct (discovery_served accepted no_readiness no_files no_files None _ _ _ _ Hrun
    ltac:(vm_compute; discriminate)) as (_ & Hend & _).
  split; [|vm_compute; split; reflexivity].
  unfold endpoints in Hend. do 2 apply List.Forall_inv_tail in Hend. apply List.Forall_inv in Hend.
  destruct Hend as (path & Hpath & Hserves). assert (path = "/token") as <-; [|exact Hserves].
  vm_compute in Hpath. injection Hpath as Hpath. by symmetry.
Defined.

(** ** A form posted by another site *)

(** Alice's browser sends her session, but not the cookie of the form. *)
Definition cross_site : HttpRequest := post_request "/account/password"
  [("current_password", "correct horse"); ("new_password", "chosen by another")] [(SessionCookieName, session_token)].

Lemma csrf_required_witness :
  (exists user, (run (GetCurrentUser (parsed_lazily cross_site)) signed_in_world).1 = Ok user /\ user_ID user = "alice") /\
  rows_of CUsers (after (sample_serve cross_site) signed_in_world) = rows_of CUsers signed_in_world.
Proof.
  split; [eexists; split; [vm_compute; reflexivity|vm_compute; reflexivity]|].
  assert (frame [NSessions] signed_in_world (after (sample_serve cross_site) signed_in_world)) as Hf.
  { apply (csrf_required sample_server no_files no_files None).
    - split.
      + intros r. apply touches_ret.
      + intros r. apply touches_ret.
      + intros c Hc. vm_compute in Hc. injection Hc as <-. apply touches_ret.
      + intros auth cfg Ha Hc. vm_compute in Ha, Hc. injection Ha as <-. injection Hc as <-. reflexivity.
    - intros auth _ v t Hv. exfalso.
      assert (first_value csrfHostCookieName (hr_cookies cross_site) = None /\
              first_value CSRFCookieName (hr_cookies cross_site) = None) as [H1 H2] by (split; vm_compute; reflexivity).
      unfold csrf_cookieName in Hv. destruct (_ && _) in Hv; congruence.
    - intros pattern (n & vars & rt & Hm & Hl & <-).
      assert (n = 36%nat) as ->. { vm_compute in Hm. injection Hm as <- _. reflexivity. }
      assert (rt_Pattern <$> routes sample_server no_files no_files None !! 36%nat = Some "/account/password") as Hp
        by (vm_compute; reflexivity).
      rewrite Hl in Hp. injection Hp as ->. apply (bool_decide_eq_true_1 _). vm_compute. reflexivity. }
  assert (get CUsers (w_disk (after (sample_serve cross_site) signed_in_world)) = get CUsers (w_disk signed_in_world))
    as Heq by (apply (frame_get _ _ _ _ Hf); apply (bool_decide_eq_true_1 _); vm_compute; reflexivity).
  unfold rows_of. rewrite Heq. reflexivity.
Defined.

(** ** The key set *)

Definition sample_jwks : Prog Response := JWKS (get_request "/.well-known/jwks.json" "" []).
Definition fetched : World := after sample_jwks exchanged.

Definition served_keys : list JWK :=
  match (run sample_jwks exchanged).1 with Wrote _ _ (BJwks l) => l | _ => [] end.
Definition checked : res Claims :=
  (run (ValidateAccessToken (ts_generator sample_service) (tk_AccessToken exchange_response)) fetched).1.

Lemma exchanged_keys rows active :
  get CKeys (w_disk exchanged) = FData (rows, active) -> forall k, k ∈ rows -> kp_stored k = k.
Proof.
  intros Hg k Hk. assert (rows = [sample_key]) as ->.
  { assert (get CKeys (w_disk exchanged) = FData ([sample_key], kp_Kid sample_key)) as He by (vm_compute; reflexivity).
    rewrite He in Hg. by injection Hg as <- _. }
  apply list_elem_of_singleton in Hk as ->. reflexivity.
Qed.

Lemma published_keys_cover_witness :
  exists claims h k, checked = Ok claims /\ cl_Subject claims = "alice" /\
    jwt_header (tk_AccessToken exchange_response) = Ok h /\
    ToJWK k ∈ served_keys /\ jh_kid h = Some (jwk_Kid (ToJWK k)).
Proof.
  assert (run sample_jwks exchanged = (Wrote StatusOK (public_json "300") (BJwks served_keys), fetched)) as Hj.
  { assert ((run sample_jwks exchanged).1 = Wrote StatusOK (public_json "300") (BJwks served_keys)) as H1
      by (vm_compute; reflexivity).
    unfold fetched, after. destruct (run sample_jwks exchanged). cbn in *. by rewrite H1. }
  destruct (run (ValidateAccessToken (ts_generator sample_service) (tk_AccessToken exchange_response)) fetched)
    as [v w3] eqn:Hv.
  assert (checked = v) as Hcheck by (unfold checked; by rewrite Hv).
  destruct v as [claims|e]; [|vm_compute in Hcheck; discriminate Hcheck].
  assert (forall w, w_tick w <= w_tick w /\ get CKeys (w_disk w) = get CKeys (w_disk w))%nat as Hsame
    by (intros w; split; [apply Nat.le_refl|reflexivity]).
  destruct (Hsame fetched) as [Htick Hfile]. unfold sample_jwks in Hj.
  destruct (published_keys_cover (ts_generator sample_service) sample_keyService
    (get_request "/.well-known/jwks.json" "" []) exchanged StatusOK (public_json "300") served_keys fetched fetched
    (tk_AccessToken exchange_response) claims w3 eq_refl exchanged_keys Hj Htick Hfile Hv) as (h & k & t & json & Hh & _ & _ & Hk & Hkid & _).
  exists claims, h, k. split; [done|]. split; [|by split_and!].
  vm_compute in Hcheck. injection Hcheck as <-. vm_compute. reflexivity.
Defined.

(** ** Behind a proxy *)

Definition proxies : list Prefix := trusted_proxies running_config.

(** The client wrote 6.6.6.6 and a X-Real-IP; the proxies at 10.0.0.7 and
    10.0.0.9 appended whom they saw. *)
Definition forwarded : HttpRequest := {|
  hr_Method := "GET"; hr_URL := url_of "/login" ""; hr_body := Ok None; hr_multipart := [];
  hr_header := [("X-Forwarded-For", "6.6.6.6, 203.0.113.9, 10.0.0.7"); ("X-Real-IP", "6.6.6.6")];
  hr_cookies := []; hr_RemoteAddr := "10.0.0.9:443"; hr_vars := [] |}.

Lemma address_text_dec h :
  (h !=? "") && forallb (fun c => (33 <=? c) && (c <=? 126) && negb (c =? 44)) (bytes h) = true -> address_text h.
Proof.
  intros [Hne Hall]%andb_prop. bool_to_prop. rewrite List.forallb_forall in Hall. split; [done|]. split.
  - apply List.Forall_forall. intros c Hc. specialize (Hall c Hc). cbn beta in Hall.
    rewrite !andb_true_iff, !Z.leb_le in Hall. unfold graphic. lia.
  - intros Hin%list_elem_of_In. specialize (Hall _ Hin). vm_compute in Hall. discriminate.
Qed.

Lemma client_address_unspoofable_witness :
  hr_RemoteAddr (real_request proxies forwarded) = "203.0.113.9" /\
  first_value "X-Real-IP" (hr_header (real_request proxies forwarded)) = None /\
  hr_RemoteAddr (real_request [] forwarded) = "10.0.0.9:443".
Proof.
  destruct (client_address_unspoofable proxies forwarded) as [_ Htrusted].
  destruct (client_address_unspoofable [] forwarded) as [Hpeer _].
  destruct (Htrusted ltac:(vm_compute; reflexivity)) as [Hclient Hdropped].
  destruct (Hpeer ltac:(vm_compute; reflexivity)) as [Hkept _].
  split; [|split; [apply Hdropped; by left|exact Hkept]].
  rewrite (Hclient [] "6.6.6.6" "203.0.113.9" (Addr4 3405803785) ["10.0.0.7"]).
  - vm_compute. reflexivity.
  - vm_compute. reflexivity.
  - repeat (apply List.Forall_cons; [by apply address_text_dec|]). constructor.
  - vm_compute. reflexivity.
  - vm_compute. reflexivity.
  - apply List.Forall_cons; [|constructor]. exists (Addr4 167772167). split; vm_compute; reflexivity.
Defined.

(** ** The command line *)

Definition added_client : list string :=
  ["-redirect"; "https://app/cb"; "app"; "-access-ttl=10m"; "-name"; "The App"].
Definition printed_lines : list printed :=
  match (run (client_add added_client) sample_world).1 with Ok l => l | Err _ => [] end.

Lemma client_add_sound_witness :
  length printed_lines = 2%nat /\
  exists fs id hash secret t, parseOne client_add_flags added_client "id" = Ok (fs, id) /\
    appended CClients (fun y => client_ID y ==? id) (client_set_times t t (ctl_client fs id hash)) sample_world
      (after (client_add added_client) sample_world) /\
    VerifyPassword secret hash = Ok true.
Proof.
  split; [vm_compute; reflexivity|].
  assert (run (client_add added_client) sample_world = (Ok printed_lines, after (client_add added_client) sample_world))
    as Hrun.
  { assert ((run (client_add added_client) sample_world).1 = Ok printed_lines) as H1 by (vm_compute; reflexivity).
    unfold after. destruct (run _ sample_world) as [x w']. cbn in *. by rewrite H1. }
  destruct (client_add_sound added_client _ _ _ Hrun) as (fs & id & hash & secret & t & Hp & _ & Happ & Hsec).
  exists fs, id, hash, secret, t. split; [exact Hp|]. split; [exact Happ|].
  assert (flag_bool fs "public" = false) as Hpub; [|rewrite Hpub in Hsec; exact (proj1 Hsec)].
  vm_compute in Hp. injection Hp as <- _. reflexivity.
Defined.

Lemma command_footprint_witness :
  let w' := after (ctl_run "usage" sample_keyService None ["user"; "delete"; "alice@example.com"]) sample_world in
  map user_ID (rows_of CUsers w') = ["bob"] /\
  get CClients (w_disk w') = get CClients (w_disk sample_world) /\
  get CKeys (w_disk w') = get CKeys (w_disk sample_world).
Proof.
  cbv zeta. pose proof (command_footprint "usage" sample_keyService None ["user"; "delete"; "alice@example.com"]
    sample_world ltac:(discriminate)) as Hf.
  split; [vm_compute; reflexivity|].
  split; apply (frame_get _ _ _ _ Hf); apply (bool_decide_eq_true_1 _); vm_compute; reflexivity.
Defined.

(** ** A mail *)

Definition smtp_config : SMTPConfig := {|
  smtp_Host := "mail.example.com"; smtp_Port := 587; smtp_Username := "idp"; smtp_Password := "pw";
  smtp_From := "idp@example.com"; smtp_ImplicitTLS := false |}.
Definition tricky : Message := {|
  msg_To := "alice@example.com"; msg_Subject := "Hi" +:+ crlf +:+ "Bcc: eve@example.com";
  msg_Body := "one" +:+ crlf +:+ "two" |}.
Definition mailed : list smtp_command * res unit :=
  Send smtp_config (fun _ _ => None) true "Mon, 02 Jan 2006 15:04:05 -0700" tricky.

Lemma mail_sound_witness :
  mailed.2 = Ok tt /\ In (Write (buildMessage "Mon, 02 Jan 2006 15:04:05 -0700" "idp@example.com" tricky)) mailed.1 /\
  header_lines (buildMessage "Mon, 02 Jan 2006 15:04:05 -0700" "idp@example.com" tricky)
  = map line_of ["From: idp@example.com"; "To: alice@example.com"; "Subject: Hi  Bcc: eve@example.com";
                 "Date: Mon, 02 Jan 2006 15:04:05 -0700"; "MIME-Version: 1.0";
                 "Content-Type: text/plain; charset=utf-8"].
Proof.
  assert (In (Write (buildMessage "Mon, 02 Jan 2006 15:04:05 -0700" "idp@example.com" tricky)) mailed.1) as Hin
    by (vm_compute; tauto).
  destruct (mail_sound smtp_config (fun _ _ => None) true "Mon, 02 Jan 2006 15:04:05 -0700" tricky mailed.1 mailed.2
    ltac:(unfold mailed; by destruct (Send _ _ _ _ _))
    ltac:(split; unfold has_no; apply (bool_decide_eq_true_1 _); vm_compute; reflexivity)) as (Hheader & _).
  split; [vm_compute; reflexivity|]. split; [exact Hin|]. apply Hheader. by apply list_elem_of_In.
Defined.

(** ** The playground signs in *)

(** A toy encoding of the token response: its fields, line by line. *)
#[export] Instance sample_playground : PlaygroundLib := {
  body_text resp := match resp with
    | Wrote _ _ (BTokens t) => Join [tk_AccessToken t; tk_TokenType t; dec (tk_ExpiresIn t); tk_RefreshToken t;
                                     tk_IDToken t; tk_Scope t] lf
    | HttpError _ _ m => m
    | _ => ""
    end;
  unmarshal_tokens s := match Split s (ascii_of_nat 10) with
    | [a; ty; ex; r; i; sc] => Ok (Build_TokenResponse a ty (default 0 (Atoi ex)) r i sc)
    | _ => Err ErrJSON
    end;
  marshal_tokens t := tk_AccessToken t;
  indented _ := None;
  string_members _ := None;
  clock_text t := dec t;
}.

Definition playing_server : Server := WithPlayground sample_server.
Definition mounted : option PlaygroundHandler := (run (enable_playground playing_server) signed_in_world).1.
Definition sample_pg : PlaygroundHandler :=
  match mounted with Some h => h | None => {| ph_csrf := as_csrf sample_auth; ph_issuer := ""; ph_secret := "" |} end.
Definition play : Handler := self_server playing_server no_files no_files 1 sample_pg true.

(** Alice has let the playground see her profile. *)
Definition agreed : Consent := {|
  consent_ID := "c"; consent_UserID := "alice"; consent_ClientID := PlaygroundClientID;
  consent_Scopes := ["openid"; "profile"]; consent_GrantedAt := 0 |}.
Definition mounted_world : World :=
  let w := after (enable_playground playing_server) signed_in_world in with_disk (set CConsents (FData [agreed]) (w_disk w)) w.

(** The cookies a run sets, the last one first. *)
Definition cookies_set (w : World) : list (string * string) :=
  omap (fun o => match o with SetCookie c => Some (ck_Name c, ck_Value c) | _ => None end) (rev (w_out w)).
Definition location_of (resp : Response) : string := match resp with Redirected url _ => url | _ => "" end.
Definition visit (url : string) (cookies : list (string * string)) : HttpRequest :=
  let '(path, query, _) := Cut "?"%char url in get_request path query cookies.

(** Alice's browser goes from the form to the callback and comes back there a
    second time: where each answer sends it, and the session that is kept. *)
Definition signing_in : list string * option (string * string * Z * string) :=
  let '(_, shown) := run (play (get_request "/playground/" "" [])) mounted_world in
  let token := default "" (first_value csrfHostCookieName (cookies_set shown)) in
  let '(started, w1) := run (play (post_request "/playground/start" [(CSRFFormField, token); ("scope", "profile")]
    [(csrfHostCookieName, token); (SessionCookieName, session_token)])) shown in
  let '(answered, w2) := run (play (visit (location_of started) [(SessionCookieName, session_token)])) w1 in
  let callback := visit (TrimPrefix (location_of answered) "https://idp") [] in
  let '(back, w3) := run (play callback) w2 in
  let '(again, _) := run (play callback) w3 in
  ([String.substring 0 11 (location_of started); String.substring 0 37 (location_of answered); location_of back; location_of again],
   option_map (fun s => (ps_obtained s, tk_TokenType (ps_tokens s), tk_ExpiresIn (ps_tokens s), tk_Scope (ps_tokens s)))
     (head (map snd (map_to_list (pg_objects (m_playground (w_mem w3))))))).

(** From the form to the tokens: the playground's own server grants it a code
    for Alice, exchanges it for tokens of the scope she agreed to, and the
    callback works once. *)
Example playground_signs_in : signing_in =
  (["/authorize?"; "https://idp/playground/callback?code="; "/playground?flash=Signed+in%3A+tokens+received+from+%2Ftoken";
    "/playground?" +:+ Values_Encode [("error", "Unknown or expired state — start again")]],
   Some ("authorization_code", "Bearer", 300, "openid profile")).
Proof. vm_cast_no_check (eq_refl signing_in). Qed.

(** ** Requests at once *)

(** Two pages of the playground, which ask the server for the claims of whoever
    signed in, the key set and a forged form, beside the maintenance. *)
Definition playground_page : HttpRequest := get_request "/playground/" "" [(playgroundCookie, "pg")].
Definition playing : World :=
  with_mem (set_playground (add_session "pg" no_session (m_playground empty_mem)) (w_mem signed_in_world)) signed_in_world.

