(* ===== verification/SqliteScenarios.v ===== *)
(** * Concrete runs over the SQLite store

    The sample server and its requests over a database with the sample rows;
    the witnesses of [SqliteFacts] and [SingleUse]; and a database of an earlier
    release that is backed up, and opened, for [Opening]. *)
From S2P Require Import Prelude GoTime GoText Encoding Errors Domain Database Lockout PendingLogins.
From S2P Require Import World Run Store FileStore Sqlite Keys Password Jwt Session AuthService Authorize TokenService.
From S2P Require Import Interleaving Http Middleware Server Sample Completion SqliteFacts SingleUse Opening.
From S2P Require Import Scenarios AccessScenarios ServerScenarios.
#[local] Open Scope Z_scope.
#[local] Open Scope go_scope.

#[export] Instance sample_sqlite : Sqlite := {| sqlite_reports := hd "" |}.
#[export] Instance sample_sqlite_laws : SqliteLaws.
Proof. constructor. intros [|x l] Hl; [done|by left]. Qed.

Definition sample_db : Database :=
  Build_Database true [alice; bob] [web] [] [sample_code] [sample_refresh] [] [] [] [] []
    [key_row (kp_set_active true (kp_stored sample_key))] [] [].
Definition sqlite_world : World := with_db sample_db sample_world.

Lemma sample_db_intact : intact sample_db.
Proof.
  split; [intros A T; destruct T; vm_compute; reflexivity|].
  intros _ A T. destruct T; repeat (apply List.Forall_cons; [vm_compute; reflexivity|]); apply List.Forall_nil.
Qed.

(** ** Exchanges of one code, beside the issue of another *)

Definition sqlite_issuing : Prog (res TokenResponse) :=
  bind (Sqlite.authCodeRepository_Create another_code) (fun _ => ret_err (Plain "issued")).
Definition sqlite_exchange : Prog (res TokenResponse) := @HandleAuthorizationCode SQLiteStore _ _ _ sample_service code_request.
Definition sqlite_refresh : Prog (res TokenResponse) := @HandleRefreshToken SQLiteStore _ _ _ sample_service (refresh_request "openid").

Definition sqlite_raced : list (Prog (res TokenResponse)) * World :=
  schedule (repeat 3%nat 1 ++ concat (repeat [0; 2; 1; 1; 3]%nat 90))
    ([sqlite_exchange; sqlite_exchange; sqlite_refresh; sqlite_issuing], sqlite_world).

Lemma code_taken_once_witness :
  exists i resp, sqlite_raced.1 !! i = Some (Ret (Ok resp)) /\ (i < 2)%nat /\
    (forall j b, (j < 2)%nat -> sqlite_raced.1 !! j = Some (Ret (Ok b)) -> j = i) /\
    sqlite_raced.1 !! (1 - i)%nat = Some (Ret (Err reuse_code)) /\
    sqlite_raced.1 !! 3%nat = Some (Ret (Err (Plain "issued"))).
Proof.
  set (i := 1%nat).
  destruct (sqlite_raced.1 !! i ≫= outcome) as [[resp|e]|] eqn:Hwin; [|vm_compute in Hwin; discriminate Hwin..].
  exists i, resp. apply outcome_Ret in Hwin. split; [exact Hwin|]. split; [unfold i; lia|].
  split; [|split; apply outcome_Ret; vm_compute; reflexivity].
  intros j b Hj Hb.
  apply (code_taken_once sample_service [code_request; code_request] [refresh_request "openid"] [sqlite_issuing]
    sqlite_world sqlite_raced.1 sqlite_raced.2 j i code_request code_request b resp);
    [| | |reflexivity|reflexivity|exact Hb|exact Hwin].
  - apply List.Forall_cons; [|constructor]. apply harmless_bind; [|done]. apply issue_spares.
    intros (r & Hr & Hc). repeat (apply elem_of_cons in Hr as [->|Hr]; [discriminate Hc|]). by apply elem_of_nil in Hr.
  - rewrite <-surjective_pairing. apply schedule_steps.
  - destruct j as [|[|j]]; [reflexivity|reflexivity|lia].
Defined.

(** The same schedule of accesses that brings a rotated token back over the
    file store: the two refreshes, and an exchange that stores a new token. *)
Definition sqlite_rotated : list (Prog (res TokenResponse)) * World :=
  schedule (concat (repeat [0; 2; 1]%nat 90)) ([sqlite_refresh; sqlite_refresh; sqlite_exchange], sqlite_world).

Lemma refresh_taken_once_witness :
  exists i resp, sqlite_rotated.1 !! i = Some (Ret (Ok resp)) /\ (i < 2)%nat /\
    (forall j b, (j < 2)%nat -> sqlite_rotated.1 !! j = Some (Ret (Ok b)) -> j = i) /\
    sqlite_rotated.1 !! (1 - i)%nat = Some (Ret (Err reuse_refresh)).
Proof.
  set (i := 0%nat).
  destruct (sqlite_rotated.1 !! i ≫= outcome) as [[resp|e]|] eqn:Hwin; [|vm_compute in Hwin; discriminate Hwin..].
  exists i, resp. apply outcome_Ret in Hwin. split; [exact Hwin|]. split; [unfold i; lia|].
  split; [|apply outcome_Ret; vm_compute; reflexivity].
  intros j b Hj Hb.
  apply (refresh_taken_once sample_service [refresh_request "openid"; refresh_request "openid"] [code_request] []
    sqlite_world sqlite_rotated.1 sqlite_rotated.2 j i (refresh_request "openid") (refresh_request "openid") b resp);
    [constructor| | |reflexivity|reflexivity|exact Hb|exact Hwin].
  - rewrite <-surjective_pairing. apply schedule_steps.
  - destruct j as [|[|j]]; [reflexivity|reflexivity|lia].
Defined.

(** ** Keys *)

Definition sqlite_rotation : res KeyPair * World :=
  run (@RotateKey SQLiteStore _ sample_keyService (24 * Hour)) sqlite_world.

Lemma active_key_kept_witness :
  exists new l, sqlite_rotation.1 = Ok new /\
    w_db sqlite_rotation.2 = set_rows TSigningKeys (l ++ [key_row new]) sample_db /\
    map sk_Active l = [false] /\ kp_Active new = true.
Proof.
  unfold sqlite_rotation. destruct (run _ sqlite_world) as [r w'] eqn:Hrun.
  assert ((run (@RotateKey SQLiteStore _ sample_keyService (24 * Hour)) sqlite_world).1 = r) as Hr by (rewrite Hrun; reflexivity).
  destruct r as [new|e]; [|vm_compute in Hr; discriminate Hr]. clear Hr.
  destruct (active_key_kept sample_keyService sqlite_world sample_db_intact) as (_ & _ & Hrotate).
  destruct (Hrotate (24 * Hour) new w') as ((_ & Hact & _) & _ & l & Hdb & Hold); [|exact Hrun|].
  { intros x [<-|[]]. exists 0%nat. split; [apply Nat.lt_0_succ|vm_compute; reflexivity]. }
  exists new, l. split; [done|]. split; [exact Hdb|]. split; [|exact Hact].
  destruct Hold as [(t & _ & ->)|[_ ->]]; reflexivity.
Defined.

(** ** One operation over both stores *)


(** ** A backup, and the opening of a database of an earlier release *)

Definition old_host : Host (list string) := {|
  h_dsn := ""; h_database := {| sn_version := 3; sn_rows := ["alice"; "bob"] |};
  h_files := {[ "data/idpico.db" := holding Other 0x1A4 ]} |}.

(** Other processes may add rows. *)
Definition appends (s s' : Snapshot (list string)) : Prop := exists l, s' = {| sn_version := sn_version s; sn_rows := sn_rows s ++ l |}.

Definition lucky_now {A} (p : Sys A) : A * Host (list string) :=
  lucky (1709210096 * Second) 0x1A4 (fun rows => rows ++ ["migrated"]) p old_host.

Lemma backup_atomic_witness :
  (lucky_now (backup "backups/nightly.db")).1 = Ok tt /\
  h_files (lucky_now (backup "backups/nightly.db")).2 !! "backups/nightly.db"
    = Some (holding (Copy (h_database old_host)) 0x180) /\
  backup_crash appends "backups/nightly.db" old_host (lucky_now (backup "backups/nightly.db")).2.
Proof.
  split; [reflexivity|]. split; [vm_compute; reflexivity|].
  apply (backup_atomic appends "backups/nightly.db" old_host _ _ (lucky_run appends (1709210096 * Second) 0x1A4 (fun rows => rows ++ ["migrated"]) _ _)).
Defined.

Definition way_back_at : string := "data/backups/idpico-pre-migration-v3-to-v6-20240229T123456Z.db".

Lemma migration_way_back_witness :
  own_file "data/idpico.db" = true /\ 0 < sn_version (h_database old_host) /\
  (lucky_now (sqlite_NewStore "data/idpico.db")).1 = Ok SQLiteStore /\
  h_files (lucky_now (sqlite_NewStore "data/idpico.db")).2 !! way_back_at
    = Some (holding (Copy (h_database old_host)) 0x180) /\
  embedded <= sn_version (h_database (lucky_now (sqlite_NewStore "data/idpico.db")).2).
Proof.
  split; [reflexivity|]. split; [reflexivity|]. split; [reflexivity|]. split; [vm_compute; reflexivity|].
  refine (proj2 (migration_way_back appends "data/idpico.db" old_host _ _ _ _ _
    (lucky_run appends (1709210096 * Second) 0x1A4 (fun rows => rows ++ ["migrated"]) _ _)) SQLiteStore _).
  - by intros s s' [l ->].
  - reflexivity.
  - reflexivity.
  - reflexivity.
Defined.

